(* ===== verification/_CoqProject ===== *)
-Q . S2P
Prelude.v
Outcome.v
Jitter.v
CString.v
Audio.v
Buffer.v
PortAllocator.v
HashTable.v
Encoding.v
Tokenizer.v
Event.v
Stun.v
CoreHash.v
Acl.v
TimeZone.v
TimeCond.v
XmlTree.v
Xml.v
Dmachine.v
EventBus.v
Scheduler.v
Dtmf.v
ChannelVars.v
Expand.v
ChannelNames.v
Channel.v
Sessions.v
Mailbox.v
Answer.v
Caller.v
StateMachine.v
