(* ===== verification/Prelude.v ===== *)
(** * A verification library for the core of FreeSWITCH

    FreeSWITCH is a telephony switch.  Its core library, libfreeswitch (files
    named below are those of src/lib/libfreeswitch/ and src/include/ of the
    repository), runs one session per call leg.  A session owns a channel and a
    thread; the thread drives the channel through its states and calls, for
    each of them, the state handlers of the endpoint, of the channel and of the
    core.  A channel has flags, variables, a queue of received digits, a stack
    of caller profiles, a call state and a hangup cause; it rings, sends early
    media and is answered.  Media arrives in packets that a jitter buffer puts
    back in order, and is mixed, scaled and coded as samples; addresses are
    found out with STUN and admitted by access lists.  Events (lists of headers)
    carry what happens to the listeners bound on the event bus and also serve as
    the maps that hold channel variables.  The texts of the dialplan refer to
    variables, which are expanded before they are used, and its conditions test
    the date and time in a zone; digits that a caller presses are recognised by
    a digit machine.  The configuration, the dialplan and the directory of users
    are XML documents, which are parsed, searched, built and printed.  Buffers,
    hash tables, the tokenizer, the encoders, the port allocator and the scheduler
    are the tools the rest is built from.

    ** The files

    - [Prelude]: machine integers as [Z] with their wrap-around, C memory blocks
      as lists of bytes (slices and blits by [Z] offsets), status values, the
      tactics [cint] and [zdiv], the hint database [cint].
    - [Outcome]: the result of code that can touch memory outside of its block
      or run out of fuel, as a monad.
    - [CString]: the C library's string functions the code uses, and the inline
      string helpers of switch_utils.h and switch_apr.c; [Proper] instances for
      equality up to letter case.
    - [Jitter]: stfu.c, the jitter buffer: three queues that trade places, with
      every counter of the C struct.
    - [Audio]: g711.h, g711.c, switch_pcm.c and the sample arithmetic of
      switch_resample.c, with the double arithmetic of the volume charts.
    - [Buffer]: switch_buffer.c.  The record [switch_buffer] has the fields of
      the C struct, the data block and the offset of the read pointer; the
      specification is a byte queue with a capacity.
    - [PortAllocator]: switch_core_port_allocator.c.  The socket probes and the
      random generator are parameters.
    - [HashTable]: switch_hashtable.c, switch_hashtable.h and its private
      header, down to the float arithmetic of the load limit; the hash and
      equality functions are parameters with the laws of the class [KeyLaws].
    - [CoreHash]: switch_core_hash.c on top of it; it is the instance of the
      class [StringMap] against which the event bus and the access lists are
      verified.
    - [Acl]: the network lists of switch_utils.c and switch_core.c, from the
      text of a block and the configuration to the verdict on an address;
      inet_pton is the class [Platform] with the laws [PlatformLaws].
    - [TimeZone]: the zones of switch_time.c: the parser of zone descriptions,
      the transitions of the years 1970 to 2037, a moment as a date.
    - [TimeCond]: the character tables, days, lists of numbers, times and dates
      of switch_utils.c, and the date and time condition of switch_xml.c.
    - [XmlTree]: the documents of switch_xml.c: tags in a heap with their lists
      of all tags, of names and of tags of one name; inserting, cutting, looking
      up, attributes, merging of a user with its group and domain.
    - [Xml]: the text of documents in switch_xml.c: the parser, which works off
      the text and calls the operations of [XmlTree], the printer in the block
      it enlarges, and switch_xml_dup, which is both.
    - [Dmachine]: the digit machine of switch_ivr_async.c, with its two digit
      buffers, its realms in a [StringMap] and its mutex as a count; regular
      expressions and callbacks are the class [Services].
    - [Stun]: switch_stun.c and the ICE packets of switch_rtp.c, on the bytes of
      the packet, with accesses outside of it as a value.
    - [Encoding], [Tokenizer]: base64, percent, XML and shell encodings, RFC
      2833 codes, splitting and escaping of strings, from switch_utils.c.
    - [Event]: the data part of switch_event.c: headers, arrays, creation,
      copies, replies, text form.  Headers have addresses, so that the tail
      pointer of the list is a pointer that could go stale.
    - [EventBus]: bindings, subclasses, delivery and dispatch, from
      switch_event.c.
    - [Scheduler]: switch_scheduler.c as a labelled step relation in which the
      callers, the task thread and the threads of single tasks interleave at the
      points where the mutex is free, also between the two parts of adding a
      task.
    - [Dtmf], [ChannelVars], [ChannelNames], [Channel]: switch_channel.c, with
      switch_core_session_recv_dtmf of switch_core_io.c and the digit limits of
      switch_core.c.  [Dtmf] uses APR's queues through the class [AprQueue].
      What a channel asks of the rest of the system (events fired, signals,
      presence of devices) is the list [trace] of [effect]s.
    - [Expand]: expanding variables, on a channel (switch_channel.c) and on an
      event (switch_event.c), in the block of the result; API commands are the
      class [Api].
    - [Sessions]: the session table, locks, requests, launch, destruction and
      hangup by table of switch_core_session.c and switch_core_rwlock.c, as
      operations and as a step relation of threads that look sessions up, hold
      and release them while sessions end.
    - [Mailbox]: the message, event, private event and signal data queues of a
      session (switch_core_session.c) and the loops of switch_ivr.c that work
      them off; endpoints and hooks are the class [Services] of the file.
    - [Answer]: the ring, early media and answer operations of switch_channel.c
      on a world of sessions that refer to each other by uuid; endpoints,
      applications and API commands are the class [Services] with the laws
      [ServiceLaws]: a service works by operations on channels, and none of its
      own sets or clears CF_ANSWERED.
    - [Caller]: switch_caller.c and the profile stack of switch_channel.c.
    - [StateMachine]: switch_core_state_machine.c.  Handlers, applications,
      hooks and message parsing are the class [Services]: for each call, what it
      does to the session and what it answers; the calls made are recorded.

    ** What the theorems show

    A statement that begins with a claim number (C1 to C40) is a property of
    the program; the other theorems are lemmas or describe flaws.

    - Life of a call ([Channel], [StateMachine], [Answer]: C1 to C5, C30,
      C31).  Which transitions exist and that any other request aborts; teardown
      is irrevocable and always ends the session thread; the order and the veto
      of state handlers; a leg is announced as answered once; a refusing
      endpoint ends the call; the dialplan extension is executed in order.
    - Data structures as their specifications ([HashTable], [Event],
      [ChannelVars], [Buffer], [Acl]: C6 to C10, C35).  For any sequence of
      operations a hash table, the headers of an event with unique names and the
      variables of a channel with their scopes answer like finite maps (a table
      up to the growth by realloc, which reads uninitialised memory; headers and
      variables apart from the names and values that mean arrays), buffers like
      growing queues, and an access list like its most specific rule, where a
      block is a prefix.
    - Sessions ([Sessions], [Mailbox]: C11, C17 to C20).  A session that a thread
      located is not freed while it is held, whatever the other threads do; when
      a request for a session is served; hanging up everybody reaches everybody;
      every message that is due is taken once, in order, and has an outcome that
      fits its kind; private events are a queue with priorities.
    - Digits ([Dmachine]: C12).  The digit machine implements an automaton of its
      strings.
    - Time ([TimeCond], [TimeZone]: C13, C14).  A condition holds exactly when
      its parts do, which the comments of the sample dialplan do not always say;
      the local time of a zone, against an independent calendar.
    - Expansion ([Expand]: C15, C16, C39).  Expanding is the meaning of the text
      as a template, ends even when variables refer to themselves and does not
      show what may not be read.
    - Media ([Jitter], [Audio]: C21, C22, C34).  The jitter buffer never aborts
      and restores the order of packets; G.711 codes survive a round trip.
    - Concurrency ([Scheduler]: C23, C24).  A deleted task does not start again,
      a running task is not freed, and the one access to a task that may have been
      is named.
    - Events ([EventBus], [Event]: C25, C26).  Binding, unbinding and delivery;
      the header list keeps its shape.
    - Ports and text ([PortAllocator], [Encoding], [Tokenizer]: C27 to C29).  A
      request is served while a port is free; round trips and bounds.
    - Callers ([Caller]: C33).  Which fields of which profiles can be looked up.
    - Network ([Stun]: C36).  Addresses survive the wire.
    - Documents ([Xml], [XmlTree]: C32, C37, C38, C40).  A document that is parsed
      from any text has sound lists, the parser ends, a document is the tree that was
      built, and a copy by printing and parsing is the same tree.

    Further theorems without a number cover, among others, the digit machine's
    buffers under any use, the bounds of the digit queues, the end of every
    reading of a STUN packet, the times of a call that is transferred, the single
    announcement of a hangup, the text form of events, the error bound of G.711,
    refused STUN packets, the built-in access lists, the character tables, the
    week of the month, fields of profiles without expansions, bounded buffers,
    iteration and deletion in hash tables, escaped fields, shell quoting, names
    of states and causes, exports to the other leg, digit strings, state
    handlers, copies of events and profiles, mixing, volume, late packets,
    percent encoding, escaped texts that expansion leaves alone, ZRTP on both
    legs or none, the ICE exchange, the rest of the dialplan after a transfer.

    ** Bounds and fuel

    Sizes are those of LP64.  Loops whose bound is in the data are structural.
    The others have fuel: [request_loop] of the port allocator needs five passes
    (C27 proves that this is enough: a slot cools down after four failures);
    arrays in [base_add_header] recurse once; [channel_loop] reads at most the
    30 slots of the handler table; [execute_loop] and [zombie_loop] return
    [None] when their fuel ends, and the theorems that use them take more fuel
    than any extension of the session has applications ([bounded]) and conclude
    that they return; [run_loop] counts turns of the session thread, and C2
    shows that two turns complete the teardown; the walks over STUN attributes
    have the size of the packet as fuel, and [stun_reading_ends] shows that it
    never runs out; a
    text to be expanded has its length as fuel and the depth of nesting the code
    allows, and C39 shows that both suffice; the days and numbers of a condition
    have the length of their text; the loops that work off or flush a queue of
    a session have its size, and C17 shows for messages that it suffices; walks
    along the lists of a document have the number of its tags (C38), the parser
    the length of the text and two steps for every character of a string, and C37
    shows that this suffices without a document type, whose entities may need the
    [k] more steps that are a parameter; printing has a bound on the number of
    tags as a parameter, and C32 and C40 say how much is enough; the
    search for the year of a moment has 40
    steps, which [year_search_epoch] shows to be enough for the years 881 to
    4 million.

    ** Not modelled

    Logging and tracing; memory exhaustion except where the source handles it
    by other means than aborting; locks as such (operations under a mutex are
    atomic, [Scheduler] and [Sessions] interleave where no mutex is held, and
    [Dmachine] counts).  Of switch_channel.c: device records, application flags.  Of
    switch_event.c: the binary, JSON and XML forms and the dispatch threads.  Of
    switch_utils.c: mail, files and sockets.  Of switch_time.c: clock, timer
    threads and strftime; APR's local time and mktime are parameters of
    [TimeCond].  Of switch_rtp.c: all but the ICE packets.  Of
    switch_core_session.c: outgoing channels, XML restore, the worker threads
    and media fields.  Of switch_xml.c: the preprocessor and files, the registry
    of sections and the user cache, which are input and output around the
    documents, the text of error messages, and the flags that say which strings
    are malloced.  Media transport, the rest of the IVR, databases, the module
    loader and the modules are outside of this development: they are built from
    threads, sockets, files and foreign libraries, of which a model would have
    to make up most, or (switch_ivr_originate.c, the endpoints) from everything
    that is modelled here together with these. *)

From stdpp Require Export prelude gmap strings.
From Stdlib Require Export ZArith Lia.

#[global] Open Scope Z_scope.

(** ** Machine integers

    A w-bit C integer is a [Z]; the wrap-around of the width is written out
    where the source's arithmetic can leave the range. *)

Declare Scope cint_scope.
Delimit Scope cint_scope with cint.

Definition wrap (w z : Z) : Z := z mod 2 ^ w.

(** Two's complement reading of the low [w] bits. *)
Definition swrap (w z : Z) : Z := (z + 2 ^ (w - 1)) mod 2 ^ w - 2 ^ (w - 1).

Abbreviation u8 := (wrap 8).
Abbreviation u16 := (wrap 16).
Abbreviation u32 := (wrap 32).
Abbreviation u64 := (wrap 64).
Abbreviation s32 := (swrap 32).
Abbreviation s64 := (swrap 64).

(** [size_t] subtraction and addition (LP64: 64 bits, modular). *)
Notation "a -u b" := (u64 (a - b)) (at level 50, left associativity) : cint_scope.
Notation "a +u b" := (u64 (a + b)) (at level 50, left associativity) : cint_scope.
#[global] Open Scope cint_scope.

(** The largest object C can hold: allocation requests above it fail. *)
Definition PTRDIFF_MAX : Z := 2 ^ 63 - 1.

Create HintDb cint.

Lemma wrap_small w z : 0 <= z < 2 ^ w -> wrap w z = z.
Proof. intros ?. unfold wrap. by rewrite Z.mod_small. Qed.

Lemma wrap_range w z : 0 <= w -> 0 <= wrap w z < 2 ^ w.
Proof. intros ?. unfold wrap. apply Z.mod_pos_bound. lia. Qed.

Lemma swrap_small w z : 0 < w -> - 2 ^ (w - 1) <= z < 2 ^ (w - 1) -> swrap w z = z.
Proof.
  intros Hw Hz. unfold swrap.
  assert (2 ^ w = 2 * 2 ^ (w - 1)) as Hp
    by (rewrite <-Z.pow_succ_r by lia; f_equal; lia).
  rewrite Z.mod_small; lia.
Qed.

Lemma swrap_range w z : 0 < w -> - 2 ^ (w - 1) <= swrap w z < 2 ^ (w - 1).
Proof.
  intros Hw. unfold swrap.
  assert (2 ^ w = 2 * 2 ^ (w - 1)) as Hp
    by (rewrite <-Z.pow_succ_r by lia; f_equal; lia).
  pose proof (Z.mod_pos_bound (z + 2 ^ (w - 1)) (2 ^ w)). lia.
Qed.

#[export] Hint Resolve wrap_small swrap_small wrap_range swrap_range : cint.

(** [cint] removes the wrap-arounds whose argument is in range. *)
Ltac cint :=
  unfold PTRDIFF_MAX in *;
  repeat match goal with
  | |- context [wrap ?w ?z] => rewrite (wrap_small w z) by lia
  | H : context [wrap ?w ?z] |- _ => rewrite (wrap_small w z) in H by lia
  | |- context [swrap ?w ?z] => rewrite (swrap_small w z) by lia
  | H : context [swrap ?w ?z] |- _ => rewrite (swrap_small w z) in H by lia
  end.

(** Linear arithmetic with division by constants. *)
Ltac zdiv := Z.to_euclidean_division_equations; lia.

(** ** Byte arrays

    Memory blocks and C strings are lists of bytes (values 0..255 in [Z]);
    C indexes them with integers, so lengths, slices and updates are over [Z]. *)

Abbreviation bytes := (list Z).

Section zlist.
Context {A : Type}.
Implicit Types l m src : list A.

Definition zlen l : Z := Z.of_nat (length l).
Definition ztake (n : Z) l : list A := take (Z.to_nat n) l.
Definition zdrop (n : Z) l : list A := drop (Z.to_nat n) l.

(** [len] bytes at offset [off]. *)
Definition slice (off len : Z) l : list A := zdrop off (ztake (off + len) l).

(** [memcpy] of the whole of [src] to offset [off] of the block [m]. *)
Definition blit (off : Z) src m : list A :=
  ztake off m ++ src ++ zdrop (off + zlen src) m.

Lemma zlen_nonneg l : 0 <= zlen l.
Proof. unfold zlen. lia. Qed.

Lemma zlen_nil : zlen (@nil A) = 0.
Proof. done. Qed.

Lemma zlen_cons x l : zlen (x :: l) = zlen l + 1.
Proof. unfold zlen. simpl. lia. Qed.

Lemma zlen_app l m : zlen (l ++ m) = zlen l + zlen m.
Proof. unfold zlen. rewrite length_app. lia. Qed.

Lemma zlen_replicate n (x : A) : zlen (replicate n x) = Z.of_nat n.
Proof. unfold zlen. by rewrite length_replicate. Qed.

Lemma zlen_ztake n l : 0 <= n -> zlen (ztake n l) = Z.min n (zlen l).
Proof. intros ?. unfold zlen, ztake. rewrite length_take. lia. Qed.

Lemma zlen_zdrop n l : 0 <= n -> zlen (zdrop n l) = Z.max 0 (zlen l - n).
Proof. intros ?. unfold zlen, zdrop. rewrite length_drop. lia. Qed.

Lemma zlen_slice off len l :
  0 <= off -> 0 <= len -> off + len <= zlen l -> zlen (slice off len l) = len.
Proof.
  intros ???. unfold slice.
  rewrite zlen_zdrop by lia. rewrite zlen_ztake by lia. lia.
Qed.

Lemma zlen_blit off src m :
  0 <= off -> off + zlen src <= zlen m -> zlen (blit off src m) = zlen m.
Proof.
  intros ??. pose proof (zlen_nonneg src). unfold blit. rewrite !zlen_app.
  rewrite zlen_ztake by lia. rewrite zlen_zdrop by lia. lia.
Qed.

Lemma ztake_0 l : ztake 0 l = [].
Proof. done. Qed.

Lemma zdrop_0 l : zdrop 0 l = l.
Proof. done. Qed.

Lemma ztake_all n l : zlen l <= n -> ztake n l = l.
Proof. unfold zlen, ztake. intros ?. apply take_ge. lia. Qed.

Lemma zdrop_all n l : zlen l <= n -> zdrop n l = [].
Proof. unfold zlen, zdrop. intros ?. apply drop_ge. lia. Qed.

Lemma ztake_zdrop n l : ztake n l ++ zdrop n l = l.
Proof. apply take_drop. Qed.

Lemma ztake_app_le n l m : n <= zlen l -> ztake n (l ++ m) = ztake n l.
Proof. unfold zlen, ztake. intros ?. apply take_app_le. lia. Qed.

Lemma zdrop_app_le n l m : n <= zlen l -> zdrop n (l ++ m) = zdrop n l ++ m.
Proof. unfold zlen, zdrop. intros ?. apply drop_app_le. lia. Qed.

Lemma ztake_app_exact l m : ztake (zlen l) (l ++ m) = l.
Proof. unfold ztake, zlen. apply take_app_length'. lia. Qed.

Lemma zdrop_app_exact l m : zdrop (zlen l) (l ++ m) = m.
Proof. unfold zdrop, zlen. apply drop_app_length'. lia. Qed.

Lemma ztake_ztake a b l : 0 <= a <= b -> ztake a (ztake b l) = ztake a l.
Proof. intros ?. unfold ztake. rewrite take_take. f_equal. lia. Qed.

Lemma zdrop_zdrop a b l : 0 <= a -> 0 <= b -> zdrop a (zdrop b l) = zdrop (b + a) l.
Proof. intros ??. unfold zdrop. rewrite drop_drop. f_equal. lia. Qed.

Lemma zdrop_ztake a b l : 0 <= a <= b -> ztake (b - a) (zdrop a l) = zdrop a (ztake b l).
Proof.
  intros ?. unfold ztake, zdrop. rewrite take_drop_commute. do 2 f_equal. lia.
Qed.

Lemma slice_0 n l : slice 0 n l = ztake n l.
Proof. done. Qed.

Lemma slice_prefix off a b l :
  0 <= off -> 0 <= a <= b -> slice off a l = ztake a (slice off b l).
Proof.
  intros ??. unfold slice.
  rewrite <-!zdrop_ztake by lia.
  replace (off + a - off) with a by lia. replace (off + b - off) with b by lia.
  by rewrite ztake_ztake by lia.
Qed.

Lemma slice_suffix off a b l :
  0 <= off -> 0 <= a <= b -> slice (off + a) (b - a) l = zdrop a (slice off b l).
Proof.
  intros ??. unfold slice. rewrite zdrop_zdrop by lia. do 2 f_equal. lia.
Qed.

(** Writing right behind a prefix extends the prefix. *)
Lemma ztake_blit_end a src m :
  0 <= a <= zlen m -> ztake (a + zlen src) (blit a src m) = ztake a m ++ src.
Proof.
  intros ?. pose proof (zlen_nonneg src). unfold blit.
  rewrite app_assoc. rewrite ztake_app_le.
  - apply ztake_all. rewrite zlen_app, zlen_ztake by lia. lia.
  - rewrite zlen_app, zlen_ztake by lia. lia.
Qed.

Lemma slice_blit_end off len src m :
  0 <= off -> 0 <= len -> off + len <= zlen m ->
  slice off (len + zlen src) (blit (off + len) src m) = slice off len m ++ src.
Proof.
  intros ???. unfold slice. rewrite Z.add_assoc, ztake_blit_end by lia.
  rewrite zdrop_app_le; [done|]. rewrite zlen_ztake by lia. lia.
Qed.

Lemma ztake_blit_0 src m : ztake (zlen src) (blit 0 src m) = src.
Proof. unfold blit. rewrite ztake_0. simpl. apply ztake_app_exact. Qed.
End zlist.

Create Rewrite HintDb zlist.
#[export] Hint Rewrite @zlen_app @zlen_cons @zlen_nil @zlen_replicate : zlist.
#[export] Hint Resolve zlen_nonneg : cint.

(** One list of a list of lists, replaced in place. *)
Lemma concat_split {A} (t : list (list A)) i x :
  t !! i = Some x -> concat t = concat (take i t) ++ x ++ concat (drop (S i) t).
Proof.
  intros Hi. rewrite <-(take_drop_middle t i x Hi) at 1. by rewrite concat_app.
Qed.

Lemma concat_update {A} (t : list (list A)) i x y :
  t !! i = Some x -> concat (<[i := y]> t) = concat (take i t) ++ y ++ concat (drop (S i) t).
Proof.
  intros Hi. rewrite insert_take_drop by (by eapply lookup_lt_Some). by rewrite concat_app.
Qed.

Lemma concat_replicate_nil {A} n : concat (replicate n (@nil A)) = [].
Proof. by induction n. Qed.

(** Literal C strings. *)
Definition str (s : string) : bytes :=
  (fun c => Z.of_nat (Ascii.nat_of_ascii c)) <$> String.list_ascii_of_string s.

(** ** Status values ([switch_status_t], switch_types.h) *)
Inductive switch_status : Set :=
| SWITCH_STATUS_SUCCESS | SWITCH_STATUS_FALSE | SWITCH_STATUS_TIMEOUT
| SWITCH_STATUS_RESTART | SWITCH_STATUS_INTR | SWITCH_STATUS_NOTIMPL
| SWITCH_STATUS_MEMERR | SWITCH_STATUS_NOOP | SWITCH_STATUS_RESAMPLE
| SWITCH_STATUS_GENERR | SWITCH_STATUS_INUSE | SWITCH_STATUS_BREAK
| SWITCH_STATUS_SOCKERR | SWITCH_STATUS_MORE_DATA | SWITCH_STATUS_NOTFOUND
| SWITCH_STATUS_UNLOAD | SWITCH_STATUS_NOUNLOAD | SWITCH_STATUS_IGNORE
| SWITCH_STATUS_TOO_SMALL | SWITCH_STATUS_FOUND | SWITCH_STATUS_CONTINUE
| SWITCH_STATUS_TERM | SWITCH_STATUS_NOT_INITALIZED
| SWITCH_STATUS_XBREAK | SWITCH_STATUS_WINBREAK.

#[export] Instance switch_status_eq_dec : EqDecision switch_status.
Proof. solve_decision. Defined.

(** A flag test, [switch_test_flag(obj, flag)], on the flag word. *)
Definition test_flag (flags flag : Z) : bool := negb (Z.land flags flag =? 0).
