(* ===== verification/Outcome.v ===== *)
(** * Outcomes of code that works on memory

    The result of an operation that may access memory outside of its block
    ([Fault]) and of a loop that is given fuel ([NoFuel]); the loops come with a
    proof that their fuel suffices, for which [runs] and the hint database of
    the same name are made. *)

From S2P Require Import Prelude.

Inductive res (A : Type) := Ok (a : A) | Fault | NoFuel.
Arguments Ok {A} a.
Arguments Fault {A}.
Arguments NoFuel {A}.

#[export] Instance res_ret : MRet res := @Ok.
#[export] Instance res_bind : MBind res := fun A B f m => match m with Ok a => f a | Fault => Fault | NoFuel => NoFuel end.
#[export] Instance res_fmap : FMap res := fun A B f m => match m with Ok a => Ok (f a) | Fault => Fault | NoFuel => NoFuel end.

Definition runs {A} (r : res A) : Prop := r <> NoFuel.

Lemma runs_bind {A B} (r : res A) (f : A -> res B) : runs r -> (forall a, r = Ok a -> runs (f a)) -> runs (r ≫= f).
Proof. intros Hr Hf. destruct r; cbn [mbind res_bind]; [by apply Hf|done|done]. Qed.

Lemma bind_ok {A B} (r : res A) (f : A -> res B) a : r = Ok a -> (r ≫= f) = f a.
Proof. by intros ->. Qed.

Lemma runs_ok {A} (a : A) : runs (Ok a).
Proof. done. Qed.

Lemma runs_fault {A} : runs (@Fault A).
Proof. done. Qed.

Create HintDb runs.
#[export] Hint Resolve runs_ok runs_fault : runs.

Ltac runs := repeat first [progress eauto with runs | apply runs_bind; [|intros ? ?] | case_match].
