(* ===== verification/Jitter.v ===== *)
(** * The jitter buffer (stfu.c, stfu.h)

    RTP packets go into three queues of frames that trade places, and are read
    at the pace of the clock: in the order of their time stamps, with generated
    frames in place of missing ones, while the queues grow and shrink with the
    quality of the network.

    The scalar members of [struct stfu_instance] are the registers [reg] of a
    state, read as [i ~> r] and written as [i <| r := v |>]; the three queues
    are addressed by [qid], as the pointers in_queue, out_queue and old_queue
    are.  Integers keep their C width.  The data of a frame is its first [dlen]
    bytes: nothing reads what is behind them.  [None] is an abort: a failed
    assertion, a division by zero or an endless recursion.  Log lines are not
    modelled; the callback is a count of its calls. *)

From S2P Require Import Prelude.

Module Jitter.

(** ** Data *)

Definition STFU_DATALEN : Z := 16384.
Definition UINT_MAX : Z := 4294967295.

Inductive stfu_status := STFU_IT_FAILED | STFU_IT_WORKED | STFU_IM_DONE | STFU_ITS_TOO_LATE.

(** [struct stfu_frame]. *)
Record frame := mk_frame { f_ts : Z; f_seq : Z; f_pt : Z; f_data : bytes; f_was_read : bool; f_plc : bool }.

Definition f_dlen (f : frame) : Z := zlen (f_data f).
Definition zero_frame : frame := mk_frame 0 0 0 [] false false.

(** [struct stfu_queue]; [real_array_size] is the length of the array. *)
Record queue := mk_queue { array : list frame; array_size : Z; array_len : Z; wr_len : Z; last_index : Z; last_jitter : Z }.

Definition real_array_size (q : queue) : Z := zlen (array q).

Definition set_array (a : list frame) (q : queue) : queue := mk_queue a (array_size q) (array_len q) (wr_len q) (last_index q) (last_jitter q).
Definition set_array_size (n : Z) (q : queue) : queue := mk_queue (array q) n (array_len q) (wr_len q) (last_index q) (last_jitter q).
Definition set_array_len (n : Z) (q : queue) : queue := mk_queue (array q) (array_size q) n (wr_len q) (last_index q) (last_jitter q).
Definition set_wr_len (n : Z) (q : queue) : queue := mk_queue (array q) (array_size q) (array_len q) n (last_index q) (last_jitter q).
Definition set_last_index (n : Z) (q : queue) : queue := mk_queue (array q) (array_size q) (array_len q) (wr_len q) n (last_jitter q).
Definition set_last_jitter (n : Z) (q : queue) : queue := mk_queue (array q) (array_size q) (array_len q) (wr_len q) (last_index q) n.

Inductive qid := A_QUEUE | B_QUEUE | C_QUEUE.

Definition qid_eqb (a b : qid) : bool :=
  match a, b with A_QUEUE, A_QUEUE | B_QUEUE, B_QUEUE | C_QUEUE, C_QUEUE => true | _, _ => false end.

(** The scalar members of [struct stfu_instance], and the count of callbacks. *)
Inductive reg :=
| cur_ts | cur_seq | last_wr_ts | last_rd_ts | samples_per_packet | samples_per_second | miss_count | max_plc
| qlen | most_qlen | max_qlen | orig_qlen | packet_count | consecutive_good_count | consecutive_bad_count
| period_good_count | period_bad_count | period_packet_in_count | period_packet_out_count | period_missing_count
| period_need_range | period_need_range_avg | period_clean_count | session_clean_count | session_missing_count
| session_packet_in_count | session_packet_out_count | sync_out | sync_in | ts_offset | ts_drift | max_drift
| drift_dropped_packets | drift_max_dropped | ts_diff | last_ts_diff | same_ts | period_time | decrement_time
| plc_len | plc_pt | diff | diff_total | calls.

Definition reg_id (r : reg) : nat :=
  match r with
  | cur_ts => 0 | cur_seq => 1 | last_wr_ts => 2 | last_rd_ts => 3 | samples_per_packet => 4
  | samples_per_second => 5 | miss_count => 6 | max_plc => 7 | qlen => 8 | most_qlen => 9 | max_qlen => 10
  | orig_qlen => 11 | packet_count => 12 | consecutive_good_count => 13 | consecutive_bad_count => 14
  | period_good_count => 15 | period_bad_count => 16 | period_packet_in_count => 17 | period_packet_out_count => 18
  | period_missing_count => 19 | period_need_range => 20 | period_need_range_avg => 21 | period_clean_count => 22
  | session_clean_count => 23 | session_missing_count => 24 | session_packet_in_count => 25
  | session_packet_out_count => 26 | sync_out => 27 | sync_in => 28 | ts_offset => 29 | ts_drift => 30
  | max_drift => 31 | drift_dropped_packets => 32 | drift_max_dropped => 33 | ts_diff => 34 | last_ts_diff => 35
  | same_ts => 36 | period_time => 37 | decrement_time => 38 | plc_len => 39 | plc_pt => 40 | diff => 41
  | diff_total => 42 | calls => 43
  end.
Definition reg_eqb (a b : reg) : bool := (reg_id a =? reg_id b)%nat.

Record instance := mk_instance {
  queues : qid -> queue; in_queue : qid; out_queue : qid; old_queue : qid; last_frame : option (qid * Z);
  regs : reg -> Z; ready : bool; debug : bool; callback : bool }.

Definition set_reg (r : reg) (v : Z) (i : instance) : instance :=
  mk_instance (queues i) (in_queue i) (out_queue i) (old_queue i) (last_frame i)
    (fun x => if reg_eqb x r then v else regs i x) (ready i) (debug i) (callback i).
Definition upd_queue (q : qid) (f : queue -> queue) (i : instance) : instance :=
  mk_instance (fun x => if qid_eqb x q then f (queues i q) else queues i x) (in_queue i) (out_queue i) (old_queue i)
    (last_frame i) (regs i) (ready i) (debug i) (callback i).
Definition set_pointers (n o d : qid) (i : instance) : instance :=
  mk_instance (queues i) n o d (last_frame i) (regs i) (ready i) (debug i) (callback i).
Definition set_last_frame (f : option (qid * Z)) (i : instance) : instance :=
  mk_instance (queues i) (in_queue i) (out_queue i) (old_queue i) f (regs i) (ready i) (debug i) (callback i).
Definition set_ready (b : bool) (i : instance) : instance :=
  mk_instance (queues i) (in_queue i) (out_queue i) (old_queue i) (last_frame i) (regs i) b (debug i) (callback i).
Definition set_callback (b : bool) (i : instance) : instance :=
  mk_instance (queues i) (in_queue i) (out_queue i) (old_queue i) (last_frame i) (regs i) (ready i) (debug i) b.

Declare Scope jitter_scope.
Delimit Scope jitter_scope with jb.
Open Scope jitter_scope.
Notation "i '~>' r" := (regs i r) (at level 1, left associativity, r at level 0, format "i  ~>  r") : jitter_scope.
Notation "i '<|' r ':=' v '|>'" := (set_reg r v i) (at level 1, left associativity, r at level 0, v at level 200,
  format "i  <| r  :=  v |>") : jitter_scope.

(** [i->r++] on a 32-bit register. *)
Definition inc (r : reg) (i : instance) : instance := i <| r := u32 (i ~> r + 1) |>.

Definition least1 (z : Z) : Z := if z =? 0 then 1 else z.

(** [abs] of a difference of time stamps, read as a number of samples. *)
Definition ts_distance (a b : Z) : Z := Z.abs (s32 (a - b)).

(** ** Sizes *)

(** Growing clears the frames behind the old [array_size]. *)
Definition stfu_n_resize_aqueue (n : Z) (q : queue) : queue :=
  if n <=? real_array_size q then
    let q := set_array_size n q in
    if n <? array_len q then set_array_len n q else q
  else
    set_array_size n (set_array (ztake (array_size q) (array q) ++ replicate (Z.to_nat (n - array_size q)) zero_frame) q).

Definition stfu_n_init_aqueue (n : Z) : queue := mk_queue (replicate (Z.to_nat n) zero_frame) n 0 0 0 0.

Definition stfu_n_resize (i : instance) (n : Z) : instance * stfu_status :=
  if i ~> qlen =? i ~> max_qlen then (i, STFU_IT_FAILED)
  else
    let too_long := negb (i ~> max_qlen =? 0) && (i ~> max_qlen <? n) in
    if too_long && negb (i ~> qlen <? i ~> max_qlen) then (i, STFU_IT_FAILED)
    else
      let n := if too_long then i ~> max_qlen else n in
      let i := upd_queue A_QUEUE (stfu_n_resize_aqueue n) i in
      let i := upd_queue B_QUEUE (stfu_n_resize_aqueue n) i in
      let i := upd_queue C_QUEUE (stfu_n_resize_aqueue n) i in
      let i := if i ~> most_qlen <? n then i <| most_qlen := n |> else i in
      (set_last_frame None (i <| qlen := n |> <| max_plc := 5 |>), STFU_IT_WORKED).

Definition blank : instance :=
  mk_instance (fun _ => mk_queue [] 0 0 0 0 0) A_QUEUE B_QUEUE C_QUEUE None (fun _ => 0) false false false.

Definition stfu_n_init (n max per_packet per_second max_drift_ms : Z) : option instance :=
  let i := blank <| qlen := n |> <| max_qlen := max |> <| orig_qlen := n |> <| samples_per_packet := per_packet |> in
  let i := upd_queue A_QUEUE (fun _ => stfu_n_init_aqueue n) i in
  let i := upd_queue B_QUEUE (fun _ => stfu_n_init_aqueue n) i in
  let i := upd_queue C_QUEUE (fun _ => stfu_n_init_aqueue n) i in
  let i := i <| max_drift := s32 (u32 (max_drift_ms * (per_second / 1000)) * -1) |> in
  let i := if negb (max_drift_ms =? 0) && negb (per_packet =? 0)
           then i <| drift_max_dropped := u32 (per_second * 2) / per_packet |> else i in
  let i := i <| max_plc := n / 2 |> in
  let i := i <| samples_per_second := if per_second =? 0 then 8000 else per_second |> in
  if per_packet =? 0 then None
  else
    Some (i <| period_time := u32 (i ~> samples_per_second * 20) / per_packet |>
            <| decrement_time := u32 (i ~> samples_per_second * 15) / per_packet |>).

(** ** Counters, resets and swaps *)

Definition stfu_n_reset_counters (i : instance) : instance :=
  let i := if callback i then inc calls i else i in
  i <| consecutive_good_count := 0 |> <| consecutive_bad_count := 0 |> <| period_good_count := 0 |>
    <| period_clean_count := 0 |> <| period_bad_count := 0 |> <| period_packet_in_count := 0 |>
    <| period_packet_out_count := 0 |> <| period_missing_count := 0 |> <| period_need_range := 0 |>
    <| period_need_range_avg := 0 |> <| diff := 0 |> <| diff_total := 0 |>.

(** stfu_n_reset calls [stfu_n_sync(i, 1)], which comes back to it when the
    queue has no room for one packet. *)
Definition stfu_n_reset (i : instance) : option instance :=
  let i := set_pointers A_QUEUE B_QUEUE C_QUEUE (set_ready false i) in
  let i := upd_queue A_QUEUE (set_array_len 0) i in
  let i := upd_queue B_QUEUE (fun q => set_wr_len 0 (set_array_len 0 q)) i in
  let i := set_last_frame None i in
  let i := upd_queue A_QUEUE (set_last_jitter 0) i in
  let i := upd_queue B_QUEUE (set_last_jitter 0) i in
  let i := stfu_n_reset_counters i in
  if i ~> qlen <? 1 then None
  else
    let i := i <| sync_out := 1 |> <| sync_in := 1 |> in
    Some (i <| cur_ts := 0 |> <| cur_seq := 0 |> <| last_wr_ts := 0 |> <| last_rd_ts := 0 |>
            <| miss_count := 0 |> <| packet_count := 0 |>).

Definition stfu_n_sync (i : instance) (packets : Z) : option instance :=
  if i ~> qlen <? packets then stfu_n_reset i
  else Some (i <| sync_out := packets |> <| sync_in := packets |>).

Definition stfu_n_swap (i : instance) : instance :=
  let last_in := in_queue i in
  let last_out := out_queue i in
  let last_old := old_queue i in
  let i := set_pointers last_old last_in last_out (set_ready true i) in
  let i := upd_queue last_old (set_array_len 0) i in
  let i := upd_queue last_in (set_wr_len 0) i in
  let i := set_last_frame None i in
  let i := i <| miss_count := 0 |> in
  let i := upd_queue last_old (set_last_index 0) i in
  let i := upd_queue last_in (set_last_index 0) i in
  upd_queue last_in (set_last_jitter 0) i.

(** ** Adding a packet *)

(** The packet interval, learned from the time stamps; [Some] ends the call. *)
Definition learn_interval (i : instance) (ts : Z) : instance * option stfu_status :=
  if (i ~> samples_per_packet =? 0) && negb (ts =? 0) && negb (i ~> last_rd_ts =? 0) then
    let i := i <| ts_diff := s32 (ts - i ~> last_rd_ts) |> in
    let i :=
      if i ~> last_ts_diff =? i ~> ts_diff then
        let i := i <| same_ts := s32 (i ~> same_ts + 1) |> in
        if i ~> same_ts =? 5 then
          let i := i <| samples_per_packet := u32 (i ~> ts_diff) |> in
          if negb (i ~> max_drift =? 0) && negb (i ~> samples_per_packet =? 0)
          then i <| drift_max_dropped := u32 (i ~> samples_per_second * 2) / i ~> samples_per_packet |> else i
        else i
      else i <| same_ts := 0 |> in
    let i := i <| last_ts_diff := i ~> ts_diff |> in
    if i ~> samples_per_packet =? 0 then (i <| last_rd_ts := ts |>, Some STFU_IT_FAILED) else (i, None)
  else (i, None).

(** The drift against the local clock. *)
Definition check_drift (i : instance) (ts timer_ts : Z) : instance * option stfu_status :=
  if timer_ts =? 0 then (i, None)
  else
    let i := if negb (ts =? 0) && (i ~> ts_offset =? 0) then i <| ts_offset := s32 (timer_ts - ts) |> else i in
    let i := i <| ts_drift := s32 (ts + (i ~> ts_offset - timer_ts)) |> in
    let i :=
      if negb (i ~> ts_offset =? 0) && (0 <? i ~> ts_drift) then
        let i := i <| ts_offset := s32 (timer_ts - ts) |> in
        i <| ts_drift := s32 (ts + (i ~> ts_offset - timer_ts)) |>
      else i in
    if i ~> max_drift =? 0 then (i, None)
    else if i ~> ts_drift <? i ~> max_drift then
      let i := inc drift_dropped_packets i in
      if i ~> drift_dropped_packets <? i ~> drift_max_dropped then (i, Some STFU_ITS_TOO_LATE) else (i, None)
    else (i <| drift_dropped_packets := 0 |>, None).

(** Is the packet the one expected, and is it too late?  The flag is [good_ts]. *)
Definition check_order (i : instance) (ts : Z) : instance * bool * option stfu_status :=
  if negb (i ~> sync_in =? 0) then (i <| sync_in := 0 |>, true, None)
  else
    let good_ts := (negb (ts =? 0) && (ts =? u32 (i ~> last_rd_ts + i ~> samples_per_packet)))
                   || ((4294900000 <? i ~> last_rd_ts) && (ts <? 5000)) in
    if negb (i ~> last_wr_ts =? 0) && (ts <=? i ~> last_wr_ts)
       && (negb (i ~> last_wr_ts =? UINT_MAX) || (ts =? i ~> last_wr_ts)) then
      let q := queues i (in_queue i) in
      let i := if array_len q <? array_size q then upd_queue (in_queue i) (set_array_len (array_len q + 1)) i else i in
      (i, good_ts, Some STFU_ITS_TOO_LATE)
    else (i, good_ts, None).

(** Growing after misses, shrinking after good times. *)
Definition adapt (i : instance) : option instance :=
  let i := i <| period_need_range_avg := i ~> period_need_range / least1 (i ~> period_missing_count) |> in
  if u32 (i ~> qlen * 2) <? i ~> period_missing_count then
    Some (stfu_n_reset_counters (stfu_n_resize i (u32 (i ~> qlen + 1))).1)
  else if (i ~> orig_qlen <? i ~> qlen)
          && ((i ~> decrement_time <? i ~> consecutive_good_count) || (i ~> decrement_time <? i ~> period_clean_count)) then
    let i := stfu_n_reset_counters (stfu_n_resize i (u32 (i ~> qlen - 1))).1 in
    stfu_n_sync i (i ~> qlen)
  else Some i.

(** The distance to the last frame read. *)
Definition measure (i : instance) (ts : Z) : option instance :=
  let i := i <| diff := 0 |> in
  if i ~> last_wr_ts =? 0 then Some i
  else if (ts <? 1000) && (UINT_MAX - 1000 <? i ~> last_wr_ts) then
    if i ~> samples_per_packet =? 0 then None
    else Some (i <| diff := Z.abs (s32 (u32 (UINT_MAX - i ~> last_wr_ts + ts) / i ~> samples_per_packet)) |>)
  else if negb (ts =? 0) then
    if i ~> samples_per_packet =? 0 then None
    else Some (i <| diff := ts_distance (i ~> last_wr_ts) ts / i ~> samples_per_packet |>)
  else Some i.

(** The end of a period. *)
Definition end_period (i : instance) : option instance :=
  let i := i <| diff_total := u32 (i ~> diff_total + i ~> diff) |> in
  if i ~> period_time <? i ~> period_packet_in_count then
    let i := i <| period_packet_in_count := 0 |> in
    i ← (if (i ~> period_missing_count =? 0) && (i ~> orig_qlen <? i ~> qlen) then
           let i := (stfu_n_resize i (u32 (i ~> qlen - 1))).1 in stfu_n_sync i (i ~> qlen)
         else Some i);
    Some (stfu_n_reset_counters i)
  else Some i.

Definition full (q : queue) : bool := array_len q =? array_size q.

(** Storing the frame: its place is taken before the queues trade places. *)
Definition store (i : instance) (ts seq pt : Z) (data : bytes) (last : bool) : option (instance * stfu_status) :=
  let i := if last || full (queues i (in_queue i)) then stfu_n_swap i else i in
  if last then Some (i, STFU_IM_DONE)
  else
    let q := in_queue i in
    let index := array_len (queues i q) in
    let i := upd_queue q (set_array_len (index + 1)) i in
    if negb (index <? array_size (queues i q)) then None
    else
      let i := if full (queues i q) then stfu_n_swap i else i in
      let i := i <| last_rd_ts := ts |> in
      let i := inc packet_count i in
      let f := queues i q in
      match array f !! Z.to_nat index with
      | Some old =>
        let fr := mk_frame ts seq pt (ztake STFU_DATALEN data) false (f_plc old) in
        Some (upd_queue q (set_array (<[Z.to_nat index := fr]> (array f))) i, STFU_IT_WORKED)
      | None => None
      end.

Definition stfu_n_add_data (i : instance) (ts seq pt : Z) (data : bytes) (timer_ts : Z) (last : bool)
  : option (instance * stfu_status) :=
  let '(i, r) := learn_interval i ts in
  match r with Some s => Some (i, s) | None =>
  let '(i, r) := check_drift i ts timer_ts in
  match r with Some s => Some (i, s) | None =>
  let '(i, good_ts, r) := check_order i ts in
  match r with Some s => Some (i, s) | None =>
  let i := if (good_ts : bool) then inc session_clean_count (inc period_clean_count i) else i in
  let i := inc session_packet_in_count (inc period_packet_in_count i) in
  i ← adapt i;
  i ← measure i ts;
  i ← end_period i;
  store i ts seq pt data last
  end end end.

(** ** Reading a frame *)

(** A found frame is marked and counted. *)
Definition take_frame (i : instance) (q : qid) (index : nat) (f : frame) : instance * frame :=
  let f := mk_frame (f_ts f) (f_seq f) (f_pt f) (f_data f) true (f_plc f) in
  let i := upd_queue q (fun x => set_last_index (Z.of_nat index) (set_array (<[index := f]> (array x)) x)) i in
  (inc session_packet_out_count (inc period_packet_out_count i), f).

Definition stfu_n_find_any_frame (i : instance) (q : qid) : instance * option (nat * frame) :=
  match list_find (fun f => f_was_read f = false) (array (queues i q)) with
  | Some (index, f) => let '(i, f) := take_frame i q index f in (i, Some (index, f))
  | None => (i, None)
  end.

Definition wanted (min_ts max_ts : Z) (f : frame) : Prop := f_ts f = max_ts \/ (min_ts < f_ts f /\ f_ts f < max_ts).

#[export] Instance wanted_dec min_ts max_ts f : Decision (wanted min_ts max_ts f).
Proof. unfold wanted. apply _. Defined.

Definition stfu_n_find_frame (i : instance) (q : qid) (min_ts max_ts : Z) : instance * option (nat * frame) :=
  match list_find (wanted min_ts max_ts) (ztake (array_size (queues i q)) (array (queues i q))) with
  | Some (index, f) => let '(i, f) := take_frame i q index f in (i, Some (index, f))
  | None => (i, None)
  end.

(** The next time stamp: the first unread frame at the start, one interval on
    later.  [None] is the return of NULL in debug mode. *)
Definition advance (i : instance) : option instance :=
  if (i ~> cur_ts =? 0) && (i ~> last_wr_ts <? 1000) then
    let frames := ztake (array_len (queues i (out_queue i))) (array (queues i (out_queue i))) in
    match frames with
    | [] => Some i
    | f :: _ =>
      if f_was_read f && debug i then None
      else match list_find (fun f => f_was_read f = false) frames with
           | Some (_, f) => Some (i <| cur_ts := f_ts f |> <| cur_seq := f_seq f |>)
           | None => Some i
           end
    end
  else Some (i <| cur_ts := u32 (i ~> cur_ts + i ~> samples_per_packet) |> <| cur_seq := u16 (i ~> cur_seq + 1) |>).

(** The search through the three queues. *)
Definition search (i : instance) : instance * option (qid * nat * frame) :=
  let '(i, r) := stfu_n_find_frame i (out_queue i) (i ~> last_wr_ts) (i ~> cur_ts) in
  match r with
  | Some (n, f) =>
    let q := queues i (out_queue i) in
    (if array_len q =? 0 then i else upd_queue (out_queue i) (set_array_len (array_len q - 1)) i, Some (out_queue i, n, f))
  | None =>
    let '(i, r) := stfu_n_find_frame i (in_queue i) (i ~> last_wr_ts) (i ~> cur_ts) in
    match r with
    | Some (n, f) => (i, Some (in_queue i, n, f))
    | None =>
      let '(i, r) := stfu_n_find_frame i (old_queue i) (i ~> last_wr_ts) (i ~> cur_ts) in
      (i, (fun nf => (old_queue i, nf.1, nf.2)) <$> r)
    end
  end.

Definition at_frame (i : instance) (f : frame) : instance := i <| cur_ts := f_ts f |> <| cur_seq := f_seq f |>.

(** After a synchronization anything unread will do. *)
Definition resync (i : instance) (found : option (qid * nat * frame)) : instance * option (qid * nat * frame) :=
  if i ~> sync_out =? 0 then (i, found)
  else
    let '(i, found) :=
      match found with
      | Some _ => (i, found)
      | None =>
        let '(i, r) := stfu_n_find_any_frame i (out_queue i) in
        match r with
        | Some (n, f) => (at_frame i f, Some (out_queue i, n, f))
        | None => (i, None)
        end
      end in
    (i <| sync_out := 0 |>, found).

(** The statistics of a missing frame, and whether the reader is ahead of the
    writer. *)
Definition missing (i : instance) : instance * bool :=
  let delay := s32 (i ~> last_rd_ts - i ~> cur_ts) in
  let need := ts_distance (i ~> last_rd_ts) (i ~> cur_ts) / i ~> samples_per_packet in
  let i := inc session_missing_count (inc period_missing_count i) in
  let i := i <| period_need_range := u32 (i ~> period_need_range + need) |> in
  let i := if (u32 (i ~> orig_qlen * 100) <? i ~> packet_count) && (0 <? delay) && (i ~> qlen <? need)
              && (need <? u32 (i ~> qlen + 5)) then i <| packet_count := 0 |> else i in
  (i, delay <? 0).

Definition deliver (i : instance) (q : qid) (n : nat) (f : frame) : instance * option frame :=
  let i := inc period_good_count (inc consecutive_good_count i) <| consecutive_bad_count := 0 |> in
  let i := set_last_frame (Some (q, Z.of_nat n)) i in
  let i := upd_queue (out_queue i) (fun x => set_wr_len (u32 (wr_len x + 1)) x) i in
  let i := i <| last_wr_ts := f_ts f |> <| miss_count := 0 |> in
  let i := if f_dlen f =? 0 then i else i <| plc_len := f_dlen f |> in
  (i <| plc_pt := f_pt f |>, Some f).

(** A generated frame; too many of them in a row are a reset. *)
Definition conceal (i : instance) : option (instance * option frame) :=
  let i := inc period_bad_count (inc consecutive_bad_count i) <| consecutive_good_count := 0 |> in
  let i := i <| last_wr_ts := i ~> cur_ts |> in
  let f := mk_frame (i ~> cur_ts) (i ~> cur_seq) (i ~> plc_pt) (replicate (Z.to_nat (i ~> plc_len)) 255) false true in
  let i := inc miss_count i in
  if i ~> max_plc <? i ~> miss_count then i ← stfu_n_reset i; Some (i, None) else Some (i, Some f).

Definition stfu_n_read_a_frame (i : instance) : option (instance * option frame) :=
  if i ~> samples_per_packet =? 0 then Some (i, None)
  else if negb (ready i) then Some (i, None)
  else
    match advance i with
    | None => Some (i, None)
    | Some i =>
      let '(i, found) := search i in
      let i := match found with Some (_, f) => at_frame i f | None => i end in
      let '(i, found) := resync i found in
      if i ~> cur_ts =? 0 then Some (i, None)
      else
        match found with
        | Some (q, n, f) => Some (deliver i q n f)
        | None =>
          let '(i, ahead) := missing i in
          if (ahead : bool) then i ← stfu_n_reset i; Some (i, None) else conceal i
        end
    end.

(** A frame later than the target, without taking it. *)
Definition stfu_n_copy_next_frame (i : instance) (timestamp distance : Z) : option frame :=
  let target_ts := u32 (timestamp + (distance - 1) * i ~> samples_per_packet) in
  let search q := snd <$> list_find (fun f => target_ts < f_ts f) (ztake (array_size (queues i q)) (array (queues i q))) in
  match search (out_queue i) with
  | Some f => Some f
  | None => match search (in_queue i) with Some f => Some f | None => search (old_queue i) end
  end.

Definition stfu_n_report (i : instance) : Z * Z * Z * Z * Z :=
  (i ~> qlen, i ~> period_packet_in_count, i ~> period_clean_count, i ~> consecutive_good_count, i ~> consecutive_bad_count).
Definition stfu_n_get_drift (i : instance) : Z := i ~> ts_drift.
Definition stfu_n_get_most_qlen (i : instance) : Z := s32 (i ~> most_qlen).
Definition stfu_n_call_me (i : instance) (cb : bool) : instance := set_callback cb i.

(** ** Well-formed states *)

Definition queue_ok (n : Z) (q : queue) : Prop := array_size q = n /\ n <= real_array_size q /\ 0 <= array_len q <= n.

(** The queues have the size [qlen], the pointers are three different ones, and
    the sizes and the packet interval are in range. *)
Record wf (i : instance) : Prop := {
  wf_queues : forall q, queue_ok (i ~> qlen) (queues i q);
  wf_pointers : in_queue i <> out_queue i /\ out_queue i <> old_queue i /\ old_queue i <> in_queue i;
  wf_qlen : 1 <= i ~> qlen <= Z.max (i ~> orig_qlen) (i ~> max_qlen);
  wf_sizes : 1 <= i ~> orig_qlen < UINT_MAX /\ 1 <= i ~> max_qlen < UINT_MAX;
  wf_interval : 0 < i ~> samples_per_packet }.

Lemma qid_eqb_spec a b : reflect (a = b) (qid_eqb a b).
Proof. destruct a, b; by constructor. Qed.

Lemma queues_upd q f i q' : queues (upd_queue q f i) q' = if qid_eqb q' q then f (queues i q) else queues i q'.
Proof. done. Qed.

Lemma wf_upd_queue q f i : wf i -> (forall x, queue_ok (i ~> qlen) x -> queue_ok (i ~> qlen) (f x)) -> wf (upd_queue q f i).
Proof.
  intros [Hq Hp Hl Hs Hi] Hf. split; try done. intros q'. change (queue_ok (i ~> qlen) (queues (upd_queue q f i) q')).
  rewrite queues_upd. destruct (qid_eqb_spec q' q); [apply Hf|]; apply Hq.
Qed.

Lemma wf_inc r i : wf i -> reg_eqb r qlen = false -> reg_eqb r max_qlen = false -> reg_eqb r orig_qlen = false ->
  reg_eqb r samples_per_packet = false -> wf (inc r i).
Proof. destruct r; intros Hwf; try discriminate; intros _ _ _ _; destruct Hwf; split; assumption. Qed.

(** Writing registers that are not part of the invariant keeps it. *)
Ltac regs_only H :=
  split; [exact (wf_queues _ H)|exact (wf_pointers _ H)|exact (wf_qlen _ H)|exact (wf_sizes _ H)|exact (wf_interval _ H)].

Lemma wf_reset_counters i : wf i -> wf (stfu_n_reset_counters i).
Proof. intros H. unfold stfu_n_reset_counters. destruct (callback i); regs_only H. Qed.

Lemma queue_ok_resize n m q : queue_ok n q -> 0 <= m -> 0 <= n -> queue_ok m (stfu_n_resize_aqueue m q).
Proof.
  intros (Hs & Hr & Hl) Hm Hn. unfold stfu_n_resize_aqueue, queue_ok, real_array_size in *.
  destruct (Z.leb_spec m (zlen (array q))).
  - destruct (Z.ltb_spec m (array_len (set_array_size m q))); cbn in *; lia.
  - cbn. rewrite zlen_app, zlen_replicate, zlen_ztake by lia. lia.
Qed.

Lemma wf_resize i n : wf i -> 1 <= n -> wf (stfu_n_resize i n).1.
Proof.
  intros H Hn. unfold stfu_n_resize. destruct (i ~> qlen =? i ~> max_qlen); [done|].
  set (too_long := negb _ && _). destruct (too_long && _) eqn:Hfail; [done|].
  set (m := if too_long then _ else n). assert (1 <= m <= Z.max (i ~> orig_qlen) (i ~> max_qlen)) as Hm.
  { destruct H as [_ _ _ [Ho Hx] _]. unfold m, too_long. destruct (Z.eqb_spec (i ~> max_qlen) 0), (Z.ltb_spec (i ~> max_qlen) n); cbn [negb andb]; lia. }
  destruct H as [Hq Hp Hl Hs Hi]. cbn [fst]. set (j := if _ <? m then _ else _).
  assert (forall q, queue_ok m (queues j q)) as Hj.
  { intros q. assert (queues j q = stfu_n_resize_aqueue m (queues i q)) as -> by (unfold j; destruct (_ <? m); by destruct q).
    eapply queue_ok_resize; [apply Hq|lia..]. }
  assert (j ~> orig_qlen = i ~> orig_qlen /\ j ~> max_qlen = i ~> max_qlen /\ j ~> samples_per_packet = i ~> samples_per_packet
    /\ in_queue j = in_queue i /\ out_queue j = out_queue i /\ old_queue j = old_queue i) as (E1 & E2 & E3 & E4 & E5 & E6)
    by (unfold j; by destruct (_ <? m)).
  split; cbn; rewrite ?E1, ?E2, ?E3, ?E4, ?E5, ?E6; done.
Qed.

(** What a step needs to hand on: a well-formed state. *)
Definition ok_state (r : option instance) : Prop := exists i, r = Some i /\ wf i.

Lemma queue_ok_len n q m : queue_ok n q -> 0 <= m <= n -> queue_ok n (set_array_len m q).
Proof. unfold queue_ok, real_array_size. cbn. lia. Qed.

Lemma queue_ok_same n q q' : queue_ok n q -> array_size q' = array_size q -> array_len q' = array_len q ->
  length (array q') = length (array q) -> queue_ok n q'.
Proof. unfold queue_ok, real_array_size, zlen. intros. lia. Qed.

Lemma wf_pointers_set n o d i : wf i -> n <> o -> o <> d -> d <> n -> wf (set_pointers n o d i).
Proof. intros [] ???. by split. Qed.

Lemma wf_set_ready b i : wf i -> wf (set_ready b i).
Proof. intros H. regs_only H. Qed.

Lemma wf_set_last_frame f i : wf i -> wf (set_last_frame f i).
Proof. intros H. regs_only H. Qed.

Lemma wf_reset i : wf i -> ok_state (stfu_n_reset i).
Proof.
  intros H. unfold stfu_n_reset.
  assert (wf (set_pointers A_QUEUE B_QUEUE C_QUEUE (set_ready false i))) as H1 by (by apply wf_pointers_set; [apply wf_set_ready| | |]).
  generalize dependent (set_pointers A_QUEUE B_QUEUE C_QUEUE (set_ready false i)). clear i H. intros i H.
  set (j := upd_queue B_QUEUE (set_last_jitter 0) _).
  assert (wf j) as Hj.
  { unfold j. pose proof (wf_qlen _ H). repeat first [apply wf_upd_queue|apply wf_set_last_frame]; try done; intros x Hx; try (apply (queue_ok_same _ x); done).
    - by apply queue_ok_len; [|cbn; lia].
    - apply (queue_ok_same _ (set_array_len 0 x)); try done. by apply queue_ok_len; [|cbn; lia]. }
  apply wf_reset_counters in Hj. generalize dependent (stfu_n_reset_counters j). clear j. intros j Hj.
  destruct (Z.ltb_spec (j ~> qlen) 1); [pose proof (wf_qlen _ Hj); lia|].
  eexists. split; [reflexivity|]. regs_only Hj.
Qed.

Lemma wf_sync i p : wf i -> ok_state (stfu_n_sync i p).
Proof.
  intros H. unfold stfu_n_sync. destruct (_ <? p); [by apply wf_reset|]. eexists. split; [reflexivity|]. regs_only H.
Qed.

Lemma wf_swap i : wf i -> wf (stfu_n_swap i).
Proof.
  intros H. unfold stfu_n_swap. pose proof (wf_pointers _ H) as (P1 & P2 & P3). pose proof (wf_qlen _ H) as Hl.
  assert (wf (set_pointers (old_queue i) (in_queue i) (out_queue i) (set_ready true i))) as H1
    by (apply wf_pointers_set; try done; by apply wf_set_ready).
  generalize dependent (set_pointers (old_queue i) (in_queue i) (out_queue i) (set_ready true i)). intros j H1.
  set (k := set_last_frame None _). assert (1 <= j ~> qlen) as Hlj by apply (wf_qlen _ H1). assert (wf k) as Hk.
  { assert (wf (upd_queue (in_queue i) (set_wr_len 0) (upd_queue (old_queue i) (set_array_len 0) j))) as Hu.
    { apply wf_upd_queue; [apply wf_upd_queue; [done|]|]; intros x Hx.
      - by apply queue_ok_len; [|cbn; lia].
      - by apply (queue_ok_same _ x). }
    regs_only Hu. }
  assert (wf (k <| miss_count := 0 |>)) as Hm by regs_only Hk.
  repeat apply wf_upd_queue; try done; intros x Hx; by apply (queue_ok_same _ x).
Qed.

Lemma wf_learn i ts : wf i -> learn_interval i ts = (i, None).
Proof.
  intros H. unfold learn_interval. pose proof (wf_interval _ H). by destruct (Z.eqb_spec (i ~> samples_per_packet) 0); [lia|].
Qed.

Lemma wf_check_drift i ts timer_ts : wf i -> wf (check_drift i ts timer_ts).1.
Proof. intros H. unfold check_drift. repeat case_match; cbn [fst]; regs_only H. Qed.

Lemma wf_check_order i ts : wf i -> wf (check_order i ts).1.1.
Proof.
  intros H. unfold check_order. case_match; [regs_only H|]. case_match; [|done]. cbn [fst].
  destruct (Z.ltb_spec (array_len (queues i (in_queue i))) (array_size (queues i (in_queue i)))); [|done].
  destruct (wf_queues _ H (in_queue i)) as (Hs & _ & Hl). apply wf_upd_queue; [done|]. intros x Hx. apply queue_ok_len; [done|lia].
Qed.

Lemma wf_adapt i : wf i -> ok_state (adapt i).
Proof.
  intros H. unfold adapt. set (j := set_reg period_need_range_avg _ i). assert (wf j) as Hj by (unfold j; regs_only H).
  clearbody j. clear i H. pose proof (wf_qlen _ Hj). pose proof (wf_sizes _ Hj). unfold UINT_MAX in *.
  destruct (_ <? j ~> period_missing_count).
  - eexists. split; [reflexivity|]. apply wf_reset_counters, wf_resize; [done|]. rewrite wrap_small by lia. lia.
  - destruct (Z.ltb_spec (j ~> orig_qlen) (j ~> qlen)); cbn [andb]; [|by exists j]. case_match; [|by exists j].
    apply wf_sync, wf_reset_counters, wf_resize; [done|]. rewrite wrap_small by lia. lia.
Qed.

Lemma wf_measure i ts : wf i -> ok_state (measure i ts).
Proof.
  intros H. unfold measure. set (j := set_reg diff 0 i). assert (wf j) as Hj by (unfold j; regs_only H). clearbody j.
  pose proof (wf_interval _ Hj). destruct (Z.eqb_spec (j ~> samples_per_packet) 0); [lia|].
  repeat case_match; eexists; (split; [reflexivity|]); done || regs_only Hj.
Qed.

Lemma wf_end_period i : wf i -> ok_state (end_period i).
Proof.
  intros H. unfold end_period. set (j := set_reg diff_total _ i). assert (wf j) as Hj by (unfold j; regs_only H). clearbody j.
  case_match; [|by exists j]. set (k := set_reg period_packet_in_count 0 j). assert (wf k) as Hk by (unfold k; regs_only Hj). clearbody k.
  assert (ok_state (if (k ~> period_missing_count =? 0) && (k ~> orig_qlen <? k ~> qlen)
    then stfu_n_sync (stfu_n_resize k (u32 (k ~> qlen - 1))).1 ((stfu_n_resize k (u32 (k ~> qlen - 1))).1 ~> qlen) else Some k)) as (l & Hl & Hwl).
  { pose proof (wf_qlen _ Hk). pose proof (wf_sizes _ Hk). unfold UINT_MAX in *.
    destruct (Z.ltb_spec (k ~> orig_qlen) (k ~> qlen)); [|rewrite andb_false_r; by exists k].
    case_match; [|by exists k]. apply wf_sync, wf_resize; [done|]. rewrite wrap_small by lia. lia. }
  cbv zeta. rewrite Hl. eexists. split; [reflexivity|]. by apply wf_reset_counters.
Qed.

Lemma swap_if b i : wf i -> wf (if (b : bool) then stfu_n_swap i else i).
Proof. intros H. destruct b; [by apply wf_swap|done]. Qed.

(** After the check there is room for one more frame. *)
Lemma room_after_swap i (b : bool) : wf i -> 
  let j := if b || full (queues i (in_queue i)) then stfu_n_swap i else i in
  array_len (queues j (in_queue j)) < array_size (queues j (in_queue j)).
Proof.
  intros H. pose proof (wf_pointers _ H) as (P1 & P2 & P3). pose proof (wf_qlen _ H) as Hl. destruct (b || _) eqn:Hb; cbv zeta.
  - unfold stfu_n_swap. cbn [in_queue set_pointers set_last_frame upd_queue set_reg set_ready queues].
    destruct (wf_queues _ H (old_queue i)) as (Hs & _ & _).
    destruct (qid_eqb_spec (old_queue i) (in_queue i)); [done|]. destruct (qid_eqb_spec (old_queue i) (old_queue i)); [|done].
    cbn. lia.
  - apply orb_false_iff in Hb as [_ Hf]. unfold full in Hf. destruct (wf_queues _ H (in_queue i)) as (Hs & _ & Hlen). lia.
Qed.

Lemma swap_array i q : array (queues (stfu_n_swap i) q) = array (queues i q).
Proof.
  unfold stfu_n_swap. by destruct (in_queue i), (old_queue i), q.
Qed.

Lemma swap_len i q : q <> old_queue i -> array_len (queues (stfu_n_swap i) q) = array_len (queues i q).
Proof. unfold stfu_n_swap. by destruct (in_queue i), (old_queue i), q. Qed.

Lemma wf_store i ts seq pt data last : wf i -> exists j s, store i ts seq pt data last = Some (j, s) /\ wf j.
Proof.
  intros H. unfold store. pose proof (room_after_swap i last H) as Hroom. cbv zeta in Hroom.
  pose proof (swap_if (last || full (queues i (in_queue i))) i H) as Hj.
  set (j := if last || _ then _ else i) in *. clearbody j. clear H. destruct last; [by eexists _, _|].
  set (q := in_queue j) in *. destruct (wf_queues _ Hj q) as (Hs & Hr & Hl).
  assert (wf (upd_queue q (set_array_len (array_len (queues j q) + 1)) j)) as Hk
    by (apply wf_upd_queue; [done|]; intros x Hx; apply queue_ok_len; [done|lia]).
  assert (array (queues (upd_queue q (set_array_len (array_len (queues j q) + 1)) j) q) = array (queues j q)
    /\ array_size (queues (upd_queue q (set_array_len (array_len (queues j q) + 1)) j) q) = array_size (queues j q)) as [Hka Hks]
    by (rewrite queues_upd; by destruct (qid_eqb_spec q q)).
  set (k := upd_queue q _ j) in *. clearbody k.
  rewrite Hks. destruct (Z.ltb_spec (array_len (queues j q)) (array_size (queues j q))); [|lia]. cbn [negb].
  pose proof (swap_if (full (queues k q)) k Hk) as Hm.
  assert (array (queues (if full (queues k q) then stfu_n_swap k else k) q) = array (queues j q)) as Hma
    by (destruct (full _); by rewrite ?swap_array, Hka).
  set (m := if full _ then _ else k) in *. clearbody m.
  change (queues (inc packet_count (m <| last_rd_ts := ts |>)) q) with (queues m q). rewrite Hma.
  destruct (lookup_lt_is_Some_2 (array (queues j q)) (Z.to_nat (array_len (queues j q)))) as [old Hold].
  { unfold real_array_size, zlen in Hr. lia. }
  rewrite Hold. eexists _, _. split; [reflexivity|].
  assert (wf (inc packet_count (m <| last_rd_ts := ts |>))) as Hn by regs_only Hm.
  split; [|exact (wf_pointers _ Hn)|exact (wf_qlen _ Hn)|exact (wf_sizes _ Hn)|exact (wf_interval _ Hn)].
  intros q'. rewrite queues_upd. destruct (qid_eqb_spec q' q) as [->|]; [|apply (wf_queues _ Hn)].
  apply (queue_ok_same _ (queues m q)); [apply (wf_queues _ Hm)|done..|]. cbn [array set_array]. rewrite length_insert. by rewrite Hma.
Qed.

Lemma wf_add i ts seq pt data timer_ts last : wf i ->
  exists j s, stfu_n_add_data i ts seq pt data timer_ts last = Some (j, s) /\ wf j.
Proof.
  intros H. unfold stfu_n_add_data. rewrite wf_learn by done.
  pose proof (wf_check_drift i ts timer_ts H) as H1. destruct (check_drift i ts timer_ts) as [i1 [s|]]; [by eexists _, _|]. cbn [fst] in H1.
  pose proof (wf_check_order i1 ts H1) as H2. destruct (check_order i1 ts) as [[i2 g] [s|]]; [by eexists _, _|]. cbn [fst] in H2.
  set (i3 := if g then _ else i2). assert (wf i3) as H3 by (unfold i3; destruct g; [regs_only H2|done]). clearbody i3.
  set (i4 := inc session_packet_in_count (inc period_packet_in_count i3)). assert (wf i4) as H4 by (unfold i4; regs_only H3). clearbody i4.
  destruct (wf_adapt i4 H4) as (i5 & -> & H5). cbn [mbind option_bind].
  destruct (wf_measure i5 ts H5) as (i6 & -> & H6). cbn [mbind option_bind].
  destruct (wf_end_period i6 H6) as (i7 & -> & H7). cbn [mbind option_bind]. by apply wf_store.
Qed.

Lemma wf_advance i j : wf i -> advance i = Some j -> wf j.
Proof.
  intros H. unfold advance. repeat case_match; intros E; try discriminate E; injection E as <-; try done; regs_only H.
Qed.

Lemma wf_take i q n f : wf i -> wf (take_frame i q n f).1.
Proof.
  intros H. unfold take_frame. cbn [fst]. set (j := upd_queue q _ i).
  assert (wf j) as Hj.
  { apply wf_upd_queue; [done|]. intros x Hx. apply (queue_ok_same _ x); try done. cbn. by rewrite length_insert. }
  regs_only Hj.
Qed.

Lemma wf_find i q a b : wf i -> wf (stfu_n_find_frame i q a b).1.
Proof.
  intros H. unfold stfu_n_find_frame. destruct (list_find _ _) as [[n f]|]; [|done].
  pose proof (wf_take i q n f H). by destruct (take_frame i q n f).
Qed.

Lemma wf_find_any i q : wf i -> wf (stfu_n_find_any_frame i q).1.
Proof.
  intros H. unfold stfu_n_find_any_frame. destruct (list_find _ _) as [[n f]|]; [|done].
  pose proof (wf_take i q n f H). by destruct (take_frame i q n f).
Qed.

Lemma wf_search i : wf i -> wf (search i).1.
Proof.
  intros H. unfold search. pose proof (wf_find i (out_queue i) (i ~> last_wr_ts) (i ~> cur_ts) H) as H1.
  destruct (stfu_n_find_frame i _ _ _) as [i1 [[n f]|]]; cbn [fst] in *.
  - destruct (Z.eqb_spec (array_len (queues i1 (out_queue i1))) 0); [done|].
    destruct (wf_queues _ H1 (out_queue i1)) as (_ & _ & Hl). apply wf_upd_queue; [done|]. intros x Hx. apply queue_ok_len; [done|lia].
  - pose proof (wf_find i1 (in_queue i1) (i1 ~> last_wr_ts) (i1 ~> cur_ts) H1) as H2.
    destruct (stfu_n_find_frame i1 _ _ _) as [i2 [[n f]|]]; cbn [fst] in *; [done|].
    pose proof (wf_find i2 (old_queue i2) (i2 ~> last_wr_ts) (i2 ~> cur_ts) H2) as H3.
    by destruct (stfu_n_find_frame i2 _ _ _) as [i3 r].
Qed.

Lemma wf_resync i r : wf i -> wf (resync i r).1.
Proof.
  intros H. unfold resync. case_match; [done|]. destruct r as [x|]; cbn [fst]; [regs_only H|].
  pose proof (wf_find_any i (out_queue i) H) as H1. destruct (stfu_n_find_any_frame i (out_queue i)) as [i1 [[n f]|]]; cbn [fst] in *; regs_only H1.
Qed.

Lemma wf_missing i : wf i -> wf (missing i).1.
Proof. intros H. unfold missing. cbn [fst]. case_match; regs_only H. Qed.

Lemma wf_deliver i q n f : wf i -> wf (deliver i q n f).1.
Proof.
  intros H. unfold deliver. set (j := set_last_frame _ _). assert (wf j) as Hj by (unfold j; regs_only H). clearbody j. cbn [fst].
  set (k := upd_queue _ _ j). assert (wf k) as Hk by (apply wf_upd_queue; [done|]; intros x Hx; by apply (queue_ok_same _ x)).
  case_match; regs_only Hk.
Qed.

Lemma wf_reset_null i : wf i -> exists j r, (i ← stfu_n_reset i; Some (i, @None frame)) = Some (j, r) /\ wf j.
Proof. intros H. destruct (wf_reset i H) as (j & -> & Hj). by eexists _, _. Qed.

Lemma wf_conceal i : wf i -> exists j r, conceal i = Some (j, r) /\ wf j.
Proof.
  intros H. unfold conceal. set (j := inc miss_count _). assert (wf j) as Hj by (unfold j; regs_only H).
  case_match; [by apply wf_reset_null|by eexists _, _].
Qed.

Lemma wf_read i : wf i -> exists j r, stfu_n_read_a_frame i = Some (j, r) /\ wf j.
Proof.
  intros H. unfold stfu_n_read_a_frame. destruct (i ~> samples_per_packet =? 0); [by eexists _, _|]. destruct (negb (ready i)); [by eexists _, _|].
  destruct (advance i) as [i1|] eqn:Ha; [|by eexists _, _]. pose proof (wf_advance i i1 H Ha) as H1.
  pose proof (wf_search i1 H1) as H2. destruct (search i1) as [i2 r]. cbn [fst] in H2.
  set (i3 := match r with Some _ => _ | None => i2 end). assert (wf i3) as H3 by (unfold i3; destruct r as [[qn f]|]; [regs_only H2|done]).
  clearbody i3. pose proof (wf_resync i3 r H3) as H4. destruct (resync i3 r) as [i4 r']. cbn [fst] in H4.
  case_match; [by eexists _, _|]. destruct r' as [[[q n] f]|].
  - pose proof (wf_deliver i4 q n f H4). destruct (deliver i4 q n f). by eexists _, _.
  - pose proof (wf_missing i4 H4) as H5. destruct (missing i4) as [i5 []]; cbn [fst] in H5; [by apply wf_reset_null|by apply wf_conceal].
Qed.

(** ** Runs *)

(** The calls RTP makes. *)
Inductive op :=
| Add (ts seq pt : Z) (data : bytes) (timer_ts : Z) (last : bool)
| Read
| Reset
| Sync (packets : Z)
| Resize (n : Z)
| Call_me (cb : bool).

Definition op_ok (o : op) : Prop := match o with Resize n => 1 <= n | _ => True end.

Definition step (i : instance) (o : op) : option instance :=
  match o with
  | Add ts seq pt data timer_ts last => fst <$> stfu_n_add_data i ts seq pt data timer_ts last
  | Read => fst <$> stfu_n_read_a_frame i
  | Reset => stfu_n_reset i
  | Sync packets => stfu_n_sync i packets
  | Resize n => Some (stfu_n_resize i n).1
  | Call_me cb => Some (stfu_n_call_me i cb)
  end.

Fixpoint run (os : list op) (i : instance) : option instance :=
  match os with [] => Some i | o :: os => i ← step i o; run os i end.

Lemma wf_step i o : wf i -> op_ok o -> ok_state (step i o).
Proof.
  intros H Ho. destruct o as [ts seq pt data timer_ts fin| | | | |]; cbn [step].
  - destruct (wf_add i ts seq pt data timer_ts fin H) as (j & s & -> & Hj). by exists j.
  - destruct (wf_read i H) as (j & s & -> & Hj). by exists j.
  - by apply wf_reset.
  - by apply wf_sync.
  - eexists. split; [reflexivity|]. by apply wf_resize.
  - eexists. split; [reflexivity|]. unfold stfu_n_call_me. regs_only H.
Qed.

Lemma wf_run os : forall i, wf i -> Forall op_ok os -> ok_state (run os i).
Proof.
  induction os as [|o os IH]; intros i Hi Hos; cbn [run]; [by exists i|]. apply Forall_cons in Hos as [Ho Hos].
  destruct (wf_step i o Hi Ho) as (k & -> & Hk). by apply IH.
Qed.

Lemma queue_ok_init n : 0 <= n -> queue_ok n (stfu_n_init_aqueue n).
Proof. intros ?. unfold queue_ok, real_array_size, stfu_n_init_aqueue. cbn. rewrite zlen_replicate. lia. Qed.

Lemma init_wf n max per_packet per_second drift :
  1 <= n < UINT_MAX -> 1 <= max < UINT_MAX -> 1 <= per_packet -> ok_state (stfu_n_init n max per_packet per_second drift).
Proof.
  intros Hn Hm Hp. unfold stfu_n_init. destruct (Z.eqb_spec per_packet 0); [lia|].
  eexists. split; [reflexivity|]. pose proof (queue_ok_init n ltac:(lia)) as Hq.
  split; [intros q; destruct (_ && _), q; exact Hq|..]; destruct (_ && _); cbn; done || lia.
Qed.

(** C21: the jitter buffer never aborts.  From a buffer made with at least one
    frame per queue, a limit of at least one and a positive packet interval, any
    sequence of packets, reads, resets, synchronizations and resizes (to at
    least one frame) runs through: no assertion fails, nothing is divided by
    zero, no reset recurses, and every array access is inside its array, because
    the three queues keep their common size, their fill below it and their
    three different roles. *)
Theorem jitter_never_aborts n max per_packet per_second drift os :
  1 <= n < UINT_MAX -> 1 <= max < UINT_MAX -> 1 <= per_packet -> Forall op_ok os ->
  exists i j, stfu_n_init n max per_packet per_second drift = Some i /\ run os i = Some j /\ wf j.
Proof.
  intros Hn Hm Hp Hos. destruct (init_wf n max per_packet per_second drift Hn Hm Hp) as (i & -> & Hi). exists i.
  destruct (wf_run os i Hi Hos) as (j & Hj & Hw). by exists j.
Qed.

(** ** Pace *)

(** What a search leaves alone. *)
Definition same_clock (i j : instance) : Prop :=
  j ~> cur_ts = i ~> cur_ts /\ j ~> last_wr_ts = i ~> last_wr_ts /\ j ~> sync_out = i ~> sync_out
  /\ j ~> samples_per_packet = i ~> samples_per_packet /\ ready j = ready i
  /\ in_queue j = in_queue i /\ out_queue j = out_queue i /\ old_queue j = old_queue i.

Lemma find_frame_spec i q a b j r : stfu_n_find_frame i q a b = (j, r) ->
  same_clock i j /\ match r with Some (_, f) => wanted a b f | None => True end.
Proof.
  unfold stfu_n_find_frame. destruct (list_find _ _) as [[n f]|] eqn:Hf.
  - apply list_find_Some in Hf as (_ & Hw & _). cbn. intros [= <- <-]. split; [done|exact Hw].
  - by intros [= <- <-].
Qed.

Lemma same_clock_trans i j k : same_clock i j -> same_clock j k -> same_clock i k.
Proof. unfold same_clock. intros (?&?&?&?&?&?&?&?) (?&?&?&?&?&?&?&?). split_and!; congruence. Qed.

Lemma search_spec i j r : search i = (j, r) ->
  same_clock i j /\ match r with Some (_, f) => wanted (i ~> last_wr_ts) (i ~> cur_ts) f | None => True end.
Proof.
  unfold search. destruct (stfu_n_find_frame i _ _ _) as [i1 r1] eqn:H1. apply find_frame_spec in H1 as [S1 W1].
  destruct r1 as [[n f]|].
  { intros [= <- <-]. split; [|done]. by destruct (_ =? 0). }
  destruct (stfu_n_find_frame i1 _ _ _) as [i2 r2] eqn:H2. apply find_frame_spec in H2 as [S2 W2].
  pose proof (same_clock_trans _ _ _ S1 S2) as S12. destruct S1 as (E1 & E2 & _).
  destruct r2 as [[n f]|]; [intros [= <- <-]; split; [done|]; by rewrite E1, E2 in W2|].
  destruct (stfu_n_find_frame i2 _ _ _) as [i3 r3] eqn:H3. apply find_frame_spec in H3 as [S3 W3].
  destruct S2 as (F1 & F2 & _). rewrite F1, F2, E1, E2 in W3. intros [= <- <-]. split; [by eapply same_clock_trans|].
  by destruct r3 as [[n f]|].
Qed.

(** Frames come out at the pace of the clock.  Between resets and
    synchronizations, when the last frame that was read is known and the time
    stamps do not wrap, every frame a read returns, received or generated, is
    younger than the last one by at least one and at most one packet interval,
    and the buffer remembers it as the last one. *)
Theorem jitter_paced i j f :
  wf i -> i ~> sync_out = 0 -> i ~> cur_ts = i ~> last_wr_ts -> 0 < i ~> last_wr_ts ->
  i ~> last_wr_ts + i ~> samples_per_packet < 2 ^ 32 ->
  stfu_n_read_a_frame i = Some (j, Some f) ->
  i ~> last_wr_ts < f_ts f <= i ~> last_wr_ts + i ~> samples_per_packet
  /\ j ~> last_wr_ts = f_ts f /\ j ~> cur_ts = f_ts f /\ j ~> sync_out = 0.
Proof.
  intros H Hsync Hcur Hpos Hwrap. pose proof (wf_interval _ H) as Hspp. unfold stfu_n_read_a_frame.
  destruct (_ =? 0); [done|]. destruct (negb (ready i)); [done|].
  assert (advance i = Some (i <| cur_ts := i ~> last_wr_ts + i ~> samples_per_packet |> <| cur_seq := u16 (i ~> cur_seq + 1) |>)) as ->.
  { unfold advance. destruct (Z.eqb_spec (i ~> cur_ts) 0); [lia|]. cbn [andb]. rewrite Hcur, (wrap_small 32) by lia. done. }
  set (i1 := set_reg cur_seq _ _). assert (i1 ~> cur_ts = i ~> last_wr_ts + i ~> samples_per_packet /\ i1 ~> last_wr_ts = i ~> last_wr_ts
    /\ i1 ~> sync_out = 0) as (C1 & L1 & S1) by done. clearbody i1.
  destruct (search i1) as [i2 r] eqn:Hs. apply search_spec in Hs as [(C2 & L2 & S2 & _) W].
  destruct r as [[[q n] g]|].
  - unfold resync. change ((at_frame i2 g) ~> sync_out) with (i2 ~> sync_out). rewrite S2, S1. cbn [Z.eqb].
    change ((at_frame i2 g) ~> cur_ts) with (f_ts g). rewrite C1, L1 in W.
    destruct (Z.eqb_spec (f_ts g) 0); [intros [=]|]. unfold deliver. intros [= <- <-].
    split; [unfold wanted in W; lia|]. destruct (f_dlen g =? 0); cbn; by rewrite S2.
  - unfold resync. rewrite S2, S1. cbn [Z.eqb]. rewrite C2, C1. destruct (Z.eqb_spec (i ~> last_wr_ts + i ~> samples_per_packet) 0); [lia|].
    destruct (missing i2) as [i3 ahead] eqn:Hm.
    assert (i3 ~> cur_ts = i2 ~> cur_ts /\ i3 ~> sync_out = i2 ~> sync_out) as [C3 S3]
      by (unfold missing in Hm; injection Hm as <- _; by destruct (_ && _)).
    destruct ahead; [destruct (stfu_n_reset i3); intros [=]|]. unfold conceal. case_match; [destruct (stfu_n_reset _); intros [=]|].
    intros [= <- <-]. cbn [f_ts]. split; [cbn; lia|]. cbn. lia.
Qed.

(** A packet behind the reader is refused.  A packet whose time stamp is not
    after the last frame that was read (outside a synchronization, and without
    the clock check) is reported as too late: no stored frame and no register
    changes, only the fill of the input queue may be counted up by one. *)
Theorem late_packet_refused i ts seq pt data last_flag :
  wf i -> i ~> sync_in = 0 -> 0 < i ~> last_wr_ts < UINT_MAX -> 0 <= ts <= i ~> last_wr_ts ->
  exists j, stfu_n_add_data i ts seq pt data 0 last_flag = Some (j, STFU_ITS_TOO_LATE)
    /\ (forall q, array (queues j q) = array (queues i q)) /\ (forall r, j ~> r = i ~> r)
    /\ (forall q, array_len (queues i q) <= array_len (queues j q) <= array_len (queues i q) + 1).
Proof.
  intros H Hs Hw Hts. unfold stfu_n_add_data. rewrite wf_learn by done. unfold check_drift. change (0 =? 0) with true. cbn iota.
  unfold check_order. rewrite Hs. cbn [Z.eqb negb]. destruct (Z.eqb_spec (i ~> last_wr_ts) 0); [lia|]. cbn [negb andb].
  destruct (Z.leb_spec ts (i ~> last_wr_ts)); [|lia]. destruct (Z.eqb_spec (i ~> last_wr_ts) UINT_MAX); [lia|]. cbn [negb orb andb].
  eexists. split; [reflexivity|]. destruct (_ <? _); (split_and!; [intros q; try rewrite queues_upd|done|intros q; try rewrite queues_upd]).
  all: try destruct (qid_eqb_spec q (in_queue i)) as [->|]; cbn; done || lia.
Qed.

(** ** Order *)

(** A packet: time stamp, sequence number, payload type and data. *)
Definition packet : Type := Z * Z * Z * bytes.
Definition p_ts (p : packet) : Z := p.1.1.1.

Definition fresh_frame (p : packet) : frame := mk_frame (p_ts p) p.1.1.2 p.1.2 p.2 false false.
Definition key (f : frame) : packet := (f_ts f, f_seq f, f_pt f, f_data f).

(** Adding packets one after the other, and reading some frames. *)
Fixpoint feed (ps : list packet) (i : instance) : option instance :=
  match ps with
  | [] => Some i
  | p :: ps => r ← stfu_n_add_data i (p_ts p) p.1.1.2 p.1.2 p.2 0 false; feed ps r.1
  end.

Fixpoint drain (n : nat) (i : instance) : option (list (option frame)) :=
  match n with
  | O => Some []
  | S n => r ← stfu_n_read_a_frame i; fs ← drain n r.1; Some (r.2 :: fs)
  end.

(** A buffer of [n] frames that is being filled for the first time, [k] in. *)
Record filling (n : Z) (i : instance) (fs : list frame) : Prop := {
  fi_wf : wf i;
  fi_len : zlen fs < n;
  fi_array : array (queues i A_QUEUE) = fs ++ replicate (Z.to_nat (n - zlen fs)) zero_frame;
  fi_fill : array_len (queues i A_QUEUE) = zlen fs;
  fi_size : array_size (queues i A_QUEUE) = n;
  fi_roles : in_queue i = A_QUEUE /\ out_queue i = B_QUEUE /\ old_queue i = C_QUEUE;
  fi_qlen : i ~> qlen = n /\ i ~> orig_qlen = n;
  fi_clock : i ~> last_wr_ts = 0 /\ i ~> cur_ts = 0 /\ i ~> sync_in = 0 /\ i ~> sync_out = 0;
  fi_period : i ~> period_missing_count = 0 /\ i ~> period_packet_in_count = zlen fs /\ n <= i ~> period_time < 2 ^ 32 }.

(** A full buffer of which [m] frames were read, [t] being the time stamp of
    the last one. *)
Record reading (n : Z) (i : instance) (ps : list packet) (m : nat) (t : Z) : Prop := {
  re_wf : wf i;
  re_keys : key <$> array (queues i A_QUEUE) = ps;
  re_size : array_size (queues i A_QUEUE) = n;
  re_out : out_queue i = A_QUEUE;
  re_ready : ready i = true;
  re_sync : i ~> sync_out = 0;
  re_clock : i ~> cur_ts = t /\ i ~> last_wr_ts = t;
  re_start : m = 0%nat -> array_len (queues i A_QUEUE) = n /\ Forall (fun f => f_was_read f = false) (array (queues i A_QUEUE)) }.

(** Until the store nothing that matters changes. *)
Lemma add_filling n i fs p : filling n i fs ->
  exists j, stfu_n_add_data i (p_ts p) p.1.1.2 p.1.2 p.2 0 false = store j (p_ts p) p.1.1.2 p.1.2 p.2 false
    /\ wf j /\ queues j = queues i /\ in_queue j = in_queue i /\ out_queue j = out_queue i /\ old_queue j = old_queue i
    /\ j ~> qlen = n /\ j ~> orig_qlen = n
    /\ j ~> last_wr_ts = 0 /\ j ~> cur_ts = 0 /\ j ~> sync_in = 0 /\ j ~> sync_out = 0
    /\ j ~> period_missing_count = 0 /\ j ~> period_packet_in_count = zlen fs + 1 /\ j ~> period_time = i ~> period_time
    /\ j ~> samples_per_packet = i ~> samples_per_packet.
Proof.
  intros [Hwf Hlen _ _ _ _ [Hq Ho] (Hl & Hc & Hsi & Hso) (Hm & Hp & Ht)]. pose proof (zlen_nonneg fs).
  pose proof (wf_qlen _ Hwf) as Hq1. pose proof (wf_sizes _ Hwf) as [Ho1 _]. unfold UINT_MAX in *.
  unfold stfu_n_add_data. rewrite wf_learn by done. unfold check_drift. change (0 =? 0) with true. cbn iota.
  unfold check_order. rewrite Hsi. cbn [Z.eqb negb]. rewrite Hl. cbn [Z.eqb negb andb].
  set (g := (negb _ && _) || _). set (i1 := inc session_packet_in_count _).
  assert (wf i1) as H1 by (unfold i1; destruct g; regs_only Hwf).
  assert (queues i1 = queues i /\ in_queue i1 = in_queue i /\ out_queue i1 = out_queue i /\ old_queue i1 = old_queue i
    /\ i1 ~> qlen = n /\ i1 ~> orig_qlen = n /\ i1 ~> last_wr_ts = 0 /\ i1 ~> cur_ts = 0 /\ i1 ~> sync_in = 0 /\ i1 ~> sync_out = 0
    /\ i1 ~> period_missing_count = 0 /\ i1 ~> period_packet_in_count = zlen fs + 1 /\ i1 ~> period_time = i ~> period_time
    /\ i1 ~> samples_per_packet = i ~> samples_per_packet)
    as (E1 & E2 & E3 & E4 & E5 & E6 & E7 & E8 & E9 & E10 & E11 & E12 & E13 & E14).
  { unfold i1. destruct g; split_and!; try done; cbn; rewrite Hp, wrap_small by lia; done. }
  clearbody i1. unfold adapt. set (i2 := set_reg period_need_range_avg _ i1).
  change (i2 ~> qlen) with (i1 ~> qlen). change (i2 ~> period_missing_count) with (i1 ~> period_missing_count).
  change (i2 ~> orig_qlen) with (i1 ~> orig_qlen). rewrite E11, E5, E6.
  assert ((u32 (n * 2) <? 0) = false) as -> by (apply Z.ltb_ge, (wrap_range 32); lia). rewrite Z.ltb_irrefl. cbn [andb mbind option_bind].
  unfold measure. set (i3 := set_reg diff 0 i2). change (i3 ~> last_wr_ts) with (i1 ~> last_wr_ts). rewrite E7. cbn [Z.eqb mbind option_bind].
  unfold end_period. set (i4 := set_reg diff_total _ i3).
  change (i4 ~> period_time) with (i1 ~> period_time). change (i4 ~> period_packet_in_count) with (i1 ~> period_packet_in_count).
  rewrite E13, E12. destruct (Z.ltb_spec (i ~> period_time) (zlen fs + 1)); [lia|]. cbn [mbind option_bind].
  exists i4. split; [done|]. split; [regs_only H1|]. split_and!; done.
Qed.

Lemma insert_next fs n fr : zlen fs < n ->
  <[length fs := fr]> (fs ++ replicate (Z.to_nat (n - zlen fs)) zero_frame)
  = (fs ++ [fr]) ++ replicate (Z.to_nat (n - zlen (fs ++ [fr]))) zero_frame.
Proof.
  intros Hn. unfold zlen in *. rewrite length_app. cbn [length].
  replace (Z.to_nat (n - Z.of_nat (length fs))) with (S (Z.to_nat (n - Z.of_nat (length fs + 1)))) by lia.
  cbn [replicate]. rewrite <-app_assoc. cbn [app]. rewrite insert_app_r_alt by lia. by rewrite Nat.sub_diag.
Qed.

Lemma lookup_next fs n : zlen fs < n ->
  (fs ++ replicate (Z.to_nat (n - zlen fs)) zero_frame) !! length fs = Some zero_frame.
Proof.
  intros Hn. unfold zlen in *. rewrite lookup_app_r by lia. rewrite Nat.sub_diag.
  by replace (Z.to_nat (n - Z.of_nat (length fs))) with (S (Z.to_nat (n - Z.of_nat (length fs) - 1))) by lia.
Qed.

(** One packet more: the queue goes on filling, or it is full and is read. *)
Lemma add_next n i fs p : filling n i fs -> zlen p.2 <= STFU_DATALEN ->
  exists j, stfu_n_add_data i (p_ts p) p.1.1.2 p.1.2 p.2 0 false = Some (j, STFU_IT_WORKED)
    /\ j ~> samples_per_packet = i ~> samples_per_packet
    /\ (zlen fs + 1 < n -> filling n j (fs ++ [fresh_frame p]))
    /\ (zlen fs + 1 = n -> Forall (fun f => f_was_read f = false) fs -> reading n j (key <$> fs ++ [fresh_frame p]) 0 0).
Proof.
  intros Hf Hd. destruct (add_filling n i fs p Hf) as (j & -> & Hj & Eq & E1 & E2 & E3 & E4 & E5 & E6 & E7 & E8 & E9 & E10 & E11 & E12 & E13).
  destruct Hf as [Hwf Hlen Ha Hfill Hsize (R1 & R2 & R3) _ _ (_ & _ & Hper)]. pose proof (zlen_nonneg fs).
  destruct (wf_store j (p_ts p) p.1.1.2 p.1.2 p.2 false Hj) as (k & s & Hst & Hk). rewrite Hst. revert Hst. unfold store. cbn [orb].
  rewrite R1 in E1. rewrite R2 in E2. rewrite R3 in E3.
  assert (Z.to_nat (zlen fs) = length fs) as Hidx by (unfold zlen; lia).
  assert (zlen (fs ++ [fresh_frame p]) = zlen fs + 1) as Hz by (by rewrite zlen_app).
  rewrite !E1. assert (full (queues j A_QUEUE) = false) as -> by (rewrite Eq; unfold full; lia). cbn iota.
  rewrite !E1, !queues_upd. cbn [qid_eqb]. rewrite Eq, Hfill. cbn [array_size set_array_len]. rewrite Hsize.
  destruct (Z.ltb_spec (zlen fs) n); [|lia]. cbn [negb]. unfold full. cbn [array_len set_array_len array_size]. rewrite Hsize.
  set (u := upd_queue A_QUEUE _ j). assert (array (queues u A_QUEUE) = fs ++ replicate (Z.to_nat (n - zlen fs)) zero_frame) as Hu
    by (unfold u; rewrite queues_upd; cbn [qid_eqb]; by rewrite Eq).
  set (v := if zlen fs + 1 =? n then stfu_n_swap u else u).
  assert (array (queues v A_QUEUE) = array (queues u A_QUEUE)) as Hv by (unfold v; case_match; [apply swap_array|done]).
  change (queues (inc packet_count (v <| last_rd_ts := p_ts p |>))) with (queues v). rewrite Hv, Hu, Hidx, lookup_next by done.
  rewrite insert_next by done. cbn [f_plc zero_frame]. rewrite ztake_all by done. fold (fresh_frame p).
  intros [= <- <-]. eexists. split; [reflexivity|].
  split; [rewrite <-E13; unfold v; by destruct (_ =? n)|]. split; intros Hn.
  - unfold v in *. destruct (Z.eqb_spec (zlen fs + 1) n); [lia|].
    split; [done|lia|reflexivity|by rewrite Hz| |done|done|done|].
    + change (array_size (queues j A_QUEUE) = n). by rewrite Eq.
    + change (j ~> period_missing_count = 0 /\ j ~> period_packet_in_count = zlen (fs ++ [fresh_frame p]) /\ n <= j ~> period_time < 2 ^ 32).
      rewrite E10, E11, E12, Hz. done.
  - intros Hun. unfold v in *. destruct (Z.eqb_spec (zlen fs + 1) n); [|lia].
    assert (replicate (Z.to_nat (n - zlen (fs ++ [fresh_frame p]))) zero_frame = []) as Hnil by (rewrite Hz; by replace (n - (zlen fs + 1)) with 0 by lia).
    rewrite Hnil, app_nil_r in *. split; try done.
    + destruct (wf_queues _ Hk A_QUEUE) as (-> & _). done.
    + intros _. split; [|apply Forall_app; split; [done|by repeat constructor]].
      change (array_len (queues (stfu_n_swap u) A_QUEUE) = n). rewrite swap_len by (change (old_queue u) with (old_queue j); by rewrite E3). done.
Qed.

Lemma feed_all n ps : forall i fs, filling n i fs -> Forall (fun p => zlen p.2 <= STFU_DATALEN) ps -> ps <> [] ->
  Forall (fun f => f_was_read f = false) fs -> zlen fs + zlen ps = n ->
  exists j, feed ps i = Some j /\ reading n j (key <$> fs ++ (fresh_frame <$> ps)) 0 0 /\ j ~> samples_per_packet = i ~> samples_per_packet.
Proof.
  induction ps as [|p ps IH]; intros i fs Hi Hps Hne Hun Hn; [done|]. apply Forall_cons in Hps as [Hp Hps].
  rewrite zlen_cons in Hn. cbn [feed]. destruct (add_next n i fs p Hi Hp) as (j & -> & Hspj & Hmore & Hfull). cbn [mbind option_bind fst].
  destruct ps as [|p' ps].
  - exists j. split; [done|]. split; [|done]. apply Hfull; [|done]. rewrite zlen_nil in Hn. lia.
  - destruct (IH j (fs ++ [fresh_frame p])) as (k & Hk & Hr & Hspk); try done.
    + apply Hmore. rewrite zlen_cons in Hn. pose proof (zlen_nonneg ps). lia.
    + apply Forall_app. split; [done|by repeat constructor].
    + rewrite zlen_app. change (zlen [fresh_frame p]) with 1. lia.
    + exists k. split; [done|]. split; [by rewrite <-app_assoc in Hr|congruence].
Qed.

Section order.
Context (pk : nat -> packet) (t0 spp : Z) (n : nat) (ps : list packet).
Hypothesis Hts : forall k, p_ts (pk k) = t0 + Z.of_nat k * spp.
Hypothesis Ht0 : 0 < t0.
Hypothesis Hspp : 0 < spp.
Hypothesis Hwrap : t0 + Z.of_nat n * spp < 2 ^ 32.
Hypothesis Hps : ps ≡ₚ pk <$> seq 0 n.
Hypothesis Hhead : head ps = Some (pk 0).

Lemma elem_packet p : p ∈ ps <-> exists k, (k < n)%nat /\ p = pk k.
Proof.
  rewrite Hps, list_elem_of_fmap. split; intros (k & H1 & H2); exists k.
  - apply elem_of_seq in H2. split; [lia|done].
  - split; [done|]. apply elem_of_seq. lia.
Qed.

(** The time stamp of the last frame after [m] reads. *)
Definition last_ts (m : nat) : Z := match m with O => 0 | S m => p_ts (pk m) end.

Lemma wanted_key m f : (m < n)%nat -> key f ∈ ps -> wanted (last_ts m) (p_ts (pk m)) f <-> key f = pk m.
Proof.
  intros Hm [k [Hk E]]%elem_packet. change (f_ts f) with (p_ts (key f)) in *. unfold wanted. rewrite E.
  change (f_ts f) with (p_ts (key f)). rewrite E. split.
  - intros Hw. f_equal. rewrite !Hts in Hw. destruct m as [|m]; cbn [last_ts] in Hw; [nia|rewrite Hts in Hw; nia].
  - intros ->. by left.
Qed.

(** The search in the output queue finds the next packet. *)
Lemma find_next i m : reading (Z.of_nat n) i ps m (last_ts m) -> (m < n)%nat ->
  exists idx f, list_find (wanted (last_ts m) (p_ts (pk m))) (ztake (array_size (queues i A_QUEUE)) (array (queues i A_QUEUE))) = Some (idx, f)
    /\ key f = pk m /\ array (queues i A_QUEUE) !! idx = Some f.
Proof.
  intros [_ Hk Hs _ _ _ _ _] Hm.
  assert (ztake (array_size (queues i A_QUEUE)) (array (queues i A_QUEUE)) = array (queues i A_QUEUE)) as ->.
  { apply ztake_all. rewrite Hs. unfold zlen. rewrite <-(length_fmap key), Hk, Hps, length_fmap, length_seq. lia. }
  assert (forall f, f ∈ array (queues i A_QUEUE) -> key f ∈ ps) as Hin by (intros f Hf; rewrite <-Hk; by apply list_elem_of_fmap_2).
  assert (pk m ∈ ps) as Hpm by (apply elem_packet; by exists m). rewrite <-Hk in Hpm. apply list_elem_of_fmap in Hpm as (f0 & E0 & Hf0).
  destruct (list_find_elem_of (wanted (last_ts m) (p_ts (pk m))) (array (queues i A_QUEUE)) f0 Hf0) as [[idx f] Hf].
  { apply wanted_key; try done. by apply Hin. }
  exists idx, f. split; [done|]. apply list_find_Some in Hf as (Hl & Hw & _). split; [|done].
  apply wanted_key in Hw; try done. apply Hin. by apply (list_elem_of_lookup_2 _ idx).
Qed.

(** The clock moves to the next packet. *)
Lemma advance_next i m : reading (Z.of_nat n) i ps m (last_ts m) -> (m < n)%nat -> i ~> samples_per_packet = spp ->
  exists seq, advance i = Some (i <| cur_ts := p_ts (pk m) |> <| cur_seq := seq |>).
Proof.
  intros [_ Hk Hs Ho _ _ [Hc Hl] Hstart] Hm Hsp. unfold advance. rewrite Hc, Hl. destruct m as [|m]; cbn [last_ts].
  - change ((0 =? 0) && (0 <? 1000)) with true. cbn iota. rewrite Ho. destruct (Hstart eq_refl) as [Hlen Hun]. rewrite Hlen.
    rewrite ztake_all by (unfold zlen; rewrite <-(length_fmap key), Hk, Hps, length_fmap, length_seq; lia).
    destruct (array (queues i A_QUEUE)) as [|f fs]; [by rewrite <-Hk in Hhead|].
    apply Forall_cons in Hun as [Hf _]. rewrite Hf. cbn [andb]. cbn [list_find]. rewrite decide_True by done.
    rewrite <-Hk in Hhead. injection Hhead as Hhead. exists (f_seq f). by rewrite <-Hhead.
  - rewrite !Hts in *. assert (0 < t0 + Z.of_nat m * spp) by nia. destruct (Z.eqb_spec (t0 + Z.of_nat m * spp) 0); [lia|]. cbn [andb].
    rewrite Hsp, (wrap_small 32) by nia. eexists. do 3 f_equal. lia.
Qed.

(** A frame that is taken keeps its key. *)
Lemma keys_taken (fs : list frame) idx f : fs !! idx = Some f ->
  key <$> <[idx := mk_frame (f_ts f) (f_seq f) (f_pt f) (f_data f) true (f_plc f)]> fs = key <$> fs.
Proof. intros Hf. rewrite list_fmap_insert. apply list_insert_id. by rewrite list_lookup_fmap, Hf. Qed.

Lemma read_next i m : reading (Z.of_nat n) i ps m (last_ts m) -> (m < n)%nat -> i ~> samples_per_packet = spp ->
  exists j f, stfu_n_read_a_frame i = Some (j, Some f) /\ key f = pk m
    /\ reading (Z.of_nat n) j ps (S m) (last_ts (S m)) /\ j ~> samples_per_packet = spp.
Proof.
  intros Hi Hm Hsp. destruct (wf_read i (re_wf _ _ _ _ _ Hi)) as (j & r & Hr & Hj). rewrite Hr. revert Hr.
  destruct (find_next i m Hi Hm) as (idx & f & Hf & Ekey & Hlook). destruct (advance_next i m Hi Hm Hsp) as (sq & Hadv).
  destruct Hi as [_ Hk Hs Ho Hrd Hsy [Hc Hl] _]. unfold stfu_n_read_a_frame. rewrite Hsp.
  destruct (Z.eqb_spec spp 0); [lia|]. rewrite Hrd. cbn [negb]. rewrite Hadv.
  set (i1 := set_reg cur_seq _ _). unfold search, stfu_n_find_frame.
  change (out_queue i1) with (out_queue i). rewrite Ho. change (queues i1) with (queues i).
  change (i1 ~> last_wr_ts) with (i ~> last_wr_ts). change (i1 ~> cur_ts) with (p_ts (pk m)). rewrite Hl, Hf.
  unfold take_frame. cbv zeta. set (f' := mk_frame _ _ _ _ true _). set (i2 := inc session_packet_out_count _).
  change (out_queue i2) with (out_queue i). rewrite Ho.
  set (i3 := if _ =? 0 then i2 else _). assert (i3 ~> sync_out = 0 /\ i3 ~> samples_per_packet = spp /\ ready i3 = true /\ out_queue i3 = A_QUEUE
    /\ array (queues i3 A_QUEUE) = <[idx := f']> (array (queues i A_QUEUE)) /\ array_size (queues i3 A_QUEUE) = Z.of_nat n) as (S3 & P3 & R3 & O3 & A3 & Z3)
    by (unfold i3; destruct (_ =? 0); (split_and!; done)).
  clearbody i3. unfold resync. change ((at_frame i3 f') ~> sync_out) with (i3 ~> sync_out). rewrite S3. cbn [Z.eqb].
  change ((at_frame i3 f') ~> cur_ts) with (p_ts (key f)). rewrite Ekey.
  assert (0 < p_ts (pk m)) as Hpos by (rewrite Hts; nia). destruct (Z.eqb_spec (p_ts (pk m)) 0); [lia|].
  unfold deliver. intros [= <- <-]. eexists _, f'. split; [reflexivity|]. split; [exact Ekey|].
  assert (f_ts f' = p_ts (pk m)) as Hf' by (by rewrite <-Ekey).
  split; [|destruct (f_dlen f' =? 0); exact P3]. clear Hf. split; try (destruct (f_dlen f' =? 0)); try done.
  all: rewrite O3; first [exact Z3|change (key <$> array (queues i3 A_QUEUE) = ps); rewrite A3; unfold f'; rewrite keys_taken by done; exact Hk].
Qed.

Lemma drain_rest k : forall i m, reading (Z.of_nat n) i ps m (last_ts m) -> (m + k = n)%nat -> i ~> samples_per_packet = spp ->
  exists fs, drain k i = Some (Some <$> fs) /\ key <$> fs = pk <$> seq m k.
Proof.
  induction k as [|k IH]; intros i m Hi Hmk Hsp; [by exists []|]. cbn [drain seq].
  destruct (read_next i m Hi ltac:(lia) Hsp) as (j & f & -> & Ef & Hj & Hspj). cbn [mbind option_bind fst snd].
  destruct (IH j (S m) Hj ltac:(lia) Hspj) as (fs & -> & Efs). exists (f :: fs). cbn [fmap list_fmap mbind option_bind].
  split; [done|]. f_equal; [exact Ef|exact Efs].
Qed.
End order.

Lemma init_filling n max per_packet per_second drift i :
  1 <= n < UINT_MAX -> 1 <= max < UINT_MAX -> 1 <= per_packet < 2 ^ 32 -> 0 <= per_second ->
  stfu_n_init n max per_packet per_second drift = Some i -> n <= i ~> period_time -> filling n i [] /\ i ~> samples_per_packet = per_packet.
Proof.
  intros Hn Hm Hp Hps Hi Hper. destruct (init_wf n max per_packet per_second drift Hn Hm ltac:(lia)) as (i' & Hi' & Hwf).
  rewrite Hi in Hi'. injection Hi' as <-. revert Hi. unfold stfu_n_init. destruct (Z.eqb_spec per_packet 0); [lia|].
  intros Hi. assert (i ~> period_time < 2 ^ 32) as Hlt.
  { injection Hi as <-. cbn. pose proof (wrap_range 32 ((if per_second =? 0 then 8000 else per_second) * 20)).
    destruct (negb (drift =? 0) && negb false); cbn; (apply Z.le_lt_trans with (u32 ((if per_second =? 0 then 8000 else per_second) * 20)); [|lia]);
      apply Z.div_le_upper_bound; nia. }
  injection Hi as <-. split; [|by destruct (_ && _)].
  split; try (by destruct (_ && _)); try done.
  - change (0 < n). lia.
  - change (zlen (@nil frame)) with 0. rewrite Z.sub_0_r. by destruct (_ && _).
Qed.

(** C22: the jitter buffer restores the order of packets.  Take a new buffer of
    [n] frames whose period is at least [n] packets long, and [n] packets with
    time stamps one packet interval apart, with any contents of at most
    STFU_DATALEN bytes; give them to the buffer in any order that starts with
    the first one: [n] reads then return all of them, unchanged, in the order of
    their time stamps.  The first time stamp is above 0 (the code takes 0 for no
    time stamp), none of them wraps at 2^32, and the packets are given without
    the reading of a timer (timer_ts is 0), so that the check of the drift, which
    turns late packets away, is off. *)
Theorem jitter_restores_order pk t0 per_packet n ps max per_second drift i :
  (forall k, p_ts (pk k) = t0 + Z.of_nat k * per_packet) -> 0 < t0 -> 0 < per_packet ->
  t0 + Z.of_nat n * per_packet < 2 ^ 32 -> ps ≡ₚ pk <$> seq 0 n -> head ps = Some (pk 0%nat) ->
  Forall (fun p : packet => zlen p.2 <= STFU_DATALEN) ps ->
  1 <= Z.of_nat n < UINT_MAX -> 1 <= max < UINT_MAX -> 0 <= per_second ->
  stfu_n_init (Z.of_nat n) max per_packet per_second drift = Some i -> Z.of_nat n <= i ~> period_time ->
  exists j fs, feed ps i = Some j /\ drain n j = Some (Some <$> fs) /\ key <$> fs = pk <$> seq 0 n.
Proof.
  intros Hts Ht0 Hpp Hwrap Hps Hhead Hdata Hn Hm Hsec Hi Hper.
  assert (length ps = n) as Hlen by (by rewrite Hps, length_fmap, length_seq).
  assert (per_packet <= Z.of_nat n * per_packet) as Hmul by nia.
  destruct (init_filling (Z.of_nat n) max per_packet per_second drift i Hn Hm ltac:(lia) Hsec Hi Hper) as [Hf Hsp].
  assert (ps <> []) as Hne by (intros ->; done). assert (zlen ps = Z.of_nat n) as Hz by (unfold zlen; lia).
  destruct (feed_all (Z.of_nat n) ps i [] Hf Hdata Hne ltac:(constructor) Hz) as (j & Hj & Hr & Hspj).
  rewrite Hsp in Hspj.
  assert (key <$> [] ++ (fresh_frame <$> ps) = ps) as Ekeys.
  { cbn [app]. rewrite <-list_fmap_compose. rewrite <-(list_fmap_id ps) at 2. apply list_fmap_ext. by intros _ [[[a b] c] d] _. }
  rewrite Ekeys in Hr. destruct (drain_rest pk t0 per_packet n ps Hts Ht0 Hpp Hwrap Hps Hhead n j 0 Hr eq_refl Hspj) as (fs & Hfs & Ek).
  by exists j, fs.
Qed.

(** ** Flaws *)

(** Without a packet interval the buffer cannot be made, although adding data
    has code to learn the interval: the period is divided by it. *)
Theorem init_needs_interval n max per_second drift : stfu_n_init n max 0 per_second drift = None.
Proof. done. Qed.

(** A buffer that has grown to its limit stays there: a resize, also to a
    smaller size, is refused. *)
Theorem resize_stuck_at_limit i n : i ~> qlen = i ~> max_qlen -> stfu_n_resize i n = (i, STFU_IT_FAILED).
Proof. intros H. unfold stfu_n_resize. rewrite H. by rewrite Z.eqb_refl. Qed.

(** A packet with time stamp 0 is not returned, and neither is the one behind it. *)
Theorem zero_stamp_lost :
  match stfu_n_init 2 4 160 8000 0 with
  | Some i => match feed [(0, 1, 0, [1]); (160, 2, 0, [2])] i with
              | Some j => option_map (map (option_map key)) (drain 2 j)
              | None => None
              end
  | None => None
  end = Some [None; None].
Proof. vm_compute. reflexivity. Qed.

(** ** Instances *)

(** Packets of 20 ms at 8 kHz. *)
Definition sample_packet (k : nat) : packet := (1000 + Z.of_nat k * 160, 7 + Z.of_nat k, 0, [Z.of_nat k; 1; 2]).

Definition sample_ops : list op :=
  [Add 1000 7 0 [1] 0 false; Add 1160 8 0 [2] 0 false; Read; Add 1320 9 0 [3] 0 false; Read; Read; Read; Read;
   Resize 5; Sync 9; Add 900 1 0 [] 5000 true; Call_me true; Reset].

Lemma jitter_never_aborts_witness :
  exists i j, stfu_n_init 2 4 160 8000 0 = Some i /\ run sample_ops i = Some j /\ wf j.
Proof.
  apply (jitter_never_aborts 2 4 160 8000 0 sample_ops); unfold UINT_MAX; try lia. repeat constructor; cbn; lia.
Defined.

Definition sample_order : list packet := [sample_packet 0; sample_packet 3; sample_packet 1; sample_packet 2].

Lemma sample_order_perm : sample_order ≡ₚ sample_packet <$> seq 0 4.
Proof. apply perm_skip. change (sample_packet 3 :: [sample_packet 1; sample_packet 2] ≡ₚ [sample_packet 1; sample_packet 2] ++ [sample_packet 3]).
  apply Permutation_cons_append. Qed.

Lemma jitter_restores_order_witness :
  exists i j fs, stfu_n_init 4 50 160 8000 0 = Some i /\ feed sample_order i = Some j
    /\ drain 4 j = Some (Some <$> fs) /\ key <$> fs = sample_packet <$> seq 0 4.
Proof.
  destruct (stfu_n_init 4 50 160 8000 0) as [i|] eqn:Hi; [|discriminate Hi]. exists i.
  destruct (jitter_restores_order sample_packet 1000 160 4 sample_order 50 8000 0 i) as (j & fs & H1 & H2 & H3);
    try reflexivity; try exact sample_order_perm; try exact Hi; try (unfold UINT_MAX; lia).
  - repeat constructor; vm_compute; discriminate.
  - injection Hi as <-. vm_compute. discriminate.
  - exists j, fs. exact (conj eq_refl (conj H1 (conj H2 H3))).
Defined.

(** The state after four packets and one read. *)
Definition add_op (p : packet) : op := Add (p_ts p) p.1.1.2 p.1.2 p.2 0 false.
Definition sample_state : option instance := i ← stfu_n_init 4 50 160 8000 0; run ((add_op <$> sample_order) ++ [Read]) i.

Lemma sample_state_wf i : sample_state = Some i -> wf i.
Proof.
  unfold sample_state. destruct (init_wf 4 50 160 8000 0 ltac:(unfold UINT_MAX; lia) ltac:(unfold UINT_MAX; lia) ltac:(lia)) as (j & -> & Hw).
  cbn [mbind option_bind]. assert (Forall op_ok ((add_op <$> sample_order) ++ [Read])) as Hos by (cbn [fmap list_fmap sample_order app]; repeat constructor).
  destruct (wf_run _ j Hw Hos) as (k & -> & Hk).
  by intros [= <-].
Qed.

Lemma sample_state_regs :
  (fun i => (i ~> sync_out, i ~> cur_ts, i ~> last_wr_ts, i ~> samples_per_packet, i ~> sync_in)) <$> sample_state
  = Some (0, 1000, 1000, 160, 0).
Proof. vm_compute. reflexivity. Qed.

Lemma sample_state_read : (i ← sample_state; r ← stfu_n_read_a_frame i; f ← r.2; Some (f_ts f)) = Some 1160.
Proof. vm_compute. reflexivity. Qed.

Lemma jitter_paced_witness :
  exists i j f, sample_state = Some i /\ stfu_n_read_a_frame i = Some (j, Some f) /\ 1000 < f_ts f <= 1160.
Proof.
  pose proof sample_state_regs as Hr. pose proof sample_state_read as Hd. pose proof sample_state_wf as Hw.
  destruct sample_state as [i|]; [|discriminate Hr]. specialize (Hw i eq_refl). injection Hr as R1 R2 R3 R4 _.
  cbn [mbind option_bind] in Hd. destruct (stfu_n_read_a_frame i) as [[j [f|]]|] eqn:Hf; [|discriminate Hd|discriminate Hd].
  exists i, j, f. split; [reflexivity|]. split; [exact Hf|].
  destruct (jitter_paced i j f Hw R1 ltac:(congruence) ltac:(lia) ltac:(lia) Hf) as [H _]. lia.
Defined.

Lemma late_packet_refused_witness :
  exists i j, sample_state = Some i /\ stfu_n_add_data i 1000 7 0 [1] 0 false = Some (j, STFU_ITS_TOO_LATE).
Proof.
  pose proof sample_state_regs as Hr. pose proof sample_state_wf as Hw.
  destruct sample_state as [i|]; [|discriminate Hr]. specialize (Hw i eq_refl). injection Hr as R1 R2 R3 R4 R5.
  destruct (late_packet_refused i 1000 7 0 [1] false Hw R5 ltac:(unfold UINT_MAX; lia) ltac:(lia)) as (j & H & _).
  exists i, j. exact (conj eq_refl H).
Defined.

Lemma resize_stuck_at_limit_witness : stfu_n_resize (blank <| qlen := 4 |> <| max_qlen := 4 |>) 2 = (blank <| qlen := 4 |> <| max_qlen := 4 |>, STFU_IT_FAILED).
Proof. apply (resize_stuck_at_limit (blank <| qlen := 4 |> <| max_qlen := 4 |>) 2). reflexivity. Defined.

(** A packet that overtakes the first one makes the first one lost. *)
Example overtaken_first_is_lost :
  option_map (map (option_map f_ts)) (i ← stfu_n_init 2 50 160 8000 0; j ← feed [sample_packet 1; sample_packet 0] i; drain 2 j)
  = Some [Some 1160; None].
Proof. vm_compute. reflexivity. Qed.
End Jitter.
