(* ===== verification/CString.v ===== *)
(** * C strings and characters

    What the modelled sources use of the C library's <string.h>, <ctype.h> and
    <stdlib.h>, on strings as byte lists without their terminating NUL, and the
    character routines of src/include/switch_utils.h (switch_toupper and
    friends, zstr, switch_true) and of switch_apr.c (the case-insensitive
    header hash). *)

From S2P Require Import Prelude.

Module CString.

(** ** The C library *)

(** A C string: its bytes are not NUL. *)
Definition cstr_ok (s : bytes) : Prop := Forall (fun c => 0 < c < 256) s.

(** ASCII case mapping of the "C" locale, on a byte read as unsigned char. *)
Definition tolower (c : Z) : Z :=
  let c := u8 c in if (65 <=? c) && (c <=? 90) then c + 32 else c.
Definition toupper (c : Z) : Z :=
  let c := u8 c in if (97 <=? c) && (c <=? 122) then c - 32 else c.

Definition isdigit (c : Z) : bool := (48 <=? c) && (c <=? 57).
Definition isspace (c : Z) : bool := (c =? 32) || ((9 <=? c) && (c <=? 13)).

(** [!strcmp(a, b)], [!strcasecmp(a, b)] and the [strn] forms. *)
Definition streq (a b : bytes) : bool := bool_decide (a = b).
Definition strcaseeq (a b : bytes) : bool := bool_decide (tolower <$> a = tolower <$> b).
Definition strneq (a b : bytes) (n : Z) : bool := streq (ztake n a) (ztake n b).
Definition strncaseeq (a b : bytes) (n : Z) : bool := strcaseeq (ztake n a) (ztake n b).

(** [strchr]: the offset of the first [c]. *)
Fixpoint strchr (s : bytes) (c : Z) : option Z :=
  match s with
  | [] => None
  | x :: s => if x =? c then Some 0 else (fun i => i + 1) <$> strchr s c
  end.

(** [strstr]: the offset of the first occurrence of [p]. *)
Fixpoint strstr (s p : bytes) : option Z :=
  if streq (ztake (zlen p) s) p then Some 0
  else match s with
       | [] => None
       | _ :: s => (fun i => i + 1) <$> strstr s p
       end.

(** Replacing the byte at offset [i] by NUL splits a string into what comes
    before and what comes after that byte. *)
Definition cut_at (s : bytes) (i : Z) : bytes * bytes := (ztake i s, zdrop (i + 1) s).

(** The decimal digits [strtol] accepts after the optional sign. *)
Fixpoint strtol_digits (s : bytes) (acc : Z) : Z :=
  match s with
  | [] => acc
  | c :: s => if isdigit c then strtol_digits s (acc * 10 + (c - 48)) else acc
  end.

Fixpoint skip_space (s : bytes) : bytes :=
  match s with
  | [] => []
  | c :: s' => if isspace c then skip_space s' else s
  end.

Definition strtol10 (s : bytes) : Z :=
  match skip_space s with
  | 45 :: s' => - strtol_digits s' 0
  | 43 :: s' => strtol_digits s' 0
  | s' => strtol_digits s' 0
  end.

(** [strtol] saturates at the range of [long]; [atoi] converts to [int]. *)
Definition atol (s : bytes) : Z := Z.max (- 2 ^ 63) (Z.min (2 ^ 63 - 1) (strtol10 s)).
Definition atoi (s : bytes) : Z := s32 (atol s).

(** ** switch_utils.h *)

(** [zstr]: a NULL or empty string. *)
Definition zstr (s : option bytes) : bool :=
  match s with None => true | Some s => bool_decide (s = []) end.

(** The branch-free ASCII case routines: four bytes of a word at a time. *)
Definition switch_toupper (eax : Z) : Z :=
  let ebx := u32 (Z.land 0x7f7f7f7f eax + 0x05050505) in
  let ebx := u32 (Z.land 0x7f7f7f7f ebx + 0x1a1a1a1a) in
  let ebx := Z.land (Z.shiftr (Z.land ebx (u32 (Z.lnot eax))) 2) 0x20202020 in
  u32 (eax - ebx).

Definition switch_tolower (eax : Z) : Z :=
  let ebx := u32 (Z.land 0x7f7f7f7f eax + 0x25252525) in
  let ebx := u32 (Z.land 0x7f7f7f7f ebx + 0x1a1a1a1a) in
  let ebx := Z.land (Z.shiftr (Z.land ebx (u32 (Z.lnot eax))) 2) 0x20202020 in
  u32 (eax + ebx).

Definition switch_is_number (s : bytes) : bool :=
  let s := match s with
           | c :: s' => if (c =? 45) || (c =? 43) then s' else s
           | [] => []
           end in
  forallb (fun c => (c =? 46) || ((47 <? c) && (c <? 58))) s.

Definition switch_true (expr : option bytes) : bool :=
  match expr with
  | None => false
  | Some e =>
    strcaseeq e (str "yes") || strcaseeq e (str "on") || strcaseeq e (str "true")
    || strcaseeq e (str "t") || strcaseeq e (str "enabled") || strcaseeq e (str "active")
    || strcaseeq e (str "allow") || (switch_is_number e && negb (atoi e =? 0))
  end.

(** ** switch_apr.c *)

(** [switch_ci_hashfunc_default(key, &klen)] with [klen = -1]: the whole string. *)
Definition switch_ci_hashfunc_default (key : bytes) : Z :=
  fold_left (fun hash p => u32 (hash * 33 + tolower p)) key 0.

(** ** Lemmas *)

Lemma streq_spec a b : streq a b = true <-> a = b.
Proof. unfold streq. apply bool_decide_eq_true. Qed.

Lemma strcaseeq_spec a b : strcaseeq a b = true <-> tolower <$> a = tolower <$> b.
Proof. unfold strcaseeq. apply bool_decide_eq_true. Qed.

(** A string without the first byte of the pattern does not contain it. *)
Lemma strstr_head s c p : (c ∉ s) -> strstr s (c :: p) = None.
Proof.
  assert (forall t, head t <> Some c -> streq (ztake (zlen (c :: p)) t) (c :: p) = false) as Hne.
  { intros t Ht. unfold streq. apply bool_decide_eq_false_2. unfold ztake, zlen. rewrite Nat2Z.id. intros H.
    destruct t as [|y t]; simpl in H; [done|]. simpl in Ht. congruence. }
  induction s as [|x s IH]; intros Hc; [cbn [strstr]; by rewrite Hne|]. apply not_elem_of_cons in Hc as [Hx Hs].
  cbn [strstr]. rewrite IH by done. rewrite Hne by (simpl; congruence). done.
Qed.

Lemma strchr_absent s c : (c ∉ s) -> strchr s c = None.
Proof.
  induction s as [|x s IH]; [done|]. intros Hc. apply not_elem_of_cons in Hc as [Hx Hs]. cbn [strchr].
  destruct (Z.eqb_spec x c); [congruence|]. by rewrite IH.
Qed.

Lemma strchr_first s c t : (c ∉ s) -> strchr (s ++ c :: t) c = Some (zlen s).
Proof.
  induction s as [|x s IH]; intros Hc; cbn [strchr app]; [by rewrite Z.eqb_refl|]. apply not_elem_of_cons in Hc as [Hx Hs].
  destruct (Z.eqb_spec x c); [congruence|]. rewrite IH by done. cbn [fmap option_fmap option_map]. by rewrite zlen_cons.
Qed.

Lemma cut_at_first s c t : cut_at (s ++ c :: t) (zlen s) = (s, t).
Proof.
  unfold cut_at. rewrite ztake_app_exact. f_equal. replace (zlen s + 1) with (zlen (s ++ [c])) by (rewrite zlen_app; done).
  replace (s ++ c :: t) with ((s ++ [c]) ++ t) by (by rewrite <-app_assoc). apply zdrop_app_exact.
Qed.

(** [atoi] of a number stops behind its digits. *)
Lemma strtol_digits_stop s c t : forall acc, Forall (fun d => isdigit d = true) s -> isdigit c = false ->
  strtol_digits (s ++ c :: t) acc = strtol_digits s acc.
Proof.
  induction s as [|d s IH]; intros acc Hs Hc; cbn [strtol_digits app]; [by rewrite Hc|].
  apply Forall_cons in Hs as [-> Hs]. by apply IH.
Qed.

Lemma atoi_stop s c t : s <> [] -> Forall (fun d => isdigit d = true) s -> isdigit c = false -> atoi (s ++ c :: t) = atoi s.
Proof.
  intros Hne Hs Hc. unfold atoi, atol. do 3 f_equal.
  assert (forall u, head u = head s -> strtol10 u = strtol_digits u 0) as Hu.
  { intros u Hh. destruct s as [|d s]; [done|]. destruct u as [|x u]; [done|]. simpl in Hh. injection Hh as ->.
    apply Forall_cons in Hs as [Hd _]. unfold isdigit in Hd. assert (48 <= d <= 57) as Hr by lia.
    assert (isspace d = false) as Hsp by (unfold isspace; lia).
    unfold strtol10. cbn [skip_space]. rewrite Hsp. by repeat (destruct d as [|d|d]; try lia; try done). }
  rewrite !Hu by (by destruct s). by apply strtol_digits_stop.
Qed.

Lemma strcaseeq_refl a : strcaseeq a a = true.
Proof. by apply strcaseeq_spec. Qed.

Lemma strcaseeq_sym a b : strcaseeq a b = strcaseeq b a.
Proof. unfold strcaseeq. apply bool_decide_ext. naive_solver. Qed.

(** Case-insensitive equality as an equivalence on strings. *)
Definition ci_eq (a b : bytes) : Prop := tolower <$> a = tolower <$> b.

#[export] Instance ci_eq_equivalence : Equivalence ci_eq.
Proof. unfold ci_eq. split; red; congruence. Qed.

#[export] Instance ci_eq_dec : RelDecision ci_eq.
Proof. unfold ci_eq. intros a b. apply _. Defined.

#[export] Instance strcaseeq_proper : Proper (ci_eq ==> ci_eq ==> eq) strcaseeq.
Proof.
  intros a a' Ha b b' Hb. unfold strcaseeq, ci_eq in *. apply bool_decide_ext. split; congruence.
Qed.

Lemma fold_left_map {A B C} (f : A -> C -> A) (g : B -> C) l a :
  fold_left f (g <$> l) a = fold_left (fun a b => f a (g b)) l a.
Proof. revert a. induction l; simpl; auto. Qed.

(** The header hash only sees a string up to case. *)
#[export] Instance ci_hash_proper : Proper (ci_eq ==> eq) switch_ci_hashfunc_default.
Proof.
  intros a b Hab. unfold switch_ci_hashfunc_default.
  rewrite <-!(fold_left_map (fun h c => u32 (h * 33 + c)) tolower). by f_equal.
Qed.

Lemma byte_cases (P : Z -> bool) c :
  forallb P (Z.of_nat <$> seq 0 256) = true -> 0 <= c < 256 -> P c = true.
Proof.
  intros Hall Hc. rewrite forallb_forall in Hall. apply Hall.
  apply list_elem_of_In, list_elem_of_fmap. exists (Z.to_nat c).
  split; [lia|]. apply list_elem_of_In, in_seq. lia.
Qed.

Lemma u8_range c : 0 <= u8 c < 256.
Proof. change 256 with (2 ^ 8). apply wrap_range. lia. Qed.

Lemma u8_small c : 0 <= c < 256 -> u8 c = c.
Proof. intros ?. apply wrap_small. change (2 ^ 8) with 256. lia. Qed.

(** The branch-free routines agree with the C library on every byte. *)
Lemma switch_tolower_byte c : switch_tolower (u8 c) = tolower c.
Proof.
  pose proof (byte_cases (fun c => switch_tolower c =? (if (65 <=? c) && (c <=? 90) then c + 32 else c)) (u8 c)) as Hb.
  apply Z.eqb_eq, Hb; [vm_compute; reflexivity|apply u8_range].
Qed.

Lemma switch_toupper_byte c : switch_toupper (u8 c) = toupper c.
Proof.
  pose proof (byte_cases (fun c => switch_toupper c =? (if (97 <=? c) && (c <=? 122) then c - 32 else c)) (u8 c)) as Hb.
  apply Z.eqb_eq, Hb; [vm_compute; reflexivity|apply u8_range].
Qed.

Lemma tolower_nonzero c : 0 < c < 256 -> 0 < tolower c < 256.
Proof.
  intros ?. unfold tolower. rewrite u8_small by lia.
  destruct (Z.leb_spec 65 c), (Z.leb_spec c 90); simpl; lia.
Qed.

End CString.
