(* ===== verification/Audio.v ===== *)
(** * Audio arithmetic

    The G.711 codecs (src/include/g711.h, g711.c and their wrappers in
    switch_pcm.c) and the arithmetic on 16-bit samples of switch_resample.c:
    mixing, unmixing and muxing with saturation, volume, byte order, comfort
    noise.

    A sample is a [Z] in the range of int16_t, a buffer a list of samples; an
    access outside of a buffer is [None].  The doubles of the volume charts are
    written out as mantissa and exponent, with the rounding of a product. *)

From S2P Require Import Prelude.

Module Audio.

(** ** Bits *)

(** The portable branch of top_bit; the assembly branches use an instruction
    that computes the same. *)
Definition top_bit (bits : Z) : Z :=
  if bits =? 0 then -1 else
  let '(bits, i) := if Z.land bits 0xFFFF0000 =? 0 then (bits, 0) else (Z.land bits 0xFFFF0000, 16) in
  let '(bits, i) := if Z.land bits 0xFF00FF00 =? 0 then (bits, i) else (Z.land bits 0xFF00FF00, i + 8) in
  let '(bits, i) := if Z.land bits 0xF0F0F0F0 =? 0 then (bits, i) else (Z.land bits 0xF0F0F0F0, i + 4) in
  let '(bits, i) := if Z.land bits 0xCCCCCCCC =? 0 then (bits, i) else (Z.land bits 0xCCCCCCCC, i + 2) in
  if Z.land bits 0xAAAAAAAA =? 0 then i else i + 1.

(** The portable branch of bottom_bit. *)
Definition bottom_bit (bits : Z) : Z :=
  if bits =? 0 then -1 else
  let '(bits, i) := if Z.land bits 0x0000FFFF =? 0 then (bits, 32) else (Z.land bits 0x0000FFFF, 16) in
  let '(bits, i) := if Z.land bits 0x00FF00FF =? 0 then (bits, i) else (Z.land bits 0x00FF00FF, i - 8) in
  let '(bits, i) := if Z.land bits 0x0F0F0F0F =? 0 then (bits, i) else (Z.land bits 0x0F0F0F0F, i - 4) in
  let '(bits, i) := if Z.land bits 0x33333333 =? 0 then (bits, i) else (Z.land bits 0x33333333, i - 2) in
  if Z.land bits 0x55555555 =? 0 then i else i - 1.

(** ** G.711 *)

Definition ULAW_BIAS : Z := 0x84.
Definition ALAW_AMI_MASK : Z := 0x55.

Definition linear_to_ulaw (linear : Z) : Z :=
  let '(linear, mask) := if linear <? 0 then (ULAW_BIAS - linear, 0x7F) else (ULAW_BIAS + linear, 0xFF) in
  let seg := top_bit (u32 (Z.lor linear 0xFF)) - 7 in
  if 8 <=? seg then u8 (Z.lxor 0x7F mask)
  else u8 (Z.lxor (Z.lor (Z.shiftl seg 4) (Z.land (Z.shiftr linear (seg + 3)) 0xF)) mask).

Definition ulaw_to_linear (ulaw : Z) : Z :=
  let ulaw := u8 (Z.lnot ulaw) in
  let t := Z.shiftl (Z.shiftl (Z.land ulaw 0x0F) 3 + ULAW_BIAS) (Z.shiftr (Z.land ulaw 0x70) 4) in
  swrap 16 (if Z.land ulaw 0x80 =? 0 then t - ULAW_BIAS else ULAW_BIAS - t).

Definition linear_to_alaw (linear : Z) : Z :=
  let '(linear, mask) := if 0 <=? linear then (linear, Z.lor ALAW_AMI_MASK 0x80) else (- linear - 8, ALAW_AMI_MASK) in
  let seg := top_bit (u32 (Z.lor linear 0xFF)) - 7 in
  if 8 <=? seg then
    if 0 <=? linear then u8 (Z.lxor 0x7F mask) else u8 (Z.lxor 0x00 mask)
  else u8 (Z.lxor (Z.lor (Z.shiftl seg 4) (Z.land (Z.shiftr linear (if seg =? 0 then 4 else seg + 3)) 0x0F)) mask).

Definition alaw_to_linear (alaw : Z) : Z :=
  let alaw := Z.lxor alaw ALAW_AMI_MASK in
  let i := Z.shiftl (Z.land alaw 0x0F) 4 in
  let seg := Z.shiftr (Z.land alaw 0x70) 4 in
  let i := if seg =? 0 then i + 8 else Z.shiftl (i + 0x108) (seg - 1) in
  swrap 16 (if Z.land alaw 0x80 =? 0 then - i else i).

Definition ulaw_to_alaw_table : list Z :=
  [42; 43; 40; 41; 46; 47; 44; 45; 34; 35; 32; 33; 38; 39; 36; 37; 58; 59; 56; 57; 62; 63; 60; 61; 50; 51; 48;
   49; 54; 55; 52; 53; 10; 11; 8; 9; 14; 15; 12; 13; 2; 3; 0; 1; 6; 7; 4; 26; 27; 24; 25; 30; 31; 28; 29; 18;
   19; 16; 17; 22; 23; 20; 21; 106; 104; 105; 110; 111; 108; 109; 98; 99; 96; 97; 102; 103; 100; 101; 122;
   120; 126; 127; 124; 125; 114; 115; 112; 113; 118; 119; 116; 117; 75; 73; 79; 77; 66; 67; 64; 65; 70; 71;
   68; 69; 90; 91; 88; 89; 94; 95; 92; 93; 82; 82; 83; 83; 80; 80; 81; 81; 86; 86; 87; 87; 84; 84; 85; 85;
   170; 171; 168; 169; 174; 175; 172; 173; 162; 163; 160; 161; 166; 167; 164; 165; 186; 187; 184; 185; 190;
   191; 188; 189; 178; 179; 176; 177; 182; 183; 180; 181; 138; 139; 136; 137; 142; 143; 140; 141; 130; 131;
   128; 129; 134; 135; 132; 154; 155; 152; 153; 158; 159; 156; 157; 146; 147; 144; 145; 150; 151; 148; 149;
   234; 232; 233; 238; 239; 236; 237; 226; 227; 224; 225; 230; 231; 228; 229; 250; 248; 254; 255; 252; 253;
   242; 243; 240; 241; 246; 247; 244; 245; 203; 201; 207; 205; 194; 195; 192; 193; 198; 199; 196; 197; 218;
   219; 216; 217; 222; 223; 220; 221; 210; 210; 211; 211; 208; 208; 209; 209; 214; 214; 215; 215; 212; 212;
   213; 213].
Definition alaw_to_ulaw_table : list Z :=
  [42; 43; 40; 41; 46; 47; 44; 45; 34; 35; 32; 33; 38; 39; 36; 37; 57; 58; 55; 56; 61; 62; 59; 60; 49; 50; 47;
   48; 53; 54; 51; 52; 10; 11; 8; 9; 14; 15; 12; 13; 2; 3; 0; 1; 6; 7; 4; 5; 26; 27; 24; 25; 30; 31; 28; 29;
   18; 19; 16; 17; 22; 23; 20; 21; 98; 99; 96; 97; 102; 103; 100; 101; 93; 93; 92; 92; 95; 95; 94; 94; 116;
   118; 112; 114; 124; 126; 120; 122; 106; 107; 104; 105; 110; 111; 108; 109; 72; 73; 70; 71; 76; 77; 74; 75;
   64; 65; 63; 63; 68; 69; 66; 67; 86; 87; 84; 85; 90; 91; 88; 89; 79; 79; 78; 78; 82; 83; 80; 81; 170; 171;
   168; 169; 174; 175; 172; 173; 162; 163; 160; 161; 166; 167; 164; 165; 185; 186; 183; 184; 189; 190; 187;
   188; 177; 178; 175; 176; 181; 182; 179; 180; 138; 139; 136; 137; 142; 143; 140; 141; 130; 131; 128; 129;
   134; 135; 132; 133; 154; 155; 152; 153; 158; 159; 156; 157; 146; 147; 144; 145; 150; 151; 148; 149; 226;
   227; 224; 225; 230; 231; 228; 229; 221; 221; 220; 220; 223; 223; 222; 222; 244; 246; 240; 242; 252; 254;
   248; 250; 234; 235; 232; 233; 238; 239; 236; 237; 200; 201; 198; 199; 204; 205; 202; 203; 192; 193; 191;
   191; 196; 197; 194; 195; 214; 215; 212; 213; 218; 219; 216; 217; 207; 207; 206; 206; 210; 211; 208; 209].

Definition alaw_to_ulaw (alaw : Z) : option Z := alaw_to_ulaw_table !! Z.to_nat alaw.
Definition ulaw_to_alaw (ulaw : Z) : option Z := ulaw_to_alaw_table !! Z.to_nat ulaw.

(** *** The codecs of switch_pcm.c *)

(** The loop of the encoders: [n] samples are read from the buffer. *)
Definition encode_loop (enc : Z -> Z) (n : Z) (dbuf : list Z) : option (list Z) :=
  if n <=? zlen dbuf then Some (enc <$> ztake n dbuf) else None.

(** [decoded_data_len] is in bytes; the result is the encoded data and its length. *)
Definition switch_g711u_encode (decoded_data : list Z) (decoded_data_len : Z) : option (list Z * Z) :=
  e ← encode_loop linear_to_ulaw (decoded_data_len / 2) decoded_data; Some (e, decoded_data_len / 2).
Definition switch_g711a_encode (decoded_data : list Z) (decoded_data_len : Z) : option (list Z * Z) :=
  e ← encode_loop linear_to_alaw (decoded_data_len / 2) decoded_data; Some (e, decoded_data_len / 2).

Definition SWITCH_CODEC_FLAG_SILENCE : Z := 16.

(** A silent frame is a packet of zeros. *)
Definition decode_loop (dec : Z -> Z) (decoded_bytes_per_packet flag : Z) (encoded_data : list Z) (encoded_data_len : Z)
  : option (list Z * Z) :=
  if negb (Z.land flag SWITCH_CODEC_FLAG_SILENCE =? 0)
  then Some (replicate (Z.to_nat (decoded_bytes_per_packet / 2)) 0, decoded_bytes_per_packet)
  else d ← encode_loop dec encoded_data_len encoded_data; Some (d, u32 (encoded_data_len * 2)).

Definition switch_g711u_decode : Z -> Z -> list Z -> Z -> option (list Z * Z) := decode_loop ulaw_to_linear.
Definition switch_g711a_decode : Z -> Z -> list Z -> Z -> option (list Z * Z) := decode_loop alaw_to_linear.

(** The raw codec: data is only copied when the rates of the two codecs differ. *)
Definition raw_copy (rate other_rate : option Z) (data : list Z) (len : Z) : option (list Z) * switch_status :=
  match rate, other_rate with
  | Some r, Some o => if r =? o then (None, SWITCH_STATUS_NOOP) else (Some (ztake len data), SWITCH_STATUS_RESAMPLE)
  | _, _ => (None, SWITCH_STATUS_NOOP)
  end.
Definition switch_raw_encode : option Z -> option Z -> list Z -> Z -> option (list Z) * switch_status := raw_copy.
Definition switch_raw_decode : option Z -> option Z -> list Z -> Z -> option (list Z) * switch_status := raw_copy.

(** ** Samples *)

Definition SWITCH_SMAX : Z := 32767.
Definition SWITCH_SMIN : Z := -32768.

Definition switch_normalize_to_16bit (n : Z) : Z :=
  if SWITCH_SMAX <? n then SWITCH_SMAX else if n <? SWITCH_SMIN then SWITCH_SMIN else n.

Definition sample (x : Z) : Prop := SWITCH_SMIN <= x <= SWITCH_SMAX.

Definition switch_swap_linear (len : Z) (buf : list Z) : option (list Z) :=
  if len <=? zlen buf then
    Some (((fun x => swrap 16 (Z.lor (Z.land (Z.shiftr x 8) 0x00ff) (Z.land (Z.shiftl x 8) 0xff00))) <$> ztake len buf) ++ zdrop len buf)
  else None.

(** The loops of merging and unmerging: the first [n] samples are combined. *)
Fixpoint combine_loop (f : Z -> Z -> Z) (n : nat) (data other_data : list Z) : option (list Z) :=
  match n, data, other_data with
  | O, _, _ => Some data
  | S n, d :: data, o :: other => rest ← combine_loop f n data other; Some (f d o :: rest)
  | S _, _, _ => None
  end.

(** The number of samples is held in an int32_t, the sum in an int32_t; the
    number is returned as a uint32_t. *)
Definition combine (f : Z -> Z -> Z) (data : list Z) (samples : Z) (other_data : list Z) (other_samples : Z) : option (list Z * Z) :=
  let x := s32 (if other_samples <? samples then other_samples else samples) in
  r ← combine_loop f (Z.to_nat x) data other_data; Some (r, u32 x).

Definition switch_merge_sln : list Z -> Z -> list Z -> Z -> option (list Z * Z) :=
  combine (fun d o => switch_normalize_to_16bit (d + o)).
Definition switch_unmerge_sln : list Z -> Z -> list Z -> Z -> option (list Z * Z) :=
  combine (fun d o => swrap 16 (d - o)).

(** *** Muxing channels in place *)

(** One interleaved group: the sums are written to sample [i] while the group
    is still being read. *)
Fixpoint mux_group (n : nat) (i at_ : nat) (z : Z) (data : list Z) : option (list Z) :=
  match n with
  | O => Some data
  | S n =>
    x ← data !! at_;
    let z := switch_normalize_to_16bit (z + x) in
    if (i <? length data)%nat then mux_group n i (S at_) z (<[i := z]> data) else None
  end.

Fixpoint mux_loop (n : nat) (i : nat) (channels : nat) (data : list Z) : option (list Z) :=
  match n with
  | O => Some data
  | S n => data ← mux_group channels i (i * channels)%nat 0 data; mux_loop n (S i) channels data
  end.

Definition switch_mux_channels (data : list Z) (samples channels : Z) : option (list Z) :=
  mux_loop (Z.to_nat samples) 0 (Z.to_nat channels) data.

(** *** Comfort noise *)

(** [rnd2] is an int16_t; its product with an unsigned constant is modulo 2^32.
    The sum of six of them cannot leave the range of an int. *)
Fixpoint noise_sum (n : nat) (rnd2 sum_rnd : Z) : Z * Z :=
  match n with
  | O => (rnd2, sum_rnd)
  | S n => let rnd2 := swrap 16 (u32 (u32 rnd2 * 31821 + 13849)) in noise_sum n rnd2 (sum_rnd + rnd2)
  end.

Fixpoint noise_loop (n : nat) (rnd2 divisor : Z) : list Z :=
  match n with
  | O => []
  | S n =>
    let '(rnd2, sum_rnd) := noise_sum 6 rnd2 0 in
    swrap 16 (Z.quot (swrap 16 sum_rnd) (s32 divisor)) :: noise_loop n rnd2 divisor
  end.

(** [seed]: from the clock and the address of the data.  [None]: the assertion fails. *)
Definition switch_generate_sln_silence (seed samples divisor : Z) : option (list Z) :=
  if divisor =? 0 then None
  else if divisor =? 2 ^ 32 - 1 then Some (replicate (Z.to_nat samples) 0)
  else Some (noise_loop (Z.to_nat samples) (swrap 16 seed) divisor).

(** *** Volume *)

(** A positive double: mantissa and exponent. *)
Record double := Double { mantissa : Z; exponent : Z }.

Definition granular_pos : list double :=
  [Double 5629499534213120 (-52); Double 6755399441055744 (-52); Double 7881299347898368 (-52); Double
   4503599627370496 (-51); Double 5066549580791808 (-51); Double 5629499534213120 (-51); Double
   6192449487634432 (-51); Double 6755399441055744 (-51); Double 7318349394477056 (-51); Double
   7881299347898368 (-51); Double 8444249301319680 (-51); Double 4503599627370496 (-50)].
Definition granular_neg : list double :=
  [Double 8259601716597490 (-53); Double 7512004178453987 (-53); Double 6764406640310485 (-53); Double
   6016809102166983 (-53); Double 5269211564023480 (-53); Double 4521614025879978 (-53); Double
   7548032975472951 (-54); Double 6052837899185947 (-54); Double 4557642822898942 (-54); Double
   4899916394579100 (-58); Double 6269010681299730 (-56); Double 4611686018427388 (-60)].
Definition volume_pos : list double :=
  [Double 5854679515581645 (-52); Double 5179139571476070 (-51); Double 7430939385161318 (-51); Double
   4841369599423283 (-50)].
Definition volume_neg : list double :=
  [Double 7205759403792794 (-53); Double 5404319552844595 (-53); Double 7205759403792794 (-54); Double
   7205759403792794 (-55)].

(** Round a positive integer to 53 significant bits, to the nearest and, in the
    middle, to the even neighbour. *)
Definition round53 (p : Z) : Z :=
  let k := Z.log2 p - 52 in
  if k <=? 0 then p
  else
    let q := Z.shiftr p k in
    let r := p - Z.shiftl q k in
    let half := Z.shiftl 1 (k - 1) in
    let q := if (half <? r) || ((r =? half) && Z.odd q) then q + 1 else q in
    Z.shiftl q k.

(** [(int32_t) (x * d)]: the product is rounded to a double and truncated
    towards zero (the exponents of the charts are negative). *)
Definition scale (d : double) (x : Z) : Z :=
  Z.sgn x * Z.shiftr (round53 (Z.abs x * mantissa d)) (- exponent d).

Definition change_volume (limit : Z) (pos neg : list double) (data : list Z) (samples vol : Z) : option (list Z) :=
  if vol =? 0 then Some data
  else
    let vol := if limit <? vol then limit else vol in
    let vol := if vol <? - limit then - limit else vol in
    let chart := if 0 <? vol then pos else neg in
    newrate ← chart !! Z.to_nat (Z.abs vol - 1);
    if samples <=? zlen data
    then Some (((fun x => switch_normalize_to_16bit (scale newrate x)) <$> ztake samples data) ++ zdrop samples data)
    else None.

Definition switch_change_sln_volume_granular : list Z -> Z -> Z -> option (list Z) := change_volume 12 granular_pos granular_neg.
Definition switch_change_sln_volume : list Z -> Z -> Z -> option (list Z) := change_volume 4 volume_pos volume_neg.

(** ** Exhaustive checks *)

(** [P] holds for the [n] integers from [z] on. *)
Fixpoint zall (P : Z -> bool) (z : Z) (n : nat) : bool :=
  match n with
  | O => true
  | S n => if P z then zall P (z + 1) n else false
  end.

Lemma zall_spec P n : forall z x, zall P z n = true -> z <= x < z + Z.of_nat n -> P x = true.
Proof.
  induction n as [|n IH]; intros z x H Hx; [lia|]. cbn [zall] in H. destruct (P z) eqn:Hz; [|done].
  destruct (decide (x = z)) as [->|]; [done|]. apply (IH (z + 1) x H). lia.
Qed.

Lemma all_bytes P x : zall P 0 (Z.to_nat 256) = true -> 0 <= x < 256 -> P x = true.
Proof. intros H Hx. eapply zall_spec; [exact H|]. rewrite Z2Nat.id by lia. lia. Qed.

(** ** The highest and the lowest bit *)

(** Each stage of a search sees a half of what the stage before it saw, and
    behaves the same in the upper half as in the lower one. *)
Lemma land_shiftl h m k : 0 <= k -> Z.land (Z.shiftl h k) m = Z.shiftl (Z.land h (Z.shiftr m k)) k.
Proof.
  intros Hk. apply Z.bits_inj'. intros n Hn. rewrite Z.land_spec, !Z.shiftl_spec by done.
  destruct (Z.lt_ge_cases n k) as [Hlt|Hge]; [by rewrite !(Z.testbit_neg_r _ (n - k)) by lia|].
  rewrite Z.land_spec, Z.shiftr_spec by lia. by replace (n - k + k) with n by lia.
Qed.

(** A word below 2^w does not see the bits of a mask from [w] on. *)
Lemma land_low h m w : 0 <= w -> 0 <= h < 2 ^ w -> Z.land h m = Z.land h (m mod 2 ^ w).
Proof.
  intros Hw Hh. destruct (decide (h = 0)) as [->|Hnz]; [done|].
  apply Z.bits_inj'. intros n Hn. rewrite !Z.land_spec. destruct (Z.lt_ge_cases n w) as [Hlt|Hge].
  - by rewrite Z.mod_pow2_bits_low.
  - rewrite (Z.bits_above_log2 h n); [done|lia|]. apply Z.log2_lt_pow2; [lia|]. pose proof (Z.pow_le_mono_r 2 w n). lia.
Qed.

Lemma shiftl_0 x k : 0 <= k -> Z.shiftl x k = 0 <-> x = 0.
Proof. intros Hk. rewrite Z.shiftl_mul_pow2 by done. pose proof (Z.pow_pos_nonneg 2 k). nia. Qed.

(** One stage: with the bits of the mask [m] if there are any. *)
Definition stage (m step bits i : Z) : Z * Z := if Z.land bits m =? 0 then (bits, i) else (Z.land bits m, i + step).

(** The rest of a search, as a list of stages. *)
Fixpoint search (ms : list (Z * Z)) (bits i : Z) : Z :=
  match ms with
  | [] => i
  | (m, step) :: ms => let '(bits, i) := stage m step bits i in search ms bits i
  end.

Definition top_stages : list (Z * Z) := [(0xF0F0F0F0, 4); (0xCCCCCCCC, 2); (0xAAAAAAAA, 1)].
Definition bottom_stages : list (Z * Z) := [(0x0F0F0F0F, -4); (0x33333333, -2); (0x55555555, -1)].

Lemma top_bit_search bits : bits <> 0 -> top_bit bits = search ((0xFFFF0000, 16) :: (0xFF00FF00, 8) :: top_stages) bits 0.
Proof.
  intros Hb. unfold top_bit. rewrite (proj2 (Z.eqb_neq bits 0)) by done. cbn [search top_stages]. unfold stage.
  repeat (match goal with |- context [?x =? 0] => destruct (x =? 0) end; cbv beta iota zeta); reflexivity.
Qed.

Lemma bottom_bit_search bits : bits <> 0 -> bottom_bit bits = search ((0x0000FFFF, -16) :: (0x00FF00FF, -8) :: bottom_stages) bits 32.
Proof.
  intros Hb. unfold bottom_bit. rewrite (proj2 (Z.eqb_neq bits 0)) by done. cbn [search bottom_stages]. unfold stage.
  repeat (match goal with |- context [?x =? 0] => destruct (x =? 0) end; cbv beta iota zeta); reflexivity.
Qed.

(** A mask that repeats after [k] bits. *)
Definition repeats (k : Z) (ms : list (Z * Z)) : bool := forallb (fun '(m, _) => Z.shiftr m k mod 2 ^ k =? m mod 2 ^ k) ms.

Lemma search_shift k ms : 0 <= k -> repeats k ms = true ->
  forall h i, 0 <= h < 2 ^ k -> search ms (Z.shiftl h k) i = search ms h i.
Proof.
  intros Hk. induction ms as [|[m step] ms IH]; intros Hr h i Hh; [done|]. apply andb_true_iff in Hr as [Hm%Z.eqb_eq Hr].
  cbn [search]. unfold stage. rewrite land_shiftl by done. rewrite (land_low h m k), (land_low h (Z.shiftr m k) k), Hm by lia.
  set (x := Z.land h (m mod 2 ^ k)). assert (0 <= x < 2 ^ k) as Hx.
  { unfold x. rewrite <-(land_low h m k) by lia. split; [apply Z.land_nonneg; lia|].
    rewrite (land_low h m k) by lia. rewrite Z.land_comm. rewrite <-(Z.mod_small h (2 ^ k)) by lia.
    rewrite <-!Z.land_ones by lia. rewrite Z.land_assoc, Z.land_ones by lia. apply Z.mod_pos_bound. lia. }
  destruct (Z.eqb_spec x 0) as [Hz|Hz].
  - rewrite (proj2 (Z.eqb_eq _ 0)) by (by apply shiftl_0). by apply IH.
  - rewrite (proj2 (Z.eqb_neq _ 0)) by (intros H%shiftl_0; lia). by apply IH.
Qed.

Lemma search_add ms : forall bits i j, search ms bits (i + j) = i + search ms bits j.
Proof.
  induction ms as [|[m step] ms IH]; intros bits i j; [done|]. cbn [search]. unfold stage.
  destruct (Z.land bits m =? 0); rewrite <-?Z.add_assoc; apply IH.
Qed.

Lemma land_high w b : 0 <= w -> 0 <= b < 2 ^ (2 * w) -> Z.land b (Z.shiftl (Z.ones w) w) = Z.shiftl (b / 2 ^ w) w.
Proof.
  intros Hw Hb. rewrite <-Z.shiftr_div_pow2 by lia. apply Z.bits_inj'. intros n Hn. rewrite Z.land_spec.
  destruct (Z.lt_ge_cases n w) as [Hlt|Hge].
  - rewrite !Z.shiftl_spec_low by done. apply andb_false_r.
  - rewrite !Z.shiftl_spec, Z.shiftr_spec, Z.testbit_ones by lia. replace (n - w + w) with n by lia.
    rewrite (proj2 (Z.leb_le 0 (n - w))) by lia. destruct (Z.ltb_spec (n - w) w) as [Hlt|Hge']; [apply andb_true_r|].
    destruct (decide (b = 0)) as [->|Hnz]; [by rewrite Z.bits_0|]. rewrite (Z.bits_above_log2 b n); [done|lia|].
    apply Z.log2_lt_pow2; [lia|]. pose proof (Z.pow_le_mono_r 2 (2 * w) n). lia.
Qed.

(** A search for the highest bit halves the word, ... *)
Lemma top_half w m ms b : 0 < w -> m mod 2 ^ (2 * w) = Z.shiftl (Z.ones w) w -> repeats w ms = true -> 0 < b < 2 ^ (2 * w) ->
  search ((m, w) :: ms) b 0 = if b <? 2 ^ w then search ms b 0 else w + search ms (b / 2 ^ w) 0.
Proof.
  intros Hw Hm Hr Hb. cbn [search]. unfold stage. rewrite (land_low b m (2 * w)), Hm, land_high by lia.
  assert (2 ^ (2 * w) = 2 ^ w * 2 ^ w) as Hpow by (rewrite <-Z.pow_add_r by lia; f_equal; lia).
  pose proof (Z.pow_pos_nonneg 2 w). destruct (Z.ltb_spec b (2 ^ w)) as [Hlt|Hge].
  - rewrite Z.div_small, Z.shiftl_0_l by lia. done.
  - assert (0 < b / 2 ^ w < 2 ^ w) as Hq by (split; [apply Z.div_str_pos; lia|apply Z.div_lt_upper_bound; lia]).
    rewrite (proj2 (Z.eqb_neq _ 0)) by (intros Hz%shiftl_0; lia). rewrite Z.add_comm, search_add. f_equal.
    apply search_shift; [lia|done|lia].
Qed.

(** ... and so does the logarithm. *)
Lemma log2_half w b : 0 < w -> 2 ^ w <= b -> Z.log2 b = w + Z.log2 (b / 2 ^ w).
Proof.
  intros Hw Hb. rewrite <-Z.shiftr_div_pow2 by lia. rewrite Z.log2_shiftr by (pose proof (Z.pow_pos_nonneg 2 w); lia).
  pose proof (Z.log2_le_mono _ _ Hb) as Hl. rewrite Z.log2_pow2 in Hl by lia. lia.
Qed.

Lemma top_bit_log2 bits : 0 < bits < 2 ^ 32 -> top_bit bits = Z.log2 bits.
Proof.
  assert (forall b, 0 < b < 2 ^ 8 -> search top_stages b 0 = Z.log2 b) as H8.
  { intros b Hb. apply Z.eqb_eq. apply (zall_spec (fun b => search top_stages b 0 =? Z.log2 b) 255 1 b); [vm_compute; reflexivity|lia]. }
  assert (forall b, 0 < b < 2 ^ 16 -> search ((0xFF00FF00, 8) :: top_stages) b 0 = Z.log2 b) as H16.
  { intros b Hb. rewrite (top_half 8) by (done || lia). destruct (Z.ltb_spec b (2 ^ 8)); [apply H8; lia|].
    rewrite (log2_half 8 b), H8; [done| |lia..]. split; [apply Z.div_str_pos; lia|apply Z.div_lt_upper_bound; lia]. }
  intros Hb. rewrite top_bit_search, (top_half 16) by (done || lia). destruct (Z.ltb_spec bits (2 ^ 16)); [apply H16; lia|].
  rewrite (log2_half 16 bits), H16; [done| |lia..]. split; [apply Z.div_str_pos; lia|apply Z.div_lt_upper_bound; lia].
Qed.

(** [b] is the lowest bit of [bits]. *)
Definition lowest (bits b : Z) : Prop := Z.testbit bits b = true /\ bits mod 2 ^ b = 0.

Lemma lowest_high w b k : 0 <= w -> 0 <= k -> b mod 2 ^ w = 0 -> lowest (b / 2 ^ w) k -> lowest b (w + k).
Proof.
  intros Hw Hk Hb [Ht Hm]. pose proof (Z.pow_pos_nonneg 2 w). pose proof (Z.pow_pos_nonneg 2 k). split.
  - rewrite <-Z.shiftr_div_pow2, Z.shiftr_spec in Ht by lia. by rewrite Z.add_comm.
  - rewrite Z.pow_add_r, Z.rem_mul_r, Hb, Hm by lia. lia.
Qed.

Lemma lowest_low w b k : 0 <= k < w -> lowest (b mod 2 ^ w) k -> lowest b k.
Proof.
  intros Hk [Ht Hm]. split; [by rewrite Z.mod_pow2_bits_low in Ht by lia|]. rewrite <-Hm.
  rewrite (Z.mod_mod_divide b (2 ^ w) (2 ^ k)); [done|]. exists (2 ^ (w - k)). rewrite <-Z.pow_add_r by lia. f_equal. lia.
Qed.

Lemma bottom_half w m ms b : 0 < w -> m mod 2 ^ (2 * w) = Z.ones w -> repeats w ms = true -> 0 < b < 2 ^ (2 * w) ->
  search ((m, - w) :: ms) b 0 = if b mod 2 ^ w =? 0 then search ms (b / 2 ^ w) 0 else - w + search ms (b mod 2 ^ w) 0.
Proof.
  intros Hw Hm Hr Hb. cbn [search]. unfold stage. rewrite (land_low b m (2 * w)), Hm, Z.land_ones by lia.
  assert (2 ^ (2 * w) = 2 ^ w * 2 ^ w) as Hpow by (rewrite <-Z.pow_add_r by lia; f_equal; lia).
  pose proof (Z.pow_pos_nonneg 2 w). destruct (Z.eqb_spec (b mod 2 ^ w) 0) as [Hz|Hz].
  - assert (0 <= b / 2 ^ w < 2 ^ w) by (split; [apply Z.div_pos; lia|apply Z.div_lt_upper_bound; lia]).
    rewrite <-(search_shift w ms ltac:(lia) Hr (b / 2 ^ w)) by lia. f_equal. rewrite Z.shiftl_mul_pow2 by lia. pose proof (Z.div_mod b (2 ^ w)). lia.
  - by rewrite Z.add_comm, search_add.
Qed.

Lemma bottom_step w m ms b : 0 < w -> m mod 2 ^ (2 * w) = Z.ones w -> repeats w ms = true ->
  (forall x, 0 < x < 2 ^ w -> lowest x (search ms x 0 + w - 1) /\ 0 <= search ms x 0 + w - 1 < w) -> 0 < b < 2 ^ (2 * w) ->
  lowest b (search ((m, - w) :: ms) b 0 + 2 * w - 1) /\ 0 <= search ((m, - w) :: ms) b 0 + 2 * w - 1 < 2 * w.
Proof.
  intros Hw Hm Hr Hx Hb. rewrite bottom_half by done. pose proof (Z.mod_pos_bound b (2 ^ w)). pose proof (Z.pow_pos_nonneg 2 w).
  assert (2 ^ (2 * w) = 2 ^ w * 2 ^ w) as Hpow by (rewrite <-Z.pow_add_r by lia; f_equal; lia).
  destruct (Z.eqb_spec (b mod 2 ^ w) 0) as [Hz|Hz].
  - destruct (Hx (b / 2 ^ w)) as [Hl Hr']; [split; [|apply Z.div_lt_upper_bound; lia]; pose proof (Z.div_mod b (2 ^ w)); nia|].
    split; [|lia]. replace (search ms (b / 2 ^ w) 0 + 2 * w - 1) with (w + (search ms (b / 2 ^ w) 0 + w - 1)) by lia.
    apply lowest_high; [lia|lia|done|done].
  - destruct (Hx (b mod 2 ^ w)) as [Hl Hr']; [lia|]. split; [|lia].
    apply (lowest_low w); [lia|]. by replace (- w + search ms (b mod 2 ^ w) 0 + 2 * w - 1) with (search ms (b mod 2 ^ w) 0 + w - 1) by lia.
Qed.

Lemma bottom_bit_lowest bits : 0 < bits < 2 ^ 32 -> lowest bits (bottom_bit bits - 1).
Proof.
  intros Hb. rewrite bottom_bit_search by lia. change 32 with (32 + 0) at 1. rewrite search_add.
  replace (32 + search ((0x0000FFFF, -16) :: (0x00FF00FF, -8) :: bottom_stages) bits 0 - 1)
    with (search ((0x0000FFFF, -16) :: (0x00FF00FF, -8) :: bottom_stages) bits 0 + 2 * 16 - 1) by lia.
  apply (bottom_step 16); [lia|done|done| |done]. intros y Hy. apply (bottom_step 8 0x00FF00FF); [lia|done|done| |done].
  intros x Hx. pose proof (zall_spec (fun x => let k := search bottom_stages x 0 + 8 - 1 in
    Z.testbit x k && (x mod 2 ^ k =? 0) && (0 <=? k) && (k <? 8)) 255 1 x ltac:(vm_compute; reflexivity) ltac:(lia)) as H.
  cbv zeta beta in H. rewrite !andb_true_iff, Z.eqb_eq, Z.leb_le, Z.ltb_lt in H. unfold lowest. tauto.
Qed.

(** The searches for the highest and the lowest bit meet their reference.
    For every 32-bit word other than 0 the cascade of masks of top_bit is the
    integer part of the binary logarithm; that of bottom_bit, in the portable
    version, is one more than the number of the lowest bit that is set. *)
Theorem bit_searches bits :
  0 < bits < 2 ^ 32 ->
  top_bit bits = Z.log2 bits
  /\ Z.testbit bits (bottom_bit bits - 1) = true /\ bits mod 2 ^ (bottom_bit bits - 1) = 0.
Proof. intros Hb. split; [by apply top_bit_log2|by apply bottom_bit_lowest]. Qed.

(** ** G.711 *)

(** C34: G.711 codes survive decoding and encoding.  Every A-law code, and every
    mu-law code but the negative zero, is the encoding of the sample it decodes
    to; the negative zero becomes the positive one, which is the same sample. *)
Theorem g711_round_trip code :
  0 <= code < 256 ->
  linear_to_alaw (alaw_to_linear code) = code
  /\ linear_to_ulaw (ulaw_to_linear code) = (if code =? 0x7F then 0xFF else code)
  /\ ulaw_to_linear 0x7F = ulaw_to_linear 0xFF.
Proof.
  intros Hc.
  pose proof (all_bytes (fun c => (linear_to_alaw (alaw_to_linear c) =? c)
    && (linear_to_ulaw (ulaw_to_linear c) =? (if c =? 0x7F then 0xFF else c))) code ltac:(vm_compute; reflexivity) Hc) as H.
  apply andb_true_iff in H as [H1%Z.eqb_eq H2%Z.eqb_eq]. done.
Qed.

(** The middle of the cell of width 2^k that holds [l]. *)
Definition cell (k l : Z) : Z := 2 ^ k * (l / 2 ^ k) + 2 ^ (k - 1).

Lemma pow2_half k : 1 <= k -> 2 ^ k = 2 * 2 ^ (k - 1).
Proof. intros Hk. rewrite <-Z.pow_succ_r by lia. f_equal. lia. Qed.

Lemma cell_error k l : 1 <= k -> Z.abs (cell k l - l) <= 2 ^ (k - 1).
Proof.
  intros Hk. unfold cell. pose proof (pow2_half k Hk). pose proof (Z.pow_pos_nonneg 2 (k - 1)).
  pose proof (Z.div_mod l (2 ^ k)). pose proof (Z.mod_pos_bound l (2 ^ k)). lia.
Qed.

(** A cell stays within a power of two that its content does not reach. *)
Lemma cell_bounds k n l : 1 <= k <= n -> 2 ^ n <= l < 2 ^ (n + 1) -> 2 ^ n <= cell k l < 2 ^ (n + 1).
Proof.
  intros Hk Hl. unfold cell. pose proof (pow2_half k). pose proof (Z.pow_pos_nonneg 2 (k - 1)). pose proof (Z.pow_pos_nonneg 2 k).
  assert (2 ^ n = 2 ^ k * 2 ^ (n - k)) as Hn by (rewrite <-Z.pow_add_r by lia; f_equal; lia).
  assert (2 ^ (n + 1) = 2 ^ k * 2 ^ (n + 1 - k)) as Hn1 by (rewrite <-Z.pow_add_r by lia; f_equal; lia).
  assert (2 ^ (n - k) <= l / 2 ^ k) as Hq1 by (apply Z.div_le_lower_bound; lia).
  assert (l / 2 ^ k < 2 ^ (n + 1 - k)) as Hq2 by (apply Z.div_lt_upper_bound; lia). nia.
Qed.

Lemma cell_mono k l l' : 1 <= k -> l <= l' -> cell k l <= cell k l'.
Proof. intros Hk Hl. unfold cell. pose proof (Z.pow_pos_nonneg 2 k). pose proof (Z.div_le_mono l l' (2 ^ k)). nia. Qed.

(** The width grows with the segment. *)
Lemma log_cell_mono l l' : 32 <= l -> l <= l' -> cell (Z.log2 l - 4) l <= cell (Z.log2 l' - 4) l'.
Proof.
  intros Hl Hll. pose proof (Z.log2_le_mono l l' Hll) as Hm. pose proof (Z.log2_spec l) as S1. pose proof (Z.log2_spec l') as S2.
  assert (5 <= Z.log2 l) as H5 by (apply (Z.log2_le_mono 32); lia).
  destruct (decide (Z.log2 l = Z.log2 l')) as [->|Hne]; [apply cell_mono; lia|].
  pose proof (cell_bounds (Z.log2 l - 4) (Z.log2 l) l ltac:(lia) ltac:(rewrite Z.add_1_r; apply S1; lia)) as B1.
  pose proof (cell_bounds (Z.log2 l' - 4) (Z.log2 l') l' ltac:(lia) ltac:(rewrite Z.add_1_r; apply S2; lia)) as B2.
  pose proof (Z.pow_le_mono_r 2 (Z.log2 l + 1) (Z.log2 l')). lia.
Qed.

Lemma log_cell_error l : 32 <= l -> 32 * Z.abs (cell (Z.log2 l - 4) l - l) <= l.
Proof.
  intros Hl. assert (5 <= Z.log2 l) as H5 by (apply (Z.log2_le_mono 32); lia).
  pose proof (cell_error (Z.log2 l - 4) l ltac:(lia)). pose proof (Z.log2_spec l ltac:(lia)) as [S _].
  assert (2 ^ Z.log2 l = 32 * 2 ^ (Z.log2 l - 4 - 1)) as Hp by (change 32 with (2 ^ 5); rewrite <-Z.pow_add_r by lia; f_equal; lia). lia.
Qed.

(** The segment and the four bits below its leading one. *)
Lemma segment l : 0 <= l < 2 ^ 16 -> top_bit (u32 (Z.lor l 0xFF)) = Z.max (Z.log2 l) 7.
Proof.
  intros Hl. assert (Z.log2 (Z.lor l 0xFF) = Z.max (Z.log2 l) 7) as Hlog by (apply Z.log2_lor; lia).
  assert (0 < Z.lor l 0xFF < 2 ^ 32) as Hb.
  { split.
    - assert (0 <= Z.lor l 0xFF) by (apply Z.lor_nonneg; lia). assert (Z.lor l 0xFF <> 0) by (intros [_ Hz]%Z.lor_eq_0_iff; done). lia.
    - apply Z.log2_lt_cancel. rewrite Hlog, Z.log2_pow2 by lia.
      enough (Z.log2 l < 32) by lia. destruct (decide (l = 0)) as [->|]; [cbn; lia|]. apply Z.log2_lt_pow2; lia. }
  rewrite wrap_small by lia. by rewrite top_bit_log2.
Qed.

Lemma four_bits l k : 0 <= k -> 2 ^ (k + 4) <= l < 2 ^ (k + 5) -> Z.land (Z.shiftr l k) 0xF = l / 2 ^ k - 16 /\ 16 <= l / 2 ^ k < 32.
Proof.
  intros Hk Hl. rewrite !Z.pow_add_r in Hl by lia. pose proof (Z.pow_pos_nonneg 2 k).
  assert (16 <= l / 2 ^ k < 32) as Hq by (split; [apply Z.div_le_lower_bound|apply Z.div_lt_upper_bound]; lia).
  split; [|done]. change 0xF with (Z.ones 4). rewrite Z.land_ones, Z.shiftr_div_pow2 by lia. change (2 ^ 4) with 16.
  rewrite (Z.mod_eq _ 16) by lia. assert (l / 2 ^ k / 16 = 1) as -> by (symmetry; apply Z.div_unique with (l / 2 ^ k - 16); lia). lia.
Qed.

(** Decoding a segment and four bits; the bits are those of a code byte. *)
Lemma ulaw_decode s q : 0 <= s < 8 -> 0 <= q < 16 ->
  ulaw_to_linear (u8 (Z.lxor (Z.lor (Z.shiftl s 4) q) 0xFF)) = (8 * q + 132) * 2 ^ s - 132
  /\ ulaw_to_linear (u8 (Z.lxor (Z.lor (Z.shiftl s 4) q) 0x7F)) = 132 - (8 * q + 132) * 2 ^ s.
Proof.
  intros Hs Hq. pose proof (zall_spec (fun n => let s := n / 16 in let q := n mod 16 in
    (ulaw_to_linear (u8 (Z.lxor (Z.lor (Z.shiftl s 4) q) 0xFF)) =? (8 * q + 132) * 2 ^ s - 132)
    && (ulaw_to_linear (u8 (Z.lxor (Z.lor (Z.shiftl s 4) q) 0x7F)) =? 132 - (8 * q + 132) * 2 ^ s)) 128 0 (s * 16 + q)
    ltac:(vm_compute; reflexivity) ltac:(lia)) as H. cbv zeta beta in H.
  rewrite Z.div_add_l, (Z.div_small q), Z.add_0_r, (Z.add_comm (s * 16)), Z.mod_add, (Z.mod_small q) in H by lia.
  apply andb_true_iff in H as [H1%Z.eqb_eq H2%Z.eqb_eq]. done.
Qed.

Lemma alaw_decode s q : 0 <= s < 8 -> 0 <= q < 16 ->
  let v := if s =? 0 then 16 * q + 8 else (16 * q + 264) * 2 ^ (s - 1) in
  alaw_to_linear (u8 (Z.lxor (Z.lor (Z.shiftl s 4) q) 0xD5)) = v /\ alaw_to_linear (u8 (Z.lxor (Z.lor (Z.shiftl s 4) q) 0x55)) = - v.
Proof.
  intros Hs Hq. pose proof (zall_spec (fun n => let s := n / 16 in let q := n mod 16 in
    let v := if s =? 0 then 16 * q + 8 else (16 * q + 264) * 2 ^ (s - 1) in
    (alaw_to_linear (u8 (Z.lxor (Z.lor (Z.shiftl s 4) q) 0xD5)) =? v)
    && (alaw_to_linear (u8 (Z.lxor (Z.lor (Z.shiftl s 4) q) 0x55)) =? - v)) 128 0 (s * 16 + q)
    ltac:(vm_compute; reflexivity) ltac:(lia)) as H. cbv zeta beta in H.
  rewrite Z.div_add_l, (Z.div_small q), Z.add_0_r, (Z.add_comm (s * 16)), Z.mod_add, (Z.mod_small q) in H by lia.
  apply andb_true_iff in H as [H1%Z.eqb_eq H2%Z.eqb_eq]. done.
Qed.

(** What a sample becomes: the middle of its cell, of the biased magnitude in the mu-law. *)
Definition ulaw_value (x : Z) : Z :=
  let l := Z.abs x + 132 in
  let v := if l <? 32768 then cell (Z.log2 l - 4) l - 132 else 32124 in
  if x <? 0 then - v else v.

Lemma ulaw_transmits x : sample x -> ulaw_to_linear (linear_to_ulaw x) = ulaw_value x.
Proof.
  intros Hx. unfold sample, SWITCH_SMIN, SWITCH_SMAX in Hx. unfold linear_to_ulaw, ulaw_value, ULAW_BIAS.
  set (l := Z.abs x + 132). assert (0x84 - x = l \/ 0 <= x) as Hneg by (unfold l; lia).
  assert (132 <= l <= 32900) as Hl by (unfold l; lia).
  assert ((if x <? 0 then (0x84 - x, 0x7F) else (0x84 + x, 0xFF)) = (l, if x <? 0 then 0x7F else 0xFF)) as ->.
  { unfold l. destruct (Z.ltb_spec x 0); f_equal; lia. }
  rewrite segment by lia. assert (7 <= Z.log2 l) as H7 by (apply (Z.log2_le_mono 128); lia). rewrite Z.max_l by lia.
  destruct (Z.ltb_spec l 32768) as [Hlt|Hge].
  - assert (Z.log2 l < 15) as H15 by (apply Z.log2_lt_pow2; lia). rewrite (proj2 (Z.leb_gt 8 _)) by lia.
    pose proof (Z.log2_spec l ltac:(lia)) as Hspec. set (s := Z.log2 l - 7). replace (Z.log2 l - 4) with (s + 3) by lia.
    destruct (four_bits l (s + 3)) as [-> Hq]; [lia|unfold s; split; [replace (Z.log2 l - 7 + 3 + 4) with (Z.log2 l) by lia|replace (Z.log2 l - 7 + 3 + 5) with (Z.succ (Z.log2 l)) by lia]; lia|].
    assert ((8 * (l / 2 ^ (s + 3) - 16) + 132) * 2 ^ s = cell (s + 3) l) as Hc.
    { unfold cell. replace (s + 3 - 1) with (s + 2) by lia. rewrite !Z.pow_add_r by lia. lia. }
    destruct (ulaw_decode s (l / 2 ^ (s + 3) - 16)) as [D1 D2]; [lia|lia|]. rewrite Hc in D1, D2.
    destruct (x <? 0); [rewrite D2; lia|exact D1].
  - assert (15 <= Z.log2 l) as H15 by (apply (Z.log2_le_mono 32768); lia). rewrite (proj2 (Z.leb_le 8 _)) by lia.
    by destruct (x <? 0).
Qed.

Definition alaw_magnitude (l : Z) : Z := if l <? 256 then cell 4 l else cell (Z.log2 l - 4) l.
Definition alaw_value (x : Z) : Z :=
  if 0 <=? x then alaw_magnitude x else - alaw_magnitude (Z.max 0 (- x - 8)).

Lemma alaw_code l mask : 0 <= l < 32768 ->
  exists s q, 0 <= s < 8 /\ 0 <= q < 16
    /\ Z.lxor (Z.lor (Z.shiftl (Z.max (Z.log2 l) 7 - 7) 4)
         (Z.land (Z.shiftr l (if Z.max (Z.log2 l) 7 - 7 =? 0 then 4 else Z.max (Z.log2 l) 7 - 7 + 3)) 0x0F)) mask
       = Z.lxor (Z.lor (Z.shiftl s 4) q) mask
    /\ (if s =? 0 then 16 * q + 8 else (16 * q + 264) * 2 ^ (s - 1)) = alaw_magnitude l.
Proof.
  intros Hl. unfold alaw_magnitude. destruct (Z.ltb_spec l 256) as [Hlt|Hge].
  - assert (Z.log2 l <= 7) as H7 by (apply (Z.log2_le_mono l 255); lia). rewrite Z.max_r by lia. exists 0, (l / 16).
    assert (0 <= l / 16 < 16) by (split; [apply Z.div_pos; lia|apply Z.div_lt_upper_bound; lia]). split_and!; [lia..| |].
    + change (7 - 7) with 0. cbn [Z.eqb]. do 2 f_equal. change 0x0F with (Z.ones 4). rewrite Z.land_ones, Z.shiftr_div_pow2 by lia.
      change (2 ^ 4) with 16. apply Z.mod_small. lia.
    + unfold cell. change (2 ^ 4) with 16. change (2 ^ (4 - 1)) with 8. cbn [Z.eqb]. lia.
  - assert (8 <= Z.log2 l < 15) as H8 by (split; [apply (Z.log2_le_mono 256); lia|apply Z.log2_lt_pow2; lia]).
    rewrite Z.max_l by lia. pose proof (Z.log2_spec l ltac:(lia)) as Hspec. set (s := Z.log2 l - 7).
    rewrite (proj2 (Z.eqb_neq s 0)) by lia. replace (Z.log2 l - 4) with (s + 3) by lia.
    destruct (four_bits l (s + 3)) as [Hq Hr]; [lia|unfold s; split; [replace (Z.log2 l - 7 + 3 + 4) with (Z.log2 l) by lia|replace (Z.log2 l - 7 + 3 + 5) with (Z.succ (Z.log2 l)) by lia]; lia|].
    exists s, (l / 2 ^ (s + 3) - 16). split_and!; [lia..|by rewrite Hq|]. rewrite (proj2 (Z.eqb_neq s 0)) by lia.
    unfold cell. replace (s + 3) with (s - 1 + 4) by lia. replace (s - 1 + 4 - 1) with (s - 1 + 3) by lia.
    rewrite !Z.pow_add_r by lia. lia.
Qed.

Lemma alaw_transmits x : sample x -> alaw_to_linear (linear_to_alaw x) = alaw_value x.
Proof.
  intros Hx. unfold sample, SWITCH_SMIN, SWITCH_SMAX in Hx. unfold linear_to_alaw, alaw_value, ALAW_AMI_MASK.
  destruct (Z.leb_spec 0 x) as [Hp|Hn].
  - rewrite segment by lia. change (Z.lor 0x55 0x80) with 0xD5.
    assert (Z.log2 x < 15) as H15 by (destruct (decide (x = 0)) as [->|]; [cbn; lia|apply Z.log2_lt_pow2; lia]).
    rewrite (proj2 (Z.leb_gt 8 _)) by lia. destruct (alaw_code x 0xD5) as (s & q & Hs & Hq & -> & <-); [lia|].
    by destruct (alaw_decode s q Hs Hq).
  - destruct (decide (x <= -8)) as [H8|H8].
    + rewrite (Z.max_r 0) by lia. rewrite segment by lia.
      assert (Z.log2 (- x - 8) < 15) as H15 by (destruct (decide (- x - 8 = 0)) as [->|]; [cbn; lia|apply Z.log2_lt_pow2; lia]).
      rewrite (proj2 (Z.leb_gt 8 _)) by lia. destruct (alaw_code (- x - 8) 0x55) as (s & q & Hs & Hq & -> & <-); [lia|].
      by destruct (alaw_decode s q Hs Hq).
    + assert (x = -7 \/ x = -6 \/ x = -5 \/ x = -4 \/ x = -3 \/ x = -2 \/ x = -1) as Hc by lia.
      destruct Hc as [-> | [-> | [-> | [-> | [-> | [-> | ->]]]]]]; vm_compute; reflexivity.
Qed.

Lemma ulaw_value_mono x y : sample x -> sample y -> x <= y -> ulaw_value x <= ulaw_value y.
Proof.
  unfold sample, SWITCH_SMIN, SWITCH_SMAX. intros Hx Hy Hxy.
  set (f := fun l => if l <? 32768 then cell (Z.log2 l - 4) l - 132 else 32124).
  assert (forall l l', 132 <= l -> l <= l' -> f l <= f l') as Hf.
  { intros l l' Hl Hll. unfold f. destruct (Z.ltb_spec l 32768), (Z.ltb_spec l' 32768); try lia.
    - pose proof (log_cell_mono l l'). lia.
    - pose proof (log_cell_mono l 32767). change (cell (Z.log2 32767 - 4) 32767) with 32256 in *. lia. }
  assert (forall l, 132 <= l -> 0 <= f l) as H0 by (intros l Hl; exact (Hf 132 l ltac:(lia) Hl)).
  unfold ulaw_value. fold (f (Z.abs x + 132)). fold (f (Z.abs y + 132)).
  destruct (Z.ltb_spec x 0), (Z.ltb_spec y 0); try lia.
  - pose proof (Hf (Z.abs y + 132) (Z.abs x + 132)). lia.
  - pose proof (H0 (Z.abs x + 132)). pose proof (H0 (Z.abs y + 132)). lia.
  - apply Hf; lia.
Qed.

Lemma ulaw_value_error x : sample x -> 32 * Z.abs (ulaw_value x - x) <= Z.abs x + 132 /\ sample (ulaw_value x).
Proof.
  intros Hx. assert (-32124 <= ulaw_value x <= 32124) as Hr.
  { split.
    - change (-32124) with (ulaw_value (-32768)). apply ulaw_value_mono; unfold sample, SWITCH_SMIN, SWITCH_SMAX in *; lia.
    - change 32124 with (ulaw_value 32767). apply ulaw_value_mono; unfold sample, SWITCH_SMIN, SWITCH_SMAX in *; lia. }
  unfold sample, SWITCH_SMIN, SWITCH_SMAX in *. split; [|lia]. unfold ulaw_value in *.
  pose proof (log_cell_error (Z.abs x + 132)). destruct (Z.ltb_spec (Z.abs x + 132) 32768), (Z.ltb_spec x 0); lia.
Qed.

Lemma alaw_magnitude_mono l l' : 0 <= l -> l <= l' -> alaw_magnitude l <= alaw_magnitude l'.
Proof.
  intros Hl Hll. unfold alaw_magnitude. destruct (Z.ltb_spec l 256), (Z.ltb_spec l' 256); try lia.
  - apply cell_mono; lia.
  - transitivity (cell 4 255); [apply cell_mono; lia|]. transitivity (cell (Z.log2 256 - 4) 256); [done|]. apply log_cell_mono; lia.
  - apply log_cell_mono; lia.
Qed.

Lemma alaw_magnitude_error l : 0 <= l -> 32 * Z.abs (alaw_magnitude l - l) <= l + 256.
Proof.
  intros Hl. unfold alaw_magnitude. destruct (Z.ltb_spec l 256).
  - pose proof (cell_error 4 l). change (2 ^ (4 - 1)) with 8 in *. lia.
  - pose proof (log_cell_error l). lia.
Qed.

Lemma alaw_value_mono x y : x <= y -> alaw_value x <= alaw_value y.
Proof.
  intros Hxy. unfold alaw_value. assert (forall l, 0 <= l -> 8 <= alaw_magnitude l) as H0
    by (intros l Hl; exact (alaw_magnitude_mono 0 l ltac:(lia) Hl)).
  destruct (Z.leb_spec 0 x), (Z.leb_spec 0 y); try lia.
  - apply alaw_magnitude_mono; lia.
  - pose proof (H0 (Z.max 0 (- x - 8))). pose proof (H0 y). lia.
  - pose proof (alaw_magnitude_mono (Z.max 0 (- y - 8)) (Z.max 0 (- x - 8))). lia.
Qed.

Lemma alaw_value_error x : sample x -> 32 * Z.abs (alaw_value x - x) <= Z.abs x + 504 /\ sample (alaw_value x).
Proof.
  unfold sample, SWITCH_SMIN, SWITCH_SMAX. intros Hx. split.
  - unfold alaw_value. destruct (Z.leb_spec 0 x).
    + pose proof (alaw_magnitude_error x). lia.
    + pose proof (alaw_magnitude_error (Z.max 0 (- x - 8))). lia.
  - pose proof (alaw_value_mono (-32768) x). pose proof (alaw_value_mono x 32767).
    change (alaw_value (-32768)) with (-32256) in *. change (alaw_value 32767) with 32256 in *. lia.
Qed.

(** G.711 keeps the order of samples and their size to one part in
    thirty-two.  For every 16-bit sample the code is a byte, the decoded sample
    is a 16-bit sample that differs from the original by at most a
    thirty-second of its magnitude and a small constant, and a larger sample
    never decodes to a smaller one. *)
Theorem g711_quantization x y :
  sample x -> sample y -> x <= y ->
  (0 <= linear_to_ulaw x < 256 /\ sample (ulaw_to_linear (linear_to_ulaw x))
   /\ 32 * Z.abs (ulaw_to_linear (linear_to_ulaw x) - x) <= Z.abs x + 132
   /\ ulaw_to_linear (linear_to_ulaw x) <= ulaw_to_linear (linear_to_ulaw y))
  /\ (0 <= linear_to_alaw x < 256 /\ sample (alaw_to_linear (linear_to_alaw x))
   /\ 32 * Z.abs (alaw_to_linear (linear_to_alaw x) - x) <= Z.abs x + 504
   /\ alaw_to_linear (linear_to_alaw x) <= alaw_to_linear (linear_to_alaw y)).
Proof.
  intros Hx Hy Hxy. rewrite !ulaw_transmits, !alaw_transmits by done.
  assert (forall z, 0 <= u8 z < 256) as H8 by (intros z; apply (wrap_range 8); lia).
  destruct (ulaw_value_error x Hx), (alaw_value_error x Hx). split_and!; try done; try (by apply ulaw_value_mono); try (by apply alaw_value_mono).
  all: unfold linear_to_ulaw, linear_to_alaw; repeat case_match; apply H8.
Qed.

(** ** Mixing *)

Lemma normalize_sample n : sample (switch_normalize_to_16bit n).
Proof.
  unfold switch_normalize_to_16bit, sample, SWITCH_SMAX, SWITCH_SMIN.
  destruct (Z.ltb_spec 32767 n); [lia|]. destruct (Z.ltb_spec n (-32768)); lia.
Qed.

Lemma normalize_id n : sample n -> switch_normalize_to_16bit n = n.
Proof.
  unfold switch_normalize_to_16bit, sample, SWITCH_SMAX, SWITCH_SMIN. intros H.
  destruct (Z.ltb_spec 32767 n); [lia|]. destruct (Z.ltb_spec n (-32768)); lia.
Qed.

Lemma combine_loop_spec f n : forall data other, (n <= length data)%nat -> (n <= length other)%nat ->
  combine_loop f n data other = Some (zip_with f (take n data) (take n other) ++ drop n data).
Proof.
  induction n as [|n IH]; intros [|d data] [|o other] Hd Ho; simpl in Hd, Ho; try lia; try done.
  cbn [combine_loop]. by rewrite IH by lia.
Qed.

Lemma combine_spec f data other : zlen data = zlen other -> zlen data < 2 ^ 31 ->
  combine f data (zlen data) other (zlen other) = Some (zip_with f data other, zlen data).
Proof.
  intros Hlen Hmax. unfold combine. rewrite Hlen, Z.ltb_irrefl. rewrite <-Hlen. pose proof (zlen_nonneg data). cint.
  rewrite combine_loop_spec by (unfold zlen in *; lia). unfold zlen in *. rewrite Nat2Z.id.
  rewrite take_ge, (take_ge other), drop_ge, app_nil_r by lia. cbn. by cint.
Qed.

Lemma zip_with_comm (f : Z -> Z -> Z) l k : (forall x y, f x y = f y x) -> zip_with f l k = zip_with f k l.
Proof. intros Hf. revert k. induction l as [|x l IH]; intros [|y k]; try done. cbn. by rewrite Hf, IH. Qed.

Lemma zip_with_forall (P : Z -> Prop) (f : Z -> Z -> Z) l k : (forall x y, P (f x y)) -> Forall P (zip_with f l k).
Proof. intros Hf. revert k. induction l as [|x l IH]; intros [|y k]; try done. cbn. constructor; [done|apply IH]. Qed.

Lemma unmerge_merge data other : Forall sample data -> Forall2 (fun d o => sample (d + o)) data other ->
  zip_with (fun d o => swrap 16 (d - o)) (zip_with (fun d o => switch_normalize_to_16bit (d + o)) data other) other = data.
Proof.
  intros Hd. induction 1 as [|d o data other Hdo _ IH]; [done|]. apply Forall_cons in Hd as [Hs Hd].
  cbn. rewrite IH, normalize_id by done. f_equal. unfold sample, SWITCH_SMIN, SWITCH_SMAX in Hs.
  rewrite swrap_small by lia. lia.
Qed.

(** Mixing and unmixing.  Merging two frames of the same length adds them
    sample by sample, clipped to 16 bits, whichever is merged into the other;
    where no sum is clipped, unmerging the second frame gives the first one back. *)
Theorem merge_unmerge data other :
  zlen data = zlen other -> zlen data < 2 ^ 31 -> Forall sample data -> Forall sample other ->
  exists mixed, switch_merge_sln data (zlen data) other (zlen other) = Some (mixed, zlen data)
    /\ switch_merge_sln other (zlen other) data (zlen data) = Some (mixed, zlen data)
    /\ Forall sample mixed
    /\ (Forall2 (fun d o => sample (d + o)) data other ->
        switch_unmerge_sln mixed (zlen data) other (zlen other) = Some (data, zlen data)).
Proof.
  intros Hlen Hmax Hd Ho. unfold switch_merge_sln, switch_unmerge_sln.
  set (f := fun d o => switch_normalize_to_16bit (d + o)). exists (zip_with f data other).
  assert (zlen (zip_with f data other) = zlen data) as Hz by (unfold zlen in *; rewrite length_zip_with; lia). split_and!.
  - by apply combine_spec.
  - rewrite combine_spec by lia. rewrite Hlen, zip_with_comm; [done|]. intros x y. unfold f. f_equal. lia.
  - apply zip_with_forall. intros x y. apply normalize_sample.
  - intros H2. rewrite <-Hz at 1. rewrite combine_spec by lia. unfold f. rewrite unmerge_merge by done. fold f. by rewrite Hz.
Qed.

(** *** Muxing in place *)

(** The reference: each group of channels is summed with clipping at every step. *)
Definition mixed (group : list Z) : Z := foldl (fun z x => switch_normalize_to_16bit (z + x)) 0 group.

Definition group (data : list Z) (channels i : nat) : list Z := take channels (drop (i * channels) data).

Lemma mux_group_spec n : forall i at_ z data, (i <= at_)%nat -> (at_ + n <= length data)%nat -> (0 < n)%nat ->
  mux_group n i at_ z data = Some (<[i := foldl (fun z x => switch_normalize_to_16bit (z + x)) z (take n (drop at_ data))]> data).
Proof.
  induction n as [|n IH]; intros i at_ z data Hi Hlen Hn; [lia|]. cbn [mux_group].
  destruct (lookup_lt_is_Some_2 data at_) as [x Hx]; [lia|]. rewrite Hx. cbn [mbind option_bind].
  rewrite (proj2 (Nat.ltb_lt _ _)) by lia. rewrite (drop_S _ x) by done. cbn [take foldl].
  set (z' := switch_normalize_to_16bit (z + x)). destruct n as [|n]; [done|].
  rewrite IH by (rewrite ?length_insert; lia). rewrite list_insert_insert_eq. do 4 f_equal.
  apply drop_insert_lt. lia.
Qed.

Lemma group_insert data channels i j v : (0 < channels)%nat -> (i < j)%nat ->
  group (<[i := v]> data) channels j = group data channels j.
Proof. intros Hc Hij. unfold group. rewrite drop_insert_lt; [done|]. nia. Qed.

Lemma mux_loop_spec n : forall i channels data, (0 < channels)%nat -> ((i + n) * channels <= length data)%nat ->
  exists out, mux_loop n i channels data = Some out /\ length out = length data
    /\ (forall j, (j < i)%nat -> out !! j = data !! j)
    /\ (forall j, (i <= j < i + n)%nat -> out !! j = Some (mixed (group data channels j)))
    /\ (forall j, (i + n <= j)%nat -> out !! j = data !! j).
Proof.
  induction n as [|n IH]; intros i channels data Hc Hlen; cbn [mux_loop].
  { exists data. split_and!; [done..|intros; lia|done]. }
  rewrite mux_group_spec by nia. cbn [mbind option_bind]. fold (group data channels i) (mixed (group data channels i)).
  destruct (IH (S i) channels (<[i := mixed (group data channels i)]> data)) as (out & -> & Hl & H1 & H2 & H3); [done|rewrite length_insert; nia|].
  rewrite length_insert in Hl. exists out. split_and!; [done|done| | |].
  - intros j Hj. rewrite H1 by lia. apply list_lookup_insert_ne. lia.
  - intros j Hj. destruct (decide (j = i)) as [->|Hne].
    + rewrite H1 by lia. apply list_lookup_insert_eq. nia.
    + rewrite H2 by lia. by rewrite group_insert by lia.
  - intros j Hj. rewrite H3 by lia. apply list_lookup_insert_ne. lia.
Qed.

(** Muxing in place is muxing.  Although switch_mux_channels writes the
    result over the interleaved samples it is still reading, sample [j] of the
    result is the clipped sum of group [j] of the original samples, the number
    of samples does not change and those behind the result keep their values. *)
Theorem mux_in_place data samples channels :
  0 <= samples -> 0 < channels -> samples * channels <= zlen data ->
  exists out, switch_mux_channels data samples channels = Some out /\ zlen out = zlen data
    /\ (forall j, (Z.of_nat j < samples) -> out !! j = Some (mixed (group data (Z.to_nat channels) j)))
    /\ (forall j, (samples <= Z.of_nat j) -> out !! j = data !! j).
Proof.
  intros Hs Hc Hlen. unfold switch_mux_channels, zlen in *.
  destruct (mux_loop_spec (Z.to_nat samples) 0 (Z.to_nat channels) data) as (out & H & Hl & _ & H2 & H3); [lia|nia|].
  exists out. split_and!; [done|lia| |]; intros j Hj; [apply H2|apply H3]; lia.
Qed.

(** ** Byte order *)

Definition swap_sample (x : Z) : Z := swrap 16 (Z.lor (Z.land (Z.shiftr x 8) 0x00ff) (Z.land (Z.shiftl x 8) 0xff00)).

Lemma swap_sample_bytes x : swap_sample x = swrap 16 ((x / 256) mod 256 + x mod 256 * 256).
Proof.
  unfold swap_sample. f_equal. rewrite land_shiftl by lia. change (Z.shiftr 0xff00 8) with (Z.ones 8). change 0x00ff with (Z.ones 8).
  rewrite !Z.land_ones, Z.shiftr_div_pow2 by lia. change (2 ^ 8) with 256. set (a := (x / 256) mod 256). set (b := x mod 256).
  assert (0 <= a < 256) as Ha by (apply Z.mod_pos_bound; lia).
  pose proof (Z.add_lor_land a (Z.shiftl b 8)) as H. rewrite (Z.land_comm a), land_shiftl in H by lia.
  rewrite (Z.shiftr_div_pow2 a) in H by lia. change (2 ^ 8) with 256 in H. rewrite (Z.div_small a 256), Z.land_0_r, Z.shiftl_0_l in H by lia.
  rewrite Z.shiftl_mul_pow2 in * by lia. change (2 ^ 8) with 256 in *. lia.
Qed.

(** Swapping the bytes of a frame twice gives the frame back. *)
Lemma swap_linear_involutive data :
  Forall sample data -> exists out, switch_swap_linear (zlen data) data = Some out /\ switch_swap_linear (zlen data) out = Some data.
Proof.
  intros Hd. assert (forall l : list Z, switch_swap_linear (zlen l) l = Some (swap_sample <$> l)) as Hs.
  { intros l. unfold switch_swap_linear. rewrite Z.leb_refl, ztake_all, zdrop_all, app_nil_r by lia. done. }
  exists (swap_sample <$> data). split; [apply Hs|].
  assert (zlen data = zlen (swap_sample <$> data)) as -> by (unfold zlen; by rewrite length_fmap). rewrite Hs. f_equal.
  rewrite <-list_fmap_compose. induction Hd as [|x data Hx _ IH]; [done|]. rewrite fmap_cons, IH. f_equal. cbn.
  rewrite !swap_sample_bytes. unfold sample, SWITCH_SMIN, SWITCH_SMAX, swrap in *. change (2 ^ (16 - 1)) with 32768. change (2 ^ 16) with 65536.
  zdiv.
Qed.

(** ** Volume *)

Lemma round53_spec p : 0 < p -> 2 ^ 53 * Z.abs (round53 p - p) <= p.
Proof.
  intros Hp. unfold round53. destruct (Z.leb_spec (Z.log2 p - 52) 0); [lia|]. set (k := Z.log2 p - 52) in *.
  rewrite Z.shiftr_div_pow2, !Z.shiftl_mul_pow2 by lia. pose proof (pow2_half k ltac:(lia)) as Hk. set (half := 2 ^ (k - 1)) in *.
  assert (0 < half) by (apply Z.pow_pos_nonneg; lia). pose proof (Z.div_mod p (2 ^ k) ltac:(lia)) as Hdm.
  pose proof (Z.mod_pos_bound p (2 ^ k) ltac:(lia)) as Hr. set (q := p / 2 ^ k) in *.
  assert (2 ^ 53 * half <= p) as Hb.
  { unfold half. rewrite <-Z.pow_add_r by lia. replace (53 + (k - 1)) with (Z.log2 p) by lia. apply Z.log2_spec. lia. }
  assert (Z.abs ((if (1 * half <? p - q * 2 ^ k) || ((p - q * 2 ^ k =? 1 * half) && Z.odd q) then q + 1 else q) * 2 ^ k - p) <= half) as He.
  { destruct (Z.ltb_spec (1 * half) (p - q * 2 ^ k)); cbn [orb]; [lia|].
    destruct (Z.eqb_spec (p - q * 2 ^ k) (1 * half)); cbn [andb]; [destruct (Z.odd q)|]; lia. }
  nia.
Qed.

(** A factor below and above one, by a margin that rounding cannot bridge. *)
Definition softens (d : double) : bool :=
  (exponent d <? 0) && (0 <? mantissa d) && (mantissa d * (2 ^ 53 + 1) <=? 2 ^ 53 * 2 ^ (- exponent d)).
Definition amplifies (d : double) : bool :=
  (exponent d <? 0) && (0 <? mantissa d) && (2 ^ 53 * 2 ^ (- exponent d) <=? mantissa d * (2 ^ 53 - 1)).

Lemma charts_ok : forallb softens (granular_neg ++ volume_neg) = true /\ forallb amplifies (granular_pos ++ volume_pos) = true.
Proof. split; vm_compute; reflexivity. Qed.

Lemma scale_abs d x : Z.abs (scale d x) = Z.abs (Z.sgn x) * Z.abs (Z.shiftr (round53 (Z.abs x * mantissa d)) (- exponent d)).
Proof. unfold scale. apply Z.abs_mul. Qed.

Lemma softens_scale d x : softens d = true -> 0 <= x * scale d x /\ Z.abs (scale d x) <= Z.abs x.
Proof.
  unfold softens. rewrite !andb_true_iff, !Z.ltb_lt, Z.leb_le. intros [[He Hm] Hd].
  destruct (decide (x = 0)) as [->|Hx]; [done|]. pose proof (round53_spec (Z.abs x * mantissa d) ltac:(nia)) as Hr.
  pose proof (Z.pow_pos_nonneg 2 (- exponent d)). unfold scale. set (p := Z.abs x * mantissa d) in *.
  assert (0 <= round53 p <= Z.abs x * 2 ^ (- exponent d)) as Hb by nia.
  rewrite Z.shiftr_div_pow2 by lia. set (y := round53 p / 2 ^ (- exponent d)).
  assert (0 <= y <= Z.abs x) as Hy by (split; [apply Z.div_pos; lia|apply Z.div_le_upper_bound; lia]).
  destruct (Z.lt_total x 0) as [Hs|[Hs|Hs]]; [|lia|]; [rewrite Z.sgn_neg by done|rewrite Z.sgn_pos by done]; nia.
Qed.

Lemma amplifies_scale d x : amplifies d = true -> 0 <= x * scale d x /\ Z.abs x <= Z.abs (scale d x).
Proof.
  unfold amplifies. rewrite !andb_true_iff, !Z.ltb_lt, Z.leb_le. intros [[He Hm] Hd].
  destruct (decide (x = 0)) as [->|Hx]; [done|]. pose proof (round53_spec (Z.abs x * mantissa d) ltac:(nia)) as Hr.
  pose proof (Z.pow_pos_nonneg 2 (- exponent d)). unfold scale. set (p := Z.abs x * mantissa d) in *.
  assert (Z.abs x * 2 ^ (- exponent d) <= round53 p) as Hb by nia.
  rewrite Z.shiftr_div_pow2 by lia. set (y := round53 p / 2 ^ (- exponent d)).
  assert (Z.abs x <= y) as Hy by (apply Z.div_le_lower_bound; lia).
  destruct (Z.lt_total x 0) as [Hs|[Hs|Hs]]; [|lia|]; [rewrite Z.sgn_neg by done|rewrite Z.sgn_pos by done]; nia.
Qed.

(** What a change of volume does to one sample. *)
Definition volume_ok (vol x y : Z) : Prop :=
  sample y /\ 0 <= x * y /\ (vol < 0 -> Z.abs y <= Z.abs x) /\ (0 < vol -> Z.abs x <= Z.abs y) /\ (vol = 0 -> y = x).

Lemma normalize_volume vol x y : sample x -> 0 <= x * y -> vol <> 0 -> (vol < 0 -> Z.abs y <= Z.abs x) -> (0 < vol -> Z.abs x <= Z.abs y) ->
  volume_ok vol x (switch_normalize_to_16bit y).
Proof.
  intros Hx Hs Hv H1 H2. split; [apply normalize_sample|]. unfold switch_normalize_to_16bit, sample, SWITCH_SMAX, SWITCH_SMIN in *.
  destruct (Z.ltb_spec 32767 y); [split_and!; intros; nia|]. destruct (Z.ltb_spec y (-32768)); split_and!; intros; nia.
Qed.

Lemma change_volume_ok limit pos neg data vol : 0 < limit -> length pos = Z.to_nat limit -> length neg = Z.to_nat limit ->
  forallb amplifies pos = true -> forallb softens neg = true -> Forall sample data ->
  exists out, change_volume limit pos neg data (zlen data) vol = Some out /\ Forall2 (volume_ok vol) data out.
Proof.
  intros Hlim Hp Hn Ha Hs Hd. unfold change_volume. destruct (Z.eqb_spec vol 0) as [->|Hv].
  { exists data. split; [done|]. apply Forall_Forall2_diag. eapply Forall_impl; [exact Hd|]. intros x Hx. split_and!; try done; nia. }
  set (v1 := if limit <? vol then limit else vol). set (v := if v1 <? - limit then - limit else v1).
  assert (v <> 0 /\ Z.abs v <= limit /\ (0 < v <-> 0 < vol)) as (H0 & H1 & H2).
  { unfold v, v1. destruct (Z.ltb_spec limit vol); [destruct (Z.ltb_spec limit (- limit))|destruct (Z.ltb_spec vol (- limit))]; lia. }
  set (chart := if 0 <? v then pos else neg).
  destruct (lookup_lt_is_Some_2 chart (Z.to_nat (Z.abs v - 1))) as [d Hdd]; [unfold chart; destruct (0 <? v); lia|].
  rewrite Hdd. cbn [mbind option_bind]. rewrite Z.leb_refl, ztake_all, zdrop_all, app_nil_r by lia. eexists. split; [done|].
  rewrite Forall2_fmap_r. apply Forall_Forall2_diag. eapply Forall_impl; [exact Hd|]. intros x Hx.
  apply list_elem_of_lookup_2 in Hdd. unfold chart in Hdd. rewrite forallb_forall in Ha, Hs.
  destruct (Z.ltb_spec 0 v).
  - destruct (amplifies_scale d x) as [S1 S2]; [by apply Ha, list_elem_of_In|]. apply normalize_volume; try done; lia.
  - destruct (softens_scale d x) as [S1 S2]; [by apply Hs, list_elem_of_In|]. apply normalize_volume; try done; lia.
Qed.

(** A change of volume does what its sign says.  For every frame and every
    volume, in both charts, the result has as many samples, all in the 16-bit
    range and of the same sign as before; a negative volume never makes a
    sample larger, a positive one never makes it smaller, and zero changes
    nothing. *)
Theorem volume_direction data vol :
  Forall sample data ->
  (exists out, switch_change_sln_volume data (zlen data) vol = Some out /\ Forall2 (volume_ok vol) data out)
  /\ (exists out, switch_change_sln_volume_granular data (zlen data) vol = Some out /\ Forall2 (volume_ok vol) data out).
Proof. intros Hd. split; (apply change_volume_ok; [lia|done..|vm_compute; reflexivity|vm_compute; reflexivity|done]). Qed.

(** The flaw: in the granular chart a volume of -10 is softer than one of -11. *)
Theorem granular_chart_not_monotone :
  switch_change_sln_volume_granular [10000] 1 (-10) = Some [170] /\ switch_change_sln_volume_granular [10000] 1 (-11) = Some [869]
  /\ switch_change_sln_volume_granular [10000] 1 (-9) = Some [2530].
Proof. split_and!; vm_compute; reflexivity. Qed.

(** ** Instances *)

Lemma bit_searches_witness :
  top_bit 0x58 = Z.log2 0x58 /\ Z.testbit 0x58 (bottom_bit 0x58 - 1) = true /\ 0x58 mod 2 ^ (bottom_bit 0x58 - 1) = 0.
Proof. apply (bit_searches 0x58). lia. Defined.

Lemma g711_round_trip_witness :
  linear_to_alaw (alaw_to_linear 0x7F) = 0x7F
  /\ linear_to_ulaw (ulaw_to_linear 0x7F) = 0xFF
  /\ ulaw_to_linear 0x7F = ulaw_to_linear 0xFF.
Proof. apply (g711_round_trip 0x7F). lia. Defined.

Lemma g711_quantization_witness :
  32 * Z.abs (ulaw_to_linear (linear_to_ulaw (-1000)) - -1000) <= 1132
  /\ 32 * Z.abs (alaw_to_linear (linear_to_alaw (-1000)) - -1000) <= 1504.
Proof.
  assert (sample (-1000)) as Hx by (unfold sample, SWITCH_SMIN, SWITCH_SMAX; lia). assert (sample 32767) as Hy by (unfold sample, SWITCH_SMIN, SWITCH_SMAX; lia).
  destruct (g711_quantization (-1000) 32767 Hx Hy ltac:(lia)) as [(_ & _ & Hu & _) (_ & _ & Ha & _)].
  exact (conj Hu Ha).
Defined.

Definition frame_a : list Z := [100; -32000; 5].
Definition frame_b : list Z := [-7; 1000; 32000].

Lemma frame_a_samples : Forall sample frame_a.
Proof. repeat constructor; unfold SWITCH_SMIN, SWITCH_SMAX; lia. Qed.

Lemma frame_b_samples : Forall sample frame_b.
Proof. repeat constructor; unfold SWITCH_SMIN, SWITCH_SMAX; lia. Qed.

Lemma merge_unmerge_witness :
  exists mixed, switch_merge_sln frame_a 3 frame_b 3 = Some (mixed, 3)
    /\ switch_unmerge_sln mixed 3 frame_b 3 = Some (frame_a, 3).
Proof.
  destruct (merge_unmerge frame_a frame_b eq_refl eq_refl frame_a_samples frame_b_samples) as (mixed & H1 & _ & _ & H2).
  exists mixed. split; [exact H1|]. apply H2. repeat constructor; unfold SWITCH_SMIN, SWITCH_SMAX; lia.
Defined.

Lemma mux_in_place_witness :
  exists out, switch_mux_channels [1; 2; 30000; 30000; 5; 6] 3 2 = Some out
    /\ out !! 0%nat = Some 3 /\ out !! 1%nat = Some 32767 /\ out !! 2%nat = Some 11 /\ out !! 3%nat = Some 30000.
Proof.
  destruct (mux_in_place [1; 2; 30000; 30000; 5; 6] 3 2 ltac:(lia) ltac:(lia) ltac:(vm_compute; discriminate))
    as (out & H & _ & H2 & H3).
  exists out. rewrite (H2 0%nat), (H2 1%nat), (H2 2%nat), (H3 3%nat) by lia. split; [exact H|]. split_and!; reflexivity.
Defined.

Lemma volume_direction_witness :
  exists out, switch_change_sln_volume frame_a 3 2 = Some out /\ Forall2 (volume_ok 2) frame_a out.
Proof. destruct (volume_direction frame_a 2 frame_a_samples) as [H _]. exact H. Defined.

End Audio.
