(* ===== verification/Buffer.v ===== *)
(** * Byte buffers (src/lib/libfreeswitch/switch_buffer.c)

    A [switch_buffer_t] is one memory block, a read pointer [head] into it and
    the number [used] of unread bytes behind it; [actually_used] counts the
    bytes of the block that hold data, read or unread.  The file models every
    operation of switch_buffer.c on that representation, states the invariant
    that keeps each memory access inside the block, and shows that the buffer
    is a bounded first-in first-out queue of bytes. *)

From S2P Require Import Prelude.

Module Buffer.

(** ** Data *)

Definition SWITCH_BUFFER_FLAG_DYNAMIC : Z := Z.shiftl 1 0.

(** [data] is [None] for the NULL pointer; [head] is the offset of the read
    pointer in the block.  The mutex is not part of the data. *)
Record switch_buffer := mk_buffer {
  data : option bytes;
  head : Z;
  used : Z;
  actually_used : Z;
  datalen : Z;
  max_len : Z;
  blocksize : Z;
  flags : Z;
  id : Z;
  loops : Z }.

Definition dynamic (b : switch_buffer) : bool :=
  test_flag (flags b) SWITCH_BUFFER_FLAG_DYNAMIC.

(** The bytes of the block; the NULL block has none. *)
Definition block (b : switch_buffer) : bytes := default [] (data b).

Definition set_head_used (h u : Z) (b : switch_buffer) : switch_buffer :=
  mk_buffer (data b) h u (actually_used b) (datalen b) (max_len b)
            (blocksize b) (flags b) (id b) (loops b).

Definition set_loops (n : Z) (b : switch_buffer) : switch_buffer :=
  mk_buffer (data b) (head b) (used b) (actually_used b) (datalen b) (max_len b)
            (blocksize b) (flags b) (id b) n.

Definition set_data (d : bytes) (h u au len : Z) (b : switch_buffer) : switch_buffer :=
  mk_buffer (Some d) h u au len (max_len b) (blocksize b) (flags b) (id b) (loops b).

Section operations.
(** The C allocator: whether a request of that many bytes succeeds, and the
    indeterminate byte that fills memory nobody has written. *)
Variable malloc_ok : Z -> bool.
Variable junk : Z.

(** sizeof(switch_buffer_t). *)
Definition sizeof_buffer : Z := 80.

(** ** Operations *)

(** switch_buffer_create: a fixed block from a (zeroing) memory pool.
    [buffer_id] is the global counter; the new counter is returned. *)
Definition switch_buffer_create (buffer_id max_len : Z) : switch_status * option switch_buffer * Z :=
  if malloc_ok sizeof_buffer && malloc_ok max_len then
    (SWITCH_STATUS_SUCCESS,
     Some (mk_buffer (Some (replicate (Z.to_nat max_len) 0)) 0 0 0 max_len 0 0 0 buffer_id 0),
     u32 (buffer_id + 1))
  else (SWITCH_STATUS_MEMERR, None, buffer_id).

(** switch_buffer_create_dynamic: no block at all when [start_len] is 0. *)
Definition switch_buffer_create_dynamic (buffer_id blocksize start_len max_len : Z)
  : switch_status * option switch_buffer * Z :=
  if malloc_ok sizeof_buffer && ((start_len =? 0) || malloc_ok start_len) then
    let d := if start_len =? 0 then None else Some (replicate (Z.to_nat start_len) 0) in
    (SWITCH_STATUS_SUCCESS,
     Some (mk_buffer d 0 0 0 start_len max_len blocksize SWITCH_BUFFER_FLAG_DYNAMIC buffer_id 0),
     u32 (buffer_id + 1))
  else (SWITCH_STATUS_MEMERR, None, buffer_id).

Definition switch_buffer_len (b : switch_buffer) : Z := datalen b.

Definition switch_buffer_freespace (b : switch_buffer) : Z :=
  if dynamic b then
    if negb (max_len b =? 0) then max_len b -u used b else 1000000
  else datalen b -u used b.

Definition switch_buffer_inuse (b : switch_buffer) : Z := used b.

(** The number of bytes a read, a peek or a toss of [n] bytes takes. *)
Definition reading (b : switch_buffer) (n : Z) : Z :=
  if used b >=? n then n else used b.

Definition switch_buffer_toss (b : switch_buffer) (n : Z) : switch_buffer * Z :=
  if used b <? 1 then (set_head_used (head b) 0 b, 0)
  else
    let r := reading b n in
    let b' := set_head_used (head b + r) (used b -u r) b in
    (b', used b').

Definition switch_buffer_set_loops (b : switch_buffer) (n : Z) : switch_buffer := set_loops n b.

(** switch_buffer_read: the bytes copied to the caller and the count. *)
Definition switch_buffer_read (b : switch_buffer) (n : Z) : switch_buffer * bytes * Z :=
  if used b <? 1 then (set_head_used (head b) 0 b, [], 0)
  else
    let r := reading b n in
    (set_head_used (head b + r) (used b -u r) b, slice (head b) r (block b), r).

Definition switch_buffer_read_loop (b : switch_buffer) (n : Z) : switch_buffer * bytes * Z :=
  let '(b1, out, len) := switch_buffer_read b n in
  if len =? 0 then
    let b2 := if loops b1 >? 0 then set_loops (loops b1 - 1) b1 else b1 in
    if loops b2 =? 0 then (b2, [], 0)
    else switch_buffer_read (set_head_used 0 (actually_used b2) b2) n
  else (b1, out, len).

Definition switch_buffer_peek (b : switch_buffer) (n : Z) : switch_buffer * bytes * Z :=
  if used b <? 1 then (set_head_used (head b) 0 b, [], 0)
  else
    let r := reading b n in (b, slice (head b) r (block b), r).

(** switch_buffer_peek_zerocopy: the pointer is [head] (none when empty). *)
Definition switch_buffer_peek_zerocopy (b : switch_buffer) : switch_buffer * option Z * Z :=
  if used b <? 1 then (set_head_used (head b) 0 b, None, 0)
  else (b, Some (head b), used b).

(** The compaction at the start of a write: [memmove] of the unread bytes to
    the start of the block. *)
Definition write_compact (b : switch_buffer) (m : bytes) : switch_buffer :=
  set_data (blit 0 (slice (head b) (used b) m) m) 0 (used b) (used b) (datalen b) b.

(** The [realloc] of a dynamic buffer; [None] when it fails. *)
Definition write_grow (b : switch_buffer) (m : bytes) (n : Z) : option switch_buffer :=
  let new_size := datalen b +u n in
  let new_block_size := datalen b +u blocksize b in
  let new_size := if new_block_size >? new_size then new_block_size else new_size in
  if malloc_ok new_size then
    Some (set_data (m ++ replicate (Z.to_nat (new_size - datalen b)) junk)
                   0 (used b) (actually_used b) new_size b)
  else None.

(** The end of a write: copy behind the unread bytes when they fit. *)
Definition write_store (b : switch_buffer) (d : bytes) : switch_buffer * Z :=
  let n := zlen d in
  if datalen b -u used b <? n then (b, 0)
  else
    let m := blit (head b + used b) d (block b) in
    let b' := set_data m (head b) (used b +u n) (actually_used b +u n) (datalen b) b in
    (b', used b').

(** switch_buffer_write; [None] is the failed assertion [data != NULL]. *)
Definition switch_buffer_write (b : switch_buffer) (d : bytes) : option (switch_buffer * Z) :=
  let n := zlen d in
  match data b with
  | None => None
  | Some m =>
    if n =? 0 then Some (b, used b)
    else
      let b1 := if datalen b -u actually_used b <? n then write_compact b m else b in
      let freespace := datalen b1 -u used b1 in
      let grown :=
        if dynamic b1 && (freespace <? n)
           && ((max_len b1 =? 0) || (used b1 +u n <=? max_len b1))
        then match write_grow b1 (block b1) n with
             | Some b2 => inl b2
             | None => inr (set_head_used 0 (used b1) b1)
             end
        else inl b1 in
      match grown with
      | inr b2 => Some (b2, 0)
      | inl b2 => Some (write_store b2 d)
      end
  end.

(** switch_buffer_zero; [None] is the failed assertion. *)
Definition switch_buffer_zero (b : switch_buffer) : option switch_buffer :=
  match data b with
  | None => None
  | Some m => Some (set_data m 0 0 0 (datalen b) b)
  end.

Definition switch_buffer_zwrite (b : switch_buffer) (d : bytes) : option (switch_buffer * Z) :=
  '(b1, w) ← switch_buffer_write b d;
  if w =? 0 then b2 ← switch_buffer_zero b1; switch_buffer_write b2 d
  else Some (b1, w).

Definition switch_buffer_slide_write (b : switch_buffer) (d : bytes) : option (switch_buffer * Z) :=
  '(b1, w) ← switch_buffer_write b d;
  if w =? 0 then switch_buffer_write (switch_buffer_toss b1 (zlen d)).1 d
  else Some (b1, w).

(** switch_buffer_destroy: the handle becomes NULL; only a dynamic buffer's
    memory is returned to the allocator (the rest belongs to its pool). *)
Definition switch_buffer_destroy (b : option switch_buffer) : option switch_buffer * list bytes :=
  match b with
  | Some b => (None, if dynamic b then option_list (data b) else [])
  | None => (None, [])
  end.

(** ** Invariant *)

(** The read and the unread bytes are exactly the first [actually_used] bytes
    of a block of [datalen] bytes. *)
Record buf_wf (b : switch_buffer) : Prop := {
  wf_head : 0 <= head b;
  wf_used : 0 <= used b;
  wf_actual : head b + used b = actually_used b;
  wf_fits : actually_used b <= datalen b;
  wf_block : zlen (block b) = datalen b;
  wf_size : datalen b <= PTRDIFF_MAX }.

(** What the buffer holds: the unread bytes, oldest first. *)
Definition contents (b : switch_buffer) : bytes := slice (head b) (used b) (block b).

(** The bytes written since the last compaction: what a loop replays. *)
Definition history (b : switch_buffer) : bytes := ztake (actually_used b) (block b).

Lemma zlen_contents b : buf_wf b -> zlen (contents b) = used b.
Proof. intros []. unfold contents. apply zlen_slice; lia. Qed.

Lemma wf_set_head_used b h u :
  buf_wf b -> 0 <= h -> 0 <= u -> h + u = actually_used b -> buf_wf (set_head_used h u b).
Proof. intros [] ???. constructor; simpl; auto; lia. Qed.

Lemma reading_range b n : buf_wf b -> 0 <= n -> 0 <= reading b n <= used b /\ reading b n <= n.
Proof. intros [] ?. unfold reading. destruct (Z.geb_spec (used b) n); lia. Qed.

Lemma reading_min b n : reading b n = Z.min n (used b).
Proof. unfold reading. destruct (Z.geb_spec (used b) n); lia. Qed.


Lemma wf_idle b : buf_wf b -> used b < 1 -> set_head_used (head b) 0 b = b.
Proof. intros [] ?. destruct b; unfold set_head_used; simpl in *. f_equal. lia. Qed.

Lemma slice_contents b n :
  buf_wf b -> 0 <= n -> slice (head b) (Z.min n (used b)) (block b) = ztake n (contents b).
Proof.
  intros Hwf Hn. pose proof (zlen_contents b Hwf) as Hc. destruct Hwf.
  rewrite (slice_prefix _ _ (used b)) by lia. fold (contents b).
  destruct (Z.le_gt_cases n (used b)).
  - by rewrite Z.min_l by lia.
  - rewrite Z.min_r, !ztake_all by lia. done.
Qed.

Lemma contents_advance b n :
  buf_wf b -> 0 <= n ->
  contents (set_head_used (head b + Z.min n (used b)) (used b - Z.min n (used b)) b)
  = zdrop n (contents b).
Proof.
  intros Hwf Hn. pose proof (zlen_contents b Hwf) as Hc. destruct Hwf.
  unfold contents at 1. simpl. change (block (set_head_used _ _ b)) with (block b).
  rewrite slice_suffix by lia. fold (contents b).
  destruct (Z.le_gt_cases n (used b)).
  - by rewrite Z.min_l by lia.
  - rewrite Z.min_r, !zdrop_all by lia. done.
Qed.

(** The fields no read-side operation touches. *)
Definition same_config (b b' : switch_buffer) : Prop :=
  datalen b' = datalen b /\ data b' = data b /\ flags b' = flags b
  /\ max_len b' = max_len b /\ blocksize b' = blocksize b.

Lemma contents_nil b : buf_wf b -> used b < 1 -> contents b = [].
Proof.
  intros Hwf ?. pose proof (zlen_contents b Hwf). apply nil_length_inv. unfold zlen in *. lia.
Qed.

Lemma ztake_nil {A} n : ztake n (@nil A) = [].
Proof. apply take_nil. Qed.
Lemma zdrop_nil {A} n : zdrop n (@nil A) = [].
Proof. apply drop_nil. Qed.

Lemma read_spec b n :
  buf_wf b -> 0 <= n ->
  exists b', switch_buffer_read b n = (b', ztake n (contents b), Z.min n (used b))
    /\ buf_wf b' /\ contents b' = zdrop n (contents b) /\ same_config b b'
    /\ actually_used b' = actually_used b /\ loops b' = loops b.
Proof.
  intros Hwf Hn. pose proof Hwf as []. unfold switch_buffer_read.
  destruct (Z.ltb_spec (used b) 1).
  - rewrite wf_idle, contents_nil, ztake_nil, zdrop_nil, Z.min_r by auto with lia.
    exists b. rewrite contents_nil by auto. replace (used b) with 0 by lia.
    unfold same_config. auto 10.
  - rewrite reading_min, slice_contents by done. cint. eexists. split; [done|].
    split; [apply wf_set_head_used; auto; lia|].
    split; [by apply contents_advance|]. unfold same_config. auto 10.
Qed.

Lemma peek_spec b n :
  buf_wf b -> 0 <= n ->
  switch_buffer_peek b n = (b, ztake n (contents b), Z.min n (used b)).
Proof.
  intros Hwf Hn. pose proof Hwf as []. unfold switch_buffer_peek.
  destruct (Z.ltb_spec (used b) 1).
  - rewrite wf_idle, contents_nil, ztake_nil by auto. repeat f_equal. lia.
  - by rewrite reading_min, slice_contents.
Qed.

Lemma toss_spec b n :
  buf_wf b -> 0 <= n ->
  exists b', switch_buffer_toss b n = (b', zlen (zdrop n (contents b)))
    /\ buf_wf b' /\ contents b' = zdrop n (contents b) /\ same_config b b'.
Proof.
  intros Hwf Hn. pose proof Hwf as []. unfold switch_buffer_toss.
  destruct (Z.ltb_spec (used b) 1).
  - rewrite wf_idle, contents_nil, zdrop_nil by auto.
    exists b. rewrite contents_nil by auto. unfold same_config. auto 10.
  - rewrite reading_min. cint. eexists. split.
    + f_equal. rewrite zlen_zdrop, zlen_contents by auto. simpl. lia.
    + split; [apply wf_set_head_used; auto; lia|].
      split; [by apply contents_advance|]. unfold same_config. auto 10.
Qed.

(** *** Writing *)

Lemma wf_compact b m :
  buf_wf b -> data b = Some m ->
  buf_wf (write_compact b m) /\ contents (write_compact b m) = contents b.
Proof.
  intros [] Hm. unfold block in *. rewrite Hm in *. simpl in *.
  assert (zlen (slice (head b) (used b) m) = used b) as Hs by (apply zlen_slice; lia).
  split.
  - constructor; simpl; auto; try lia.
    change (block _) with (blit 0 (slice (head b) (used b) m) m).
    rewrite zlen_blit; lia.
  - unfold contents, block. rewrite Hm. simpl. rewrite slice_0.
    rewrite <-Hs at 1. apply ztake_blit_0.
Qed.

(** The allocator refuses what no object can hold. *)
Hypothesis malloc_bound : forall n, malloc_ok n = true -> n <= PTRDIFF_MAX.

(** The size a dynamic buffer of capacity [cap] grows to for [n] more bytes. *)
Definition grown_size (cap bs n : Z) : Z :=
  if cap +u bs >? cap +u n then cap +u bs else cap +u n.

Lemma grown_size_ge cap bs n :
  0 <= cap <= PTRDIFF_MAX -> 0 <= n <= PTRDIFF_MAX -> cap + n <= grown_size cap bs n.
Proof.
  intros ??. unfold grown_size, PTRDIFF_MAX in *. rewrite (wrap_small 64 (cap + n)) by lia.
  destruct (Z.gtb_spec (cap +u bs) (cap + n)); lia.
Qed.

Lemma grow_spec b n b' :
  buf_wf b -> head b = 0 -> 0 <= n <= PTRDIFF_MAX ->
  write_grow b (block b) n = Some b' ->
  buf_wf b' /\ contents b' = contents b /\ datalen b' = grown_size (datalen b) (blocksize b) n.
Proof.
  intros Hwf Hh Hn. pose proof Hwf as []. unfold write_grow.
  fold (grown_size (datalen b) (blocksize b) n).
  pose proof (grown_size_ge (datalen b) (blocksize b) n ltac:(lia) Hn) as Hge.
  destruct (malloc_ok _) eqn:Hok; [|done]. apply malloc_bound in Hok.
  intros [= <-]. split; [|split; [|done]].
  - constructor; simpl; auto; try lia.
    change (block _) with
      (block b ++ replicate (Z.to_nat (grown_size (datalen b) (blocksize b) n - datalen b)) junk).
    rewrite zlen_app, zlen_replicate. lia.
  - unfold contents. rewrite Hh. unfold block at 1; simpl. rewrite !slice_0.
    apply ztake_app_le. lia.
Qed.

Lemma append_spec b d m :
  buf_wf b -> data b = Some m -> used b + zlen d <= datalen b - head b ->
  let b' := set_data (blit (head b + used b) d m) (head b) (used b + zlen d)
              (actually_used b + zlen d) (datalen b) b in
  buf_wf b' /\ contents b' = contents b ++ d.
Proof.
  intros [] Hm Hfit. unfold block, contents in *. rewrite Hm in *. simpl in *.
  pose proof (zlen_nonneg d). split.
  - constructor; simpl; auto; try lia.
    unfold block; simpl. rewrite zlen_blit; lia.
  - unfold block. rewrite Hm. simpl. apply slice_blit_end; lia.
Qed.

(** ** Specification: a bounded first-in first-out queue

    The specification sees the unread bytes and the capacity only: no block, no
    read pointer, no compaction. *)

Record queue_config := { q_dynamic : bool; q_max : Z; q_block : Z }.
Record queue := mk_queue { items : bytes; capacity : Z }.

Definition q_write (c : queue_config) (q : queue) (d : bytes) : queue * Z :=
  let total := zlen (items q) + zlen d in
  let grown := grown_size (capacity q) (q_block c) (zlen d) in
  if zlen d =? 0 then (q, zlen (items q))
  else if total <=? capacity q then (mk_queue (items q ++ d) (capacity q), total)
  else if q_dynamic c && ((q_max c =? 0) || (total <=? q_max c)) && malloc_ok grown
  then (mk_queue (items q ++ d) grown, total)
  else (q, 0).

Inductive buf_op :=
| Write (d : bytes) | Zwrite (d : bytes) | SlideWrite (d : bytes)
| Read (n : Z) | Peek (n : Z) | Toss (n : Z) | Zero | Inuse | Len.

(** An operation's observable result: the bytes handed to the caller and the
    returned number. *)
Definition q_step (c : queue_config) (q : queue) (o : buf_op) : queue * (bytes * Z) :=
  match o with
  | Write d => let '(q', w) := q_write c q d in (q', ([], w))
  | Zwrite d =>
    let '(q', w) := q_write c q d in
    if w =? 0 then let '(q2, w2) := q_write c (mk_queue [] (capacity q')) d in (q2, ([], w2))
    else (q', ([], w))
  | SlideWrite d =>
    let '(q', w) := q_write c q d in
    if w =? 0 then
      let '(q2, w2) := q_write c (mk_queue (zdrop (zlen d) (items q')) (capacity q')) d in
      (q2, ([], w2))
    else (q', ([], w))
  | Read n => (mk_queue (zdrop n (items q)) (capacity q),
               (ztake n (items q), Z.min n (zlen (items q))))
  | Peek n => (q, (ztake n (items q), Z.min n (zlen (items q))))
  | Toss n => let r := zdrop n (items q) in (mk_queue r (capacity q), ([], zlen r))
  | Zero => (mk_queue [] (capacity q), ([], 0))
  | Inuse => (q, ([], zlen (items q)))
  | Len => (q, ([], capacity q))
  end.

Definition b_step (b : switch_buffer) (o : buf_op) : option (switch_buffer * (bytes * Z)) :=
  match o with
  | Write d => '(b', w) ← switch_buffer_write b d; Some (b', ([], w))
  | Zwrite d => '(b', w) ← switch_buffer_zwrite b d; Some (b', ([], w))
  | SlideWrite d => '(b', w) ← switch_buffer_slide_write b d; Some (b', ([], w))
  | Read n => let '(b', out, r) := switch_buffer_read b n in Some (b', (out, r))
  | Peek n => let '(b', out, r) := switch_buffer_peek b n in Some (b', (out, r))
  | Toss n => let '(b', r) := switch_buffer_toss b n in Some (b', ([], r))
  | Zero => b' ← switch_buffer_zero b; Some (b', ([], 0))
  | Inuse => Some (b, ([], switch_buffer_inuse b))
  | Len => Some (b, ([], switch_buffer_len b))
  end.

(** Sizes a C caller can pass. *)
Definition op_ok (o : buf_op) : Prop :=
  match o with
  | Write d | Zwrite d | SlideWrite d => zlen d <= PTRDIFF_MAX
  | Read n | Peek n | Toss n => 0 <= n < 2 ^ 64
  | Zero | Inuse | Len => True
  end.

Fixpoint q_run (c : queue_config) (q : queue) (os : list buf_op) : list (bytes * Z) :=
  match os with
  | [] => []
  | o :: os => let '(q', r) := q_step c q o in r :: q_run c q' os
  end.

Fixpoint b_run (b : switch_buffer) (os : list buf_op) : option (list (bytes * Z)) :=
  match os with
  | [] => Some []
  | o :: os => '(b', r) ← b_step b o; rs ← b_run b' os; Some (r :: rs)
  end.

Definition config_of (b : switch_buffer) : queue_config :=
  {| q_dynamic := dynamic b; q_max := max_len b; q_block := blocksize b |}.

(** The refinement relation. *)
Record refines (c : queue_config) (b : switch_buffer) (q : queue) : Prop := {
  ref_wf : buf_wf b;
  ref_data : is_Some (data b);
  ref_config : config_of b = c;
  ref_items : items q = contents b;
  ref_cap : capacity q = datalen b }.

Lemma refines_same c b b' q l :
  refines c b q -> same_config b b' -> buf_wf b' -> contents b' = l ->
  refines c b' (mk_queue l (capacity q)).
Proof.
  intros [] (? & ? & ? & ? & ?) ??. constructor; simpl; auto; try congruence.
  unfold config_of, dynamic in *. congruence.
Qed.

(** Stage one of a write: afterwards either the bytes fit behind [head], or the
    unread bytes start the block. *)
Lemma prepare_spec c b q m n :
  refines c b q -> data b = Some m -> 0 <= n ->
  let b1 := if datalen b -u actually_used b <? n then write_compact b m else b in
  refines c b1 q /\ (n <= datalen b1 - used b1 -> used b1 + n <= datalen b1 - head b1)
  /\ (datalen b1 - used b1 < n -> head b1 = 0).
Proof.
  intros Href Hm Hn. pose proof Href as [Hwf _ Hc Hi Hcap]. pose proof Hwf as [].
  rewrite wrap_small by (unfold PTRDIFF_MAX in *; lia).
  destruct (Z.ltb_spec (datalen b - actually_used b) n); simpl.
  - destruct (wf_compact b m) as [Hwf' Hcont]; auto.
    split; [|split; simpl; lia].
    constructor; auto; simpl; eauto. congruence.
  - split; [done|]. lia.
Qed.

Lemma refines_grow c b q n b' :
  refines c b q -> head b = 0 -> 0 <= n <= PTRDIFF_MAX ->
  write_grow b (block b) n = Some b' ->
  refines c b' (mk_queue (items q) (grown_size (capacity q) (q_block c) n)).
Proof.
  intros Href Hh Hn Hg. pose proof Href as [Hwf _ Hc Hi Hcap].
  destruct (grow_spec b n b') as (Hwf' & Hcont & Hlen); auto.
  unfold write_grow in Hg. destruct (malloc_ok _); [|done]. injection Hg as <-.
  constructor; auto; simpl in *; eauto; subst c; simpl; congruence.
Qed.

Lemma store_refines c b q d :
  refines c b q -> used b + zlen d <= datalen b - head b ->
  exists b', write_store b d = (b', zlen (items q) + zlen d)
    /\ refines c b' (mk_queue (items q ++ d) (capacity q)).
Proof.
  intros Href Hfit. pose proof Href as [Hwf [m Hm] Hc Hi Hcap].
  pose proof Hwf as []. pose proof (zlen_nonneg d).
  destruct (append_spec b d m) as [Hwf' Hcont]; auto.
  assert (block b = m) as Hb by (unfold block; by rewrite Hm).
  unfold write_store. rewrite wrap_small, Hb by (unfold PTRDIFF_MAX in *; lia).
  rewrite (proj2 (Z.ltb_ge _ _)) by lia. cint.
  eexists. split; [simpl; rewrite Hi, zlen_contents by auto; done|].
  constructor; auto; simpl; eauto; congruence.
Qed.

Lemma store_full c b q d :
  refines c b q -> datalen b - used b < zlen d -> write_store b d = (b, 0).
Proof.
  intros [[]] ?. unfold write_store. cint. by rewrite (proj2 (Z.ltb_lt _ _)) by lia.
Qed.

Lemma write_grow_None b n :
  write_grow b (block b) n = None ->
  malloc_ok (grown_size (datalen b) (blocksize b) n) = false.
Proof. unfold write_grow. fold (grown_size (datalen b) (blocksize b) n). by destruct (malloc_ok _). Qed.

Lemma write_grow_Some b n b' :
  write_grow b (block b) n = Some b' ->
  malloc_ok (grown_size (datalen b) (blocksize b) n) = true
  /\ head b' = 0 /\ used b' = used b /\ datalen b' = grown_size (datalen b) (blocksize b) n.
Proof.
  unfold write_grow. fold (grown_size (datalen b) (blocksize b) n).
  destruct (malloc_ok _); [|done]. by intros [= <-].
Qed.

Lemma write_refines c b q d :
  refines c b q -> zlen d <= PTRDIFF_MAX ->
  exists b', switch_buffer_write b d = Some (b', (q_write c q d).2)
             /\ refines c b' (q_write c q d).1.
Proof.
  intros Href Hd. pose proof Href as [_ [m Hm] _ _ _]. pose proof (zlen_nonneg d) as Hd0.
  unfold switch_buffer_write, q_write. rewrite Hm.
  destruct (Z.eqb_spec (zlen d) 0) as [|Hne].
  { exists b. split; [|done]. destruct Href as [Hwf _ _ -> _]. by rewrite zlen_contents. }
  destruct (prepare_spec c b q m (zlen d)) as (Href1 & Hfit & Hhead); auto.
  set (b1 := if _ : bool then _ else _) in *. clearbody b1. clear Href Hm m b.
  pose proof Href1 as [Hwf1 _ Hc1 Hi1 Hcap1]. pose proof Hwf1 as [].
  assert (zlen (items q) = used b1) as Hlen by (rewrite Hi1; by apply zlen_contents).
  cint. rewrite Hlen, Hcap1.
  assert (dynamic b1 = q_dynamic c /\ max_len b1 = q_max c) as [-> ->] by by subst c.
  destruct (Z.leb_spec (used b1 + zlen d) (datalen b1)) as [Hle|Hgt]; simpl.
  - rewrite (proj2 (Z.ltb_ge _ _)) by lia. rewrite andb_false_r. simpl.
    destruct (store_refines c b1 q d) as (b' & -> & Href2); auto with lia.
    exists b'. by rewrite Hlen, <-Hcap1.
  - rewrite (proj2 (Z.ltb_lt _ _)), andb_true_r by lia.
    assert (head b1 = 0) as Hh by auto with lia.
    destruct (q_dynamic c && _) eqn:Hdyn; simpl.
    + assert (blocksize b1 = q_block c) as Hbs by by subst c.
      destruct (write_grow b1 (block b1) (zlen d)) as [b2|] eqn:Hg.
      * pose proof (refines_grow c b1 q (zlen d) b2 Href1 Hh ltac:(cint; lia) Hg) as Href2.
        apply write_grow_Some in Hg as (Hok & Hh2 & Hu2 & Hl2).
        pose proof (grown_size_ge (datalen b1) (blocksize b1) (zlen d) ltac:(cint; lia) ltac:(cint; lia)).
        rewrite <-Hbs, Hok. simpl.
        destruct (store_refines c b2 _ d Href2) as (b' & -> & Href3); [lia|].
        exists b'. simpl in *. by rewrite Hlen, <-Hcap1, Hbs.
      * apply write_grow_None in Hg. rewrite <-Hbs, Hg. simpl.
        eexists. split; [done|]. rewrite <-Hh. by destruct b1.
    + rewrite (store_full c b1 q d) by auto with lia. eauto.
Qed.

Lemma zero_spec b m :
  buf_wf b -> data b = Some m ->
  exists b', switch_buffer_zero b = Some b' /\ buf_wf b' /\ contents b' = [] /\ same_config b b'.
Proof.
  intros [] Hm. unfold switch_buffer_zero. rewrite Hm. eexists. split; [done|].
  unfold block, same_config in *. rewrite Hm in *. simpl in *.
  split; [constructor; simpl; auto; lia|]. auto 10.
Qed.

Lemma step_refines c b q o :
  refines c b q -> op_ok o ->
  exists b', b_step b o = Some (b', (q_step c q o).2) /\ refines c b' (q_step c q o).1.
Proof.
  intros Href Hok. pose proof Href as [Hwf [m Hm] _ Hi Hcap].
  assert (zlen (items q) = used b) as Hlen by (rewrite Hi; by apply zlen_contents).
  assert (mk_queue (items q) (capacity q) = q) as Hq by by destruct q.
  destruct o as [d|d|d|n|n|n| | |]; simpl in *.
  - destruct (write_refines c b q d Href Hok) as (b' & -> & ?).
    destruct (q_write c q d). simpl in *. eauto.
  - unfold switch_buffer_zwrite.
    destruct (write_refines c b q d Href Hok) as (b' & -> & Href').
    destruct (q_write c q d) as [q' w]. simpl in *. destruct (w =? 0); [|simpl; eauto].
    pose proof Href' as [Hwf' [m' Hm'] _ _ _].
    destruct (zero_spec b' m' Hwf' Hm') as (b2 & -> & ? & ? & ?). simpl.
    destruct (write_refines c b2 (mk_queue [] (capacity q')) d) as (b3 & -> & ?); auto.
    { by eapply refines_same. }
    destruct (q_write c _ d). simpl in *. eauto.
  - unfold switch_buffer_slide_write.
    destruct (write_refines c b q d Href Hok) as (b' & -> & Href').
    destruct (q_write c q d) as [q' w]. simpl in *. destruct (w =? 0); [|simpl; eauto].
    pose proof Href' as [Hwf' _ _ Hi' _].
    destruct (toss_spec b' (zlen d) Hwf' (zlen_nonneg d)) as (b2 & -> & ? & ? & ?). simpl.
    destruct (write_refines c b2 (mk_queue (zdrop (zlen d) (items q')) (capacity q')) d)
      as (b3 & -> & ?); auto.
    { eapply refines_same; eauto. congruence. }
    destruct (q_write c _ d). simpl in *. eauto.
  - destruct (read_spec b n) as (b' & -> & ? & ? & ? & ?); auto; [lia|].
    exists b'. rewrite Hlen, Hi. split; [done|]. eapply refines_same; eauto.
  - rewrite peek_spec by (auto; lia). exists b. rewrite Hlen, Hi. split; [done|]. done.
  - destruct (toss_spec b n) as (b' & -> & ? & ? & ?); auto; [lia|].
    exists b'. rewrite Hi. split; [done|]. eapply refines_same; eauto.
  - destruct (zero_spec b m Hwf Hm) as (b' & -> & ? & ? & ?). simpl.
    exists b'. split; [done|]. eapply refines_same; eauto.
  - exists b. rewrite Hlen. done.
  - exists b. rewrite Hcap. done.
Qed.

Lemma run_refines c os : forall b q,
  refines c b q -> Forall op_ok os -> b_run b os = Some (q_run c q os).
Proof.
  induction os as [|o os IH]; intros b q Href Hok; [done|].
  inversion_clear Hok as [|?? Ho Hos]. simpl.
  destruct (step_refines c b q o Href Ho) as (b' & -> & Href'). simpl.
  destruct (q_step c q o) as [q' r]. simpl in *. by rewrite (IH b' q').
Qed.

Lemma create_refines buffer_id n b i :
  0 <= n -> switch_buffer_create buffer_id n = (SWITCH_STATUS_SUCCESS, Some b, i) ->
  refines {| q_dynamic := false; q_max := 0; q_block := 0 |} b (mk_queue [] n).
Proof.
  intros Hn. unfold switch_buffer_create.
  destruct (malloc_ok sizeof_buffer); [|done]. destruct (malloc_ok n) eqn:Hok; [|done].
  apply malloc_bound in Hok. intros [= <- _].
  constructor; simpl; eauto. constructor; simpl; try lia.
  unfold block. simpl. rewrite zlen_replicate. lia.
Qed.

Lemma create_dynamic_refines buffer_id bs start mx b i :
  0 < start -> 
  switch_buffer_create_dynamic buffer_id bs start mx = (SWITCH_STATUS_SUCCESS, Some b, i) ->
  refines {| q_dynamic := true; q_max := mx; q_block := bs |} b (mk_queue [] start).
Proof.
  intros Hn. unfold switch_buffer_create_dynamic. rewrite (proj2 (Z.eqb_neq start 0)) by lia.
  simpl. destruct (malloc_ok sizeof_buffer); [|done]. destruct (malloc_ok start) eqn:Hok; [|done].
  apply malloc_bound in Hok. intros [= <- _].
  constructor; simpl; eauto. constructor; simpl; try lia.
  unfold block. simpl. rewrite zlen_replicate. lia.
Qed.

(** ** Reachable buffers *)

(** One call of any operation, the looping reads included. *)
Inductive buf_call : switch_buffer -> switch_buffer -> Prop :=
| call_op b o b' r : op_ok o -> b_step b o = Some (b', r) -> buf_call b b'
| call_set_loops b n : buf_call b (switch_buffer_set_loops b n)
| call_read_loop b n b' out r :
    0 <= n < 2 ^ 64 -> switch_buffer_read_loop b n = (b', out, r) -> buf_call b b'
| call_zerocopy b b' p r : switch_buffer_peek_zerocopy b = (b', p, r) -> buf_call b b'.

Lemma refines_self b :
  buf_wf b -> is_Some (data b) -> refines (config_of b) b (mk_queue (contents b) (datalen b)).
Proof. intros. by constructor. Qed.

Lemma wf_loops b n : buf_wf b -> buf_wf (set_loops n b).
Proof. intros []. by constructor. Qed.

Lemma wf_rewind b : buf_wf b -> buf_wf (set_head_used 0 (actually_used b) b).
Proof. intros []. apply wf_set_head_used; [by constructor|lia..]. Qed.

Lemma contents_rewind b : contents (set_head_used 0 (actually_used b) b) = history b.
Proof. done. Qed.

Lemma read_loop_wf b n b' out r :
  buf_wf b -> is_Some (data b) -> 0 <= n -> switch_buffer_read_loop b n = (b', out, r) ->
  buf_wf b' /\ is_Some (data b').
Proof.
  intros Hwf Hd Hn. unfold switch_buffer_read_loop.
  destruct (read_spec b n Hwf Hn) as (b1 & -> & Hwf1 & _ & (_ & Hd1 & _) & _).
  destruct (Z.min n (used b) =? 0); [|intros [= <- _ _]; split; [done|congruence]].
  set (b2 := if _ : bool then _ else b1).
  assert (buf_wf b2 /\ is_Some (data b2)) as [Hwf2 Hd2].
  { subst b2. destruct (loops b1 >? 0); [split; [by apply wf_loops|]|split; [done|]];
      simpl; congruence. }
  destruct (loops b2 =? 0); [by intros [= <- _ _]|].
  destruct (read_spec (set_head_used 0 (actually_used b2) b2) n)
    as (b3 & -> & ? & _ & (_ & Hd3 & _) & _); auto using wf_rewind.
  intros [= <- _ _]. simpl in Hd3. split; [done|congruence].
Qed.

Lemma call_wf b b' :
  buf_call b b' -> buf_wf b -> is_Some (data b) -> buf_wf b' /\ is_Some (data b').
Proof.
  intros Hc Hwf Hd. destruct Hc as [b o b' r Hok Hs|b n|b n b' out r Hn Hs|b b' p r Hs].
  - destruct (step_refines _ b _ o (refines_self b Hwf Hd) Hok) as (b2 & Hs2 & [? ? _ _ _]).
    rewrite Hs2 in Hs. by injection Hs as <- _.
  - split; [by apply wf_loops|done].
  - eapply read_loop_wf; eauto. lia.
  - unfold switch_buffer_peek_zerocopy in Hs. destruct (Z.ltb_spec (used b) 1).
    + rewrite wf_idle in Hs by auto. by injection Hs as <- _ _.
    + by injection Hs as <- _ _.
Qed.

(** The buffer invariant.  Every buffer reachable from a freshly created
    fixed buffer by any sequence of calls (reads, peeks, tosses, zeroing, the
    three writes, looping reads) keeps its read pointer, its unread bytes and
    its byte count inside the block it owns, so no call copies outside it. *)
Theorem buffer_reachable_wf buffer_id n b0 i b :
  0 <= n ->
  switch_buffer_create buffer_id n = (SWITCH_STATUS_SUCCESS, Some b0, i) ->
  rtc buf_call b0 b -> buf_wf b.
Proof.
  intros Hn Hc Hr. destruct (create_refines _ _ _ _ Hn Hc) as [Hwf Hd _ _ _].
  enough (buf_wf b /\ is_Some (data b)) as [? _] by done.
  clear Hc. induction Hr as [|b0 b1 b2 Hcall _ IH]; [done|].
  destruct (call_wf _ _ Hcall Hwf Hd). by apply IH.
Qed.

(** A fixed buffer is a bounded FIFO.  For any sequence of operations on a
    buffer created with capacity [n], every result the C code returns (bytes
    read, counts, refusals) is the one of a plain byte queue of capacity [n];
    compaction and the read pointer are unobservable, and no call aborts. *)
Theorem buffer_create_fifo buffer_id n b i os :
  0 <= n ->
  switch_buffer_create buffer_id n = (SWITCH_STATUS_SUCCESS, Some b, i) ->
  Forall op_ok os ->
  b_run b os
  = Some (q_run {| q_dynamic := false; q_max := 0; q_block := 0 |} (mk_queue [] n) os).
Proof. intros Hn Hc Hos. apply run_refines; [by eapply create_refines|done]. Qed.

(** C9: a dynamic buffer is a FIFO that grows.  With a first block of
    [start] > 0 bytes, every sequence of operations behaves as a queue whose
    capacity is raised to the larger of the block step and the request when a
    write does not fit and [max_len] (if any) allows the total. *)
Theorem buffer_dynamic_fifo buffer_id bs start mx b i os :
  0 < start ->
  switch_buffer_create_dynamic buffer_id bs start mx = (SWITCH_STATUS_SUCCESS, Some b, i) ->
  Forall op_ok os ->
  b_run b os
  = Some (q_run {| q_dynamic := true; q_max := mx; q_block := bs |} (mk_queue [] start) os).
Proof. intros Hn Hc Hos. apply run_refines; [by eapply create_dynamic_refines|done]. Qed.

(** Looping reads.  A drained buffer with loops left (or looping for ever,
    [loops < 0]) replays the bytes written since the last compaction from the
    start, and consumes one finite loop. *)
Theorem buffer_read_loop_replay b n :
  buf_wf b -> used b = 0 -> loops b <> 0 -> loops b <> 1 -> 0 <= n ->
  exists b', switch_buffer_read_loop b n
             = (b', ztake n (history b), Z.min n (actually_used b))
    /\ loops b' = (if loops b >? 0 then loops b - 1 else loops b).
Proof.
  intros Hwf Hu Hl Hl1 Hn. unfold switch_buffer_read_loop, switch_buffer_read at 1.
  rewrite (proj2 (Z.ltb_lt (used b) 1)) by lia. rewrite wf_idle by auto with lia. simpl.
  set (b2 := if _ : bool then _ else b).
  assert (loops b2 = if loops b >? 0 then loops b - 1 else loops b) as Hl2
    by (subst b2; by destruct (loops b >? 0)).
  assert (buf_wf b2 /\ history b2 = history b /\ actually_used b2 = actually_used b) as (Hwf2 & Hh & Ha)
    by (subst b2; destruct (loops b >? 0); auto using wf_loops).
  rewrite (proj2 (Z.eqb_neq (loops b2) 0)) by (rewrite Hl2; destruct (Z.gtb_spec (loops b) 0); lia).
  destruct (read_spec (set_head_used 0 (actually_used b2) b2) n)
    as (b3 & -> & _ & _ & _ & _ & Hl3); auto using wf_rewind.
  exists b3. rewrite contents_rewind, Hh. simpl. rewrite Ha. split; [done|]. simpl in Hl3. congruence.
Qed.

End operations.
(** ** Witnesses *)

(** An allocator that serves every request a C object can have. *)
Definition any_malloc (n : Z) : bool := n <=? PTRDIFF_MAX.

Lemma any_malloc_bound n : any_malloc n = true -> n <= PTRDIFF_MAX.
Proof. apply Z.leb_le. Qed.

Definition sample_buffer : switch_buffer :=
  mk_buffer (Some (replicate 8 0)) 0 0 0 8 0 0 0 0 0.

Definition sample_ops : list buf_op :=
  [Write (str "hello"); Read 3; Write (str "wide"); Peek 4; SlideWrite (str "abcd"); Toss 1; Read 9; Len].

Ltac op_oks :=
  repeat (apply Forall_cons_2; [simpl; unfold PTRDIFF_MAX, zlen; simpl; first [exact I | lia]|]);
  apply Forall_nil_2.

Lemma buffer_reachable_wf_witness :
  buf_wf (switch_buffer_set_loops sample_buffer (-1)).
Proof.
  apply (buffer_reachable_wf any_malloc 7 any_malloc_bound 0 8 sample_buffer 1); [lia|reflexivity|].
  apply rtc_once. constructor.
Defined.

Lemma buffer_create_fifo_witness :
  b_run any_malloc 7 sample_buffer sample_ops
  = Some [([], 5); (str "hel", 3); ([], 6); (str "lowi", 4); ([], 6); ([], 5);
          (str "eabcd", 5); ([], 8)].
Proof.
  rewrite (buffer_create_fifo any_malloc 7 any_malloc_bound 0 8 sample_buffer 1);
    [reflexivity|lia|reflexivity|].
  op_oks.
Defined.

Definition sample_dynamic : switch_buffer :=
  mk_buffer (Some (replicate 2 0)) 0 0 0 2 10 4 SWITCH_BUFFER_FLAG_DYNAMIC 0 0.

Lemma buffer_dynamic_fifo_witness :
  b_run any_malloc 7 sample_dynamic [Write (str "abc"); Write (str "0123456789"); Len; Read 5]
  = Some [([], 3); ([], 0); ([], 6); (str "abc", 3)].
Proof.
  rewrite (buffer_dynamic_fifo any_malloc 7 any_malloc_bound 0 4 2 10 sample_dynamic 1);
    [reflexivity|lia|reflexivity|].
  op_oks.
Defined.

(** "abc" written and read to the end of a buffer that loops for ever. *)
Definition sample_drained : switch_buffer :=
  mk_buffer (Some (str "abc" ++ [0; 0])) 3 0 3 5 0 0 0 0 (-1).

Lemma buffer_read_loop_replay_witness :
  exists b', switch_buffer_read_loop sample_drained 2 = (b', str "ab", 2) /\ loops b' = -1.
Proof.
  apply (buffer_read_loop_replay sample_drained 2); [|reflexivity|discriminate..|lia].
  constructor; unfold PTRDIFF_MAX, block, zlen; simpl; lia.
Defined.

(** A flaw of switch_buffer_freespace.  The write path only compares the
    total with [max_len] when the block must grow, so a dynamic buffer whose
    first block is larger than [max_len] can hold more than [max_len] bytes;
    [max_len - used] then wraps and the buffer reports about 2^64 free bytes. *)
Theorem buffer_freespace_wraps :
  exists b0 i b w,
    switch_buffer_create_dynamic any_malloc 0 4 8 4 = (SWITCH_STATUS_SUCCESS, Some b0, i)
    /\ switch_buffer_write any_malloc 0 b0 (str "123456") = Some (b, w)
    /\ w = 6 /\ switch_buffer_freespace b = 2 ^ 64 - 2.
Proof. do 4 eexists. split; [reflexivity|]. split; [reflexivity|]. split; reflexivity. Qed.

End Buffer.
