(* ===== verification/PortAllocator.v ===== *)
(** * The media port allocator (switch_core_port_allocator.c)

    A range of ports with one tracking byte per slot: 1 in use, 0 free, and -4 to
    -1 after a port was given back or failed its probe, a cool-down that every
    walk past the slot shortens.  The random start of a search and the probes of
    the robust modes come from outside: they are oracles, indexed by the number of
    the pass. *)

From S2P Require Import Prelude.

Module PortAllocator.

Definition SPF_ODD : Z := Z.shiftl 1 0.
Definition SPF_EVEN : Z := Z.shiftl 1 1.
Definition SPF_ROBUST_TCP : Z := Z.shiftl 1 2.
Definition SPF_ROBUST_UDP : Z := Z.shiftl 1 3.

(** [struct switch_core_port_allocator], less the address, mutex and pool. *)
Record allocator := mk_alloc {
  start : Z; end_ : Z; next : Z; track : list Z; track_len : Z; track_used : Z; flags : Z }.

Definition with_track (t : list Z) (used : Z) (a : allocator) : allocator :=
  mk_alloc (start a) (end_ a) (next a) t (track_len a) used (flags a).

(** [even && odd]: one slot per port; otherwise one per pair of ports. *)
Definition both (flags : Z) : bool := test_flag flags SPF_EVEN && test_flag flags SPF_ODD.

(** The range after rounding to the wanted parity ([switch_port_t] is 16 bits). *)
Definition round_range (flags s e : Z) : Z * Z :=
  if both flags then (s, e)
  else if test_flag flags SPF_EVEN then
    ((if s mod 2 =? 0 then s else u16 (s + 1)), (if e mod 2 =? 0 then e else u16 (e - 1)))
  else if test_flag flags SPF_ODD then
    ((if s mod 2 =? 0 then u16 (s + 1) else s), (if e mod 2 =? 0 then u16 (e - 1) else e))
  else (s, e).

(** switch_core_port_allocator_new; [rt] is [runtime.port_alloc_flags]. *)
Definition switch_core_port_allocator_new (s e fl rt : Z) : allocator :=
  let '(s, e) := round_range fl s e in
  let len := u32 (e - s + 2) in
  let len := if both fl then len else len / 2 in
  mk_alloc s e s (replicate (Z.to_nat (u32 (len + 2))) 0) len 0 (Z.lor fl rt).

Definition slot (t : list Z) (i : Z) : Z := default 0 (t !! Z.to_nat i).

(** The inner [while]: walk up from a used slot, shortening cool-downs. *)
Fixpoint walk (fuel : nat) (t : list Z) (len index tries : Z) : list Z * Z * Z :=
  match fuel with
  | O => (t, index, tries)
  | S fuel =>
    if negb (slot t index =? 0) && (tries <? len) then
      let t := if slot t index <? 0 then <[Z.to_nat index := slot t index + 1]> t else t in
      walk fuel t len (if len <=? index + 1 then 0 else index + 1) (tries + 1)
    else (t, index, tries)
  end.

Definition port_at (a : allocator) (index : Z) : Z :=
  if both (flags a) then u16 (index + start a) else u16 (u16 (index + start a / 2) * 2).

(** The outer loop, pass by pass; [None] is running out of passes. *)
Fixpoint request_loop (fuel : nat) (rnd : nat -> Z) (udp tcp : nat -> Z -> bool) (pass : nat) (a : allocator)
  : option (allocator * Z * switch_status) :=
  match fuel with
  | O => None
  | S fuel =>
    if track_used a <? track_len a then
      let '(t, index, tries) := walk (Z.to_nat (track_len a)) (track a) (track_len a) (rnd pass) 0 in
      if tries <? track_len a then
        let port := port_at a index in
        let r := if test_flag (flags a) SPF_ROBUST_UDP then udp pass port else true in
        let r := if test_flag (flags a) SPF_ROBUST_TCP then tcp pass port else r in
        if r then
          Some (with_track (<[Z.to_nat index := 1]> t) (u32 (track_used a + 1)) a, port, SWITCH_STATUS_SUCCESS)
        else request_loop fuel rnd udp tcp (S pass) (with_track (<[Z.to_nat index := -4]> t) (track_used a) a)
      else request_loop fuel rnd udp tcp (S pass) (with_track t (track_used a) a)
    else Some (a, 0, SWITCH_STATUS_FALSE)
  end.

Definition switch_core_port_allocator_request_port (fuel : nat) (rnd : nat -> Z) (udp tcp : nat -> Z -> bool)
    (a : allocator) : option (allocator * Z * switch_status) :=
  request_loop fuel rnd udp tcp 0 a.

(** [None]: the index is outside the tracking array. *)
Definition switch_core_port_allocator_free_port (a : allocator) (port : Z) : option (allocator * switch_status) :=
  if port <? start a then Some (a, SWITCH_STATUS_GENERR)
  else
    let index := port - start a in
    let index := if both (flags a) then index else index / 2 in
    x ← track a !! Z.to_nat index;
    if 0 <? x then
      Some (with_track (<[Z.to_nat index := -4]> (track a)) (u32 (track_used a - 1)) a, SWITCH_STATUS_SUCCESS)
    else Some (a, SWITCH_STATUS_FALSE).

(** ** Invariant *)

Definition slot_ok (x : Z) : Prop := x = 1 \/ -4 <= x <= 0.

Definition used_count (a : allocator) : Z := zlen (List.filter (fun x => 0 <? x) (track a)).

Record alloc_wf (a : allocator) : Prop := {
  wf_len : zlen (track a) = track_len a + 2;
  wf_pos : 0 < track_len a < 2 ^ 20;
  wf_slots : Forall slot_ok (track a);
  wf_spare : slot (track a) (track_len a) = 0 /\ slot (track a) (track_len a + 1) = 0;
  wf_used : track_used a = used_count a }.

(** ** The walk *)

Definition bump (x : Z) : Z := if x <? 0 then x + 1 else x.

(** The slots a walk from [i] has passed after [k] steps. *)
Definition passed (n i k p : Z) : Prop := exists j, 0 <= j < k /\ p = (i + j) mod n.

Lemma slot_insert t i j x :
  0 <= i -> 0 <= j < zlen t -> slot (<[Z.to_nat j := x]> t) i = if j =? i then x else slot t i.
Proof.
  intros Hi Hj. unfold slot. destruct (Z.eqb_spec j i) as [<-|Hne].
  - rewrite list_lookup_insert_eq; [done|]. unfold zlen in Hj. lia.
  - by rewrite list_lookup_insert_ne by lia.
Qed.

Lemma mod_next n i k :
  0 < n -> (if n <=? (i + k) mod n + 1 then 0 else (i + k) mod n + 1) = (i + (k + 1)) mod n.
Proof.
  intros Hn. pose proof (Z.mod_pos_bound (i + k) n Hn).
  rewrite Z.add_assoc, <-(Zplus_mod_idemp_l (i + k) 1 n).
  destruct (Z.leb_spec n ((i + k) mod n + 1)).
  - replace ((i + k) mod n + 1) with n by lia. by rewrite Z_mod_same_full.
  - by rewrite (Z.mod_small ((i + k) mod n + 1)) by lia.
Qed.

Lemma mod_distinct n i j k : 0 < n -> 0 <= j < k -> k < n -> (i + j) mod n <> (i + k) mod n.
Proof.
  intros Hn Hj Hk Heq.
  assert ((k - j) mod n = 0) as Hz.
  { replace (k - j) with ((i + k) - (i + j)) by lia. rewrite Zminus_mod, Heq, Z.sub_diag. by apply Z.mod_0_l; lia. }
  rewrite Z.mod_small in Hz by lia. lia.
Qed.

(** The walk from [i]: it has passed used or cooling slots only, has shortened
    their cool-downs, and stops at a free slot or after a full round. *)
Lemma walk_spec T n i fuel : forall t k,
  0 < n -> 0 <= i -> n <= zlen T -> 0 <= k <= n -> Z.to_nat (n - k) = fuel ->
  zlen t = zlen T ->
  (forall p, 0 <= p -> passed n i k p -> slot t p = bump (slot T p)) ->
  (forall p, 0 <= p -> ~ passed n i k p -> slot t p = slot T p) ->
  (forall j, 0 <= j < k -> slot T ((i + j) mod n) <> 0) ->
  exists t' k', walk fuel t n ((i + k) mod n) k = (t', (i + k') mod n, k') /\ k <= k' <= n /\ zlen t' = zlen T
    /\ (forall p, 0 <= p -> passed n i k' p -> slot t' p = bump (slot T p))
    /\ (forall p, 0 <= p -> ~ passed n i k' p -> slot t' p = slot T p)
    /\ (forall j, 0 <= j < k' -> slot T ((i + j) mod n) <> 0)
    /\ (k' < n -> slot T ((i + k') mod n) = 0).
Proof.
  induction fuel as [|fuel IH]; intros t k Hn Hi HT Hk Hfuel Ht Hp Hnp Hnz; simpl.
  { exists t, k. split_and!; try done; lia. }
  pose proof (Z.mod_pos_bound (i + k) n Hn) as Hb.
  assert (~ passed n i k ((i + k) mod n)) as Hfresh.
  { intros (j & Hj & Heq). apply (mod_distinct n i j k); [done|lia|lia|done]. }
  assert (slot t ((i + k) mod n) = slot T ((i + k) mod n)) as Hsl by (apply Hnp; [lia|done]).
  rewrite Hsl. destruct (Z.eqb_spec (slot T ((i + k) mod n)) 0) as [Hz|Hnzk]; simpl.
  { exists t, k. split_and!; try done; lia. }
  rewrite (proj2 (Z.ltb_lt k n)) by lia. rewrite mod_next by done.
  set (t1 := if slot T ((i + k) mod n) <? 0 then _ else t).
  assert (forall q, 0 <= q -> slot t1 q = if (i + k) mod n =? q then bump (slot T q) else slot t q) as Ht1.
  { intros q Hq. subst t1. unfold bump. destruct (slot T ((i + k) mod n) <? 0) eqn:Hneg.
    - rewrite slot_insert by lia. destruct (Z.eqb_spec ((i + k) mod n) q) as [<-|]; [by rewrite Hneg|done].
    - destruct (Z.eqb_spec ((i + k) mod n) q) as [<-|]; [by rewrite Hneg|done]. }
  destruct (IH t1 (k + 1)) as (t' & k' & Hw & Hk' & Hrest); try done; try lia.
  - subst t1. destruct (_ <? 0); [|done]. unfold zlen in *. by rewrite length_insert.
  - intros p Hp0 (j & Hj & ->). rewrite Ht1 by done.
    destruct (Z.eqb_spec ((i + k) mod n) ((i + j) mod n)) as [|Hne]; [done|].
    apply Hp; [done|]. exists j. split; [|done]. destruct (decide (j = k)) as [->|]; [done|lia].
  - intros p Hp0 Hnot. rewrite Ht1 by done. destruct (Z.eqb_spec ((i + k) mod n) p) as [<-|Hne].
    + exfalso. apply Hnot. exists k. split; [lia|done].
    + apply Hnp; [done|]. intros (j & Hj & ->). apply Hnot. exists j. split; [lia|done].
  - intros j Hj. destruct (decide (j = k)) as [->|]; [done|]. apply Hnz. lia.
  - exists t', k'. split; [exact Hw|]. split; [lia|exact Hrest].
Qed.

Lemma passed_all n i p : 0 <= i -> 0 <= p < n -> passed n i n p.
Proof.
  intros Hi Hp. exists ((p - i) mod n). split; [apply Z.mod_pos_bound; lia|].
  rewrite Zplus_mod_idemp_r. replace (i + (p - i)) with p by lia. by rewrite Z.mod_small.
Qed.

(** ** Counting the used slots *)

Definition pos_count (t : list Z) : Z := zlen (List.filter (fun x => 0 <? x) t).

Lemma pos_count_cons x t : pos_count (x :: t) = (if 0 <? x then 1 else 0) + pos_count t.
Proof. unfold pos_count. simpl. destruct (0 <? x); rewrite ?zlen_cons; lia. Qed.

Lemma pos_count_insert t : forall i y x,
  t !! i = Some y ->
  pos_count (<[i := x]> t) = pos_count t + (if 0 <? x then 1 else 0) - (if 0 <? y then 1 else 0).
Proof.
  induction t as [|z t IH]; intros [|i] y x Hi; try done; simpl in *.
  - injection Hi as ->. rewrite !pos_count_cons. lia.
  - rewrite !pos_count_cons, (IH i y) by done. lia.
Qed.

Lemma slot_lookup t p : 0 <= p < zlen t -> t !! Z.to_nat p = Some (slot t p).
Proof.
  intros Hp. unfold slot. destruct (t !! Z.to_nat p) eqn:Ht; [done|].
  apply lookup_ge_None_1 in Ht. unfold zlen in Hp. lia.
Qed.

(** Slots that differ only in their cool-down. *)
Definition cooled (T t : list Z) : Prop :=
  zlen t = zlen T /\ forall p, 0 <= p -> slot t p = slot T p \/ slot t p = bump (slot T p).

Lemma cooled_count T : forall t, cooled T t -> pos_count t = pos_count T.
Proof.
  induction T as [|x T IH]; intros [|y t] [Hlen Hsl]; try done.
  rewrite !zlen_cons in Hlen. rewrite !pos_count_cons. f_equal.
  - pose proof (Hsl 0 ltac:(lia)) as H0. unfold slot in H0. simpl in H0. unfold bump in H0.
    destruct (Z.ltb_spec x 0), (Z.ltb_spec 0 x), (Z.ltb_spec 0 y); lia.
  - apply IH. split; [lia|]. intros p Hp. specialize (Hsl (p + 1) ltac:(lia)). unfold slot in *.
    replace (Z.to_nat (p + 1)) with (S (Z.to_nat p)) in Hsl by lia. exact Hsl.
Qed.

Lemma slot_ok_bump x : slot_ok x -> slot_ok (bump x).
Proof. unfold slot_ok, bump. destruct (Z.ltb_spec x 0); lia. Qed.

Lemma cooled_slots T t : cooled T t -> Forall slot_ok T -> Forall slot_ok t.
Proof.
  intros [Hlen Hsl] HT. apply Forall_lookup. intros i x Hi. pose proof (lookup_lt_Some _ _ _ Hi) as Hlt.
  assert (slot_ok (slot T (Z.of_nat i))) as Hok.
  { eapply (Forall_lookup_1 _ _ i); [exact HT|]. rewrite <-(Nat2Z.id i) at 1. apply slot_lookup. unfold zlen in *. lia. }
  specialize (Hsl (Z.of_nat i) ltac:(lia)). unfold slot at 1 3 in Hsl. rewrite Nat2Z.id, Hi in Hsl. simpl in Hsl.
  destruct Hsl as [-> | ->]; [done|by apply slot_ok_bump].
Qed.

Lemma cooled_wf a t : alloc_wf a -> cooled (track a) t -> alloc_wf (with_track t (track_used a) a).
Proof.
  intros [Hlen Hpos Hsl Hsp Hu] Hc. pose proof Hc as [Hl Hs]. split; simpl; try done.
  - by rewrite Hl.
  - by eapply cooled_slots.
  - pose proof (Hs (track_len a) ltac:(lia)) as H1. pose proof (Hs (track_len a + 1) ltac:(lia)) as H2.
    destruct Hsp as [Hsp1 Hsp2]. rewrite Hsp1 in H1. rewrite Hsp2 in H2. unfold bump in *. simpl in *. lia.
  - unfold used_count in *. simpl. fold (pos_count t). rewrite Hu. symmetry. by apply cooled_count.
Qed.

(** If every slot is used, the count says so. *)
Lemma all_used T : forall n, (n <= length T)%nat ->
  (forall p, 0 <= p < Z.of_nat n -> 0 < slot T p) -> Z.of_nat n <= pos_count T.
Proof.
  induction T as [|x T IH]; intros [|n] Hn Hall; simpl in Hn; try lia; [done|unfold pos_count; apply zlen_nonneg|].
  rewrite pos_count_cons. pose proof (Hall 0 ltac:(lia)) as H0. unfold slot in H0. simpl in H0.
  rewrite (proj2 (Z.ltb_lt 0 x)) by done. specialize (IH n ltac:(lia)).
  assert (Z.of_nat n <= pos_count T); [|lia]. apply IH. intros p Hp. specialize (Hall (p + 1) ltac:(lia)).
  unfold slot in *. by replace (Z.to_nat (p + 1)) with (S (Z.to_nat p)) in Hall by lia.
Qed.

(** A slot that becomes free after [c] more rounds. *)
Definition cooling (a : allocator) (c : Z) : Prop := exists p, 0 <= p < track_len a /\ - c <= slot (track a) p <= 0.

Lemma exists_cooling a : alloc_wf a -> track_used a < track_len a -> cooling a 4.
Proof.
  intros [Hlen Hpos Hsl Hsp Hu] Hlt.
  destruct (decide (Forall (fun x => 0 < x) (take (Z.to_nat (track_len a)) (track a)))) as [Hall|Hex].
  - exfalso. assert (track_len a <= pos_count (track a)); [|unfold used_count in Hu; fold (pos_count (track a)) in Hu; lia].
    replace (track_len a) with (Z.of_nat (Z.to_nat (track_len a))) by lia. apply all_used; [unfold zlen in Hlen; lia|].
    intros p Hp. eapply (Forall_lookup_1 _ _ (Z.to_nat p)) in Hall; [exact Hall|].
    rewrite lookup_take_lt by lia. apply slot_lookup. unfold zlen in *. lia.
  - apply not_Forall_Exists in Hex; [|apply _]. apply Exists_exists in Hex as (x & Hx & Hneg).
    apply list_elem_of_lookup in Hx as [i Hi].
    pose proof (lookup_lt_Some _ _ _ Hi) as Hilt. rewrite length_take in Hilt.
    rewrite lookup_take_lt in Hi by lia. exists (Z.of_nat i). split; [lia|].
    unfold slot. rewrite Nat2Z.id, Hi. simpl. pose proof (Forall_lookup_1 _ _ _ _ Hsl Hi) as [? | ?]; simpl in *; lia.
Qed.

(** ** One pass of the search *)

Lemma pass_spec a i :
  alloc_wf a -> 0 <= i < track_len a ->
  exists t idx k, walk (Z.to_nat (track_len a)) (track a) (track_len a) i 0 = (t, idx, k)
    /\ cooled (track a) t /\ 0 <= idx < track_len a
    /\ ((k < track_len a /\ slot (track a) idx = 0 /\ slot t idx = 0)
        \/ (k = track_len a /\ forall p, 0 <= p < track_len a ->
              slot (track a) p <> 0 /\ slot t p = bump (slot (track a) p))).
Proof.
  intros Hwf Hi. pose proof (wf_pos a Hwf) as Hpos. pose proof (wf_len a Hwf) as Hlen.
  destruct (walk_spec (track a) (track_len a) i (Z.to_nat (track_len a)) (track a) 0)
    as (t & k & Hw & Hk & Hl & Hp & Hnp & Hnz & Hz); try done; try lia.
  { intros p _ (j & Hj & _). lia. }
  rewrite Z.add_0_r, (Z.mod_small i) in Hw by lia. pose proof (Z.mod_pos_bound (i + k) (track_len a)) as Hb.
  assert (forall p, 0 <= p -> {passed (track_len a) i k p} + {~ passed (track_len a) i k p}) as Hdec.
  { intros p Hp0. destruct (decide ((p - i) mod track_len a < k /\ p < track_len a)) as [[Hlt Hlt']|Hge].
    - left. exists ((p - i) mod track_len a). pose proof (Z.mod_pos_bound (p - i) (track_len a)). split; [lia|].
      rewrite Zplus_mod_idemp_r. replace (i + (p - i)) with p by lia. by rewrite Z.mod_small by lia.
    - right. intros (j & Hj & ->). apply Hge. pose proof (Z.mod_pos_bound (i + j) (track_len a)).
      rewrite Zminus_mod_idemp_l. replace (i + j - i) with j by lia. rewrite Z.mod_small by lia. lia. }
  exists t, ((i + k) mod track_len a), k. split; [done|]. split; [|split; [lia|]].
  - split; [done|]. intros p Hp0. destruct (Hdec p Hp0); auto.
  - destruct (decide (k < track_len a)) as [Hlt|Hge]; [left|right].
    + split; [done|]. split; [by apply Hz|]. rewrite Hnp; [by apply Hz|lia|].
      intros (j & Hj & Heq). apply (mod_distinct (track_len a) i j k); [lia|lia|lia|done].
    + assert (k = track_len a) as -> by lia. split; [done|]. intros p Hpr.
      pose proof (passed_all (track_len a) i p ltac:(lia) Hpr) as Hpass. split; [|by apply Hp; [lia|]].
      destruct Hpass as (j & Hj & ->). by apply Hnz.
Qed.

(** The slots in use: the ports handed out and not given back. *)
Definition in_use (a : allocator) (p : Z) : Prop := 0 <= p < track_len a /\ 0 < slot (track a) p.

Lemma cooled_in_use a t p : cooled (track a) t -> in_use (with_track t (track_used a) a) p <-> in_use a p.
Proof.
  intros [_ Hs]. unfold in_use. simpl. split; intros [Hp Hu]; (split; [done|]);
    destruct (Hs p ltac:(lia)) as [Heq|Heq]; rewrite Heq in *; try done; unfold bump in *;
    destruct (Z.ltb_spec (slot (track a) p) 0); lia.
Qed.

Lemma take_slot a t idx :
  alloc_wf a -> cooled (track a) t -> 0 <= idx < track_len a -> slot t idx = 0 -> track_used a < track_len a ->
  let a' := with_track (<[Z.to_nat idx := 1]> t) (u32 (track_used a + 1)) a in
  alloc_wf a' /\ forall p, in_use a' p <-> in_use a p \/ p = idx.
Proof.
  intros Hwf Hc Hidx Hz Hlt. pose proof (cooled_wf a t Hwf Hc) as [Hlen Hpos Hsl Hsp Hu]. simpl in *.
  pose proof (wf_used a Hwf) as Hua. unfold used_count in Hua, Hu. fold (pos_count (track a)) in Hua.
  assert (0 <= track_used a) by (rewrite Hua; apply zlen_nonneg).
  assert (0 <= idx < zlen t) as Hin by lia. simpl in Hu. fold (pos_count t) in Hu. split.
  - split; simpl; try done.
    + unfold zlen in *. by rewrite length_insert.
    + apply Forall_insert; [done|]. by left.
    + rewrite !slot_insert by lia. rewrite !(proj2 (Z.eqb_neq _ _)) by lia. done.
    + unfold used_count. simpl. fold (pos_count (<[Z.to_nat idx := 1]> t)).
      rewrite (pos_count_insert t _ (slot t idx)) by by apply slot_lookup. rewrite Hz. simpl.
      rewrite wrap_small by lia. lia.
  - intros p. unfold in_use. simpl. split.
    + intros [Hp Hup]. rewrite slot_insert in Hup by lia. destruct (Z.eqb_spec idx p) as [->|]; [by right|].
      left. by apply (proj1 (cooled_in_use a t p Hc)).
    + intros [Hup| ->]; [|split; [done|rewrite slot_insert by lia; by rewrite Z.eqb_refl]].
      pose proof Hup as [Hp _]. split; [done|]. rewrite slot_insert by lia. destruct (Z.eqb_spec idx p); [lia|].
      apply (proj2 (cooled_in_use a t p Hc)) in Hup as [_ Hup]. exact Hup.
Qed.

(** The verdict on a candidate port: the probe of the last robust mode set. *)
Definition probe (udp tcp : nat -> Z -> bool) (a : allocator) (pass : nat) (port : Z) : bool :=
  if test_flag (flags a) SPF_ROBUST_TCP then tcp pass port
  else if test_flag (flags a) SPF_ROBUST_UDP then udp pass port else true.

Section request.
Variables (rnd : nat -> Z) (udp tcp : nat -> Z -> bool).

Lemma request_cooling c : forall a pass,
  (0 <= c)%nat -> alloc_wf a -> track_used a < track_len a -> cooling a (Z.of_nat c) ->
  (forall k, 0 <= rnd k < track_len a) -> (forall k port, probe udp tcp a k port = true) ->
  exists a' idx, request_loop (S c) rnd udp tcp pass a = Some (a', port_at a idx, SWITCH_STATUS_SUCCESS)
    /\ alloc_wf a' /\ 0 <= idx < track_len a /\ ~ in_use a idx
    /\ start a' = start a /\ flags a' = flags a /\ track_len a' = track_len a
    /\ forall p, in_use a' p <-> in_use a p \/ p = idx.
Proof.
  induction c as [|c IH]; intros a pass _ Hwf Hlt Hcool Hrnd Hprobe;
    destruct (pass_spec a (rnd pass) Hwf (Hrnd pass)) as (t & idx & k & Hw & Hc & Hidx & Hcase).
  all: assert (slot (track a) idx = 0 /\ slot t idx = 0 /\ k < track_len a -> forall fuel,
    exists a' idx', request_loop (S fuel) rnd udp tcp pass a = Some (a', port_at a idx', SWITCH_STATUS_SUCCESS)
      /\ alloc_wf a' /\ 0 <= idx' < track_len a /\ ~ in_use a idx'
      /\ start a' = start a /\ flags a' = flags a /\ track_len a' = track_len a
      /\ forall p, in_use a' p <-> in_use a p \/ p = idx') as Hfound.
  1,3: intros (Hz & Htz & Hk) fuel; destruct (take_slot a t idx Hwf Hc Hidx Htz Hlt) as [Hwf' Huse];
    eexists _, idx; cbn [request_loop]; rewrite (proj2 (Z.ltb_lt (track_used a) (track_len a))), Hw by done;
    rewrite (proj2 (Z.ltb_lt k (track_len a))) by done;
    pose proof (Hprobe pass (port_at a idx)) as Hpr; unfold probe in Hpr;
    assert ((if test_flag (flags a) SPF_ROBUST_TCP then tcp pass (port_at a idx)
             else if test_flag (flags a) SPF_ROBUST_UDP then udp pass (port_at a idx) else true) = true) as -> by exact Hpr;
    (split; [reflexivity|]); (split; [exact Hwf'|]); (split; [exact Hidx|]); (split; [intros [_ Hu]; lia|]);
    (do 3 (split; [reflexivity|])); exact Huse.
  - destruct Hcase as [(Hk & Hz & Htz)|(-> & Hall)]; [by apply Hfound|].
    exfalso. destruct Hcool as (p & Hp & Hs). destruct (Hall p Hp). lia.
  - destruct Hcase as [(Hk & Hz & Htz)|(-> & Hall)]; [by apply Hfound|].
    set (a1 := with_track t (track_used a) a).
    assert (cooling a1 (Z.of_nat c)) as Hcool1.
    { destruct Hcool as (p & Hp & Hs). exists p. split; [done|]. destruct (Hall p Hp) as [Hnz Hb]. simpl. rewrite Hb.
      unfold bump. destruct (Z.ltb_spec (slot (track a) p) 0); lia. }
    destruct (IH a1 (S pass)) as (a' & idx' & Hr & Hwf' & Hidx' & Hnu & Hst & Hfl & Htl & Huse);
      [lia|by apply cooled_wf|done|done|done|done|].
    exists a', idx'. change (request_loop (S (S c)) rnd udp tcp pass a)
      with (if track_used a <? track_len a then
              let '(t, index, tries) := walk (Z.to_nat (track_len a)) (track a) (track_len a) (rnd pass) 0 in
              if tries <? track_len a then
                let port := port_at a index in
                let r := if test_flag (flags a) SPF_ROBUST_UDP then udp pass port else true in
                let r := if test_flag (flags a) SPF_ROBUST_TCP then tcp pass port else r in
                if r then Some (with_track (<[Z.to_nat index := 1]> t) (u32 (track_used a + 1)) a, port, SWITCH_STATUS_SUCCESS)
                else request_loop (S c) rnd udp tcp (S pass) (with_track (<[Z.to_nat index := -4]> t) (track_used a) a)
              else request_loop (S c) rnd udp tcp (S pass) (with_track t (track_used a) a)
            else Some (a, 0, SWITCH_STATUS_FALSE)).
    rewrite (proj2 (Z.ltb_lt (track_used a) (track_len a))), Hw, Z.ltb_irrefl by done. subst a1.
    rewrite (cooled_in_use a t idx' Hc) in Hnu.
    split; [exact Hr|]. split; [exact Hwf'|]. split; [exact Hidx'|]. split; [exact Hnu|].
    do 3 (split; [done|]). intros p. rewrite Huse. by rewrite (cooled_in_use a t p Hc).
Qed.

End request.

(** C27: a request is served while a port is free.  Wherever the random search
    starts, as long as not all slots are in use and the probes succeed, a request
    ends within five passes over the slots and returns the port of a slot that
    was not in use, marks exactly that slot and keeps the books; when every slot
    is in use it fails at once and changes nothing. *)
Theorem port_request_served rnd udp tcp a :
  alloc_wf a -> (forall k, 0 <= rnd k < track_len a) -> (forall k port, probe udp tcp a k port = true) ->
  if track_used a <? track_len a then
    exists a' idx, switch_core_port_allocator_request_port 5 rnd udp tcp a = Some (a', port_at a idx, SWITCH_STATUS_SUCCESS)
      /\ alloc_wf a' /\ 0 <= idx < track_len a /\ ~ in_use a idx
      /\ start a' = start a /\ flags a' = flags a /\ track_len a' = track_len a
      /\ forall p, in_use a' p <-> in_use a p \/ p = idx
  else switch_core_port_allocator_request_port 5 rnd udp tcp a = Some (a, 0, SWITCH_STATUS_FALSE).
Proof.
  intros Hwf Hrnd Hprobe. destruct (Z.ltb_spec (track_used a) (track_len a)) as [Hlt|Hge].
  - apply (request_cooling rnd udp tcp 4); try done; [lia|]. by apply exists_cooling.
  - unfold switch_core_port_allocator_request_port. cbn [request_loop]. by rewrite (proj2 (Z.ltb_ge _ _)) by lia.
Qed.

(** ** New allocators *)

Lemma slot_replicate n p : slot (replicate n 0) p = 0.
Proof.
  unfold slot. destruct (replicate n 0 !! Z.to_nat p) eqn:Hl; [|done]. by apply lookup_replicate in Hl as [-> _].
Qed.

Lemma pos_count_replicate n : pos_count (replicate n 0) = 0.
Proof. induction n as [|n IH]; [done|]. simpl. by rewrite pos_count_cons, IH. Qed.

Lemma new_wf s e fl rt s' e' :
  round_range fl s e = (s', e') -> 0 <= s' <= e' -> e' < 2 ^ 16 ->
  let a := switch_core_port_allocator_new s e fl rt in
  alloc_wf a /\ (forall p, ~ in_use a p) /\ start a = s' /\ flags a = Z.lor fl rt
  /\ track_len a = if both fl then e' - s' + 2 else (e' - s' + 2) / 2.
Proof.
  intros Hr Hs He. unfold switch_core_port_allocator_new. rewrite Hr. cint.
  set (len := if both fl then e' - s' + 2 else (e' - s' + 2) / 2).
  assert (0 < len < 2 ^ 20) as Hlen by (subst len; destruct (both fl); [lia|zdiv]).
  rewrite (wrap_small 32 (len + 2)) by lia. cbv zeta. split; [|split; [|done]].
  - split; simpl; [rewrite zlen_replicate; lia|lia| | |].
    + apply Forall_replicate. right. lia.
    + by rewrite !slot_replicate.
    + unfold used_count. simpl. fold (pos_count (replicate (Z.to_nat (len + 2)) 0)). by rewrite pos_count_replicate.
  - intros p [_ Hu]. simpl in Hu. rewrite slot_replicate in Hu. lia.
Qed.

Lemma free_slot a idx :
  alloc_wf a -> in_use a idx ->
  let a' := with_track (<[Z.to_nat idx := -4]> (track a)) (u32 (track_used a - 1)) a in
  alloc_wf a' /\ forall p, in_use a' p <-> in_use a p /\ p <> idx.
Proof.
  intros [Hlen Hpos Hsl Hsp Hu] [Hidx Huse]. unfold used_count in Hu. fold (pos_count (track a)) in Hu.
  assert (pos_count (<[Z.to_nat idx := -4]> (track a)) = pos_count (track a) - 1) as Hcount.
  { rewrite (pos_count_insert (track a) _ (slot (track a) idx)) by (apply slot_lookup; lia).
    rewrite (proj2 (Z.ltb_lt 0 (slot (track a) idx))) by done. simpl. lia. }
  assert (0 <= pos_count (<[Z.to_nat idx := -4]> (track a))) by apply zlen_nonneg.
  assert (zlen (List.filter (fun x => 0 <? x) (track a)) <= zlen (track a)) as Hle.
  { unfold zlen. apply inj_le. apply List.filter_length_le. }
  fold (pos_count (track a)) in Hle. split.
  - split; simpl; try done.
    + unfold zlen in *. by rewrite length_insert.
    + apply Forall_insert; [done|]. right. lia.
    + rewrite !slot_insert by lia. rewrite !(proj2 (Z.eqb_neq _ _)) by lia. done.
    + unfold used_count. simpl. fold (pos_count (<[Z.to_nat idx := -4]> (track a))). rewrite Hcount, wrap_small by lia. lia.
  - intros p. unfold in_use. simpl. split.
    + intros [Hp Hup]. rewrite slot_insert in Hup by lia. destruct (Z.eqb_spec idx p) as [->|Hne]; [lia|]. split; [done|]. congruence.
    + intros [[Hp Hup] Hne]. split; [done|]. rewrite slot_insert by lia.
      rewrite (proj2 (Z.eqb_neq idx p)) by congruence. done.
Qed.

(** The life of an even port.  An allocator for even ports starts out well
    formed with nothing in use; in every later state with its range, the port of
    each slot is even and inside the requested range, and giving back a port in
    use frees exactly its slot. *)
Theorem port_even_lifecycle s e fl rt a idx :
  0 <= s -> s + 1 < e -> e < 2 ^ 16 -> test_flag fl SPF_EVEN = true -> test_flag fl SPF_ODD = false ->
  both (Z.lor fl rt) = false ->
  let a0 := switch_core_port_allocator_new s e fl rt in
  alloc_wf a0 /\ (forall p, ~ in_use a0 p)
  /\ (alloc_wf a -> start a = start a0 -> flags a = flags a0 -> track_len a = track_len a0 -> 0 <= idx < track_len a ->
      s <= port_at a idx <= e /\ port_at a idx mod 2 = 0
      /\ (in_use a idx -> exists a', switch_core_port_allocator_free_port a (port_at a idx) = Some (a', SWITCH_STATUS_SUCCESS)
            /\ alloc_wf a' /\ forall p, in_use a' p <-> in_use a p /\ p <> idx)).
Proof.
  intros Hs Hse He Hev Hod Hrt.
  assert (both fl = false) as Hb by (unfold both; by rewrite Hod, andb_false_r).
  destruct (round_range fl s e) as [s' e'] eqn:Hr. pose proof Hr as Hr'.
  unfold round_range in Hr'. rewrite Hb, Hev in Hr'. injection Hr' as Hs' He'.
  assert (s' mod 2 = 0 /\ e' mod 2 = 0 /\ s <= s' <= s + 1 /\ e - 1 <= e' <= e) as (Hs2 & He2 & Hsr & Her).
  { subst s' e'. destruct (Z.eqb_spec (s mod 2) 0), (Z.eqb_spec (e mod 2) 0); rewrite ?wrap_small by lia; zdiv. }
  destruct (new_wf s e fl rt s' e' Hr) as (Hwf0 & Hnone & Hst & Hfl & Htl); [lia|lia|]. rewrite Hb in Htl.
  cbv zeta. split; [done|]. split; [done|]. intros Hwf Hsa Hfa Hta Hidx.
  rewrite Hst in Hsa. rewrite Hfl in Hfa. rewrite Htl in Hta.
  assert (port_at a idx = s' + 2 * idx) as Hport.
  { unfold port_at. rewrite Hfa, Hrt, Hsa. rewrite (wrap_small 16 (idx + s' / 2)) by zdiv. rewrite wrap_small by zdiv. zdiv. }
  rewrite Hport. split; [zdiv|]. split; [zdiv|]. intros Huse.
  destruct (free_slot a idx Hwf Huse) as [Hwf' Huse']. eexists. split; [|by split; [exact Hwf'|]].
  unfold switch_core_port_allocator_free_port. rewrite Hsa, Hfa, Hrt.
  rewrite (proj2 (Z.ltb_ge _ _)) by lia. replace ((s' + 2 * idx - s') / 2) with idx by zdiv.
  rewrite slot_lookup by (rewrite (wf_len a Hwf); lia). cbn [mbind option_bind].
  by rewrite (proj2 (Z.ltb_lt 0 (slot (track a) idx))) by apply Huse.
Qed.

(** Where the ports leave the range.  An allocator for even and odd ports
    has one slot too many, whose port is the one above the end of the range; an
    allocator for odd ports hands out even ports only, the first of them below
    the start of its range. *)
Theorem port_range_leaks s e fl rt idx :
  0 <= s -> s + 1 < e -> e < 2 ^ 16 - 1 -> both (Z.lor fl rt) = both fl ->
  let a0 := switch_core_port_allocator_new s e fl rt in
  (both fl = true -> 0 <= track_len a0 - 1 < track_len a0 /\ port_at a0 (track_len a0 - 1) = e + 1)
  /\ (test_flag fl SPF_ODD = true -> test_flag fl SPF_EVEN = false ->
      (0 <= idx < track_len a0 -> port_at a0 idx mod 2 = 0) /\ port_at a0 0 = start a0 - 1).
Proof.
  intros Hs Hse He Hrt. split.
  - intros Hb. assert (round_range fl s e = (s, e)) as Hr by (unfold round_range; by rewrite Hb).
    destruct (new_wf s e fl rt s e Hr) as (_ & _ & Hst & Hfl & Htl); [lia|lia|]. rewrite Hb in Htl.
    cbv zeta. split; [lia|]. unfold port_at. rewrite Hfl, Hrt, Hb, Hst, Htl. rewrite wrap_small by lia. lia.
  - intros Hod Hev. assert (both fl = false) as Hb by (unfold both; by rewrite Hev).
    destruct (round_range fl s e) as [s' e'] eqn:Hr. pose proof Hr as Hr'.
    unfold round_range in Hr'. rewrite Hb, Hev, Hod in Hr'. injection Hr' as Hs' He'.
    assert (s' mod 2 = 1 /\ e' mod 2 = 1 /\ s <= s' <= s + 1 /\ e - 1 <= e' <= e) as (Hs2 & He2 & Hsr & Her).
    { subst s' e'. destruct (Z.eqb_spec (s mod 2) 0), (Z.eqb_spec (e mod 2) 0); rewrite ?wrap_small by lia; zdiv. }
    destruct (new_wf s e fl rt s' e' Hr) as (_ & _ & Hst & Hfl & Htl); [lia|lia|]. rewrite Hb in Htl.
    cbv zeta. unfold port_at. rewrite Hfl, Hrt, Hb, Hst, Htl. split.
    + intros Hidx. rewrite (wrap_small 16 (idx + s' / 2)) by zdiv. rewrite wrap_small by zdiv. zdiv.
    + rewrite (wrap_small 16 (0 + s' / 2)) by zdiv. rewrite wrap_small by zdiv. zdiv.
Qed.

(** ** Witnesses *)

Definition sample_alloc : allocator := switch_core_port_allocator_new 1000 1008 SPF_EVEN 0.

Lemma sample_alloc_wf : alloc_wf sample_alloc.
Proof. by apply (new_wf 1000 1008 SPF_EVEN 0 1000 1008). Qed.

Lemma port_request_served_witness :
  exists a' idx, switch_core_port_allocator_request_port 5 (fun _ => 2) (fun _ _ => false) (fun _ _ => false) sample_alloc
    = Some (a', port_at sample_alloc idx, SWITCH_STATUS_SUCCESS) /\ 0 <= idx < 5.
Proof.
  pose proof (port_request_served (fun _ => 2) (fun _ _ => false) (fun _ _ => false) sample_alloc sample_alloc_wf) as Hr.
  destruct Hr as (a' & idx & Hreq & _ & Hidx & _).
  - intros _. vm_compute. split; [discriminate|reflexivity].
  - reflexivity.
  - exists a', idx. split; [exact Hreq|exact Hidx].
Defined.

Lemma port_even_lifecycle_witness :
  1000 <= port_at sample_alloc 4 <= 1008 /\ port_at sample_alloc 4 mod 2 = 0.
Proof.
  destruct (port_even_lifecycle 1000 1008 SPF_EVEN 0 sample_alloc 4) as (_ & _ & Hlife); try reflexivity; try lia.
  destruct Hlife as (Hrange & Heven & _); try reflexivity; [apply sample_alloc_wf|vm_compute; split; [discriminate|reflexivity]|].
  split; [exact Hrange|exact Heven].
Defined.

Lemma port_range_leaks_witness :
  port_at (switch_core_port_allocator_new 10 13 (Z.lor SPF_EVEN SPF_ODD) 0) 4 = 14
  /\ port_at (switch_core_port_allocator_new 11 15 SPF_ODD 0) 0 = 10.
Proof.
  split.
  - apply (port_range_leaks 10 13 (Z.lor SPF_EVEN SPF_ODD) 0 0); try reflexivity; lia.
  - apply (port_range_leaks 11 15 SPF_ODD 0 0); try reflexivity; lia.
Defined.

End PortAllocator.
