(* ===== verification/HashTable.v ===== *)
(** * Chained hash tables (switch_hashtable.c, switch_hashtable_private.h,
      switch_hashtable.h)

    A table is an array of chains of entries whose length is always a prime of
    a fixed list; it grows to the next prime when the entry count passes the
    load limit.  Every routine of switch_hashtable.c is modelled on arrays of
    chains, with its allocation failures.  The specification is a finite map
    ([gmap]) over the keys up to the table's key equality; the refinement
    theorems connect the two. *)

From S2P Require Import Prelude CString.
From Stdlib Require Import SpecFloat.

Module HashTable.
Import CString.

(** ** Data *)

Definition HASHTABLE_FLAG_FREE_KEY : Z := Z.shiftl 1 0.
Definition HASHTABLE_FLAG_FREE_VALUE : Z := Z.shiftl 1 1.
Definition HASHTABLE_DUP_CHECK : Z := Z.shiftl 1 2.

Definition primes : list Z :=
  [53; 97; 193; 389; 769; 1543; 3079; 6151; 12289; 24593; 49157; 98317;
   196613; 393241; 786433; 1572869; 3145739; 6291469; 12582917; 25165843;
   50331653; 100663319; 201326611; 402653189; 805306457; 1610612741].

Definition prime_table_length : Z := zlen primes.

(** [(unsigned int) ceil(size * max_load_factor)]: [size] is converted to
    single precision and multiplied by 0.65f (the single 10905190 / 2^24). *)
Definition float_of_Z (z : Z) : spec_float := binary_normalize 24 128 z 0 false.
Definition max_load_factor : spec_float := S754_finite false 10905190 (-24).

Definition ceil_float (f : spec_float) : Z :=
  match f with
  | S754_finite false m e =>
    if 0 <=? e then Z.pos m * 2 ^ e else - ((- Z.pos m) / 2 ^ (- e))
  | _ => 0
  end.

Definition load_limit (size : Z) : Z :=
  u32 (ceil_float (SFmul 24 128 (float_of_Z size) max_load_factor)).

Section table.
(** Keys, values (non-NULL pointers) and destructor functions. *)
Context {K V D : Type}.

(** [e_v = None] is a NULL value pointer. *)
Record entry := mk_entry {
  e_k : K; e_v : option V; e_h : Z; e_flags : Z; e_destructor : option D }.

Record switch_hashtable := mk_table {
  tablelength : Z;
  table : list (list entry);
  entrycount : Z;
  loadlimit : Z;
  primeindex : Z;
  hashfn : K -> Z;
  eqfn : K -> K -> bool }.

Definition with_table (t : list (list entry)) (n : Z) (h : switch_hashtable) : switch_hashtable :=
  mk_table (tablelength h) t n (loadlimit h) (primeindex h) (hashfn h) (eqfn h).

(** What a routine does to memory it was handed: keys and values it frees,
    destructors it calls. *)
Inductive mem_event :=
| FreeKey (k : K) | FreeValue (v : option V) | CallDestructor (d : D) (v : option V).

(** ** Hashing *)

(** hash: the caller's hash, mixed ([unsigned int] arithmetic). *)
Definition hash (h : switch_hashtable) (k : K) : Z :=
  let i := u32 (hashfn h k) in
  let i := u32 (i + u32 (Z.lnot (u32 (Z.shiftl i 9)))) in
  let i := Z.lxor i (Z.lor (Z.shiftr i 14) (u32 (Z.shiftl i 18))) in
  let i := u32 (i + u32 (Z.shiftl i 4)) in
  Z.lxor i (Z.lor (Z.shiftr i 10) (u32 (Z.shiftl i 22))).

Definition indexFor (len hashvalue : Z) : Z := hashvalue mod len.

(** ** Creation *)

(** The first prime above [minsize] and its index; the loop leaves the
    initial size and the table length when there is none. *)
Fixpoint find_prime (ps : list Z) (minsize pindex : Z) : Z * Z :=
  match ps with
  | [] => (53, pindex)
  | p :: ps => if p >? minsize then (p, pindex) else find_prime ps minsize (pindex + 1)
  end.

Definition switch_create_hashtable (minsize : Z) (hashf : K -> Z) (eqf : K -> K -> bool)
  : switch_status * option switch_hashtable :=
  if minsize >? Z.shiftl 1 30 then (SWITCH_STATUS_FALSE, None)
  else
    let '(size, pindex) := find_prime primes minsize 0 in
    (SWITCH_STATUS_SUCCESS,
     Some (mk_table size (replicate (Z.to_nat size) []) 0 (load_limit size) pindex hashf eqf)).

(** ** Growing *)

(** Where [calloc] and, failing that, [reallocarray] leave a growing table. *)
Inductive alloc_outcome := CallocOk | ReallocOk | AllocFails.

Definition push_bucket (t : list (list entry)) (i : Z) (e : entry) : list (list entry) :=
  alter (cons e) (Z.to_nat i) t.

(** The transfer loop: pop each entry off its chain, push it on its new one. *)
Definition rehash (newsize : Z) (es : list entry) (t : list (list entry)) : list (list entry) :=
  fold_left (fun t e => push_bucket t (indexFor newsize (e_h e)) e) es t.

(** hashtable_expand.  [None]: the realloc branch hands [newtable[tablelength]],
    a pointer read from memory nobody has written, to [bzero]. *)
Definition hashtable_expand (a : alloc_outcome) (h : switch_hashtable)
  : option (switch_hashtable * Z) :=
  if primeindex h =? prime_table_length - 1 then Some (h, 0)
  else
    match primes !! Z.to_nat (primeindex h + 1) with
    | None => None
    | Some newsize =>
      match a with
      | CallocOk =>
        Some (mk_table newsize
                (rehash newsize (concat (table h)) (replicate (Z.to_nat newsize) []))
                (entrycount h) (load_limit newsize) (primeindex h + 1) (hashfn h) (eqfn h), -1)
      | ReallocOk => None
      | AllocFails => Some (h, 0)
      end
    end.

Definition switch_hashtable_count (h : switch_hashtable) : Z := entrycount h.

(** ** Removal *)

(** The walk down one chain: the entry found and the chain without it. *)
Fixpoint unlink (h : switch_hashtable) (k : K) (hashvalue : Z) (c : list entry)
  : option (entry * list entry) :=
  match c with
  | [] => None
  | e :: c' =>
    if (hashvalue =? e_h e) && eqfn h k (e_k e) then Some (e, c')
    else '(x, c'') ← unlink h k hashvalue c'; Some (x, e :: c'')
  end.

(** What releasing an entry frees, and the value pointer left. *)
Definition release (e : entry) : list mem_event * option V :=
  let ks := if test_flag (e_flags e) HASHTABLE_FLAG_FREE_KEY then [FreeKey (e_k e)] else [] in
  if test_flag (e_flags e) HASHTABLE_FLAG_FREE_VALUE then (ks ++ [FreeValue (e_v e)], None)
  else match e_destructor e with
       | Some d => (ks ++ [CallDestructor d (e_v e)], None)
       | None => (ks, e_v e)
       end.

Definition _switch_hashtable_remove (h : switch_hashtable) (k : K) (hashvalue index : Z)
  : switch_hashtable * option V * list mem_event :=
  match table h !! Z.to_nat index with
  | None => (h, None, [])
  | Some c =>
    match unlink h k hashvalue c with
    | None => (h, None, [])
    | Some (e, c') =>
      let '(evs, v) := release e in
      (with_table (<[Z.to_nat index := c']> (table h)) (u32 (entrycount h - 1)) h, v, evs)
    end
  end.

Definition switch_hashtable_remove (h : switch_hashtable) (k : K)
  : switch_hashtable * option V * list mem_event :=
  let hashvalue := hash h k in
  _switch_hashtable_remove h k hashvalue (indexFor (tablelength h) hashvalue).

(** ** Insertion *)

(** switch_hashtable_insert_destructor; [a] is the outcome of the allocations
    of an expansion, [node] whether the entry itself can be allocated. *)
Definition switch_hashtable_insert_destructor (a : alloc_outcome) (node : bool)
  (h : switch_hashtable) (k : K) (v : option V) (flags : Z) (destructor : option D)
  : option (switch_hashtable * Z * list mem_event) :=
  let hashvalue := hash h k in
  let index := indexFor (tablelength h) hashvalue in
  let '(h1, _, evs) :=
    if test_flag flags HASHTABLE_DUP_CHECK
    then _switch_hashtable_remove h k hashvalue index else (h, None, []) in
  let h2 := with_table (table h1) (u32 (entrycount h1 + 1)) h1 in
  '(h3, index) ←
    (if entrycount h2 >? loadlimit h2
     then '(h3, _) ← hashtable_expand a h2; Some (h3, indexFor (tablelength h3) hashvalue)
     else Some (h2, index));
  if node then
    let e := mk_entry k v hashvalue flags destructor in
    Some (with_table (push_bucket (table h3) index e) (entrycount h3) h3, -1, evs)
  else Some (with_table (table h3) (u32 (entrycount h3 - 1)) h3, 0, evs).

(** ** Search *)

Fixpoint search_chain (h : switch_hashtable) (k : K) (hashvalue : Z) (c : list entry) : option V :=
  match c with
  | [] => None
  | e :: c' => if (hashvalue =? e_h e) && eqfn h k (e_k e) then e_v e
               else search_chain h k hashvalue c'
  end.

Definition switch_hashtable_search (h : switch_hashtable) (k : K) : option V :=
  let hashvalue := hash h k in
  let index := indexFor (tablelength h) hashvalue in
  search_chain h k hashvalue (default [] (table h !! Z.to_nat index)).

(** ** Destruction *)

Definition switch_hashtable_destroy (h : switch_hashtable) : list mem_event :=
  flat_map (fun e => (release e).1) (concat (table h)).

(** ** Iteration *)

(** An iterator: the bucket and the rest of its chain from the current entry
    on (the entry pointer [e] with what its [next] fields reach). *)
Record iterator := mk_iter { pos : Z; cur : list entry }.

(** The scan for the next bucket with a chain, from [pos] on. *)
Fixpoint next_bucket (t : list (list entry)) (p : Z) : option iterator :=
  match t with
  | [] => None
  | [] :: t => next_bucket t (p + 1)
  | (_ :: _) as c :: _ => Some (mk_iter p c)
  end.

Definition switch_hashtable_next (h : switch_hashtable) (i : iterator) : option iterator :=
  let scan p := next_bucket (drop (Z.to_nat p) (table h)) p in
  match cur i with
  | [] => scan (pos i)
  | [_] => scan (pos i + 1)
  | _ :: ((_ :: _) as c) => Some (mk_iter (pos i) c)
  end.

Definition switch_hashtable_first_iter (h : switch_hashtable) : option iterator :=
  switch_hashtable_next h (mk_iter 0 []).

Definition switch_hashtable_this (i : iterator) : option (K * option V) :=
  match cur i with
  | e :: _ => Some (e_k e, e_v e)
  | [] => None
  end.

(** The idiom [for (hi = first(h); hi; hi = next(&hi))]: the entries visited. *)
Fixpoint iterate (fuel : nat) (h : switch_hashtable) (i : option iterator) : list (K * option V) :=
  match fuel, i with
  | S fuel, Some i => option_list (switch_hashtable_this i) ++ iterate fuel h (switch_hashtable_next h i)
  | _, _ => []
  end.

End table.

Arguments entry : clear implicits.
Arguments switch_hashtable : clear implicits.
Arguments mem_event : clear implicits.
Arguments iterator : clear implicits.

(** ** The interface to the key functions

    What a table needs of its [hashfn] and [eqfn]: the equality is that of a
    canonical form of the keys, and the hash is a function of that form. *)
Class KeyLaws {K C : Type} (canon : K -> C) (hf : K -> Z) (ef : K -> K -> bool) : Prop := {
  key_eq : forall a b, ef a b = true <-> canon a = canon b;
  key_hash : forall a b, canon a = canon b -> hf a = hf b }.

Section refinement.
Context {K V D C : Type} `{Countable C} (canon : K -> C).
Implicit Types h : switch_hashtable K V D.
Implicit Types e : entry K V D.
Implicit Types c es : list (entry K V D).

Definition entries h : list (entry K V D) := concat (table h).

(** ** Invariant *)

(** Every chain of the array [t] holds entries with property [P] of its index. *)
Definition placed (P : entry K V D -> Z -> Prop) (t : list (list (entry K V D))) : Prop :=
  forall i c, t !! i = Some c -> Forall (fun e => P e (Z.of_nat i)) c.

(** The placement of a well-formed table: the stored hash and its index. *)
Definition at_home h n e (i : Z) : Prop := e_h e = hash h (e_k e) /\ indexFor n (e_h e) = i.

Record ht_wf h : Prop := {
  wf_len : zlen (table h) = tablelength h;
  wf_pos : 0 < tablelength h;
  wf_prime : 0 <= primeindex h /\ primes !! Z.to_nat (primeindex h) = Some (tablelength h);
  wf_limit : loadlimit h = load_limit (tablelength h);
  wf_chains : placed (at_home h (tablelength h)) (table h);
  wf_count : entrycount h = u32 (zlen (entries h));
  wf_laws : KeyLaws canon (hashfn h) (eqfn h) }.

Definition keys es : list C := canon ∘ e_k <$> es.

(** No two entries with the same key: what HASHTABLE_DUP_CHECK maintains. *)
Definition uniq h : Prop := NoDup (keys (entries h)).

(** ** Abstraction *)
Definition abs h : gmap C (option V) :=
  list_to_map ((fun e => (canon (e_k e), e_v e)) <$> entries h).

(** *** Chains inside the table *)

Definition matches h k e : bool := (hash h k =? e_h e) && eqfn h k (e_k e).

Lemma unlink_None h k c :
  unlink h k (hash h k) c = None -> Forall (fun e => matches h k e = false) c.
Proof.
  induction c as [|e c IH]; simpl; [constructor|]. unfold matches.
  destruct (_ && _) eqn:E; [done|].
  destruct (unlink h k (hash h k) c) as [[]|]; [done|]. intros _. constructor; auto.
Qed.

Lemma unlink_Some h k c e c' :
  unlink h k (hash h k) c = Some (e, c') ->
  matches h k e = true /\ exists c1 c2, c = c1 ++ e :: c2 /\ c' = c1 ++ c2.
Proof.
  revert c'. induction c as [|x c IH]; simpl; [done|]. intros c'.
  destruct (_ && _) eqn:E.
  - intros [= <- <-]. split; [done|]. by exists [], c.
  - destruct (unlink h k (hash h k) c) as [[y c'']|] eqn:Hu; simpl; [|done].
    intros [= <- <-]. destruct (IH c'' eq_refl) as (? & c1 & c2 & -> & ->).
    split; [done|]. by exists (x :: c1), c2.
Qed.

Lemma hash_canon h a b : ht_wf h -> canon a = canon b -> hash h a = hash h b.
Proof. intros [] Hab. unfold hash. by rewrite (key_hash (hf := hashfn h) a b Hab). Qed.

Lemma elem_entries h e :
  ht_wf h -> e ∈ entries h ->
  e_h e = hash h (e_k e) /\
  exists i c, table h !! i = Some c /\ e ∈ c /\ indexFor (tablelength h) (e_h e) = Z.of_nat i.
Proof.
  intros [] He. unfold entries in He. apply list_elem_of_In, in_concat in He as (c & Hc & He).
  apply list_elem_of_In, list_elem_of_lookup in Hc as [i Hi].
  apply list_elem_of_In in He. pose proof (wf_chains0 i c Hi) as Hall.
  rewrite Forall_forall in Hall. destruct (Hall e He). eauto 10.
Qed.

Lemma matches_spec h k e :
  ht_wf h -> e ∈ entries h -> matches h k e = true <-> canon k = canon (e_k e).
Proof.
  intros Hwf He. destruct (elem_entries h e Hwf He) as [Hh _]. pose proof Hwf as [].
  unfold matches. rewrite andb_true_iff, key_eq, Z.eqb_eq, Hh. split; [tauto|].
  intros Hc. split; [by apply hash_canon|done].
Qed.

Lemma index_range h hv : ht_wf h -> 0 <= indexFor (tablelength h) hv < zlen (table h).
Proof. intros []. rewrite wf_len0. apply Z.mod_pos_bound. lia. Qed.

(** The chain a key hashes to. *)
Lemma bucket_lookup h hv :
  ht_wf h -> exists c, table h !! Z.to_nat (indexFor (tablelength h) hv) = Some c.
Proof.
  intros Hwf. pose proof (index_range h hv Hwf). apply lookup_lt_is_Some_2.
  unfold zlen in *. lia.
Qed.

(** An entry with the key is in the key's chain. *)
Lemma key_in_bucket h k e c :
  ht_wf h -> e ∈ entries h -> canon k = canon (e_k e) ->
  table h !! Z.to_nat (indexFor (tablelength h) (hash h k)) = Some c -> e ∈ c.
Proof.
  intros Hwf He Hk Hc. destruct (elem_entries h e Hwf He) as [Hh (i & c' & Hi & Hec & Hix)].
  rewrite (hash_canon h k (e_k e) Hwf Hk), <-Hh, Hix, Nat2Z.id in Hc. congruence.
Qed.

(** *** The abstract map of an entry list *)

(** What [f] says of the entries, by key. *)
Definition map_by {A} (f : entry K V D -> A) es : gmap C A :=
  list_to_map ((fun e => (canon (e_k e), f e)) <$> es).

Definition map_of es : gmap C (option V) := map_by e_v es.

Lemma keys_perm es es' : es ≡ₚ es' -> keys es ≡ₚ keys es'.
Proof. apply fmap_Permutation. Qed.

Lemma elem_keys es e : e ∈ es -> canon (e_k e) ∈ keys es.
Proof. intros He. apply list_elem_of_fmap. exists e. done. Qed.

Section map_by.
Context {A : Type} (f : entry K V D -> A).

Lemma keys_fst es : ((fun e => (canon (e_k e), f e)) <$> es).*1 = keys es.
Proof. unfold keys. by rewrite <-list_fmap_compose. Qed.

Lemma map_by_elem es e : NoDup (keys es) -> e ∈ es -> map_by f es !! canon (e_k e) = Some (f e).
Proof.
  intros Hnd He. apply elem_of_list_to_map_1; [by rewrite keys_fst|].
  apply list_elem_of_fmap. eauto.
Qed.

Lemma map_by_absent es x : x ∉ keys es -> map_by f es !! x = None.
Proof. intros Hx. apply not_elem_of_list_to_map_1. by rewrite keys_fst. Qed.

Lemma map_by_perm es es' : NoDup (keys es) -> es ≡ₚ es' -> map_by f es = map_by f es'.
Proof.
  intros Hnd Hp. apply list_to_map_proper; [by rewrite keys_fst|]. by apply fmap_Permutation.
Qed.

Lemma map_by_cons e es : map_by f (e :: es) = <[canon (e_k e) := f e]> (map_by f es).
Proof. done. Qed.

Lemma map_by_remove es1 e es2 :
  NoDup (keys (es1 ++ e :: es2)) ->
  NoDup (keys (es1 ++ es2)) /\ (canon (e_k e) ∉ keys (es1 ++ es2))
  /\ map_by f (es1 ++ es2) = delete (canon (e_k e)) (map_by f (es1 ++ e :: es2)).
Proof.
  intros Hnd. assert (es1 ++ e :: es2 ≡ₚ e :: es1 ++ es2) as Hp by by rewrite Permutation_middle.
  rewrite (map_by_perm _ _ Hnd Hp), map_by_cons.
  rewrite (keys_perm _ _ Hp) in Hnd. apply NoDup_cons in Hnd as [Hx Hnd].
  split; [done|]. split; [done|]. rewrite delete_insert_id; [done|]. by apply map_by_absent.
Qed.

End map_by.

Lemma map_of_elem es e : NoDup (keys es) -> e ∈ es -> map_of es !! canon (e_k e) = Some (e_v e).
Proof. apply (map_by_elem e_v). Qed.

Lemma map_of_absent es x : x ∉ keys es -> map_of es !! x = None.
Proof. apply (map_by_absent e_v). Qed.

(** *** Searching *)

Lemma search_chain_spec h k c :
  (exists e, e ∈ c /\ matches h k e = true /\ search_chain h k (hash h k) c = e_v e)
  \/ (Forall (fun e => matches h k e = false) c /\ search_chain h k (hash h k) c = None).
Proof.
  induction c as [|e c IH]; simpl; [right; done|].
  fold (matches h k e). destruct (matches h k e) eqn:E.
  - left. exists e. split; [left|]. done.
  - destruct IH as [(x & ? & ? & ?)|[? ?]].
    + left. exists x. split; [by right|]. done.
    + right. split; [by constructor|done].
Qed.

Lemma search_abs h k :
  ht_wf h -> uniq h -> switch_hashtable_search h k = mjoin (abs h !! canon k).
Proof.
  intros Hwf Hu. unfold switch_hashtable_search.
  destruct (bucket_lookup h (hash h k) Hwf) as [c Hc]. rewrite Hc. simpl.
  assert (forall e, e ∈ c -> e ∈ entries h) as Hin.
  { intros e He. unfold entries. rewrite (concat_split _ _ _ Hc). rewrite !elem_of_app. auto. }
  change (abs h) with (map_of (entries h)).
  destruct (search_chain_spec h k c) as [(e & He & Hm & ->)|[Hall ->]].
  - apply matches_spec in Hm as ->; auto. by rewrite map_of_elem by auto.
  - rewrite map_of_absent; [done|]. intros Hk. apply list_elem_of_fmap in Hk as (e & Hke & He).
    assert (e ∈ c) as Hec by (by eapply key_in_bucket). rewrite Forall_forall in Hall.
    specialize (Hall e Hec). rewrite (proj2 (matches_spec h k e Hwf He)) in Hall; done.
Qed.

(** *** Placing entries *)

Lemma placed_insert P t i c :
  placed P t -> Forall (fun e => P e (Z.of_nat i)) c -> placed P (<[i := c]> t).
Proof.
  intros Hp Hc j x Hj. destruct (decide (i = j)) as [->|Hne].
  - destruct (decide (j < length t)%nat).
    + rewrite list_lookup_insert_eq in Hj by done. by injection Hj as <-.
    + rewrite list_insert_ge in Hj by lia. by apply (Hp j x).
  - rewrite list_lookup_insert_ne in Hj by done. by apply (Hp j x).
Qed.

Lemma push_bucket_insert (t : list (list (entry K V D))) i e c :
  t !! Z.to_nat i = Some c -> push_bucket t i e = <[Z.to_nat i := e :: c]> t.
Proof.
  intros Hc. unfold push_bucket. apply list_eq. intros j. rewrite list_lookup_alter.
  destruct (decide (Z.to_nat i = j)) as [<-|Hne].
  - rewrite list_lookup_insert_eq by (by eapply lookup_lt_Some). by rewrite Hc.
  - by rewrite list_lookup_insert_ne.
Qed.

Lemma push_bucket_spec P (t : list (list (entry K V D))) i e :
  placed P t -> 0 <= i < zlen t -> P e i ->
  placed P (push_bucket t i e) /\ zlen (push_bucket t i e) = zlen t
  /\ concat (push_bucket t i e) ≡ₚ e :: concat t.
Proof.
  intros Hp Hi He.
  destruct (lookup_lt_is_Some_2 t (Z.to_nat i)) as [c Hc]; [unfold zlen in *; lia|].
  rewrite (push_bucket_insert t i e c Hc). split; [|split].
  - apply placed_insert; [done|]. constructor; [by rewrite Z2Nat.id by lia|]. by apply Hp.
  - unfold zlen. by rewrite length_insert.
  - rewrite (concat_update _ _ _ _ Hc), (concat_split _ _ _ Hc). simpl. symmetry. apply Permutation_middle.
Qed.

Lemma rehash_spec P n es : forall t,
  0 < n -> zlen t = n -> placed P t -> Forall (fun e => P e (indexFor n (e_h e))) es ->
  placed P (rehash n es t) /\ zlen (rehash n es t) = n
  /\ concat (rehash n es t) ≡ₚ es ++ concat t.
Proof.
  induction es as [|e es IH]; intros t Hn Hl Hp Hes; [done|].
  apply Forall_cons in Hes as [He Hes].
  assert (0 <= indexFor n (e_h e) < zlen t) as Hi by (rewrite Hl; apply Z.mod_pos_bound; lia).
  destruct (push_bucket_spec P t _ e Hp Hi He) as (Hp' & Hl' & Hc').
  destruct (IH (push_bucket t (indexFor n (e_h e)) e)) as (? & ? & Hc); auto; [congruence|].
  split; [done|]. split; [done|]. simpl. rewrite Hc, Hc'. symmetry. apply Permutation_middle.
Qed.

(** The well-formedness of a table whose array was replaced. *)
Lemma wf_with_table h t n :
  ht_wf h -> placed (at_home h (tablelength h)) t -> zlen t = zlen (table h) ->
  n = u32 (zlen (concat t)) -> ht_wf (with_table t n h).
Proof.
  intros [] Hp Hl Hn. constructor; simpl; auto. by rewrite Hl.
Qed.

Lemma u32_pred n m : u32 (u32 n - m) = u32 (n - m).
Proof. unfold wrap. by rewrite Zminus_mod_idemp_l. Qed.

Lemma u32_succ n m : u32 (u32 n + m) = u32 (n + m).
Proof. unfold wrap. by rewrite Zplus_mod_idemp_l. Qed.

(** *** Removing *)

Lemma remove_cases h k h' v evs :
  ht_wf h -> switch_hashtable_remove h k = (h', v, evs) ->
  ((canon k ∉ keys (entries h)) /\ h' = h /\ v = None /\ evs = [])
  \/ exists es1 e es2, entries h = es1 ++ e :: es2 /\ entries h' = es1 ++ es2
      /\ canon (e_k e) = canon k /\ (evs, v) = release e /\ ht_wf h'
      /\ hashfn h' = hashfn h.
Proof.
  intros Hwf. unfold switch_hashtable_remove, _switch_hashtable_remove.
  destruct (bucket_lookup h (hash h k) Hwf) as [c Hc]. rewrite Hc.
  assert (forall e, e ∈ entries h -> canon k = canon (e_k e) -> e ∈ c) as Hbucket
    by (intros; by eapply key_in_bucket).
  revert Hc Hbucket. generalize (Z.to_nat (indexFor (tablelength h) (hash h k))).
  intros i Hc Hbucket. pose proof (concat_split _ _ _ Hc) as Hsplit.
  destruct (unlink h k (hash h k) c) as [[e c']|] eqn:Hu.
  - apply unlink_Some in Hu as (Hm & c1 & c2 & -> & ->).
    destruct (release e) as [evs' v'] eqn:Hr. intros [= <- <- <-]. right.
    exists (concat (take i (table h)) ++ c1), e, (c2 ++ concat (drop (S i) (table h))).
    assert (Hent : entries h = (concat (take i (table h)) ++ c1) ++ e :: c2 ++ concat (drop (S i) (table h)))
      by (unfold entries; rewrite Hsplit; by rewrite <-!app_assoc).
    pose proof (concat_update _ _ _ (c1 ++ c2) Hc) as Hent'.
    split; [done|]. split; [unfold entries; simpl; by rewrite Hent', <-!app_assoc|].
    split; [symmetry; apply (matches_spec h); auto; rewrite Hent; set_solver|].
    split; [done|]. split; [|done]. pose proof (wf_chains h Hwf i _ Hc) as Hch.
    apply wf_with_table; auto.
    + apply placed_insert; [exact (wf_chains h Hwf)|].
      rewrite Forall_app, Forall_cons in Hch. rewrite Forall_app. tauto.
    + unfold zlen. by rewrite length_insert.
    + rewrite (wf_count h Hwf), u32_pred, Hent, Hent'.
      f_equal. rewrite !zlen_app, zlen_cons, zlen_app. lia.
  - intros [= <- <- <-]. left. split; [|done]. apply unlink_None in Hu.
    intros Hk. apply list_elem_of_fmap in Hk as (e & Hke & He).
    rewrite Forall_forall in Hu. specialize (Hu e (Hbucket e He Hke)).
    rewrite (proj2 (matches_spec h k e Hwf He)) in Hu; done.
Qed.

Lemma remove_by {A} (f : entry K V D -> A) h k h' v evs :
  ht_wf h -> uniq h -> switch_hashtable_remove h k = (h', v, evs) ->
  ht_wf h' /\ uniq h' /\ hashfn h' = hashfn h /\ (canon k ∉ keys (entries h'))
  /\ map_by f (entries h') = delete (canon k) (map_by f (entries h)).
Proof.
  intros Hwf Hu Hr. unfold uniq in *.
  destruct (remove_cases h k h' v evs Hwf Hr) as [(Hk & -> & _ & _)|(es1 & e & es2 & He & He' & Hk & _ & Hwf' & Hf)].
  - do 4 (split; [done|]). symmetry. apply delete_id. by apply map_by_absent.
  - rewrite He in *. rewrite He'. destruct (map_by_remove f es1 e es2 Hu) as (? & ? & Hm).
    rewrite <-Hk. auto.
Qed.

Lemma remove_abs h k h' v evs :
  ht_wf h -> uniq h -> switch_hashtable_remove h k = (h', v, evs) ->
  ht_wf h' /\ uniq h' /\ hashfn h' = hashfn h /\ (canon k ∉ keys (entries h'))
  /\ abs h' = delete (canon k) (abs h).
Proof. apply (remove_by e_v). Qed.

(** *** Growing *)

Lemma primes_step i p : primes !! Z.to_nat i = Some p -> 0 <= i -> 0 < p.
Proof.
  intros Hp Hi. assert (Forall (fun p => 0 < p) primes) as Hall by (repeat constructor).
  by apply (Forall_lookup_1 _ _ _ _ Hall Hp).
Qed.

Lemma expand_spec a h n h' r :
  ht_wf h -> hashtable_expand a (with_table (table h) n h) = Some (h', r) ->
  (forall m, m = u32 (zlen (entries h')) -> ht_wf (with_table (table h') m h'))
  /\ entrycount h' = n /\ entries h' ≡ₚ entries h /\ hashfn h' = hashfn h.
Proof.
  intros Hwf. pose proof Hwf as []. unfold hashtable_expand. simpl.
  assert (forall m, m = u32 (zlen (entries h)) -> ht_wf (with_table (table h) m h)) as Hsame
    by (intros; by apply wf_with_table).
  destruct (primeindex h =? prime_table_length - 1); [by intros [= <- <-]|].
  destruct (primes !! Z.to_nat (primeindex h + 1)) as [p|] eqn:Hp; [|done].
  destruct a; [|done|by intros [= <- <-]].
  intros [= <- <-]. assert (0 < p) as Hpos by (eapply primes_step; [done|lia]).
  destruct (rehash_spec (at_home h p) p (concat (table h)) (replicate (Z.to_nat p) []))
    as (Hp' & Hl' & Hc'); [done| | | |].
  - rewrite zlen_replicate. lia.
  - intros i c Hi. apply lookup_replicate_1 in Hi as [-> _]. constructor.
  - apply Forall_forall. intros e He. destruct (elem_entries h e Hwf He) as [Hh _]. done.
  - rewrite concat_replicate_nil, app_nil_r in Hc'. split; [|done].
    intros m Hm. constructor; simpl; auto. split; [lia|done].
Qed.

(** *** Inserting *)

Lemma insert_split a (node : bool) h k v flags d :
  switch_hashtable_insert_destructor a node h k v flags d =
  (let '(h1, _, evs) := if test_flag flags HASHTABLE_DUP_CHECK
                        then switch_hashtable_remove h k else (h, None, []) in
   let h2 := with_table (table h1) (u32 (entrycount h1 + 1)) h1 in
   '(h3, index) ←
     (if entrycount h2 >? loadlimit h2
      then '(h3, _) ← hashtable_expand a h2; Some (h3, indexFor (tablelength h3) (hash h k))
      else Some (h2, indexFor (tablelength h) (hash h k)));
   if node then
     Some (with_table (push_bucket (table h3) index (mk_entry k v (hash h k) flags d)) (entrycount h3) h3, -1, evs)
   else Some (with_table (table h3) (u32 (entrycount h3 - 1)) h3, 0, evs)).
Proof. done. Qed.

Lemma remove_tablelength h k h' v evs :
  switch_hashtable_remove h k = (h', v, evs) -> tablelength h' = tablelength h.
Proof.
  unfold switch_hashtable_remove, _switch_hashtable_remove.
  destruct (table h !! _) as [c|]; [|by intros [= <- _ _]].
  destruct (unlink _ _ _ c) as [[e c']|]; [|by intros [= <- _ _]].
  destruct (release e). by intros [= <- _ _].
Qed.

(** The second half of an insertion, from a table without the key. *)
Lemma insert_fresh a (node : bool) h k v flags d h3 index :
  ht_wf h ->
  (let h2 := with_table (table h) (u32 (entrycount h + 1)) h in
   if entrycount h2 >? loadlimit h2
   then '(h3, _) ← hashtable_expand a h2; Some (h3, indexFor (tablelength h3) (hash h k))
   else Some (h2, indexFor (tablelength h) (hash h k))) = Some (h3, index) ->
  let h' := if node
            then with_table (push_bucket (table h3) index (mk_entry k v (hash h k) flags d)) (entrycount h3) h3
            else with_table (table h3) (u32 (entrycount h3 - 1)) h3 in
  ht_wf h' /\ entries h' ≡ₚ (if node then [mk_entry k v (hash h k) flags d] else []) ++ entries h.
Proof.
  intros Hwf Hexp. pose proof (wf_count h Hwf) as Hcnt.
  assert ((forall m, m = u32 (zlen (entries h3)) -> ht_wf (with_table (table h3) m h3))
    /\ entrycount h3 = u32 (entrycount h + 1) /\ entries h3 ≡ₚ entries h /\ hashfn h3 = hashfn h
    /\ index = indexFor (tablelength h3) (hash h k)) as (Hwf3 & Hc3 & Hp3 & Hf3 & ->).
  { cbv zeta in Hexp. destruct (_ >? _).
    - destruct (hashtable_expand a _) as [[h3' r]|] eqn:Hx; [|done]. simpl in Hexp.
      injection Hexp as -> <-. apply expand_spec in Hx; [|done]. tauto.
    - injection Hexp as <- <-. split; [|done]. intros m Hm. exact (wf_with_table h (table h) m Hwf (wf_chains _ Hwf) eq_refl Hm). }
  assert (zlen (entries h3) = zlen (entries h)) as Hz by (unfold zlen; by rewrite Hp3).
  specialize (Hwf3 _ eq_refl). destruct node; cbv zeta; simpl.
  - set (e := mk_entry k v (hash h k) flags d).
    destruct (push_bucket_spec (at_home h3 (tablelength h3)) (table h3)
                (indexFor (tablelength h3) (hash h k)) e) as (Hpl & Hlen & Hperm).
    + apply (wf_chains _ Hwf3).
    + apply (index_range _ _ Hwf3).
    + unfold at_home, hash. simpl. by rewrite Hf3.
    + split; [|unfold entries in *; simpl; by rewrite Hperm, Hp3].
      apply (wf_with_table _ _ _ Hwf3 Hpl Hlen). rewrite Hc3, Hcnt, u32_succ. f_equal.
      unfold zlen in *. rewrite Hperm. simpl. unfold entries in *. lia.
  - split; [|done]. apply (wf_with_table _ _ _ Hwf3); [apply (wf_chains _ Hwf3)|done|].
    rewrite Hc3, Hcnt, !u32_succ, u32_pred. f_equal. unfold entries in *. lia.
Qed.

Lemma insert_by {A} (f : entry K V D -> A) a (node : bool) h k v flags d h' r evs :
  ht_wf h -> uniq h -> test_flag flags HASHTABLE_DUP_CHECK = true ->
  switch_hashtable_insert_destructor a node h k v flags d = Some (h', r, evs) ->
  ht_wf h' /\ uniq h' /\ r = (if node then -1 else 0) /\ evs = (switch_hashtable_remove h k).2
  /\ map_by f (entries h') = (if node then <[canon k := f (mk_entry k v (hash h k) flags d)]> (map_by f (entries h))
                              else delete (canon k) (map_by f (entries h))).
Proof.
  intros Hwf Hu Hdup. rewrite insert_split, Hdup.
  destruct (switch_hashtable_remove h k) as [[h1 v1] evs1] eqn:Hr.
  destruct (remove_by f h k h1 v1 evs1 Hwf Hu Hr) as (Hwf1 & Hu1 & Hf1 & Hk1 & Habs1).
  rewrite <-(remove_tablelength _ _ _ _ _ Hr).
  assert (hash h k = hash h1 k) as -> by (unfold hash; by rewrite Hf1).
  cbv zeta. match goal with |- context [if ?b then mbind ?f ?x else ?y] =>
    destruct (if b then mbind f x else y) as [[h3 index]|] eqn:Hexp end; simpl; [|done].
  intros Hres. destruct (insert_fresh a node h1 k v flags d h3 index Hwf1 Hexp) as [Hwf' Hperm].
  assert (h' = (if node then with_table (push_bucket (table h3) index (mk_entry k v (hash h1 k) flags d)) (entrycount h3) h3
     else with_table (table h3) (u32 (entrycount h3 - 1)) h3) /\ r = (if node then -1 else 0) /\ evs = evs1) as (-> & -> & ->)
    by (destruct node; by injection Hres as <- <- <-).
  assert (NoDup (keys ((if node then [mk_entry k v (hash h1 k) flags d] else []) ++ entries h1))) as Hnd
    by (destruct node; [by apply NoDup_cons|done]).
  split; [done|]. split; [unfold uniq; by rewrite (keys_perm _ _ Hperm)|]. do 2 (split; [done|]).
  rewrite <-(map_by_perm f _ _ Hnd (symmetry Hperm)). destruct node; simpl; [|done].
  rewrite map_by_cons. simpl. rewrite Habs1. apply insert_delete_eq.
Qed.

Lemma insert_abs a (node : bool) h k v flags d h' r evs :
  ht_wf h -> uniq h -> test_flag flags HASHTABLE_DUP_CHECK = true ->
  switch_hashtable_insert_destructor a node h k v flags d = Some (h', r, evs) ->
  ht_wf h' /\ uniq h' /\ r = (if node then -1 else 0)
  /\ abs h' = (if node then <[canon k := v]> (abs h) else delete (canon k) (abs h)).
Proof. intros Hwf Hu Hd Hi. by destruct (insert_by e_v _ _ _ _ _ _ _ _ _ _ Hwf Hu Hd Hi) as (? & ? & ? & _ & ?). Qed.


(** *** Iterating *)

Definition kv e : K * option V := (e_k e, e_v e).

Lemma next_bucket_spec (t : list (list (entry K V D))) p :
  match next_bucket t p with
  | None => concat t = []
  | Some i => p <= pos i /\ cur i <> []
              /\ concat t = cur i ++ concat (drop (S (Z.to_nat (pos i - p))) t)
  end.
Proof.
  revert p. induction t as [|[|e c] t IH]; intros p; simpl; [done| |].
  - specialize (IH (p + 1)). destruct (next_bucket t (p + 1)) as [i|]; [|done].
    destruct IH as (? & ? & ->). split; [lia|]. split; [done|]. do 3 f_equal. lia.
  - split; [lia|]. split; [done|]. rewrite Z.sub_diag. simpl. by rewrite drop_0.
Qed.

(** What an iterator still has to visit, its current entry included. *)
Definition remaining h (i : iterator K V D) : list (entry K V D) :=
  cur i ++ concat (drop (S (Z.to_nat (pos i))) (table h)).

Lemma scan_spec h p :
  0 <= p ->
  match next_bucket (drop (Z.to_nat p) (table h)) p with
  | None => concat (drop (Z.to_nat p) (table h)) = []
  | Some i => 0 <= pos i /\ cur i <> [] /\ concat (drop (Z.to_nat p) (table h)) = remaining h i
  end.
Proof.
  intros Hp. pose proof (next_bucket_spec (drop (Z.to_nat p) (table h)) p) as Hs.
  destruct (next_bucket _ p) as [i|]; [|done]. destruct Hs as (? & ? & ->).
  split; [lia|]. split; [done|]. unfold remaining. rewrite drop_drop. do 3 f_equal. lia.
Qed.

Lemma next_spec h i :
  0 <= pos i -> cur i <> [] ->
  match switch_hashtable_next h i with
  | None => exists e, remaining h i = [e] /\ switch_hashtable_this i = Some (kv e)
  | Some j => 0 <= pos j /\ cur j <> []
      /\ exists e, remaining h i = e :: remaining h j /\ switch_hashtable_this i = Some (kv e)
  end.
Proof.
  intros Hp Hc. unfold switch_hashtable_next, switch_hashtable_this.
  assert (remaining h i = cur i ++ concat (drop (S (Z.to_nat (pos i))) (table h))) as -> by done.
  destruct (cur i) as [|e [|e' c]]; [done| |].
  - pose proof (scan_spec h (pos i + 1) ltac:(lia)) as Hs.
    replace (Z.to_nat (pos i + 1)) with (S (Z.to_nat (pos i))) in * by lia.
    destruct (next_bucket _ _) as [j|].
    + destruct Hs as (? & ? & Hj). rewrite Hj. eauto.
    + rewrite Hs. eauto.
  - split; [done|]. split; [done|]. exists e. done.
Qed.

Lemma iterate_spec h fuel : forall i,
  0 <= pos i -> cur i <> [] -> (length (remaining h i) <= fuel)%nat ->
  iterate fuel h (Some i) = kv <$> remaining h i.
Proof.
  induction fuel as [|fuel IH]; intros i Hp Hc Hlen.
  - unfold remaining in Hlen. destruct (cur i); [done|simpl in Hlen; lia].
  - simpl. pose proof (next_spec h i Hp Hc) as Hn.
    destruct (switch_hashtable_next h i) as [j|].
    + destruct Hn as (? & ? & e & Hrem & ->). rewrite Hrem in *. simpl in *.
      rewrite IH; auto with lia.
    + destruct Hn as (e & -> & ->). by destruct fuel.
Qed.

Lemma iterate_entries h fuel :
  (length (entries h) <= fuel)%nat ->
  iterate fuel h (switch_hashtable_first_iter h) = kv <$> entries h.
Proof.
  intros Hf. unfold switch_hashtable_first_iter, switch_hashtable_next. simpl.
  pose proof (scan_spec h 0 ltac:(lia)) as Hs. simpl in Hs. unfold entries in *.
  destruct (next_bucket _ 0) as [i|]; rewrite drop_0 in Hs.
  - destruct Hs as (? & ? & Hs). rewrite Hs in *. by apply iterate_spec.
  - rewrite Hs. by destruct fuel.
Qed.

(** *** Creating *)

Lemma find_prime_spec minsize p n :
  minsize < 1610612741 -> find_prime primes minsize 0 = (p, n) ->
  0 <= n /\ primes !! Z.to_nat n = Some p /\ minsize < p.
Proof.
  intros Hm. unfold primes. simpl. repeat match goal with
  | |- context [?q >? minsize] => destruct (Z.gtb_spec q minsize); [intros [= <- <-]; repeat split; done || lia|]
  end. lia.
Qed.

Lemma create_wf minsize hf ef h :
  KeyLaws canon hf ef ->
  switch_create_hashtable minsize hf ef = (SWITCH_STATUS_SUCCESS, Some h) ->
  ht_wf h /\ uniq h /\ entries h = [] /\ abs h = ∅ /\ minsize < tablelength h.
Proof.
  intros Hl. unfold switch_create_hashtable. destruct (Z.gtb_spec minsize (Z.shiftl 1 30)); [done|].
  destruct (find_prime primes minsize 0) as [p n] eqn:Hp. intros [= <-].
  apply (find_prime_spec minsize) in Hp as (? & Hn & ?); [|change (Z.shiftl 1 30) with 1073741824 in *; lia].
  assert (0 < p) by (by eapply primes_step).
  assert (concat (replicate (Z.to_nat p) (@nil (entry K V D))) = []) as Hnil by apply concat_replicate_nil.
  unfold uniq, abs, entries. simpl. rewrite Hnil. split; [|split; [constructor|done]].
  constructor; simpl; auto.
  - rewrite zlen_replicate. lia.
  - intros i c Hi. apply lookup_replicate_1 in Hi as [-> _]. constructor.
  - unfold entries. simpl. by rewrite Hnil.
Qed.

(** ** Operation sequences against the finite map *)

Inductive ht_op :=
| Insert (a : alloc_outcome) (node : bool) (k : K) (v : option V) (flags : Z) (d : option D)
| Remove (k : K)
| Search (k : K)
| Count.

(** The observable result of an operation: a value pointer, a number, and what
    is done to keys and values handed over. *)
Definition ht_step h (o : ht_op) : option (switch_hashtable K V D * (option V * Z * list (mem_event K V D))) :=
  match o with
  | Insert a node k v flags d =>
    '(h', r, evs) ← switch_hashtable_insert_destructor a node h k v flags d; Some (h', (None, r, evs))
  | Remove k => let '(h', v, evs) := switch_hashtable_remove h k in Some (h', (v, 0, evs))
  | Search k => Some (h, (switch_hashtable_search h k, 0, []))
  | Count => Some (h, (None, switch_hashtable_count h, []))
  end.

(** The specification: a map from keys, up to the table's equality, to what was
    inserted last for them.  When a binding goes, the table frees the key it was
    given to own, and frees or destroys the value, which is then not returned. *)
Record binding := Binding { b_key : K; b_value : option V; b_flags : Z; b_destructor : option D }.

Definition given_back (b : binding) : option V :=
  if test_flag (b_flags b) HASHTABLE_FLAG_FREE_VALUE || bool_decide (is_Some (b_destructor b)) then None else b_value b.

Definition disposed (b : binding) : list (mem_event K V D) :=
  (if test_flag (b_flags b) HASHTABLE_FLAG_FREE_KEY then [FreeKey (b_key b)] else [])
  ++ (if test_flag (b_flags b) HASHTABLE_FLAG_FREE_VALUE then [FreeValue (b_value b)]
      else match b_destructor b with Some d => [CallDestructor d (b_value b)] | None => [] end).

Definition map_step (m : gmap C binding) (o : ht_op) : gmap C binding * (option V * Z * list (mem_event K V D)) :=
  match o with
  | Insert _ true k v flags d => (<[canon k := Binding k v flags d]> m, (None, -1, from_option disposed [] (m !! canon k)))
  | Insert _ false k _ _ _ => (delete (canon k) m, (None, 0, from_option disposed [] (m !! canon k)))
  | Remove k => (delete (canon k) m, (m !! canon k ≫= given_back, 0, from_option disposed [] (m !! canon k)))
  | Search k => (m, (m !! canon k ≫= b_value, 0, []))
  | Count => (m, (None, u32 (Z.of_nat (size m)), []))
  end.

Fixpoint ht_run h (os : list ht_op) : option (list (option V * Z * list (mem_event K V D))) :=
  match os with
  | [] => Some []
  | o :: os => '(h', r) ← ht_step h o; rs ← ht_run h' os; Some (r :: rs)
  end.

Fixpoint map_run (m : gmap C binding) (os : list ht_op) : list (option V * Z * list (mem_event K V D)) :=
  match os with
  | [] => []
  | o :: os => let '(m', r) := map_step m o in r :: map_run m' os
  end.

(** Insertions check for duplicates. *)
Definition ht_op_ok (o : ht_op) : Prop :=
  match o with Insert _ _ _ _ flags _ => test_flag flags HASHTABLE_DUP_CHECK = true | _ => True end.

(** The insertion comes to the [reallocarray] branch of hashtable_expand: the
    table without the key, plus one, exceeds the load limit, a larger size is
    left, calloc has failed and reallocarray has not. *)
Definition realloc_grows h (o : ht_op) : bool :=
  match o with
  | Insert ReallocOk _ k _ _ _ =>
    let '(h1, _, _) := switch_hashtable_remove h k in
    (u32 (entrycount h1 + 1) >? loadlimit h1) && negb (primeindex h1 =? prime_table_length - 1)
  | _ => false
  end.

Fixpoint realloc_reached h (os : list ht_op) : bool :=
  match os with
  | [] => false
  | o :: os => realloc_grows h o || match ht_step h o with Some (h', _) => realloc_reached h' os | None => false end
  end.

Lemma primes_next i p :
  0 <= i -> primes !! Z.to_nat i = Some p -> i <> prime_table_length - 1 ->
  exists q, primes !! Z.to_nat (i + 1) = Some q /\ load_limit p < load_limit q.
Proof.
  intros Hi Hp Hne. pose proof (lookup_lt_Some _ _ _ Hp) as Hlt.
  change (length primes) with 26%nat in Hlt. change (prime_table_length - 1) with 25 in Hne.
  replace (Z.to_nat (i + 1)) with (S (Z.to_nat i)) by lia.
  assert (Z.to_nat i < 25)%nat as Hlt25 by lia. revert Hp Hlt25. generalize (Z.to_nat i). clear.
  intros n Hp Hn. do 25 (destruct n as [|n]; [injection Hp as <-; eexists; split; [reflexivity|vm_compute; reflexivity]|]).
  lia.
Qed.

Lemma expand_defined a h n :
  ht_wf h -> a <> ReallocOk -> is_Some (hashtable_expand a (with_table (table h) n h)).
Proof.
  intros [] Ha. unfold hashtable_expand. simpl.
  destruct (Z.eqb_spec (primeindex h) (prime_table_length - 1)); [by eexists|].
  destruct wf_prime0 as [Hi Hp]. destruct (primes_next _ _ Hi Hp) as (q & -> & _); [done|].
  destruct a; [by eexists|done|by eexists].
Qed.

Lemma insert_defined a (node : bool) h k v flags d :
  ht_wf h -> a <> ReallocOk ->
  is_Some (switch_hashtable_insert_destructor a node h k v flags d).
Proof.
  intros Hwf Ha. rewrite insert_split.
  assert (exists h1 v1 evs, (if test_flag flags HASHTABLE_DUP_CHECK then switch_hashtable_remove h k
                             else (h, None, [])) = (h1, v1, evs) /\ ht_wf h1) as (h1 & v1 & evs & -> & Hwf1).
  { destruct (test_flag _ _); [|by do 3 eexists].
    destruct (switch_hashtable_remove h k) as [[h1 v1] evs] eqn:Hr.
    exists h1, v1, evs. split; [done|].
    destruct (remove_cases h k h1 v1 evs Hwf Hr) as [(_ & -> & _)|(? & ? & ? & _ & _ & _ & _ & ? & _)]; done. }
  cbv zeta. destruct (expand_defined a h1 (u32 (entrycount h1 + 1)) Hwf1 Ha) as [[h3 r] Hx].
  destruct (_ >? _); [rewrite Hx|]; simpl; by destruct node; eexists.
Qed.

(** With the branch left out, growing is the same as not growing or as failing to. *)
Lemma insert_outcomes (node : bool) h k v flags d : test_flag flags HASHTABLE_DUP_CHECK = true -> ht_wf h ->
  switch_hashtable_insert_destructor ReallocOk node h k v flags d
  = if realloc_grows h (Insert ReallocOk node k v flags d) then None
    else switch_hashtable_insert_destructor AllocFails node h k v flags d.
Proof.
  intros Hd Hwf. rewrite !insert_split, Hd. cbn [realloc_grows]. destruct (switch_hashtable_remove h k) as [[h1 v1] evs] eqn:Hr.
  cbv zeta. cbn [entrycount loadlimit with_table]. destruct (_ >? loadlimit h1); [|done]. cbn [andb].
  unfold hashtable_expand. cbn [primeindex with_table]. destruct (Z.eqb_spec (primeindex h1) (prime_table_length - 1)); [done|].
  cbn [negb]. by destruct (primes !! _).
Qed.

Definition slot e : binding := Binding (e_k e) (e_v e) (e_flags e) (e_destructor e).
Definition slots h : gmap C binding := map_by slot (entries h).

Lemma size_slots h : uniq h -> Z.of_nat (size (slots h)) = zlen (entries h).
Proof.
  intros Hu. unfold slots, map_by, zlen. rewrite map_size_list_to_map by (by rewrite keys_fst).
  by rewrite length_fmap.
Qed.

Lemma release_slot e : release e = (disposed (slot e), given_back (slot e)).
Proof.
  unfold release, disposed, given_back, slot. cbn. destruct (test_flag (e_flags e) HASHTABLE_FLAG_FREE_VALUE); [done|].
  destruct (e_destructor e); [done|]. by rewrite app_nil_r.
Qed.

Lemma remove_result h k h' v evs : ht_wf h -> uniq h -> switch_hashtable_remove h k = (h', v, evs) ->
  v = slots h !! canon k ≫= given_back /\ evs = from_option disposed [] (slots h !! canon k).
Proof.
  intros Hwf Hu Hr. unfold slots.
  destruct (remove_cases h k h' v evs Hwf Hr) as [(Hk & _ & -> & ->)|(es1 & e & es2 & He & _ & Hk & Hrel & _)].
  - by rewrite map_by_absent.
  - rewrite <-Hk, map_by_elem by (done || rewrite He; set_solver). rewrite release_slot in Hrel. by injection Hrel as -> ->.
Qed.

Lemma search_slots h k : ht_wf h -> uniq h -> switch_hashtable_search h k = slots h !! canon k ≫= b_value.
Proof.
  intros Hwf Hu. rewrite search_abs by done. unfold slots. change (abs h) with (map_of (entries h)).
  destruct (decide (canon k ∈ keys (entries h))) as [(e & -> & He)%list_elem_of_fmap|Hn].
  - cbn. rewrite map_of_elem, map_by_elem by done. done.
  - by rewrite map_of_absent, map_by_absent.
Qed.

Lemma step_map h o :
  ht_wf h -> uniq h -> ht_op_ok o -> realloc_grows h o = false ->
  exists h', ht_step h o = Some (h', (map_step (slots h) o).2)
    /\ ht_wf h' /\ uniq h' /\ slots h' = (map_step (slots h) o).1.
Proof.
  intros Hwf Hu Hok Hg. destruct o as [a node k v flags d|k|k|]; cbn [ht_step map_step ht_op_ok] in *.
  - assert (exists a', a' <> ReallocOk /\ switch_hashtable_insert_destructor a node h k v flags d
      = switch_hashtable_insert_destructor a' node h k v flags d) as (a' & Ha & ->).
    { destruct a; [by exists CallocOk| |by exists AllocFails]. exists AllocFails. split; [done|].
      by rewrite insert_outcomes, Hg. }
    destruct (insert_defined a' node h k v flags d Hwf Ha) as [[[h' r] evs] Hi].
    rewrite Hi. destruct (insert_by slot a' node h k v flags d h' r evs Hwf Hu Hok Hi) as (? & ? & -> & -> & Habs).
    destruct (switch_hashtable_remove h k) as [[h1 v1] evs1] eqn:Hr.
    destruct (remove_result h k h1 v1 evs1 Hwf Hu Hr) as [_ ->]. exists h'. by destruct node.
  - destruct (switch_hashtable_remove h k) as [[h' v] evs] eqn:Hr.
    destruct (remove_by slot h k h' v evs Hwf Hu Hr) as (? & ? & _ & _ & Habs).
    destruct (remove_result h k h' v evs Hwf Hu Hr) as [-> ->]. by exists h'.
  - exists h. by rewrite search_slots.
  - exists h. unfold switch_hashtable_count. by rewrite (wf_count h Hwf), size_slots.
Qed.

Lemma realloc_undefined h o : ht_wf h -> ht_op_ok o -> realloc_grows h o = true -> ht_step h o = None.
Proof.
  intros Hwf Hok Hg. destruct o as [a node k v flags d| | |]; try done. destruct a; try done.
  cbn [ht_step]. by rewrite insert_outcomes, Hg.
Qed.

Lemma run_map os : forall h,
  ht_wf h -> uniq h -> Forall ht_op_ok os ->
  ht_run h os = if realloc_reached h os then None else Some (map_run (slots h) os).
Proof.
  induction os as [|o os IH]; intros h Hwf Hu Hok; [done|].
  inversion_clear Hok as [|?? Ho Hos]. cbn [ht_run realloc_reached map_run].
  destruct (realloc_grows h o) eqn:Hg; cbn [orb]; [by rewrite realloc_undefined|].
  destruct (step_map h o Hwf Hu Ho Hg) as (h' & -> & ? & ? & Habs). cbn [mbind option_bind].
  destruct (map_step (slots h) o) as [m r]. cbn [fst snd] in *. subst m. rewrite IH by done.
  by destruct (realloc_reached h' os).
Qed.

(** C6: a hash table is a finite map.  A freshly created table, driven by any
    sequence of insertions that check for duplicates, removals, searches and
    counts, with and without memory for a larger table or for an entry, answers
    exactly as a finite map over the keys up to the table's key equality: the
    value a search finds or a removal hands back, the count, and the keys and
    values that are freed or destroyed, each once.  There is one exception, and
    it is exact: the run is undefined if and only if an insertion comes to grow
    the table after calloc has failed and reallocarray has succeeded, where the
    code passes an uninitialised pointer to bzero.  The key functions must fit
    together: the equality compares a canonical form of the keys, and equal keys
    have equal hashes; nothing else is asked of the hash. *)
Theorem hashtable_is_map minsize hf ef h os :
  KeyLaws canon hf ef ->
  switch_create_hashtable minsize hf ef = (SWITCH_STATUS_SUCCESS, Some h) ->
  Forall ht_op_ok os ->
  ht_run h os = if realloc_reached h os then None else Some (map_run ∅ os).
Proof.
  intros Hl Hc Hos. destruct (create_wf minsize hf ef h Hl Hc) as (Hwf & Hu & He & _).
  rewrite (run_map os h Hwf Hu Hos). unfold slots. by rewrite He.
Qed.

(** Iteration is complete.  The first/next loop over a table terminates
    within one step per entry and visits every binding of the map exactly once
    and nothing else. *)
Theorem hashtable_iterate_complete h fuel :
  ht_wf h -> uniq h -> (length (entries h) <= fuel)%nat ->
  (fun '(k, v) => (canon k, v)) <$> iterate fuel h (switch_hashtable_first_iter h)
  ≡ₚ map_to_list (abs h).
Proof.
  intros Hwf Hu Hf. rewrite iterate_entries by done. rewrite <-list_fmap_compose. simpl.
  symmetry. unfold abs. apply map_to_list_to_map. by rewrite (keys_fst e_v).
Qed.

Lemma remove_limits h k h1 v evs :
  ht_wf h -> zlen (entries h) < 2 ^ 32 -> switch_hashtable_remove h k = (h1, v, evs) ->
  0 <= entrycount h1 <= entrycount h /\ loadlimit h1 = loadlimit h /\ primeindex h1 = primeindex h
  /\ primes !! Z.to_nat (primeindex h1) = primes !! Z.to_nat (primeindex h).
Proof.
  intros Hwf Hz Hr. pose proof (wf_count h Hwf) as Hc. pose proof (zlen_nonneg (entries h)).
  assert (0 <= entrycount h) by (rewrite Hc; apply wrap_range; lia).
  pose proof (remove_cases h k h1 v evs Hwf Hr) as Hcase.
  unfold switch_hashtable_remove, _switch_hashtable_remove in Hr.
  destruct Hcase as [(_ & -> & _)|(es1 & e & es2 & He & He' & _ & _ & Hwf1 & _)]; [done|].
  assert (0 <= entrycount h1 <= entrycount h) as Hle.
  { rewrite (wf_count h1 Hwf1), Hc. pose proof (zlen_nonneg (entries h1)).
    assert (zlen (entries h1) <= zlen (entries h)) by (rewrite He, He', !zlen_app, zlen_cons; lia).
    rewrite !wrap_small by lia. lia. }
  split; [done|]. destruct (table h !! _) as [c|]; [|by injection Hr as <- _ _].
  destruct (unlink _ _ _ c) as [[x c']|]; [|by injection Hr as <- _ _].
  destruct (release x). by injection Hr as <- _ _.
Qed.

(** The load stays under the limit.  While the table is below its largest
    size and memory is available, an insertion never leaves more entries than
    65 percent of the table length (the single-precision load limit). *)
Theorem hashtable_load_bounded h k v flags d h' r evs :
  ht_wf h -> zlen (entries h) < 2 ^ 32 ->
  entrycount h <= loadlimit h -> primeindex h < prime_table_length - 1 ->
  switch_hashtable_insert_destructor CallocOk true h k v flags d = Some (h', r, evs) ->
  entrycount h' <= loadlimit h'.
Proof.
  intros Hwf Hz Hle Hpi. rewrite insert_split.
  destruct (if test_flag flags HASHTABLE_DUP_CHECK then _ else _) as [[h1 v1] evs1] eqn:Hr.
  assert (0 <= entrycount h1 <= entrycount h /\ loadlimit h1 = loadlimit h
          /\ primeindex h1 = primeindex h) as (Hc1 & Hl1 & Hp1).
  { destruct (test_flag _ _).
    - destruct (remove_limits _ _ _ _ _ Hwf Hz Hr) as (? & ? & ? & _). done.
    - injection Hr as <- <- <-. split; [|done]. rewrite (wf_count h Hwf). split; [|done].
      apply wrap_range. lia. }
  assert (u32 (entrycount h1 + 1) <= entrycount h1 + 1) by (apply Z.mod_le; lia).
  cbv zeta. simpl. destruct (Z.gtb_spec (u32 (entrycount h1 + 1)) (loadlimit h1)) as [Hgt|]; simpl.
  - unfold hashtable_expand. simpl. rewrite Hp1, (proj2 (Z.eqb_neq _ _)) by lia.
    destruct (wf_prime h Hwf) as [Hi Hp].
    destruct (primes_next _ _ Hi Hp) as (q & -> & Hlt); [lia|]. simpl.
    intros [= <- _ _]. simpl. rewrite (wf_limit h Hwf) in *. lia.
  - intros [= <- _ _]. simpl. lia.
Qed.

End refinement.
(** ** Key functions (switch_hashtable.h)

    The string keys of the switch_hash_t tables, with and without case. *)

Definition switch_hash_equalkeys (k1 k2 : bytes) : bool := streq k1 k2.
Definition switch_hash_equalkeys_ci (k1 k2 : bytes) : bool := strcaseeq k1 k2.

Definition hash_char (hash c : Z) : Z :=
  u32 (c + u32 (Z.shiftl hash 6) + u32 (Z.shiftl hash 16) - hash).

Fixpoint hash_default_loop (s : bytes) (hash : Z) : Z :=
  match s with
  | [] => hash
  | x :: s => let c := u8 x in if c =? 0 then hash else hash_default_loop s (hash_char hash c)
  end.

Definition switch_hash_default (ky : bytes) : Z := hash_default_loop ky 0.

Fixpoint hash_default_ci_loop (s : bytes) (hash : Z) : Z :=
  match s with
  | [] => hash
  | x :: s =>
    let c := switch_tolower (u8 x) in
    if c =? 0 then hash else hash_default_ci_loop s (hash_char hash c)
  end.

Definition switch_hash_default_ci (ky : bytes) : Z := hash_default_ci_loop ky 0.

#[export] Instance default_keys : KeyLaws (fun k : bytes => k) switch_hash_default switch_hash_equalkeys.
Proof. split; [apply streq_spec|]. by intros a b ->. Qed.

Lemma hash_default_ci_lower s : forall t hash,
  tolower <$> s = tolower <$> t -> hash_default_ci_loop s hash = hash_default_ci_loop t hash.
Proof.
  induction s as [|x s IH]; intros [|y t] hash Hst; try done.
  injection Hst as Hxy Hst. simpl. rewrite !switch_tolower_byte, Hxy.
  destruct (tolower y =? 0); [done|]. by apply IH.
Qed.

(** The case-insensitive pair is consistent: the branch-free lower-casing of
    the hash agrees with [strcasecmp]. *)
#[export] Instance default_ci_keys :
  KeyLaws (fun k : bytes => tolower <$> k) switch_hash_default_ci switch_hash_equalkeys_ci.
Proof. split; [apply strcaseeq_spec|]. intros a b Hab. by apply hash_default_ci_lower. Qed.

(** ** Witnesses *)

Definition sample_table : switch_hashtable bytes Z unit :=
  mk_table 53 (replicate 53 []) 0 35 0 switch_hash_default_ci switch_hash_equalkeys_ci.

Definition sample_flags : Z := Z.lor HASHTABLE_FLAG_FREE_KEY HASHTABLE_DUP_CHECK.

Definition sample_run : list (ht_op (K := bytes) (V := Z) (D := unit)) :=
  [Insert CallocOk true (str "Alice") (Some 1) sample_flags None;
   Insert CallocOk true (str "bob") (Some 2) sample_flags None;
   Insert CallocOk true (str "ALICE") (Some 3) sample_flags None;
   Count; Search (str "alice"); Insert ReallocOk false (str "carol") (Some 4) sample_flags (Some tt);
   Remove (str "BOB"); Search (str "bob")].

Lemma sample_run_ok : Forall ht_op_ok sample_run.
Proof. repeat constructor; simpl; done. Qed.

Definition lower_key (k : bytes) : bytes := tolower <$> k.

Lemma create_16 {K V D} hf ef :
  switch_create_hashtable (K := K) (V := V) (D := D) 16 hf ef
  = (SWITCH_STATUS_SUCCESS, Some (mk_table 53 (replicate 53 []) 0 35 0 hf ef)).
Proof. vm_compute. reflexivity. Qed.

Lemma sample_table_created :
  switch_create_hashtable 16 switch_hash_default_ci switch_hash_equalkeys_ci
  = (SWITCH_STATUS_SUCCESS, Some sample_table).
Proof. apply create_16. Qed.

Lemma sample_table_ok : ht_wf lower_key sample_table /\ uniq lower_key sample_table /\ abs lower_key sample_table = ∅.
Proof.
  destruct (create_wf (V := Z) (D := unit) lower_key 16 _ _ sample_table default_ci_keys sample_table_created)
    as (? & ? & _ & ? & _). done.
Qed.

Lemma hashtable_is_map_witness :
  ht_run sample_table sample_run = Some (map_run lower_key ∅ sample_run).
Proof.
  rewrite (hashtable_is_map lower_key 16 switch_hash_default_ci switch_hash_equalkeys_ci).
  - assert (realloc_reached sample_table sample_run = false) as -> by (vm_compute; reflexivity). reflexivity.
  - exact default_ci_keys.
  - exact sample_table_created.
  - exact sample_run_ok.
Defined.

Lemma sample_run_answers :
  ht_run sample_table sample_run
  = Some [(None, -1, []); (None, -1, []); (None, -1, [FreeKey (str "Alice")]); (None, 2, []); (Some 3, 0, []); (None, 0, []);
          (Some 2, 0, [FreeKey (str "bob")]); (None, 0, [])].
Proof. vm_compute. reflexivity. Qed.

(** The table after one insertion. *)
Definition sample_insert : ht_op (K := bytes) (V := Z) (D := unit) :=
  Insert CallocOk true (str "Alice") (Some 1) sample_flags None.

Definition sample_full : switch_hashtable bytes Z unit :=
  default sample_table (fst <$> ht_step sample_table sample_insert).

Lemma sample_full_ok : ht_wf lower_key sample_full /\ uniq lower_key sample_full.
Proof.
  destruct sample_table_ok as (Hwf & Hu & _). unfold sample_full.
  destruct (step_map lower_key sample_table sample_insert Hwf Hu) as (h' & -> & Hwf' & Hu' & _);
    [vm_compute; reflexivity|vm_compute; reflexivity|done].
Qed.

Lemma sample_full_inserted : exists r evs,
  switch_hashtable_insert_destructor CallocOk true sample_table (str "Alice") (Some 1) sample_flags None
  = Some (sample_full, r, evs).
Proof.
  destruct sample_table_ok as (Hwf & _).
  destruct (insert_defined lower_key CallocOk true sample_table (str "Alice") (Some 1) sample_flags None Hwf)
    as [[[h' r] evs] Hi]; [done|].
  exists r, evs. rewrite Hi. unfold sample_full, sample_insert, ht_step. by rewrite Hi.
Qed.

Lemma hashtable_iterate_complete_witness :
  (fun '(k, v) => (lower_key k, v)) <$> iterate 1 sample_full (switch_hashtable_first_iter sample_full)
  ≡ₚ map_to_list (abs lower_key sample_full).
Proof.
  apply (hashtable_iterate_complete lower_key).
  - apply sample_full_ok.
  - apply sample_full_ok.
  - vm_compute. constructor.
Defined.

Lemma hashtable_load_bounded_witness :
  entrycount sample_full <= loadlimit sample_full.
Proof.
  destruct sample_full_inserted as (r & evs & Hi).
  apply (hashtable_load_bounded lower_key sample_table (str "Alice") (Some 1) sample_flags None sample_full r evs).
  - apply sample_table_ok.
  - vm_compute. reflexivity.
  - vm_compute. discriminate.
  - vm_compute. reflexivity.
  - exact Hi.
Defined.

End HashTable.
