(* ===== verification/Encoding.v ===== *)
(** * Encodings of switch_utils.c

    Base64 (switch_b64_encode, switch_b64_decode), percent encoding
    (switch_url_encode, switch_url_decode), XML entities (switch_amp_encode),
    POSIX shell quoting (switch_util_quote_shell_arg_pool) and the RFC 2833
    digit codes.  The routines write consecutive bytes of an output buffer: the
    model returns the bytes they write, terminating NUL included, so the length
    of the result is the number of bytes of the buffer that are touched. *)

From S2P Require Import Prelude CString.

Module Encoding.
Import CString.

(** ** Base64 *)

Definition switch_b64_table : bytes :=
  str "ABCDEFGHIJKLMNOPQRSTUVWXYZabcdefghijklmnopqrstuvwxyz0123456789+/".

Definition b64_char (i : Z) : Z := nth (Z.to_nat i) switch_b64_table 0.

(** The inner [while (l >= 6)] loop; the boolean is the [goto end] of a full
    buffer.  (The source's line counter [y] has no effect: the line break it
    counted for is commented out.) *)
Fixpoint b64_encode_emit (fuel : nat) (olen b l : Z) (out : bytes) : bool * Z * bytes :=
  match fuel with
  | O => (false, l, out)
  | S fuel =>
    if 6 <=? l then
      let l := l - 6 in
      let out := out ++ [b64_char (Z.shiftr b l mod 64)] in
      if s32 olen - 1 <=? zlen out then (true, l, out)
      else b64_encode_emit fuel olen b l out
    else (false, l, out)
  end.

(** [while (l < 6 && bytes < (int)olen - 1) out[bytes++] = '=', l += 2;] *)
Fixpoint b64_encode_pad (fuel : nat) (olen l : Z) (out : bytes) : bytes :=
  match fuel with
  | O => out
  | S fuel =>
    if (l <? 6) && (zlen out <? s32 olen - 1) then b64_encode_pad fuel olen (l + 2) (out ++ [61])
    else out
  end.

Fixpoint b64_encode_loop (ins : bytes) (olen b l : Z) (out : bytes) : bytes :=
  match ins with
  | x :: ins =>
    let b := u32 (Z.shiftl b 8 + x) in
    let l := l + 8 in
    let '(full, l, out) := b64_encode_emit (Z.to_nat l) olen b l out in
    if full then out else b64_encode_loop ins olen b l out
  | [] =>
    let out := if 0 <? l then out ++ [b64_char (Z.shiftl (b mod 16) (6 - l) mod 64)] else out in
    if l =? 0 then out else b64_encode_pad 3 olen l out
  end.

(** The bytes written to [out]. *)
Definition switch_b64_encode (ins : bytes) (olen : Z) : bytes :=
  b64_encode_loop ins olen 0 0 [] ++ [0].

(** [l64[c]]: the position of [c] in the table, -1 when it is not there.  The
    array is indexed by a plain (signed) [char]: a byte from 128 up reads
    before the array, which has no value. *)
Definition l64 (c : Z) : option Z :=
  if c <? 128 then Some (default (-1) (strchr switch_b64_table c)) else None.

Fixpoint b64_decode_emit (fuel : nat) (olen b l : Z) (out : bytes) : bool * Z * bytes :=
  match fuel with
  | O => (false, l, out)
  | S fuel =>
    if 8 <=? l then
      let l := l - 8 in
      let out := out ++ [u8 (Z.rem (Z.shiftr b l) 256)] in
      if (olen -u 2) <=? zlen out then (true, l, out)
      else b64_decode_emit fuel olen b l out
    else (false, l, out)
  end.

(** [int] arithmetic in two's complement. *)
Fixpoint b64_decode_loop (ins : bytes) (olen b l : Z) (out : bytes) : option bytes :=
  match ins with
  | [] => Some out
  | ch :: ins =>
    c ← l64 ch;
    if c =? -1 then b64_decode_loop ins olen b l out
    else
      let b := s32 (Z.shiftl b 6 + c) in
      let l := l + 6 in
      let '(full, l, out) := b64_decode_emit (Z.to_nat l) olen b l out in
      if full then Some out else b64_decode_loop ins olen b l out
  end.

(** The bytes written to [out]; their number is the routine's result. *)
Definition switch_b64_decode (ins : bytes) (olen : Z) : option bytes :=
  (fun out => out ++ [0]) <$> b64_decode_loop ins olen 0 0 [].

(** ** Percent encoding *)

Definition urlunsafe : bytes := [13; 10; 32; 34] ++ str "#%&+:;<=>?@[\]^`{|}".
Definition hex : bytes := str "0123456789ABCDEF".
Definition hex_char (i : Z) : Z := nth (Z.to_nat i) hex 0.

(** [*p < ' ' || *p > '~' || strchr(urlunsafe, *p)], [*p] a signed char. *)
Definition url_unsafe_char (c : Z) : bool :=
  (swrap 8 c <? 32) || (126 <? swrap 8 c) || bool_decide (is_Some (strchr urlunsafe c)).

Fixpoint url_encode_loop (s : bytes) (len : Z) (out : bytes) : bytes :=
  match s with
  | [] => out
  | c :: s =>
    if len <=? zlen out then out
    else if url_unsafe_char c then
      if len <? zlen out + 3 then out
      else url_encode_loop s len
             (out ++ [37; hex_char (Z.land (Z.shiftr (swrap 8 c) 4) 15); hex_char (Z.land (swrap 8 c) 15)])
    else url_encode_loop s len (out ++ [c])
  end.

(** The bytes written to [buf], NULL pointers excluded. *)
Definition switch_url_encode (url : bytes) (len : Z) : bytes :=
  url_encode_loop url (len -u 1) [] ++ [0].

Definition hexval (c : Z) : option Z :=
  if isdigit c then Some (c - 48)
  else if (65 <=? c) && (c <=? 70) then Some (c - 55)
  else if (97 <=? c) && (c <=? 102) then Some (c - 87)
  else None.

(** [sscanf(s, "%2x", &tmp)] as C specifies it: white space is skipped, then
    at most two bytes of sign, 0x prefix and digits are read; an input item
    that is only a sign or a prefix does not match. *)
Definition sscanf_2x (s : bytes) : option Z :=
  match skip_space s with
  | [] => None
  | a :: s' =>
    if (a =? 43) || (a =? 45) then
      d ← (head s' ≫= hexval); Some (if a =? 45 then u32 (- d) else d)
    else
      x ← hexval a;
      match s' with
      | b :: _ =>
        if (a =? 48) && ((b =? 120) || (b =? 88)) then None
        else match hexval b with Some y => Some (x * 16 + y) | None => Some x end
      | [] => Some x
      end
  end.

(** The bytes the loop leaves at the start of the string, and by how much it
    advances [s]: the pointer the routine returns. *)
Fixpoint url_decode_loop (fuel : nat) (s : bytes) : bytes :=
  match fuel, s with
  | S fuel, c :: s' =>
    match (if (c =? 37) && (2 <? zlen s) then sscanf_2x s' else None) with
    | Some tmp => u8 tmp :: url_decode_loop fuel (drop 2 s')
    | None => c :: url_decode_loop fuel s'
    end
  | _, _ => []
  end.

Definition switch_url_decode (s : bytes) : bytes := url_decode_loop (length s) s.

(** ** XML entities *)

(** What a character is replaced by, none for the default case. *)
Definition amp_entity (c : Z) : option bytes :=
  if c =? 34 then Some (str "&quot;")
  else if c =? 39 then Some (str "&apos;")
  else if c =? 38 then Some (str "&amp;")
  else if c =? 60 then Some (str "&lt;")
  else if c =? 62 then Some (str "&gt;")
  else None.

(** [s] here includes the terminating NUL, which the default case copies. *)
Fixpoint amp_encode_loop (s : bytes) (len : Z) (out : bytes) : bytes :=
  match s with
  | [] => out
  | c :: s =>
    if zlen out <? len then
      match amp_entity c with
      | Some e =>
        if (len -u 1) <? zlen out + zlen e then out else amp_encode_loop s len (out ++ e)
      | None =>
        if (len -u 1) <? zlen out + 1 then out
        else if c =? 0 then out ++ [c]
        else amp_encode_loop s len (out ++ [c])
      end
    else out
  end.

Definition switch_amp_encode (s : bytes) (len : Z) : bytes := amp_encode_loop (s ++ [0]) len [].

(** ** Shell quoting (POSIX branch) *)

Definition quote_count (string : bytes) : Z :=
  foldl (fun dest_len c => if c =? 39 then dest_len + 3 else dest_len) (zlen string + 1 + 1) string + 1.

Fixpoint quote_loop (string : bytes) : bytes :=
  match string with
  | [] => []
  | c :: s => (if c =? 39 then [39; 92; 39; 39] else [c]) ++ quote_loop s
  end.

(** The computed allocation size and the bytes written; the source asserts
    that the sizes agree. *)
Definition switch_util_quote_shell_arg_pool (string : bytes) : Z * bytes :=
  (quote_count string, [39] ++ quote_loop string ++ [39] ++ [0]).

(** ** RFC 2833 *)

Definition RFC2833_CHARS : bytes := str "0123456789*#ABCDF".

(** [sizeof(RFC2833_CHARS)] counts the NUL, which is what event 17 gives. *)
Definition switch_rfc2833_to_char (event : Z) : Z :=
  if (-1 <? event) && (event <? zlen RFC2833_CHARS + 1) then nth (Z.to_nat event) (RFC2833_CHARS ++ [0]) 0
  else 0.

Fixpoint rfc2833_find (cs : bytes) (key counter : Z) : Z :=
  match cs with
  | [] => 0
  | c :: cs => if c =? key then counter else rfc2833_find cs key (u8 (counter + 1))
  end.

Definition switch_char_to_rfc2833 (key : Z) : Z :=
  rfc2833_find RFC2833_CHARS (u8 (switch_toupper (u32 (swrap 8 key)))) 0.

(** ** Bit strings

    Base64 regroups one bit string: [bits w z] are the low [w] bits of [z],
    most significant first. *)
Fixpoint bits (w : nat) (z : Z) : list bool :=
  match w with O => [] | S w => Z.testbit z (Z.of_nat w) :: bits w z end.

Lemma length_bits w z : length (bits w z) = w.
Proof. induction w; simpl; auto. Qed.

Lemma bits_ext w a b :
  (forall i, 0 <= i < Z.of_nat w -> Z.testbit a i = Z.testbit b i) -> bits w a = bits w b.
Proof.
  induction w as [|w IH]; intros Hi; [done|]. simpl. f_equal; [apply Hi; lia|].
  apply IH. intros. apply Hi. lia.
Qed.

Lemma bits_mod w n z : Z.of_nat w <= n -> bits w (z mod 2 ^ n) = bits w z.
Proof. intros ?. apply bits_ext. intros i ?. apply Z.mod_pow2_bits_low. lia. Qed.

Lemma bits_s32 w z : Z.of_nat w <= 32 -> bits w (s32 z) = bits w z.
Proof.
  intros ?. rewrite <-(bits_mod w 32), <-(bits_mod w 32 z) by done. f_equal.
  unfold swrap. rewrite Zminus_mod_idemp_l. f_equal. lia.
Qed.

Lemma bits_app a b z : bits (a + b) z = bits a (Z.shiftr z (Z.of_nat b)) ++ bits b z.
Proof.
  induction a as [|a IH]; [done|]. simpl. f_equal; [|done].
  rewrite Z.shiftr_spec by lia. f_equal. lia.
Qed.

Lemma bits_shift_in w k z x :
  0 <= x < 2 ^ Z.of_nat k -> bits (w + k) (Z.shiftl z (Z.of_nat k) + x) = bits w z ++ bits k x.
Proof.
  intros Hx. rewrite bits_app, Z.shiftl_mul_pow2 by lia. f_equal.
  - f_equal. rewrite Z.shiftr_div_pow2, Z.div_add_l by lia. rewrite Z.div_small by lia. lia.
  - rewrite <-(bits_mod k (Z.of_nat k)) by lia. f_equal.
    rewrite Z.add_comm, Z.mod_add by lia. by apply Z.mod_small.
Qed.

Lemma bits_inj w a b : 0 <= a < 2 ^ Z.of_nat w -> 0 <= b < 2 ^ Z.of_nat w -> bits w a = bits w b -> a = b.
Proof.
  intros Ha Hb Heq. apply Z.bits_inj'. intros n Hn.
  destruct (Z_lt_le_dec n (Z.of_nat w)) as [Hlt|Hge].
  - revert Heq Hlt. clear Ha Hb. induction w as [|w IH]; [lia|]. simpl. intros [= Ht Heq] Hlt.
    destruct (decide (n = Z.of_nat w)) as [->|]; [done|]. apply IH; [done|lia].
  - assert (forall c, 0 <= c < 2 ^ Z.of_nat w -> Z.testbit c n = false) as Hhigh; [|by rewrite !Hhigh].
    intros c Hc. rewrite <-(Z.mod_small c (2 ^ Z.of_nat w)) by done. apply Z.mod_pow2_bits_high. lia.
Qed.

(** The bits of a sequence of [w]-bit digits. *)
Definition stream (w : nat) (l : list Z) : list bool := concat (bits w <$> l).

Lemma stream_snoc w l x : stream w (l ++ [x]) = stream w l ++ bits w x.
Proof. unfold stream. rewrite fmap_app, concat_app. simpl. by rewrite app_nil_r. Qed.

Lemma length_stream w l : length (stream w l) = (length l * w)%nat.
Proof. unfold stream. induction l as [|x l IH]; [done|]. rewrite fmap_cons. simpl. by rewrite length_app, length_bits, IH. Qed.

Definition digits_ok (w : nat) (l : list Z) : Prop := Forall (fun x => 0 <= x < 2 ^ Z.of_nat w) l.

Lemma stream_inj w l m r r' :
  digits_ok w l -> digits_ok w m -> length l = length m -> stream w l ++ r = stream w m ++ r' -> l = m.
Proof.
  intros Hl. revert m. induction Hl as [|x l Hx Hl IH]; intros [|y m] Hm Hlen Heq; try done.
  inversion_clear Hm as [|?? Hy Hm']. unfold stream in Heq. simpl in Heq. rewrite <-!app_assoc in Heq.
  apply app_inj_1 in Heq as [Hxy Heq]; [|by rewrite !length_bits].
  f_equal; [by eapply bits_inj|]. eapply IH; [done|by injection Hlen|done].
Qed.

(** ** Base64 round trip *)

(** The base64 digits a text carries: the bytes of the table, in order. *)
Lemma l64_char s : 0 <= s < 64 -> l64 (b64_char s) = Some s.
Proof.
  intros Hs. pose proof (byte_cases (fun s => if s <? 64 then bool_decide (l64 (b64_char s) = Some s) else true) s) as Hb.
  cbv beta in Hb. rewrite (proj2 (Z.ltb_lt s 64)) in Hb by lia.
  eapply bool_decide_eq_true, Hb; [vm_compute; reflexivity|lia].
Qed.

Lemma l64_eq : l64 61 = Some (-1).
Proof. reflexivity. Qed.

(** The state of the encoder after [done] input bytes: [ss] digits written and
    [l] bits of [b] pending. *)
Definition enc_inv (consumed : bytes) (ss : list Z) (b l : Z) : Prop :=
  digits_ok 6 ss /\ 0 <= l /\ stream 8 consumed = stream 6 ss ++ bits (Z.to_nat l) b.

Lemma mod64_digit z : 0 <= z mod 64 < 2 ^ Z.of_nat 6.
Proof. apply Z.mod_pos_bound. lia. Qed.

Lemma bits_mod64 z : bits 6 (z mod 64) = bits 6 z.
Proof. apply (bits_mod 6 6). lia. Qed.

Lemma emit_enc fuel : forall olen consumed ss b l,
  enc_inv consumed ss b l -> (Z.to_nat l <= fuel)%nat -> l <= 32 ->
  6 * (s32 olen - 1) > 8 * zlen consumed ->
  exists ss' l', b64_encode_emit fuel olen b l (b64_char <$> ss) = (false, l', b64_char <$> ss')
    /\ enc_inv consumed ss' b l' /\ l' < 6.
Proof.
  induction fuel as [|fuel IH]; intros olen consumed ss b l Hinv Hf Hl Hroom; simpl.
  { exists ss, l. split_and!; [done|done|]. destruct Hinv as (_ & ? & _). lia. }
  destruct (Z.leb_spec 6 l) as [Hge|Hlt]; [|by exists ss, l].
  destruct Hinv as (Hss & Hl0 & Hst).
  set (d := Z.shiftr b (l - 6) mod 64).
  assert (enc_inv consumed (ss ++ [d]) b (l - 6)) as Hinv'.
  { split_and!; [|lia|].
    - apply Forall_app. split; [done|]. constructor; [apply mod64_digit|constructor].
    - rewrite stream_snoc, Hst, <-app_assoc. f_equal. unfold d. rewrite bits_mod64.
      replace (Z.to_nat l) with (6 + Z.to_nat (l - 6))%nat by lia. rewrite bits_app. do 3 f_equal. lia. }
  assert (zlen (b64_char <$> ss ++ [d]) < s32 olen - 1) as Hsmall.
  { destruct Hinv' as (_ & _ & Hst'). apply (f_equal length) in Hst'.
    rewrite length_app, !length_stream in Hst'. unfold zlen in *. rewrite length_fmap. lia. }
  replace ((b64_char <$> ss) ++ [b64_char d]) with (b64_char <$> ss ++ [d]) by by rewrite fmap_app.
  rewrite (proj2 (Z.leb_gt _ _)) by done. apply IH; [done|lia|lia|done].
Qed.

Definition bytes_ok (s : bytes) : Prop := Forall (fun x => 0 <= x < 256) s.

Lemma digits_bytes s : digits_ok 8 s <-> bytes_ok s.
Proof. done. Qed.

Lemma enc_inv_step consumed ss b l x :
  enc_inv consumed ss b l -> l < 6 -> 0 <= x < 256 ->
  enc_inv (consumed ++ [x]) ss (u32 (Z.shiftl b 8 + x)) (l + 8).
Proof.
  intros (Hss & Hl & Hst) Hl6 Hx. split_and!; [done|lia|].
  rewrite stream_snoc, Hst, <-app_assoc. f_equal. unfold wrap. rewrite bits_mod by lia.
  replace (Z.to_nat (l + 8)) with (Z.to_nat l + 8)%nat by lia. by rewrite (bits_shift_in _ 8).
Qed.

(** The digit of the last, incomplete group: its bits, then zeros. *)
Lemma last_digit b l :
  l = 2 \/ l = 4 ->
  bits 6 (Z.shiftl (b mod 16) (6 - l) mod 64) = bits (Z.to_nat l) b ++ replicate (Z.to_nat (6 - l)) false.
Proof.
  intros Hl. rewrite bits_mod64, <-(bits_mod (Z.to_nat l) 4 b) by lia.
  change (2 ^ 4) with 16. generalize (b mod 16). intros c.
  replace 6%nat with (Z.to_nat l + Z.to_nat (6 - l))%nat by lia.
  rewrite <-(Z.add_0_r (Z.shiftl c (6 - l))).
  replace (6 - l) with (Z.of_nat (Z.to_nat (6 - l))) at 2 by lia. rewrite bits_shift_in by lia.
  f_equal. by destruct Hl as [-> | ->].
Qed.

(** What the encoder writes when the buffer is large enough. *)
Lemma encode_text ins : forall olen consumed ss b l,
  enc_inv consumed ss b l -> l < 6 -> bytes_ok ins ->
  4 * ((zlen (consumed ++ ins) + 2) / 3) + 1 < s32 olen ->
  exists ss' pad z, b64_encode_loop ins olen b l (b64_char <$> ss) = (b64_char <$> ss') ++ replicate pad 61
    /\ digits_ok 6 ss' /\ stream 6 ss' = stream 8 (consumed ++ ins) ++ replicate z false
    /\ (z < 6)%nat /\ zlen ss' + Z.of_nat pad = 4 * ((zlen (consumed ++ ins) + 2) / 3).
Proof.
  induction ins as [|x ins IH]; intros olen consumed ss b l Hinv Hl Hok Hroom.
  - rewrite app_nil_r in *. destruct Hinv as (Hss & Hl0 & Hst).
    assert (8 * zlen consumed = 6 * zlen ss + l) as Hcount.
    { apply (f_equal length) in Hst. rewrite length_app, !length_stream, length_bits in Hst. unfold zlen. lia. }
    assert (l = 0 \/ l = 2 \/ l = 4) as Hcases by lia. simpl.
    destruct Hcases as [-> | Hcases].
    { exists ss, 0%nat, 0%nat. simpl in *. rewrite !app_nil_r in *. split_and!; [done|done|done|lia|].
      zdiv. }
    rewrite (proj2 (Z.ltb_lt 0 l)), (proj2 (Z.eqb_neq l 0)) by lia.
    pose proof (last_digit b l Hcases) as Hlast.
    set (d := Z.shiftl (b mod 16) (6 - l) mod 64) in *.
    assert (0 <= d < 64) as Hd by apply mod64_digit.
    exists (ss ++ [d]), (Z.to_nat ((6 - l) / 2)), (Z.to_nat (6 - l)).
    assert (stream 6 (ss ++ [d]) = stream 8 consumed ++ replicate (Z.to_nat (6 - l)) false) as Hst'.
    { by rewrite stream_snoc, Hlast, Hst, app_assoc. }
    split_and!; [|by apply Forall_app_2; [|constructor]|done|lia|].
    + rewrite fmap_app, <-app_assoc. simpl.
      assert (zlen (b64_char <$> ss) = zlen ss) by (unfold zlen; by rewrite length_fmap).
      unfold b64_encode_pad. destruct Hcases as [-> | ->]; simpl;
        repeat (rewrite zlen_app, ?zlen_cons, ?zlen_nil; rewrite (proj2 (Z.ltb_lt _ _)) by zdiv; simpl);
        by rewrite <-?app_assoc.
    + rewrite zlen_app, zlen_cons, zlen_nil. destruct Hcases as [-> | ->]; zdiv.
  - inversion_clear Hok as [|?? Hx Hok']. simpl.
    rewrite cons_middle, app_assoc in *.
    pose proof (enc_inv_step _ _ _ _ x Hinv Hl Hx) as Hinv'.
    destruct (emit_enc (Z.to_nat (l + 8)) olen _ _ _ _ Hinv') as (ss' & l' & -> & Hinv'' & Hl'); [lia|lia| |].
    { rewrite zlen_app in Hroom. pose proof (zlen_nonneg ins). zdiv. }
    by apply IH.
Qed.

Definition dec_inv (read : list Z) (out : bytes) (b l : Z) : Prop :=
  digits_ok 8 out /\ 0 <= l /\ stream 6 read = stream 8 out ++ bits (Z.to_nat l) b.

Lemma rem256 z : u8 (Z.rem z 256) = z mod 256.
Proof.
  unfold wrap. change (2 ^ 8) with 256.
  assert (Z.rem z 256 = z - 256 * Z.quot z 256) as -> by (pose proof (Z.quot_rem' z 256); lia).
  rewrite Z.mul_comm. rewrite <-Z.add_opp_r, <-Z.mul_opp_l. by apply Z.mod_add.
Qed.

Lemma emit_dec fuel : forall olen read out b l,
  dec_inv read out b l -> (Z.to_nat l <= fuel)%nat -> l <= 32 ->
  2 < olen < 2 ^ 63 -> 6 * zlen read < 8 * (olen - 2) ->
  exists out' l', b64_decode_emit fuel olen b l out = (false, l', out')
    /\ dec_inv read out' b l' /\ l' < 8.
Proof.
  induction fuel as [|fuel IH]; intros olen read out b l Hinv Hf Hl Holen Hroom; simpl.
  { exists out, l. split_and!; [done|done|]. destruct Hinv as (_ & ? & _). lia. }
  destruct (Z.leb_spec 8 l) as [Hge|Hlt]; [|by exists out, l].
  destruct Hinv as (Hss & Hl0 & Hst). rewrite rem256.
  assert (dec_inv read (out ++ [Z.shiftr b (l - 8) mod 256]) b (l - 8)) as Hinv'.
  { split_and!; [|lia|].
    - apply Forall_app. split; [done|]. constructor; [apply Z.mod_pos_bound; lia|constructor].
    - rewrite stream_snoc, Hst, <-app_assoc. f_equal. rewrite (bits_mod 8 8) by lia.
      replace (Z.to_nat l) with (8 + Z.to_nat (l - 8))%nat by lia. rewrite bits_app. do 3 f_equal. lia. }
  pose proof Hinv' as (_ & _ & Hst'). apply (f_equal length) in Hst'.
  rewrite length_app, !length_stream in Hst'. cint.
  rewrite (proj2 (Z.leb_gt _ _)) by (unfold zlen in *; lia).
  apply IH; [done|lia|lia|done|done].
Qed.

Lemma dec_inv_step read out b l x :
  dec_inv read out b l -> l < 8 -> 0 <= x < 64 ->
  dec_inv (read ++ [x]) out (s32 (Z.shiftl b 6 + x)) (l + 6).
Proof.
  intros (Hss & Hl & Hst) Hl6 Hx. split_and!; [done|lia|].
  rewrite stream_snoc, Hst, <-app_assoc. f_equal. rewrite bits_s32 by lia.
  replace (Z.to_nat (l + 6)) with (Z.to_nat l + 6)%nat by lia. by rewrite (bits_shift_in _ 6).
Qed.

Lemma decode_pad pad olen b l out : b64_decode_loop (replicate pad 61) olen b l out = Some out.
Proof. induction pad as [|pad IH]; [done|]. simpl. exact IH. Qed.

Lemma decode_digits ss : forall pad olen read out b l,
  dec_inv read out b l -> l < 8 -> digits_ok 6 ss ->
  2 < olen < 2 ^ 63 -> 6 * zlen (read ++ ss) < 8 * (olen - 2) ->
  exists out' b' l', b64_decode_loop ((b64_char <$> ss) ++ replicate pad 61) olen b l out = Some out'
    /\ dec_inv (read ++ ss) out' b' l' /\ l' < 8.
Proof.
  induction ss as [|x ss IH]; intros pad olen read out b l Hinv Hl Hok Holen Hroom.
  { exists out, b, l. rewrite app_nil_r. simpl. by rewrite decode_pad. }
  inversion_clear Hok as [|?? Hx Hok']. change (2 ^ Z.of_nat 6) with 64 in Hx.
  simpl. rewrite l64_char by done. simpl. rewrite (proj2 (Z.eqb_neq x (-1))) by lia.
  rewrite cons_middle, app_assoc in *.
  pose proof (dec_inv_step _ _ _ _ x Hinv Hl Hx) as Hinv'.
  destruct (emit_dec (Z.to_nat (l + 6)) olen _ _ _ _ Hinv') as (out' & l' & -> & Hinv'' & Hl'); [lia|lia|done| |].
  { rewrite zlen_app in Hroom. pose proof (zlen_nonneg ss). lia. }
  by apply IH.
Qed.

Lemma b64_char_ok s : digits_ok 6 s -> cstr_ok (b64_char <$> s).
Proof.
  intros Hs. apply Forall_fmap. eapply Forall_impl; [exact Hs|]. simpl. intros x Hx.
  pose proof (byte_cases (fun x => if x <? 64 then (0 <? b64_char x) && (b64_char x <? 256) else true) x) as Hb.
  cbv beta in Hb. change (2 ^ Z.of_nat 6) with 64 in Hx. rewrite (proj2 (Z.ltb_lt x 64)) in Hb by lia.
  assert ((0 <? b64_char x) && (b64_char x <? 256) = true) as Hc; [|lia].
  apply Hb; [vm_compute; reflexivity|lia].
Qed.

Lemma enc_inv_init : enc_inv [] [] 0 0.
Proof. repeat split; [constructor|lia]. Qed.

Lemma dec_inv_init : dec_inv [] [] 0 0.
Proof. repeat split; [constructor|lia]. Qed.

(** C28: base64 round trip.  Given room for the whole text, encoding any bytes
    writes a NUL-terminated text of 4 characters per started group of 3 bytes,
    and decoding that text gives the bytes back and nothing else, whatever the
    32-bit accumulators of the two routines lose on the way. *)
Theorem b64_round_trip ins elen dlen :
  bytes_ok ins -> 4 * ((zlen ins + 2) / 3) + 1 < elen < 2 ^ 31 -> zlen ins + 3 < dlen < 2 ^ 63 ->
  exists text, switch_b64_encode ins elen = text ++ [0] /\ cstr_ok text
    /\ zlen text = 4 * ((zlen ins + 2) / 3)
    /\ switch_b64_decode text dlen = Some (ins ++ [0]).
Proof.
  intros Hok Helen Hdlen. pose proof (zlen_nonneg ins) as Hn.
  assert (0 <= (zlen ins + 2) / 3) by zdiv.
  destruct (encode_text ins elen [] [] 0 0) as (ss & pad & z & Htext & Hss & Hst & Hz & Hlen);
    [apply enc_inv_init|lia|done|simpl; rewrite swrap_small by lia; lia|].
  simpl in Htext, Hst, Hlen.
  assert (zlen (b64_char <$> ss) = zlen ss) as Hfm by (unfold zlen; by rewrite length_fmap).
  pose proof (f_equal length Hst) as Hcount.
  rewrite length_app, !length_stream, length_replicate in Hcount.
  destruct (decode_digits ss pad dlen [] [] 0 0) as (out & b' & l' & Hdec & (Hout & Hl0 & Hst') & Hl');
    [apply dec_inv_init|lia|done|lia|simpl; unfold zlen in *; lia|].
  exists ((b64_char <$> ss) ++ replicate pad 61). simpl in Hdec, Hst'. split_and!.
  - unfold switch_b64_encode. by rewrite Htext.
  - apply Forall_app_2; [by apply b64_char_ok|]. apply Forall_replicate. lia.
  - rewrite zlen_app, zlen_replicate. lia.
  - unfold switch_b64_decode. rewrite Hdec. simpl. do 2 f_equal.
    rewrite Hst in Hst'. symmetry in Hst'. pose proof (f_equal length Hst') as Hcount'.
    rewrite !length_app, !length_stream, length_replicate, length_bits in Hcount'.
    eapply stream_inj; [done|by apply digits_bytes|lia|exact Hst'].
Qed.

Lemma b64_round_trip_witness :
  exists text, switch_b64_encode [0; 255; 128; 7] 16 = text ++ [0] /\ cstr_ok text
    /\ zlen text = 8 /\ switch_b64_decode text 16 = Some ([0; 255; 128; 7] ++ [0]).
Proof.
  apply (b64_round_trip [0; 255; 128; 7] 16 16).
  - repeat constructor; lia.
  - vm_compute. split; reflexivity.
  - vm_compute. split; reflexivity.
Defined.

(** *** Bounds *)

Lemma emit_len fuel : forall olen b l out full l' out',
  zlen out < s32 olen - 1 -> b64_encode_emit fuel olen b l out = (full, l', out') ->
  zlen out' <= s32 olen - 1 /\ (full = false -> zlen out' < s32 olen - 1).
Proof.
  induction fuel as [|fuel IH]; intros olen b l out full l' out' Hlt; simpl.
  { intros [= <- <- <-]. lia. }
  destruct (6 <=? l); [|intros [= <- <- <-]; lia].
  destruct (Z.leb_spec (s32 olen - 1) (zlen (out ++ [b64_char (Z.shiftr b (l - 6) mod 64)]))) as [Hle|Hgt].
  - intros [= <- <- <-]. rewrite zlen_app, zlen_cons, zlen_nil in *. split; [lia|done].
  - by apply IH.
Qed.

Lemma pad_len fuel olen : forall l out,
  zlen out <= s32 olen - 1 -> zlen (b64_encode_pad fuel olen l out) <= s32 olen - 1.
Proof.
  induction fuel as [|fuel IH]; intros l out Hle; simpl; [done|].
  destruct (Z.ltb_spec (zlen out) (s32 olen - 1)); rewrite ?andb_true_r, ?andb_false_r; [|done].
  destruct (l <? 6); [|done]. apply IH. rewrite zlen_app, zlen_cons, zlen_nil. lia.
Qed.

Lemma encode_loop_len ins : forall olen b l out,
  zlen out < s32 olen - 1 -> zlen (b64_encode_loop ins olen b l out) <= s32 olen - 1.
Proof.
  induction ins as [|x ins IH]; intros olen b l out Hlt; simpl.
  - assert (forall m, zlen m <= s32 olen - 1 ->
            zlen (if l =? 0 then m else b64_encode_pad 3 olen l m) <= s32 olen - 1) as Hpad.
    { intros m Hm. destruct (l =? 0); [done|]. by apply pad_len. }
    apply Hpad. destruct (0 <? l); [|lia]. rewrite zlen_app, zlen_cons, zlen_nil. lia.
  - destruct (b64_encode_emit _ _ _ _ _) as [[full l'] out'] eqn:He.
    apply emit_len in He as [Hle Hf]; [|done]. destruct full; [done|]. by apply IH, Hf.
Qed.

(** The base64 encoder stays inside its buffer: with at least two bytes of
    room it touches at most [olen] of them, however long the input is. *)
Theorem b64_encode_bounds ins olen :
  2 <= olen < 2 ^ 31 -> 1 <= zlen (switch_b64_encode ins olen) <= olen.
Proof.
  intros Holen. unfold switch_b64_encode. rewrite zlen_app. change (zlen [0]) with 1.
  pose proof (zlen_nonneg (b64_encode_loop ins olen 0 0 [])).
  pose proof (encode_loop_len ins olen 0 0 []) as Hlen. rewrite zlen_nil in Hlen. cint. lia.
Qed.

Lemma b64_encode_bounds_witness : 1 <= zlen (switch_b64_encode [1; 2; 3; 4; 5; 6] 5) <= 5.
Proof. apply (b64_encode_bounds [1; 2; 3; 4; 5; 6] 5). lia. Defined.

(** A one-byte buffer is overrun by one byte. *)
Lemma b64_encode_one_byte x ins : zlen (switch_b64_encode (x :: ins) 1) = 2.
Proof. reflexivity. Qed.

(** ** Percent encoding *)

(** What the encoder writes for one character. *)
Definition url_char (c : Z) : bytes :=
  if url_unsafe_char c then
    [37; hex_char (Z.land (Z.shiftr (swrap 8 c) 4) 15); hex_char (Z.land (swrap 8 c) 15)]
  else [c].

Definition url_text (s : bytes) : bytes := concat (url_char <$> s).

Lemma url_text_snoc s c : url_text (s ++ [c]) = url_text s ++ url_char c.
Proof. unfold url_text. rewrite fmap_app, concat_app. simpl. by rewrite app_nil_r. Qed.

Lemma zlen_url_char c : 1 <= zlen (url_char c) <= 3.
Proof. unfold url_char. destruct (url_unsafe_char c); unfold zlen; cbn [length]; lia. Qed.

Lemma zlen_url_text s : zlen (url_text s) <= 3 * zlen s.
Proof.
  unfold url_text. induction s as [|c s IH]; [done|].
  rewrite fmap_cons, zlen_cons. simpl. rewrite zlen_app. pose proof (zlen_url_char c). lia.
Qed.

(** The encoder writes the whole codes of a prefix of the string. *)
Lemma url_encode_prefix s : forall len pre, 0 <= len ->
  zlen (url_text pre) <= len ->
  exists k, url_encode_loop s len (url_text pre) = url_text (pre ++ take k s)
    /\ zlen (url_text (pre ++ take k s)) <= len
    /\ (zlen (url_text (pre ++ s)) <= len -> take k s = s).
Proof.
  induction s as [|c s IH]; intros len pre Hlen Hpre; simpl.
  { exists 0%nat. rewrite take_0, app_nil_r. by split_and!. }
  assert (forall k, zlen (url_text (pre ++ take 0 (c :: s))) <= len) as Hstop0
    by (intros; by rewrite take_0, app_nil_r).
  assert (len < zlen (url_text pre) + zlen (url_char c) ->
          exists k, url_text pre = url_text (pre ++ take k (c :: s))
            /\ zlen (url_text (pre ++ take k (c :: s))) <= len
            /\ (zlen (url_text (pre ++ c :: s)) <= len -> take k (c :: s) = c :: s)) as Hstop.
  { intros Hfull. exists 0%nat. rewrite take_0, app_nil_r. split_and!; [done|done|]. intros Hall.
    exfalso. rewrite cons_middle, app_assoc in Hall. unfold url_text in Hall.
    rewrite fmap_app, concat_app, zlen_app in Hall. fold (url_text (pre ++ [c])) in Hall.
    rewrite url_text_snoc, zlen_app in Hall. pose proof (zlen_nonneg (concat (url_char <$> s))). lia. }
  pose proof (zlen_url_char c).
  destruct (Z.leb_spec len (zlen (url_text pre))) as [Hle|Hgt]; [apply Hstop; lia|].
  assert (zlen (url_text pre) + zlen (url_char c) <= len ->
          exists k, url_encode_loop s len (url_text pre ++ url_char c) = url_text (pre ++ take k (c :: s))
            /\ zlen (url_text (pre ++ take k (c :: s))) <= len
            /\ (zlen (url_text (pre ++ c :: s)) <= len -> take k (c :: s) = c :: s)) as Hgo.
  { intros Hroom. destruct (IH len (pre ++ [c])) as (k & Heq & Hl & Hall); [done|by rewrite url_text_snoc, zlen_app|].
    exists (S k). simpl. rewrite url_text_snoc in Heq. rewrite <-!app_assoc in *. simpl in *.
    split_and!; [done|done|]. intros Hs. by rewrite Hall. }
  unfold url_char in Hstop, Hgo. destruct (url_unsafe_char c).
  - change (zlen [37; _; _]) with 3 in *. destruct (Z.ltb_spec len (zlen (url_text pre) + 3)); [by apply Hstop|by apply Hgo].
  - change (zlen [c]) with 1 in *. apply Hgo. lia.
Qed.

Lemma sscanf_hex a b x y t :
  hexval a = Some x -> hexval b = Some y -> sscanf_2x (a :: b :: t) = Some (x * 16 + y).
Proof.
  intros Ha Hb. unfold sscanf_2x.
  assert (48 <= a) as Hge.
  { unfold hexval, isdigit in Ha. repeat case_match; simplify_eq; lia. }
  assert (b <> 120 /\ b <> 88) as [??].
  { unfold hexval, isdigit in Hb. repeat case_match; simplify_eq; lia. }
  simpl. unfold isspace. rewrite (proj2 (Z.eqb_neq a 32)), (proj2 (Z.leb_gt a 13)) by lia.
  rewrite andb_false_r. simpl. rewrite (proj2 (Z.eqb_neq a 43)), (proj2 (Z.eqb_neq a 45)) by lia. simpl.
  rewrite Ha. simpl. rewrite (proj2 (Z.eqb_neq b 120)), (proj2 (Z.eqb_neq b 88)) by lia.
  rewrite andb_false_r. by rewrite Hb.
Qed.

Definition hi4 (c : Z) : Z := Z.land (Z.shiftr (swrap 8 c) 4) 15.
Definition lo4 (c : Z) : Z := Z.land (swrap 8 c) 15.

Lemma hex_byte c : 0 <= c < 256 ->
  exists x y, hexval (hex_char (hi4 c)) = Some x /\ hexval (hex_char (lo4 c)) = Some y /\ u8 (x * 16 + y) = c.
Proof.
  intros Hc.
  pose proof (byte_cases (fun c => match hexval (hex_char (hi4 c)), hexval (hex_char (lo4 c)) with
                                   | Some x, Some y => u8 (x * 16 + y) =? c | _, _ => false end) c) as Hb.
  cbv beta in Hb. specialize (Hb ltac:(vm_compute; reflexivity) Hc).
  destruct (hexval (hex_char (hi4 c))) as [x|], (hexval (hex_char (lo4 c))) as [y|]; try done.
  exists x, y. split_and!; [done|done|lia].
Qed.

Lemma safe_not_percent c : url_unsafe_char c = false -> c <> 37.
Proof. by intros H ->. Qed.

Lemma url_decode_text s : forall fuel,
  bytes_ok s -> (length (url_text s) <= fuel)%nat -> url_decode_loop fuel (url_text s) = s.
Proof.
  induction s as [|c s IH]; intros fuel Hok Hf; [by destruct fuel|].
  inversion_clear Hok as [|?? Hc Hok'].
  change (url_text (c :: s)) with (url_char c ++ url_text s) in *.
  rewrite length_app in Hf. unfold url_char in *. destruct (url_unsafe_char c) eqn:Hu.
  - simpl in Hf. destruct fuel as [|fuel]; [lia|]. cbn [app url_decode_loop].
    assert ((2 <? zlen (37 :: hex_char (hi4 c) :: hex_char (lo4 c) :: url_text s)) = true) as Hlen.
    { apply Z.ltb_lt. unfold zlen. cbn [length]. lia. }
    fold (hi4 c) (lo4 c). rewrite Hlen. cbn [andb Z.eqb Pos.eqb].
    destruct (hex_byte c Hc) as (x & y & Hx & Hy & Hxy). rewrite (sscanf_hex _ _ x y) by done.
    rewrite Hxy. simpl. f_equal. apply IH; [done|lia].
  - simpl in Hf. destruct fuel as [|fuel]; [lia|]. cbn [app url_decode_loop].
    rewrite (proj2 (Z.eqb_neq c 37)) by by apply safe_not_percent. simpl. f_equal. apply IH; [done|lia].
Qed.

(** A character of an encoded text: the escape or a safe character. *)
Definition url_safe (c : Z) : Prop := c = 37 \/ url_unsafe_char c = false.

Lemma hex_safe c : 0 <= c < 256 -> url_safe (hex_char (hi4 c)) /\ url_safe (hex_char (lo4 c)).
Proof.
  intros Hc. pose proof (byte_cases (fun c => (negb (url_unsafe_char (hex_char (hi4 c))))
                                     && (negb (url_unsafe_char (hex_char (lo4 c))))) c) as Hb.
  cbv beta in Hb. specialize (Hb ltac:(vm_compute; reflexivity) Hc).
  apply andb_true_iff in Hb as [H1%negb_true_iff H2%negb_true_iff]. split; by right.
Qed.

Lemma url_text_safe s : bytes_ok s -> Forall url_safe (url_text s).
Proof.
  intros Hs. unfold url_text. induction Hs as [|c s Hc Hs IH]; [constructor|].
  rewrite fmap_cons. simpl. apply Forall_app_2; [|done]. unfold url_char.
  destruct (url_unsafe_char c) eqn:Hu; [|apply Forall_singleton; by right].
  destruct (hex_safe c Hc). fold (hi4 c) (lo4 c). by rewrite !Forall_cons; split_and!; [left|..].
Qed.

(** Percent encoding.  For every string and every buffer size the encoder
    stays inside the buffer, writes a NUL-terminated text without control, blank
    or reserved characters, never splits an escape when it truncates (the text
    decodes to a prefix of the string), and decoding is its inverse when the
    buffer has three bytes per character. *)
Theorem url_round_trip s len :
  cstr_ok s -> 1 <= len < 2 ^ 64 ->
  exists text k, switch_url_encode s len = text ++ [0] /\ zlen text < len
    /\ Forall url_safe text /\ switch_url_decode text = take k s
    /\ (3 * zlen s < len -> switch_url_decode text = s).
Proof.
  intros Hs Hlen.
  assert (bytes_ok s) as Hb by (eapply Forall_impl; [exact Hs|]; simpl; lia).
  destruct (url_encode_prefix s (len - 1) []) as (k & Heq & Hl & Hall); [lia|unfold url_text, zlen; simpl; lia|].
  simpl in *. unfold switch_url_encode. cint. change (@nil Z) with (url_text []) at 1. rewrite Heq.
  exists (url_text (take k s)), k. unfold switch_url_decode.
  rewrite url_decode_text by (done || by apply Forall_take).
  split_and!; [done|lia| |done|].
  - by apply url_text_safe, Forall_take.
  - intros Hroom. apply Hall. pose proof (zlen_url_text s). lia.
Qed.

Lemma url_round_trip_witness :
  exists text k, switch_url_encode (str "a b%") 64 = text ++ [0] /\ zlen text < 64
    /\ Forall url_safe text /\ switch_url_decode text = take k (str "a b%")
    /\ (3 * zlen (str "a b%") < 64 -> switch_url_decode text = str "a b%").
Proof.
  apply (url_round_trip (str "a b%") 64); [|lia].
  vm_compute. repeat constructor.
Defined.

(** ** XML entities *)

Definition amp_char (c : Z) : bytes := default [c] (amp_entity c).
Definition amp_text (s : bytes) : bytes := concat (amp_char <$> s).

Lemma amp_entity_cases c e :
  amp_entity c = Some e -> c <> 0 /\ 1 <= zlen e /\ Forall (fun x => x <> 0) e.
Proof.
  unfold amp_entity. intros He.
  repeat case_match; simplify_eq; (split_and!; [lia|vm_compute; discriminate|by repeat constructor]).
Qed.

Lemma amp_loop_spec s : forall len out, Forall (fun c => c <> 0) s ->
  1 <= len < 2 ^ 64 -> zlen out <= len - 1 -> Forall (fun x => x <> 0) out ->
  let w := amp_encode_loop (s ++ [0]) len out in
  zlen w <= len - 1
  /\ if zlen (out ++ amp_text s) + 1 <=? len - 1 then w = out ++ amp_text s ++ [0]
     else Forall (fun x => x <> 0) w.
Proof.
  induction s as [|c s IH]; intros len out Hs Hlen Hout Hnz.
  - simpl. rewrite (proj2 (Z.ltb_lt _ _)), app_nil_r by lia. cint.
    destruct (Z.ltb_spec (len - 1) (zlen out + 1)), (Z.leb_spec (zlen out + 1) (len - 1)); try lia; [done|].
    rewrite zlen_app, zlen_cons, zlen_nil. split; [lia|done].
  - inversion_clear Hs as [|?? Hc Hs'].
    change (amp_text (c :: s)) with (amp_char c ++ amp_text s). rewrite <-!app_assoc.
    pose proof (zlen_nonneg (amp_text s)) as Hnn.
    cbn [app amp_encode_loop]. rewrite (proj2 (Z.ltb_lt (zlen out) len)) by lia. unfold amp_char.
    destruct (amp_entity c) as [e|] eqn:He; cbn [from_option id].
    + destruct (amp_entity_cases c e He) as (_ & He1 & Henz). cint.
      destruct (Z.ltb_spec (len - 1) (zlen out + zlen e)).
      * split; [done|]. rewrite !zlen_app. rewrite (proj2 (Z.leb_gt _ _)) by lia. done.
      * specialize (IH len (out ++ e) Hs' Hlen). rewrite <-!app_assoc in IH.
        apply IH; [rewrite zlen_app; lia|by apply Forall_app_2].
    + rewrite (proj2 (Z.eqb_neq c 0)) by done. cint.
      destruct (Z.ltb_spec (len - 1) (zlen out + 1)).
      * split; [done|]. rewrite !zlen_app, zlen_cons, zlen_nil. rewrite (proj2 (Z.leb_gt _ _)) by lia. done.
      * specialize (IH len (out ++ [c]) Hs' Hlen). rewrite <-!app_assoc in IH.
        apply IH; [rewrite zlen_app, zlen_cons, zlen_nil; lia|]. apply Forall_app_2; [done|]. by repeat constructor.
Qed.

(** XML escaping stays inside its buffer, and is either complete and
    NUL-terminated, when the escaped text leaves a spare byte, or has no
    terminator at all: a truncated result is not a C string. *)
Theorem amp_encode_complete_or_unterminated s len :
  cstr_ok s -> 1 <= len < 2 ^ 64 ->
  let w := switch_amp_encode s len in
  zlen w <= len - 1
  /\ if zlen (amp_text s) + 1 <=? len - 1 then w = amp_text s ++ [0] else Forall (fun x => x <> 0) w.
Proof.
  intros Hs Hlen. apply (amp_loop_spec s len []); [|done|unfold zlen; simpl; lia|constructor].
  eapply Forall_impl; [exact Hs|]. simpl. lia.
Qed.

Lemma amp_encode_complete_or_unterminated_witness :
  switch_amp_encode (str "a<b") 32 = str "a&lt;b" ++ [0]
  /\ Forall (fun x => x <> 0) (switch_amp_encode (str "a<b") 6).
Proof.
  split.
  - apply (amp_encode_complete_or_unterminated (str "a<b") 32); [|lia]. vm_compute. repeat constructor.
  - apply (amp_encode_complete_or_unterminated (str "a<b") 6); [|lia]. vm_compute. repeat constructor.
Defined.

(** ** Shell quoting *)

(** Quote removal of one word by a POSIX shell: [None] when the quotes do not
    close or an unquoted byte is special to the shell. *)
Definition sh_special : bytes := [9; 10; 32] ++ str "|&;<>()$`*?[]#~=%!{}" ++ [34].

Fixpoint sh_word (quoted : bool) (s : bytes) : option bytes :=
  match s with
  | [] => if quoted then None else Some []
  | c :: s' =>
    if quoted then
      if c =? 39 then sh_word false s' else cons c <$> sh_word true s'
    else if c =? 39 then sh_word true s'
    else if c =? 92 then
      match s' with
      | d :: s'' => if d =? 10 then sh_word false s'' else cons d <$> sh_word false s''
      | [] => None
      end
    else if bool_decide (c ∈ sh_special) then None
    else cons c <$> sh_word false s'
  end.

Lemma sh_quote_loop s : sh_word true (quote_loop s ++ [39]) = Some s.
Proof.
  induction s as [|c s IH]; [done|]. simpl. destruct (Z.eqb_spec c 39) as [->|Hc].
  - simpl. by rewrite IH.
  - simpl. rewrite (proj2 (Z.eqb_neq c 39)) by done. by rewrite IH.
Qed.

Lemma quote_count_length s : forall n,
  foldl (fun n c => if c =? 39 then n + 3 else n) n s = n + zlen (quote_loop s) - zlen s.
Proof.
  induction s as [|c s IH]; intros n; simpl; [unfold zlen; simpl; lia|]. rewrite IH, zlen_cons.
  destruct (c =? 39); rewrite zlen_app, !zlen_cons, zlen_nil; lia.
Qed.

(** Shell quoting.  A POSIX shell reads the quoted argument back as exactly
    the original string, one word with no character left special, and the size
    computed for the allocation is the number of bytes written (the routine's
    assertion never fires). *)
Theorem quote_shell_arg_read_back s :
  let '(size, w) := switch_util_quote_shell_arg_pool s in
  size = zlen w /\ exists text, w = text ++ [0] /\ sh_word false text = Some s.
Proof.
  unfold switch_util_quote_shell_arg_pool. split.
  - unfold quote_count. rewrite quote_count_length, !zlen_app. change (zlen [39]) with 1. change (zlen [0]) with 1. lia.
  - exists ([39] ++ quote_loop s ++ [39]). split; [by rewrite <-!app_assoc|]. simpl. apply sh_quote_loop.
Qed.

(** ** RFC 2833 *)

(** The telephone-event codes and the digits they stand for are inverse to
    each other, in either letter case of the digit. *)
Theorem rfc2833_round_trip event :
  0 <= event < 17 ->
  switch_char_to_rfc2833 (switch_rfc2833_to_char event) = event
  /\ switch_char_to_rfc2833 (tolower (switch_rfc2833_to_char event)) = event.
Proof.
  intros He.
  pose proof (byte_cases (fun e => if e <? 17 then
    bool_decide (switch_char_to_rfc2833 (switch_rfc2833_to_char e) = e)
    && bool_decide (switch_char_to_rfc2833 (tolower (switch_rfc2833_to_char e)) = e) else true) event) as Hb.
  cbv beta in Hb. rewrite (proj2 (Z.ltb_lt event 17)) in Hb by lia.
  specialize (Hb ltac:(vm_compute; reflexivity) ltac:(lia)).
  apply andb_true_iff in Hb as [H1%bool_decide_eq_true H2%bool_decide_eq_true]. done.
Qed.

Lemma rfc2833_round_trip_witness :
  switch_char_to_rfc2833 (switch_rfc2833_to_char 13) = 13
  /\ switch_char_to_rfc2833 (tolower (switch_rfc2833_to_char 13)) = 13.
Proof. apply (rfc2833_round_trip 13). lia. Defined.

End Encoding.
