(* ===== verification/Tokenizer.v ===== *)
(** * The string tokenizer of switch_utils.c

    switch_separate_string and its two state machines, the clean-up of a token,
    the two escaping routines that feed it and switch_separate_string_string.
    The array of the source holds pointers into the caller's buffer, which is
    cut by writing NULs into it; the model keeps for each pointer the string it
    points to.  [None] is a scan that leaves the buffer behind its terminating
    NUL. *)

From S2P Require Import Prelude CString.

Module Tokenizer.
Import CString.

Definition ESCAPE_META : Z := 92.
Definition QUOTE : Z := 39.

(** ** Escaping *)

(** The escape characters [switch_escape_char] puts before [c]: one for every
    occurrence of [c] in [delim]. *)
Definition esc_prefix (delim : bytes) (esc c : Z) : bytes :=
  concat ((fun d => if c =? d then [esc] else []) <$> delim).

(** How often the inner loop counts [c]. *)
Definition occurrences (delim : bytes) (c : Z) : Z := zlen (filter (fun d : Z => c = d) delim).

Definition switch_escape_char (ins delim : bytes) (esc : Z) : bytes :=
  let count := foldl (fun n c => n + occurrences delim c) 1 ins in
  if count =? 1 then ins
  else concat ((fun c => esc_prefix delim esc c ++ [c]) <$> ins).

Definition unescape_char (escaped : Z) : Z :=
  if escaped =? 110 then 10
  else if escaped =? 114 then 13
  else if escaped =? 116 then 9
  else if escaped =? 115 then 32
  else escaped.

Definition escape_string_char (c : Z) : bytes :=
  if c =? 10 then [92; 110]
  else if c =? 13 then [92; 114]
  else if c =? 9 then [92; 116]
  else if c =? 32 then [92; 115]
  else if c =? 36 then [92; 36]
  else [c].

(** The bytes written to [out], which is not bounded by [outlen] in the source. *)
Definition switch_escape_string (ins : bytes) : bytes := concat (escape_string_char <$> ins) ++ [0].

(** ** Cleaning up a token *)

(** Is there a quote in the rest of the string? *)
Definition quote_ahead (s : bytes) : bool := bool_decide (is_Some (strchr s QUOTE)).

(** The byte an escape stands for: a quote of either kind, the separator, the
    escape character or a letter [unescape_char] translates. *)
Definition cleanup_escape (delim e : Z) : option Z :=
  if (e =? 39) || (e =? 34) || (negb (delim =? 0) && (e =? delim)) || (e =? ESCAPE_META) then Some e
  else if unescape_char e =? e then None
  else Some (unescape_char e).

(** [dest] are the bytes stored so far, [end] the length to cut them to. *)
Fixpoint cleanup_loop (delim : Z) (ptr : bytes) (inside_quotes : bool) (dest : bytes) (end_ : option Z)
  : bytes * option Z :=
  match ptr with
  | [] => (dest, end_)
  | c :: ptr' =>
    let plain :=
      if (c =? QUOTE) && (inside_quotes || quote_ahead ptr') then
        let inside_quotes := negb inside_quotes in
        cleanup_loop delim ptr' inside_quotes dest (if inside_quotes then Some (zlen dest) else end_)
      else
        let dest := dest ++ [c] in
        cleanup_loop delim ptr' inside_quotes dest
          (if negb (c =? 32) || inside_quotes then Some (zlen dest) else end_) in
    match ptr' with
    | e :: ptr'' =>
      if c =? ESCAPE_META then
        match cleanup_escape delim e with
        | Some e => cleanup_loop delim ptr'' inside_quotes (dest ++ [e]) (Some (zlen (dest ++ [e])))
        | None => plain
        end
      else plain
    | [] => plain
    end
  end.

Fixpoint skip_blanks (s : bytes) : bytes :=
  match s with
  | c :: s' => if c =? 32 then skip_blanks s' else s
  | [] => []
  end.

Definition cleanup_separated_string (s : bytes) (delim : Z) : bytes :=
  let start := skip_blanks s in
  match cleanup_loop delim start false [] None with
  | (dest, Some n) => ztake n dest
  | (dest, None) => dest ++ drop (length dest) start
  end.

(** ** Separators other than a blank *)

(** The tokenizer state; in FIND_DELIM with the part of the current token
    behind it. *)
Inductive char_state := START | FIND_DELIM (tok : bytes).

(** [while ( *ptr && count < arraylen)], on the tokens already cut ([toks]).
    START does not advance: it opens a token and, when that fills the array,
    leaves the rest of the string to it. *)
Fixpoint char_delim_scan (delim arraylen : Z) (ptr : bytes) (state : char_state)
    (inside_quotes : bool) (toks : list bytes) : option (list bytes) :=
  match ptr with
  | [] => Some (match state with START => toks | FIND_DELIM tok => toks ++ [tok] end)
  | c :: ptr' =>
    let find tok :=
      if c =? ESCAPE_META then
        match ptr' with
        | d :: ptr'' => char_delim_scan delim arraylen ptr'' (FIND_DELIM (tok ++ [c; d])) inside_quotes toks
        | [] => None
        end
      else if (c =? QUOTE) && (inside_quotes || quote_ahead ptr') then
        char_delim_scan delim arraylen ptr' (FIND_DELIM (tok ++ [c])) (negb inside_quotes) toks
      else if (c =? delim) && negb inside_quotes then
        char_delim_scan delim arraylen ptr' START inside_quotes (toks ++ [tok])
      else char_delim_scan delim arraylen ptr' (FIND_DELIM (tok ++ [c])) inside_quotes toks in
    match state with
    | START =>
      if zlen toks <? arraylen then
        if zlen toks + 1 <? arraylen then find [] else Some (toks ++ [ptr])
      else Some toks
    | FIND_DELIM tok => find tok
    end
  end.

Definition separate_string_char_delim (buf : bytes) (delim arraylen : Z) : option (list bytes) :=
  map (fun t => cleanup_separated_string t delim) <$> char_delim_scan delim arraylen buf START false [].

(** ** A blank as the separator *)

Inductive blank_state :=
| BSTART
| SKIP_INITIAL_SPACE (tok : bytes)
| BFIND_DELIM (tok : bytes)
| SKIP_ENDING_SPACE.

Fixpoint blank_delim_scan (arraylen : Z) (ptr : bytes) (state : blank_state)
    (inside_quotes : bool) (toks : list bytes) : option (list bytes) :=
  match ptr with
  | [] => Some (match state with
                | BSTART | SKIP_ENDING_SPACE => toks
                | SKIP_INITIAL_SPACE tok | BFIND_DELIM tok => toks ++ [tok]
                end)
  | c :: ptr' =>
    let find tok :=
      if c =? ESCAPE_META then
        match ptr' with
        | d :: ptr'' => blank_delim_scan arraylen ptr'' (BFIND_DELIM (tok ++ [c; d])) inside_quotes toks
        | [] => None
        end
      else if c =? QUOTE then
        blank_delim_scan arraylen ptr' (BFIND_DELIM (tok ++ [c])) (negb inside_quotes) toks
      else if (c =? 32) && negb inside_quotes then
        blank_delim_scan arraylen ptr' SKIP_ENDING_SPACE inside_quotes (toks ++ [tok])
      else blank_delim_scan arraylen ptr' (BFIND_DELIM (tok ++ [c])) inside_quotes toks in
    let skip tok :=
      if c =? 32 then blank_delim_scan arraylen ptr' (SKIP_INITIAL_SPACE (tok ++ [c])) inside_quotes toks
      else find tok in
    let start :=
      if zlen toks <? arraylen then
        if zlen toks + 1 <? arraylen then skip [] else Some (toks ++ [ptr])
      else Some toks in
    match state with
    | BSTART => start
    | SKIP_INITIAL_SPACE tok => skip tok
    | BFIND_DELIM tok => find tok
    | SKIP_ENDING_SPACE =>
      if zlen toks <? arraylen then
        if c =? 32 then blank_delim_scan arraylen ptr' SKIP_ENDING_SPACE inside_quotes toks else start
      else Some toks
    end
  end.

Definition separate_string_blank_delim (buf : bytes) (arraylen : Z) : option (list bytes) :=
  map (fun t => cleanup_separated_string t 0) <$> blank_delim_scan arraylen buf BSTART false [].

(** ** Entry points *)

(** A leading [^^c] makes [c] the separator. *)
Definition separator_prefix (buf : bytes) (delim : Z) : bytes * Z :=
  match buf with
  | 94 :: 94 :: d :: c :: rest => (c :: rest, d)
  | _ => (buf, delim)
  end.

(** The strings the [count] first entries of [array] point to. *)
Definition switch_separate_string (buf : bytes) (delim arraylen : Z) : option (list bytes) :=
  if arraylen =? 0 then Some []
  else
    let '(buf, delim) := separator_prefix buf delim in
    if delim =? 32 then separate_string_blank_delim buf arraylen
    else separate_string_char_delim buf delim arraylen.

Fixpoint separate_string_string_loop (fuel : nat) (delim : bytes) (arraylen : Z) (last : bytes) (toks : list bytes)
  : list bytes :=
  match fuel with
  | O => toks ++ [last]
  | S fuel =>
    if zlen toks + 1 <? arraylen then
      match strstr last delim with
      | Some d => separate_string_string_loop fuel delim arraylen (zdrop (d + zlen delim) last) (toks ++ [ztake d last])
      | None => toks ++ [last]
      end
    else toks ++ [last]
  end.

Definition switch_separate_string_string (buf delim : bytes) (arraylen : Z) : list bytes :=
  separate_string_string_loop (Z.to_nat arraylen) delim arraylen buf [].

(** ** Escaped fields *)

(** A usable separator: not a blank, a quote or the escape character. *)
Definition separator_ok (delim : Z) : Prop :=
  0 < delim < 256 /\ delim <> 32 /\ delim <> QUOTE /\ delim <> ESCAPE_META.

(** The characters to be escaped inside a field. *)
Definition special (delim : Z) : bytes := [delim; QUOTE; ESCAPE_META].

Definition escape_field (delim : Z) (f : bytes) : bytes := switch_escape_char f (special delim) ESCAPE_META.

(** A field the clean-up leaves alone: no blank at its ends. *)
Definition trimmed (f : bytes) : Prop := head f <> Some 32 /\ last f <> Some 32.

Fixpoint join (delim : Z) (fs : list bytes) : bytes :=
  match fs with
  | [] => []
  | [f] => f
  | f :: fs => f ++ delim :: join delim fs
  end.

Lemma esc_prefix_replicate delim esc c : esc_prefix delim esc c = replicate (Z.to_nat (occurrences delim c)) esc.
Proof.
  unfold esc_prefix, occurrences, zlen. rewrite Nat2Z.id.
  induction delim as [|d delim IH]; [done|]. rewrite fmap_cons, filter_cons. simpl.
  destruct (Z.eqb_spec c d) as [Hd|Hd]; [rewrite decide_True by done|rewrite decide_False by done]; simpl; by rewrite IH.
Qed.

Lemma escape_count delim ins : forall n,
  let total := foldl (fun n c => n + occurrences delim c) n ins in
  n <= total /\ (total = n -> Forall (fun c => occurrences delim c = 0) ins).
Proof.
  induction ins as [|c ins IH]; intros n; simpl; [split; [lia|constructor]|].
  destruct (IH (n + occurrences delim c)) as [Hle Heq].
  assert (0 <= occurrences delim c) by apply zlen_nonneg. split; [lia|]. intros Hn.
  constructor; [lia|]. apply Heq. lia.
Qed.

(** The early return of [switch_escape_char] makes no difference. *)
Lemma escape_char_concat ins delim esc :
  switch_escape_char ins delim esc = concat ((fun c => esc_prefix delim esc c ++ [c]) <$> ins).
Proof.
  unfold switch_escape_char. destruct (escape_count delim ins 1) as [_ Hall]. cbv zeta in Hall.
  destruct (Z.eqb_spec (foldl (fun n c => n + occurrences delim c) 1 ins) 1) as [Hn|]; [|done].
  specialize (Hall Hn). clear Hn. induction Hall as [|c ins Hc Hins IH]; [done|].
  rewrite fmap_cons. simpl. rewrite esc_prefix_replicate, Hc. simpl. by f_equal.
Qed.

Definition esc1 (delim c : Z) : bytes := if bool_decide (c ∈ special delim) then [92; c] else [c].

Lemma escape_field_concat delim f :
  separator_ok delim -> escape_field delim f = concat (esc1 delim <$> f).
Proof.
  intros (_ & _ & ? & ?). unfold escape_field. rewrite escape_char_concat. f_equal. apply list_fmap_ext.
  intros _ c _. unfold esc_prefix, esc1, special. simpl.
  destruct (Z.eqb_spec c delim), (Z.eqb_spec c QUOTE), (Z.eqb_spec c ESCAPE_META); subst;
    first [rewrite bool_decide_eq_true_2 by (rewrite !elem_of_cons; tauto)
          |rewrite bool_decide_eq_false_2 by (rewrite !elem_of_cons, elem_of_nil; tauto)]; done.
Qed.

Lemma special_neq delim c :
  c ∉ special delim -> (c =? ESCAPE_META) = false /\ (c =? QUOTE) = false /\ (c =? delim) = false.
Proof. unfold special. intros Hc. split_and!; apply Z.eqb_neq; set_solver. Qed.

(** A scan passes over an escaped field without seeing a separator. *)
Lemma scan_escaped delim n f : forall tok rest toks,
  char_delim_scan delim n (concat (esc1 delim <$> f) ++ rest) (FIND_DELIM tok) false toks
  = char_delim_scan delim n rest (FIND_DELIM (tok ++ concat (esc1 delim <$> f))) false toks.
Proof.
  induction f as [|c f IH]; intros tok rest toks; [by rewrite app_nil_r|].
  rewrite fmap_cons. simpl concat. unfold esc1 at 1 3. case_bool_decide as Hc.
  - cbn [app]. simpl char_delim_scan at 1. rewrite IH. by rewrite <-app_assoc.
  - destruct (special_neq _ _ Hc) as (H1 & H2 & H3). cbn [app]. simpl char_delim_scan at 1.
    rewrite H1, H2, H3. simpl. rewrite IH. by rewrite <-app_assoc.
Qed.

Lemma scan_start delim n ptr q toks :
  ptr <> [] -> zlen toks + 1 < n ->
  char_delim_scan delim n ptr START q toks = char_delim_scan delim n ptr (FIND_DELIM []) q toks.
Proof.
  intros Hp Hn. destruct ptr as [|c ptr]; [done|]. simpl.
  rewrite (proj2 (Z.ltb_lt (zlen toks) n)), (proj2 (Z.ltb_lt (zlen toks + 1) n)) by lia. done.
Qed.

Lemma scan_last delim n ptr toks :
  ptr <> [] -> zlen toks + 1 = n -> char_delim_scan delim n ptr START false toks = Some (toks ++ [ptr]).
Proof.
  intros Hp Hn. destruct ptr as [|c ptr]; [done|]. simpl.
  rewrite (proj2 (Z.ltb_lt (zlen toks) n)), (proj2 (Z.ltb_ge (zlen toks + 1) n)) by lia. done.
Qed.

Lemma esc1_nonempty delim f : f <> [] -> concat (esc1 delim <$> f) <> [].
Proof. destruct f as [|c f]; [done|]. intros _. rewrite fmap_cons. simpl. unfold esc1. by case_bool_decide. Qed.

Lemma scan_join delim n fs : forall toks,
  separator_ok delim -> fs <> [] -> last fs <> Some [] -> zlen toks + zlen fs <= n ->
  char_delim_scan delim n (join delim ((fun f => concat (esc1 delim <$> f)) <$> fs)) START false toks
  = Some (toks ++ ((fun f => concat (esc1 delim <$> f)) <$> fs)).
Proof.
  intros toks Hsep. revert toks. induction fs as [|f [|g fs] IH]; intros toks Hne Hlast Hn; [done| |].
  - rewrite zlen_cons in Hn. change (zlen []) with 0 in Hn. simpl.
    assert (f <> []) as Hf by (intros ->; by simpl in Hlast).
    pose proof (esc1_nonempty delim f Hf). destruct (decide (zlen toks + 1 = n)).
    + by rewrite scan_last.
    + rewrite scan_start by (done || lia). rewrite <-(app_nil_r (concat _)), scan_escaped. simpl. by rewrite app_nil_r.
  - rewrite !zlen_cons in Hn. pose proof (zlen_nonneg fs).
    destruct Hsep as (Hd0 & Hd32 & Hdq & Hde).
    change (join delim ((fun f => concat (esc1 delim <$> f)) <$> f :: g :: fs))
      with (concat (esc1 delim <$> f) ++ delim :: join delim ((fun f => concat (esc1 delim <$> f)) <$> g :: fs)).
    rewrite scan_start; [|by destruct (concat _)|lia]. rewrite scan_escaped. simpl char_delim_scan at 1.
    rewrite (proj2 (Z.eqb_neq delim ESCAPE_META)), (proj2 (Z.eqb_neq delim QUOTE)), Z.eqb_refl by done. simpl.
    rewrite IH; [|done|done|rewrite zlen_app, !zlen_cons, zlen_nil; lia].
    rewrite <-app_assoc. by rewrite !fmap_cons.
Qed.

(** *** The clean-up undoes the escapes *)

Lemma cleanup_plain delim c rest dest end_ :
  c <> ESCAPE_META -> c <> QUOTE ->
  cleanup_loop delim (c :: rest) false dest end_
  = cleanup_loop delim rest false (dest ++ [c]) (if c =? 32 then end_ else Some (zlen (dest ++ [c]))).
Proof.
  intros He%Z.eqb_neq Hq%Z.eqb_neq. simpl. rewrite He, Hq. simpl. rewrite orb_false_r.
  destruct (c =? 32); by destruct rest.
Qed.

Lemma cleanup_escaped delim e x rest dest end_ :
  cleanup_escape delim e = Some x ->
  cleanup_loop delim (ESCAPE_META :: e :: rest) false dest end_
  = cleanup_loop delim rest false (dest ++ [x]) (Some (zlen (dest ++ [x]))).
Proof. intros He. simpl. by rewrite He. Qed.

Lemma cleanup_escape_special delim c : separator_ok delim -> c ∈ special delim -> cleanup_escape delim c = Some c.
Proof.
  intros (? & _ & _ & _) Hc. unfold cleanup_escape. rewrite (proj2 (Z.eqb_neq delim 0)) by lia. simpl.
  unfold special in Hc. rewrite !elem_of_cons, elem_of_nil in Hc.
  destruct Hc as [-> | [-> | [-> | []]]]; rewrite ?Z.eqb_refl, ?orb_true_r; done.
Qed.

(** One escaped character, read back. *)
Lemma cleanup_esc1 delim c rest dest end_ :
  separator_ok delim ->
  cleanup_loop delim (esc1 delim c ++ rest) false dest end_
  = cleanup_loop delim rest false (dest ++ [c]) (if c =? 32 then end_ else Some (zlen (dest ++ [c]))).
Proof.
  intros Hsep. unfold esc1. case_bool_decide as Hc.
  - cbn [app]. rewrite (cleanup_escaped delim c c) by by apply cleanup_escape_special.
    destruct (Z.eqb_spec c 32) as [->|]; [|done]. exfalso. destruct Hsep as (_ & ? & _ & _).
    unfold special in Hc. rewrite !elem_of_cons, elem_of_nil in Hc. unfold QUOTE, ESCAPE_META in Hc. intuition lia.
  - destruct (special_neq _ _ Hc) as (H1%Z.eqb_neq & H2%Z.eqb_neq & _). by apply cleanup_plain.
Qed.

Lemma cleanup_field delim f : forall dest end_, separator_ok delim ->
  exists end', cleanup_loop delim (concat (esc1 delim <$> f)) false dest end_ = (dest ++ f, end')
    /\ (f <> [] -> last f <> Some 32 -> end' = Some (zlen (dest ++ f))).
Proof.
  induction f as [|c f IH]; intros dest end_ Hsep.
  { exists end_. by rewrite app_nil_r. }
  rewrite fmap_cons. simpl concat. rewrite cleanup_esc1 by done.
  destruct f as [|d f].
  - simpl. eexists. split; [done|]. intros _ Hlast. rewrite (proj2 (Z.eqb_neq c 32)); [done|congruence].
  - destruct (IH (dest ++ [c]) (if c =? 32 then end_ else Some (zlen (dest ++ [c]))) Hsep) as (end' & -> & Hend).
    rewrite <-app_assoc in *. exists end'. split; [done|]. intros _ Hlast. by apply Hend.
Qed.

Lemma skip_blanks_head s : head s <> Some 32 -> skip_blanks s = s.
Proof. destruct s as [|c s]; [done|]. simpl. intros Hc. destruct (Z.eqb_spec c 32); congruence. Qed.

Lemma head_esc1 delim f : head (concat (esc1 delim <$> f)) = Some 92 \/ head (concat (esc1 delim <$> f)) = head f.
Proof.
  destruct f as [|c f]; [by right|]. rewrite fmap_cons. simpl. unfold esc1. case_bool_decide; [by left|by right].
Qed.

Lemma cleanup_escape_field delim f :
  separator_ok delim -> trimmed f -> cleanup_separated_string (concat (esc1 delim <$> f)) delim = f.
Proof.
  intros Hsep [Hhead Hlast]. unfold cleanup_separated_string. rewrite skip_blanks_head.
  2: { destruct (head_esc1 delim f) as [-> | ->]; done. }
  destruct f as [|c f]; [done|].
  destruct (cleanup_field delim (c :: f) [] None Hsep) as (end' & -> & Hend).
  rewrite Hend by done. simpl. by apply ztake_all.
Qed.

Lemma separator_prefix_none buf delim : head buf <> Some 94 -> separator_prefix buf delim = (buf, delim).
Proof.
  intros Hh. destruct buf as [|c buf]; [done|]. unfold separator_prefix.
  destruct (decide (c = 94)) as [->|Hc]; [done|].
  destruct c as [|[p|p|]|p]; try done; repeat (destruct p as [p|p|]; try done).
Qed.

Lemma separate_join delim fs n :
  separator_ok delim -> delim <> 94 -> Forall trimmed fs -> fs <> [] -> last fs <> Some [] ->
  (forall f, head fs = Some f -> head f <> Some 94) -> zlen fs <= n ->
  switch_separate_string (join delim ((fun f => concat (esc1 delim <$> f)) <$> fs)) delim n = Some fs.
Proof.
  intros Hsep Hcaret Htrim Hne Hlast Hhead Hn.
  unfold switch_separate_string. rewrite (proj2 (Z.eqb_neq n 0)).
  2: { destruct fs; [done|]. rewrite zlen_cons in Hn. pose proof (zlen_nonneg fs). lia. }
  rewrite separator_prefix_none.
  2: { destruct fs as [|f fs]; [done|]. specialize (Hhead f eq_refl).
       assert (forall r, head (concat (esc1 delim <$> f) ++ delim :: r) <> Some 94) as Hr.
       { intros r. destruct (head_esc1 delim f) as [Hf | Hf]; destruct (concat (esc1 delim <$> f)); simpl in *; congruence. }
       destruct fs as [|g fs]; [|apply Hr].
       destruct (head_esc1 delim f) as [Hf | Hf]; simpl in *; congruence. }
  pose proof Hsep as (_ & ? & _). rewrite (proj2 (Z.eqb_neq delim 32)) by done.
  unfold separate_string_char_delim. rewrite scan_join by done. simpl. f_equal.
  change (map ?g ?l) with (g <$> l). rewrite <-list_fmap_compose. rewrite <-(list_fmap_id fs) at 2.
  apply list_fmap_ext. intros i f Hf. apply cleanup_escape_field; [done|].
  by eapply Forall_lookup_1.
Qed.

(** A string without separators, quotes and escapes is a single field. *)
Lemma separate_plain delim f n :
  separator_ok delim -> delim <> 94 -> f <> [] -> trimmed f -> head f <> Some 94 ->
  Forall (fun c => c ∉ special delim) f -> 1 <= n -> switch_separate_string f delim n = Some [f].
Proof.
  intros Hsep Hcaret Hne Htrim Hhead Hplain Hn.
  assert (concat (esc1 delim <$> f) = f) as Hf.
  { clear -Hplain. induction f as [|c f IH]; [done|]. apply Forall_cons in Hplain as [Hc Hf].
    cbn [fmap list_fmap concat]. rewrite IH by done. unfold esc1. by rewrite bool_decide_eq_false_2. }
  pose proof (separate_join delim [f] n) as H. cbn [fmap list_fmap join] in H. rewrite Hf in H. apply H; try done.
  - by constructor.
  - by intros [= ->].
  - by intros ? [= <-].
Qed.

(** Fields survive joining and splitting.  Fields escaped by
    switch_escape_char for the separator, the quote and the backslash, joined by
    the separator and split by switch_separate_string, come back unchanged and
    in order, for every separator and any characters in the fields; what the
    tokenizer does not preserve is stated by the hypotheses (blanks at the ends
    of a field, an empty last field, a caret that selects another separator). *)
Theorem separate_escaped_fields delim fs n :
  separator_ok delim -> delim <> 94 -> Forall trimmed fs -> fs <> [] -> last fs <> Some [] ->
  (forall f, head fs = Some f -> head f <> Some 94) -> zlen fs <= n ->
  switch_separate_string (join delim (escape_field delim <$> fs)) delim n = Some fs.
Proof.
  intros. rewrite <-(separate_join delim fs n) by done. do 2 f_equal.
  apply list_fmap_ext. intros. by apply escape_field_concat.
Qed.

Lemma separate_escaped_fields_witness :
  switch_separate_string (join 44 (escape_field 44 <$> [str "a,b"; str "it's"; []; str "\ x"])) 44 8
  = Some [str "a,b"; str "it's"; []; str "\ x"].
Proof.
  apply (separate_escaped_fields 44 [str "a,b"; str "it's"; []; str "\ x"] 8); try discriminate.
  - vm_compute. repeat split; discriminate.
  - repeat constructor; vm_compute; discriminate.
  - intros f [= <-]. vm_compute. discriminate.
Defined.

(** ** Blank-separated words *)

(** The text [switch_escape_string] writes before its NUL. *)
Definition escape_text (f : bytes) : bytes := concat (escape_string_char <$> f).

(** What [switch_escape_string] does not escape, or escapes for another reader. *)
Definition word_ok (f : bytes) : Prop := f <> [] /\ Forall (fun c => c <> 92 /\ c <> 39 /\ c <> 36) f.

Lemma escape_string_char_cases c :
  c <> 92 -> c <> 39 -> c <> 36 ->
  (exists e, escape_string_char c = [92; e] /\ cleanup_escape 0 e = Some c)
  \/ (escape_string_char c = [c] /\ c <> 32).
Proof.
  intros H92 H39 H36. unfold escape_string_char.
  do 4 (case_match; [left; eexists; split; [done|]; etransitivity; [vm_compute; reflexivity|f_equal; lia]|]).
  case_match; [lia|]. right. split; [done|lia].
Qed.

Lemma blank_escaped n f : forall tok rest toks, Forall (fun c => c <> 92 /\ c <> 39 /\ c <> 36) f ->
  blank_delim_scan n (escape_text f ++ rest) (BFIND_DELIM tok) false toks
  = blank_delim_scan n rest (BFIND_DELIM (tok ++ escape_text f)) false toks.
Proof.
  unfold escape_text. induction f as [|c f IH]; intros tok rest toks Hf; [by rewrite app_nil_r|].
  inversion_clear Hf as [|?? (H92 & H39 & H36) Hf']. rewrite fmap_cons. simpl concat.
  destruct (escape_string_char_cases c H92 H39 H36) as [(e & -> & _)|[-> H32]].
  - cbn [app]. simpl blank_delim_scan at 1. rewrite IH by done. by rewrite <-app_assoc.
  - cbn [app]. simpl blank_delim_scan at 1.
    rewrite (proj2 (Z.eqb_neq c ESCAPE_META)), (proj2 (Z.eqb_neq c QUOTE)), (proj2 (Z.eqb_neq c 32)) by done. simpl.
    rewrite IH by done. by rewrite <-app_assoc.
Qed.

Lemma escape_text_head f : word_ok f -> exists c r, escape_text f = c :: r /\ c <> 32.
Proof.
  intros [Hne Hf]. destruct f as [|c f]; [done|]. inversion_clear Hf as [|?? (H92 & H39 & H36) _].
  unfold escape_text. rewrite fmap_cons. simpl.
  destruct (escape_string_char_cases c H92 H39 H36) as [(e & -> & _)|[-> H32]]; by do 2 eexists.
Qed.

Lemma blank_start n ptr q toks c r :
  ptr = c :: r -> c <> 32 -> zlen toks + 1 < n ->
  forall st, st = BSTART \/ st = SKIP_ENDING_SPACE ->
  blank_delim_scan n ptr st q toks = blank_delim_scan n ptr (BFIND_DELIM []) q toks.
Proof.
  intros -> Hc Hn st Hst. simpl. rewrite (proj2 (Z.eqb_neq c 32)) by done.
  rewrite (proj2 (Z.ltb_lt (zlen toks) n)), (proj2 (Z.ltb_lt (zlen toks + 1) n)) by lia.
  by destruct Hst as [-> | ->].
Qed.

Lemma blank_last n ptr c r toks :
  ptr = c :: r -> c <> 32 -> zlen toks + 1 = n ->
  forall st, st = BSTART \/ st = SKIP_ENDING_SPACE ->
  blank_delim_scan n ptr st false toks = Some (toks ++ [ptr]).
Proof.
  intros -> Hc Hn st Hst. simpl. rewrite (proj2 (Z.eqb_neq c 32)) by done.
  rewrite (proj2 (Z.ltb_lt (zlen toks) n)), (proj2 (Z.ltb_ge (zlen toks + 1) n)) by lia.
  by destruct Hst as [-> | ->].
Qed.

Lemma blank_join n fs : forall st toks,
  Forall word_ok fs -> fs <> [] -> zlen toks + zlen fs <= n -> st = BSTART \/ st = SKIP_ENDING_SPACE ->
  blank_delim_scan n (join 32 (escape_text <$> fs)) st false toks = Some (toks ++ (escape_text <$> fs)).
Proof.
  induction fs as [|f [|g fs] IH]; intros st toks Hok Hne Hn Hst; [done| |];
    inversion_clear Hok as [|?? Hf Hok']; destruct (escape_text_head f Hf) as (c & r & Hcr & Hc);
    rewrite !zlen_cons in Hn.
  - change (zlen []) with 0 in Hn. simpl. destruct (decide (zlen toks + 1 = n)).
    + by erewrite blank_last.
    + erewrite blank_start by (done || lia). rewrite <-(app_nil_r (escape_text f)), blank_escaped by apply Hf.
      simpl. by rewrite app_nil_r.
  - pose proof (zlen_nonneg fs).
    change (join 32 (escape_text <$> f :: g :: fs))
      with (escape_text f ++ 32 :: join 32 (escape_text <$> g :: fs)).
    erewrite blank_start; [|by rewrite Hcr|done|lia|done].
    rewrite blank_escaped by apply Hf. simpl blank_delim_scan at 1.
    rewrite IH; [|done|done|rewrite zlen_app, !zlen_cons, zlen_nil; lia|by right].
    rewrite <-app_assoc. by rewrite !fmap_cons.
Qed.

Lemma cleanup_word f : forall dest end_, Forall (fun c => c <> 92 /\ c <> 39 /\ c <> 36) f ->
  cleanup_loop 0 (escape_text f) false dest end_
  = (dest ++ f, if bool_decide (f = []) then end_ else Some (zlen (dest ++ f))).
Proof.
  unfold escape_text. induction f as [|c f IH]; intros dest end_ Hf; [by rewrite app_nil_r|].
  inversion_clear Hf as [|?? (H92 & H39 & H36) Hf']. rewrite fmap_cons. simpl concat.
  assert (cleanup_loop 0 (escape_string_char c ++ concat (escape_string_char <$> f)) false dest end_
          = cleanup_loop 0 (concat (escape_string_char <$> f)) false (dest ++ [c]) (Some (zlen (dest ++ [c])))) as ->.
  { destruct (escape_string_char_cases c H92 H39 H36) as [(e & -> & He)|[-> H32]]; cbn [app].
    - by rewrite (cleanup_escaped 0 e c).
    - rewrite cleanup_plain by done. by rewrite (proj2 (Z.eqb_neq c 32)). }
  rewrite IH by done. rewrite <-app_assoc. by destruct f.
Qed.

(** Words survive escaping.  Words escaped by switch_escape_string, put
    next to each other with blanks between and split by switch_separate_string,
    come back unchanged, blanks, tabs and line ends inside them included (a
    backslash, a quote and a dollar sign are what the routine does not protect). *)
Theorem separate_escaped_words fs texts n :
  Forall word_ok fs -> fs <> [] -> zlen fs <= n -> (forall f, head fs = Some f -> head f <> Some 94) ->
  switch_escape_string <$> fs = (fun t => t ++ [0]) <$> texts ->
  switch_separate_string (join 32 texts) 32 n = Some fs.
Proof.
  intros Hok Hne Hn Hhead Htexts.
  assert (texts = escape_text <$> fs) as ->.
  { revert texts Htexts. clear. induction fs as [|f fs IH]; intros [|t texts] Ht; try done.
    rewrite !fmap_cons in Ht. injection Ht as Ht Hts. rewrite fmap_cons. f_equal; [|by apply IH].
    unfold switch_escape_string in Ht. by apply app_inj_tail in Ht as [<- _]. }
  unfold switch_separate_string. rewrite (proj2 (Z.eqb_neq n 0)).
  2: { destruct fs; [done|]. rewrite zlen_cons in Hn. pose proof (zlen_nonneg fs). lia. }
  rewrite separator_prefix_none.
  2: { destruct fs as [|[|c f] fs]; [done|inversion_clear Hok as [|?? [] ?]; done|].
       inversion_clear Hok as [|?? [_ Hf] _]. inversion_clear Hf as [|?? (H92 & H39 & H36) _].
       specialize (Hhead _ eq_refl). simpl in Hhead.
       destruct (escape_string_char_cases c H92 H39 H36) as [(e & He & _)|[He H32]];
         destruct fs; unfold escape_text; rewrite ?fmap_cons; simpl; rewrite He; simpl; congruence. }
  simpl. unfold separate_string_blank_delim. rewrite blank_join by (done || by left). simpl. f_equal.
  change (map ?g ?l) with (g <$> l). rewrite <-list_fmap_compose. rewrite <-(list_fmap_id fs) at 2.
  apply list_fmap_ext. intros i f Hf. pose proof (Forall_lookup_1 _ _ _ _ Hok Hf) as Hw. simpl.
  unfold cleanup_separated_string. destruct (escape_text_head f Hw) as (c & r & Hcr & Hc).
  rewrite skip_blanks_head by (rewrite Hcr; simpl; congruence).
  rewrite cleanup_word by apply Hw. rewrite bool_decide_eq_false_2 by apply Hw. simpl. by apply ztake_all.
Qed.

Lemma separate_escaped_words_witness :
  switch_separate_string (join 32 (escape_text <$> [str " a b "; str "c"])) 32 2 = Some [str " a b "; str "c"].
Proof.
  apply (separate_escaped_words [str " a b "; str "c"] (escape_text <$> [str " a b "; str "c"]) 2).
  - repeat constructor; vm_compute; discriminate.
  - discriminate.
  - vm_compute. discriminate.
  - intros f [= <-]. vm_compute. discriminate.
  - reflexivity.
Defined.

(** ** Bounds *)

(** The room the tokens of a state need. *)
Definition char_room (n : Z) (st : char_state) (toks : list bytes) : Prop :=
  match st with START => zlen toks <= n | FIND_DELIM _ => zlen toks + 1 <= n end.

Ltac scan_cases :=
  repeat match goal with
  | |- context [if ?b then _ else _] => destruct b eqn:?
  | H : context [if ?b then _ else _] |- _ => destruct b eqn:?
  end.

Lemma zlen_snoc {A} (l : list A) x : zlen (l ++ [x]) = zlen l + 1.
Proof. by rewrite zlen_app, zlen_cons, zlen_nil. Qed.

Lemma char_scan_bound delim n k : forall ptr st q toks res, (length ptr <= k)%nat ->
  char_room n st toks -> char_delim_scan delim n ptr st q toks = Some res -> zlen res <= n.
Proof.
  induction k as [|k IH]; intros [|c ptr] st q toks res Hk Hroom Hscan; simpl in Hk; try lia.
  1,2: destruct st; injection Hscan as <-; simpl in Hroom; rewrite ?zlen_snoc; lia.
  assert (forall tok, zlen toks + 1 <= n ->
    char_delim_scan delim n (c :: ptr) (FIND_DELIM tok) q toks = Some res -> zlen res <= n) as Hfind.
  { clear Hscan Hroom st. intros tok Hroom Hscan. simpl in Hscan. scan_cases.
    - destruct ptr as [|d ptr]; [done|]. eapply (IH ptr); [simpl in *; lia| |exact Hscan]. done.
    - eapply (IH ptr); [lia| |exact Hscan]. done.
    - eapply (IH ptr); [lia| |exact Hscan]. simpl. rewrite zlen_snoc. lia.
    - eapply (IH ptr); [lia| |exact Hscan]. done. }
  destruct st as [|tok]; [|by eapply Hfind]. simpl in Hroom.
  destruct (Z.ltb_spec (zlen toks + 1) n) as [Hlt|Hge].
  - rewrite scan_start in Hscan by done. eapply Hfind; [lia|exact Hscan].
  - simpl in Hscan. rewrite (proj2 (Z.ltb_ge (zlen toks + 1) n)) in Hscan by lia.
    destruct (Z.ltb_spec (zlen toks) n); injection Hscan as <-; rewrite ?zlen_snoc; lia.
Qed.

Definition blank_room (n : Z) (st : blank_state) (toks : list bytes) : Prop :=
  match st with
  | BSTART | SKIP_ENDING_SPACE => zlen toks <= n
  | SKIP_INITIAL_SPACE _ | BFIND_DELIM _ => zlen toks + 1 <= n
  end.

Lemma blank_scan_bound n k : forall ptr st q toks res, (length ptr <= k)%nat ->
  blank_room n st toks -> blank_delim_scan n ptr st q toks = Some res -> zlen res <= n.
Proof.
  induction k as [|k IH]; intros [|c ptr] st q toks res Hk Hroom Hscan; simpl in Hk; try lia.
  1,2: destruct st; injection Hscan as <-; simpl in Hroom; rewrite ?zlen_snoc; lia.
  assert (forall tok, zlen toks + 1 <= n ->
    blank_delim_scan n (c :: ptr) (BFIND_DELIM tok) q toks = Some res -> zlen res <= n) as Hfind.
  { clear Hscan Hroom st. intros tok Hroom Hscan. simpl in Hscan. scan_cases.
    - destruct ptr as [|d ptr]; [done|]. eapply (IH ptr); [simpl in *; lia| |exact Hscan]. done.
    - eapply (IH ptr); [lia| |exact Hscan]. done.
    - eapply (IH ptr); [lia| |exact Hscan]. simpl. rewrite zlen_snoc. lia.
    - eapply (IH ptr); [lia| |exact Hscan]. done. }
  assert (forall tok, zlen toks + 1 <= n ->
    blank_delim_scan n (c :: ptr) (SKIP_INITIAL_SPACE tok) q toks = Some res -> zlen res <= n) as Hskip.
  { clear Hscan Hroom st. intros tok Hroom Hscan. destruct (Z.eqb_spec c 32) as [->|Hc].
    - eapply (IH ptr); [lia| |exact Hscan]. done.
    - eapply (Hfind tok); [done|]. simpl in Hscan |- *. by rewrite (proj2 (Z.eqb_neq c 32)) in Hscan |- * by done. }
  assert (blank_delim_scan n (c :: ptr) BSTART q toks = Some res -> zlen toks <= n -> zlen res <= n) as Hstart.
  { clear Hscan Hroom st. intros Hscan Hroom. simpl in Hscan. destruct (Z.ltb_spec (zlen toks) n); [|by injection Hscan as <-].
    destruct (Z.ltb_spec (zlen toks + 1) n); [|injection Hscan as <-; rewrite zlen_snoc; lia].
    eapply (Hskip []); [lia|exact Hscan]. }
  destruct st as [|tok|tok|]; [by apply Hstart|by eapply Hskip|by eapply Hfind|].
  simpl in Hscan. destruct (Z.ltb_spec (zlen toks) n); [|by injection Hscan as <-].
  destruct (c =? 32) eqn:Hc; [eapply (IH ptr); [lia| |exact Hscan]; done|].
  apply Hstart; [|lia]. simpl. rewrite (proj2 (Z.ltb_lt (zlen toks) n)), Hc by done. exact Hscan.
Qed.

Lemma separate_bound buf delim n res :
  0 <= n -> switch_separate_string buf delim n = Some res -> zlen res <= n.
Proof.
  intros Hn. unfold switch_separate_string. destruct (n =? 0); [by intros [= <-]|].
  destruct (separator_prefix buf delim) as [b d].
  destruct (d =? 32); unfold separate_string_blank_delim, separate_string_char_delim; intros Hs;
    apply fmap_Some in Hs as (toks & Hs & ->); unfold zlen; rewrite length_map; fold (zlen toks).
  - eapply blank_scan_bound; [reflexivity| |exact Hs]. done.
  - eapply char_scan_bound; [reflexivity| |exact Hs]. done.
Qed.

(** Only a string that ends in the escape character can carry a scan behind its end. *)
Lemma last_behind (c : Z) s x : last s = Some x -> last (c :: s) = Some x.
Proof. intros H. rewrite last_cons. by rewrite H. Qed.

Lemma char_scan_end delim n k : forall ptr st q toks, (length ptr <= k)%nat ->
  char_delim_scan delim n ptr st q toks = None -> last ptr = Some ESCAPE_META.
Proof.
  induction k as [|k IH]; intros [|c ptr] st q toks Hk Hscan; simpl in Hk; try lia; try done.
  assert (forall tok, char_delim_scan delim n (c :: ptr) (FIND_DELIM tok) q toks = None -> last (c :: ptr) = Some ESCAPE_META) as Hfind.
  { clear Hscan st. intros tok Hscan. simpl in Hscan. destruct (Z.eqb_spec c ESCAPE_META) as [->|_].
    - destruct ptr as [|d ptr]; [done|]. apply last_behind, last_behind. eapply IH; [|exact Hscan]. simpl in Hk. lia.
    - apply last_behind. scan_cases; (eapply IH; [|exact Hscan]; lia). }
  destruct st as [|tok]; [|by eapply Hfind]. simpl in Hscan. destruct (zlen toks <? n); [|done].
  destruct (zlen toks + 1 <? n); [|done]. by apply (Hfind []).
Qed.

Lemma blank_scan_end n k : forall ptr st q toks, (length ptr <= k)%nat ->
  blank_delim_scan n ptr st q toks = None -> last ptr = Some ESCAPE_META.
Proof.
  induction k as [|k IH]; intros [|c ptr] st q toks Hk Hscan; simpl in Hk; try lia; try done.
  assert (forall tok, blank_delim_scan n (c :: ptr) (BFIND_DELIM tok) q toks = None -> last (c :: ptr) = Some ESCAPE_META) as Hfind.
  { clear Hscan st. intros tok Hscan. simpl in Hscan. destruct (Z.eqb_spec c ESCAPE_META) as [->|_].
    - destruct ptr as [|d ptr]; [done|]. apply last_behind, last_behind. eapply IH; [|exact Hscan]. simpl in Hk. lia.
    - apply last_behind. scan_cases; (eapply IH; [|exact Hscan]; lia). }
  assert (forall tok, blank_delim_scan n (c :: ptr) (SKIP_INITIAL_SPACE tok) q toks = None -> last (c :: ptr) = Some ESCAPE_META) as Hskip.
  { clear Hscan st. intros tok Hscan. destruct (Z.eqb_spec c 32) as [->|Hc].
    - apply last_behind. eapply IH; [|exact Hscan]. lia.
    - apply (Hfind tok). simpl in Hscan |- *. by rewrite (proj2 (Z.eqb_neq c 32)) in Hscan |- * by done. }
  assert (blank_delim_scan n (c :: ptr) BSTART q toks = None -> last (c :: ptr) = Some ESCAPE_META) as Hstart.
  { clear Hscan st. intros Hscan. simpl in Hscan. destruct (zlen toks <? n); [|done].
    destruct (zlen toks + 1 <? n); [|done]. by apply (Hskip []). }
  destruct st as [|tok|tok|]; [by apply Hstart|by eapply Hskip|by eapply Hfind|].
  simpl in Hscan. destruct (zlen toks <? n) eqn:Hr; [|done].
  destruct (c =? 32) eqn:Hc; [apply last_behind; eapply IH; [|exact Hscan]; lia|].
  apply Hstart. simpl. by rewrite Hr, Hc.
Qed.

Lemma prefix_last buf delim : last (separator_prefix buf delim).1 = last buf.
Proof.
  unfold separator_prefix. destruct buf as [|a [|b [|d [|c rest]]]]; by repeat case_match.
Qed.

Lemma separate_end buf delim n : switch_separate_string buf delim n = None -> last buf = Some ESCAPE_META.
Proof.
  unfold switch_separate_string. destruct (n =? 0); [done|]. pose proof (prefix_last buf delim) as Hl.
  destruct (separator_prefix buf delim) as [b d]. cbn [fst] in Hl. rewrite <-Hl.
  destruct (d =? 32); intros Hs%fmap_None; [by eapply blank_scan_end|by eapply char_scan_end].
Qed.

(** C29: the tokenizer stays within its buffer and its array.  Whatever the
    string, the separator, the quoting and the length of the array: a scan ends
    with at most [arraylen] tokens, unless the string ends in a backslash; only
    such a string can carry the scan behind the terminator of the buffer.  And it
    does for text that is plain up to the final backslash (not empty, without
    quotes, separators or backslashes and without a caret in front, which could
    be the ^^ that names a separator), with a separator that is neither a blank,
    a quote nor a backslash, and an array of at least two entries (with one entry
    the text is not scanned at all). *)
Theorem separate_string_safe buf delim n s :
  0 <= n ->
  match switch_separate_string buf delim n with Some res => zlen res <= n | None => last buf = Some ESCAPE_META end
  /\ (2 <= n -> separator_ok delim -> Forall (fun c => c ∉ special delim) s -> head s <> Some 94 -> s <> [] ->
      switch_separate_string (s ++ [ESCAPE_META]) delim n = None).
Proof.
  intros Hn. split.
  { destruct (switch_separate_string buf delim n) as [res|] eqn:E; [by eapply separate_bound|by eapply separate_end]. }
  intros Hn2 Hsep Hs Hhead Hne.
  unfold switch_separate_string. rewrite (proj2 (Z.eqb_neq n 0)) by lia.
  rewrite separator_prefix_none by by destruct s.
  pose proof Hsep as (_ & ? & _). rewrite (proj2 (Z.eqb_neq delim 32)) by done.
  unfold separate_string_char_delim. rewrite scan_start; [|by destruct s|unfold zlen; simpl; lia].
  assert (concat (esc1 delim <$> s) = s) as <-.
  { clear -Hs. induction Hs as [|c s Hc Hs IH]; [done|]. rewrite fmap_cons. simpl. unfold esc1 at 1.
    rewrite bool_decide_eq_false_2 by done. simpl. by rewrite IH. }
  by rewrite scan_escaped.
Qed.

Lemma separate_string_safe_witness :
  match switch_separate_string (str "a,b,c") 44 2 with Some res => zlen res <= 2 | None => last (str "a,b,c") = Some ESCAPE_META end
  /\ switch_separate_string (str "ab" ++ [ESCAPE_META]) 44 2 = None.
Proof.
  split.
  - exact (proj1 (separate_string_safe (str "a,b,c") 44 2 (str "ab") ltac:(lia))).
  - apply (separate_string_safe (str "a,b,c") 44 2 (str "ab") ltac:(lia)).
    + lia.
    + unfold separator_ok, QUOTE, ESCAPE_META. lia.
    + repeat constructor; apply (bool_decide_unpack _); vm_compute; exact I.
    + discriminate.
    + discriminate.
Defined.

End Tokenizer.
