(* ===== verification/Event.v ===== *)
(** * Events and their headers (switch_event.c)

    An event is a typed list of named headers.  The list is singly linked with
    a tail pointer, [last_header]; a header is identified here by its address
    [h_addr], so that the tail pointer is a real pointer that can go stale, and
    linking a header behind it cuts off whatever followed.  A header is a plain
    value or an array of values with a rendered form in [value]. *)

From stdpp Require Import pretty.
From S2P Require Import Prelude CString Encoding Tokenizer.

Module Event.
Import CString.

(** ** Data *)

(** [switch_stack_t]. *)
Definition SWITCH_STACK_BOTTOM : Z := Z.shiftl 1 0.
Definition SWITCH_STACK_TOP : Z := Z.shiftl 1 1.
Definition SWITCH_STACK_NODUP : Z := Z.shiftl 1 2.
Definition SWITCH_STACK_UNSHIFT : Z := Z.shiftl 1 3.
Definition SWITCH_STACK_PUSH : Z := Z.shiftl 1 4.

(** [switch_event_flag_t]. *)
Definition EF_UNIQ_HEADERS : Z := Z.shiftl 1 0.

(** The event types the routines below distinguish, as enumerated. *)
Definition SWITCH_EVENT_CUSTOM : Z := 0.
Definition SWITCH_EVENT_CLONE : Z := 1.
Definition SWITCH_EVENT_MESSAGE : Z := 37.
Definition SWITCH_EVENT_REQUEST_PARAMS : Z := 60.
Definition SWITCH_EVENT_CHANNEL_DATA : Z := 61.
Definition SWITCH_EVENT_ALL : Z := 87.

(** [struct switch_event_header]; [idx] is the length of [h_array]. *)
Record header := mk_header {
  h_addr : Z; h_name : bytes; h_value : option bytes; h_array : list bytes; h_hash : Z }.

Definition h_idx (h : header) : Z := zlen (h_array h).

(** [struct switch_event]; [fresh] is the next unused header address. *)
Record event := mk_event {
  event_id : Z; priority : Z; owner : option bytes; subclass_name : option bytes;
  headers : list header; last_header : option Z; body : option bytes;
  bind_user_data : option Z; event_user_data : option Z; key : Z; flags : Z; fresh : Z }.

Definition set_headers (hs : list header) (last : option Z) (ev : event) : event :=
  mk_event (event_id ev) (priority ev) (owner ev) (subclass_name ev) hs last (body ev)
    (bind_user_data ev) (event_user_data ev) (key ev) (flags ev) (fresh ev).
Definition set_body (b : option bytes) (ev : event) : event :=
  mk_event (event_id ev) (priority ev) (owner ev) (subclass_name ev) (headers ev) (last_header ev) b
    (bind_user_data ev) (event_user_data ev) (key ev) (flags ev) (fresh ev).
Definition set_subclass (s : option bytes) (ev : event) : event :=
  mk_event (event_id ev) (priority ev) (owner ev) s (headers ev) (last_header ev) (body ev)
    (bind_user_data ev) (event_user_data ev) (key ev) (flags ev) (fresh ev).
Definition set_fresh (n : Z) (ev : event) : event :=
  mk_event (event_id ev) (priority ev) (owner ev) (subclass_name ev) (headers ev) (last_header ev) (body ev)
    (bind_user_data ev) (event_user_data ev) (key ev) (flags ev) n.
Definition set_flags (f : Z) (ev : event) : event :=
  mk_event (event_id ev) (priority ev) (owner ev) (subclass_name ev) (headers ev) (last_header ev) (body ev)
    (bind_user_data ev) (event_user_data ev) (key ev) f (fresh ev).
Definition set_event_id (i : Z) (ev : event) : event :=
  mk_event i (priority ev) (owner ev) (subclass_name ev) (headers ev) (last_header ev) (body ev)
    (bind_user_data ev) (event_user_data ev) (key ev) (flags ev) (fresh ev).
Definition set_priority (p : Z) (ev : event) : event :=
  mk_event (event_id ev) p (owner ev) (subclass_name ev) (headers ev) (last_header ev) (body ev)
    (bind_user_data ev) (event_user_data ev) (key ev) (flags ev) (fresh ev).
Definition set_user_data (b e : option Z) (k : Z) (ev : event) : event :=
  mk_event (event_id ev) (priority ev) (owner ev) (subclass_name ev) (headers ev) (last_header ev) (body ev)
    b e k (flags ev) (fresh ev).

(** The zeroed event of a fresh allocation. *)
Definition blank_event : event := mk_event 0 0 None None [] None None None None 0 0 1.

(** ** Looking up *)

(** [(!hp->hash || hash == hp->hash) && !strcasecmp(hp->name, header_name)]. *)
Definition hash_match (hash : Z) (name : bytes) (hp : header) : bool :=
  ((h_hash hp =? 0) || (hash =? h_hash hp)) && strcaseeq (h_name hp) name.

Definition switch_event_get_header_ptr (ev : event) (header_name : bytes) : option header :=
  let hash := switch_ci_hashfunc_default header_name in
  List.find (hash_match hash header_name) (headers ev).

Definition switch_event_get_header_idx (ev : event) (header_name : bytes) (idx : Z) : option bytes :=
  match switch_event_get_header_ptr ev header_name with
  | Some hp =>
    if -1 <? idx then
      if idx <? h_idx hp then h_array hp !! Z.to_nat idx else None
    else h_value hp
  | None => if streq header_name (str "_body") then body ev else None
  end.

(** The macro [switch_event_get_header]. *)
Definition switch_event_get_header (ev : event) (header_name : bytes) : option bytes :=
  switch_event_get_header_idx ev header_name (-1).

Definition switch_event_get_body (ev : event) : option bytes := body ev.

(** ** Deleting and renaming *)

Definition val_match (val : option bytes) (hp : header) : bool :=
  zstr val || bool_decide (h_value hp = val).

(** The walk over the list: [lp] is the last header kept so far. *)
Fixpoint del_header_loop (hash : Z) (name : bytes) (val : option bytes) (hs : list header)
    (lp last : option Z) : list header * option Z * bool :=
  match hs with
  | [] => ([], last, false)
  | hp :: tp =>
    if hash_match hash name hp && val_match val hp then
      let last := if bool_decide (last = Some (h_addr hp)) || bool_decide (tp = []) then lp else last in
      let '(hs', last, _) := del_header_loop hash name val tp lp last in (hs', last, true)
    else
      let '(hs', last, st) := del_header_loop hash name val tp (Some (h_addr hp)) last in
      (hp :: hs', last, st)
  end.

Definition switch_event_del_header_val (ev : event) (header_name : bytes) (val : option bytes)
  : event * switch_status :=
  let hash := switch_ci_hashfunc_default header_name in
  let '(hs, last, found) := del_header_loop hash header_name val (headers ev) None (last_header ev) in
  (set_headers hs last ev, if found then SWITCH_STATUS_SUCCESS else SWITCH_STATUS_FALSE).

(** The macro [switch_event_del_header]. *)
Definition switch_event_del_header (ev : event) (header_name : bytes) : event :=
  (switch_event_del_header_val ev header_name None).1.

Definition rename (hash : Z) (header_name new_header_name : bytes) (hp : header) : header :=
  if hash_match hash header_name hp then
    mk_header (h_addr hp) new_header_name (h_value hp) (h_array hp) (switch_ci_hashfunc_default new_header_name)
  else hp.

Definition switch_event_rename_header (ev : event) (header_name new_header_name : bytes) : event * switch_status :=
  let hash := switch_ci_hashfunc_default header_name in
  (set_headers (rename hash header_name new_header_name <$> headers ev) (last_header ev) ev,
   if existsb (hash_match hash header_name) (headers ev) then SWITCH_STATUS_SUCCESS else SWITCH_STATUS_FALSE).

(** ** Adding *)

Definition has_flag (stack f : Z) : bool := test_flag stack f.

(** [new_header]: zeroed, with its name. *)
Definition new_header (addr : Z) (header_name : bytes) : header := mk_header addr header_name None [] 0.

(** The label [redraw]: the rendered form of an array; every element after the
    first is preceded by the separator. *)
Definition redraw_tail (array : list bytes) : bytes := concat ((fun d => str "|:" ++ d) <$> array).

Definition redraw (array : list bytes) : bytes :=
  (if 1 <? zlen array then str "ARRAY::" else [])
  ++ match array with [] => [] | d :: ds => d ++ redraw_tail ds end.

Definition with_array (array : list bytes) (hp : header) : header :=
  mk_header (h_addr hp) (h_name hp) (if bool_decide (array = []) then h_value hp else Some (redraw array))
    array (h_hash hp).

(** Pushing or unshifting a value; a plain value becomes the first slot. *)
Definition array_add (stack : Z) (data : bytes) (hp : header) : header :=
  let array := match h_value hp with
               | Some v => if h_idx hp =? 0 then [v] else h_array hp
               | None => h_array hp
               end in
  with_array (if has_flag stack SWITCH_STACK_PUSH then array ++ [data] else data :: array) hp.

(** Growing an array to reach slot [index]. *)
Definition array_grow (index : Z) (data : bytes) (hp : header) : header :=
  with_array (h_array hp ++ replicate (Z.to_nat (index - h_idx hp)) [] ++ [data]) hp.

(** Storing to an existing slot: [goto end], the rendered form is not redrawn. *)
Definition array_set (index : Z) (data : bytes) (hp : header) : header :=
  mk_header (h_addr hp) (h_name hp) (h_value hp) (<[Z.to_nat index := data]> (h_array hp)) (h_hash hp).

(** An update through the pointer to a linked header. *)
Definition update_header (addr : Z) (f : header -> header) (ev : event) : event :=
  set_headers ((fun h => if h_addr h =? addr then f h else h) <$> headers ev) (last_header ev) ev.

(** [last->next = header]: what follows [last] is cut off. *)
Fixpoint link_after (last : Z) (hp : header) (hs : list header) : list header :=
  match hs with
  | [] => []
  | h :: hs => if h_addr h =? last then [h; hp] else h :: link_after last hp hs
  end.

Definition link_header (stack : Z) (hp : header) (ev : event) : event :=
  let hp := mk_header (h_addr hp) (h_name hp) (h_value hp) (h_array hp) (switch_ci_hashfunc_default (h_name hp)) in
  if has_flag stack SWITCH_STACK_TOP then
    set_headers (hp :: headers ev)
      (match last_header ev with None => Some (h_addr hp) | l => l end) ev
  else
    set_headers (match last_header ev with
                 | Some last => link_after last hp (headers ev)
                 | None => [hp]
                 end) (Some (h_addr hp)) ev.

(** [name[index]]: the index and the name before the bracket. *)
Definition split_index (header_name : bytes) : option Z * bytes :=
  match strchr header_name 91 with
  | Some i => (Some (atoi (zdrop (i + 1) header_name)), ztake i header_name)
  | None => (None, header_name)
  end.

(** [switch_event_add_array] counts the separators of what follows the first
    7 bytes and splits it into that many elements. *)
Fixpoint count_separators (fuel : nat) (p : bytes) : Z :=
  match fuel with
  | O => 0
  | S fuel =>
    match strstr p (str "|:") with
    | Some d => 1 + count_separators fuel (zdrop (d + 2) p)
    | None => 0
    end
  end.

Definition array_elements (val : bytes) : list bytes :=
  let val := zdrop 7 val in
  let max := 1 + count_separators (length val) val in
  Tokenizer.switch_separate_string_string val (str "|:") max.

(** The part of switch_event_base_add_header for a name with no header yet (or
    one added besides it): an empty value deletes, a rendered array is
    unfolded by [add_array], anything else becomes a new header. *)
Definition add_new (add_array : event -> bytes -> event) (stack : Z) (header_name data : bytes) (ev : event) : event :=
  if bool_decide (data = []) then switch_event_del_header ev header_name
  else
    let ev := if test_flag (flags ev) EF_UNIQ_HEADERS then switch_event_del_header ev header_name else ev in
    match strstr data (str "ARRAY::") with
    | Some _ => add_array ev header_name
    | None =>
      let hp := new_header (fresh ev) header_name in
      let ev := set_fresh (fresh ev + 1) ev in
      let hp := if has_flag stack SWITCH_STACK_PUSH || has_flag stack SWITCH_STACK_UNSHIFT
                then array_add stack data hp
                else mk_header (h_addr hp) (h_name hp) (Some data) (h_array hp) (h_hash hp) in
      link_header stack hp ev
    end.

(** switch_event_base_add_header.  The fuel bounds the nesting of rendered
    arrays inside [data]: each level strips 7 bytes of it. *)
Fixpoint base_add_header (fuel : nat) (ev : event) (stack : Z) (header_name data : bytes) : event :=
  let ev := if streq header_name (str "_body") then set_body (Some data) ev else ev in
  let '(index_ptr, header_name) := split_index header_name in
  let add_array ev name :=
    match fuel with
    | S fuel =>
      if zlen data <? 8 then ev
      else foldl (fun ev d => base_add_header fuel ev SWITCH_STACK_PUSH name d) ev (array_elements data)
    | O => ev
    end in
  let pushing := has_flag stack SWITCH_STACK_PUSH || has_flag stack SWITCH_STACK_UNSHIFT in
  match (if bool_decide (is_Some index_ptr) || pushing then switch_event_get_header_ptr ev header_name else None) with
  | Some hp =>
    match index_ptr with
    | Some index =>
      if (-1 <? index) && (index <=? 4000) then
        if index <? h_idx hp then update_header (h_addr hp) (array_set index data) ev
        else update_header (h_addr hp) (array_grow index data) ev
      else ev
    | None => update_header (h_addr hp) (array_add stack data) ev
    end
  | None =>
    let ev := if bool_decide (is_Some index_ptr) && test_flag (flags ev) EF_UNIQ_HEADERS
              then switch_event_del_header ev header_name else ev in
    add_new add_array stack header_name data ev
  end.

Definition switch_event_base_add_header (ev : event) (stack : Z) (header_name data : bytes) : event :=
  base_add_header (S (length data)) ev stack header_name data.

Definition switch_event_add_header_string (ev : event) (stack : Z) (header_name : bytes) (data : option bytes)
  : event * switch_status :=
  match data with
  | Some data => (switch_event_base_add_header ev stack header_name data, SWITCH_STATUS_SUCCESS)
  | None => (ev, SWITCH_STATUS_GENERR)
  end.

Definition switch_event_set_body (ev : event) (b : option bytes) : event := set_body b ev.

Definition switch_event_set_subclass_name (ev : event) (name : option bytes) : event * switch_status :=
  match name with
  | None => (ev, SWITCH_STATUS_GENERR)
  | Some name =>
    let ev := set_subclass (Some name) ev in
    let ev := switch_event_del_header ev (str "Event-Subclass") in
    ((switch_event_add_header_string ev SWITCH_STACK_BOTTOM (str "Event-Subclass") (Some name)).1,
     SWITCH_STATUS_SUCCESS)
  end.

(** ** Creating *)

Definition EVENT_NAMES : list bytes :=
  [str "CUSTOM"; str "CLONE"; str "CHANNEL_CREATE"; str "CHANNEL_DESTROY"; str "CHANNEL_STATE";
   str "CHANNEL_CALLSTATE"; str "CHANNEL_ANSWER"; str "CHANNEL_HANGUP"; str "CHANNEL_HANGUP_COMPLETE";
   str "CHANNEL_EXECUTE"; str "CHANNEL_EXECUTE_COMPLETE"; str "CHANNEL_HOLD"; str "CHANNEL_UNHOLD";
   str "CHANNEL_BRIDGE"; str "CHANNEL_UNBRIDGE"; str "CHANNEL_PROGRESS"; str "CHANNEL_PROGRESS_MEDIA";
   str "CHANNEL_OUTGOING"; str "CHANNEL_PARK"; str "CHANNEL_UNPARK"; str "CHANNEL_APPLICATION";
   str "CHANNEL_ORIGINATE"; str "CHANNEL_UUID"; str "API"; str "LOG"; str "INBOUND_CHAN";
   str "OUTBOUND_CHAN"; str "STARTUP"; str "SHUTDOWN"; str "PUBLISH"; str "UNPUBLISH"; str "TALK";
   str "NOTALK"; str "SESSION_CRASH"; str "MODULE_LOAD"; str "MODULE_UNLOAD"; str "DTMF"; str "MESSAGE";
   str "PRESENCE_IN"; str "NOTIFY_IN"; str "PRESENCE_OUT"; str "PRESENCE_PROBE"; str "MESSAGE_WAITING";
   str "MESSAGE_QUERY"; str "ROSTER"; str "CODEC"; str "BACKGROUND_JOB"; str "DETECTED_SPEECH";
   str "DETECTED_TONE"; str "PRIVATE_COMMAND"; str "HEARTBEAT"; str "TRAP"; str "ADD_SCHEDULE";
   str "DEL_SCHEDULE"; str "EXE_SCHEDULE"; str "RE_SCHEDULE"; str "RELOADXML"; str "NOTIFY";
   str "SEND_MESSAGE"; str "RECV_MESSAGE"; str "REQUEST_PARAMS"; str "CHANNEL_DATA"; str "GENERAL";
   str "COMMAND"; str "SESSION_HEARTBEAT"; str "CLIENT_DISCONNECTED"; str "SERVER_DISCONNECTED";
   str "SEND_INFO"; str "RECV_INFO"; str "RECV_RTCP_MESSAGE"; str "CALL_SECURE"; str "NAT";
   str "RECORD_START"; str "RECORD_STOP"; str "PLAYBACK_START"; str "PLAYBACK_STOP"; str "CALL_UPDATE";
   str "FAILURE"; str "SOCKET_DATA"; str "MEDIA_BUG_START"; str "MEDIA_BUG_STOP";
   str "CONFERENCE_DATA_QUERY"; str "CONFERENCE_DATA"; str "CALL_SETUP_REQ"; str "CALL_SETUP_RESULT";
   str "CALL_DETAIL"; str "DEVICE_STATE"; str "ALL"].

(** [switch_event_name]. *)
Definition switch_event_name (e : Z) : option bytes := EVENT_NAMES !! Z.to_nat e.

Definition switch_priority_name (p : Z) : bytes :=
  if p =? 0 then str "NORMAL" else if p =? 1 then str "LOW" else if p =? 2 then str "HIGH" else str "INVALID".

Definition switch_event_set_priority (ev : event) (p : Z) : event :=
  (switch_event_add_header_string (set_priority p ev) SWITCH_STACK_TOP (str "priority") (Some (switch_priority_name p))).1.

(** Decimal rendering, [%d] and [%lu]. *)
Definition dec (z : Z) : bytes := str (pretty z).

(** What switch_event_prep_for_delivery_detailed reads of its surroundings:
    identity of the core, guessed addresses, the clock and the call site. *)
Record delivery_env := mk_env {
  env_uuid : option bytes; env_hostname : option bytes; env_switchname : option bytes;
  env_ipv4 : bytes; env_ipv6 : bytes; env_date_local : bytes; env_date_gmt : bytes; env_ts : Z;
  env_file : option bytes; env_func : option bytes; env_line : Z }.

(** The headers of a delivery, in order, with the already incremented sequence
    number ([switch_cut_path] is applied to the file name by the caller of the
    model). *)
Definition delivery_headers (env : delivery_env) (event_id seq : Z) : list (bytes * option bytes) :=
  [(str "Event-Name", switch_event_name event_id);
   (str "Core-UUID", env_uuid env);
   (str "FreeSWITCH-Hostname", env_hostname env);
   (str "FreeSWITCH-Switchname", env_switchname env);
   (str "FreeSWITCH-IPv4", Some (env_ipv4 env));
   (str "FreeSWITCH-IPv6", Some (env_ipv6 env));
   (str "Event-Date-Local", Some (env_date_local env));
   (str "Event-Date-GMT", Some (env_date_gmt env));
   (str "Event-Date-Timestamp", Some (dec (env_ts env)));
   (str "Event-Calling-File", env_file env);
   (str "Event-Calling-Function", env_func env);
   (str "Event-Calling-Line-Number", Some (dec (env_line env)));
   (str "Event-Sequence", Some (dec seq))].

Definition add_bottom (ev : event) (nv : bytes * option bytes) : event :=
  (switch_event_add_header_string ev SWITCH_STACK_BOTTOM nv.1 nv.2).1.

(** The event and the new value of EVENT_SEQUENCE_NR. *)
Definition switch_event_prep_for_delivery (env : delivery_env) (seq : Z) (ev : event) : event * Z :=
  let seq := u64 (seq + 1) in
  (foldl add_bottom ev (delivery_headers env (event_id ev) seq), seq).

Definition switch_event_create_subclass (env : delivery_env) (seq id : Z) (subclass : option bytes)
  : option event * Z * switch_status :=
  if negb (id =? SWITCH_EVENT_CLONE) && negb (id =? SWITCH_EVENT_CUSTOM) && bool_decide (is_Some subclass)
  then (None, seq, SWITCH_STATUS_GENERR)
  else
    let ev := blank_event in
    let ev := if (id =? SWITCH_EVENT_REQUEST_PARAMS) || (id =? SWITCH_EVENT_CHANNEL_DATA) || (id =? SWITCH_EVENT_MESSAGE)
              then set_flags (Z.lor (flags ev) EF_UNIQ_HEADERS) ev else ev in
    let '(ev, seq) := if negb (id =? SWITCH_EVENT_CLONE)
                      then switch_event_prep_for_delivery env seq (set_event_id id ev) else (ev, seq) in
    let ev := match subclass with
              | Some s => (switch_event_add_header_string (set_subclass (Some s) ev) SWITCH_STACK_BOTTOM
                             (str "Event-Subclass") (Some s)).1
              | None => ev
              end in
    (Some ev, seq, SWITCH_STATUS_SUCCESS).

(** A CLONE event needs nothing of the environment. *)
Definition create_clone (subclass : option bytes) : event :=
  match subclass with
  | Some s => (switch_event_add_header_string (set_subclass (Some s) blank_event) SWITCH_STACK_BOTTOM
                 (str "Event-Subclass") (Some s)).1
  | None => blank_event
  end.

Lemma create_clone_spec env seq s :
  switch_event_create_subclass env seq SWITCH_EVENT_CLONE s = (Some (create_clone s), seq, SWITCH_STATUS_SUCCESS).
Proof. by destruct s. Qed.

Definition switch_event_create_plain (id : Z) : event :=
  let ev := set_event_id id (create_clone None) in
  if (id =? SWITCH_EVENT_REQUEST_PARAMS) || (id =? SWITCH_EVENT_CHANNEL_DATA)
  then set_flags (Z.lor (flags ev) EF_UNIQ_HEADERS) ev else ev.

Definition switch_event_create_array_pair (pairs : list (option bytes * option bytes)) : event :=
  foldl (fun ev '(name, val) =>
           (switch_event_add_header_string ev SWITCH_STACK_BOTTOM
              (match name with Some (c :: n) => c :: n | _ => str "Unknown" end) (Some (default [] val))).1)
    (create_clone None) pairs.

(** ** Copying *)

(** One header of another event, under the name [name]. *)
Definition copy_header (name : bytes) (hp : header) (ev : event) : event :=
  if h_idx hp =? 0 then (switch_event_add_header_string ev SWITCH_STACK_BOTTOM name (h_value hp)).1
  else foldl (fun ev d => (switch_event_add_header_string ev SWITCH_STACK_PUSH name (Some d)).1) ev (h_array hp).

Definition switch_event_merge (ev tomerge : event) : event :=
  foldl (fun ev hp => copy_header (h_name hp) hp ev) ev (headers tomerge).

(** The event switch_event_dup and switch_event_dup_reply start from. *)
Definition dup_base (todup : event) : event :=
  set_flags (flags todup)
    (set_user_data (bind_user_data todup) (event_user_data todup) 0
       (set_event_id (event_id todup) (create_clone (subclass_name todup)))).

(** The headers copied: all but the subclass header of a subclassed event. *)
Definition dup_skips (todup : event) (hp : header) : bool :=
  bool_decide (is_Some (subclass_name todup)) && streq (h_name hp) (str "Event-Subclass").

Definition dup_headers (todup : event) (name_of : header -> bytes) (ev : event) : event :=
  foldl (fun ev hp => if dup_skips todup hp then ev else copy_header (name_of hp) hp ev) ev (headers todup).

Definition switch_event_dup (todup : event) : event :=
  let ev := dup_headers todup h_name (dup_base todup) in
  let ev := match body todup with Some b => set_body (Some b) ev | None => ev end in
  set_user_data (bind_user_data ev) (event_user_data ev) (key todup) ev.

(** [switch_snprintf(hname, sizeof(hname), ...)] with a 1024-byte buffer. *)
Definition snprintf (size : Z) (s : bytes) : bytes := if size =? 0 then [] else ztake (size - 1) s.

Definition reply_name (hp : header) : bytes :=
  let name := h_name hp in
  if strncaseeq name (str "from_") 5 then snprintf 1024 (str "to_" ++ zdrop 5 name)
  else if strncaseeq name (str "to_") 3 then snprintf 1024 (str "from_" ++ zdrop 3 name)
  else if strcaseeq name (str "to") then str "from"
  else if strcaseeq name (str "from") then str "to"
  else name.

Definition switch_event_dup_reply (todup : event) : event :=
  let ev := dup_headers todup reply_name (dup_base todup) in
  let ev := add_bottom ev (str "replying", Some (str "true")) in
  let ev := match body todup with Some b => add_bottom ev (str "orig_body", Some b) | None => ev end in
  set_user_data (bind_user_data ev) (event_user_data ev) (key todup) ev.

(** ** Serializing *)

(** The C string in a written buffer. *)
Definition c_string (w : bytes) : bytes := match strchr w 0 with Some i => ztake i w | None => w end.

(** The room asked for the encoding of one header. *)
Definition encode_room (hp : header) : Z :=
  if h_idx hp =? 0 then zlen (default [] (h_value hp)) * 3 + 1
  else foldl (fun n a => n + (zlen a * 3 + 1)) 0 (h_array hp).

Definition encode_value (encode : bool) (encode_len : Z) (value : bytes) : bytes :=
  if encode then c_string (Encoding.switch_url_encode value encode_len)
  else snprintf encode_len ([91] ++ value ++ [93]).

Definition header_line (name encoded : bytes) : bytes :=
  name ++ str ": " ++ (if bool_decide (encoded = []) then str "_undef_" else encoded) ++ [10].

Definition blocksize : Z := 512.

(** [dlen] after making room for [llen] more bytes. *)
Definition grow (dlen len llen : Z) : Z := if len + llen >? dlen then dlen + (blocksize + (len + llen)) else dlen.

Fixpoint serialize_headers (encode : bool) (hs : list header) (encode_len dlen : Z) (buf : bytes) : Z * bytes :=
  match hs with
  | [] => (dlen, buf)
  | hp :: hs =>
    let encode_len := Z.max encode_len (encode_room hp) in
    let enc := encode_value encode encode_len (default [] (h_value hp)) in
    let dlen := grow dlen (zlen buf) (zlen (h_name hp) + zlen enc + 8) in
    serialize_headers encode hs encode_len dlen
      (buf ++ snprintf (dlen - zlen buf) (header_line (h_name hp) enc))
  end.

Definition switch_event_serialize (ev : event) (encode : bool) : bytes :=
  let '(dlen, buf) := serialize_headers encode (headers ev) 1536 (blocksize * 2) [] in
  match body ev with
  | Some b =>
    let blen := zlen b in
    let llen := blen + (if blen =? 0 then 5 else 25) in
    let dlen := grow dlen (zlen buf) llen in
    if blen =? 0 then buf ++ snprintf (dlen - zlen buf) [10]
    else buf ++ snprintf (dlen - zlen buf) (str "Content-Length: " ++ dec blen ++ [10; 10] ++ b)
  | None => buf ++ snprintf (dlen - zlen buf) [10]
  end.

(** ** Invariant *)

Create HintDb event_wf.

Implicit Types (ev : event) (h hp : header) (hs : list header).

Record ev_wf ev : Prop := {
  wf_nodup : NoDup (h_addr <$> headers ev);
  wf_addr : Forall (fun h => 0 < h_addr h < fresh ev) (headers ev);
  wf_last : last_header ev = h_addr <$> last (headers ev);
  wf_hash : Forall (fun h => h_hash h = switch_ci_hashfunc_default (h_name h)) (headers ev);
  wf_value : Forall (fun h => is_Some (h_value h)) (headers ev);
  wf_fresh : 0 < fresh ev }.

Definition named (name : bytes) h : bool := strcaseeq (h_name h) name.

Lemma hash_match_named ev name h :
  ev_wf ev -> h ∈ headers ev -> hash_match (switch_ci_hashfunc_default name) name h = named name h.
Proof.
  intros Hwf Hh. unfold hash_match, named. destruct (strcaseeq (h_name h) name) eqn:Heq; [|by rewrite andb_false_r].
  rewrite (proj1 (Forall_forall _ _) (wf_hash ev Hwf) h Hh), andb_true_r.
  apply strcaseeq_spec in Heq. rewrite (ci_hash_proper (h_name h) name Heq), Z.eqb_refl. apply orb_true_r.
Qed.

Lemma find_ext {A} (f g : A -> bool) l : (forall x, x ∈ l -> f x = g x) -> List.find f l = List.find g l.
Proof.
  induction l as [|x l IH]; intros Hfg; [done|]. simpl. rewrite (Hfg x) by by left.
  destruct (g x); [done|]. apply IH. intros y Hy. apply Hfg. by right.
Qed.

Lemma get_ptr_named ev name :
  ev_wf ev -> switch_event_get_header_ptr ev name = List.find (named name) (headers ev).
Proof. intros Hwf. apply find_ext. intros h Hh. by eapply hash_match_named. Qed.

(** The walk of a deletion keeps the other headers and moves the tail pointer. *)
Lemma del_loop_spec hash name val hs : forall lp last,
  NoDup (h_addr <$> hs) -> last = from_option (Some ∘ h_addr) lp (list.last hs) ->
  let del h := hash_match hash name h && val_match val h in
  let kept := List.filter (negb ∘ del) hs in
  del_header_loop hash name val hs lp last = (kept, from_option (Some ∘ h_addr) lp (list.last kept), existsb del hs).
Proof.
  induction hs as [|hp tp IH]; intros lp last Hnd Hlast; [by subst|]. simpl.
  rewrite fmap_cons, NoDup_cons in Hnd. destruct Hnd as [Hni Hnd].
  destruct (hash_match hash name hp && val_match val hp); simpl.
  - rewrite IH; [done|done|]. destruct tp as [|h tp].
    { by rewrite (bool_decide_eq_true_2 ([] = [])), orb_true_r. }
    rewrite (bool_decide_eq_false_2 (h :: tp = [])), orb_false_r by done. simpl in Hlast.
    case_bool_decide as Hl; [|done]. exfalso. rewrite Hl in Hlast.
    destruct (list.last (h :: tp)) as [l|] eqn:Hltp; [|by apply last_None in Hltp].
    simpl in Hlast. injection Hlast as Heq. apply Hni. rewrite Heq. apply list_elem_of_fmap.
    exists l. split; [done|]. by apply last_Some_elem_of.
  - rewrite IH; [|done|subst; rewrite last_cons; by destruct (list.last tp)].
    rewrite last_cons. by destruct (list.last (List.filter _ tp)).
Qed.

Lemma sublist_filter {A} (f : A -> bool) l : List.filter f l `sublist_of` l.
Proof. induction l as [|x l IH]; [constructor|]. simpl. destruct (f x); by constructor. Qed.

Lemma filter_ext {A} (f g : A -> bool) l :
  (forall x, x ∈ l -> f x = g x) -> List.filter f l = List.filter g l.
Proof.
  induction l as [|x l IH]; intros Hfg; [done|]. simpl. rewrite (Hfg x) by by left.
  rewrite IH; [done|]. intros y Hy. apply Hfg. by right.
Qed.

Lemma Forall_sublist {A} (P : A -> Prop) l k : l `sublist_of` k -> Forall P k -> Forall P l.
Proof. induction 1; intros Hk; inversion_clear Hk; auto. Qed.

(** Keeping only some of the headers, with the tail pointer adjusted. *)
Lemma wf_sublist ev hs :
  ev_wf ev -> hs `sublist_of` headers ev -> ev_wf (set_headers hs (h_addr <$> last hs) ev).
Proof.
  intros [] Hsub. split; simpl; try (by eapply Forall_sublist); try done.
  eapply sublist_NoDup; [done|]. by apply (fmap_sublist h_addr).
Qed.

Lemma del_header_val_spec ev name val :
  ev_wf ev ->
  let del h := named name h && val_match val h in
  let ev' := (switch_event_del_header_val ev name val).1 in
  ev' = set_headers (headers ev') (last_header ev') ev
  /\ headers ev' = List.filter (negb ∘ del) (headers ev) /\ ev_wf ev'
  /\ (switch_event_del_header_val ev name val).2
     = if existsb del (headers ev) then SWITCH_STATUS_SUCCESS else SWITCH_STATUS_FALSE.
Proof.
  intros Hwf. cbv zeta. unfold switch_event_del_header_val.
  rewrite del_loop_spec; [|by destruct Hwf|].
  2: { rewrite (wf_last ev Hwf). by destruct (list.last (headers ev)). }
  assert (forall h, h ∈ headers ev ->
    hash_match (switch_ci_hashfunc_default name) name h && val_match val h = named name h && val_match val h) as Hext.
  { intros h Hh. by rewrite (hash_match_named ev). }
  assert (List.filter (negb ∘ (fun h => hash_match (switch_ci_hashfunc_default name) name h && val_match val h)) (headers ev)
          = List.filter (negb ∘ (fun h => named name h && val_match val h)) (headers ev)) as Hf.
  { apply filter_ext. intros h Hh. simpl. by rewrite Hext. }
  simpl. rewrite Hf. split_and!; [done|done| |].
  - assert (forall hs, from_option (Some ∘ h_addr) None (list.last hs) = h_addr <$> last hs) as Hl
      by (intros hs; by destruct (list.last hs)).
    rewrite Hl. apply wf_sublist; [done|]. apply sublist_filter.
  - assert (existsb (fun h => hash_match (switch_ci_hashfunc_default name) name h && val_match val h) (headers ev)
            = existsb (fun h => named name h && val_match val h) (headers ev)) as ->; [|done].
    clear Hf. induction (headers ev) as [|h hs IH]; [done|]. simpl. rewrite Hext by by left. f_equal.
    apply IH. intros x Hx. apply Hext. by right.
Qed.

Lemma del_header_spec ev name :
  ev_wf ev ->
  let ev' := switch_event_del_header ev name in
  ev' = set_headers (headers ev') (last_header ev') ev
  /\ headers ev' = List.filter (negb ∘ named name) (headers ev) /\ ev_wf ev'.
Proof.
  intros Hwf. destruct (del_header_val_spec ev name None Hwf) as (Heq & Hhs & Hwf' & _).
  split_and!; [exact Heq| |exact Hwf']. unfold switch_event_del_header. rewrite Hhs.
  apply filter_ext. intros h _. simpl. by rewrite andb_true_r.
Qed.

Lemma link_after_last hs hp addr :
  NoDup (h_addr <$> hs) -> h_addr <$> last hs = Some addr -> link_after addr hp hs = hs ++ [hp].
Proof.
  induction hs as [|h hs IH]; intros Hnd Hl; [done|].
  rewrite fmap_cons, NoDup_cons in Hnd. destruct Hnd as [Hni Hnd]. simpl.
  destruct hs as [|h' hs].
  - injection Hl as ->. by rewrite Z.eqb_refl.
  - rewrite last_cons_cons in Hl. rewrite (proj2 (Z.eqb_neq (h_addr h) addr)); [by rewrite IH|].
    intros <-. apply fmap_Some in Hl as (l & Hl & Heq). apply Hni. rewrite Heq. apply list_elem_of_fmap.
    exists l. split; [done|]. by apply last_Some_elem_of.
Qed.

(** A linked header: name, value and array kept, hash filled in. *)
Definition linked hp : header :=
  mk_header (h_addr hp) (h_name hp) (h_value hp) (h_array hp) (switch_ci_hashfunc_default (h_name hp)).

Lemma link_header_spec ev stack hp :
  ev_wf ev -> 0 < h_addr hp < fresh ev -> h_addr hp ∉ h_addr <$> headers ev -> is_Some (h_value hp) ->
  let ev' := link_header stack hp ev in
  ev' = set_headers (headers ev') (last_header ev') ev
  /\ headers ev' = (if has_flag stack SWITCH_STACK_TOP then linked hp :: headers ev else headers ev ++ [linked hp])
  /\ ev_wf ev'.
Proof.
  intros Hwf Ha Hni Hv. unfold link_header. fold (linked hp). destruct (has_flag stack SWITCH_STACK_TOP); simpl.
  - split_and!; [done|done|]. destruct Hwf as [Hnd Had Hl Hh Hval Hf]. split; simpl; try (by constructor); try done.
    rewrite Hl, last_cons. by destruct (last (headers ev)).
  - assert (match last_header ev with Some l => link_after l (linked hp) (headers ev) | None => [linked hp] end
            = headers ev ++ [linked hp]) as ->.
    { rewrite (wf_last ev Hwf). destruct (last (headers ev)) as [l|] eqn:Hl; simpl.
      - apply link_after_last; [by destruct Hwf|by rewrite Hl].
      - apply last_None in Hl. by rewrite Hl. }
    split_and!; [done|done|]. destruct Hwf as [Hnd Had Hl Hh Hval Hf].
    split; simpl; rewrite ?Forall_app; try (split; [done|by constructor]); try done.
    + rewrite fmap_app. apply NoDup_app. split_and!; [done| |apply NoDup_singleton].
      intros x Hx ->%list_elem_of_singleton. by apply Hni.
    + by rewrite last_snoc.
Qed.

(** An update of one header that keeps its address, name and hash. *)
Definition keeps (f : header -> header) : Prop :=
  forall h, h_addr (f h) = h_addr h /\ h_name (f h) = h_name h /\ h_hash (f h) = h_hash h
    /\ (is_Some (h_value h) -> is_Some (h_value (f h))).

Lemma last_fmap' {A B} (f : A -> B) l : last (f <$> l) = f <$> last l.
Proof. induction l as [|x l IH]; [done|]. rewrite fmap_cons, !last_cons, IH. by destruct (last l). Qed.

Lemma update_header_wf ev addr f : ev_wf ev -> keeps f -> ev_wf (update_header addr f ev).
Proof.
  intros [Hnd Had Hl Hh Hval Hf] Hk.
  assert (forall h, h_addr (if h_addr h =? addr then f h else h) = h_addr h) as Haddr.
  { intros h. destruct (_ =? _); [apply Hk|done]. }
  assert (h_addr <$> headers (update_header addr f ev) = h_addr <$> headers ev) as Hmap.
  { simpl. rewrite <-list_fmap_compose. apply list_fmap_ext. intros _ h _. apply Haddr. }
  split; rewrite ?Hmap; simpl; rewrite ?Forall_fmap; try done.
  - eapply Forall_impl; [exact Had|]. intros h Ha. simpl. by rewrite Haddr.
  - rewrite Hl, <-!last_fmap'. f_equal. symmetry. exact Hmap.
  - eapply Forall_impl; [exact Hh|]. intros h Ha. simpl.
    destruct (_ =? _); [|done]. destruct (Hk h) as (_ & -> & -> & _). done.
  - eapply Forall_impl; [exact Hval|]. intros h Ha. simpl.
    destruct (_ =? _); [|done]. by apply Hk.
Qed.

Lemma wf_same ev ev' :
  headers ev' = headers ev -> last_header ev' = last_header ev -> fresh ev <= fresh ev' -> ev_wf ev -> ev_wf ev'.
Proof.
  intros Hh Hl Hf [Hnd Had Hla Hha Hv Hf0]. split; rewrite ?Hh, ?Hl; try done; [|lia].
  eapply Forall_impl; [exact Had|]. simpl. lia.
Qed.

(** The event differs in what the invariant does not look at. *)
Ltac wf_same H := eapply wf_same; [..|exact H]; simpl; first [done | lia].

Lemma with_array_keeps array hp :
  array <> [] ->
  h_addr (with_array array hp) = h_addr hp /\ h_name (with_array array hp) = h_name hp
  /\ h_hash (with_array array hp) = h_hash hp /\ h_value (with_array array hp) = Some (redraw array)
  /\ h_array (with_array array hp) = array.
Proof. intros Ha. unfold with_array. simpl. by rewrite bool_decide_eq_false_2. Qed.

Lemma array_add_nonempty stack (data : bytes) array :
  (if has_flag stack SWITCH_STACK_PUSH then array ++ [data] else data :: array) <> [].
Proof. destruct (has_flag _ _); [|done]. by destruct array. Qed.

Lemma array_add_keeps stack data : keeps (array_add stack data).
Proof.
  intros h. unfold array_add.
  destruct (with_array_keeps _ h (array_add_nonempty stack data
    (match h_value h with Some v => if h_idx h =? 0 then [v] else h_array h | None => h_array h end)))
    as (-> & -> & -> & -> & _). by split_and!.
Qed.

Lemma array_grow_keeps index data : keeps (array_grow index data).
Proof.
  intros h. unfold array_grow.
  destruct (with_array_keeps (h_array h ++ replicate (Z.to_nat (index - h_idx h)) [] ++ [data]) h)
    as (-> & -> & -> & -> & _); [|by split_and!]. by destruct (h_array h), (Z.to_nat (index - h_idx h)).
Qed.

Lemma array_set_keeps index data : keeps (array_set index data).
Proof. by intros h. Qed.

Lemma fresh_not_in ev : ev_wf ev -> fresh ev ∉ h_addr <$> headers ev.
Proof.
  intros Hwf (h & Heq & Hh)%list_elem_of_fmap.
  pose proof (proj1 (Forall_forall _ _) (wf_addr ev Hwf) h Hh). simpl in *. lia.
Qed.

(** The header [add_new] links. *)
Definition new_entry (stack addr : Z) (name data : bytes) : header :=
  if has_flag stack SWITCH_STACK_PUSH || has_flag stack SWITCH_STACK_UNSHIFT
  then array_add stack data (new_header addr name)
  else mk_header addr name (Some data) [] 0.

Lemma new_entry_fields stack addr name data :
  h_addr (new_entry stack addr name data) = addr /\ h_name (new_entry stack addr name data) = name
  /\ h_value (new_entry stack addr name data) = Some data.
Proof.
  unfold new_entry. destruct (_ || _); [|done]. unfold array_add. simpl.
  destruct (has_flag stack SWITCH_STACK_PUSH); unfold with_array, redraw, redraw_tail; simpl; by rewrite app_nil_r.
Qed.

Lemma add_new_wf add_array stack name data ev :
  (forall ev name, ev_wf ev -> ev_wf (add_array ev name)) -> ev_wf ev -> ev_wf (add_new add_array stack name data ev).
Proof.
  intros Harr Hwf. unfold add_new. case_bool_decide as Hd; [by apply del_header_spec|].
  assert (ev_wf (if test_flag (flags ev) EF_UNIQ_HEADERS then switch_event_del_header ev name else ev)) as Hwf1.
  { destruct (test_flag _ _); [by apply del_header_spec|done]. }
  revert Hwf1. generalize (if test_flag (flags ev) EF_UNIQ_HEADERS then switch_event_del_header ev name else ev).
  intros ev1 Hwf1. destruct (strstr data (str "ARRAY::")); [by apply Harr|].
  change (ev_wf (link_header stack (new_entry stack (fresh ev1) name data) (set_fresh (fresh ev1 + 1) ev1))).
  destruct (new_entry_fields stack (fresh ev1) name data) as (Ha & _ & Hv). pose proof (wf_fresh _ Hwf1).
  apply link_header_spec; rewrite ?Ha, ?Hv; simpl; [|lia|by apply fresh_not_in|done].
  eapply wf_same; [..|exact Hwf1]; simpl; [done|done|lia].
Qed.

Lemma foldl_inv {A B} (P : A -> Prop) (f : A -> B -> A) l a :
  P a -> (forall a b, P a -> P (f a b)) -> P (foldl f a l).
Proof. revert a. induction l; simpl; auto. Qed.

Lemma base_add_header_wf fuel : forall ev stack name data,
  ev_wf ev -> ev_wf (base_add_header fuel ev stack name data).
Proof.
  induction fuel as [|fuel IH]; intros ev stack name data Hwf; simpl;
    (assert (ev_wf (if streq name (str "_body") then set_body (Some data) ev else ev)) as Hwf1
      by (destruct (streq _ _); [by eapply wf_same; [..|exact Hwf]|done]));
    revert Hwf1; generalize (if streq name (str "_body") then set_body (Some data) ev else ev);
    intros ev1 Hwf1; destruct (split_index name) as [ip nm];
    (destruct (if bool_decide (is_Some ip) || _ then _ else None) as [hp|];
     [destruct ip as [index|]; [destruct ((-1 <? index) && (index <=? 4000)); [destruct (index <? h_idx hp)|]|]|]);
    try (apply update_header_wf; [done|auto using array_set_keeps, array_grow_keeps, array_add_keeps]); try done.
  all: assert (ev_wf (if bool_decide (is_Some ip) && test_flag (flags ev1) EF_UNIQ_HEADERS
                 then switch_event_del_header ev1 nm else ev1)) as Hwf2
    by (destruct (_ && _); [by apply del_header_spec|done]).
  all: apply add_new_wf; [|done]; intros ev2 nm2 Hwf3; try done.
  destruct (zlen data <? 8); [done|]. apply foldl_inv; auto.
Qed.

Lemma add_header_wf ev stack name data : ev_wf ev -> ev_wf (switch_event_add_header_string ev stack name data).1.
Proof. intros Hwf. destruct data; [|done]. by apply base_add_header_wf. Qed.

Lemma del_header_wf ev name val : ev_wf ev -> ev_wf (switch_event_del_header_val ev name val).1.
Proof. intros Hwf. by apply (del_header_val_spec ev name val). Qed.

Lemma rename_header_wf ev name new : ev_wf ev -> ev_wf (switch_event_rename_header ev name new).1.
Proof.
  intros [Hnd Had Hl Hh Hval Hf]. unfold switch_event_rename_header, rename. simpl.
  assert (forall h, h_addr (rename (switch_ci_hashfunc_default name) name new h) = h_addr h) as Haddr.
  { intros h. unfold rename. by destruct (hash_match _ _ _). }
  assert (h_addr <$> (rename (switch_ci_hashfunc_default name) name new <$> headers ev) = h_addr <$> headers ev) as Hmap.
  { rewrite <-list_fmap_compose. apply list_fmap_ext. intros _ h _. apply Haddr. }
  split; simpl; rewrite ?Forall_fmap; try done.
  - by unfold rename in Hmap; rewrite Hmap.
  - eapply Forall_impl; [exact Had|]. intros h Ha. simpl. by destruct (hash_match _ _ _).
  - rewrite Hl, <-!last_fmap'. f_equal. symmetry. exact Hmap.
  - eapply Forall_impl; [exact Hh|]. intros h Ha. simpl. by destruct (hash_match _ _ _).
  - eapply Forall_impl; [exact Hval|]. intros h Ha. simpl. by destruct (hash_match _ _ _).
Qed.

Lemma blank_event_wf : ev_wf blank_event.
Proof. by split; try constructor. Qed.

#[export] Hint Resolve add_header_wf del_header_wf rename_header_wf blank_event_wf : event_wf.

(** ** Unique headers: a case-insensitive map *)

Definition lower (name : bytes) : bytes := tolower <$> name.

(** A name without an index, other than the alias of the body. *)
Definition plain_name (name : bytes) : Prop := strchr name 91 = None /\ name <> str "_body".

(** A value that is not taken for a rendered array. *)
Definition plain_data (data : bytes) : Prop := strstr data (str "ARRAY::") = None.

Lemma str_cons c s : str (String c s) = Z.of_nat (Ascii.nat_of_ascii c) :: str s.
Proof. done. Qed.

(** Decimal numbers have digits only. *)
Lemma pretty_digits x : forall s, Forall (fun c => 48 <= c <= 57) (str s) -> Forall (fun c => 48 <= c <= 57) (str (pretty_N_go x s)).
Proof.
  induction (N.lt_wf_0 x) as [x _ IH]. intros s Hs. destruct (decide (0 < x)%N) as [Hx|Hx].
  - rewrite pretty_N_go_step by done. apply IH; [apply N.div_lt; lia|]. rewrite str_cons. constructor; [|done].
    unfold pretty_N_char. repeat case_match; vm_compute; split; discriminate.
  - assert (x = 0)%N as -> by lia. done.
Qed.

Lemma dec_digits z : Forall (fun c => c = 45 \/ 48 <= c <= 57) (dec z).
Proof.
  assert (forall p, Forall (fun c => c = 45 \/ 48 <= c <= 57) (str (pretty (N.pos p)))) as Hp.
  { intros p. unfold pretty, pretty_N. rewrite decide_False by done. eapply Forall_impl; [by apply pretty_digits|]. intros c Hc. cbn in Hc. lia. }
  unfold dec. destruct z as [|p|p]; [|apply Hp|].
  - constructor; [right; vm_compute; split; discriminate|constructor].
  - change (str (pretty (Z.neg p))) with (45 :: str (pretty (N.pos p))). constructor; [by left|apply Hp].
Qed.

Lemma pretty_nonempty x : forall s, s <> EmptyString -> pretty_N_go x s <> EmptyString.
Proof.
  induction (N.lt_wf_0 x) as [x _ IH]. intros s Hs. destruct (decide (0 < x)%N) as [Hx|Hx].
  - rewrite pretty_N_go_step by done. apply IH; [apply N.div_lt; lia|done].
  - assert (x = 0)%N as -> by lia. done.
Qed.

Lemma dec_nonempty z : dec z <> [].
Proof.
  unfold dec. destruct z as [|p|p]; [done| |done]. change (pretty (Z.pos p)) with (pretty_N_go (N.pos p) EmptyString).
  rewrite pretty_N_go_step by done. destruct (pretty_N_go _ _) eqn:H; [|done]. by apply pretty_nonempty in H.
Qed.

(** Reading a decimal number back. *)
Lemma pretty_value x : forall s, strtol_digits (str (pretty_N_go x s)) 0 = strtol_digits (str s) (Z.of_N x).
Proof.
  induction (N.lt_wf_0 x) as [x _ IH]. intros s. destruct (decide (0 < x)%N) as [Hx|Hx].
  - rewrite pretty_N_go_step by done. rewrite IH by (apply N.div_lt; lia). rewrite str_cons. cbn [strtol_digits].
    pose proof (N.mod_lt x 10 ltac:(lia)) as Hm.
    assert (Z.of_nat (Ascii.nat_of_ascii (pretty_N_char (x mod 10))) = 48 + Z.of_N (x mod 10)) as ->.
    { generalize dependent (x mod 10)%N. intros m Hm. assert (m = 0 \/ m = 1 \/ m = 2 \/ m = 3 \/ m = 4 \/ m = 5 \/ m = 6
        \/ m = 7 \/ m = 8 \/ m = 9)%N as Hc by lia. by repeat (destruct Hc as [->|Hc]); [..|rewrite Hc]. }
    replace (isdigit (48 + Z.of_N (x mod 10))) with true by (unfold isdigit; generalize dependent (x mod 10)%N; lia). f_equal.
    rewrite N2Z.inj_div, N2Z.inj_mod. Z.to_euclidean_division_equations; lia.
  - assert (x = 0)%N as -> by lia. done.
Qed.

Lemma dec_value z : 0 <= z -> strtol_digits (dec z) 0 = z.
Proof. destruct z as [|p|p]; [done| |lia]. intros _. change (dec (Z.pos p)) with (str (pretty_N_go (N.pos p) EmptyString)). by rewrite pretty_value. Qed.

Lemma dec_isdigit z : 0 <= z -> Forall (fun d => isdigit d = true) (dec z).
Proof.
  intros Hz. unfold dec. destruct z as [|p|p]; [by repeat constructor| |lia]. change (pretty (Z.pos p)) with (pretty_N_go (N.pos p) EmptyString).
  eapply Forall_impl; [by apply pretty_digits|]. intros c Hc. unfold isdigit. cbn in Hc. lia.
Qed.

Lemma strtol10_digits s : s <> [] -> Forall (fun d => isdigit d = true) s -> forall t, strtol10 (s ++ t) = strtol_digits (s ++ t) 0.
Proof.
  intros Hne Hs t. destruct s as [|d s]; [done|]. apply Forall_cons in Hs as [Hd _]. unfold isdigit in Hd.
  assert (48 <= d <= 57) as Hr by lia. assert (isspace d = false) as Hsp by (unfold isspace; lia).
  unfold strtol10. cbn [skip_space app]. rewrite Hsp. by repeat (destruct d as [|d|d]; try lia; try done).
Qed.

(** [atol] reads a number that something else than a digit follows. *)
Lemma atol_dec z t : 0 <= z < 2 ^ 63 -> match t with c :: _ => isdigit c = false | [] => True end -> atol (dec z ++ t) = z.
Proof.
  intros Hz Ht. unfold atol. rewrite strtol10_digits by (try apply dec_nonempty; apply dec_isdigit; lia).
  assert (strtol_digits (dec z ++ t) 0 = z) as ->; [|lia]. destruct t as [|c t]; [rewrite app_nil_r; apply dec_value; lia|].
  rewrite strtol_digits_stop by (try apply dec_isdigit; lia || done). apply dec_value; lia.
Qed.

Lemma dec_no_letter z : 65 ∉ dec z.
Proof. intros H. pose proof (proj1 (Forall_forall _ _) (dec_digits z) 65 H) as Hd. cbn in Hd. lia. Qed.

Lemma dec_plain z : plain_data (dec z).
Proof. apply strstr_head, dec_no_letter. Qed.

Definition pairs hs : list (bytes * bytes) := (fun h => (lower (h_name h), default [] (h_value h))) <$> hs.
Definition header_map ev : gmap bytes bytes := list_to_map (pairs (headers ev)).

Lemma named_lower name h : named name h = bool_decide (lower (h_name h) = lower name).
Proof. reflexivity. Qed.

Lemma find_map name hs :
  Forall (fun h => is_Some (h_value h)) hs ->
  (List.find (named name) hs ≫= h_value) = (list_to_map (pairs hs) : gmap bytes bytes) !! lower name.
Proof.
  induction 1 as [|h hs Hv Hhs IH]; [done|]. unfold pairs. rewrite fmap_cons. simpl. rewrite named_lower.
  case_bool_decide as Hn.
  - rewrite Hn, lookup_insert_eq. simpl. by destruct Hv as [v ->].
  - by rewrite lookup_insert_ne.
Qed.

Lemma get_header_map ev name :
  ev_wf ev -> name <> str "_body" -> switch_event_get_header ev name = header_map ev !! lower name.
Proof.
  intros Hwf Hn. unfold header_map. rewrite <-find_map by by destruct Hwf.
  unfold switch_event_get_header, switch_event_get_header_idx. rewrite get_ptr_named by done.
  destruct (List.find (named name) (headers ev)); [done|]. simpl. unfold streq. by rewrite bool_decide_eq_false_2.
Qed.

Lemma map_filter name hs :
  (list_to_map (pairs (List.filter (negb ∘ named name) hs)) : gmap bytes bytes)
  = delete (lower name) (list_to_map (pairs hs)).
Proof.
  unfold pairs. induction hs as [|h hs IH]; [symmetry; apply delete_empty|].
  change (List.filter (negb ∘ named name) (h :: hs))
    with (if negb (named name h) then h :: List.filter (negb ∘ named name) hs else List.filter (negb ∘ named name) hs).
  rewrite named_lower. case_bool_decide as Hn; cbn [negb]; rewrite ?fmap_cons; cbn [list_to_map foldr uncurry].
  - rewrite IH, Hn. by rewrite delete_insert_eq.
  - rewrite IH. by rewrite delete_insert_ne.
Qed.

Lemma del_header_map ev name :
  ev_wf ev -> header_map (switch_event_del_header ev name) = delete (lower name) (header_map ev).
Proof.
  intros Hwf. destruct (del_header_spec ev name Hwf) as (_ & Hh & _). unfold header_map.
  rewrite Hh. apply map_filter.
Qed.

Lemma split_plain name : plain_name name -> split_index name = (None, name).
Proof. intros [Hn _]. unfold split_index. by rewrite Hn. Qed.

Lemma base_add_plain ev stack name data :
  plain_name name -> has_flag stack SWITCH_STACK_PUSH = false -> has_flag stack SWITCH_STACK_UNSHIFT = false ->
  plain_data data ->
  switch_event_base_add_header ev stack name data
  = if bool_decide (data = []) then switch_event_del_header ev name
    else
      let ev := if test_flag (flags ev) EF_UNIQ_HEADERS then switch_event_del_header ev name else ev in
      link_header stack (mk_header (fresh ev) name (Some data) [] 0) (set_fresh (fresh ev + 1) ev).
Proof.
  intros Hn Hp Hu Hd. unfold switch_event_base_add_header, base_add_header.
  rewrite (split_plain name) by done. unfold streq.
  rewrite (bool_decide_eq_false_2 (name = str "_body")) by apply Hn. rewrite Hp, Hu. simpl.
  unfold add_new. rewrite Hd, Hp, Hu. done.
Qed.

(** The stack argument of a plain addition. *)
Definition stack_of (top : bool) : Z := if top then SWITCH_STACK_TOP else SWITCH_STACK_BOTTOM.

Lemma add_header_map ev top name data :
  ev_wf ev -> test_flag (flags ev) EF_UNIQ_HEADERS = true -> plain_name name -> plain_data data ->
  header_map (switch_event_add_header_string ev (stack_of top) name (Some data)).1
  = (if bool_decide (data = []) then delete (lower name) (header_map ev)
     else <[lower name := data]> (header_map ev)).
Proof.
  intros Hwf Hu Hn Hd. simpl. rewrite base_add_plain by (done || by destruct top).
  rewrite Hu. case_bool_decide; [by apply del_header_map|]. cbv zeta.
  destruct (del_header_spec ev name Hwf) as (_ & Hhs & Hwf1).
  set (ev1 := switch_event_del_header ev name) in *. pose proof (wf_fresh _ Hwf1).
  destruct (link_header_spec (set_fresh (fresh ev1 + 1) ev1) (stack_of top) (mk_header (fresh ev1) name (Some data) [] 0))
    as (_ & Hlink & _); simpl; [|lia|by apply fresh_not_in|done|].
  { eapply wf_same; [..|exact Hwf1]; simpl; [done|done|lia]. }
  unfold header_map. rewrite Hlink. simpl. rewrite Hhs.
  assert (has_flag (stack_of top) SWITCH_STACK_TOP = top) as -> by by destruct top.
  assert (lower name ∉ (pairs (List.filter (negb ∘ named name) (headers ev))).*1) as Hni.
  { intros (p & Hp & Hin)%list_elem_of_fmap. unfold pairs in Hin. apply list_elem_of_fmap in Hin as (h & -> & Hh).
    simpl in Hp. apply list_elem_of_In, filter_In in Hh as [_ Hh]. simpl in Hh.
    rewrite named_lower, bool_decide_eq_true_2 in Hh by done. done. }
  rewrite <-(insert_delete_eq (list_to_map (pairs (headers ev)))), <-map_filter.
  destruct top; [done|]. unfold pairs at 1. rewrite fmap_app.
  exact (list_to_map_snoc _ (lower name) data Hni).
Qed.

Lemma add_header_flags ev top name data :
  ev_wf ev -> plain_name name -> plain_data data ->
  flags (switch_event_add_header_string ev (stack_of top) name (Some data)).1 = flags ev.
Proof.
  intros Hwf Hn Hd. simpl. rewrite base_add_plain by (done || by destruct top).
  destruct (del_header_spec ev name Hwf) as (Heq & _ & _).
  assert (flags (switch_event_del_header ev name) = flags ev) as Hf by by rewrite Heq.
  case_bool_decide; [done|]. cbv zeta. unfold link_header.
  destruct (test_flag _ _), (has_flag _ _); done.
Qed.

(** Operations on the headers of an event, and on the map it stands for. *)
Inductive hop := HAdd (top : bool) (name data : bytes) | HDel (name : bytes) | HGet (name : bytes).

Definition hop_ok (o : hop) : Prop :=
  match o with
  | HAdd _ name data => plain_name name /\ plain_data data
  | HDel _ => True
  | HGet name => name <> str "_body"
  end.

Definition hop_step ev (o : hop) : event * option bytes :=
  match o with
  | HAdd top name data => ((switch_event_add_header_string ev (stack_of top) name (Some data)).1, None)
  | HDel name => (switch_event_del_header ev name, None)
  | HGet name => (ev, switch_event_get_header ev name)
  end.

Definition map_step (m : gmap bytes bytes) (o : hop) : gmap bytes bytes * option bytes :=
  match o with
  | HAdd _ name data =>
    (if bool_decide (data = []) then delete (lower name) m else <[lower name := data]> m, None)
  | HDel name => (delete (lower name) m, None)
  | HGet name => (m, m !! lower name)
  end.

Fixpoint hop_run {S} (step : S -> hop -> S * option bytes) (st : S) (os : list hop) : list (option bytes) :=
  match os with
  | [] => []
  | o :: os => let '(st, r) := step st o in r :: hop_run step st os
  end.

Lemma hop_step_map ev o :
  ev_wf ev -> test_flag (flags ev) EF_UNIQ_HEADERS = true -> hop_ok o ->
  let '(ev', r) := hop_step ev o in
  ev_wf ev' /\ test_flag (flags ev') EF_UNIQ_HEADERS = true /\ map_step (header_map ev) o = (header_map ev', r).
Proof.
  intros Hwf Hu Hok. destruct o as [top name data|name|name]; simpl in Hok |- *.
  - destruct Hok as [Hn Hd]. split_and!; [by apply base_add_header_wf| |].
    + by rewrite <-Hu, <-(add_header_flags ev top name data).
    + by rewrite <-(add_header_map ev top name data).
  - destruct (del_header_spec ev name Hwf) as (Heq & _ & Hwf'). split_and!; [done| |].
    + by rewrite Heq.
    + by rewrite del_header_map.
  - split_and!; [done|done|]. by rewrite get_header_map.
Qed.

Lemma hop_run_map os : forall ev,
  ev_wf ev -> test_flag (flags ev) EF_UNIQ_HEADERS = true -> Forall hop_ok os ->
  hop_run hop_step ev os = hop_run map_step (header_map ev) os.
Proof.
  induction os as [|o os IH]; intros ev Hwf Hu Hok; [done|]. inversion_clear Hok as [|?? Ho Hos]. simpl.
  pose proof (hop_step_map ev o Hwf Hu Ho) as Hstep. destruct (hop_step ev o) as [ev' r].
  destruct Hstep as (Hwf' & Hu' & ->). f_equal. by apply IH.
Qed.

(** C7: an event with unique headers is a map.  From the creation of a
    channel-data or request-parameter event, any sequence of additions at either
    end of the list, deletions and look-ups answers like a finite map from header
    names up to letter case to values, in which adding an empty value deletes.
    This is for plain headers: an added name has no [ (which addresses a slot of
    an array) and is not _body (the alias of the event's body), an added value
    does not contain ARRAY:: (which makes an array); a deletion is for any name,
    a look-up for any name but _body. *)
Theorem event_uniq_is_map id os :
  id = SWITCH_EVENT_CHANNEL_DATA \/ id = SWITCH_EVENT_REQUEST_PARAMS -> Forall hop_ok os ->
  hop_run hop_step (switch_event_create_plain id) os = hop_run map_step ∅ os.
Proof.
  intros Hid Hos. rewrite (hop_run_map os (switch_event_create_plain id)); [by destruct Hid as [-> | ->]| | |done].
  - eapply wf_same; [..|exact blank_event_wf]; by destruct Hid as [-> | ->].
  - by destruct Hid as [-> | ->].
Qed.

Definition sample_hops : list hop :=
  [HAdd false (str "Caller") (str "alice"); HAdd true (str "callee") (str "bob");
   HAdd false (str "CALLER") (str "carol"); HGet (str "caller"); HDel (str "Callee"); HGet (str "callee")].

Lemma event_uniq_is_map_witness :
  hop_run hop_step (switch_event_create_plain SWITCH_EVENT_CHANNEL_DATA) sample_hops
  = hop_run map_step ∅ sample_hops.
Proof.
  apply (event_uniq_is_map SWITCH_EVENT_CHANNEL_DATA sample_hops); [by left|].
  repeat constructor; vm_compute; (reflexivity || discriminate).
Defined.

(** ** Reachable events *)

Inductive ev_reachable : event -> Prop :=
| reach_blank : ev_reachable blank_event
| reach_add ev stack name data :
    ev_reachable ev -> ev_reachable (switch_event_add_header_string ev stack name data).1
| reach_del ev name val : ev_reachable ev -> ev_reachable (switch_event_del_header_val ev name val).1
| reach_rename ev name new : ev_reachable ev -> ev_reachable (switch_event_rename_header ev name new).1
| reach_body ev b : ev_reachable ev -> ev_reachable (switch_event_set_body ev b)
| reach_subclass ev s : ev_reachable ev -> ev_reachable (switch_event_set_subclass_name ev s).1
| reach_priority ev p : ev_reachable ev -> ev_reachable (switch_event_set_priority ev p)
| reach_merge ev ev' : ev_reachable ev -> ev_reachable (switch_event_merge ev ev')
| reach_prep ev env seq : ev_reachable ev -> ev_reachable (switch_event_prep_for_delivery env seq ev).1
| reach_dup ev : ev_reachable (switch_event_dup ev)
| reach_dup_reply ev : ev_reachable (switch_event_dup_reply ev).

Lemma wf_set_body ev b : ev_wf ev -> ev_wf (set_body b ev).
Proof. intros Hwf. by wf_same Hwf. Qed.

Lemma wf_set_user_data ev b e k : ev_wf ev -> ev_wf (set_user_data b e k ev).
Proof. intros Hwf. by wf_same Hwf. Qed.

Lemma wf_set_subclass ev s : ev_wf ev -> ev_wf (set_subclass s ev).
Proof. intros Hwf. by wf_same Hwf. Qed.

Lemma wf_set_priority ev p : ev_wf ev -> ev_wf (set_priority p ev).
Proof. intros Hwf. by wf_same Hwf. Qed.

Lemma copy_header_wf name hp ev : ev_wf ev -> ev_wf (copy_header name hp ev).
Proof.
  intros Hwf. unfold copy_header. destruct (_ =? _); [auto with event_wf|].
  apply foldl_inv; auto with event_wf.
Qed.

#[export] Hint Resolve wf_set_body wf_set_user_data wf_set_subclass wf_set_priority copy_header_wf : event_wf.

Lemma add_bottom_wf ev nv : ev_wf ev -> ev_wf (add_bottom ev nv).
Proof. unfold add_bottom. auto with event_wf. Qed.

Lemma dup_base_wf ev : ev_wf (dup_base ev).
Proof.
  assert (ev_wf (create_clone (subclass_name ev))) as Hwf.
  { unfold create_clone. destruct (subclass_name ev); auto with event_wf. }
  unfold dup_base. by wf_same Hwf.
Qed.

Lemma dup_headers_wf todup f ev : ev_wf ev -> ev_wf (dup_headers todup f ev).
Proof.
  intros Hwf. unfold dup_headers. apply foldl_inv; [done|]. intros ev' hp Hwf'.
  destruct (dup_skips todup hp); auto with event_wf.
Qed.

#[export] Hint Resolve add_bottom_wf dup_base_wf dup_headers_wf : event_wf.

Lemma set_subclass_name_wf ev name : ev_wf ev -> ev_wf (switch_event_set_subclass_name ev name).1.
Proof.
  intros Hwf. unfold switch_event_set_subclass_name. destruct name as [s|]; [|done]. simpl.
  apply base_add_header_wf. unfold switch_event_del_header. auto with event_wf.
Qed.

Lemma set_priority_wf ev p : ev_wf ev -> ev_wf (switch_event_set_priority ev p).
Proof. intros Hwf. unfold switch_event_set_priority. auto with event_wf. Qed.

Lemma merge_wf ev ev' : ev_wf ev -> ev_wf (switch_event_merge ev ev').
Proof. intros Hwf. unfold switch_event_merge. apply foldl_inv; auto with event_wf. Qed.

Lemma prep_wf ev env seq : ev_wf ev -> ev_wf (switch_event_prep_for_delivery env seq ev).1.
Proof. intros Hwf. unfold switch_event_prep_for_delivery. cbn [fst]. apply foldl_inv; auto with event_wf. Qed.

Lemma dup_wf ev : ev_wf (switch_event_dup ev).
Proof. unfold switch_event_dup. apply wf_set_user_data. destruct (body ev); auto with event_wf. Qed.

Lemma dup_reply_wf ev : ev_wf (switch_event_dup_reply ev).
Proof. unfold switch_event_dup_reply. apply wf_set_user_data. destruct (body ev); auto with event_wf. Qed.

#[export] Hint Resolve set_subclass_name_wf set_priority_wf merge_wf prep_wf dup_wf dup_reply_wf : event_wf.

Lemma reachable_wf ev : ev_reachable ev -> ev_wf ev.
Proof. induction 1; unfold switch_event_set_body; auto with event_wf. Qed.

(** C26: the header list keeps its shape.  However an event is built, with
    additions at either end, arrays, indexed stores, deletions, renamings, merges
    and copies, the tail pointer is the last header of the list (so that adding at
    the bottom never cuts headers off), every header is allocated once, has a
    value, and carries the hash of its current name, so that the hash comparison
    never hides a header: a look-up finds the first header with that name up to
    letter case. *)
Theorem event_reachable_wf ev name :
  ev_reachable ev ->
  ev_wf ev /\ switch_event_get_header_ptr ev name = List.find (fun h => strcaseeq (h_name h) name) (headers ev).
Proof. intros Hr. apply reachable_wf in Hr. split; [done|]. by apply get_ptr_named. Qed.

Definition sample_event : event :=
  (switch_event_add_header_string
     (switch_event_add_header_string blank_event SWITCH_STACK_BOTTOM (str "A") (Some (str "1"))).1
     SWITCH_STACK_BOTTOM (str "b") (Some (str "2"))).1.

Lemma event_reachable_wf_witness :
  ev_wf sample_event
  /\ switch_event_get_header_ptr sample_event (str "a")
     = List.find (fun h => strcaseeq (h_name h) (str "a")) (headers sample_event).
Proof. apply (event_reachable_wf sample_event (str "a")). apply reach_add, reach_add, reach_blank. Defined.

(** ** Arrays *)

Definition sep : bytes := str "|:".

(** An element that does not contain the separator. *)
Definition no_sep (d : bytes) : Prop := strstr d sep = None.

Lemma strstr_cons x s p :
  strstr (x :: s) p = if streq (ztake (zlen p) (x :: s)) p then Some 0 else (fun i => i + 1) <$> strstr s p.
Proof. reflexivity. Qed.

Lemma strstr_sep d r : no_sep d -> strstr (d ++ sep ++ r) sep = Some (zlen d).
Proof.
  unfold no_sep. induction d as [|x d IH]; [done|]. cbn [app]. rewrite !strstr_cons. intros Hns.
  destruct (streq (ztake (zlen sep) (x :: d)) sep) eqn:Hxd; [done|].
  assert (strstr d sep = None) as Hd by (by destruct (strstr d sep)).
  assert (streq (ztake (zlen sep) (x :: d ++ sep ++ r)) sep = false) as ->.
  { destruct d as [|y d]; [|exact Hxd]. by apply bool_decide_eq_false_2. }
  rewrite (IH Hd). simpl. by rewrite zlen_cons.
Qed.

Lemma count_redraw ds : forall d fuel,
  no_sep d -> Forall no_sep ds -> (length (d ++ redraw_tail ds) <= fuel)%nat ->
  count_separators fuel (d ++ redraw_tail ds) = zlen ds.
Proof.
  unfold redraw_tail. induction ds as [|e ds IH]; intros d fuel Hd Hds Hf.
  - simpl. rewrite app_nil_r. destruct fuel; [done|]. simpl. unfold no_sep, sep in Hd. by rewrite Hd.
  - inversion_clear Hds as [|?? He Hds']. rewrite fmap_cons in *. cbn [concat] in *. rewrite <-app_assoc in *.
    fold sep in *. rewrite !length_app in Hf. change (length sep) with 2%nat in Hf.
    destruct fuel as [|fuel]; [lia|].
    cbn [count_separators]. fold sep. rewrite strstr_sep by done.
    rewrite zlen_cons. rewrite Z.add_comm. f_equal.
    assert (zdrop (zlen d + 2) (d ++ sep ++ e ++ concat ((fun d => sep ++ d) <$> ds)) = e ++ concat ((fun d => sep ++ d) <$> ds)) as ->.
    { rewrite app_assoc. replace (zlen d + 2) with (zlen (d ++ sep)) by by rewrite zlen_app.
      apply zdrop_app_exact. }
    apply IH; [done|done|]. rewrite length_app. lia.
Qed.

Lemma separate_redraw ds : forall d toks n fuel,
  no_sep d -> Forall no_sep ds -> zlen toks + zlen ds + 1 <= n -> (length ds < fuel)%nat ->
  Tokenizer.separate_string_string_loop fuel sep n (d ++ redraw_tail ds) toks = toks ++ d :: ds.
Proof.
  unfold redraw_tail. induction ds as [|e ds IH]; intros d toks n fuel Hd Hds Hn Hf.
  - simpl. rewrite app_nil_r. destruct fuel as [|fuel]; [done|]. simpl. unfold no_sep in Hd. rewrite Hd.
    by destruct (_ <? _).
  - inversion_clear Hds as [|?? He Hds']. rewrite fmap_cons. cbn [concat]. rewrite <-app_assoc. fold sep.
    destruct fuel as [|fuel]; [lia|]. cbn [Tokenizer.separate_string_string_loop].
    rewrite zlen_cons in Hn. pose proof (zlen_nonneg ds). rewrite (proj2 (Z.ltb_lt _ _)) by lia.
    rewrite strstr_sep by done.
    assert (zdrop (zlen d + zlen sep) (d ++ sep ++ e ++ concat ((fun d => sep ++ d) <$> ds)) = e ++ concat ((fun d => sep ++ d) <$> ds)) as ->.
    { rewrite app_assoc. replace (zlen d + zlen sep) with (zlen (d ++ sep)) by by rewrite zlen_app.
      apply zdrop_app_exact. }
    rewrite ztake_app_exact. rewrite IH; [|done|done|rewrite zlen_app, zlen_cons, zlen_nil; lia|simpl in Hf; lia].
    by rewrite <-app_assoc.
Qed.

(** Splitting undoes rendering. *)
Lemma elements_redraw ds :
  (1 < length ds)%nat -> Forall no_sep ds -> array_elements (redraw ds) = ds.
Proof.
  intros Hlen Hds. destruct ds as [|d ds]; [simpl in Hlen; lia|]. inversion_clear Hds as [|?? Hd Hds'].
  unfold array_elements, redraw. rewrite (proj2 (Z.ltb_lt 1 (zlen (d :: ds)))) by (unfold zlen; lia).
  assert (zdrop 7 (str "ARRAY::" ++ d ++ redraw_tail ds) = d ++ redraw_tail ds) as -> by reflexivity.
  fold sep. rewrite count_redraw by done.
  unfold Tokenizer.switch_separate_string_string. pose proof (zlen_nonneg ds).
  rewrite separate_redraw; [done|done|done|unfold zlen; simpl; lia|unfold zlen; lia].
Qed.

(** *** Pushing *)

Definition push (name : bytes) ev (d : bytes) : event :=
  (switch_event_add_header_string ev SWITCH_STACK_PUSH name (Some d)).1.

Lemma push_existing fuel ev name data hp :
  plain_name name -> switch_event_get_header_ptr ev name = Some hp ->
  base_add_header fuel ev SWITCH_STACK_PUSH name data = update_header (h_addr hp) (array_add SWITCH_STACK_PUSH data) ev.
Proof.
  intros Hn Hp. destruct fuel; simpl; rewrite (split_plain name) by done; unfold streq;
    rewrite (bool_decide_eq_false_2 (name = str "_body")) by apply Hn;
    rewrite (bool_decide_eq_false_2 (is_Some None)) by (by intros []); simpl; by rewrite Hp.
Qed.

Lemma filter_none {A} (f : A -> bool) l : List.find f l = None -> List.filter (negb ∘ f) l = l.
Proof.
  induction l as [|x l IH]; [done|]. simpl. destruct (f x); [done|]. simpl. intros Hf. by rewrite IH.
Qed.

Lemma del_absent ev name :
  ev_wf ev -> switch_event_get_header_ptr ev name = None -> headers (switch_event_del_header ev name) = headers ev.
Proof.
  intros Hwf Hn. destruct (del_header_spec ev name Hwf) as (_ & -> & _). rewrite get_ptr_named in Hn by done.
  by apply filter_none.
Qed.

Lemma push_new fuel ev name data :
  ev_wf ev -> plain_name name -> switch_event_get_header_ptr ev name = None -> data <> [] -> plain_data data ->
  headers (base_add_header fuel ev SWITCH_STACK_PUSH name data)
  = headers ev ++ [linked (new_entry SWITCH_STACK_PUSH (fresh ev) name data)].
Proof.
  intros Hwf Hn Hp Hne Hd.
  assert (base_add_header fuel ev SWITCH_STACK_PUSH name data
    = let ev := if test_flag (flags ev) EF_UNIQ_HEADERS then switch_event_del_header ev name else ev in
      link_header SWITCH_STACK_PUSH (new_entry SWITCH_STACK_PUSH (fresh ev) name data) (set_fresh (fresh ev + 1) ev)) as ->.
  { destruct fuel; simpl; rewrite (split_plain name) by done; unfold streq;
      rewrite (bool_decide_eq_false_2 (name = str "_body")) by apply Hn;
      rewrite (bool_decide_eq_false_2 (is_Some None)) by (by intros []); simpl; rewrite Hp; unfold add_new;
      rewrite (bool_decide_eq_false_2 (data = [])) by done; by rewrite Hd. }
  cbv zeta.
  set (ev1 := if test_flag (flags ev) EF_UNIQ_HEADERS then switch_event_del_header ev name else ev).
  assert (ev_wf ev1 /\ headers ev1 = headers ev /\ fresh ev1 = fresh ev) as (Hwf1 & Hh1 & Hf1).
  { subst ev1. destruct (test_flag _ _); [|done]. destruct (del_header_spec ev name Hwf) as (Heq & _ & ?).
    split_and!; [done|by apply del_absent|by rewrite Heq]. }
  rewrite Hf1. destruct (new_entry_fields SWITCH_STACK_PUSH (fresh ev) name data) as (Ha & _ & Hv).
  pose proof (wf_fresh _ Hwf1).
  destruct (link_header_spec (set_fresh (fresh ev + 1) ev1) SWITCH_STACK_PUSH
              (new_entry SWITCH_STACK_PUSH (fresh ev) name data)) as (_ & Hl & _).
  - wf_same Hwf1.
  - rewrite Ha. simpl. lia.
  - rewrite Ha, <-Hf1. simpl. by apply fresh_not_in.
  - by rewrite Hv.
  - rewrite Hl. simpl. by rewrite Hh1.
Qed.

(** The header of the array under construction, at the end of the list. *)
Definition array_at_end ev hs (name : bytes) (ds : list bytes) : Prop :=
  ev_wf ev /\ Forall (fun h => named name h = false) hs
  /\ exists h, headers ev = hs ++ [h] /\ h_name h = name /\ h_array h = ds /\ h_value h = Some (redraw ds).

Lemma find_at_end ev hs name ds :
  array_at_end ev hs name ds ->
  exists h, switch_event_get_header_ptr ev name = Some h /\ headers ev = hs ++ [h]
    /\ h_name h = name /\ h_array h = ds /\ h_value h = Some (redraw ds).
Proof.
  intros (Hwf & Hhs & h & Heq & Hn & Ha & Hv). exists h. split_and!; try done.
  rewrite get_ptr_named, Heq by done. clear Heq. induction Hhs as [|x hs Hx Hhs IH]; simpl.
  - unfold named. by rewrite Hn, strcaseeq_refl.
  - by rewrite Hx.
Qed.

Lemma redraw_single d : redraw [d] = d.
Proof. unfold redraw, redraw_tail. simpl. by rewrite app_nil_r. Qed.

Lemma push_at_end fuel ev hs name ds d :
  plain_name name -> ds <> [] -> array_at_end ev hs name ds ->
  array_at_end (base_add_header fuel ev SWITCH_STACK_PUSH name d) hs name (ds ++ [d]).
Proof.
  intros Hn Hds Hend. pose proof Hend as (Hwf & Hhs & _).
  destruct (find_at_end _ _ _ _ Hend) as (h & Hget & Heq & Hname & Harr & Hval).
  split; [by apply base_add_header_wf|]. split; [done|]. rewrite (push_existing _ _ _ _ h) by done.
  assert (array_add SWITCH_STACK_PUSH d h = with_array (ds ++ [d]) h) as Hadd.
  { unfold array_add. rewrite Hval. unfold h_idx. rewrite Harr.
    destruct (Z.eqb_spec (zlen ds) 0) as [Hz|]; [|done]. destruct ds; [done|].
    rewrite zlen_cons in Hz. pose proof (zlen_nonneg ds). lia. }
  destruct (with_array_keeps (ds ++ [d]) h) as (_ & Hn' & _ & Hv' & Ha'); [by destruct ds|].
  exists (with_array (ds ++ [d]) h). split_and!; [|by rewrite Hn'|done|done].
  unfold update_header. cbn [headers set_headers]. rewrite Heq, fmap_app. f_equal.
  2: { rewrite list_fmap_singleton, Z.eqb_refl. by rewrite Hadd. }
  pose proof (wf_nodup _ Hwf) as Hnd. rewrite Heq, fmap_app in Hnd. apply NoDup_app in Hnd as (_ & Hnd & _).
  clear -Hnd. induction hs as [|x hs IH]; [done|]. rewrite fmap_cons in *. rewrite IH.
  - rewrite (proj2 (Z.eqb_neq _ _)); [done|]. intros Hx. apply (Hnd (h_addr x)); [by left|].
    rewrite Hx. by apply list_elem_of_singleton.
  - intros y Hy. apply Hnd. by right.
Qed.

Lemma push_all_at_end (step : event -> bytes -> event) hs name ds' : forall ev ds,
  (forall ev d, exists fuel, step ev d = base_add_header fuel ev SWITCH_STACK_PUSH name d) ->
  plain_name name -> ds <> [] -> array_at_end ev hs name ds ->
  array_at_end (foldl step ev ds') hs name (ds ++ ds').
Proof.
  induction ds' as [|d ds' IH]; intros ev ds Hstep Hn Hds Hend; [by rewrite app_nil_r|]. simpl.
  rewrite cons_middle, app_assoc. destruct (Hstep ev d) as [fuel ->].
  apply IH; [done|done|by destruct ds|]. by apply push_at_end.
Qed.

Lemma push_list (step : event -> bytes -> event) name ev d ds :
  (forall ev d, exists fuel, step ev d = base_add_header fuel ev SWITCH_STACK_PUSH name d) ->
  ev_wf ev -> plain_name name -> switch_event_get_header_ptr ev name = None -> d <> [] -> plain_data d ->
  array_at_end (foldl step ev (d :: ds)) (headers ev) name (d :: ds).
Proof.
  intros Hstep Hwf Hn Hget Hne Hd. simpl. destruct (Hstep ev d) as [fuel Hs].
  apply (push_all_at_end step (headers ev) name ds _ [d]); [done|done|done|]. rewrite Hs.
  split; [by apply base_add_header_wf|]. split.
  - rewrite get_ptr_named in Hget by done. clear -Hget. induction (headers ev) as [|h hs IH]; [constructor|].
    simpl in Hget. destruct (named name h) eqn:?; [done|]. constructor; auto.
  - eexists. split; [by apply push_new|]. destruct (new_entry_fields SWITCH_STACK_PUSH (fresh ev) name d) as (_ & Hname & Hv).
    simpl. rewrite redraw_single. split_and!; [done|done|done].
Qed.

Lemma get_at_end ev hs name ds i :
  array_at_end ev hs name ds ->
  switch_event_get_header ev name = Some (redraw ds)
  /\ (0 <= i -> switch_event_get_header_idx ev name i = ds !! Z.to_nat i).
Proof.
  intros Hend. destruct (find_at_end _ _ _ _ Hend) as (h & Hget & _ & _ & Harr & Hval).
  unfold switch_event_get_header, switch_event_get_header_idx, h_idx. rewrite Hget, Harr. split; [done|]. intros Hi.
  rewrite (proj2 (Z.ltb_lt (-1) i)) by lia.
  destruct (Z.ltb_spec i (zlen ds)) as [|Hge]; [done|].
  symmetry. apply lookup_ge_None_2. unfold zlen in Hge. lia.
Qed.

(** Array headers and their rendered form.  Pushing two or more values
    under a new name makes an array whose slots are those values in order and
    whose rendered value, added as a plain string to any other event that lacks
    the name, is unfolded there to the same array; the values must not contain
    the separator, and the first must not be empty or itself a rendered array. *)
Theorem event_array_round_trip ev1 ev2 name d ds i :
  ev_wf ev1 -> ev_wf ev2 -> plain_name name ->
  switch_event_get_header_ptr ev1 name = None -> switch_event_get_header_ptr ev2 name = None ->
  d <> [] -> plain_data d -> ds <> [] -> Forall no_sep (d :: ds) -> 0 <= i ->
  let ev1' := foldl (push name) ev1 (d :: ds) in
  let ev2' := (switch_event_add_header_string ev2 SWITCH_STACK_BOTTOM name (switch_event_get_header ev1' name)).1 in
  switch_event_get_header_idx ev1' name i = (d :: ds) !! Z.to_nat i
  /\ switch_event_get_header_idx ev2' name i = (d :: ds) !! Z.to_nat i
  /\ switch_event_get_header ev2' name = switch_event_get_header ev1' name.
Proof.
  intros Hwf1 Hwf2 Hn Hg1 Hg2 Hd Hpd Hds Hsep Hi.
  assert (array_at_end (foldl (push name) ev1 (d :: ds)) (headers ev1) name (d :: ds)) as Hend1.
  { apply push_list; try done. intros ev x. by eexists. }
  destruct (get_at_end _ _ _ _ i Hend1) as [Hv1 Hi1]. cbv zeta. rewrite Hv1.
  assert (exists ev2a, array_at_end (switch_event_add_header_string ev2 SWITCH_STACK_BOTTOM name
            (Some (redraw (d :: ds)))).1 (headers ev2a) name (d :: ds)) as [ev2a Hend2].
  { exists ev2. cbn [switch_event_add_header_string fst]. unfold switch_event_base_add_header. cbn [base_add_header].
    rewrite (split_plain name) by done. unfold streq.
    rewrite (bool_decide_eq_false_2 (name = str "_body")) by apply Hn.
    rewrite (bool_decide_eq_false_2 (is_Some None)) by (by intros []).
    change (has_flag SWITCH_STACK_BOTTOM SWITCH_STACK_PUSH || has_flag SWITCH_STACK_BOTTOM SWITCH_STACK_UNSHIFT) with false.
    cbn [orb andb]. unfold add_new.
    assert (redraw (d :: ds) = str "ARRAY::" ++ d ++ redraw_tail ds) as Hre.
    { unfold redraw. rewrite (proj2 (Z.ltb_lt 1 (zlen (d :: ds)))); [done|].
      destruct ds; [done|]. rewrite !zlen_cons. pose proof (zlen_nonneg ds). lia. }
    rewrite (bool_decide_eq_false_2 (redraw (d :: ds) = [])) by by rewrite Hre.
    assert (strstr (redraw (d :: ds)) (str "ARRAY::") = Some 0) as -> by by rewrite Hre.
    set (ev3 := if test_flag (flags ev2) EF_UNIQ_HEADERS then switch_event_del_header ev2 name else ev2).
    assert (ev_wf ev3 /\ headers ev3 = headers ev2) as [Hwf3 Hh3].
    { subst ev3. destruct (test_flag _ _); [|done]. destruct (del_header_spec ev2 name Hwf2) as (_ & _ & ?).
      split; [done|by apply del_absent]. }
    rewrite (proj2 (Z.ltb_ge (zlen (redraw (d :: ds))) 8)).
    2: { rewrite Hre, !zlen_app. change (zlen (str "ARRAY::")) with 7. pose proof (zlen_nonneg (redraw_tail ds)).
         destruct d as [|x d]; [done|]. rewrite zlen_cons. pose proof (zlen_nonneg d). lia. }
    rewrite elements_redraw; [|destruct ds; [done|simpl; lia]|done].
    rewrite <-Hh3. apply push_list; try done.
    - intros ev x. by eexists.
    - rewrite get_ptr_named, Hh3, <-(get_ptr_named ev2) by done. done. }
  destruct (get_at_end _ _ _ _ i Hend2) as [Hv2 Hi2]. split_and!; auto.
Qed.

Lemma event_array_round_trip_witness :
  let ev1' := foldl (push (str "a")) blank_event [str "x"; str "y z"; []] in
  switch_event_get_header_idx ev1' (str "a") 1 = Some (str "y z")
  /\ switch_event_get_header_idx
       (switch_event_add_header_string blank_event SWITCH_STACK_BOTTOM (str "a")
          (switch_event_get_header ev1' (str "a"))).1 (str "a") 1 = Some (str "y z").
Proof.
  split; apply (event_array_round_trip blank_event blank_event (str "a") (str "x") [str "y z"; []] 1);
    try done; try apply blank_event_wf; by repeat constructor.
Defined.

(** A store into an existing array slot is only half visible.  Adding
    [name[i]] where slot [i] exists replaces that slot, but the rendered value of
    the header, which is what reading the header, serializing the event and
    copying it use, keeps showing the old contents. *)
Theorem event_array_store_stale ev full name i data hp :
  ev_wf ev -> split_index full = (Some i, name) -> full <> str "_body" ->
  switch_event_get_header_ptr ev name = Some hp -> 0 <= i < h_idx hp -> i <= 4000 ->
  let ev' := (switch_event_add_header_string ev SWITCH_STACK_BOTTOM full (Some data)).1 in
  switch_event_get_header_idx ev' name i = Some data
  /\ switch_event_get_header ev' name = switch_event_get_header ev name.
Proof.
  intros Hwf Hsplit Hb Hget Hi Hmax. cbv zeta. cbn [switch_event_add_header_string fst].
  unfold switch_event_base_add_header. cbn [base_add_header]. rewrite Hsplit. unfold streq.
  rewrite (bool_decide_eq_false_2 (full = str "_body")) by done.
  rewrite (bool_decide_eq_true_2 (is_Some (Some i))) by done. cbn [orb]. rewrite Hget.
  rewrite (proj2 (Z.ltb_lt (-1) i)), (proj2 (Z.leb_le i 4000)), (proj2 (Z.ltb_lt i (h_idx hp))) by lia. cbn [andb].
  assert (switch_event_get_header_ptr (update_header (h_addr hp) (array_set i data) ev) name
          = Some (array_set i data hp)) as Hget'.
  { rewrite get_ptr_named in Hget |- * by first [done|apply update_header_wf; [done|apply array_set_keeps]].
    unfold update_header. cbn [headers set_headers]. pose proof (wf_nodup _ Hwf) as Hnd. clear -Hget Hnd.
    induction (headers ev) as [|h hs IH]; [done|]. rewrite fmap_cons in *. apply NoDup_cons in Hnd as [Hni Hnd].
    cbn [List.find] in *.
    assert (named name (if h_addr h =? h_addr hp then array_set i data h else h) = named name h) as ->
      by by destruct (_ =? _).
    destruct (named name h); [injection Hget as ->; by rewrite Z.eqb_refl|]. by apply IH. }
  unfold switch_event_get_header, switch_event_get_header_idx. rewrite Hget', Hget.
  unfold h_idx in *. unfold array_set. cbn [h_array h_value]. split; [|done].
  assert (zlen (<[Z.to_nat i := data]> (h_array hp)) = zlen (h_array hp)) as Hlen
    by (unfold zlen; by rewrite length_insert).
  rewrite Hlen, (proj2 (Z.ltb_lt (-1) i)), (proj2 (Z.ltb_lt i (zlen (h_array hp)))) by lia.
  apply list_lookup_insert_eq. unfold zlen in Hi. lia.
Qed.

Lemma event_array_store_stale_witness :
  let ev := foldl (push (str "a")) blank_event [str "x"; str "y"] in
  let ev' := (switch_event_add_header_string ev SWITCH_STACK_BOTTOM (str "a[0]") (Some (str "new"))).1 in
  switch_event_get_header_idx ev' (str "a") 0 = Some (str "new")
  /\ switch_event_get_header ev' (str "a") = Some (str "ARRAY::x|:y").
Proof.
  destruct (switch_event_get_header_ptr (foldl (push (str "a")) blank_event [str "x"; str "y"]) (str "a")) as [hp|] eqn:Hp;
    [|vm_compute in Hp; discriminate].
  apply (event_array_store_stale (foldl (push (str "a")) blank_event [str "x"; str "y"]) (str "a[0]") (str "a") 0 (str "new") hp).
  - apply add_header_wf, add_header_wf, blank_event_wf.
  - reflexivity.
  - discriminate.
  - exact Hp.
  - vm_compute in Hp. injection Hp as <-. vm_compute. split; [discriminate|reflexivity].
  - discriminate.
Defined.

(** ** Copies *)

(** A header that copying preserves: a plain, non-empty value. *)
Definition plain_header h : Prop :=
  h_array h = [] /\ plain_name (h_name h)
  /\ exists v, h_value h = Some v /\ v <> [] /\ plain_data v.

(** What an event says besides its headers. *)
Definition meta ev := (event_id ev, subclass_name ev, body ev, flags ev, (bind_user_data ev, event_user_data ev, key ev)).

Definition content h : bytes * option bytes := (h_name h, h_value h).

Lemma add_plain_append ev name v :
  ev_wf ev -> plain_name name -> plain_data v -> v <> [] ->
  (test_flag (flags ev) EF_UNIQ_HEADERS = true -> switch_event_get_header_ptr ev name = None) ->
  let ev' := (switch_event_add_header_string ev SWITCH_STACK_BOTTOM name (Some v)).1 in
  ev_wf ev' /\ content <$> headers ev' = (content <$> headers ev) ++ [(name, Some v)] /\ meta ev' = meta ev.
Proof.
  intros Hwf Hn Hd Hne Huniq. split; [by apply base_add_header_wf|]. simpl. rewrite base_add_plain by done.
  rewrite (bool_decide_eq_false_2 (v = [])) by done. cbv zeta.
  set (ev1 := if test_flag (flags ev) EF_UNIQ_HEADERS then switch_event_del_header ev name else ev).
  assert (ev_wf ev1 /\ headers ev1 = headers ev /\ meta ev1 = meta ev) as (Hwf1 & Hh1 & Hm1).
  { subst ev1. destruct (test_flag _ _); [|done]. destruct (del_header_spec ev name Hwf) as (Heq & _ & ?).
    split_and!; [done|by apply del_absent, Huniq|by rewrite Heq]. }
  pose proof (wf_fresh _ Hwf1).
  destruct (link_header_spec (set_fresh (fresh ev1 + 1) ev1) SWITCH_STACK_BOTTOM (mk_header (fresh ev1) name (Some v) [] 0))
    as (Heq & Hl & _); [wf_same Hwf1|simpl; lia|simpl; by apply fresh_not_in|done|].
  split; [|by rewrite Heq]. rewrite Hl. simpl. by rewrite Hh1, fmap_app.
Qed.

Lemma copy_plain_headers todup hs : forall ev,
  (forall h, dup_skips todup h = false) -> ev_wf ev -> Forall plain_header hs ->
  (test_flag (flags ev) EF_UNIQ_HEADERS = true -> NoDup (lower ∘ fst <$> ((content <$> headers ev) ++ (content <$> hs)))) ->
  let ev' := foldl (fun ev hp => if dup_skips todup hp then ev else copy_header (h_name hp) hp ev) ev hs in
  content <$> headers ev' = (content <$> headers ev) ++ (content <$> hs) /\ meta ev' = meta ev.
Proof.
  induction hs as [|h hs IH]; intros ev Hskip Hwf Hhs Hnd; [by rewrite app_nil_r|].
  apply Forall_cons in Hhs as [(Harr & Hn & v & Hv & Hne & Hd) Hhs']. cbv zeta. cbn [foldl]. rewrite Hskip.
  assert (copy_header (h_name h) h ev = (switch_event_add_header_string ev SWITCH_STACK_BOTTOM (h_name h) (Some v)).1) as ->
    by (unfold copy_header, h_idx; by rewrite Harr, Hv).
  destruct (add_plain_append ev (h_name h) v) as (Hwf' & Hc & Hm); [done..| |].
  { intros Hu. specialize (Hnd Hu). rewrite get_ptr_named by done.
    destruct (List.find (named (h_name h)) (headers ev)) as [x|] eqn:Hf; [|done]. exfalso.
    apply find_some in Hf as [Hx Hnx%strcaseeq_spec]. rewrite fmap_app in Hnd. apply NoDup_app in Hnd as (_ & Hnd & _).
    apply (Hnd (lower (h_name x))).
    - apply list_elem_of_fmap. exists (content x). split; [done|]. apply list_elem_of_fmap. exists x.
      split; [done|]. by apply list_elem_of_In.
    - apply list_elem_of_fmap. exists (content h). split; [exact Hnx|]. by left. }
  assert (flags (switch_event_add_header_string ev SWITCH_STACK_BOTTOM (h_name h) (Some v)).1 = flags ev) as Hfl.
  { unfold meta in Hm. congruence. }
  assert (content <$> h :: hs = [(h_name h, Some v)] ++ (content <$> hs)) as Hch
    by (rewrite fmap_cons; unfold content at 1; by rewrite Hv).
  destruct (IH _ Hskip Hwf' Hhs') as [IHc IHm].
  { rewrite Hfl, Hc, <-app_assoc, <-Hch. exact Hnd. }
  split; [|by rewrite IHm]. by rewrite IHc, Hc, <-app_assoc, <-Hch.
Qed.

(** Duplicating an event preserves it.  For an event without a subclass
    whose headers are plain (and distinct when it demands unique headers), the
    duplicate has the same headers in the same order, the same type, flags, body,
    key and user data. *)
Theorem event_dup_preserves ev :
  subclass_name ev = None -> Forall plain_header (headers ev) ->
  (test_flag (flags ev) EF_UNIQ_HEADERS = true -> NoDup (lower ∘ h_name <$> headers ev)) ->
  content <$> headers (switch_event_dup ev) = content <$> headers ev
  /\ meta (switch_event_dup ev) = meta ev.
Proof.
  intros Hsub Hhs Hnd.
  assert (forall h, dup_skips ev h = false) as Hskip by (intros h; unfold dup_skips; by rewrite Hsub).
  assert (headers (dup_base ev) = []) as Hnil by (unfold dup_base; by rewrite Hsub).
  destruct (copy_plain_headers ev (headers ev) (dup_base ev) Hskip (dup_base_wf ev) Hhs) as [Hc Hm].
  { rewrite Hnil. simpl. intros Hu. rewrite <-list_fmap_compose. by apply Hnd. }
  rewrite Hnil in Hc. simpl in Hc. unfold switch_event_dup, dup_headers.
  set (ev1 := foldl _ _ _) in *. unfold dup_base in Hm. rewrite Hsub in Hm. unfold meta in *. simpl in Hm.
  destruct (body ev) as [b|] eqn:Hb; simpl; rewrite Hsub; split; try done; congruence.
Qed.

Lemma event_dup_preserves_witness :
  content <$> headers (switch_event_dup sample_event) = content <$> headers sample_event
  /\ meta (switch_event_dup sample_event) = meta sample_event.
Proof.
  apply (event_dup_preserves sample_event); [reflexivity| |discriminate].
  repeat constructor; simpl; try discriminate; by eexists.
Defined.

(** ** The serialized form *)

Import Encoding.

(** A header the text form carries faithfully. *)
Definition text_header h : Prop :=
  h_array h = [] /\ exists v, h_value h = Some v /\ v <> [] /\ cstr_ok v /\ zlen v < 2 ^ 60.

Definition text_line h (enc : bytes) : bytes := h_name h ++ str ": " ++ enc ++ [10].

Lemma url_safe_char c : url_safe c -> c <> 0 /\ c <> 10.
Proof. intros [->|Hc]; [done|]. split; intros ->; by vm_compute in Hc. Qed.

Lemma c_string_text t : Forall (fun c => c <> 0) t -> c_string (t ++ [0]) = t.
Proof.
  intros Ht. unfold c_string.
  assert (strchr (t ++ [0]) 0 = Some (zlen t)) as ->.
  { induction Ht as [|c t Hc Ht IH]; [done|]. simpl. rewrite (proj2 (Z.eqb_neq c 0)), IH by done. simpl.
    by rewrite zlen_cons. }
  apply ztake_app_exact.
Qed.

(** The text of a value, given the room the serializer asks for. *)
Lemma encode_value_text v n :
  cstr_ok v -> zlen v * 3 + 1 <= n < 2 ^ 64 ->
  encode_value true n v = url_text v /\ switch_url_decode (url_text v) = v /\ Forall url_safe (url_text v).
Proof.
  intros Hv Hn. pose proof (zlen_url_text v). pose proof (zlen_nonneg v).
  assert (bytes_ok v) as Hb by (eapply Forall_impl; [exact Hv|]; simpl; lia).
  assert (Forall url_safe (url_text v)) as Hsafe by by apply url_text_safe.
  split_and!; [|by apply url_decode_text|done].
  unfold encode_value, switch_url_encode. cint.
  destruct (url_encode_prefix v (n - 1) []) as (k & Heq & _ & Hall); [lia|unfold url_text, zlen; simpl; lia|].
  simpl in Heq, Hall. change (url_text []) with (@nil Z) in Heq. rewrite Heq.
  rewrite Hall by (simpl; lia). apply c_string_text. eapply Forall_impl; [exact Hsafe|]. intros c Hc. by apply url_safe_char.
Qed.

Lemma url_text_nonempty v : v <> [] -> url_text v <> [].
Proof.
  destruct v as [|c v]; [done|]. intros _. unfold url_text. rewrite fmap_cons. simpl. unfold url_char.
  by destruct (url_unsafe_char c).
Qed.

Lemma grow_room dlen len llen : 0 <= dlen -> len + llen <= grow dlen len llen.
Proof. unfold grow, blocksize. destruct (Z.gtb_spec (len + llen) dlen); lia. Qed.

Lemma grow_nonneg dlen len llen : 0 <= dlen -> 0 <= len -> 0 <= llen -> dlen <= grow dlen len llen.
Proof. unfold grow, blocksize. destruct (_ >? _); lia. Qed.

Lemma snprintf_fits n s : zlen s < n -> snprintf n s = s.
Proof.
  intros Hn. pose proof (zlen_nonneg s). unfold snprintf. rewrite (proj2 (Z.eqb_neq n 0)) by lia.
  apply ztake_all. lia.
Qed.

Definition text_of h : bytes := url_text (default [] (h_value h)).

Lemma serialize_headers_text hs : forall encode_len dlen buf,
  Forall text_header hs -> zlen buf + 5 <= dlen -> encode_len < 2 ^ 63 ->
  let '(dlen', buf') := serialize_headers true hs encode_len dlen buf in
  buf' = buf ++ concat ((fun h => text_line h (text_of h)) <$> hs) /\ zlen buf' + 5 <= dlen'.
Proof.
  induction hs as [|h hs IH]; intros encode_len dlen buf Hhs Hd He; [by rewrite app_nil_r|].
  apply Forall_cons in Hhs as [(Harr & v & Hv & Hne & Hok & Hlen) Hhs']. cbn [serialize_headers].
  assert (encode_room h = zlen v * 3 + 1) as Hroom by (unfold encode_room, h_idx; by rewrite Harr, Hv).
  rewrite Hroom, Hv. cbn [from_option id].
  destruct (encode_value_text v (Z.max encode_len (zlen v * 3 + 1)) Hok) as (-> & _ & _); [lia|].
  assert (header_line (h_name h) (url_text v) = text_line h (text_of h)) as ->.
  { unfold header_line, text_line, text_of. rewrite Hv. by rewrite bool_decide_eq_false_2 by by apply url_text_nonempty. }
  pose proof (zlen_nonneg buf). pose proof (zlen_nonneg (h_name h)). pose proof (zlen_nonneg (url_text v)).
  pose proof (grow_room dlen (zlen buf) (zlen (h_name h) + zlen (url_text v) + 8) ltac:(lia)).
  assert (zlen (text_line h (text_of h)) = zlen (h_name h) + zlen (url_text v) + 3) as Hll.
  { unfold text_line, text_of. rewrite Hv, !zlen_app. change (zlen (str ": ")) with 2. change (zlen [10]) with 1. simpl. lia. }
  rewrite snprintf_fits by lia.
  specialize (IH (Z.max encode_len (zlen v * 3 + 1))
                (grow dlen (zlen buf) (zlen (h_name h) + zlen (url_text v) + 8)) (buf ++ text_line h (text_of h)) Hhs').
  destruct (serialize_headers _ _ _ _ _) as [dlen' buf']. rewrite fmap_cons. cbn [concat].
  rewrite app_assoc. apply IH; [rewrite zlen_app; lia|lia].
Qed.

(** What follows the header lines. *)
Definition text_trailer (b : option bytes) : bytes :=
  match b with
  | Some (c :: b) => str "Content-Length: " ++ dec (zlen (c :: b)) ++ [10; 10] ++ c :: b
  | _ => [10]
  end.

(** The text form of an event.  For any number of headers with non-empty
    values, the encoded serialization is exactly one line per header, its name
    and its percent-encoded value, in order and never truncated by the growing
    buffer, then the body; a value cannot end its line early, and decoding the
    line gives the value back. *)
Theorem event_serialize_text ev :
  Forall text_header (headers ev) ->
  (forall b, body ev = Some b -> zlen (dec (zlen b)) <= 6) ->
  switch_event_serialize ev true
  = concat ((fun h => text_line h (text_of h)) <$> headers ev) ++ text_trailer (body ev)
  /\ Forall (fun h => (10 ∉ text_of h) /\ Some (switch_url_decode (text_of h)) = h_value h) (headers ev).
Proof.
  intros Hhs Hb. split.
  - unfold switch_event_serialize.
    pose proof (serialize_headers_text (headers ev) 1536 (blocksize * 2) [] Hhs) as Hs.
    destruct (serialize_headers _ _ _ _ _) as [dlen buf]. destruct Hs as [-> Hlt]; [done|done|]. rewrite app_nil_l in *.
    set (text := concat _) in *. destruct (body ev) as [b|] eqn:Hbody.
    2: { by rewrite snprintf_fits by (change (zlen [10]) with 1; lia). }
    specialize (Hb b eq_refl). pose proof (zlen_nonneg text). pose proof (zlen_nonneg b).
    destruct b as [|c b].
    + rewrite zlen_nil. cbn [Z.eqb]. pose proof (grow_room dlen (zlen text) (0 + 5) ltac:(lia)).
      rewrite snprintf_fits; [done|]. change (zlen [10]) with 1. lia.
    + rewrite (proj2 (Z.eqb_neq (zlen (c :: b)) 0)) by (rewrite zlen_cons; pose proof (zlen_nonneg b); lia).
      pose proof (grow_room dlen (zlen text) (zlen (c :: b) + 25) ltac:(lia)).
      rewrite snprintf_fits; [done|]. rewrite !zlen_app. change (zlen (str "Content-Length: ")) with 16.
      change (zlen [10; 10]) with 2. lia.
  - eapply Forall_impl; [exact Hhs|]. intros h (Harr & v & Hv & Hne & Hok & Hlen). unfold text_of. rewrite Hv.
    destruct (encode_value_text v (zlen v * 3 + 1) Hok) as (_ & Hdec & Hsafe); [pose proof (zlen_nonneg v); lia|].
    simpl. rewrite Hdec. split; [|done]. intros Hin.
    pose proof (proj1 (Forall_forall _ _) Hsafe 10 Hin) as H10. by apply url_safe_char in H10 as [_ ?].
Qed.

Lemma event_serialize_text_witness :
  switch_event_serialize sample_event true = concat ((fun h => text_line h (text_of h)) <$> headers sample_event) ++ [10].
Proof.
  apply (event_serialize_text sample_event); [|discriminate].
  repeat constructor; eexists; (split_and!; [reflexivity|discriminate|repeat constructor|reflexivity]).
Defined.

(** The header of an array of 300 one-byte values. *)
Definition long_array : header := with_array (replicate 300 [120]) (mk_header 1 (str "a") None [] 97).

(** A long array is cut in the text form.  The room the serializer asks for
    an array header counts its elements but not the prefix and the separators of
    the rendered value, which are encoded too: 300 one-byte values do not fit,
    and the text decodes to a strict prefix. *)
Theorem event_serialize_array_truncated :
  let v := default [] (h_value long_array) in
  let enc := encode_value true (Z.max 1536 (encode_room long_array)) v in
  switch_url_decode enc <> v /\ switch_url_decode enc = ztake (zlen (switch_url_decode enc)) v
  /\ switch_event_serialize (set_headers [long_array] (Some 1) blank_event) true = text_line long_array enc ++ [10].
Proof. split_and!; vm_compute; [discriminate|reflexivity|reflexivity]. Qed.

End Event.
