(* ===== verification/Stun.v ===== *)
(** * STUN packets (switch_stun.c, switch_stun.h) and the ICE exchange (switch_rtp.c)

    Building and parsing of STUN packets in place, the walk over the attributes
    of a parsed packet, the reply of the ICE handler of RTP and the reading of a
    lookup's answer.  A packet is the byte block it lives in; the C code
    overlays structures on it, with 16-bit and 32-bit fields in the byte order
    of the host (little-endian).  [Fault] is an access outside the block.
    Sockets, clocks and locks are not modelled; random strings are arguments. *)

From S2P Require Import Prelude Outcome CString Event.

Module Stun.
Import CString.

(** ** Memory *)

Definition get (m : bytes) (i : Z) : res Z :=
  match m !! Z.to_nat i with Some b => Ok b | None => Fault end.

(** Writing a non-empty string of bytes. *)
Definition st (m : bytes) (i : Z) (bs : bytes) : res bytes :=
  match m !! Z.to_nat (i + zlen bs - 1) with Some _ => Ok (blit i bs m) | None => Fault end.

Definition ld16 (m : bytes) (i : Z) : res Z := b0 ← get m i; b1 ← get m (i + 1); Ok (b0 + 256 * b1).

(** [x = ntohs(x)] and [x = ntohl(x)] in place. *)
Definition swap16 (m : bytes) (i : Z) : res bytes := b0 ← get m i; b1 ← get m (i + 1); st m i [b1; b0].
Definition swap32 (m : bytes) (i : Z) : res bytes :=
  b0 ← get m i; b1 ← get m (i + 1); b2 ← get m (i + 2); b3 ← get m (i + 3); st m i [b3; b2; b1; b0].

(** [htons(v)] as it lies in memory, and as a 16-bit number. *)
Definition net16 (v : Z) : bytes := [Z.land (Z.shiftr v 8) 0xFF; Z.land v 0xFF].
Definition ntohs (v : Z) : Z := Z.land (Z.shiftr v 8) 0xFF + 256 * Z.land v 0xFF.

(** ** Constants (switch_stun.h) *)

Definition SWITCH_STUN_PACKET_MIN_LEN : Z := 20.
Definition SWITCH_STUN_ATTRIBUTE_MIN_LEN : Z := 8.

Definition packet_types : list (Z * string) :=
  [(0x0001, "BINDING_REQUEST"); (0x0101, "BINDING_RESPONSE"); (0x0111, "BINDING_ERROR_RESPONSE");
   (0x0002, "SHARED_SECRET_REQUEST"); (0x0102, "SHARED_SECRET_RESPONSE"); (0x0112, "SHARED_SECRET_ERROR_RESPONSE");
   (0x0003, "ALLOCATE_REQUEST"); (0x0103, "ALLOCATE_RESPONSE"); (0x0113, "ALLOCATE_ERROR_RESPONSE");
   (0x0004, "SEND_REQUEST"); (0x0104, "SEND_RESPONSE"); (0x0114, "SEND_ERROR_RESPONSE");
   (0x0115, "DATA_INDICATION")]%string.

Definition attr_types : list (Z * string) :=
  [(0x0001, "MAPPED_ADDRESS"); (0x0002, "RESPONSE_ADDRESS"); (0x0003, "CHANGE_REQUEST"); (0x0004, "SOURCE_ADDRESS");
   (0x0005, "CHANGED_ADDRESS"); (0x0006, "USERNAME"); (0x0007, "PASSWORD"); (0x0008, "MESSAGE_INTEGRITY");
   (0x0009, "ERROR_CODE"); (0x000a, "UNKNOWN_ATTRIBUTES"); (0x000b, "REFLECTED_FROM"); (0x000c, "TRANSPORT_PREFERENCES");
   (0x000d, "LIFETIME"); (0x000e, "ALTERNATE_SERVER"); (0x000f, "MAGIC_COOKIE"); (0x0010, "BANDWIDTH");
   (0x0011, "DESTINATION_ADDRESS"); (0x0012, "SOURCE_ADDRESS2"); (0x0013, "DATA"); (0x8001, "OPTIONS")]%string.

Definition error_types : list (Z * string) :=
  [(400, "BAD_REQUEST"); (401, "UNAUTHORIZED"); (420, "UNKNOWN_ATTRIBUTE"); (430, "STALE_CREDENTIALS");
   (431, "INTEGRITY_CHECK_FAILURE"); (432, "MISSING_USERNAME"); (433, "USE_TLS"); (500, "SERVER_ERROR");
   (600, "GLOBAL_FAILURE")]%string.

(** [switch_stun_type_t]: 0, 1 and 2. *)
Definition switch_stun_value_to_name (type value : Z) : string :=
  let map := match type with 0 => packet_types | 1 => attr_types | 2 => error_types | _ => [] end in
  match list_find (fun kv => kv.1 = value) map with Some (_, kv) => kv.2 | None => "INVALID"%string end.

Definition SWITCH_STUN_BINDING_REQUEST : Z := 0x0001.
Definition SWITCH_STUN_BINDING_RESPONSE : Z := 0x0101.
Definition SWITCH_STUN_BINDING_ERROR_RESPONSE : Z := 0x0111.
Definition SWITCH_STUN_ATTR_MAPPED_ADDRESS : Z := 0x0001.
Definition SWITCH_STUN_ATTR_USERNAME : Z := 0x0006.
Definition SWITCH_STUN_ATTR_PASSWORD : Z := 0x0007.
Definition SWITCH_STUN_ATTR_XOR_MAPPED_ADDRESS : Z := 0x0020.

(** [htonl(STUN_MAGIC_COOKIE)] in memory. *)
Definition cookie_bytes : bytes := [0x21; 0x12; 0xA4; 0x42].

(** ** Attributes *)

(** [switch_stun_attribute_padded_length]: the mask is [~sizeof(uint32_t)]. *)
Definition padded_length (length : Z) : Z := Z.land (u16 (length + 3)) (Z.lnot 4).

(** [switch_stun_packet_next_attribute]: the attribute behind the one at [p],
    when it starts before [end_], has a length and, counted in units of the
    attribute header, ends before [end_]. *)
Definition next_attribute (m : bytes) (p end_ : Z) : res (option Z) :=
  len ← ld16 m (p + 2);
  let p' := p + 4 + padded_length len in
  if p' <? end_ then
    len' ← ld16 m (p' + 2);
    if negb (len' =? 0) && (p' + 4 * padded_length len' <? end_) then Ok (Some p') else Ok None
  else Ok None.

(** ** Parsing *)

Definition address_attrs : list Z := [0x0001; 0x0020; 0x0002; 0x0004; 0x0005; 0x000b; 0x000e; 0x0011; 0x0012].
Definition uint32_attrs : list Z := [0x0003; 0x000d; 0x0010; 0x8001].

Definition mem (x : Z) (l : list Z) : bool := existsb (Z.eqb x) l.

(** The checks of one attribute; [None] is the return of NULL. *)
Definition parse_value (m : bytes) (p type length : Z) : res (option bytes) :=
  if mem type address_attrs then
    family ← get m (p + 5);
    match family with
    | 1 => if length =? 8 then m ← swap16 m (p + 6); Ok (Some m) else Ok None
    | 2 => if length =? 20 then m ← swap16 m (p + 6); Ok (Some m) else Ok None
    | _ => Ok None
    end
  else if mem type uint32_attrs then
    if length =? 4 then m ← swap32 m (p + 4); Ok (Some m) else Ok None
  else if mem type [0x0006; 0x0007] then Ok (if length mod 4 =? 0 then Some m else None)
  else if mem type [0x0013; 0x0009; 0x000c] then Ok (Some m)
  else if type =? 0x0008 then Ok (if length =? 20 then Some m else None)
  else if type =? 0x000f then Ok (if length =? 4 then Some m else None)
  else if type =? 0x000a then Ok (if length mod 2 =? 0 then Some m else None)
  else Ok (if type <=? 0x7FFF then None else Some m).

(** The loop over the attributes of a block of [len] bytes: the block and
    [bytes_left] at its end. *)
Fixpoint parse_attributes (fuel : nat) (m : bytes) (len p bytes_left : Z) : res (option (bytes * Z)) :=
  match fuel with
  | O => NoFuel
  | S fuel =>
    m ← swap16 m (p + 2);
    m ← swap16 m p;
    length ← ld16 m (p + 2);
    type ← ld16 m p;
    let bytes_left := u32 (bytes_left - 4) in
    r ← parse_value m p type length;
    match r with
    | None => Ok None
    | Some m =>
      let bytes_left := u32 (bytes_left - padded_length length) in
      if SWITCH_STUN_ATTRIBUTE_MIN_LEN <=? bytes_left then
        n ← next_attribute m p len;
        match n with
        | Some p => parse_attributes fuel m len p bytes_left
        | None => Ok (Some (m, bytes_left))
        end
      else Ok (Some (m, bytes_left))
    end
  end.

(** Parsing behind the header, whose type and length are in host order. *)
Definition parse_body (m : bytes) (len type length : Z) : res (option bytes) :=
  let bytes_left := u32 (len - (length + 20)) in
  if negb (mem type (fst <$> packet_types)) then Ok None
  else if bytes_left <=? 0 then Ok None
  else if length =? 0 then Ok None
  else if bytes_left <? SWITCH_STUN_ATTRIBUTE_MIN_LEN then Ok None
  else
    r ← parse_attributes (S (Z.to_nat len)) m len 20 bytes_left;
    match r with
    | None => Ok None
    | Some (m, bytes_left) =>
      if u32 (len - bytes_left) <? length + 20 then
        let l := u16 (len - bytes_left - 20) in
        m ← st m 2 [Z.land l 0xFF; Z.land (Z.shiftr l 8) 0xFF]; Ok (Some m)
      else Ok (Some m)
    end.

(** The block after parsing, when the packet is accepted; [len] is the
    argument, at most the size of the block. *)
Definition switch_stun_packet_parse (m : bytes) (len : Z) : res (option bytes) :=
  if len <? SWITCH_STUN_PACKET_MIN_LEN then Ok None
  else
    m ← swap16 m 0;
    m ← swap16 m 2;
    type ← ld16 m 0;
    length ← ld16 m 2;
    parse_body m len type length.

(** ** Reading attributes *)

(** [sprintf("%u.%u.%u.%u")] and the port. *)
Definition dotted (a b c d : Z) : bytes := Event.dec a ++ 46 :: Event.dec b ++ 46 :: Event.dec c ++ 46 :: Event.dec d.

Definition switch_stun_packet_attribute_get_mapped_address (m : bytes) (p : Z) : res (bytes * Z) :=
  a ← get m (p + 8); b ← get m (p + 9); c ← get m (p + 10); d ← get m (p + 11);
  port ← ld16 m (p + 6);
  Ok (dotted a b c d, port).

(** The cookie is the word of the header as it lies in memory, [ck]; the
    attribute is decoded in place. *)
Definition switch_stun_packet_attribute_get_xor_mapped_address (m : bytes) (p : Z) (ck : bytes) : res (bytes * bytes * Z) :=
  a ← get m (p + 8); b ← get m (p + 9); c ← get m (p + 10); d ← get m (p + 11);
  match ck with
  | [k0; k1; k2; k3] =>
    let a := Z.lxor a k0 in let b := Z.lxor b k1 in let c := Z.lxor c k2 in let d := Z.lxor d k3 in
    m ← st m (p + 8) [a; b; c; d];
    port ← ld16 m (p + 6);
    let port := Z.lxor port (k1 + 256 * k0) in
    m ← st m (p + 6) [Z.land port 0xFF; Z.land (Z.shiftr port 8) 0xFF];
    Ok (m, dotted a b c d, port)
  | _ => Fault
  end.

(** [memcpy] of the shorter of the value and the room given, over [username]. *)
Definition switch_stun_packet_attribute_get_username (m : bytes) (p : Z) (username : bytes) (len : Z) : res bytes :=
  length ← ld16 m (p + 2);
  let cpylen := if length <? len then length else len in
  if p + 4 + cpylen <=? zlen m then Ok (blit 0 (slice (p + 4) cpylen m) username) else Fault.

(** ** Building *)

Definition switch_stun_packet_build_header (type : Z) (id : option bytes) (random : bytes) (m : bytes) : res bytes :=
  m ← st m 0 (net16 type);
  m ← st m 2 [0; 0];
  m ← st m 4 cookie_bytes;
  st m 8 (match id with Some id => ztake 12 id | None => random end).

(** [packet->header.length += htons(4) + attribute->length], on the fields as
    they lie in memory: a 16-bit sum of numbers in network byte order. *)
Definition grow (m : bytes) (p : Z) : res bytes :=
  hl ← ld16 m 2; al ← ld16 m (p + 2);
  let v := u16 (hl + (ntohs 4 + al)) in
  st m 2 [Z.land v 0xFF; Z.land (Z.shiftr v 8) 0xFF].

(** The place of the next attribute. *)
Definition append_at (m : bytes) : res Z := hl ← ld16 m 2; Ok (20 + ntohs hl).

(** The loop over the four numbers of an address: it stops at the last dot. *)
Fixpoint store_quad (k : nat) (m : bytes) (i : Z) (p : bytes) : res bytes :=
  match k with
  | O => Ok m
  | S k =>
    m ← st m i [u8 (atoi p)];
    match strchr p 46 with
    | Some d => store_quad k m (i + 1) (zdrop (d + 1) p)
    | None => Ok m
    end
  end.

Definition switch_stun_packet_attribute_add_binded_address (m : bytes) (ipstr : bytes) (port : Z) : res bytes :=
  p ← append_at m;
  m ← st m p (net16 SWITCH_STUN_ATTR_MAPPED_ADDRESS);
  m ← st m (p + 2) (net16 8);
  m ← st m (p + 6) (net16 port);
  m ← st m (p + 5) [1];
  m ← store_quad 4 m (p + 8) ipstr;
  grow m p.

Definition switch_stun_packet_attribute_add_xor_binded_address (m : bytes) (ipstr : bytes) (port : Z) : res bytes :=
  p ← append_at m;
  m ← st m p (net16 SWITCH_STUN_ATTR_XOR_MAPPED_ADDRESS);
  m ← st m (p + 2) (net16 8);
  m ← st m (p + 6) (net16 (u16 (Z.lxor port 0x2112)));
  m ← st m (p + 5) [1];
  m ← store_quad 4 m (p + 8) ipstr;
  a ← get m (p + 8); b ← get m (p + 9); c ← get m (p + 10); d ← get m (p + 11);
  m ← st m (p + 8) [Z.lxor a 0x21; Z.lxor b 0x12; Z.lxor c 0xA4; Z.lxor d 0x42];
  grow m p.

(** A string attribute; the result is the C return value and the block. *)
Definition add_string (type : Z) (m : bytes) (value : option bytes) (random : bytes) (ulen : Z) : res (Z * bytes) :=
  if negb (ulen mod 4 =? 0) then Ok (0, m)
  else
    p ← append_at m;
    m ← st m p (net16 type);
    m ← st m (p + 2) (net16 ulen);
    m ← (if ulen =? 0 then Ok m
         else match value with
              | Some v => if ulen <=? zlen v then st m (p + 4) (ztake ulen v) else Fault
              | None => st m (p + 4) random
              end);
    m ← grow m p;
    Ok (1, m).

Definition switch_stun_packet_attribute_add_username := add_string SWITCH_STUN_ATTR_USERNAME.
Definition switch_stun_packet_attribute_add_password := add_string SWITCH_STUN_ATTR_PASSWORD.

(** [switch_stun_packet_length], of a packet not yet parsed. *)
Definition switch_stun_packet_length (m : bytes) : res Z := hl ← ld16 m 2; Ok (ntohs hl + 20).

(** ** Callers *)

(** What the walk over the attributes collects: the user name buffer and the
    mapped address. *)
Record seen := mk_seen { s_username : bytes; s_address : option (bytes * Z) }.

(** The walk of switch_stun_lookup and handle_ice ([xor] tells whether the
    caller knows XOR-MAPPED-ADDRESS); [end_] is the end the caller computes
    from the parsed header length. *)
Fixpoint walk (fuel : nat) (xor : bool) (m : bytes) (p end_ : Z) (s : seen) : res (bytes * seen) :=
  match fuel with
  | O => NoFuel
  | S fuel =>
    type ← ld16 m p;
    r ← (if type =? SWITCH_STUN_ATTR_MAPPED_ADDRESS then
           a ← switch_stun_packet_attribute_get_mapped_address m p; Ok (m, mk_seen (s_username s) (Some a))
         else if xor && (type =? SWITCH_STUN_ATTR_XOR_MAPPED_ADDRESS) then
           k0 ← get m 4; k1 ← get m 5; k2 ← get m 6; k3 ← get m 7;
           '(m, ip, port) ← switch_stun_packet_attribute_get_xor_mapped_address m p [k0; k1; k2; k3];
           Ok (m, mk_seen (s_username s) (Some (ip, port)))
         else if type =? SWITCH_STUN_ATTR_USERNAME then
           u ← switch_stun_packet_attribute_get_username m p (s_username s) 32; Ok (m, mk_seen u (s_address s))
         else Ok (m, s));
    let '(m, s) := r in
    n ← next_attribute m p end_;
    match n with Some p => walk fuel xor m p end_ s | None => Ok (m, s) end
  end.

Definition caller_end (m : bytes) (size : Z) : res Z := l ← ld16 m 2; Ok (if l <? size then l else size).

(** The answer of a lookup, from the block of 260 bytes the reply was read
    into (without the altered framing of some servers): the address, or none. *)
Definition lookup_reply (buf : bytes) : res (option (bytes * Z)) :=
  r ← switch_stun_packet_parse buf 260;
  match r with
  | None => Ok None
  | Some m =>
    end_ ← caller_end m 260;
    '(m, s) ← walk 261 true m 20 end_ (mk_seen (replicate 33 0) None);
    type ← ld16 m 0;
    Ok (if type =? SWITCH_STUN_BINDING_RESPONSE then Some (default ([], 0) (s_address s)) else None)
  end.

(** ice_out: the binding request for the user of the other side. *)
Definition ice_out_packet (ice_user : bytes) (pass : option bytes) (id : bytes) : res bytes :=
  m ← switch_stun_packet_build_header SWITCH_STUN_BINDING_REQUEST None id (replicate 256 0);
  '(_, m) ← switch_stun_packet_attribute_add_username m (Some ice_user) [] 32;
  '(_, m) ← match pass with
            | Some pass => switch_stun_packet_attribute_add_password m (Some pass) [] (u16 (zlen pass))
            | None => Ok (1, m)
            end;
  n ← switch_stun_packet_length m;
  Ok (ztake n m).

(** A C string in a buffer. *)
Fixpoint cstring (m : bytes) : bytes := match m with [] => [] | c :: m => if c =? 0 then [] else c :: cstring m end.

(** What handle_ice does with a packet. *)
Inductive ice_action := Invalid | Ignore | Reply (packet : bytes) | Resend.

Definition handle_ice (ready : bool) (user_ice ice_user : bytes) (remote_ip : bytes) (remote_port : Z) (data : bytes)
  : res ice_action :=
  if negb ready || zstr (Some user_ice) || zstr (Some ice_user) then Ok Ignore else
  let data := ztake 512 data in
  let buf := data ++ replicate (512 - length data) 0 in
  r ← switch_stun_packet_parse buf 512;
  match r with
  | None => Ok Invalid
  | Some m =>
    end_ ← caller_end m 512;
    '(m, s) ← walk 513 false m 20 end_ (mk_seen (replicate 33 0) None);
    type ← ld16 m 0;
    if (type =? SWITCH_STUN_BINDING_REQUEST) && streq user_ice (cstring (s_username s)) then
      r ← switch_stun_packet_build_header SWITCH_STUN_BINDING_RESPONSE (Some (slice 8 12 m)) [] (replicate 512 0);
      '(_, r) ← switch_stun_packet_attribute_add_username r (Some (s_username s)) [] 32;
      r ← switch_stun_packet_attribute_add_binded_address r remote_ip remote_port;
      n ← switch_stun_packet_length r;
      Ok (Reply (ztake n r))
    else if type =? SWITCH_STUN_BINDING_ERROR_RESPONSE then Ok Resend
    else Ok Ignore
  end.

(** ** Round trip of an address *)

Definition byte (c : Z) : Prop := 0 <= c < 256.

Lemma dec_number n : byte n -> atoi (Event.dec n) = n /\ Forall (fun d => isdigit d = true) (Event.dec n) /\ Event.dec n <> [].
Proof.
  intros Hn. pose proof (byte_cases (fun n => (atoi (Event.dec n) =? n) && forallb isdigit (Event.dec n)) n
    ltac:(vm_compute; reflexivity) Hn) as H. apply andb_true_iff in H as [H1%Z.eqb_eq H2]. split_and!; [done| |apply Event.dec_nonempty].
  rewrite Forall_forall. rewrite forallb_forall in H2. intros d Hd. by apply H2, list_elem_of_In.
Qed.

Lemma u8_byte n : byte n -> u8 n = n.
Proof. apply u8_small. Qed.

Lemma store_quad_step k m i n rest : byte n ->
  store_quad (S k) m i (Event.dec n ++ 46 :: rest) = (m ← st m i [n]; store_quad k m (i + 1) rest).
Proof.
  intros Hn. destruct (dec_number n Hn) as (Ha & Hd & Hne). cbn [store_quad]. rewrite atoi_stop, Ha, u8_byte by done.
  assert (46 ∉ Event.dec n) as Hdot by (intros Hx; rewrite Forall_forall in Hd; by specialize (Hd _ Hx)).
  rewrite strchr_first by done.
  pose proof (cut_at_first (Event.dec n) 46 rest) as Hcut. unfold cut_at in Hcut. injection Hcut as _ Hrest. by rewrite Hrest.
Qed.

(** The loop stores the four numbers. *)
Lemma store_quad_dotted m i a b c d : byte a -> byte b -> byte c -> byte d ->
  store_quad 4 m i (dotted a b c d)
  = (m ← st m i [a]; m ← st m (i + 1) [b]; m ← st m (i + 1 + 1) [c]; st m (i + 1 + 1 + 1) [d]).
Proof.
  intros Ha Hb Hc Hd. unfold dotted. rewrite store_quad_step by done.
  destruct (st m i [a]); cbn [mbind res_bind]; try done. rewrite store_quad_step by done. destruct (st _ (i + 1) [b]); cbn [mbind res_bind]; try done.
  rewrite store_quad_step by done. destruct (st _ (i + 1 + 1) [c]); cbn [mbind res_bind]; try done.
  destruct (dec_number d Hd) as (H1 & H2 & _). cbn [store_quad]. rewrite H1, u8_byte by done.
  rewrite strchr_absent by (intros Hx; rewrite Forall_forall in H2; by specialize (H2 _ Hx)). by destruct (st _ _ [d]).
Qed.

(** A 16-bit number is its two bytes. *)
Lemma net16_bytes v : 0 <= v < 65536 -> exists hi lo, net16 v = [hi; lo] /\ byte hi /\ byte lo /\ v = lo + 256 * hi.
Proof.
  intros Hv. exists (v / 256), (v mod 256). unfold net16, byte. change 0xFF with (Z.ones 8).
  rewrite !Z.land_ones, Z.shiftr_div_pow2 by lia. change (2 ^ 8) with 256. split_and!; try zdiv.
  f_equal. rewrite Z.mod_small; zdiv.
Qed.

Lemma u32_rest len : u32 (len - u32 (len - 47)) = 47.
Proof. unfold u32, wrap. rewrite Zminus_mod_idemp_r. by replace (len - (len - 47)) with 47 by lia. Qed.

Lemma u16_lxor port : 0 <= port < 65536 -> u16 (Z.lxor port 0x2112) = Z.lxor port 0x2112.
Proof.
  intros Hp. unfold u16, wrap. rewrite <-Z.land_ones by lia. apply Z.bits_inj'. intros i Hi.
  rewrite Z.land_spec, Z.lxor_spec, Z.testbit_ones_nonneg by lia. destruct (Z.ltb_spec i 16); [by rewrite andb_true_r|].
  rewrite andb_false_r. assert (forall z, 0 <= z < 2 ^ 16 -> Z.testbit z i = false) as Hz.
  { intros z Hz. rewrite <-(Z.mod_small z (2 ^ 16)) by done. apply Z.mod_pow2_bits_high. lia. }
  by rewrite !Hz by lia.
Qed.

(** A block of at least 40 zeros. *)
Lemma zeros40 len : 40 <= len -> replicate (Z.to_nat len) 0 = replicate 40 0 ++ replicate (Z.to_nat (len - 40)) 0.
Proof. intros Hl. rewrite <-replicate_add. f_equal. lia. Qed.

Definition response (id : bytes) (len : Z) : res bytes :=
  switch_stun_packet_build_header SWITCH_STUN_BINDING_RESPONSE (Some id) [] (replicate (Z.to_nat len) 0).

(** Running accesses at known offsets of a block whose first bytes are known. *)
Ltac access t := let r := eval vm_compute in t in change t with r; cbn [mbind res_bind].
Ltac run := cbn [mbind res_bind]; repeat match goal with
  | |- context [switch_stun_packet_build_header ?t ?i ?r ?m] => access (switch_stun_packet_build_header t i r m)
  | |- context [append_at ?m] => access (append_at m)
  | |- context [st ?m ?i ?b] => access (st m i b)
  | |- context [swap16 ?m ?i] => access (swap16 m i)
  | |- context [get ?m ?i] => access (get m i)
  | |- context [grow ?m ?i] => access (grow m i)
  | |- context [ld16 ?m ?i] => access (ld16 m i)
  end.

(** The block with one address attribute. *)
Definition address_packet (id : bytes) (type port_hi port_lo a b c d : Z) : bytes :=
  [1; 1; 0; 12; 0x21; 0x12; 0xA4; 0x42] ++ id ++ [0; type; 0; 8; 0; 1; port_hi; port_lo; a; b; c; d; 0; 0; 0; 0; 0; 0; 0; 0].

Lemma build_address id len a b c d port hi lo :
  length id = 12%nat -> 40 <= len -> byte a -> byte b -> byte c -> byte d -> net16 port = [hi; lo] ->
  (m ← response id len; switch_stun_packet_attribute_add_binded_address m (dotted a b c d) port)
  = Ok (address_packet id 1 hi lo a b c d ++ replicate (Z.to_nat (len - 40)) 0).
Proof.
  intros Hid Hlen Ha Hb Hc Hd Hport. unfold response. rewrite zeros40 by done. generalize (replicate (Z.to_nat (len - 40)) 0) as t. intros t.
  do 12 (destruct id as [|? id]; [done|]). destruct id; [|done].
  unfold switch_stun_packet_attribute_add_binded_address. rewrite Hport.
  run. rewrite store_quad_dotted by done. run. reflexivity.
Qed.

Lemma build_xor_address id len a b c d port hi lo :
  length id = 12%nat -> 40 <= len -> byte a -> byte b -> byte c -> byte d -> net16 (u16 (Z.lxor port 0x2112)) = [hi; lo] ->
  (m ← response id len; switch_stun_packet_attribute_add_xor_binded_address m (dotted a b c d) port)
  = Ok (address_packet id 0x20 hi lo (Z.lxor a 0x21) (Z.lxor b 0x12) (Z.lxor c 0xA4) (Z.lxor d 0x42) ++ replicate (Z.to_nat (len - 40)) 0).
Proof.
  intros Hid Hlen Ha Hb Hc Hd Hport. unfold response. rewrite zeros40 by done. generalize (replicate (Z.to_nat (len - 40)) 0) as t. intros t.
  do 12 (destruct id as [|? id]; [done|]). destruct id; [|done].
  unfold switch_stun_packet_attribute_add_xor_binded_address. rewrite Hport.
  run. rewrite store_quad_dotted by done. run. reflexivity.
Qed.

(** The same block in the byte order of the host. *)
Definition parsed_packet (id : bytes) (type port_lo port_hi a b c d : Z) : bytes :=
  [1; 1; 12; 0; 0x21; 0x12; 0xA4; 0x42] ++ id ++ [type; 0; 8; 0; 0; 1; port_lo; port_hi; a; b; c; d; 0; 0; 0; 0; 0; 0; 0; 0].

Lemma parse_address id len type hi lo a b c d t :
  length id = 12%nat -> 40 <= len < 2 ^ 32 -> type = 1 \/ type = 0x20 ->
  switch_stun_packet_parse (address_packet id type hi lo a b c d ++ t) len = Ok (Some (parsed_packet id type lo hi a b c d ++ t)).
Proof.
  intros Hid Hlen Htype. do 12 (destruct id as [|? id]; [done|]). destruct id; [|done].
  unfold switch_stun_packet_parse. destruct (Z.ltb_spec len SWITCH_STUN_PACKET_MIN_LEN); [unfold SWITCH_STUN_PACKET_MIN_LEN in *; lia|].
  run. unfold parse_body. change (mem 257 (fst <$> packet_types)) with true. cbn [negb].
  assert (u32 (len - (12 + 20)) = len - 32) as -> by (apply (wrap_small 32); lia).
  assert (u32 (u32 (len - 32 - 4) - padded_length 8) = u32 (len - 47)) as Hleft.
  { change (padded_length 8) with 11. unfold u32, wrap. rewrite Zminus_mod_idemp_l. f_equal. lia. }
  unfold SWITCH_STUN_ATTRIBUTE_MIN_LEN at 1.
  destruct (Z.leb_spec (len - 32) 0); [lia|]. change (12 =? 0) with false. destruct (Z.ltb_spec (len - 32) 8); [lia|]. cbn [parse_attributes].
  run. destruct Htype as [-> | ->]; run.
  all: match goal with |- context [parse_value ?m ?p ?t ?l] => access (parse_value m p t l) end.
  all: rewrite Hleft; unfold next_attribute; run; change (20 + 4 + padded_length 8) with 35; destruct (Z.ltb_spec 35 len); [|lia]; run.
  all: change (negb (0 =? 0)) with false; cbn [andb mbind res_bind].
  all: destruct (SWITCH_STUN_ATTRIBUTE_MIN_LEN <=? u32 (len - 47)); cbn [mbind res_bind];
    rewrite u32_rest; change (47 <? 12 + 20) with false; reflexivity.
Qed.

Lemma get_xor id lo hi a b c d t : length id = 12%nat ->
  exists m', switch_stun_packet_attribute_get_xor_mapped_address (parsed_packet id 0x20 lo hi a b c d ++ t) 20 cookie_bytes
    = Ok (m', dotted (Z.lxor a 0x21) (Z.lxor b 0x12) (Z.lxor c 0xA4) (Z.lxor d 0x42), Z.lxor (lo + 256 * hi) 0x2112).
Proof.
  intros Hid. do 12 (destruct id as [|? id]; [done|]). destruct id; [|done].
  unfold switch_stun_packet_attribute_get_xor_mapped_address, cookie_bytes.
  cbn [mbind res_bind]. do 4 match goal with |- context [get ?m ?i] => access (get m i) end.
  generalize (Z.lxor a 33), (Z.lxor b 18), (Z.lxor c 164), (Z.lxor d 66). intros a' b' c' d'.
  match goal with |- context [st ?m ?i ?b] => access (st m i b) end.
  match goal with |- context [ld16 ?m ?i] => change (ld16 m i) with (Ok (lo + 256 * hi)) end. cbn [mbind res_bind].
  change (18 + 256 * 33) with 0x2112. generalize (Z.lxor (lo + 256 * hi) 0x2112). intros port.
  generalize (Z.land port 255), (Z.land (Z.shiftr port 8) 255). intros p0 p1.
  match goal with |- context [st ?m ?i ?b] => access (st m i b) end. by eexists.
Qed.

(** ** Theorems *)

(** C36: an address survives the wire.  A packet that is built with a mapped
    address, plain or xor-ed with the magic cookie, parses in any zeroed block
    with at least eight bytes behind it, and the reader gets back the address
    and the port that were put in. *)
Theorem stun_address_round_trip id len a b c d port :
  length id = 12%nat -> 40 <= len < 2 ^ 32 -> byte a -> byte b -> byte c -> byte d -> 0 <= port < 65536 ->
  (exists m m', (m ← response id len; switch_stun_packet_attribute_add_binded_address m (dotted a b c d) port) = Ok m
    /\ switch_stun_packet_parse m len = Ok (Some m')
    /\ switch_stun_packet_attribute_get_mapped_address m' 20 = Ok (dotted a b c d, port))
  /\ (exists m m' m'', (m ← response id len; switch_stun_packet_attribute_add_xor_binded_address m (dotted a b c d) port) = Ok m
    /\ switch_stun_packet_parse m len = Ok (Some m')
    /\ switch_stun_packet_attribute_get_xor_mapped_address m' 20 (slice 4 4 m') = Ok (m'', dotted a b c d, port)).
Proof.
  intros Hid Hlen Ha Hb Hc Hd Hport. split.
  - destruct (net16_bytes port Hport) as (hi & lo & Hnet & _ & _ & Hv).
    eexists _, _. split; [apply (build_address _ _ _ _ _ _ _ hi lo); done || lia|]. split; [apply parse_address; lia|].
    do 12 (destruct id as [|? id]; [done|]). destruct id; [|done].
    unfold switch_stun_packet_attribute_get_mapped_address. run. by rewrite Hv.
  - assert (0 <= u16 (Z.lxor port 0x2112) < 65536) as Hx by (apply (wrap_range 16); lia).
    destruct (net16_bytes _ Hx) as (hi & lo & Hnet & _ & _ & Hv).
    destruct (get_xor id lo hi (Z.lxor a 0x21) (Z.lxor b 0x12) (Z.lxor c 0xA4) (Z.lxor d 0x42) (replicate (Z.to_nat (len - 40)) 0) Hid) as (m'' & Hm).
    eexists _, _, m''. split; [apply (build_xor_address _ _ _ _ _ _ _ hi lo); done || lia|]. split; [apply parse_address; lia|].
    replace (slice 4 4 _) with cookie_bytes by (do 12 (destruct id as [|? id]; [done|]); by destruct id).
    rewrite Hm, <-Hv. rewrite (u16_lxor port) by lia. rewrite !Z.lxor_assoc, !Z.lxor_nilpotent, !Z.lxor_0_r. done.
Qed.

(** *** Termination *)

Lemma runs_get m i : runs (get m i).
Proof. unfold get, runs. by case_match. Qed.

Lemma runs_st m i b : runs (st m i b).
Proof. unfold st, runs. by case_match. Qed.

#[local] Hint Resolve runs_get runs_st : runs.

Lemma runs_ld16 m i : runs (ld16 m i).
Proof. unfold ld16. runs. Qed.
Lemma runs_swap16 m i : runs (swap16 m i).
Proof. unfold swap16. runs. Qed.
Lemma runs_swap32 m i : runs (swap32 m i).
Proof. unfold swap32. runs. Qed.
#[local] Hint Resolve runs_ld16 runs_swap16 runs_swap32 : runs.

Lemma runs_parse_value m p t l : runs (parse_value m p t l).
Proof. unfold parse_value. runs. Qed.

Lemma runs_next m p e : runs (next_attribute m p e).
Proof. unfold next_attribute. runs. Qed.
#[local] Hint Resolve runs_parse_value runs_next : runs.

Lemma padded_nonneg l : 0 <= padded_length l.
Proof. unfold padded_length. apply Z.land_nonneg. left. apply (wrap_range 16). lia. Qed.

(** The next attribute lies behind and before the end. *)
Lemma next_forward m p e p' : next_attribute m p e = Ok (Some p') -> p < p' < e.
Proof.
  unfold next_attribute. destruct (ld16 m (p + 2)) as [l| |]; cbn [mbind res_bind]; try done.
  pose proof (padded_nonneg l). destruct (Z.ltb_spec (p + 4 + padded_length l) e); [|done].
  destruct (ld16 m (p + 4 + padded_length l + 2)) as [l'| |]; cbn [mbind res_bind]; try done.
  case_match; [|done]. intros [= <-]. lia.
Qed.

Lemma runs_parse_attributes fuel : forall m len p bl, (0 < fuel)%nat -> len - p < Z.of_nat fuel -> runs (parse_attributes fuel m len p bl).
Proof.
  induction fuel as [|fuel IH]; intros m len p bl H0 Hf; [lia|]. cbn [parse_attributes].
  do 5 (apply runs_bind; [eauto with runs|intros ? ?]). case_match; [|done]. case_match; [|done].
  apply runs_bind; [eauto with runs|intros n Hn]. destruct n as [p'|]; [|done]. apply next_forward in Hn. apply IH; lia.
Qed.

Lemma runs_parse m len : runs (switch_stun_packet_parse m len).
Proof.
  unfold switch_stun_packet_parse. case_match; [done|]. do 4 (apply runs_bind; [eauto with runs|intros ? ?]).
  unfold parse_body. do 4 (case_match; [done|]). apply runs_bind; [apply runs_parse_attributes; lia|intros ? ?]. runs.
Qed.
#[local] Hint Resolve runs_parse : runs.

Lemma runs_walk fuel : forall xor m p e s, (0 < fuel)%nat -> e - p < Z.of_nat fuel -> runs (walk fuel xor m p e s).
Proof.
  induction fuel as [|fuel IH]; intros xor m p e s H0 Hf; [lia|]. cbn [walk].
  apply runs_bind; [eauto with runs|intros ? ?]. apply runs_bind.
  { unfold switch_stun_packet_attribute_get_mapped_address, switch_stun_packet_attribute_get_xor_mapped_address,
      switch_stun_packet_attribute_get_username. runs. }
  intros [m' s'] _. apply runs_bind; [eauto with runs|intros n Hn]. destruct n as [p'|]; [|done]. apply next_forward in Hn. apply IH; lia.
Qed.

Lemma caller_end_bound m size e : caller_end m size = Ok e -> e <= size.
Proof.
  unfold caller_end. destruct (ld16 m 2) as [l| |]; cbn [mbind res_bind]; try done.
  destruct (Z.ltb_spec l size); intros [= <-]; lia.
Qed.

Lemma runs_store_quad k : forall m i p, runs (store_quad k m i p).
Proof. induction k as [|k IH]; intros m i p; cbn [store_quad]; [done|]. apply runs_bind; [eauto with runs|]. intros. case_match; [apply IH|done]. Qed.
#[local] Hint Resolve runs_store_quad : runs.

(** Reading a packet ends.  Whatever the bytes are, parsing a block, reading
    the answer of a lookup and handling an ICE packet come to an end (with a
    result or with an access outside the block): the walk over the attributes
    moves forward and stays before the end it is given. *)
Theorem stun_reading_ends m len ready user_ice ice_user ip port data :
  switch_stun_packet_parse m len <> NoFuel /\ lookup_reply m <> NoFuel
  /\ handle_ice ready user_ice ice_user ip port data <> NoFuel.
Proof.
  split_and!; [apply runs_parse| |].
  - apply runs_bind; [apply runs_parse|]. intros [m'|] _; [|done]. apply runs_bind; [unfold caller_end; runs|]. intros e He.
    apply caller_end_bound in He. apply runs_bind; [apply runs_walk; lia|]. intros [m2 s2] _. runs.
  - unfold handle_ice. case_match; [done|]. apply runs_bind; [apply runs_parse|]. intros [m'|] _; [|done].
    apply runs_bind; [unfold caller_end; runs|]. intros e He. apply caller_end_bound in He.
    apply runs_bind; [apply runs_walk; lia|]. intros [m2 s2] _. apply runs_bind; [eauto with runs|]. intros t _.
    case_match; [|by case_match]. unfold switch_stun_packet_build_header, switch_stun_packet_attribute_add_username, add_string,
      switch_stun_packet_attribute_add_binded_address, switch_stun_packet_length, append_at, grow. runs.
Qed.

(** *** Refusals *)

Lemma parse_header t1 t0 l1 l0 rest len : 20 <= len ->
  switch_stun_packet_parse (t1 :: t0 :: l1 :: l0 :: rest) len
  = parse_body (t0 :: t1 :: l0 :: l1 :: rest) len (t0 + 256 * t1) (l0 + 256 * l1).
Proof.
  intros Hlen. unfold switch_stun_packet_parse, SWITCH_STUN_PACKET_MIN_LEN. destruct (Z.ltb_spec len 20); [lia|]. reflexivity.
Qed.

(** What the parser refuses.  A block shorter than a header, an unknown
    packet type, an empty payload and a packet with less than eight bytes of the
    block behind it, among them the packet that fills its block exactly, give
    NULL. *)
Theorem stun_parse_refuses t1 t0 l1 l0 rest len :
  byte t1 -> byte t0 -> byte l1 -> byte l0 -> 0 <= len < 2 ^ 32 ->
  len < 20 \/ (mem (256 * t1 + t0) (fst <$> packet_types) = false)
  \/ 256 * l1 + l0 = 0 \/ 0 <= len - 20 - (256 * l1 + l0) < 8 ->
  switch_stun_packet_parse (t1 :: t0 :: l1 :: l0 :: rest) len = Ok None.
Proof.
  unfold byte. intros Ht1 Ht0 Hl1 Hl0 Hlen Hbad. destruct (decide (len < 20)) as [Hs|Hs].
  { unfold switch_stun_packet_parse, SWITCH_STUN_PACKET_MIN_LEN. destruct (Z.ltb_spec len 20); [done|lia]. }
  destruct Hbad as [?|Hbad]; [lia|]. rewrite parse_header by lia. unfold parse_body. rewrite (Z.add_comm t0). destruct (mem (256 * t1 + t0) (fst <$> packet_types)); [|done]. destruct Hbad as [?|Hbad]; [done|]. cbn [negb].
  destruct (Z.leb_spec (u32 (len - (l0 + 256 * l1 + 20))) 0); [done|].
  destruct (Z.eqb_spec (l0 + 256 * l1) 0); [done|]. destruct Hbad as [?|Hbad]; [lia|].
  rewrite (wrap_small 32) by lia. unfold SWITCH_STUN_ATTRIBUTE_MIN_LEN. destruct (Z.ltb_spec (len - (l0 + 256 * l1 + 20)) 8); [done|lia].
Qed.

(** The flaw: a header that claims more than the block holds makes the count of
    the bytes left wrap around, and the parser reads behind the block. *)
Theorem stun_length_overrun t1 t0 l1 l0 rest :
  byte l1 -> byte l0 -> mem (256 * t1 + t0) (fst <$> packet_types) = true -> 0 < 256 * l1 + l0 -> length rest = 16%nat ->
  switch_stun_packet_parse (t1 :: t0 :: l1 :: l0 :: rest) 20 = Fault.
Proof.
  unfold byte. intros Hl1 Hl0 Ht Hl Hrest. rewrite parse_header by lia. unfold parse_body. rewrite (Z.add_comm t0), Ht. cbn [negb].
  assert (u32 (20 - (l0 + 256 * l1 + 20)) = 2 ^ 32 - (l0 + 256 * l1)) as ->.
  { unfold wrap. symmetry. apply Z.mod_unique with (-1); lia. }
  destruct (Z.leb_spec (2 ^ 32 - (l0 + 256 * l1)) 0); [lia|]. destruct (Z.eqb_spec (l0 + 256 * l1) 0); [lia|].
  unfold SWITCH_STUN_ATTRIBUTE_MIN_LEN at 1. destruct (Z.ltb_spec (2 ^ 32 - (l0 + 256 * l1)) 8); [lia|]. cbn [parse_attributes].
  set (m := t0 :: t1 :: l0 :: l1 :: rest). assert (get m (20 + 2) = Fault) as Hget.
  { unfold get, m. rewrite lookup_ge_None_2; [done|]. simpl. lia. }
  assert (swap16 m (20 + 2) = Fault) as Hs by (unfold swap16; by rewrite Hget). by rewrite Hs.
Qed.

(** *** The ICE exchange *)

(** The binding response: its header, the user name and the mapped address. *)
Definition ice_reply (id user : bytes) (port a b c d : Z) : bytes :=
  [1; 1; 0; 48] ++ cookie_bytes ++ id ++ [0; 6; 0; 32] ++ user ++ [0; 1; 0; 8; 0; 1] ++ net16 port ++ [a; b; c; d].

Lemma cstring_whole u t : Forall (fun c => c <> 0) u -> cstring (u ++ 0 :: t) = u.
Proof.
  induction 1 as [|c u Hc Hu IH]; cbn [cstring app]; [done|]. destruct (Z.eqb_spec c 0); [done|]. by rewrite IH.
Qed.

Lemma length_S_inv {A} (l : list A) n : length l = S n -> exists x t, l = x :: t /\ length t = n.
Proof. destruct l as [|x t]; [done|]. intros [= H]. by exists x, t. Qed.

(** A list of known length as its elements. *)
Ltac explode l H :=
  repeat (let x := fresh "x" in let t := fresh l in
    apply length_S_inv in H as (x & t & -> & H); rename t into l); apply nil_length_inv in H; subst l.

Lemma ice_request user id : length user = 32%nat -> length id = 12%nat ->
  ice_out_packet user None id = Ok ([0; 1; 0; 36] ++ cookie_bytes ++ id ++ [0; 6; 0; 32] ++ user).
Proof.
  intros Hu Hi. explode user Hu. explode id Hi.
  vm_compute. reflexivity.
Qed.

(** An ICE request is answered with its own id and user and the sender's
    address.  The request ice_out sends for a user name of 32 characters, handled
    by the side that owns this name, yields a binding response with the id and
    the user name of the request and the address and port it came from, in
    network byte order. *)
Theorem ice_exchange user other id a b c d port :
  length user = 32%nat -> Forall (fun c => c <> 0) user -> other <> [] -> length id = 12%nat ->
  byte a -> byte b -> byte c -> byte d -> 0 <= port < 65536 ->
  (request ← ice_out_packet user None id; handle_ice true user other (dotted a b c d) port request)
  = Ok (Reply (ice_reply id user port a b c d)).
Proof.
  intros Hu Hnz Hother Hid Ha Hb Hc Hd Hport. rewrite ice_request by done. cbn [mbind res_bind].
  destruct (net16_bytes port Hport) as (hi & lo & Hnet & _). unfold ice_reply, handle_ice. rewrite Hnet.
  destruct other as [|o other]; [done|]. replace (negb true || zstr (Some user) || zstr (Some (o :: other))) with false by (by destruct user).
  explode user Hu. explode id Hid.
  match goal with |- context [switch_stun_packet_parse ?m ?l] => access (switch_stun_packet_parse m l) end.
  match goal with |- context [caller_end ?m ?l] => access (caller_end m l) end.
  match goal with |- context [walk ?f ?x ?m ?p ?e ?s] => access (walk f x m p e s) end.
  match goal with |- context [ld16 ?m ?l] => access (ld16 m l) end.
  unfold s_username at 1.
  match goal with |- context [cstring ?l] => change l with (take 32 l ++ 0 :: drop 33 l); rewrite cstring_whole by exact Hnz end.
  match goal with |- context [streq ?u ?v] => rewrite (proj2 (streq_spec u v) eq_refl) end.
  change (1 =? SWITCH_STUN_BINDING_REQUEST) with true. cbn [andb].
  match goal with |- context [switch_stun_packet_build_header ?t ?i ?r ?m] => access (switch_stun_packet_build_header t i r m) end.
  match goal with |- context [switch_stun_packet_attribute_add_username ?m ?v ?r ?n] => access (switch_stun_packet_attribute_add_username m v r n) end.
  unfold switch_stun_packet_attribute_add_binded_address. rewrite Hnet. run. rewrite store_quad_dotted by done. run.
  match goal with |- context [switch_stun_packet_length ?m] => access (switch_stun_packet_length m) end. reflexivity.
Qed.

(** ** Instances and flaws *)

Definition sample_id : bytes := str "abcdefghijkl".
Definition sample_user : bytes := str "0123456789abcdef0123456789ABCDEF".

Lemma stun_address_round_trip_witness :
  exists m m', (m ← response sample_id 260; switch_stun_packet_attribute_add_binded_address m (dotted 192 0 2 33) 5060) = Ok m
    /\ switch_stun_packet_parse m 260 = Ok (Some m')
    /\ switch_stun_packet_attribute_get_mapped_address m' 20 = Ok (dotted 192 0 2 33, 5060).
Proof.
  apply (stun_address_round_trip sample_id 260 192 0 2 33 5060); unfold byte; try reflexivity; lia.
Defined.

Lemma stun_parse_refuses_witness :
  switch_stun_packet_parse ([0; 1; 0; 8] ++ replicate 24 7) 28 = Ok None.
Proof.
  apply (stun_parse_refuses 0 1 0 8 (replicate 24 7) 28); unfold byte; try lia.
Defined.

Lemma stun_length_overrun_witness : switch_stun_packet_parse ([1; 1; 0; 4] ++ replicate 16 0) 20 = Fault.
Proof. apply (stun_length_overrun 1 1 0 4 (replicate 16 0)); unfold byte; try reflexivity; lia. Defined.

Lemma ice_exchange_witness :
  (request ← ice_out_packet sample_user None sample_id; handle_ice true sample_user (str "u") (dotted 10 0 0 9) 4000 request)
  = Ok (Reply (ice_reply sample_id sample_user 4000 10 0 0 9)).
Proof.
  apply (ice_exchange sample_user (str "u") sample_id 10 0 0 9 4000); unfold byte; try reflexivity; try discriminate; try lia.
  apply (bool_decide_unpack _). vm_compute. exact I.
Defined.

(** A lookup whose answer starts with the address reads it. *)
Example lookup_reads_first :
  (m ← response sample_id 260; m ← switch_stun_packet_attribute_add_xor_binded_address m (dotted 192 0 2 33) 5060; lookup_reply m)
  = Ok (Some (dotted 192 0 2 33, 5060)).
Proof. vm_compute. reflexivity. Qed.

(** The padded length of a value: a value of 8 bytes takes 11, of 4 bytes 3. *)
Example padding : padded_length <$> [4; 8; 12; 20; 32] = [3; 11; 11; 19; 35].
Proof. reflexivity. Qed.

(** So the binding response the ICE handler itself sends is not understood by
    the lookup: behind the user name the mapped address is not found. *)
Example second_attribute_lost :
  lookup_reply (ice_reply sample_id sample_user 5060 192 0 2 33 ++ replicate 192 0) = Ok (Some ([], 0)).
Proof. vm_compute. reflexivity. Qed.

(** The length of the packet is summed in network byte order: past 255 the
    carry is lost (252 bytes of password and 4 of header make a length of 0). *)
Example length_carry_lost :
  (m ← switch_stun_packet_build_header SWITCH_STUN_BINDING_REQUEST None sample_id (replicate 512 0);
   '(_, m) ← switch_stun_packet_attribute_add_password m (Some (replicate 252 65)) [] 252;
   switch_stun_packet_length m) = Ok 20.
Proof. vm_compute. reflexivity. Qed.
End Stun.
