(* ===== verification/CoreHash.v ===== *)
(** * String-keyed hashes (switch_core_hash.c)

    The wrapper the rest of the core uses: tables from strings to pointers, in a
    case-sensitive and a case-insensitive variety, with owned keys and without
    duplicates.  The locked and wrlocked forms differ only in the lock they hold
    around the same operation.  [StringMap] is what the wrapper promises to its
    clients. *)

From S2P Require Import Prelude CString HashTable Event.

Module CoreHash.
Import CString HashTable.

Section hash.
Context {V : Type}.

(** [switch_hash_t]; destructors are opaque pointers. *)
Abbreviation switch_hash := (switch_hashtable bytes V Z).

Definition switch_core_hash_init_case (case_sensitive : bool) : switch_status * option switch_hash :=
  if case_sensitive then switch_create_hashtable 16 switch_hash_default switch_hash_equalkeys
  else switch_create_hashtable 16 switch_hash_default_ci switch_hash_equalkeys_ci.

Definition switch_core_hash_destroy (h : switch_hash) : list (mem_event bytes V Z) := switch_hashtable_destroy h.

(** [strdup] of the key aside, the insertion of an owned key. *)
Definition switch_core_hash_insert_destructor (a : alloc_outcome) (node : bool) (h : switch_hash)
    (key : bytes) (data : option V) (destructor : option Z) : option (switch_hash * switch_status) :=
  '(h', _, _) ← switch_hashtable_insert_destructor a node h key data
                  (Z.lor HASHTABLE_FLAG_FREE_KEY HASHTABLE_DUP_CHECK) destructor;
  Some (h', SWITCH_STATUS_SUCCESS).

(** The macro [switch_core_hash_insert]; its locked forms are the same under a lock. *)
Definition switch_core_hash_insert a node h key data := switch_core_hash_insert_destructor a node h key data None.

Definition switch_core_hash_delete (h : switch_hash) (key : bytes) : switch_hash * switch_status :=
  ((switch_hashtable_remove h key).1.1, SWITCH_STATUS_SUCCESS).

Definition switch_core_hash_find (h : switch_hash) (key : bytes) : option V := switch_hashtable_search h key.

Definition switch_core_hash_empty (h : switch_hash) : bool :=
  match switch_hashtable_first_iter h with Some _ => false | None => true end.

(** The keys a deletion callback selects, collected as the "delete" headers of
    an event; every entry without a callback. *)
Definition selected (callback : option (bytes -> option V -> bool)) (kv : bytes * option V) : bool :=
  match callback with None => true | Some cb => cb kv.1 kv.2 end.

Definition collect_delete (callback : option (bytes -> option V -> bool)) (kvs : list (bytes * option V)) : Event.event :=
  foldl (fun ev kv => if selected callback kv
                      then (Event.switch_event_add_header_string ev Event.SWITCH_STACK_BOTTOM (str "delete") (Some kv.1)).1
                      else ev)
    (Event.create_clone None) kvs.

(** One turn of the loop that deletes them: a success is remembered. *)
Definition delete_one (acc : switch_hash * switch_status) (hp : Event.header) : switch_hash * switch_status :=
  let '(h, st) := switch_core_hash_delete acc.1 (default [] (Event.h_value hp)) in
  (h, if bool_decide (st = SWITCH_STATUS_SUCCESS) then SWITCH_STATUS_SUCCESS else acc.2).

Definition delete_headers (h : switch_hash) (ev : Event.event) : switch_hash * switch_status :=
  foldl delete_one (h, SWITCH_STATUS_GENERR) (Event.headers ev).

Definition switch_core_hash_delete_multi (h : switch_hash) (callback : option (bytes -> option V -> bool))
  : switch_hash * switch_status :=
  let kvs := iterate (length (concat (table h))) h (switch_hashtable_first_iter h) in
  delete_headers h (collect_delete callback kvs).

End hash.

(** ** The interface *)

(** What a string map promises: a finite map from keys, up to a canonical form,
    to values, on the states that satisfy [sm_ok]. *)
Class StringMap (H V : Type) := {
  sm_ok : H -> Prop;
  sm_canon : bytes -> bytes;
  sm_empty : H;
  sm_insert : H -> bytes -> V -> H;
  sm_delete : H -> bytes -> H;
  sm_find : H -> bytes -> option V;
  sm_empty_ok : sm_ok sm_empty;
  sm_insert_ok : forall h k v, sm_ok h -> sm_ok (sm_insert h k v);
  sm_delete_ok : forall h k, sm_ok h -> sm_ok (sm_delete h k);
  sm_find_empty : forall k, sm_find sm_empty k = None;
  sm_find_insert : forall h k v k', sm_ok h ->
    sm_find (sm_insert h k v) k' = if bool_decide (sm_canon k = sm_canon k') then Some v else sm_find h k';
  sm_find_delete : forall h k k', sm_ok h ->
    sm_find (sm_delete h k) k' = if bool_decide (sm_canon k = sm_canon k') then None else sm_find h k' }.

(** The case-sensitive and case-insensitive hashes, memory permitting. *)
Definition fold_case (case_sensitive : bool) (k : bytes) : bytes :=
  if case_sensitive then k else tolower <$> k.

Definition hash_ok {V} (cs : bool) (h : switch_hashtable bytes V Z) : Prop :=
  ht_wf (fold_case cs) h /\ uniq (fold_case cs) h.

Definition empty_hash {V} (cs : bool) : switch_hashtable bytes V Z :=
  mk_table 53 (replicate 53 []) 0 35 0
    (if cs then switch_hash_default else switch_hash_default_ci)
    (if cs then switch_hash_equalkeys else switch_hash_equalkeys_ci).

Definition insert_hash {V} (h : switch_hashtable bytes V Z) (k : bytes) (v : V) : switch_hashtable bytes V Z :=
  default h (fst <$> switch_core_hash_insert CallocOk true h k (Some v)).

Definition delete_hash {V} (h : switch_hashtable bytes V Z) (k : bytes) : switch_hashtable bytes V Z :=
  (switch_core_hash_delete h k).1.

Section laws.
Context {V : Type}.
Implicit Types h : switch_hashtable bytes V Z.

Lemma init_case_empty cs : switch_core_hash_init_case (V := V) cs = (SWITCH_STATUS_SUCCESS, Some (empty_hash cs)).
Proof. destruct cs; apply create_16. Qed.

#[export] Instance fold_case_keys cs :
  KeyLaws (fold_case cs) (if cs then switch_hash_default else switch_hash_default_ci)
    (if cs then switch_hash_equalkeys else switch_hash_equalkeys_ci).
Proof. destruct cs; [apply default_keys|apply default_ci_keys]. Qed.

Lemma empty_hash_abs cs : hash_ok cs (empty_hash (V := V) cs) /\ abs (fold_case cs) (empty_hash (V := V) cs) = ∅.
Proof.
  destruct (create_wf (V := V) (D := Z) (fold_case cs) 16 _ _ (empty_hash cs) (fold_case_keys cs)) as (? & ? & _ & ? & _).
  { destruct cs; apply create_16. }
  done.
Qed.

Lemma insert_hash_abs cs h k v :
  hash_ok cs h ->
  hash_ok cs (insert_hash h k v) /\ abs (fold_case cs) (insert_hash h k v) = <[fold_case cs k := Some v]> (abs (fold_case cs) h).
Proof.
  intros [Hwf Hu]. unfold insert_hash, switch_core_hash_insert, switch_core_hash_insert_destructor.
  destruct (insert_defined (fold_case cs) CallocOk true h k (Some v) (Z.lor HASHTABLE_FLAG_FREE_KEY HASHTABLE_DUP_CHECK) None Hwf)
    as [[[h' r] evs] Hi]; [done|].
  rewrite Hi. simpl. destruct (insert_abs (fold_case cs) CallocOk true h k (Some v) (Z.lor HASHTABLE_FLAG_FREE_KEY HASHTABLE_DUP_CHECK)
                            None h' r evs Hwf Hu eq_refl Hi)
    as (? & ? & _ & ?). done.
Qed.

Lemma delete_hash_abs cs h k :
  hash_ok cs h ->
  hash_ok cs (delete_hash h k) /\ abs (fold_case cs) (delete_hash h k) = delete (fold_case cs k) (abs (fold_case cs) h).
Proof.
  intros [Hwf Hu]. unfold delete_hash, switch_core_hash_delete.
  destruct (switch_hashtable_remove h k) as [[h' v] evs] eqn:Hr.
  destruct (remove_abs (fold_case cs) h k h' v evs Hwf Hu Hr) as (? & ? & _ & _ & ?). done.
Qed.

Lemma find_hash_abs cs h k : hash_ok cs h -> switch_core_hash_find h k = mjoin (abs (fold_case cs) h !! fold_case cs k).
Proof. intros [Hwf Hu]. by apply search_abs. Qed.

End laws.

(** The hash table of the core implements the interface. *)
#[export] Instance core_hash_string_map {V} (cs : bool) : StringMap (switch_hashtable bytes V Z) V.
Proof.
  refine {| sm_ok := hash_ok cs; sm_canon := fold_case cs; sm_empty := empty_hash cs;
            sm_insert := insert_hash; sm_delete := delete_hash; sm_find := switch_core_hash_find |}.
  - apply empty_hash_abs.
  - intros. by apply insert_hash_abs.
  - intros. by apply delete_hash_abs.
  - intros k. destruct (empty_hash_abs (V := V) cs) as [Hok Habs].
    rewrite (find_hash_abs cs) by done. by rewrite Habs, lookup_empty.
  - intros h k v k' Hok. destruct (insert_hash_abs cs h k v Hok) as [Hok' Habs].
    rewrite (find_hash_abs cs) by done. rewrite Habs. case_bool_decide as Hk.
    + by rewrite Hk, lookup_insert_eq.
    + rewrite lookup_insert_ne by done. by rewrite (find_hash_abs cs).
  - intros h k k' Hok. destruct (delete_hash_abs cs h k Hok) as [Hok' Habs].
    rewrite (find_hash_abs cs) by done. rewrite Habs. case_bool_decide as Hk.
    + by rewrite Hk, lookup_delete_eq.
    + rewrite lookup_delete_ne by done. by rewrite (find_hash_abs cs).
Defined.

(** ** Deleting the selected keys *)

Section multi.
Context {V : Type}.
Implicit Types h : switch_hashtable bytes V Z.
Implicit Types kvs : list (bytes * option V).

(** A key that survives being a header value. *)
Definition key_ok (k : bytes) : Prop := k <> [] /\ Event.plain_data k.

Lemma delete_name_plain : Event.plain_name (str "delete").
Proof. split; [reflexivity|discriminate]. Qed.

Lemma collect_spec cb kvs : forall ev,
  Event.ev_wf ev -> test_flag (Event.flags ev) Event.EF_UNIQ_HEADERS = false ->
  Forall (fun kv => selected cb kv = true -> key_ok kv.1) kvs ->
  Event.content <$> Event.headers
    (foldl (fun ev kv => if selected cb kv
                         then (Event.switch_event_add_header_string ev Event.SWITCH_STACK_BOTTOM (str "delete") (Some kv.1)).1
                         else ev) ev kvs)
  = (Event.content <$> Event.headers ev) ++ ((fun kv => (str "delete", Some kv.1)) <$> List.filter (selected cb) kvs).
Proof.
  induction kvs as [|kv kvs IH]; intros ev Hwf Hfl Hok; [by rewrite app_nil_r|].
  apply Forall_cons in Hok as [Hkv Hok]. cbn [foldl List.filter]. destruct (selected cb kv) eqn:Hsel; [|by apply IH].
  destruct (Hkv eq_refl) as [Hne Hd].
  destruct (Event.add_plain_append ev (str "delete") kv.1 Hwf delete_name_plain Hd Hne) as (Hwf' & Hc & Hm); [congruence|].
  rewrite IH; [|done|unfold Event.meta in Hm; congruence|done].
  rewrite Hc, <-app_assoc. by rewrite fmap_cons.
Qed.

Lemma delete_fold cs hs : forall h st,
  hash_ok cs h ->
  let h' := (foldl delete_one (h, st) hs).1 in
  hash_ok cs h' /\ forall c, abs (fold_case cs) h' !! c
    = if bool_decide (c ∈ (fun hp => fold_case cs (default [] (Event.h_value hp))) <$> hs) then None
      else abs (fold_case cs) h !! c.
Proof.
  induction hs as [|hp hs IH]; intros h st Hok; [done|]. cbn [foldl].
  destruct (delete_hash_abs cs h (default [] (Event.h_value hp)) Hok) as [Hok' Habs].
  destruct (IH (delete_hash h (default [] (Event.h_value hp))) SWITCH_STATUS_SUCCESS Hok') as [Hok'' Hl].
  change (delete_one (h, st) hp) with (delete_hash h (default [] (Event.h_value hp)), SWITCH_STATUS_SUCCESS).
  split; [exact Hok''|].
  intros c. rewrite Hl, Habs, fmap_cons. set (x := fold_case cs (default [] (Event.h_value hp))).
  destruct (decide (c = x)) as [->|Hne].
  - rewrite lookup_delete_eq. rewrite (bool_decide_eq_true_2 (x ∈ x :: _)) by by left. by case_bool_decide.
  - rewrite lookup_delete_ne by done. do 2 case_bool_decide; rewrite ?elem_of_cons in *; tauto.
Qed.

(** Deleting by callback.  With keys that are not empty and do not look like
    a rendered array, switch_core_hash_delete_multi removes exactly the entries
    its callback selects and keeps every other binding, however the keys are
    spread over the buckets. *)
Theorem delete_multi_exact cs h cb :
  hash_ok cs h -> Forall (fun e => selected cb (e_k e, e_v e) = true -> key_ok (e_k e)) (entries h) ->
  let h' := (switch_core_hash_delete_multi h cb).1 in
  hash_ok cs h' /\ forall e, e ∈ entries h ->
    switch_core_hash_find h' (e_k e) = if selected cb (e_k e, e_v e) then None else e_v e.
Proof.
  intros Hok Hkeys. unfold switch_core_hash_delete_multi, delete_headers, collect_delete.
  fold (entries h). rewrite iterate_entries by done.
  destruct (delete_fold cs (Event.headers (foldl (fun ev kv => if selected cb kv
      then (Event.switch_event_add_header_string ev Event.SWITCH_STACK_BOTTOM (str "delete") (Some kv.1)).1 else ev)
      (Event.create_clone None) (kv <$> entries h))) h SWITCH_STATUS_GENERR Hok) as [Hok' Hl].
  split; [exact Hok'|]. intros e He. rewrite (find_hash_abs cs) by exact Hok'. rewrite Hl. clear Hl Hok'.
  pose proof (collect_spec cb (kv <$> entries h) (Event.create_clone None) Event.blank_event_wf eq_refl) as Hc.
  rewrite Forall_fmap in Hc. specialize (Hc Hkeys). simpl in Hc.
  set (hs := Event.headers _) in *.
  assert ((fun hp => fold_case cs (default [] (Event.h_value hp))) <$> hs
          = (fun kv => fold_case cs kv.1) <$> List.filter (selected cb) (kv <$> entries h)) as ->.
  { transitivity ((fun c : bytes * option bytes => fold_case cs (default [] c.2)) <$> (Event.content <$> hs)).
    - by rewrite <-list_fmap_compose.
    - rewrite Hc, <-list_fmap_compose. done. }
  destruct Hok as [Hwf Hu]. pose proof (map_of_elem (fold_case cs) (entries h) e Hu He) as Hlook.
  change (map_of (fold_case cs) (entries h)) with (abs (fold_case cs) h) in Hlook. rewrite Hlook.
  case_bool_decide as Hin.
  - apply list_elem_of_fmap in Hin as (kv0 & Hk & Hin). apply list_elem_of_In, filter_In in Hin as [Hin Hsel].
    apply list_elem_of_In, list_elem_of_fmap in Hin as (e' & -> & He'). simpl in Hk.
    assert (e' = e) as ->; [|unfold kv in Hsel; by rewrite Hsel]. clear -Hk He He' Hu.
    unfold uniq, keys in Hu. apply list_elem_of_lookup in He as [i Hi]. apply list_elem_of_lookup in He' as [j Hj].
    assert (i = j) as <-; [|congruence]. eapply NoDup_lookup; [exact Hu|rewrite list_lookup_fmap, Hi; done|].
    rewrite list_lookup_fmap, Hj. simpl. by rewrite Hk.
  - destruct (selected cb (e_k e, e_v e)) eqn:Hsel; [|done]. exfalso. apply Hin. apply list_elem_of_fmap.
    exists (kv e). split; [done|]. apply list_elem_of_In, filter_In. split; [|done].
    apply list_elem_of_In, list_elem_of_fmap. by exists e.
Qed.

End multi.

Definition sample_hash : switch_hashtable bytes Z Z :=
  insert_hash (insert_hash (empty_hash false) (str "Alice") 1) (str "bob") 2.

Lemma sample_hash_ok : hash_ok false sample_hash.
Proof. apply insert_hash_abs, insert_hash_abs, empty_hash_abs. Qed.

Definition sample_callback : option (bytes -> option Z -> bool) := Some (fun _ v => bool_decide (v = Some 1)).

Lemma delete_multi_exact_witness :
  let h' := (switch_core_hash_delete_multi sample_hash sample_callback).1 in
  hash_ok false h' /\ forall e, e ∈ entries sample_hash ->
    switch_core_hash_find h' (e_k e) = if selected sample_callback (e_k e, e_v e) then None else e_v e.
Proof.
  apply (delete_multi_exact false sample_hash sample_callback); [exact sample_hash_ok|].
  apply Forall_forall. intros e He _.
  assert (e_k e ∈ e_k <$> entries sample_hash) as Hk by (apply list_elem_of_fmap; by exists e).
  replace (e_k <$> entries sample_hash) with [str "bob"; str "Alice"] in Hk by (vm_compute; reflexivity).
  rewrite !elem_of_cons, elem_of_nil in Hk. destruct Hk as [-> | [-> | []]]; by split.
Defined.

(** An empty key shields the others.  The keys to delete are collected as
    header values, and adding an empty value deletes the headers of that name: of
    two selected keys, one met before the empty one and the empty key itself,
    neither is deleted, and the routine reports an error. *)
Theorem delete_multi_empty_key :
  let h := insert_hash (insert_hash (empty_hash true) [] 7) (str "h") 8 in
  let '(h', status) := switch_core_hash_delete_multi h None in
  switch_core_hash_find h' [] = Some 7 /\ switch_core_hash_find h' (str "h") = Some 8
  /\ status = SWITCH_STATUS_GENERR.
Proof. vm_compute. done. Qed.

End CoreHash.
