(* ===== verification/Acl.v ===== *)
(** * Network access lists (switch_utils.c, switch_core.c)

    The lists of networks that allow or deny an address: parsing of CIDR
    blocks, the rule lists, their validation against an IPv4 or IPv6 address,
    the table of lists the core loads and the check every protocol module calls.

    An [ip_t] is the union of a 32-bit word and the 16 bytes of an IPv6
    address: it is kept as its 16 bytes, and the word is read and written at
    their start in the byte order of the host (little-endian).  Addresses in
    text are read by the C library's inet_pton; the class [Platform] holds it,
    the contents of automatic variables before they are written, and the value
    of a 32-bit shift by 32 places, which C leaves open and hardware gives in
    one of two ways.  The table of lists is a hash of the core, used through the
    interface of CoreHash.  The configuration is the XML tree the core reads;
    log lines are not modelled. *)

From S2P Require Import Prelude CString HashTable Tokenizer Event CoreHash.

Module Acl.
Import CString CoreHash.

(** ** Addresses *)

Inductive family := AF_UNSPEC | AF_INET | AF_INET6.

#[export] Instance family_eq_dec : EqDecision family.
Proof. solve_decision. Defined.

(** [ip_t] (switch_utils.h). *)
Abbreviation ip_t := (list Z).

(** The 32-bit word at the start of the union, and its bytes. *)
Fixpoint le (b : bytes) : Z := match b with [] => 0 | c :: b => c + 256 * le b end.
Definition v4 (ip : ip_t) : Z := le (take 4 ip).
Definition word_bytes (w : Z) : bytes :=
  [Z.land w 0xFF; Z.land (Z.shiftr w 8) 0xFF; Z.land (Z.shiftr w 16) 0xFF; Z.land (Z.shiftr w 24) 0xFF].
Definition set_v4 (w : Z) (ip : ip_t) : ip_t := blit 0 (word_bytes w) ip.

(** [htonl] and [ntohl]. *)
Definition htonl (w : Z) : Z := le (reverse (word_bytes w)).

Definition zero_ip : ip_t := replicate 16 0.

(** What is outside the sources. *)
Class Platform := {
  inet_pton : family -> bytes -> option bytes;
  shr32 : Z;
  stack_ip : ip_t;
  stack_mask : ip_t }.

(** [inet_pton] stores the address in network byte order, or nothing. *)
Definition store (a : option bytes) (ip : ip_t) : ip_t :=
  match a with Some b => blit 0 b ip | None => ip end.

Section acl.
Context {PF : Platform}.

Definition switch_inet_pton (af : family) (src : bytes) (dst : ip_t) : ip_t := store (inet_pton af src) dst.

(** ** CIDR blocks *)

(** The loop over the 16 bytes of an IPv6 mask (its branch for [n == 0] is
    behind one for [n < 8]). *)
Fixpoint v6_mask (k : nat) (n : Z) : bytes :=
  match k with
  | O => []
  | S k =>
    if 8 <=? n then 0xFF :: v6_mask k (n - 8)
    else Z.land 0xFF (Z.lnot (Z.shiftr 0xFF n)) :: v6_mask k (n - n)
  end.

(** [0xFFFFFFFF & ~(0xFFFFFFFF >> bits)]. *)
Definition v4_mask (bits : Z) : Z :=
  Z.land 0xFFFFFFFF (Z.lnot (if bits =? 32 then shr32 else Z.shiftr 0xFFFFFFFF bits)).

(** The return value, and [*ip], [*mask] and [*bitp]. *)
Definition switch_parse_cidr (string : bytes) (ip mask : ip_t) (bitp : Z) : Z * (ip_t * ip_t * Z) :=
  let host := ztake 126 string in
  match strchr host 47 with
  | None => (-1, (ip, mask, bitp))
  | Some i =>
    let '(host, bit_str) := cut_at host i in
    let bits := atoi bit_str in
    if bool_decide (is_Some (strchr string 58)) then
      if (bits <? 0) || (128 <? bits) then (-2, (ip, mask, bitp))
      else (0, (switch_inet_pton AF_INET6 host ip, v6_mask 16 bits, bits))
    else
      if (bits <? 0) || (32 <? bits) then (-2, (ip, mask, bitp))
      else
        let ip := switch_inet_pton AF_INET host ip in
        (0, (set_v4 (htonl (v4 ip)) ip, set_v4 (v4_mask bits) mask, bits))
  end.

(** [switch_test_subnet] (switch_utils.h). *)
Definition switch_test_subnet (ip net mask : Z) : bool :=
  if negb (mask =? 0) then Z.land net mask =? Z.land ip mask
  else if negb (net =? 0) then net =? ip else true.

Definition unspecified (ip : ip_t) : bool := forallb (Z.eqb 0) ip.

Definition switch_testv6_subnet (ip net mask : ip_t) : bool :=
  if negb (unspecified mask) then
    bool_decide (zip_with Z.land net mask = zip_with Z.land ip mask)
  else if negb (unspecified net) then bool_decide (net = ip) else true.

(** ** Lists *)

(** [struct switch_network_node] and [struct switch_network_list]; the list
    from [node_head] on. *)
Record node := mk_node {
  n_ip : ip_t; n_mask : ip_t; n_bits : Z; n_family : family; n_ok : bool; n_token : option bytes; n_str : bytes }.

Record network_list := mk_list { nodes : list node; default_type : bool; l_name : bytes }.

Definition switch_network_list_create (name : bytes) (default_type : bool) : network_list * switch_status :=
  (mk_list [] default_type name, SWITCH_STATUS_SUCCESS).

(** The loop of the two validations: nodes of the other family are passed over
    and the verdict follows ever longer prefixes.  The state is [ok], [bits]
    and [*token]. *)
Definition validate_step (skip : family) (test : node -> bool) (st : bool * Z * option bytes) (n : node)
  : bool * Z * option bytes :=
  let '(ok, bits, token) := st in
  if bool_decide (n_family n = skip) then st
  else if (bits <? n_bits n) && test n then (n_ok n, n_bits n, n_token n)
  else st.

Definition validate (skip : family) (test : node -> bool) (l : network_list) (token : option bytes) : bool * option bytes :=
  let '(ok, _, token) := fold_left (validate_step skip test) (nodes l) (default_type l, 0, token) in (ok, token).

Definition switch_network_list_validate_ip6_token (l : network_list) (ip : ip_t) (token : option bytes) : bool * option bytes :=
  validate AF_INET (fun n => switch_testv6_subnet ip (n_ip n) (n_mask n)) l token.

Definition switch_network_list_validate_ip_token (l : network_list) (ip : Z) (token : option bytes) : bool * option bytes :=
  validate AF_INET6 (fun n => switch_test_subnet ip (v4 (n_ip n)) (v4 (n_mask n))) l token.

Definition push (n : node) (l : network_list) : network_list := mk_list (n :: nodes l) (default_type l) (l_name l).

Definition switch_network_list_perform_add_cidr_token (l : network_list) (cidr_str : bytes) (ok : bool) (token : option bytes)
  : network_list * switch_status :=
  let '(r, (ip, mask, bits)) := switch_parse_cidr cidr_str stack_ip stack_mask 0 in
  if negb (r =? 0) then (l, SWITCH_STATUS_GENERR)
  else
    let fam := if bool_decide (is_Some (strchr cidr_str 58)) then AF_INET6 else AF_INET in
    (push (mk_node ip mask bits fam ok (if zstr token then None else token) cidr_str) l, SWITCH_STATUS_SUCCESS).

Definition add_one (ok : bool) (token : option bytes) (st : network_list * switch_status) (cidr : bytes)
  : network_list * switch_status :=
  let '(l, status) := st in
  let '(l, this_status) := switch_network_list_perform_add_cidr_token l cidr ok token in
  (l, if bool_decide (this_status = SWITCH_STATUS_SUCCESS) then status else this_status).

Definition switch_network_list_add_cidr_token (l : network_list) (cidr_str : bytes) (ok : bool) (token : option bytes)
  : option (network_list * switch_status) :=
  if bool_decide (is_Some (strchr cidr_str 44)) then
    argv ← Tokenizer.switch_separate_string cidr_str 44 32;
    Some (fold_left (add_one ok token) argv (l, SWITCH_STATUS_SUCCESS))
  else Some (switch_network_list_perform_add_cidr_token l cidr_str ok token).

(** The number of bits set in a word, in parallel. *)
Definition count_bits (v : Z) : Z :=
  let v := u32 (v - Z.land (Z.shiftr v 1) 0x55555555) in
  let v := u32 (Z.land v 0x33333333 + Z.land (Z.shiftr v 2) 0x33333333) in
  Z.shiftr (u32 (Z.land (u32 (v + Z.shiftr v 4)) 0xF0F0F0F * 0x1010101)) 24.

Definition switch_network_list_add_host_mask (l : network_list) (host mask_str : bytes) (ok : bool)
  : network_list * switch_status :=
  let ip := switch_inet_pton AF_INET host stack_ip in
  let mask := switch_inet_pton AF_INET mask_str stack_mask in
  let node_ip := set_v4 (htonl (v4 ip)) zero_ip in
  let node_mask := set_v4 (htonl (v4 mask)) zero_ip in
  (push (mk_node node_ip node_mask (count_bits (v4 mask)) AF_UNSPEC ok None (host ++ [58] ++ mask_str)) l, SWITCH_STATUS_SUCCESS).

(** ** The table of lists (switch_core.c) *)

Context {H : Type} {SM : StringMap H network_list}.

(** The loop over the blocks of a list given by value; [net], [mask] and
    [bits] keep what the last parsed block left in them. *)
Fixpoint check_blocks (ipv6 : bool) (ip : ip_t) (argv : list bytes) (net mask : ip_t) (bits : Z) (ok : bool) : bool :=
  match argv with
  | [] => ok
  | cidr :: argv =>
    let '(_, (net, mask, bits)) := switch_parse_cidr cidr net mask bits in
    let ok := if ipv6 then switch_testv6_subnet ip net mask else switch_test_subnet (v4 ip) (v4 net) (v4 mask) in
    if ok then ok else check_blocks ipv6 ip argv net mask bits ok
  end.

(** [net] and [mask] start with what the stack holds. *)
Definition switch_check_network_list_ip_token (h : H) (ip_str list_name : bytes) (token : option bytes)
  : option (bool * option bytes) :=
  let ipv6 := bool_decide (is_Some (strchr ip_str 58)) in
  let ip :=
    if ipv6 then switch_inet_pton AF_INET6 ip_str stack_ip
    else let ip := switch_inet_pton AF_INET ip_str stack_ip in set_v4 (htonl (v4 ip)) ip in
  match sm_find h list_name with
  | Some l =>
    Some (if ipv6 then switch_network_list_validate_ip6_token l ip token
          else switch_network_list_validate_ip_token l (v4 ip) token)
  | None =>
    if bool_decide (is_Some (strchr list_name 47)) then
      if bool_decide (is_Some (strchr list_name 44)) then
        argv ← Tokenizer.switch_separate_string list_name 44 32;
        Some (check_blocks ipv6 ip argv stack_ip stack_mask 0 false, token)
      else
        let '(_, (net, mask, _)) := switch_parse_cidr list_name stack_ip stack_mask 0 in
        Some (switch_test_subnet (v4 ip) (v4 net) (v4 mask), token)
    else Some (false, token)
  end.

(** *** Loading *)

(** An XML element, as switch_xml_child and switch_xml_attr see it: iterating
    with [->next] from the first child of a name visits its namesakes.
    Attributes that a document type gives by default count as written out. *)
Inductive xml := Xml (name : bytes) (attrs : list (bytes * bytes)) (body : list xml).

Definition xml_name (x : xml) : bytes := let 'Xml n _ _ := x in n.
Definition xml_body (x : xml) : list xml := let 'Xml _ _ b := x in b.

Definition switch_xml_children (x : xml) (name : bytes) : list xml := filter (fun c => xml_name c = name) (xml_body x).
Definition switch_xml_child (x : xml) (name : bytes) : option xml := head (switch_xml_children x name).
Definition switch_xml_attr (x : xml) (attr : bytes) : option bytes :=
  let 'Xml _ a _ := x in (fun r => r.2.2) <$> list_find (fun kv => kv.1 = attr) a.

(** A loop whose body may fail. *)
Fixpoint each {A B} (f : A -> B -> option A) (bs : list B) (a : A) : option A :=
  match bs with [] => Some a | b :: bs => a' ← f a b; each f bs a' end.

Definition switch_network_list_add_cidr (l : network_list) (cidr_str : bytes) (ok : bool) : option (network_list * switch_status) :=
  switch_network_list_add_cidr_token l cidr_str ok None.

Definition add_cidrs (cidrs : list bytes) (ok : bool) (l : network_list) : option network_list :=
  each (fun l c => fst <$> switch_network_list_add_cidr l c ok) cidrs l.

Definition create_list (name : bytes) (default_type : bool) : network_list :=
  (switch_network_list_create name default_type).1.

(** The lists every installation has. *)
Definition load_auto_lists (guess_ip guess_mask : bytes) : option H :=
  let rfc1918 := [str "10.0.0.0/8"; str "172.16.0.0/12"; str "192.168.0.0/16"] in
  let h := sm_empty in
  l ← add_cidrs rfc1918 true (create_list (str "rfc1918.auto") false);
  let h := sm_insert h (str "rfc1918.auto") l in
  l ← add_cidrs (str "0.0.0.0/8" :: rfc1918) false (create_list (str "wan.auto") true);
  let h := sm_insert h (str "wan.auto") l in
  l ← add_cidrs rfc1918 true
        (switch_network_list_add_host_mask (create_list (str "nat.auto") false) guess_ip guess_mask false).1;
  let h := sm_insert h (str "nat.auto") l in
  l ← add_cidrs [str "127.0.0.0/8"] true (create_list (str "loopback.auto") false);
  let h := sm_insert h (str "loopback.auto") l in
  let l := (switch_network_list_add_host_mask (create_list (str "localnet.auto") false) guess_ip guess_mask true).1 in
  Some (sm_insert h (str "localnet.auto") l).

(** The users of a domain. *)
Definition load_user (domain : bytes) (ok : bool) (l : network_list) (ut : xml) : option network_list :=
  match switch_xml_attr ut (str "id"), switch_xml_attr ut (str "cidr") with
  | Some id, Some user_cidr => fst <$> switch_network_list_add_cidr_token l user_cidr ok (Some (id ++ str "@" ++ domain))
  | _, _ => Some l
  end.

Definition load_domain (domain : bytes) (ok : bool) (x_domain : xml) (l : network_list) : option network_list :=
  let x_domain := default x_domain (switch_xml_child x_domain (str "users")) in
  l ← each (load_user domain ok) (switch_xml_children x_domain (str "user")) l;
  each (fun l gts => each (fun l gt => each (fun l uts =>
      each (load_user domain ok) (switch_xml_children uts (str "user")) l)
    (switch_xml_children gt (str "users")) l)
    (switch_xml_children gts (str "group")) l)
    (switch_xml_children x_domain (str "groups")) l.

(** One [<node>]; a domain that cannot be located skips the insertion into the
    table.  [locate] is switch_xml_locate_domain. *)
Definition load_node (locate : bytes -> option xml) (name : bytes) (default_type : bool) (st : H * network_list) (x_node : xml)
  : option (H * network_list) :=
  let '(h, l) := st in
  let ok := match switch_xml_attr x_node (str "type") with Some type => switch_true (Some type) | None => default_type end in
  let insert l := Some (sm_insert h name l, l) in
  match switch_xml_attr x_node (str "domain"), switch_xml_attr x_node (str "cidr"),
        switch_xml_attr x_node (str "host"), switch_xml_attr x_node (str "mask") with
  | Some domain, _, _, _ =>
    match locate domain with
    | None => Some st
    | Some x_domain => l ← load_domain domain ok x_domain l; insert l
    end
  | None, Some cidr, _, _ => r ← switch_network_list_add_cidr l cidr ok; insert r.1
  | None, None, Some host, Some mask => insert (switch_network_list_add_host_mask l host mask ok).1
  | _, _, _, _ => insert l
  end.

Definition load_list (locate : bytes -> option xml) (h : H) (x_list : xml) : option H :=
  match switch_xml_attr x_list (str "name") with
  | None | Some [] => Some h
  | Some name =>
    let default_type := match switch_xml_attr x_list (str "default") with Some dft => switch_true (Some dft) | None => true end in
    fst <$> each (load_node locate name default_type) (switch_xml_children x_list (str "node")) (h, create_list name default_type)
  end.

(** [switch_find_local_ip] and [inet_ntoa] give [guess_ip] and [guess_mask];
    [cfg] is the root of acl.conf, when it opens. *)
Definition switch_load_network_lists (guess_ip guess_mask : bytes) (cfg : option xml) (locate : bytes -> option xml) : option H :=
  h ← load_auto_lists guess_ip guess_mask;
  match cfg ≫= fun cfg => switch_xml_child cfg (str "network-lists") with
  | Some x_lists => each (load_list locate) (switch_xml_children x_lists (str "list")) h
  | None => Some h
  end.

End acl.
(** ** Masks *)

Definition byte (c : Z) : Prop := 0 <= c < 256.

(** The mask of the [n] leading bits of a [w]-bit word compares leading bits. *)
Lemma land_mask_eq w n x y :
  0 <= n <= w -> 0 <= x < 2 ^ w -> 0 <= y < 2 ^ w ->
  Z.land x (Z.land (Z.ones w) (Z.lnot (Z.shiftr (Z.ones w) n))) = Z.land y (Z.land (Z.ones w) (Z.lnot (Z.shiftr (Z.ones w) n)))
  <-> x / 2 ^ (w - n) = y / 2 ^ (w - n).
Proof.
  intros Hn Hx Hy.
  assert (Z.shiftr (Z.ones w) n = Z.ones (w - n)) as ->.
  { rewrite !Z.ones_equiv, Z.shiftr_div_pow2, <-!Z.sub_1_r by lia.
    replace (2 ^ w) with (2 ^ (w - n) * 2 ^ n) by (rewrite <-Z.pow_add_r by lia; f_equal; lia). pose proof (Z.pow_pos_nonneg 2 n). pose proof (Z.pow_pos_nonneg 2 (w - n)).
    symmetry. apply Z.div_unique with (2 ^ n - 1); lia. }
  assert (forall z, 0 <= z < 2 ^ w -> Z.land z (Z.land (Z.ones w) (Z.lnot (Z.ones (w - n)))) = Z.shiftl (z / 2 ^ (w - n)) (w - n)) as Hm.
  { intros z Hz. rewrite Z.land_assoc, Z.land_ones, Z.mod_small by lia. rewrite <-Z.ldiff_land, Z.ldiff_ones_r by lia.
    by rewrite Z.shiftr_div_pow2 by lia. }
  rewrite !Hm by done. split; [|congruence]. intros Hs.
  rewrite !Z.shiftl_mul_pow2 in Hs by lia. pose proof (Z.pow_pos_nonneg 2 (w - n)). nia.
Qed.

(** The number a byte string spells, most significant byte first. *)
Fixpoint be (b : bytes) : Z := match b with [] => 0 | c :: b => c * 256 ^ zlen b + be b end.

Lemma pow256 n : 0 <= n -> 256 ^ n = 2 ^ (8 * n).
Proof. intros ?. change 256 with (2 ^ 8). by rewrite <-Z.pow_mul_r by lia. Qed.

Lemma be_range b : Forall byte b -> 0 <= be b < 2 ^ (8 * zlen b).
Proof.
  unfold byte. induction 1 as [|c b Hc Hb IH]; cbn [be]; [done|]. rewrite zlen_cons. pose proof (zlen_nonneg b).
  rewrite pow256 by lia. replace (8 * (zlen b + 1)) with (8 + 8 * zlen b) by lia. rewrite Z.pow_add_r by lia.
  change (2 ^ 8) with 256. nia.
Qed.

Lemma v6_mask_zero (net ip : ip_t) : length net = length ip ->
  zip_with Z.land net (v6_mask (length net) 0) = zip_with Z.land ip (v6_mask (length ip) 0).
Proof.
  revert ip. induction net as [|c net IH]; intros [|d ip] Hl; try done. simpl in Hl. cbn [length v6_mask].
  change (8 <=? 0) with false. cbn iota. change (0 - 0) with 0. change (Z.land 255 (Z.lnot (Z.shiftr 255 0))) with 0.
  cbn [zip_with]. rewrite !Z.land_0_r. f_equal. apply IH. lia.
Qed.

Lemma land_255 c : 0 <= c < 256 -> Z.land c 255 = c.
Proof. intros ?. change 255 with (Z.ones 8). rewrite Z.land_ones by lia. by apply Z.mod_small. Qed.

Lemma add_mul_div a b m : 0 < m -> 0 <= b < m -> (a * m + b) / m = a.
Proof. intros. symmetry. apply Z.div_unique with b; lia. Qed.

Lemma v6_mask_positive k n : 0 < n -> unspecified (v6_mask (S k) n) = false.
Proof.
  intros Hn. unfold unspecified.
  change (v6_mask (S k) n) with (if 8 <=? n then 255 :: v6_mask k (n - 8) else Z.land 255 (Z.lnot (Z.shiftr 255 n)) :: v6_mask k (n - n)).
  destruct (Z.leb_spec 8 n); [done|]. cbn [forallb]. apply andb_false_iff. left.
  assert (forallb (fun n => negb (0 =? Z.land 255 (Z.lnot (Z.shiftr 255 (Z.of_nat n))))) (seq 1 7) = true) as Hf by (vm_compute; reflexivity).
  rewrite forallb_forall in Hf. specialize (Hf (Z.to_nat n)). rewrite Z2Nat.id in Hf by lia. apply negb_true_iff, Hf, in_seq. lia.
Qed.

Lemma v6_mask_eq net : forall ip n, length net = length ip -> Forall byte net -> Forall byte ip -> 0 <= n <= 8 * zlen net ->
  zip_with Z.land net (v6_mask (length net) n) = zip_with Z.land ip (v6_mask (length ip) n)
  <-> be net / 2 ^ (8 * zlen net - n) = be ip / 2 ^ (8 * zlen net - n).
Proof.
  unfold byte. induction net as [|c net IH]; intros [|d ip] n Hl Hnet Hip Hn; try done.
  apply Forall_cons in Hnet as [Hc Hnet]. apply Forall_cons in Hip as [Hd Hip]. injection Hl as Hl. rewrite zlen_cons in *.
  pose proof (be_range net Hnet) as Hrn. pose proof (be_range ip Hip) as Hri.
  assert (zlen ip = zlen net) as Hz by (unfold zlen; lia). rewrite Hz in Hri. pose proof (zlen_nonneg net).
  cbn [length v6_mask be]. rewrite Hz, pow256 by lia. destruct (Z.leb_spec 8 n) as [Hn8|Hn8]; cbn [zip_with].
  - replace (8 * (zlen net + 1) - n) with (8 * zlen net - (n - 8)) by lia. set (k := 8 * zlen net - (n - 8)).
    assert (forall a b, 0 <= b < 2 ^ (8 * zlen net) -> (a * 2 ^ (8 * zlen net) + b) / 2 ^ k = a * 2 ^ (n - 8) + b / 2 ^ k) as Hdiv.
    { intros a b Hb. replace (8 * zlen net) with (n - 8 + k) by lia. rewrite Z.pow_add_r, Z.mul_assoc by lia.
      apply Z.div_add_l. pose proof (Z.pow_pos_nonneg 2 k). lia. }
    rewrite !Hdiv by done. rewrite !land_255 by done.
    assert (forall b, 0 <= b < 2 ^ (8 * zlen net) -> 0 <= b / 2 ^ k < 2 ^ (n - 8)) as Hq.
    { intros b Hb. pose proof (Z.pow_pos_nonneg 2 k). split; [apply Z.div_pos; lia|]. apply Z.div_lt_upper_bound; [lia|].
      rewrite <-Z.pow_add_r by lia. replace (k + (n - 8)) with (8 * zlen net) by lia. lia. }
    pose proof (Hq _ Hrn). pose proof (Hq _ Hri). specialize (IH ip (n - 8) Hl Hnet Hip ltac:(lia)). fold k in IH.
    split; [intros [= -> H']; f_equal; by apply IH|]. intros He.
    assert (c = d) as -> by nia. f_equal. apply IH. lia.
  - replace (n - n) with 0 by lia. replace (8 * (zlen net + 1) - n) with (8 - n + 8 * zlen net) by lia.
    rewrite (Z.pow_add_r 2 (8 - n)), !(Z.mul_comm (2 ^ (8 - n))), <-!Z.div_div, !add_mul_div by lia.
    pose proof (land_mask_eq 8 n c d ltac:(lia) Hc Hd) as Hm. change (Z.ones 8) with 255 in Hm.
    rewrite <-Hm. split; [by intros [= -> _]|]. intros ->. f_equal. by apply v6_mask_zero.
Qed.

(** ** Words *)

Lemma le_word_bytes w : 0 <= w < 2 ^ 32 -> le (word_bytes w) = w.
Proof.
  intros Hw. unfold word_bytes. change 0xFF with (Z.ones 8). rewrite !Z.land_ones, !Z.shiftr_div_pow2 by lia. cbn [le].
  change (2 ^ 8) with 256. change (2 ^ 16) with 65536. change (2 ^ 24) with 16777216. change (2 ^ 32) with 4294967296 in Hw. zdiv.
Qed.

Lemma word_bytes_le a b c d : byte a -> byte b -> byte c -> byte d -> word_bytes (le [a; b; c; d]) = [a; b; c; d].
Proof.
  unfold byte. intros. unfold word_bytes. change 0xFF with (Z.ones 8). rewrite !Z.land_ones, !Z.shiftr_div_pow2 by lia. cbn [le].
  change (2 ^ 8) with 256. change (2 ^ 16) with 65536. change (2 ^ 24) with 16777216. repeat f_equal; zdiv.
Qed.

Lemma v4_blit a b c d ip : v4 (blit 0 [a; b; c; d] ip) = le [a; b; c; d].
Proof. done. Qed.

Lemma v4_set_v4 w ip : 0 <= w < 2 ^ 32 -> v4 (set_v4 w ip) = w.
Proof. intros Hw. unfold set_v4, word_bytes. rewrite v4_blit. by apply le_word_bytes. Qed.

(** A dotted quad as a number. *)
Abbreviation addr a b c d := (be [a; b; c; d]).

Lemma addr_range a b c d : byte a -> byte b -> byte c -> byte d -> 0 <= addr a b c d < 2 ^ 32.
Proof. intros. change (2 ^ 32) with (2 ^ (8 * zlen [a; b; c; d])). apply be_range. by rewrite !Forall_cons, Forall_nil. Qed.

Lemma htonl_le a b c d : byte a -> byte b -> byte c -> byte d -> htonl (le [a; b; c; d]) = addr a b c d.
Proof.
  intros. unfold htonl. rewrite word_bytes_le by done.
  change (reverse [a; b; c; d]) with [d; c; b; a]. cbn [le be]. change (256 ^ zlen [b; c; d]) with 16777216.
  change (256 ^ zlen [c; d]) with 65536. change (256 ^ zlen [d]) with 256. change (256 ^ zlen []) with 1. lia.
Qed.

(** ** Counting bits *)

(** The reference: how many of the low [n] bits are set. *)
Fixpoint popcount (n : nat) (v : Z) : Z :=
  match n with O => 0 | S n => Z.b2z (Z.odd v) + popcount n (v / 2) end.

Lemma testbit_split a b i : byte a -> 0 <= i ->
  Z.testbit (a + 256 * b) i = if i <? 8 then Z.testbit a i else Z.testbit b (i - 8).
Proof.
  unfold byte. intros Ha Hi. destruct (Z.ltb_spec i 8).
  - rewrite <-(Z.mod_pow2_bits_low (a + 256 * b) 8) by lia. change (2 ^ 8) with 256.
    rewrite Z.mul_comm, Z.mod_add, Z.mod_small by lia. done.
  - replace i with (i - 8 + 8) at 1 by lia. rewrite <-Z.div_pow2_bits by lia. change (2 ^ 8) with 256.
    rewrite Z.mul_comm, Z.div_add, Z.div_small by lia. done.
Qed.

Lemma land_byte x m : byte m -> byte (Z.land x m).
Proof.
  unfold byte. intros Hm. replace (Z.land x m) with (Z.land x m mod 2 ^ 8); [by apply Z.mod_pos_bound|].
  by rewrite <-Z.land_ones, <-Z.land_assoc, (Z.land_ones m), (Z.mod_small m) by lia.
Qed.

(** Masked shifts work byte by byte when the mask drops what crosses over. *)
Lemma land_shr_split k a b m n : 0 <= k <= 8 -> byte a -> 0 <= m < 2 ^ (8 - k) -> 
  Z.land (Z.shiftr (a + 256 * b) k) (m + 256 * n) = Z.land (Z.shiftr a k) m + 256 * Z.land (Z.shiftr b k) n.
Proof.
  intros Hk Ha Hm.
  assert (byte m) as Hm8. { unfold byte. pose proof (Z.pow_le_mono_r 2 (8 - k) 8). change (2 ^ 8) with 256 in *. lia. }
  pose proof (land_byte (Z.shiftr a k) m Hm8) as Hl.
  apply Z.bits_inj'. intros i Hi. rewrite Z.land_spec, Z.shiftr_spec, !testbit_split by (done || lia).
  destruct (Z.ltb_spec i 8), (Z.ltb_spec (i + k) 8); try lia; rewrite Z.land_spec.
  - by rewrite Z.shiftr_spec by lia.
  - replace (Z.testbit m i) with false; [by rewrite !andb_false_r|]. symmetry.
    destruct (decide (m = 0)) as [->|]; [apply Z.bits_0|]. apply Z.bits_above_log2; [lia|].
    apply Z.log2_lt_pow2; [lia|]. apply Z.lt_le_trans with (2 ^ (8 - k)); [lia|]. apply Z.pow_le_mono_r; lia.
  - rewrite Z.shiftr_spec by lia. do 2 f_equal. lia.
Qed.

(** The three steps of the count, on one byte. *)
Definition pairs8 (a : Z) : Z := a - Z.land (Z.shiftr a 1) 0x55.
Definition nibbles8 (a : Z) : Z := Z.land (Z.shiftr a 0) 0x33 + Z.land (Z.shiftr a 2) 0x33.
Definition byte8 (a : Z) : Z := Z.land (Z.shiftr (a + Z.shiftr a 4) 0) 0x0F.

Definition word4 (a b c d : Z) : Z := a + 256 * (b + 256 * (c + 256 * (d + 256 * 0))).

Lemma land_word4 k a b c d m : 0 <= k <= 8 -> byte a -> byte b -> byte c -> byte d -> 0 <= m < 2 ^ (8 - k) ->
  Z.land (Z.shiftr (word4 a b c d) k) (word4 m m m m)
  = word4 (Z.land (Z.shiftr a k) m) (Z.land (Z.shiftr b k) m) (Z.land (Z.shiftr c k) m) (Z.land (Z.shiftr d k) m).
Proof. intros. unfold word4. rewrite !(land_shr_split k) by done. by rewrite Z.land_0_r. Qed.

Lemma land_word4_0 a b c d m : byte a -> byte b -> byte c -> byte d -> byte m ->
  Z.land (word4 a b c d) (word4 m m m m)
  = word4 (Z.land (Z.shiftr a 0) m) (Z.land (Z.shiftr b 0) m) (Z.land (Z.shiftr c 0) m) (Z.land (Z.shiftr d 0) m).
Proof. intros. rewrite <-(Z.shiftr_0_r (word4 a b c d)). by apply land_word4. Qed.

Lemma count_byte a : byte a ->
  0 <= pairs8 a < 256 /\ 0 <= nibbles8 (pairs8 a) <= 0x44 /\ nibbles8 (pairs8 a) mod 16 <= 4 /\
  byte8 (nibbles8 (pairs8 a)) = popcount 8 a /\ 0 <= popcount 8 a <= 8.
Proof.
  intros Ha. pose proof (byte_cases (fun a => (0 <=? pairs8 a) && (pairs8 a <? 256) && (0 <=? nibbles8 (pairs8 a))
    && (nibbles8 (pairs8 a) <=? 0x44) && (nibbles8 (pairs8 a) mod 16 <=? 4) && (byte8 (nibbles8 (pairs8 a)) =? popcount 8 a) && (0 <=? popcount 8 a) && (popcount 8 a <=? 8)) a
    ltac:(vm_compute; reflexivity) Ha) as H.
  repeat rewrite andb_true_iff in H. lia.
Qed.

(** Adding the upper nibbles to the lower ones carries nothing that matters. *)
Lemma nibble_sum_split a b : 0 <= a <= 0x44 -> 
  a + 256 * b + Z.shiftr (a + 256 * b) 4 = a + Z.shiftr a 4 + 16 * (b mod 16) + 256 * (b + Z.shiftr b 4).
Proof.
  intros Ha. rewrite !Z.shiftr_div_pow2 by lia. change (2 ^ 4) with 16.
  replace (a + 256 * b) with (a + 16 * b * 16) by lia. rewrite Z.div_add by lia. pose proof (Z.div_mod b 16). lia.
Qed.

Lemma land_nibble a t : Z.land (a + 16 * t) 0x0F = Z.land a 0x0F.
Proof. change 0x0F with (Z.ones 4). rewrite !Z.land_ones by lia. change (2 ^ 4) with 16. by rewrite Z.mul_comm, Z.mod_add by lia. Qed.

Lemma nibble_step a b m : 0 <= a <= 0x44 -> b mod 16 <= 4 ->
  Z.land (a + 256 * b + Z.shiftr (a + 256 * b) 4) (0x0F + 256 * m) = byte8 a + 256 * Z.land (b + Z.shiftr b 4) m.
Proof.
  intros Ha Hb. rewrite nibble_sum_split by done.
  assert (byte (a + Z.shiftr a 4 + 16 * (b mod 16))).
  { unfold byte. rewrite Z.shiftr_div_pow2 by lia. change (2 ^ 4) with 16. pose proof (Z.mod_pos_bound b 16). zdiv. }
  rewrite <-(Z.shiftr_0_r (_ + 256 * (b + _))), land_shr_split by (done || lia). rewrite !Z.shiftr_0_r, land_nibble.
  unfold byte8. by rewrite Z.shiftr_0_r.
Qed.

Lemma popcount_add k n : forall a b, 0 <= a < 2 ^ Z.of_nat k ->
  popcount (k + n) (a + 2 ^ Z.of_nat k * b) = popcount k a + popcount n b.
Proof.
  induction k as [|k IH]; intros a b Ha.
  - change (2 ^ Z.of_nat 0) with 1 in *. replace a with 0 by lia. cbn [popcount Nat.add]. by rewrite Z.mul_1_l.
  - rewrite Nat2Z.inj_succ, Z.pow_succ_r in * by lia. cbn [popcount Nat.add].
    replace (a + 2 * 2 ^ Z.of_nat k * b) with (a + 2 * (2 ^ Z.of_nat k * b)) by lia.
    rewrite Z.odd_add_mul_2, (Z.mul_comm 2), Z.div_add, IH by zdiv. lia.
Qed.

Lemma popcount_word4 a b c d : byte a -> byte b -> byte c -> byte d ->
  popcount 32 (word4 a b c d) = popcount 8 a + popcount 8 b + popcount 8 c + popcount 8 d.
Proof.
  intros Ha Hb Hc Hd. unfold word4. rewrite Z.mul_0_r, Z.add_0_r.
  pose proof (popcount_add 8 24 a (b + 256 * (c + 256 * d)) Ha) as H1. pose proof (popcount_add 8 16 b (c + 256 * d) Hb) as H2.
  pose proof (popcount_add 8 8 c d Hc) as H3. change (2 ^ Z.of_nat 8) with 256 in *. cbn [Nat.add] in *. lia.
Qed.

Lemma sum_bytes p q r t : 0 <= p <= 8 -> 0 <= q <= 8 -> 0 <= r <= 8 -> 0 <= t <= 8 ->
  Z.shiftr (u32 (word4 p q r t * 0x1010101)) 24 = p + q + r + t.
Proof.
  intros. unfold word4, u32, wrap. rewrite Z.shiftr_div_pow2 by lia.
  change (2 ^ 24) with 16777216. change (2 ^ 32) with 4294967296. set (lo := p + 256 * (p + q) + 65536 * (p + q + r)).
  replace ((p + _) * _) with (lo + (p + q + r + t) * 16777216 + (q + r + t + 256 * (r + t) + 65536 * t) * 4294967296) by lia.
  rewrite Z.mod_add, Z.mod_small, Z.div_add, Z.div_small; lia.
Qed.

Lemma count_bits_word4 a b c d : byte a -> byte b -> byte c -> byte d ->
  count_bits (word4 a b c d) = popcount 8 a + popcount 8 b + popcount 8 c + popcount 8 d.
Proof.
  intros Ha Hb Hc Hd. unfold count_bits.
  destruct (count_byte a Ha) as (A1 & A2 & A3 & A4 & A5), (count_byte b Hb) as (B1 & B2 & B3 & B4 & B5),
    (count_byte c Hc) as (C1 & C2 & C3 & C4 & C5), (count_byte d Hd) as (D1 & D2 & D3 & D4 & D5).
  change 0x55555555 with (word4 0x55 0x55 0x55 0x55). change 0x33333333 with (word4 0x33 0x33 0x33 0x33).
  rewrite land_word4 by (done || lia).
  replace (word4 a b c d - _) with (word4 (pairs8 a) (pairs8 b) (pairs8 c) (pairs8 d)) by (unfold word4, pairs8; lia).
  rewrite (wrap_small 32 (word4 _ _ _ _)) by (unfold word4; lia).
  rewrite (land_word4 2), land_word4_0 by (done || lia).
  replace (word4 _ _ _ _ + word4 _ _ _ _)
    with (word4 (nibbles8 (pairs8 a)) (nibbles8 (pairs8 b)) (nibbles8 (pairs8 c)) (nibbles8 (pairs8 d))) by (unfold word4, nibbles8; lia).
  generalize dependent (nibbles8 (pairs8 a)). generalize dependent (nibbles8 (pairs8 b)).
  generalize dependent (nibbles8 (pairs8 c)). generalize dependent (nibbles8 (pairs8 d)). intros w D2 D3 D4 z C2 C3 C4 y B2 B3 B4 x A2 A3 A4.
  rewrite (wrap_small 32 (word4 _ _ _ _)) by (unfold word4; lia).
  assert (forall v, 0 <= v <= 0x44444444 -> 0 <= v + Z.shiftr v 4 < 2 ^ 32) as Hsum.
  { intros v Hv. rewrite Z.shiftr_div_pow2 by lia. change (2 ^ 4) with 16. change (2 ^ 32) with 4294967296. zdiv. }
  rewrite (wrap_small 32 (word4 _ _ _ _ + _)) by (apply Hsum; unfold word4; lia).
  change 0xF0F0F0F with (word4 0x0F 0x0F 0x0F 0x0F). unfold word4.
  assert (forall u v, u mod 16 <= 4 -> (u + 256 * v) mod 16 <= 4) as Hmod.
  { intros u v Hu. replace (u + 256 * v) with (u + 16 * v * 16) by lia. by rewrite Z.mod_add by lia. }
  rewrite !nibble_step by (done || lia || by apply Hmod). rewrite Z.land_0_r, A4, B4, C4, D4. by apply sum_bytes.
Qed.

(** ** The most specific rule *)

(** [decides m len rs r]: among the rules [rs] that match and have a positive
    length, [r] is the first of the longest ones; there is none when [r] is. *)
Definition decides {R} (m : R -> Prop) (len : R -> Z) (rs : list R) (r : option R) : Prop :=
  match r with
  | None => Forall (fun x => m x -> len x <= 0) rs
  | Some x => exists l1 l2, rs = l1 ++ x :: l2 /\ m x /\ 0 < len x
                /\ Forall (fun y => m y -> len y < len x) l1 /\ Forall (fun y => m y -> len y <= len x) l2
  end.

Definition candidate (skip : family) (test : node -> bool) (n : node) : Prop := n_family n <> skip /\ test n = true.

Lemma validate_step_cases skip test ok bits token n :
  (candidate skip test n /\ bits < n_bits n /\ validate_step skip test (ok, bits, token) n = (n_ok n, n_bits n, n_token n))
  \/ ((candidate skip test n -> n_bits n <= bits) /\ validate_step skip test (ok, bits, token) n = (ok, bits, token)).
Proof.
  unfold validate_step, candidate. case_bool_decide as Hf; [right; split; [tauto|done]|].
  destruct (Z.ltb_spec bits (n_bits n)), (test n); simpl; [left|right..]; naive_solver lia.
Qed.

(** The loop from any point: either it changes nothing or it ends on the first
    of the longest candidates. *)
Lemma validate_loop skip test ns : forall ok bits token,
  (Forall (fun n => candidate skip test n -> n_bits n <= bits) ns
   /\ fold_left (validate_step skip test) ns (ok, bits, token) = (ok, bits, token))
  \/ exists l1 n l2, ns = l1 ++ n :: l2 /\ candidate skip test n /\ bits < n_bits n
     /\ Forall (fun m => candidate skip test m -> n_bits m < n_bits n) l1
     /\ Forall (fun m => candidate skip test m -> n_bits m <= n_bits n) l2
     /\ fold_left (validate_step skip test) ns (ok, bits, token) = (n_ok n, n_bits n, n_token n).
Proof.
  induction ns as [|n ns IH]; intros ok bits token; [left; by constructor|]. cbn [fold_left].
  destruct (validate_step_cases skip test ok bits token n) as [(Hc & Hb & ->) | [Hc ->]].
  - right. destruct (IH (n_ok n) (n_bits n) (n_token n)) as [[Hf ->] | (l1 & m & l2 & -> & Hm & Hlt & H1 & H2 & ->)].
    + exists [], n, ns. split_and!; done || constructor.
    + exists (n :: l1), m, l2. split_and!; try done; try lia. by constructor.
  - destruct (IH ok bits token) as [[Hf ->] | (l1 & m & l2 & -> & Hm & Hlt & H1 & H2 & ->)].
    + left. split; [by constructor|done].
    + right. exists (n :: l1), m, l2. split_and!; try done. constructor; [|done]. intros ?. specialize (Hc ltac:(done)). lia.
Qed.

Lemma validate_decides skip test l token :
  exists r, decides (candidate skip test) n_bits (nodes l) r
    /\ validate skip test l token = match r with Some n => (n_ok n, n_token n) | None => (default_type l, token) end.
Proof.
  unfold validate. destruct (validate_loop skip test (nodes l) (default_type l) 0 token) as [[Hf ->] | (l1 & n & l2 & Hn & Hc & Hb & H1 & H2 & ->)].
  - by exists None.
  - exists (Some n). split; [|done]. by exists l1, l2.
Qed.

Lemma Forall_weaken {A} (P Q : A -> Prop) l : Forall P l -> (forall x, x ∈ l -> P x -> Q x) -> Forall Q l.
Proof. rewrite !Forall_forall. naive_solver. Qed.

(** A decision carries over along a map of the rules. *)
Lemma decides_fmap {R S} (f : S -> R) m len (m' : S -> Prop) len' rs r :
  (forall s, s ∈ rs -> 0 < len' s -> (m (f s) <-> m' s)) -> (forall s, s ∈ rs -> len (f s) = len' s) ->
  decides m len (f <$> rs) r ->
  exists r', r = f <$> r' /\ decides m' len' rs r'.
Proof.
  intros Hm Hlen Hd. destruct r as [x|]; simpl in Hd.
  - destruct Hd as (l1 & l2 & He & Hx & Hpos & H1 & H2). apply fmap_app_inv in He as (k1 & k2' & -> & He & ->).
    symmetry in He. apply fmap_cons_inv in He as (s & k2 & -> & -> & ->). exists (Some s). split; [done|].
    assert (s ∈ k1 ++ s :: k2) as Hs by set_solver. rewrite Hlen in * by done. exists k1, k2.
    rewrite <-Hm by done. rewrite Forall_fmap in *.
    split_and!; try done; eapply Forall_weaken; try eassumption; intros y Hy; simpl; rewrite Hlen by set_solver; intros HP Hmy;
      (destruct (decide (0 < len' y)); [|lia]); apply HP, Hm; done || set_solver.
  - exists None. split; [done|]. simpl. rewrite Forall_fmap in Hd. eapply Forall_weaken; [exact Hd|].
    intros y Hy. simpl. rewrite Hlen by done. intros HP Hmy. destruct (decide (0 < len' y)); [|lia]. apply HP. by apply Hm.
Qed.

(** ** What the code relies on *)

Definition quad (a b c d : Z) : bytes :=
  Event.dec a ++ 46 :: Event.dec b ++ 46 :: Event.dec c ++ 46 :: Event.dec d.

(** inet_pton reads dotted quads, in network byte order, and its addresses have
    the size of their family; a shift by 32 gives 0 or, where the hardware
    takes the count modulo 32, its operand. *)
Class PlatformLaws (PF : Platform) : Prop := {
  pton_quad : forall a b c d, byte a -> byte b -> byte c -> byte d -> inet_pton AF_INET (quad a b c d) = Some [a; b; c; d];
  pton_v6 : forall t a, inet_pton AF_INET6 t = Some a -> length a = 16%nat /\ Forall byte a;
  shr32_value : shr32 = 0 \/ shr32 = 0xFFFFFFFF;
  stack_size : length stack_ip = 16%nat /\ length stack_mask = 16%nat }.

(** ** Blocks in text *)

(** An IPv4 rule: the block [a.b.c.d/len], its verdict and its token. *)
Record rule := mk_rule { r_a : Z; r_b : Z; r_c : Z; r_d : Z; r_len : Z; r_ok : bool; r_token : option bytes }.

Definition r_net (r : rule) : Z := addr (r_a r) (r_b r) (r_c r) (r_d r).
Definition r_text (r : rule) : bytes := quad (r_a r) (r_b r) (r_c r) (r_d r) ++ 47 :: Event.dec (r_len r).
Definition contains (ip : Z) (r : rule) : Prop := ip / 2 ^ (32 - r_len r) = r_net r / 2 ^ (32 - r_len r).
Definition token_of (r : rule) : option bytes := if zstr (r_token r) then None else r_token r.

(** A rule for the single address 0.0.0.0 is right only where the shift by 32
    gives 0. *)
Definition rule_ok {PF : Platform} (r : rule) : Prop :=
  byte (r_a r) /\ byte (r_b r) /\ byte (r_c r) /\ byte (r_d r) /\ 0 <= r_len r <= 32
  /\ (r_len r = 32 -> r_net r <> 0 \/ shr32 = 0).

Lemma quad_chars a b c d x : x ∈ quad a b c d -> x = 45 \/ x = 46 \/ 48 <= x <= 57.
Proof.
  assert (forall z, x ∈ Event.dec z -> x = 45 \/ x = 46 \/ 48 <= x <= 57) as Hd.
  { intros z Hx. pose proof (Event.dec_digits z) as H. rewrite Forall_forall in H. specialize (H x Hx). simpl in H. lia. }
  unfold quad. rewrite !elem_of_app, !elem_of_cons, !elem_of_app, !elem_of_cons, !elem_of_app, !elem_of_cons. naive_solver.
Qed.

Lemma text_chars r x : x ∈ r_text r -> x = 45 \/ x = 46 \/ x = 47 \/ 48 <= x <= 57.
Proof.
  unfold r_text. rewrite elem_of_app, elem_of_cons. intros [H%quad_chars | [-> | H]]; [lia..|].
  pose proof (Event.dec_digits (r_len r)) as Hd. rewrite Forall_forall in Hd. specialize (Hd x H). simpl in Hd. lia.
Qed.

Lemma quad_no x a b c d : x <> 45 -> x <> 46 -> ~ 48 <= x <= 57 -> (x ∉ quad a b c d).
Proof. intros ??? [?|[?|?]]%quad_chars; lia. Qed.

Lemma text_no x r : x <> 45 -> x <> 46 -> x <> 47 -> ~ 48 <= x <= 57 -> (x ∉ r_text r).
Proof. intros ???? [?|[?|[?|?]]]%text_chars; lia. Qed.

Lemma dec_byte n : byte n -> zlen (Event.dec n) <= 3 /\ atoi (Event.dec n) = n.
Proof.
  intros Hn. pose proof (byte_cases (fun n => (zlen (Event.dec n) <=? 3) && (atoi (Event.dec n) =? n)) n
    ltac:(vm_compute; reflexivity) Hn) as H. apply andb_true_iff in H. lia.
Qed.

Lemma text_short r : byte (r_a r) -> byte (r_b r) -> byte (r_c r) -> byte (r_d r) -> byte (r_len r) -> zlen (r_text r) <= 126.
Proof.
  intros Ha Hb Hc Hd Hl. unfold r_text, quad. autorewrite with zlist.
  destruct (dec_byte _ Ha), (dec_byte _ Hb), (dec_byte _ Hc), (dec_byte _ Hd), (dec_byte _ Hl). lia.
Qed.

Section laws.
Context {PF : Platform} {PL : PlatformLaws PF}.

(** A well-formed block parses to its network, its mask and its length. *)
Lemma parse_text r ip mask bitp : rule_ok r ->
  switch_parse_cidr (r_text r) ip mask bitp
  = (0, (set_v4 (r_net r) (blit 0 [r_a r; r_b r; r_c r; r_d r] ip), set_v4 (v4_mask (r_len r)) mask, r_len r)).
Proof.
  intros (Ha & Hb & Hc & Hd & Hl & _). unfold switch_parse_cidr.
  assert (byte (r_len r)) as Hl8 by (unfold byte; lia).
  rewrite ztake_all by (by apply text_short). unfold r_text at 1.
  rewrite strchr_first by (apply quad_no; lia). unfold r_text at 1. rewrite cut_at_first.
  rewrite strchr_absent by (apply text_no; lia). rewrite bool_decide_eq_false_2 by (by intros [? ?]).
  destruct (dec_byte _ Hl8) as [_ ->]. destruct (Z.ltb_spec (r_len r) 0), (Z.ltb_spec 32 (r_len r)); try lia. cbn [orb].
  unfold switch_inet_pton. rewrite pton_quad by done. cbn [store]. by rewrite v4_blit, htonl_le.
Qed.

Lemma v4_mask_range n : 0 <= v4_mask n < 2 ^ 32.
Proof.
  unfold v4_mask. change 0xFFFFFFFF with (Z.ones 32). rewrite Z.land_comm, Z.land_ones by lia. by apply Z.mod_pos_bound.
Qed.

Lemma v4_mask_positive n : 0 < n < 32 -> v4_mask n <> 0.
Proof.
  intros Hn. assert (forallb (fun n => negb (v4_mask (Z.of_nat n) =? 0)) (seq 1 31) = true) as H by (vm_compute; reflexivity).
  rewrite forallb_forall in H. specialize (H (Z.to_nat n)). rewrite Z2Nat.id in H by lia.
  intros E. rewrite E in H. assert (In (Z.to_nat n) (seq 1 31)) as Hin by (apply in_seq; lia). by specialize (H Hin).
Qed.

(** Testing a block compares leading bits. *)
Lemma test_subnet_block ip net n :
  0 <= ip < 2 ^ 32 -> 0 <= net < 2 ^ 32 -> 0 < n <= 32 -> (n = 32 -> net <> 0 \/ shr32 = 0) ->
  switch_test_subnet ip net (v4_mask n) = bool_decide (ip / 2 ^ (32 - n) = net / 2 ^ (32 - n)).
Proof.
  intros Hip Hnet Hn H32. unfold switch_test_subnet. destruct (decide (n = 32)) as [->|Hne].
  - change (2 ^ (32 - 32)) with 1. rewrite !Z.div_1_r. unfold v4_mask. change (32 =? 32) with true. cbn iota.
    destruct shr32_value as [Hs|Hs]; rewrite Hs.
    + change (Z.land 4294967295 (Z.lnot 0)) with (Z.ones 32). change (Z.ones 32 =? 0) with false. cbn [negb].
      rewrite !Z.land_ones, !Z.mod_small by lia. destruct (Z.eqb_spec net ip); symmetry; [apply bool_decide_eq_true_2|apply bool_decide_eq_false_2]; lia.
    + change (Z.land 4294967295 (Z.lnot 4294967295)) with 0. change (0 =? 0) with true. cbn [negb].
      destruct H32 as [H32|H32]; [done| |lia]. destruct (Z.eqb_spec net 0); [lia|]. cbn [negb].
      destruct (Z.eqb_spec net ip); symmetry; [apply bool_decide_eq_true_2|apply bool_decide_eq_false_2]; lia.
  - destruct (Z.eqb_spec (v4_mask n) 0) as [E|_]; [by destruct (v4_mask_positive n ltac:(lia))|]. cbn [negb].
    unfold v4_mask. destruct (Z.eqb_spec n 32); [lia|]. change 0xFFFFFFFF with (Z.ones 32).
    pose proof (land_mask_eq 32 n net ip ltac:(lia) Hnet Hip) as Hm.
    destruct (Z.eqb_spec (Z.land net (Z.land (Z.ones 32) (Z.lnot (Z.shiftr (Z.ones 32) n))))
                (Z.land ip (Z.land (Z.ones 32) (Z.lnot (Z.shiftr (Z.ones 32) n))))); symmetry;
      [apply bool_decide_eq_true_2|apply bool_decide_eq_false_2]; naive_solver.
Qed.

(** ** Verdicts *)

Definition node_of (r : rule) : node :=
  mk_node (set_v4 (r_net r) (blit 0 [r_a r; r_b r; r_c r; r_d r] stack_ip)) (set_v4 (v4_mask (r_len r)) stack_mask)
    (r_len r) AF_INET (r_ok r) (token_of r) (r_text r).

(** Adding the rules, first to last. *)
Definition add_rules (rs : list rule) (l : network_list) : option network_list :=
  each (fun l r => fst <$> switch_network_list_add_cidr_token l (r_text r) (r_ok r) (r_token r)) rs l.

Lemma add_rule l r : rule_ok r ->
  switch_network_list_add_cidr_token l (r_text r) (r_ok r) (r_token r) = Some (push (node_of r) l, SWITCH_STATUS_SUCCESS).
Proof.
  intros Hr. unfold switch_network_list_add_cidr_token, switch_network_list_perform_add_cidr_token.
  rewrite !strchr_absent by (apply text_no; lia). rewrite !bool_decide_eq_false_2 by (by intros [? ?]). by rewrite parse_text.
Qed.

Lemma add_rules_nodes rs : forall l, Forall rule_ok rs ->
  add_rules rs l = Some (mk_list (reverse (node_of <$> rs) ++ nodes l) (default_type l) (l_name l)).
Proof.
  unfold add_rules. induction rs as [|r rs IH]; intros l Hr; [by destruct l|]. apply Forall_cons in Hr as [Hr Hrs].
  cbn [each]. rewrite add_rule by done. cbn [fmap option_fmap option_map mbind option_bind fst].
  rewrite IH by done. unfold push. cbn [nodes default_type l_name]. rewrite fmap_cons, reverse_cons, <-app_assoc. done.
Qed.

Lemma net_range r : rule_ok r -> 0 <= r_net r < 2 ^ 32.
Proof. intros (? & ? & ? & ? & _). by apply addr_range. Qed.

Lemma node_of_test ip r : rule_ok r -> 0 <= ip < 2 ^ 32 -> 0 < r_len r ->
  candidate AF_INET6 (fun n => switch_test_subnet ip (v4 (n_ip n)) (v4 (n_mask n))) (node_of r) <-> contains ip r.
Proof.
  intros Hr Hip Hl. unfold candidate, contains, node_of. cbn [n_family n_ip n_mask].
  pose proof Hr as (_ & _ & _ & _ & Hlen & H32). pose proof (net_range r Hr).
  rewrite !v4_set_v4 by (done || apply v4_mask_range). rewrite test_subnet_block by (done || lia).
  rewrite bool_decide_eq_true. naive_solver.
Qed.

(** Validating an address against a list of rules, the last rule added first. *)
Lemma rules_verdict rs dflt name ip token : Forall rule_ok rs -> 0 <= ip < 2 ^ 32 ->
  exists r, decides (contains ip) r_len (reverse rs) r
    /\ switch_network_list_validate_ip_token (mk_list (reverse (node_of <$> rs)) dflt name) ip token
       = match r with Some r => (r_ok r, token_of r) | None => (dflt, token) end.
Proof.
  intros Hrs Hip. unfold switch_network_list_validate_ip_token.
  destruct (validate_decides AF_INET6 (fun n => switch_test_subnet ip (v4 (n_ip n)) (v4 (n_mask n)))
    (mk_list (reverse (node_of <$> rs)) dflt name) token) as (n & Hd & Hv).
  cbn [nodes default_type] in *. rewrite <-fmap_reverse in Hd. rewrite Forall_forall in Hrs.
  apply (decides_fmap node_of _ n_bits (contains ip) r_len) in Hd as (r & -> & Hd).
  - exists r. split; [done|]. rewrite Hv. by destruct r.
  - intros r Hr Hpos. apply node_of_test; try done. apply Hrs. by apply elem_of_reverse.
  - done.
Qed.

Context {H : Type} {SM : StringMap H network_list}.

Lemma check_found (h : H) a b c d name l token : byte a -> byte b -> byte c -> byte d -> sm_find h name = Some l ->
  switch_check_network_list_ip_token h (quad a b c d) name token
  = Some (switch_network_list_validate_ip_token l (addr a b c d) token).
Proof.
  intros Ha Hb Hc Hd Hf. unfold switch_check_network_list_ip_token. rewrite Hf.
  rewrite strchr_absent by (apply quad_no; lia). rewrite bool_decide_eq_false_2 by (by intros [? ?]).
  unfold switch_inet_pton. rewrite pton_quad by done. cbn [store].
  rewrite v4_blit, htonl_le, v4_set_v4 by (done || by apply addr_range). done.
Qed.
End laws.

(** C10: a list of networks gives the verdict of its most specific rule.  Take any
    rules [a.b.c.d/len] with their verdicts and tokens, add their text to a new
    list, first to last, and enter the list into the table: checking any dotted
    quad against it answers with the verdict and the token of the longest block
    that contains the address, of the last one added among equally long blocks,
    and with the default of the list when no block of a positive length does.
    The exception is the single address 0.0.0.0 on hardware that shifts modulo
    32. *)
Theorem acl_most_specific {PF : Platform} {PL : PlatformLaws PF} {H : Type} {SM : StringMap H network_list}
    (h : H) name dflt rules a b c d token :
  sm_ok h -> Forall rule_ok rules -> byte a -> byte b -> byte c -> byte d ->
  exists l verdict, add_rules rules (create_list name dflt) = Some l
    /\ decides (contains (addr a b c d)) r_len (reverse rules) verdict
    /\ switch_check_network_list_ip_token (sm_insert h name l) (quad a b c d) name token
       = Some (match verdict with Some r => (r_ok r, token_of r) | None => (dflt, token) end).
Proof.
  intros Hh Hr Ha Hb Hc Hd.
  destruct (rules_verdict rules dflt name (addr a b c d) token Hr (addr_range a b c d Ha Hb Hc Hd)) as (r & Hdec & Hv).
  eexists _, r. split; [by rewrite add_rules_nodes|]. split; [done|]. unfold create_list. cbn [nodes default_type l_name fst switch_network_list_create].
  rewrite app_nil_r. erewrite check_found; [by rewrite Hv|done..|].
  rewrite sm_find_insert by done. by rewrite bool_decide_eq_true_2.
Qed.

(** C35: testing an address against a block compares their leading bits.  For an
    IPv4 block of 1 to 32 bits and for an IPv6 block of 1 to 128, the mask the
    parser builds and the subnet test together hold exactly when the address
    and the network agree on the leading bits, read as one big number.  The
    exception, which is left out, is the block 0.0.0.0/32 on hardware that shifts
    a word by 32 as by 0: its mask is 0, and the test then takes any address for
    a member. *)
Theorem block_is_prefix {PF : Platform} {PL : PlatformLaws PF} ip net n (ip6 net6 : ip_t) n6 :
  0 <= ip < 2 ^ 32 -> 0 <= net < 2 ^ 32 -> 0 < n <= 32 -> (n = 32 -> net <> 0 \/ shr32 = 0) ->
  length ip6 = 16%nat -> length net6 = 16%nat -> Forall byte ip6 -> Forall byte net6 -> 0 < n6 <= 128 ->
  switch_test_subnet ip net (v4_mask n) = bool_decide (ip / 2 ^ (32 - n) = net / 2 ^ (32 - n))
  /\ switch_testv6_subnet ip6 net6 (v6_mask 16 n6) = bool_decide (be ip6 / 2 ^ (128 - n6) = be net6 / 2 ^ (128 - n6)).
Proof.
  intros Hip Hnet Hn H32 Li Ln Hi6 Hn6 Hl6. split; [by apply test_subnet_block|].
  unfold switch_testv6_subnet.
  rewrite (v6_mask_positive 15) by lia.
  cbn [negb]. apply bool_decide_ext. pose proof (v6_mask_eq net6 ip6 n6 ltac:(lia) Hn6 Hi6) as He.
  unfold zlen in He. rewrite Ln, Li in He. change (8 * Z.of_nat 16) with 128 in He. rewrite He by lia. split; intros E; symmetry; exact E.
Qed.

(** The parallel count of bits counts them.  For every 32-bit word the
    expression that computes the length of a mask given in dotted form is the
    number of its bits that are set. *)
Theorem count_bits_popcount v : 0 <= v < 2 ^ 32 -> count_bits v = popcount 32 v.
Proof.
  intros Hv. rewrite <-(le_word_bytes v Hv). unfold word_bytes.
  assert (forall z, byte (Z.land z 0xFF)) as Hb by (intros z; by apply land_byte).
  change (le _) with (word4 (Z.land v 255) (Z.land (Z.shiftr v 8) 255) (Z.land (Z.shiftr v 16) 255) (Z.land (Z.shiftr v 24) 255)).
  rewrite count_bits_word4, popcount_word4 by apply Hb. done.
Qed.

(** ** The lists the core brings *)

Definition rfc_rules (ok : bool) : list rule :=
  [mk_rule 10 0 0 0 8 ok None; mk_rule 172 16 0 0 12 ok None; mk_rule 192 168 0 0 16 ok None].

Definition private (ip : Z) : bool := (ip / 2 ^ 24 =? 10) || (ip / 2 ^ 20 =? 172 * 16 + 1) || (ip / 2 ^ 16 =? 192 * 256 + 168).

(** No list of the configuration takes the name. *)
Definition not_configured (cfg : option xml) (name : bytes) : Prop :=
  forall c x, cfg = Some c -> switch_xml_child c (str "network-lists") = Some x ->
  Forall (fun l => switch_xml_attr l (str "name") <> Some name) (switch_xml_children x (str "list")).

Lemma each_inv {A B} (P : A -> Prop) (f : A -> B -> option A) bs : forall a a',
  (forall x b y, b ∈ bs -> P x -> f x b = Some y -> P y) -> P a -> each f bs a = Some a' -> P a'.
Proof.
  induction bs as [|b bs IH]; intros a a' Hf Ha He; cbn [each] in He; [by simplify_eq|].
  apply bind_Some in He as (x & Hx & He). eapply IH; [|eapply Hf|exact He]; try done; [|set_solver].
  intros y c z Hc. apply Hf. set_solver.
Qed.

Definition containsb (ip : Z) (r : rule) : bool := ip / 2 ^ (32 - r_len r) =? r_net r / 2 ^ (32 - r_len r).

(** Rules of one verdict. *)
Lemma decides_uniform ip rs r ok dflt :
  Forall (fun r => r_ok r = ok /\ 0 < r_len r) rs -> decides (contains ip) r_len (reverse rs) r ->
  match r with Some r => r_ok r | None => dflt end = if existsb (containsb ip) rs then ok else dflt.
Proof.
  intros Hrs Hd. rewrite Forall_forall in Hrs. destruct (existsb (containsb ip) rs) eqn:He.
  - apply existsb_exists in He as (x & Hx%list_elem_of_In & Hc%Z.eqb_eq). pose proof (Hrs x Hx) as [_ Hpos].
    destruct r as [r|]; simpl in Hd.
    + destruct Hd as (l1 & l2 & He & _). apply Hrs. apply elem_of_reverse. rewrite He. set_solver.
    + rewrite Forall_forall in Hd. specialize (Hd x ltac:(by apply elem_of_reverse) Hc). lia.
  - destruct r as [r|]; [|done]. simpl in Hd. destruct Hd as (l1 & l2 & Hr & Hc & _).
    assert (r ∈ rs) as Hin by (apply elem_of_reverse; rewrite Hr; set_solver).
    rewrite <-not_true_iff_false, existsb_exists in He. destruct He. exists r. split; [by apply list_elem_of_In|by apply Z.eqb_eq].
Qed.

Lemma rfc_contains ip ok : existsb (containsb ip) (rfc_rules ok) = private ip.
Proof. unfold rfc_rules, private. cbn [existsb]. rewrite orb_false_r, orb_assoc. reflexivity. Qed.

Lemma wan_contains ip :
  existsb (containsb ip) (mk_rule 0 0 0 0 8 false None :: rfc_rules false) = (ip / 2 ^ 24 =? 0) || private ip.
Proof. cbn [existsb]. rewrite rfc_contains. reflexivity. Qed.

Section lists.
Context {PF : Platform} {PL : PlatformLaws PF} {H : Type} {SM : StringMap H network_list}.

(** A list of rules of one verdict in the table. *)
Lemma uniform_verdict (h : H) name dflt ok rs a b c d token :
  sm_find h name = Some (mk_list (reverse (node_of <$> rs)) dflt name) ->
  Forall rule_ok rs -> Forall (fun r => r_ok r = ok /\ 0 < r_len r) rs -> byte a -> byte b -> byte c -> byte d ->
  fst <$> switch_check_network_list_ip_token h (quad a b c d) name token
  = Some (if existsb (containsb (addr a b c d)) rs then ok else dflt).
Proof.
  intros Hf Hr Hu Ha Hb Hc Hd. erewrite check_found by done.
  destruct (rules_verdict rs dflt name (addr a b c d) token Hr (addr_range a b c d Ha Hb Hc Hd)) as (r & Hdec & ->).
  rewrite <-(decides_uniform _ _ _ ok dflt Hu Hdec). by destruct r.
Qed.

(** Loading the configuration leaves other lists alone. *)
Lemma load_list_keeps locate (h h' : H) x_list name : (forall k, sm_canon k = k) ->
  switch_xml_attr x_list (str "name") <> Some name -> sm_ok h -> load_list locate h x_list = Some h' ->
  sm_ok h' /\ sm_find h' name = sm_find h name.
Proof.
  intros Hcanon Hname Hok Hl. unfold load_list in Hl. destruct (switch_xml_attr x_list (str "name")) as [n|]; [|by simplify_eq].
  destruct n as [|c n]; [by simplify_eq|]. set (n' := c :: n) in *.
  apply fmap_Some in Hl as ([h2 l2] & He & ->). cbn [fst].
  revert He. apply (each_inv (fun st : H * network_list => sm_ok st.1 /\ sm_find st.1 name = sm_find h name)); [|done].
  intros [h1 l1] x [h3 l3] _ [Hok1 Hf1] Hs. cbn [fst] in *.
  assert (forall l, sm_ok (sm_insert h1 n' l) /\ sm_find (sm_insert h1 n' l) name = sm_find h name) as Hins.
  { intros l. split; [by apply sm_insert_ok|]. rewrite sm_find_insert, !Hcanon by done.
    rewrite bool_decide_eq_false_2 by congruence. done. }
  unfold load_node in Hs. repeat case_match; simplify_eq; try apply Hins; try done;
    apply bind_Some in Hs as (? & _ & [= <- <-]); apply Hins.
Qed.

Lemma add_cidrs_rules cidrs ok rs l :
  cidrs = r_text <$> rs -> Forall (fun r => r_ok r = ok /\ r_token r = None) rs -> add_cidrs cidrs ok l = add_rules rs l.
Proof.
  intros -> Hrs. unfold add_cidrs, add_rules, switch_network_list_add_cidr. revert l.
  induction Hrs as [|r rs [Hok Htok] Hrs IH]; intros l; [done|]. cbn [fmap list_fmap each]. rewrite <-Hok, <-Htok at 1.
  destruct (switch_network_list_add_cidr_token l (r_text r) (r_ok r) (r_token r)) as [[l' st]|]; [apply IH|done].
Qed.

Lemma rfc_rules_ok ok : Forall rule_ok (rfc_rules ok) /\ Forall (fun r => r_ok r = ok /\ 0 < r_len r) (rfc_rules ok).
Proof.
  unfold rfc_rules. split; repeat apply Forall_cons_2; try apply Forall_nil_2; try done;
    unfold rule_ok, byte; cbn [r_a r_b r_c r_d r_len]; lia.
Qed.

Lemma zero_rule_ok : rule_ok (mk_rule 0 0 0 0 8 false None).
Proof. unfold rule_ok, byte. cbn [r_a r_b r_c r_d r_len]. lia. Qed.

Lemma find_other (h : H) k l k' : (forall k, sm_canon k = k) -> sm_ok h -> k <> k' -> sm_find (sm_insert h k l) k' = sm_find h k'.
Proof. intros Hc Hok Hne. rewrite sm_find_insert, !Hc by done. by rewrite bool_decide_eq_false_2. Qed.

Lemma find_same (h : H) k l : sm_ok h -> sm_find (sm_insert h k l) k = Some l.
Proof. intros Hok. rewrite sm_find_insert by done. by rewrite bool_decide_eq_true_2. Qed.

Definition rfc_list : network_list := mk_list (reverse (node_of <$> rfc_rules true)) false (str "rfc1918.auto").
Definition wan_list : network_list :=
  mk_list (reverse (node_of <$> (mk_rule 0 0 0 0 8 false None :: rfc_rules false))) true (str "wan.auto").

Lemma add_rfc ok l :
  add_cidrs [str "10.0.0.0/8"; str "172.16.0.0/12"; str "192.168.0.0/16"] ok l
  = Some (mk_list (reverse (node_of <$> rfc_rules ok) ++ nodes l) (default_type l) (l_name l)).
Proof.
  rewrite (add_cidrs_rules _ ok (rfc_rules ok)).
  - apply add_rules_nodes, rfc_rules_ok.
  - vm_compute. reflexivity.
  - repeat constructor.
Qed.

Lemma add_wan :
  add_cidrs (str "0.0.0.0/8" :: [str "10.0.0.0/8"; str "172.16.0.0/12"; str "192.168.0.0/16"]) false (create_list (str "wan.auto") true)
  = Some wan_list.
Proof.
  rewrite (add_cidrs_rules _ false (mk_rule 0 0 0 0 8 false None :: rfc_rules false)).
  - rewrite add_rules_nodes by (apply Forall_cons; split; [apply zero_rule_ok|apply rfc_rules_ok]). cbn [nodes create_list switch_network_list_create fst].
    by rewrite app_nil_r.
  - vm_compute. reflexivity.
  - repeat constructor.
Qed.

Lemma auto_lists_found gi gm (h : H) : (forall k, sm_canon k = k) -> load_auto_lists gi gm = Some h ->
  sm_ok h /\ sm_find h (str "rfc1918.auto") = Some rfc_list /\ sm_find h (str "wan.auto") = Some wan_list.
Proof.
  intros Hcanon. unfold load_auto_lists.
  rewrite (add_rfc true (create_list (str "rfc1918.auto") false)), add_wan.
  cbn [mbind option_bind create_list switch_network_list_create fst nodes default_type l_name]. rewrite !app_nil_r.
  fold rfc_list. intros Hl. apply bind_Some in Hl as (l3 & _ & Hl). apply bind_Some in Hl as (l4 & _ & [= <-]).
  split_and!.
  - repeat apply sm_insert_ok. apply sm_empty_ok.
  - rewrite !find_other by (done || (repeat apply sm_insert_ok; apply sm_empty_ok)). apply find_same, sm_empty_ok.
  - rewrite !find_other by (done || (repeat apply sm_insert_ok; apply sm_empty_ok)). apply find_same, sm_insert_ok, sm_empty_ok.
Qed.

(** The lists survive a configuration that does not name them. *)
Lemma load_keeps gi gm cfg locate (h : H) : (forall k, sm_canon k = k) -> switch_load_network_lists gi gm cfg locate = Some h ->
  exists h0, load_auto_lists gi gm = Some h0 /\ forall name, not_configured cfg name -> sm_ok h0 -> sm_find h name = sm_find h0 name.
Proof.
  intros Hcanon Hl. unfold switch_load_network_lists in Hl. apply bind_Some in Hl as (h0 & Hauto & Hl). exists h0. split; [done|].
  intros name Hname Hok. destruct cfg as [c|]; simpl in Hl; [|by simplify_eq].
  destruct (switch_xml_child c (str "network-lists")) as [x|] eqn:Hx; [|by simplify_eq].
  specialize (Hname c x eq_refl Hx). rewrite Forall_forall in Hname.
  apply (each_inv (fun h => sm_ok h /\ sm_find h name = sm_find h0 name)) in Hl; [apply Hl| |done].
  intros h1 xl h2 Hin [Hok1 Hf1] Hs. destruct (load_list_keeps locate h1 h2 xl name Hcanon (Hname xl Hin) Hok1 Hs) as [? ->]. done.
Qed.
End lists.

(** The built-in lists know the private networks.  However the core guesses
    its own address and whatever the configuration holds, as long as it does not
    replace them, after loading the list "rfc1918.auto" admits exactly the
    addresses of the three private blocks and "wan.auto" exactly the addresses
    outside them and outside 0.0.0.0/8; no address passes both. *)
Theorem auto_lists_private {PF : Platform} {PL : PlatformLaws PF} {H : Type} {SM : StringMap H network_list}
    gi gm cfg locate (h : H) a b c d token :
  (forall k, sm_canon k = k) -> switch_load_network_lists gi gm cfg locate = Some h ->
  not_configured cfg (str "rfc1918.auto") -> not_configured cfg (str "wan.auto") ->
  byte a -> byte b -> byte c -> byte d ->
  fst <$> switch_check_network_list_ip_token h (quad a b c d) (str "rfc1918.auto") token = Some (private (addr a b c d))
  /\ fst <$> switch_check_network_list_ip_token h (quad a b c d) (str "wan.auto") token
     = Some (negb ((addr a b c d / 2 ^ 24 =? 0) || private (addr a b c d))).
Proof.
  intros Hcanon Hl H1 H2 Ha Hb Hc Hd. destruct (load_keeps gi gm cfg locate h Hcanon Hl) as (h0 & Hauto & Hk).
  destruct (auto_lists_found gi gm h0 Hcanon Hauto) as (Hok & Hr & Hw).
  rewrite <-(Hk _ H1 Hok) in Hr. rewrite <-(Hk _ H2 Hok) in Hw.
  rewrite (uniform_verdict h _ false true (rfc_rules true) a b c d token Hr) by (done || apply rfc_rules_ok).
  rewrite (uniform_verdict h _ true false (mk_rule 0 0 0 0 8 false None :: rfc_rules false) a b c d token Hw); try done.
  - rewrite rfc_contains, wan_contains. split; [by destruct (private _)|by destruct (_ || _)].
  - apply Forall_cons. split; [apply zero_rule_ok|apply rfc_rules_ok].
  - apply Forall_cons. split; [done|apply rfc_rules_ok].
Qed.

(** ** Flaws *)

(** A block given in place of a list name is tested with the IPv4 test even
    when it is an IPv6 block: from /32 on, an address passes when its first four
    bytes agree. *)
Theorem single_v6_block_flaw {PF : Platform} {PL : PlatformLaws PF} {H : Type} {SM : StringMap H network_list}
    (h : H) ip_str host n token ip net :
  (58 ∈ ip_str) -> (58 ∈ host) -> (47 ∉ host) -> (44 ∉ host) -> zlen host <= 100 -> 32 <= n <= 128 ->
  inet_pton AF_INET6 ip_str = Some ip -> inet_pton AF_INET6 host = Some net ->
  sm_find h (host ++ 47 :: Event.dec n) = None -> take 4 ip = take 4 net ->
  switch_check_network_list_ip_token h ip_str (host ++ 47 :: Event.dec n) token = Some (true, token).
Proof.
  intros Hip58 H58 H47 H44 Hlen Hn Hip Hnet Hfind Heq. unfold switch_check_network_list_ip_token.
  assert (forall x t, (x ∈ t) -> bool_decide (is_Some (strchr t x)) = true) as Hin.
  { intros x t Hx. apply bool_decide_eq_true_2. induction t as [|y t IH]; [by apply elem_of_nil in Hx|]. cbn [strchr].
    destruct (Z.eqb_spec y x); [done|]. apply elem_of_cons in Hx as [->|Hx]; [done|]. by apply fmap_is_Some, IH. }
  destruct (dec_byte n ltac:(unfold byte; lia)) as [Hd3 Hd].
  assert (44 ∉ host ++ 47 :: Event.dec n) as Hc.
  { rewrite elem_of_app, elem_of_cons. intros [?|[?|Hx]]; [done..|]. pose proof (Event.dec_digits n) as Hf.
    rewrite Forall_forall in Hf. specialize (Hf _ Hx). simpl in Hf. lia. }
  rewrite Hfind, (Hin 58 ip_str Hip58), (Hin 47 (host ++ _)), (strchr_absent _ 44 Hc) by set_solver.
  rewrite (bool_decide_eq_false_2 (is_Some None)) by (by intros [? ?]). unfold switch_parse_cidr.
  rewrite ztake_all by (autorewrite with zlist; lia). rewrite strchr_first by done. rewrite cut_at_first, (Hin 58) by set_solver.
  rewrite Hd. destruct (Z.ltb_spec n 0), (Z.ltb_spec 128 n); try lia. cbn [orb].
  unfold switch_inet_pton. rewrite Hip, Hnet. cbn [store]. do 2 f_equal.
  destruct (pton_v6 _ _ Hip) as [Li _], (pton_v6 _ _ Hnet) as [Ln _].
  assert (forall t k, length t = 16%nat -> v4 (blit 0 t k) = le (take 4 t)) as Hv.
  { intros t k Ht. unfold v4, blit. rewrite ztake_0. cbn [app]. rewrite take_app_le by lia. done. }
  unfold switch_test_subnet. rewrite !Hv, Heq, !Z.eqb_refl by done. by repeat case_match.
Qed.

(** A list without nodes never reaches the table, so that its default is lost. *)
Theorem empty_list_unknown {PF : Platform} {H : Type} {SM : StringMap H network_list} locate (h : H) x_list :
  switch_xml_children x_list (str "node") = [] -> load_list locate h x_list = Some h.
Proof. intros Hn. unfold load_list. rewrite Hn. by destruct (switch_xml_attr x_list (str "name")) as [[|]|]. Qed.

(** ** A platform *)

(** A number of a dotted quad in canonical form. *)
Definition octet (t : bytes) : option Z :=
  let n := atoi t in if (0 <=? n) && (n <? 256) && streq t (Event.dec n) then Some n else None.

Definition until_dot (t : bytes) : option (Z * bytes) :=
  i ← strchr t 46; let '(x, rest) := cut_at t i in n ← octet x; Some (n, rest).

Definition pton4 (t : bytes) : option bytes :=
  '(a, t) ← until_dot t; '(b, t) ← until_dot t; '(c, t) ← until_dot t; d ← octet t; Some [a; b; c; d].

(** Groups of up to four hexadecimal digits, one run of zeros abbreviated. *)
Definition hex_digit (c : Z) : option Z :=
  if isdigit c then Some (c - 48) else let c := tolower c in if (97 <=? c) && (c <=? 102) then Some (c - 87) else None.

Definition hex_group (t : bytes) : option bytes :=
  ds ← mapM hex_digit t; let v := fold_left (fun v d => v * 16 + d) ds 0 in
  if (1 <=? zlen t) && (zlen t <=? 4) then Some [v / 256; v mod 256] else None.

Fixpoint fields (t : bytes) (cur : bytes) : list bytes :=
  match t with [] => [cur] | c :: t => if c =? 58 then cur :: fields t [] else fields t (cur ++ [c]) end.

Definition hex_groups (fs : list bytes) : option bytes := mjoin <$> mapM hex_group fs.

Definition pton6 (t : bytes) : option bytes :=
  let fs := fields t [] in
  a ← match list_find (fun f => f = []) fs with
      | None => hex_groups fs
      | Some (i, _) =>
        x ← hex_groups (take i fs); y ← hex_groups (filter (fun f => f <> []) (drop (S i) fs)); Some (x ++ replicate (16 - length x - length y) 0 ++ y)
      end;
  if (length a =? 16)%nat && forallb (fun c => (0 <=? c) && (c <? 256)) a then Some a else None.

#[local] Instance sample_platform : Platform := {|
  inet_pton f t := match f with AF_INET => pton4 t | AF_INET6 => pton6 t | AF_UNSPEC => None end;
  shr32 := 0xFFFFFFFF; stack_ip := replicate 16 0xAA; stack_mask := replicate 16 0x55 |}.

Lemma octet_dec n : byte n -> octet (Event.dec n) = Some n.
Proof.
  intros Hn. unfold octet. destruct (dec_byte n Hn) as [_ ->]. unfold byte in Hn.
  destruct (Z.leb_spec 0 n), (Z.ltb_spec n 256); try lia. cbn [andb]. by rewrite (proj2 (streq_spec _ _) eq_refl).
Qed.

Lemma until_dot_dec n t : byte n -> until_dot (Event.dec n ++ 46 :: t) = Some (n, t).
Proof.
  intros Hn. unfold until_dot. rewrite strchr_first.
  - cbn [mbind option_bind]. rewrite cut_at_first. by rewrite octet_dec.
  - intros Hx. pose proof (Event.dec_digits n) as Hf. rewrite Forall_forall in Hf. specialize (Hf _ Hx). simpl in Hf. lia.
Qed.

#[local] Instance sample_platform_laws : PlatformLaws sample_platform.
Proof.
  split.
  - intros a b c d Ha Hb Hc Hd. simpl. unfold pton4, quad. rewrite until_dot_dec by done. cbn [mbind option_bind].
    rewrite until_dot_dec by done. cbn [mbind option_bind]. rewrite until_dot_dec by done. cbn [mbind option_bind]. by rewrite octet_dec.
  - intros t a. simpl. unfold pton6. intros Ht. apply bind_Some in Ht as (x & _ & Ht).
    destruct (Nat.eqb_spec (length x) 16); [|done]. destruct (forallb _ x) eqn:Hb; [|done]. injection Ht as <-. split; [done|].
    rewrite Forall_forall. rewrite forallb_forall in Hb. intros c Hc. apply list_elem_of_In, Hb, andb_true_iff in Hc. unfold byte. lia.
  - by right.
  - done.
Qed.

(** The table of lists is a case-sensitive hash of the core. *)
#[local] Instance lists_map : StringMap (HashTable.switch_hashtable bytes network_list Z) network_list := core_hash_string_map true.

Definition office_rules : list rule :=
  [mk_rule 10 0 0 0 8 false None; mk_rule 10 1 0 0 16 true (Some (str "office"));
   mk_rule 10 1 2 0 24 false None; mk_rule 10 1 0 0 16 true (Some (str "lab"))].

Lemma office_rules_ok : Forall rule_ok office_rules.
Proof. repeat apply Forall_cons_2; try apply Forall_nil_2; unfold rule_ok, byte; cbn [r_a r_b r_c r_d r_len]; lia. Qed.

Abbreviation no_lists := (sm_empty (H := HashTable.switch_hashtable bytes network_list Z)).

Lemma acl_most_specific_witness :
  exists l verdict, add_rules office_rules (create_list (str "office") true) = Some l
    /\ decides (contains (addr 10 1 3 4)) r_len (reverse office_rules) verdict
    /\ switch_check_network_list_ip_token (sm_insert no_lists (str "office") l) (quad 10 1 3 4) (str "office") None
       = Some (match verdict with Some r => (r_ok r, token_of r) | None => (true, None) end).
Proof.
  apply (acl_most_specific no_lists (str "office") true office_rules 10 1 3 4 None); [apply sm_empty_ok|apply office_rules_ok|unfold byte; lia..].
Defined.

(** The last of the two rules of 16 bits decides for 10.1.3.4, the longer one
    for 10.1.2.3, the shorter one for 10.9.9.9 and the default elsewhere. *)
Example office_verdicts :
  (fun q => l ← add_rules office_rules (create_list (str "office") true);
     switch_check_network_list_ip_token (sm_insert no_lists (str "office") l) q (str "office") (Some (str "none")))
  <$> [quad 10 1 3 4; quad 10 1 2 3; quad 10 9 9 9; quad 11 0 0 1]
  = [Some (true, Some (str "lab")); Some (false, None); Some (false, None); Some (true, Some (str "none"))].
Proof. vm_compute. reflexivity. Qed.

Lemma block_is_prefix_witness :
  switch_test_subnet (addr 10 1 3 4) (addr 10 1 0 0) (v4_mask 16) = bool_decide (addr 10 1 3 4 / 2 ^ 16 = addr 10 1 0 0 / 2 ^ 16)
  /\ switch_testv6_subnet (0x20 :: replicate 15 1) (0x20 :: replicate 15 2) (v6_mask 16 13)
     = bool_decide (be (0x20 :: replicate 15 1) / 2 ^ 115 = be (0x20 :: replicate 15 2) / 2 ^ 115).
Proof.
  apply (block_is_prefix (addr 10 1 3 4) (addr 10 1 0 0) 16 (0x20 :: replicate 15 1) (0x20 :: replicate 15 2) 13);
    try reflexivity; try lia; try (apply addr_range; unfold byte; lia);
    apply Forall_cons; (split; [unfold byte; lia|]); apply Forall_replicate; unfold byte; lia.
Defined.

Lemma count_bits_popcount_witness : count_bits 0x00FFFFF0 = 20.
Proof. rewrite (count_bits_popcount 0x00FFFFF0) by lia. reflexivity. Defined.

(** A configuration with a list of its own. *)
Definition sample_cfg : xml :=
  Xml (str "configuration") []
    [Xml (str "network-lists") []
      [Xml (str "list") [(str "name", str "lan"); (str "default", str "deny")]
        [Xml (str "node") [(str "type", str "allow"); (str "cidr", str "192.168.42.0/24")] [];
         Xml (str "node") [(str "type", str "allow"); (str "domain", str "example.com")] []];
       Xml (str "list") [(str "name", str "open"); (str "default", str "allow")] []]].

Definition sample_locate (domain : bytes) : option xml :=
  Some (Xml (str "domain") [] [Xml (str "users") [] [Xml (str "user") [(str "id", str "1000"); (str "cidr", str "10.7.7.7/32")] []]]).

Lemma sample_cfg_free name : name <> str "lan" -> name <> str "open" -> not_configured (Some sample_cfg) name.
Proof.
  intros H1 H2 c x [= <-] Hx. vm_compute in Hx. injection Hx as <-.
  change (Forall (fun l => switch_xml_attr l (str "name") <> Some name) (xml_body (Xml (str "network-lists") []
      [Xml (str "list") [(str "name", str "lan"); (str "default", str "deny")]
        [Xml (str "node") [(str "type", str "allow"); (str "cidr", str "192.168.42.0/24")] [];
         Xml (str "node") [(str "type", str "allow"); (str "domain", str "example.com")] []];
       Xml (str "list") [(str "name", str "open"); (str "default", str "allow")] []]))).
  cbn [xml_body]. rewrite !Forall_cons, Forall_nil. split_and!; [intros [= <-]; by destruct H1|intros [= <-]; by destruct H2|done].
Qed.

Definition sample_lists : option (HashTable.switch_hashtable bytes network_list Z) :=
  switch_load_network_lists (str "192.0.2.5") (str "255.255.255.0") (Some sample_cfg) sample_locate.

Lemma sample_loaded : bool_decide (is_Some (const tt <$> sample_lists)) = true.
Proof. vm_compute. reflexivity. Qed.

Lemma auto_lists_private_witness :
  exists h, sample_lists = Some h
    /\ fst <$> switch_check_network_list_ip_token h (quad 172 20 1 1) (str "rfc1918.auto") None = Some true
    /\ fst <$> switch_check_network_list_ip_token h (quad 172 20 1 1) (str "wan.auto") None = Some false.
Proof.
  pose proof sample_loaded as Hs. destruct sample_lists as [h|] eqn:Hl; [|discriminate Hs]. exists h. split; [reflexivity|].
  apply (auto_lists_private (str "192.0.2.5") (str "255.255.255.0") (Some sample_cfg) sample_locate h 172 20 1 1 None);
    try (unfold byte; lia); try exact Hl; try reflexivity; apply sample_cfg_free; vm_compute; discriminate.
Defined.

(** The lists of the configuration at work: its user gets a token, its empty
    list is unknown although its default is to allow. *)
Example sample_lists_verdicts :
  (fun q => h ← sample_lists; switch_check_network_list_ip_token h q.1 q.2 None)
  <$> [(quad 192 168 42 9, str "lan"); (quad 10 7 7 7, str "lan"); (quad 10 7 7 8, str "lan");
       (quad 192 0 2 77, str "localnet.auto"); (quad 8 8 8 8, str "open"); (quad 8 8 8 8, str "8.8.0.0/16")]
  = [Some (true, None); Some (true, Some (str "1000@example.com")); Some (false, None);
     Some (true, None); Some (false, None); Some (true, None)].
Proof. vm_compute. reflexivity. Qed.

Lemma single_v6_block_flaw_witness :
  switch_check_network_list_ip_token no_lists (str "2001:db8:1::5") (str "2001:db8:2::/48") None = Some (true, None).
Proof.
  apply (single_v6_block_flaw no_lists (str "2001:db8:1::5") (str "2001:db8:2::") 48 None
    [0x20; 1; 0x0d; 0xb8; 0; 1; 0; 0; 0; 0; 0; 0; 0; 0; 0; 5] [0x20; 1; 0x0d; 0xb8; 0; 2; 0; 0; 0; 0; 0; 0; 0; 0; 0; 0]);
    try lia; try (vm_compute; discriminate); try (vm_compute; reflexivity); apply (bool_decide_unpack _); vm_compute; exact I.
Defined.

(** Three more: a block of length 0 never decides; where shifts are taken
    modulo 32 the rule for the address 0.0.0.0 decides for every address; and a
    rule with a dotted mask also decides for IPv6 addresses. *)
Example zero_blocks :
  (fun r => l ← add_rules [r] (create_list (str "l") true);
     switch_check_network_list_ip_token (sm_insert no_lists (str "l") l) (quad 10 0 0 1) (str "l") None)
  <$> [mk_rule 0 0 0 0 0 false None; mk_rule 0 0 0 0 32 false None]
  = [Some (true, None); Some (false, None)].
Proof. vm_compute. reflexivity. Qed.

Example dotted_mask_admits_ipv6 :
  switch_check_network_list_ip_token
    (sm_insert no_lists (str "l") (switch_network_list_add_host_mask (create_list (str "l") false) (str "192.168.0.0") (str "255.255.0.0") true).1)
    (str "2001:a8c0::1") (str "l") None = Some (true, None).
Proof. vm_compute. reflexivity. Qed.

Lemma empty_list_unknown_witness :
  load_list sample_locate no_lists (Xml (str "list") [(str "name", str "open"); (str "default", str "allow")] []) = Some no_lists.
Proof. apply (empty_list_unknown sample_locate no_lists). reflexivity. Defined.
End Acl.
