(* ===== verification/TimeZone.v ===== *)
(** * Time zones and the calendar

    The part of switch_time.c that turns a moment into local time: the zone
    list loaded from timezones.conf, the reader of POSIX zone descriptions
    (getzname, getnum, getsecs, getoffset, getrule, tzparse), the moments at
    which the rules of a year take effect (transtime), the calendar (timesub)
    and their combination (tztime, switch_time_exp_tz_name).

    A pointer into the zone description is the rest of the description; NULL
    is [None].  A [time_t] and a [long] are unbounded here: every number read
    from a description is checked against a small maximum.  The year of the
    calendar is an [int]. *)

From S2P Require Import Prelude Outcome CString Event CoreHash Acl.
Import CString CoreHash.

Module TimeZone.

(** ** Constants and tables *)

Definition SECSPERMIN : Z := 60.
Definition MINSPERHOUR : Z := 60.
Definition HOURSPERDAY : Z := 24.
Definition DAYSPERWEEK : Z := 7.
Definition DAYSPERNYEAR : Z := 365.
Definition DAYSPERLYEAR : Z := 366.
Definition SECSPERHOUR : Z := SECSPERMIN * MINSPERHOUR.
Definition SECSPERDAY : Z := SECSPERHOUR * HOURSPERDAY.
Definition MONSPERYEAR : Z := 12.
Definition EPOCH_YEAR : Z := 1970.
Definition EPOCH_WDAY : Z := 4.
Definition TM_YEAR_BASE : Z := 1900.
Definition TZ_MAX_TIMES : Z := 370.
Definition TZ_MAX_TYPES : Z := 256.
Definition TZ_MAX_CHARS : Z := 50.
Definition TZ_MAX_LEAPS : Z := 50.
(** Where <limits.h> does not define TZNAME_MAX. *)
Definition MY_TZNAME_MAX : Z := 255.
Definition CHARS_DEF : Z := Z.max (Z.max (TZ_MAX_CHARS + 1) 4) (2 * (MY_TZNAME_MAX + 1)).

Definition isleap (y : Z) : bool :=
  (Z.rem y 4 =? 0) && (negb (Z.rem y 100 =? 0) || (Z.rem y 400 =? 0)).

Definition mon_lengths (leap : bool) : list Z :=
  if leap then [31; 29; 31; 30; 31; 30; 31; 31; 30; 31; 30; 31]
  else [31; 28; 31; 30; 31; 30; 31; 31; 30; 31; 30; 31].

Definition year_lengths (leap : bool) : Z := if leap then DAYSPERLYEAR else DAYSPERNYEAR.

(** [LEAPS_THRU_END_OF], with C's division. *)
Definition LEAPS_THRU_END_OF (y : Z) : Z := Z.quot y 4 - Z.quot y 100 + Z.quot y 400.

(** ** Data *)

Record tm := Tm {
  tm_sec : Z; tm_min : Z; tm_hour : Z; tm_mday : Z; tm_mon : Z; tm_year : Z;
  tm_wday : Z; tm_yday : Z; tm_isdst : Z; tm_gmtoff : Z }.

(** The [struct tm] of APR: one more field. *)
Record switch_time_exp_t := TimeExp { tm_usec : Z; exp_tm :> tm }.

Definition JULIAN_DAY : Z := 0.
Definition DAY_OF_YEAR : Z := 1.
Definition MONTH_NTH_DAY_OF_WEEK : Z := 2.

(** The fields a rule of another type does not use are not set; they are not
    read either. *)
Record rule := Rule { r_type : Z; r_day : Z; r_week : Z; r_mon : Z; r_time : Z }.

Record ttinfo := Ttinfo { tt_gmtoff : Z; tt_isdst : Z; tt_abbrind : Z; tt_ttisstd : Z; tt_ttisgmt : Z }.
Record lsinfo := Lsinfo { ls_trans : Z; ls_corr : Z }.

#[export] Instance ttinfo_inhabited : Inhabited ttinfo := populate (Ttinfo 0 0 0 0 0).
#[export] Instance lsinfo_inhabited : Inhabited lsinfo := populate (Lsinfo 0 0).

Record state := State {
  leapcnt : Z; timecnt : Z; typecnt : Z; charcnt : Z;
  ats : list Z; types : list Z; ttis : list ttinfo; chars : bytes; lsis : list lsinfo }.

(** After [memset(tzptr, 0, sizeof(struct state))]. *)
Definition zero_state : state :=
  State 0 0 0 0 (replicate (Z.to_nat TZ_MAX_TIMES) 0) (replicate (Z.to_nat TZ_MAX_TIMES) 0)
    (replicate (Z.to_nat TZ_MAX_TYPES) (Ttinfo 0 0 0 0 0)) (replicate (Z.to_nat CHARS_DEF) 0)
    (replicate (Z.to_nat TZ_MAX_LEAPS) (Lsinfo 0 0)).

(** ** Reading a zone description *)

(** The character a pointer points to; NUL at the end. *)
Definition deref (s : bytes) : Z := default 0 (head s).

Fixpoint getzname (strp : bytes) : bytes :=
  match strp with
  | [] => []
  | c :: rest => if negb (isdigit c) && negb (c =? 44) && negb (c =? 45) && negb (c =? 43) then getzname rest else strp
  end.

(** The digits behind the first one. *)
Fixpoint getnum_loop (strp : bytes) (num max : Z) : option (Z * bytes) :=
  match strp with
  | c :: rest =>
    if isdigit c then let num := num * 10 + (c - 48) in if max <? num then None else getnum_loop rest num max
    else Some (num, strp)
  | [] => Some (num, [])
  end.

Definition getnum (strp : bytes) (min max : Z) : option (Z * bytes) :=
  if negb (isdigit (deref strp)) then None
  else
    '(num, rest) ← getnum_loop strp 0 max;
    if num <? min then None else Some (num, rest).

Definition getsecs (strp : bytes) : option (Z * bytes) :=
  '(num, strp) ← getnum strp 0 (HOURSPERDAY * DAYSPERWEEK - 1);
  let secs := num * SECSPERHOUR in
  if deref strp =? 58 then
    '(num, strp) ← getnum (drop 1 strp) 0 (MINSPERHOUR - 1);
    let secs := secs + num * SECSPERMIN in
    if deref strp =? 58 then
      '(num, strp) ← getnum (drop 1 strp) 0 SECSPERMIN;
      Some (secs + num, strp)
    else Some (secs, strp)
  else Some (secs, strp).

Definition getoffset (strp : bytes) : option (Z * bytes) :=
  let neg := deref strp =? 45 in
  let strp := if neg then drop 1 strp else if deref strp =? 43 then drop 1 strp else strp in
  '(offset, strp) ← getsecs strp;
  Some (if neg then - offset else offset, strp).

(** The date of a rule; the caller sets the time. *)
Definition getdate (strp : bytes) : option (rule * bytes) :=
  if deref strp =? 74 then
    '(day, strp) ← getnum (drop 1 strp) 1 DAYSPERNYEAR; Some (Rule JULIAN_DAY day 0 0 0, strp)
  else if deref strp =? 77 then
    '(mon, strp) ← getnum (drop 1 strp) 1 MONSPERYEAR;
    if negb (deref strp =? 46) then None else
    '(week, strp) ← getnum (drop 1 strp) 1 5;
    if negb (deref strp =? 46) then None else
    '(day, strp) ← getnum (drop 1 strp) 0 (DAYSPERWEEK - 1);
    Some (Rule MONTH_NTH_DAY_OF_WEEK day week mon 0, strp)
  else if isdigit (deref strp) then
    '(day, strp) ← getnum strp 0 (DAYSPERLYEAR - 1); Some (Rule DAY_OF_YEAR day 0 0 0, strp)
  else None.

Definition set_time (r : rule) (time : Z) : rule := Rule (r_type r) (r_day r) (r_week r) (r_mon r) time.

Definition getrule (strp : bytes) : option (rule * bytes) :=
  '(r, strp) ← getdate strp;
  if deref strp =? 47 then '(time, strp) ← getsecs (drop 1 strp); Some (set_time r time, strp)
  else Some (set_time r (2 * SECSPERHOUR), strp).

(** ** When a rule takes effect *)

(** The day of the week of the first of a month, by Zeller's congruence. *)
Definition first_dow (year mon : Z) : Z :=
  let m1 := Z.rem (mon + 9) 12 + 1 in
  let yy0 := if mon <=? 2 then year - 1 else year in
  let yy1 := Z.quot yy0 100 in
  let yy2 := Z.rem yy0 100 in
  let dow := Z.rem (Z.quot (26 * m1 - 2) 10 + 1 + yy2 + Z.quot yy2 4 + Z.quot yy1 4 - 2 * yy1) 7 in
  if dow <? 0 then dow + DAYSPERWEEK else dow.

(** [for (i = 1; i < r_week; ++i)]: [n] passes are left. *)
Fixpoint nth_week (n : nat) (len d : Z) : Z :=
  match n with
  | O => d
  | S n => if len <=? d + DAYSPERWEEK then d else nth_week n len (d + DAYSPERWEEK)
  end.

Definition transtime (janfirst year : Z) (r : rule) (offset : Z) : Z :=
  let leapyear := isleap year in
  let value :=
    if r_type r =? JULIAN_DAY then
      let value := janfirst + (r_day r - 1) * SECSPERDAY in
      if leapyear && (60 <=? r_day r) then value + SECSPERDAY else value
    else if r_type r =? DAY_OF_YEAR then janfirst + r_day r * SECSPERDAY
    else if r_type r =? MONTH_NTH_DAY_OF_WEEK then
      let value := fold_left (fun value len => value + len * SECSPERDAY) (ztake (r_mon r - 1) (mon_lengths leapyear)) janfirst in
      let d := r_day r - first_dow year (r_mon r) in
      let d := if d <? 0 then d + DAYSPERWEEK else d in
      let d := nth_week (Z.to_nat (r_week r - 1)) (mon_lengths leapyear !!! Z.to_nat (r_mon r - 1)) d in
      value + d * SECSPERDAY
    else 0 in
  value + r_time r + offset.

(** ** Filling in the tables *)

Definition upd_tti (i : nat) (gmtoff isdst abbrind : Z) (sp : state) : state :=
  State (leapcnt sp) (timecnt sp) (typecnt sp) (charcnt sp) (ats sp) (types sp)
    (alter (fun t => Ttinfo gmtoff isdst abbrind (tt_ttisstd t) (tt_ttisgmt t)) i (ttis sp)) (chars sp) (lsis sp).

Definition set_counts (leaps times typs : Z) (sp : state) : state :=
  State leaps times typs (charcnt sp) (ats sp) (types sp) (ttis sp) (chars sp) (lsis sp).

Definition set_transitions (a ty : list Z) (sp : state) : state :=
  State (leapcnt sp) (timecnt sp) (typecnt sp) (charcnt sp) a ty (ttis sp) (chars sp) (lsis sp).

Definition set_chars (n : Z) (c : bytes) (sp : state) : state :=
  State (leapcnt sp) (timecnt sp) (typecnt sp) n (ats sp) (types sp) (ttis sp) c (lsis sp).

(** The transitions of [n] years from [year] on, each with its type, in the
    order in which [atp] and [typep] write them. *)
Fixpoint year_loop (n : nat) (year janfirst : Z) (start end_ : rule) (stdoffset dstoffset : Z) : list (Z * Z) :=
  match n with
  | O => []
  | S n =>
    let starttime := transtime janfirst year start stdoffset in
    let endtime := transtime janfirst year end_ dstoffset in
    (if endtime <? starttime then [(endtime, 1); (starttime, 0)] else [(starttime, 0); (endtime, 1)])
    ++ year_loop n (year + 1) (janfirst + year_lengths (isleap year) * SECSPERDAY) start end_ stdoffset dstoffset
  end.

(** With rules: standard and daylight saving time for the years to 2037.  The
    flag tells that the tables are too small. *)
Definition fill_rules (start end_ : rule) (stdlen stdoffset dstoffset : Z) (sp : state) : state * bool :=
  let sp := set_counts (leapcnt sp) (2 * (2037 - EPOCH_YEAR + 1)) 2 sp in
  if TZ_MAX_TIMES <? timecnt sp then (sp, false)
  else
    let sp := upd_tti 0 (- dstoffset) 1 (stdlen + 1) sp in
    let sp := upd_tti 1 (- stdoffset) 0 0 sp in
    let w := year_loop (Z.to_nat (2037 - EPOCH_YEAR + 1)) EPOCH_YEAR 0 start end_ stdoffset dstoffset in
    (set_transitions (blit 0 (w.*1) (ats sp)) (blit 0 (w.*2) (types sp)) sp, true).

(** The offset of the first transition to a type that is, or is not, summer
    time. *)
Definition their_offset (dst : bool) (sp : state) : Z :=
  match list_find (fun j => negb (tt_isdst (ttis sp !!! Z.to_nat j) =? 0) = dst) (ztake (timecnt sp) (types sp)) with
  | Some (_, j) => - tt_gmtoff (ttis sp !!! Z.to_nat j)
  | None => 0
  end.

(** The pass over transitions that are already there; [isdst] stays FALSE. *)
Fixpoint juggle_loop (ttis : list ttinfo) (times tys : list Z) (stdoffset dstoffset theirstd theirdst : Z) : list Z * list Z :=
  match times, tys with
  | at_ :: times, j :: tys =>
    let t := ttis !!! Z.to_nat j in
    let at_ := if negb (tt_ttisgmt t =? 0) then at_ else at_ + (stdoffset - theirstd) in
    let theiroffset := - tt_gmtoff t in
    let '(theirstd, theirdst) := if negb (tt_isdst t =? 0) then (theirstd, theiroffset) else (theiroffset, theirdst) in
    let '(a, ty) := juggle_loop ttis times tys stdoffset dstoffset theirstd theirdst in
    (at_ :: a, u8 (tt_isdst t) :: ty)
  | _, _ => (times, tys)
  end.

(** Without rules: what is in the tables is shifted. *)
Definition fill_default (stdlen stdoffset dstoffset : Z) (sp : state) : state :=
  let '(a, ty) := juggle_loop (ttis sp) (ztake (timecnt sp) (ats sp)) (ztake (timecnt sp) (types sp)) stdoffset dstoffset
                    (their_offset false sp) (their_offset true sp) in
  let sp := set_transitions (blit 0 a (ats sp)) (blit 0 ty (types sp)) sp in
  let sp := upd_tti 0 (- stdoffset) 0 0 sp in
  let sp := upd_tti 1 (- dstoffset) 1 (stdlen + 1) sp in
  set_counts (leapcnt sp) (timecnt sp) 2 sp.

(** The names, at the end of the function. *)
Definition store_names (stdname : bytes) (stdlen : Z) (dstname : bytes) (dstlen : Z) (sp : state) : state * Z :=
  let n := stdlen + 1 + (if dstlen =? 0 then 0 else dstlen + 1) in
  let sp := set_chars n (chars sp) sp in
  if CHARS_DEF <? n then (sp, -1)
  else
    let c := blit 0 (ztake stdlen stdname ++ [0]) (chars sp) in
    let c := if dstlen =? 0 then c else blit (stdlen + 1) (ztake dstlen dstname ++ [0]) c in
    (set_chars n c sp, 0).

(** The name and the offset of standard time. *)
Definition std_part (name : bytes) (lastditch : bool) : option (Z * Z * bytes) :=
  if lastditch then Some (if CHARS_DEF <=? zlen name then CHARS_DEF - 1 else zlen name, 0, [])
  else
    let rest := getzname name in
    let stdlen := zlen name - zlen rest in
    if stdlen <? 3 then None
    else match rest with
         | [] => None
         | _ => '(stdoffset, rest) ← getoffset rest; Some (stdlen, stdoffset, rest)
         end.

(** The name and the offset of summer time. *)
Definition dst_part (name : bytes) (stdoffset : Z) : option (Z * Z * bytes) :=
  let rest := getzname name in
  let dstlen := zlen name - zlen rest in
  if dstlen <? 3 then None
  else if negb (deref rest =? 0) && negb (deref rest =? 44) && negb (deref rest =? 59)
  then '(dstoffset, rest) ← getoffset rest; Some (dstlen, dstoffset, rest)
  else Some (dstlen, stdoffset - SECSPERHOUR, rest).

(** The two rules, which end the description. *)
Definition rules_part (name : bytes) : option (rule * rule) :=
  '(start, name) ← getrule name;
  if negb (deref name =? 44) then None else
  '(end_, name) ← getrule (drop 1 name);
  match name with [] => Some (start, end_) | _ => None end.

Definition tzparse (name : bytes) (sp : state) (lastditch : bool) : state * Z :=
  match std_part name lastditch with
  | None => (sp, -1)
  | Some (stdlen, stdoffset, rest) =>
    let sp := set_counts 0 (timecnt sp) (typecnt sp) sp in
    match rest with
    | [] =>
      let sp := set_counts (leapcnt sp) 0 1 sp in
      store_names name stdlen [] 0 (upd_tti 0 (- stdoffset) 0 0 sp)
    | _ =>
      match dst_part rest stdoffset with
      | None => (sp, -1)
      | Some (dstlen, dstoffset, rules) =>
        if (deref rules =? 44) || (deref rules =? 59) then
          match rules_part (drop 1 rules) with
          | None => (sp, -1)
          | Some (start, end_) =>
            let '(sp, ok) := fill_rules start end_ stdlen stdoffset dstoffset sp in
            if ok then store_names name stdlen rest dstlen sp else (sp, -1)
          end
        else
          match rules with
          | [] => store_names name stdlen rest dstlen (fill_default stdlen stdoffset dstoffset sp)
          | _ => (sp, -1)
          end
      end
    end
  end.

(** ** The calendar *)

(** The inner loop over leap seconds in a row. *)
Fixpoint hit_loop (i : nat) (lsis : list lsinfo) (hit : Z) : Z :=
  match i with
  | O => hit
  | S k =>
    if (ls_trans (lsis !!! i) =? ls_trans (lsis !!! k) + 1) && (ls_corr (lsis !!! i) =? ls_corr (lsis !!! k) + 1)
    then hit_loop k lsis (hit + 1) else hit
  end.

(** [while (--i >= 0)]: the correction and whether the moment is a leap second. *)
Fixpoint leap_loop (i : nat) (t : Z) (lsis : list lsinfo) : Z * Z :=
  match i with
  | O => (0, 0)
  | S i =>
    let lp := lsis !!! i in
    if ls_trans lp <=? t then
      let hit := if t =? ls_trans lp then
                   if match i with O => 0 <? ls_corr lp | S k => ls_corr (lsis !!! k) <? ls_corr lp end
                   then hit_loop i lsis 1 else 0
                 else 0 in
      (ls_corr lp, hit)
    else leap_loop i t lsis
  end.

(** The two loops that bring [rem] into a day. *)
Fixpoint rem_loop (fuel : nat) (days rem : Z) : res (Z * Z) :=
  match fuel with
  | O => NoFuel
  | S fuel =>
    if rem <? 0 then rem_loop fuel (days - 1) (rem + SECSPERDAY)
    else if SECSPERDAY <=? rem then rem_loop fuel (days + 1) (rem - SECSPERDAY)
    else Ok (days, rem)
  end.

(** The loop that finds the year. *)
Fixpoint year_search (fuel : nat) (y days : Z) : res (Z * Z) :=
  match fuel with
  | O => NoFuel
  | S fuel =>
    if (days <? 0) || (year_lengths (isleap y) <=? days) then
      let newy := s32 (y + Z.quot days DAYSPERNYEAR) in
      let newy := if days <? 0 then newy - 1 else newy in
      year_search fuel newy
        (days - s32 ((newy - y) * DAYSPERNYEAR + LEAPS_THRU_END_OF (newy - 1) - LEAPS_THRU_END_OF (y - 1)))
    else Ok (y, days)
  end.

(** The loop over the months: the month and the day in it, from zero. *)
Fixpoint month_loop (ip : list Z) (mon days : Z) : Z * Z :=
  match ip with
  | len :: ip => if len <=? days then month_loop ip (mon + 1) (days - len) else (mon, days)
  | [] => (mon, days)
  end.

Definition year_fuel : nat := 40.
Definition rem_fuel (rem : Z) : nat := Z.to_nat (Z.abs rem / SECSPERDAY + 2).

Definition timesub (t offset : Z) (sp : state) : res tm :=
  let '(corr, hit) := leap_loop (Z.to_nat (leapcnt sp)) t (lsis sp) in
  let rem := Z.rem t SECSPERDAY + (offset - corr) in
  '(days, rem) ← rem_loop (rem_fuel rem) (Z.quot t SECSPERDAY) rem;
  let hour := Z.quot rem SECSPERHOUR in
  let rem := Z.rem rem SECSPERHOUR in
  let min := Z.quot rem SECSPERMIN in
  let sec := Z.rem rem SECSPERMIN + hit in
  let wday := Z.rem (EPOCH_WDAY + days) DAYSPERWEEK in
  let wday := if wday <? 0 then wday + DAYSPERWEEK else wday in
  '(y, days) ← year_search year_fuel EPOCH_YEAR days;
  let '(mon, day) := month_loop (mon_lengths (isleap y)) 0 days in
  Ok (Tm sec min hour (day + 1) mon (y - TM_YEAR_BASE) wday days 0 offset).

(** ** Local time *)

(** The first type that is not summer time: [while (ttis[i].tt_isdst)]. *)
Fixpoint first_std (fuel : nat) (i : Z) (sp : state) : Z :=
  match fuel with
  | O => 0
  | S fuel =>
    if negb (tt_isdst (ttis sp !!! Z.to_nat i) =? 0)
    then if typecnt sp <=? i + 1 then 0 else first_std fuel (i + 1) sp
    else i
  end.

(** [for (i = 1; i < timecnt; ++i) if (t < ats[i]) break;] on the transitions
    from [i] on. *)
Fixpoint find_transition (times : list Z) (i t : Z) : Z :=
  match times with
  | at_ :: times => if t <? at_ then i else find_transition times (i + 1) t
  | [] => i
  end.

(** The type in force at [t]. *)
Definition local_type (t : Z) (sp : state) : ttinfo :=
  let i := if (timecnt sp =? 0) || (t <? ats sp !!! 0%nat) then first_std (Z.to_nat TZ_MAX_TYPES) 0 sp
           else types sp !!! Z.to_nat (find_transition (zdrop 1 (ztake (timecnt sp) (ats sp))) 1 t - 1) in
  ttis sp !!! Z.to_nat i.

Definition set_isdst (b : Z) (x : tm) : tm :=
  Tm (tm_sec x) (tm_min x) (tm_hour x) (tm_mday x) (tm_mon x) (tm_year x) (tm_wday x) (tm_yday x) b (tm_gmtoff x).

Definition gmt : bytes := str "GMT".

(** What tzparse returns is ignored. *)
Definition tztime (t : Z) (tzstring : option bytes) : res tm :=
  let sp := (tzparse (default gmt tzstring) zero_state false).1 in
  let ttisp := local_type t sp in
  x ← timesub t (tt_gmtoff ttisp) sp;
  Ok (set_isdst (tt_isdst ttisp) x).

Definition tm2switchtime (x : tm) : switch_time_exp_t := TimeExp 0 x.

(** ** The list of zones *)

Section Zones.
Context {H : Type} {SM : StringMap H bytes}.

Definition switch_lookup_timezone (zones : H) (tz_name : option bytes) : option bytes :=
  name ← tz_name; sm_find zones name.

Definition load_zone (zones : H) (x_list : Acl.xml) : H :=
  let name := Acl.switch_xml_attr x_list (str "name") in
  let value := Acl.switch_xml_attr x_list (str "value") in
  if zstr name then zones
  else if zstr value then zones
  else sm_insert zones (default [] name) (default [] value).

(** [cfg] is the section timezones.conf, where there is one; the old list is
    dropped in any case. *)
Definition switch_load_timezones (cfg : option Acl.xml) : H :=
  match cfg ≫= fun cfg => Acl.switch_xml_child cfg (str "timezones") with
  | Some x_lists => fold_left load_zone (Acl.switch_xml_children x_lists (str "zone")) sm_empty
  | None => sm_empty
  end.

(** [now] is the clock, read when no time is given.  [None]: the zone is
    unknown and nothing is written. *)
Definition switch_time_exp_tz_name (zones : H) (now : Z) (tz : option bytes) (thetime : Z) : option (res switch_time_exp_t) :=
  let thetime := if thetime =? 0 then now else thetime in
  let timep := Z.quot thetime 1000000 in
  match (if zstr tz then Some gmt else switch_lookup_timezone zones tz) with
  | Some tzdef => Some (x ← tztime timep (Some tzdef); Ok (tm2switchtime x))
  | None => None
  end.

End Zones.

(** ** The calendar, as it is defined

    [year_start y] counts the days from the first of January 1970 to that of
    [y]; the leap years are those of the Gregorian calendar. *)

Definition leaps (y : Z) : Z := y / 4 - y / 100 + y / 400.
Definition year_start (y : Z) : Z := 365 * (y - 1970) + (leaps (y - 1) - leaps 1969).

Definition sum (l : list Z) : Z := foldr Z.add 0 l.
Definition month_start (y mon : Z) : Z := sum (ztake mon (mon_lengths (isleap y))).

Definition full_year (x : tm) : Z := tm_year x + 1900.

(** The seconds from the beginning of 1970 to the fields of [x]. *)
Definition seconds (x : tm) : Z :=
  86400 * (year_start (full_year x) + month_start (full_year x) (tm_mon x) + tm_mday x - 1)
  + 3600 * tm_hour x + 60 * tm_min x + tm_sec x.

(** [x] is a date of the calendar and a time of the day, with the day of the
    week and of the year that belong to it. *)
Definition proper_date (x : tm) : Prop :=
  0 <= tm_mon x < 12 /\
  1 <= tm_mday x <= mon_lengths (isleap (full_year x)) !!! Z.to_nat (tm_mon x) /\
  0 <= tm_hour x < 24 /\ 0 <= tm_min x < 60 /\ 0 <= tm_sec x < 60 /\
  tm_yday x = month_start (full_year x) (tm_mon x) + tm_mday x - 1 /\
  tm_wday x = (year_start (full_year x) + tm_yday x + 4) mod 7.

Lemma isleap_leaps y : (if isleap y then 1 else 0) = leaps y - leaps (y - 1).
Proof.
  unfold isleap, leaps.
  assert (forall m, 0 < m -> (Z.rem y m =? 0) = (y mod m =? 0)) as Hr.
  { intros m Hm. apply eq_bool_prop_intro. rewrite !Is_true_true, !Z.eqb_eq, Z.rem_divide, Z.mod_divide by lia. done. }
  rewrite !Hr by lia. destruct (Z.eqb_spec (y mod 4) 0), (Z.eqb_spec (y mod 100) 0), (Z.eqb_spec (y mod 400) 0);
    cbn [andb orb negb]; Z.to_euclidean_division_equations; lia.
Qed.

(** Year after year, the count grows by the length of the year. *)
Lemma year_start_succ y : year_start (y + 1) = year_start y + year_lengths (isleap y).
Proof.
  unfold year_start. replace (y + 1 - 1) with y by lia. pose proof (isleap_leaps y).
  unfold year_lengths, DAYSPERLYEAR, DAYSPERNYEAR. case_match; lia.
Qed.

Lemma year_start_epoch : year_start 1970 = 0.
Proof. reflexivity. Qed.

Lemma year_length_range y : 365 <= year_lengths (isleap y) <= 366.
Proof. unfold year_lengths, DAYSPERLYEAR, DAYSPERNYEAR. case_match; lia. Qed.

Lemma LEAPS_leaps y : 0 <= y -> LEAPS_THRU_END_OF y = leaps y.
Proof. intros ?. unfold LEAPS_THRU_END_OF, leaps. by rewrite !Z.quot_div_nonneg by lia. Qed.

(** Leap years in a row of years. *)
Lemma leaps_between a b : a <= b -> 0 <= leaps b - leaps a <= (b - a) / 4 + 1.
Proof.
  unfold leaps. replace (a / 100) with ((a / 4) / 25) by (by rewrite Z.div_div).
  replace (b / 100) with ((b / 4) / 25) by (by rewrite Z.div_div).
  replace (a / 400) with ((a / 4) / 100) by (by rewrite Z.div_div). replace (b / 400) with ((b / 4) / 100) by (by rewrite Z.div_div).
  intros Hab. assert (a / 4 <= b / 4) by (apply Z.div_le_mono; lia).
  assert (b / 4 - a / 4 <= (b - a) / 4 + 1) by (Z.to_euclidean_division_equations; lia).
  generalize dependent (a / 4). intros p ??. generalize dependent (b / 4). intros q ??. Z.to_euclidean_division_equations; lia.
Qed.

Lemma year_start_diff a b : a <= b -> 365 * (b - a) <= year_start b - year_start a <= 365 * (b - a) + (b - a) / 4 + 1.
Proof. intros ?. pose proof (leaps_between (a - 1) (b - 1)). unfold year_start. replace (b - 1 - (a - 1)) with (b - a) in * by lia. lia. Qed.

(** ** The search for the year *)

Definition MAX_YEAR : Z := 5000000.

(** One turn of the loop keeps the day it is about. *)
Lemma year_search_step fuel y days newy :
  1 <= y <= MAX_YEAR -> 1 <= newy <= MAX_YEAR ->
  (days < 0 \/ year_lengths (isleap y) <= days) ->
  newy = y + Z.quot days 365 - (if days <? 0 then 1 else 0) ->
  year_search (S fuel) y days = year_search fuel newy (year_start y + days - year_start newy).
Proof.
  unfold MAX_YEAR. intros Hy Hn Hout Hnew. cbn [year_search].
  replace ((days <? 0) || (year_lengths (isleap y) <=? days)) with true by lia.
  assert ((newy - y) * 365 + leaps (newy - 1) - leaps (y - 1) = year_start newy - year_start y) as Hd by (unfold year_start; lia).
  assert (s32 (y + Z.quot days DAYSPERNYEAR) = y + Z.quot days 365) as Hq by (unfold DAYSPERNYEAR; destruct (days <? 0); cint; lia).
  rewrite Hq. replace (if days <? 0 then y + Z.quot days 365 - 1 else y + Z.quot days 365) with newy by (case_match; lia).
  rewrite !LEAPS_leaps by lia. change DAYSPERNYEAR with 365. rewrite Hd. f_equal.
  assert (- 2 ^ 31 <= year_start newy - year_start y < 2 ^ 31).
  { destruct (Z.le_ge_cases y newy); [pose proof (year_start_diff y newy)|pose proof (year_start_diff newy y)];
      Z.to_euclidean_division_equations; lia. }
  rewrite swrap_small; lia.
Qed.

Lemma year_search_stop fuel y days : 0 <= days < year_lengths (isleap y) -> year_search (S fuel) y days = Ok (y, days).
Proof. intros ?. cbn [year_search]. by replace ((days <? 0) || (year_lengths (isleap y) <=? days)) with false by lia. Qed.

(** The result of a search for the day [year_start y + days]. *)
Definition found_year (day : Z) (r : res (Z * Z)) : Prop :=
  exists y d, r = Ok (y, d) /\ year_start y + d = day /\ 0 <= d < year_lengths (isleap y) /\ 1 <= y.

Lemma year_search_near y days : forall fuel, (2 <= fuel)%nat -> 1 <= y < MAX_YEAR -> 0 <= days <= 400 ->
  found_year (year_start y + days) (year_search fuel y days).
Proof.
  intros [|[|fuel]] Hf Hy Hd; [lia|lia|]. pose proof (year_length_range y).
  destruct (decide (days < year_lengths (isleap y))).
  - rewrite year_search_stop by lia. exists y, days. repeat split; lia.
  - assert (Z.quot days 365 = 1) by (Z.to_euclidean_division_equations; lia).
    rewrite (year_search_step _ _ _ (y + 1)) by (try case_match; lia). pose proof (year_start_succ y). pose proof (year_length_range (y + 1)).
    rewrite year_search_stop by lia. eexists _, _. split; [done|]. lia.
Qed.

Lemma year_search_far k : forall y days, 1 <= y -> y + days / 365 < MAX_YEAR -> 0 <= days <= 400 * 4 ^ Z.of_nat k ->
  found_year (year_start y + days) (year_search (2 * k + 2) y days).
Proof.
  induction k as [|k IH]; intros y days Hy Hm Hd; [apply year_search_near; [lia| |lia]; Z.to_euclidean_division_equations; lia|].
  rewrite Nat2Z.inj_succ, Z.pow_succ_r in Hd by lia. assert (1 <= 4 ^ Z.of_nat k) by (apply (Z.pow_le_mono_r 4 0); lia).
  set (p := 4 ^ Z.of_nat k) in *. destruct (decide (days <= 400)) as [Hle|Hgt].
  { apply year_search_near; [lia| |lia]. Z.to_euclidean_division_equations; lia. }
  replace (2 * S k + 2)%nat with (S (S (2 * k + 2))) by lia. pose proof (year_length_range y).
  set (n := days / 365) in *. assert (Z.quot days 365 = n) as Hq by (apply Z.quot_div_nonneg; lia).
  assert (365 * n <= days < 365 * n + 365) as Hn by (subst n; Z.to_euclidean_division_equations; lia).
  rewrite (year_search_step _ _ _ (y + n)) by (try case_match; lia).
  pose proof (year_start_diff y (y + n)) as Hs. replace (y + n - y) with n in Hs by lia.
  set (d1 := year_start y + days - year_start (y + n)) in *. pose proof (year_length_range (y + n)).
  destruct (decide (0 <= d1)) as [Hd1|Hd1].
  { replace (2 * k + 2)%nat with (S (2 * k + 1)) by lia. rewrite year_search_stop by lia. exists (y + n), d1. repeat split; lia. }
  assert (exists m, m = - d1) as [m Hm0] by eauto. assert (Z.quot d1 365 = - (m / 365)) as Hq1.
  { replace d1 with (- m) by lia. rewrite Z.quot_opp_l by lia. rewrite Z.quot_div_nonneg; lia. }
  assert (0 < m <= n / 4 + 1) by lia. set (q := m / 365) in *. assert (365 * q <= m < 365 * q + 365) as Hqm by (subst q; Z.to_euclidean_division_equations; lia).
  assert (q + 1 <= n /\ 1000 * q <= n) by (Z.to_euclidean_division_equations; lia).
  rewrite (year_search_step _ _ _ (y + n - q - 1)) by (try case_match; lia).
  pose proof (year_start_diff (y + n - q - 1) (y + n)) as Hs2. replace (y + n - (y + n - q - 1)) with (q + 1) in Hs2 by lia.
  set (d2 := year_start (y + n) + d1 - year_start (y + n - q - 1)).
  assert (0 <= d2 <= 366 + (q + 1) / 4) by lia.
  replace (year_start y + days) with (year_start (y + n - q - 1) + d2) by lia.
  apply IH; Z.to_euclidean_division_equations; lia.
Qed.

Lemma year_search_mono fuel : forall y days r, year_search fuel y days = Ok r -> year_search (S fuel) y days = Ok r.
Proof.
  induction fuel as [|fuel IH]; [done|]. intros y days r. cbn [year_search]. case_match; [|done]. apply IH.
Qed.

Lemma year_search_epoch day : - 400000 <= day <= 1700000000 -> found_year day (year_search year_fuel EPOCH_YEAR day).
Proof.
  intros Hday. change day with (year_start 1970 + day) at 1. unfold year_fuel, EPOCH_YEAR.
  destruct (decide (0 <= day)) as [Hp|Hneg].
  { apply (year_search_far 19); [lia|unfold MAX_YEAR; Z.to_euclidean_division_equations; lia|]. change (4 ^ Z.of_nat 19) with 274877906944. lia. }
  assert (exists m, m = - day) as [m Hm] by eauto. assert (Z.quot day 365 = - (m / 365)) as Hq.
  { replace day with (- m) by lia. rewrite Z.quot_opp_l by lia. rewrite Z.quot_div_nonneg; lia. }
  set (q := m / 365) in *. assert (365 * q <= m < 365 * q + 365) as Hqm by (subst q; Z.to_euclidean_division_equations; lia).
  rewrite (year_search_step 39 _ _ (1969 - q)) by (unfold MAX_YEAR; try case_match; lia).
  pose proof (year_start_diff (1969 - q) 1970) as Hs. set (d := year_start 1970 + day - year_start (1969 - q)).
  destruct (year_search_far 18 (1969 - q) d) as (y & d' & Hr & Hrest); [lia|unfold MAX_YEAR; Z.to_euclidean_division_equations; lia| |].
  { change (4 ^ Z.of_nat 18) with 68719476736. Z.to_euclidean_division_equations; lia. }
  exists y, d'. split; [by apply year_search_mono, Hr|]. lia.
Qed.

(** ** The other loops of the calendar *)

Lemma rem_loop_up days : forall fuel rem, rem < 0 -> - 86400 * (Z.of_nat fuel - 1) <= rem ->
  rem_loop fuel days rem = Ok (days + rem / 86400, rem mod 86400).
Proof.
  intros fuel. revert days. induction fuel as [|fuel IH]; intros days rem Hneg Hf; [lia|]. cbn [rem_loop].
  replace (rem <? 0) with true by lia. change SECSPERDAY with 86400. destruct (decide (rem + 86400 < 0)).
  - rewrite IH by lia. do 2 f_equal; Z.to_euclidean_division_equations; lia.
  - destruct fuel as [|fuel]; [lia|]. cbn [rem_loop]. change SECSPERDAY with 86400.
    replace (rem + 86400 <? 0) with false by lia. replace (86400 <=? rem + 86400) with false by lia.
    do 2 f_equal; Z.to_euclidean_division_equations; lia.
Qed.

Lemma rem_loop_down days : forall fuel rem, 0 <= rem -> rem < 86400 * Z.of_nat fuel ->
  rem_loop fuel days rem = Ok (days + rem / 86400, rem mod 86400).
Proof.
  intros fuel. revert days. induction fuel as [|fuel IH]; intros days rem Hpos Hf; [lia|]. cbn [rem_loop].
  replace (rem <? 0) with false by lia. change SECSPERDAY with 86400. destruct (Z.leb_spec 86400 rem).
  - rewrite IH by lia. do 2 f_equal; Z.to_euclidean_division_equations; lia.
  - do 2 f_equal; Z.to_euclidean_division_equations; lia.
Qed.

Lemma rem_loop_ends days rem : rem_loop (rem_fuel rem) days rem = Ok (days + rem / 86400, rem mod 86400).
Proof.
  unfold rem_fuel. change SECSPERDAY with 86400.
  destruct (decide (rem < 0)); [apply rem_loop_up|apply rem_loop_down]; try lia; rewrite ?Z2Nat.id; Z.to_euclidean_division_equations; lia.
Qed.

Lemma sum_cons x l : sum (x :: l) = x + sum l.
Proof. done. Qed.

Lemma month_loop_spec ip : forall mon days, 0 <= days < sum ip ->
  exists i, (i < length ip)%nat /\ month_loop ip mon days = (mon + Z.of_nat i, days - sum (take i ip)) /\ 0 <= days - sum (take i ip) < ip !!! i.
Proof.
  induction ip as [|len ip IH]; intros mon days; [cbn; lia|]. rewrite sum_cons. cbn [month_loop]. intros Hd. case_match.
  - destruct (IH (mon + 1) (days - len)) as (i & Hi & -> & Hr); [lia|]. exists (S i).
    change ((len :: ip) !!! S i) with (ip !!! i). cbn [take length]. rewrite sum_cons. repeat split; [lia|f_equal; lia|lia|lia].
  - exists 0%nat. cbn. repeat split; try lia. f_equal; lia.
Qed.

Lemma year_length_sum y : year_lengths (isleap y) = sum (mon_lengths (isleap y)).
Proof. by destruct (isleap y). Qed.

Lemma SECSPERDAY_eq : SECSPERDAY = 86400.
Proof. reflexivity. Qed.

Lemma SECSPERHOUR_eq : SECSPERHOUR = 3600.
Proof. reflexivity. Qed.

Lemma no_leap_seconds t sp : leapcnt sp = 0 -> leap_loop (Z.to_nat (leapcnt sp)) t (lsis sp) = (0, 0).
Proof. by intros ->. Qed.

#[local] Opaque year_search rem_loop month_loop.

Lemma timesub_steps t offset sp days rem y d mon day :
  leapcnt sp = 0 ->
  rem_loop (rem_fuel (Z.rem t SECSPERDAY + (offset - 0))) (Z.quot t SECSPERDAY) (Z.rem t SECSPERDAY + (offset - 0)) = Ok (days, rem) ->
  year_search year_fuel EPOCH_YEAR days = Ok (y, d) ->
  month_loop (mon_lengths (isleap y)) 0 d = (mon, day) ->
  timesub t offset sp = Ok (Tm (Z.rem (Z.rem rem SECSPERHOUR) SECSPERMIN + 0) (Z.quot (Z.rem rem SECSPERHOUR) SECSPERMIN)
    (Z.quot rem SECSPERHOUR) (day + 1) mon (y - TM_YEAR_BASE)
    (let wday := Z.rem (EPOCH_WDAY + days) DAYSPERWEEK in if wday <? 0 then wday + DAYSPERWEEK else wday) d 0 offset).
Proof.
  intros Hl Hr Hy Hm. unfold timesub. rewrite no_leap_seconds by done. rewrite (bind_ok _ _ _ Hr), (bind_ok _ _ _ Hy), Hm. reflexivity.
Qed.

(** In a zone without leap seconds, timesub gives the date of the calendar. *)
Lemma timesub_date (t offset : Z) (sp : state) :
  leapcnt sp = 0 -> - 2 ^ 35 <= t + offset <= 2 ^ 47 ->
  exists x, timesub t offset sp = Ok x /\ proper_date x /\ seconds x = t + offset /\ tm_gmtoff x = offset.
Proof.
  intros Hl Hr. set (s := t + offset) in *.
  destruct (year_search_epoch (s / 86400)) as (y & d & Hsearch & Hd & Hlen & Hy); [Z.to_euclidean_division_equations; lia|].
  rewrite year_length_sum in Hlen. destruct (month_loop_spec (mon_lengths (isleap y)) 0 d Hlen) as (i & Hi & Hmon & Hday).
  eexists. split.
  { eapply timesub_steps; [done| |exact Hsearch|exact Hmon]. rewrite rem_loop_ends, SECSPERDAY_eq.
    repeat f_equal; subst s; Z.to_euclidean_division_equations; lia. }
  assert (length (mon_lengths (isleap y)) = 12%nat) as H12 by (by destruct (isleap y)).
  unfold proper_date, seconds, full_year, month_start, TM_YEAR_BASE, DAYSPERWEEK, EPOCH_WDAY.
  cbn [tm_sec tm_min tm_hour tm_mday tm_mon tm_year tm_wday tm_yday tm_gmtoff]. rewrite Z.add_0_l, SECSPERHOUR_eq.
  replace (y - 1900 + 1900) with y by lia. unfold ztake, SECSPERMIN. rewrite Nat2Z.id.
  assert (0 <= s mod 86400 < 86400) by (apply Z.mod_pos_bound; lia).
  repeat split; try lia; try (Z.to_euclidean_division_equations; lia).
  replace (year_start y + d + 4) with (4 + s / 86400) by lia. case_match; Z.to_euclidean_division_equations; lia.
Qed.

(** The last day of February 2000. *)
Example leap_day : timesub 951782400 0 zero_state = Ok (Tm 0 0 0 29 1 100 2 59 0 0).
Proof. vm_compute. reflexivity. Qed.

(** ** The moments of the rules *)

(** The day of the week of a day since 1970. *)
Definition weekday (day : Z) : Z := (day + 4) mod 7.

(** One goal for each month. *)
Ltac months mon :=
  assert (mon = 1 \/ mon = 2 \/ mon = 3 \/ mon = 4 \/ mon = 5 \/ mon = 6 \/ mon = 7 \/ mon = 8 \/ mon = 9
    \/ mon = 10 \/ mon = 11 \/ mon = 12) as Hcases by lia;
  repeat (destruct Hcases as [->|Hcases]); [..|subst mon].

(** The first of a month, counted in leap years up to the one that can still
    change it. *)
Lemma month_first y mon : 1 <= mon <= 12 ->
  let yy0 := if mon <=? 2 then y - 1 else y in
  year_start y + month_start y (mon - 1)
  = 365 * (yy0 - 1970) + (leaps yy0 - leaps 1969)
    + [365; 396; 59; 90; 120; 151; 181; 212; 243; 273; 304; 334] !!! Z.to_nat (mon - 1).
Proof.
  intros Hm. pose proof (isleap_leaps y) as Hl. unfold year_start, month_start. revert Hl.
  destruct (isleap y); intros Hl; months mon; vm_compute (sum _); vm_compute (_ !!! _); vm_compute (_ <=? 2); cbn iota zeta; lia.
Qed.

(** Zeller's congruence is right. *)
Lemma first_dow_spec y mon : 2 <= y -> 1 <= mon <= 12 -> first_dow y mon = weekday (year_start y + month_start y (mon - 1)).
Proof.
  intros Hy Hm. rewrite month_first by lia. unfold first_dow, weekday, DAYSPERWEEK. set (yy0 := if mon <=? 2 then y - 1 else y).
  assert (1 <= yy0) by (subst yy0; case_match; lia). clearbody yy0. unfold leaps.
  rewrite (Z.quot_div_nonneg yy0), (Z.rem_mod_nonneg yy0) by lia.
  assert (0 <= yy0 mod 100 < 100 /\ 0 <= yy0 / 100) as [??] by (Z.to_euclidean_division_equations; lia).
  rewrite (Z.quot_div_nonneg (yy0 mod 100)), (Z.quot_div_nonneg (yy0 / 100)) by lia.
  replace (yy0 / 400) with (yy0 / 100 / 4) by (by rewrite Z.div_div).
  replace (yy0 / 4) with (25 * (yy0 / 100) + yy0 mod 100 / 4) by (Z.to_euclidean_division_equations; lia).
  replace (365 * (yy0 - 1970)) with (365 * (100 * (yy0 / 100) + yy0 mod 100 - 1970)) by (Z.to_euclidean_division_equations; lia).
  generalize dependent (yy0 / 100). intros c Hc. generalize dependent (yy0 mod 100). intros r Hr.
  months mon; vm_compute (_ !!! _); vm_compute (1969 / _); vm_compute (Z.quot (26 * _ - _) _); case_match; Z.to_euclidean_division_equations; lia.
Qed.

Lemma nth_week_spec n len : forall d, d < len ->
  exists k, 0 <= k <= Z.of_nat n /\ nth_week n len d = d + 7 * k /\ d + 7 * k < len /\ (k = Z.of_nat n \/ len <= d + 7 * k + 7).
Proof.
  induction n as [|n IH]; intros d Hd; cbn [nth_week]; [exists 0; lia|]. unfold DAYSPERWEEK in *. case_match; [exists 0; lia|].
  destruct (IH (d + 7)) as (k & Hk & -> & Hlt & Hlast); [lia|]. exists (k + 1). lia.
Qed.

Lemma fold_seconds l : forall a, fold_left (fun value len => value + len * SECSPERDAY) l a = a + 86400 * sum l.
Proof. induction l as [|x l IH]; intros a; cbn [fold_left]; [cbn; lia|]. rewrite IH, sum_cons, SECSPERDAY_eq. lia. Qed.

Lemma month_length_range b i : (i < 12)%nat -> 28 <= mon_lengths b !!! i <= 31.
Proof. intros Hi. do 12 (destruct i as [|i]; [destruct b; vm_compute; split; discriminate|]). lia. Qed.

(** What getrule guarantees of a rule ["Mm.n.d"]. *)
Definition month_rule (r : rule) : Prop :=
  r_type r = MONTH_NTH_DAY_OF_WEEK /\ 1 <= r_mon r <= 12 /\ 1 <= r_week r <= 5 /\ 0 <= r_day r <= 6.

(** The day of the month that ["Mm.n.d"] means: the [n]-th [d]-day of the
    month, or the last one where [n] is 5. *)
Definition month_rule_day (y : Z) (r : rule) (mday : Z) : Prop :=
  let len := mon_lengths (isleap y) !!! Z.to_nat (r_mon r - 1) in
  1 <= mday <= len /\
  weekday (year_start y + month_start y (r_mon r - 1) + (mday - 1)) = r_day r /\
  ((mday - 1) / 7 + 1 = r_week r \/ (r_week r = 5 /\ (mday - 1) / 7 + 1 = 4 /\ len < mday + 7)).

(** A rule takes effect on the day it means. *)
Lemma transtime_month (y : Z) (r : rule) (offset : Z) :
  2 <= y -> month_rule r ->
  exists mday, month_rule_day y r mday /\
    transtime (86400 * year_start y) y r offset
    = 86400 * (year_start y + month_start y (r_mon r - 1) + (mday - 1)) + r_time r + offset.
Proof.
  intros Hy (Htype & Hm & Hw & Hd). unfold transtime. rewrite Htype. cbn [Z.eqb JULIAN_DAY DAY_OF_YEAR MONTH_NTH_DAY_OF_WEEK Pos.eqb].
  rewrite fold_seconds, first_dow_spec, SECSPERDAY_eq by lia. fold (month_start y (r_mon r - 1)). unfold DAYSPERWEEK.
  set (first := year_start y + month_start y (r_mon r - 1)). assert (0 <= weekday first < 7) by (apply Z.mod_pos_bound; lia).
  set (d0 := if r_day r - weekday first <? 0 then r_day r - weekday first + 7 else r_day r - weekday first).
  assert (0 <= d0 < 7 /\ weekday (first + d0) = r_day r) as [Hd0 Hwd].
  { subst d0. unfold weekday in *. case_match; split; try lia; Z.to_euclidean_division_equations; lia. }
  pose proof (month_length_range (isleap y) (Z.to_nat (r_mon r - 1))) as Hlen. set (len := mon_lengths (isleap y) !!! Z.to_nat (r_mon r - 1)) in *.
  destruct (nth_week_spec (Z.to_nat (r_week r - 1)) len d0) as (k & Hk & -> & Hlt & Hlast); [lia|]. rewrite Z2Nat.id in * by lia.
  exists (d0 + 7 * k + 1). unfold month_rule_day. fold first len. split; [split; [lia|split]|lia].
  - rewrite <-Hwd. unfold weekday. Z.to_euclidean_division_equations; lia.
  - replace (d0 + 7 * k + 1 - 1) with (k * 7 + d0) by lia. rewrite Z.div_add_l, (Z.div_small d0) by lia. lia.
Qed.

Lemma transtime_julian y r offset : r_type r = JULIAN_DAY ->
  transtime (86400 * year_start y) y r offset
  = 86400 * (year_start y + r_day r - 1 + (if isleap y && (60 <=? r_day r) then 1 else 0)) + r_time r + offset.
Proof. intros Ht. unfold transtime. rewrite Ht, SECSPERDAY_eq. cbn [Z.eqb JULIAN_DAY]. case_match; lia. Qed.

Lemma transtime_day y r offset : r_type r = DAY_OF_YEAR ->
  transtime (86400 * year_start y) y r offset = 86400 * (year_start y + r_day r) + r_time r + offset.
Proof. intros Ht. unfold transtime. rewrite Ht, SECSPERDAY_eq. cbn. lia. Qed.

(** ** The seasons of a zone *)

Lemma month_start_succ y m : 0 <= m < 12 -> month_start y (m + 1) = month_start y m + mon_lengths (isleap y) !!! Z.to_nat m.
Proof.
  intros Hm. unfold month_start, ztake. replace (Z.to_nat (m + 1)) with (S (Z.to_nat m)) by lia.
  assert (Z.to_nat m < 12)%nat as Hi by lia. generalize dependent (Z.to_nat m). intros i Hi.
  do 12 (destruct i as [|i]; [destruct (isleap y); reflexivity|]). lia.
Qed.

Lemma month_start_12 y : month_start y 12 = sum (mon_lengths (isleap y)).
Proof. unfold month_start. by destruct (isleap y). Qed.

Lemma month_start_mono y (n : nat) : forall m, 0 <= m -> m + Z.of_nat n <= 12 ->
  month_start y m + 28 * Z.of_nat n <= month_start y (m + Z.of_nat n).
Proof.
  induction n as [|n IH]; intros m Hm Hn; [rewrite !Z.add_0_r; lia|].
  replace (m + Z.of_nat (S n)) with (m + Z.of_nat n + 1) by lia. rewrite month_start_succ by lia.
  pose proof (IH m ltac:(lia) ltac:(lia)). pose proof (month_length_range (isleap y) (Z.to_nat (m + Z.of_nat n)) ltac:(lia)). lia.
Qed.

Lemma month_start_le y a b : 0 <= a <= b -> b <= 12 -> month_start y a + 28 * (b - a) <= month_start y b.
Proof. intros ??. pose proof (month_start_mono y (Z.to_nat (b - a)) a ltac:(lia)) as Hm. rewrite Z2Nat.id in Hm by lia. replace (a + (b - a)) with b in Hm by lia. lia. Qed.

(** A rule with a month takes effect in its month, give or take the time and
    the offset. *)
Lemma transtime_range y r offset : 2 <= y -> month_rule r -> 0 <= r_time r < 604800 -> - 604800 < offset < 604800 ->
  let x := transtime (86400 * year_start y) y r offset in
  86400 * (year_start y + month_start y (r_mon r - 1) - 7) <= x < 86400 * (year_start y + month_start y (r_mon r) + 14).
Proof.
  intros Hy Hr Ht Ho. destruct (transtime_month y r offset Hy Hr) as (mday & (Hd & _) & ->). destruct Hr as (_ & Hm & _).
  pose proof (month_start_succ y (r_mon r - 1) ltac:(lia)) as Hs. replace (r_mon r - 1 + 1) with (r_mon r) in Hs by lia. cbn zeta. lia.
Qed.

(** The rules of a zone whose summer time begins and ends within the year. *)
Record season := Season { se_std : Z; se_dst : Z; se_start : rule; se_end : rule }.

Definition season_ok (z : season) : Prop :=
  month_rule (se_start z) /\ month_rule (se_end z) /\
  0 <= r_time (se_start z) < 604800 /\ 0 <= r_time (se_end z) < 604800 /\
  - 604800 < se_std z < 604800 /\ - 604800 < se_dst z < 604800 /\
  2 <= r_mon (se_start z) <= 11 /\ 2 <= r_mon (se_end z) <= 11 /\
  (r_mon (se_start z) + 2 <= r_mon (se_end z) \/ r_mon (se_end z) + 2 <= r_mon (se_start z)).

(** When summer time begins and ends in a year. *)
Definition start_of (z : season) (y : Z) : Z := transtime (86400 * year_start y) y (se_start z) (se_std z).
Definition end_of (z : season) (y : Z) : Z := transtime (86400 * year_start y) y (se_end z) (se_dst z).

(** Whether it is summer time at [t], when it begins at [s] and ends at [e] of
    the year: between the two moments in the north, outside of them in the
    south. *)
Definition summer_between (z : season) (s e t : Z) : bool :=
  if r_mon (se_start z) <? r_mon (se_end z) then (s <=? t) && (t <? e) else (s <=? t) || (t <? e).

Definition summer (z : season) (y t : Z) : bool := summer_between z (start_of z y) (end_of z y) t.

(** [s] is the moment of the rule in the year: its time on the day it means,
    moved by the offset from local to universal time. *)
Definition moment (y : Z) (r : rule) (offset s : Z) : Prop :=
  exists mday, month_rule_day y r mday /\
    s = 86400 * (year_start y + month_start y (r_mon r - 1) + (mday - 1)) + r_time r + offset.

Lemma month_rule_day_unique y r d d' : 1 <= r_week r <= 5 -> month_rule_day y r d -> month_rule_day y r d' -> d = d'.
Proof.
  intros Hw (Hd & Hwd & Hk) (Hd' & Hwd' & Hk'). rewrite <-Hwd' in Hwd. unfold weekday in Hwd.
  generalize dependent (year_start y + month_start y (r_mon r - 1)). intros f Hf. Z.to_euclidean_division_equations; lia.
Qed.

Lemma moment_transtime y r offset s : 2 <= y -> month_rule r -> moment y r offset s -> s = transtime (86400 * year_start y) y r offset.
Proof.
  intros Hy Hr (d & Hd & ->). destruct (transtime_month y r offset Hy Hr) as (d' & Hd' & ->).
  rewrite (month_rule_day_unique y r d d'); [done|apply Hr|done|done].
Qed.

(** The year of a moment of universal time. *)
Definition in_year (y t : Z) : Prop := 86400 * year_start y <= t < 86400 * year_start (y + 1).

Lemma moments_in_year z y : 2 <= y -> season_ok z -> in_year y (start_of z y) /\ in_year y (end_of z y).
Proof.
  intros Hy (Hs & He & Hts & Hte & Hstd & Hdst & Hms & Hme & _). unfold in_year, start_of, end_of. rewrite year_start_succ, year_length_sum.
  rewrite <-month_start_12.
  pose proof (transtime_range y _ _ Hy Hs Hts Hstd) as H1. pose proof (transtime_range y _ _ Hy He Hte Hdst) as H2. cbn zeta in H1, H2.
  pose proof (month_start_le y 0 (r_mon (se_start z) - 1) ltac:(lia) ltac:(lia)). pose proof (month_start_le y 0 (r_mon (se_end z) - 1) ltac:(lia) ltac:(lia)).
  pose proof (month_start_le y (r_mon (se_start z)) 12 ltac:(lia) ltac:(lia)). pose proof (month_start_le y (r_mon (se_end z)) 12 ltac:(lia) ltac:(lia)).
  change (month_start y 0) with 0 in *. lia.
Qed.

Lemma moments_order z y : 2 <= y -> season_ok z -> (r_mon (se_start z) <? r_mon (se_end z)) = (start_of z y <? end_of z y) /\ start_of z y <> end_of z y.
Proof.
  intros Hy (Hs & He & Hts & Hte & Hstd & Hdst & Hms & Hme & Hapart). unfold start_of, end_of.
  pose proof (transtime_range y _ _ Hy Hs Hts Hstd) as H1. pose proof (transtime_range y _ _ Hy He Hte Hdst) as H2. cbn zeta in H1, H2.
  destruct Hapart.
  - pose proof (month_start_le y (r_mon (se_start z)) (r_mon (se_end z) - 1) ltac:(lia) ltac:(lia)). lia.
  - pose proof (month_start_le y (r_mon (se_end z)) (r_mon (se_start z) - 1) ltac:(lia) ltac:(lia)). lia.
Qed.

(** The transitions of [n] years from [y] on. *)
Definition table (z : season) (n : nat) (y : Z) : list (Z * Z) :=
  year_loop n y (86400 * year_start y) (se_start z) (se_end z) (se_std z) (se_dst z).

Definition pair_of (z : season) (y : Z) : list (Z * Z) :=
  if end_of z y <? start_of z y then [(end_of z y, 1); (start_of z y, 0)] else [(start_of z y, 0); (end_of z y, 1)].

Lemma table_succ z n y : table z (S n) y = pair_of z y ++ table z n (y + 1).
Proof.
  unfold table. cbn [year_loop]. rewrite SECSPERDAY_eq. replace (86400 * year_start y + year_lengths (isleap y) * 86400) with (86400 * year_start (y + 1))
    by (rewrite year_start_succ; lia). reflexivity.
Qed.

Lemma table_app z a : forall b y, table z (a + b) y = table z a y ++ table z b (y + Z.of_nat a).
Proof.
  induction a as [|a IH]; intros b y; [cbn; by rewrite Z.add_0_r|]. cbn [Nat.add]. rewrite !table_succ, IH, <-app_assoc.
  do 3 f_equal. lia.
Qed.

Lemma table_length z n : forall y, length (table z n y) = (2 * n)%nat.
Proof. induction n as [|n IH]; intros y; [done|]. rewrite table_succ, length_app, IH. unfold pair_of. case_match; cbn [length]; lia. Qed.

Lemma year_start_mono a b : a <= b -> year_start a <= year_start b.
Proof. intros ?. pose proof (year_start_diff a b). lia. Qed.

Lemma table_before z n : forall y, 2 <= y -> season_ok z -> Forall (fun w => w.1 < 86400 * year_start (y + Z.of_nat n)) (table z n y).
Proof.
  induction n as [|n IH]; intros y Hy Hz; [constructor|]. rewrite table_succ. pose proof (moments_in_year z y Hy Hz) as [Hs He]. unfold in_year in *.
  pose proof (year_start_mono (y + 1) (y + Z.of_nat (S n)) ltac:(lia)). apply Forall_app. split.
  - unfold pair_of. case_match; repeat constructor; cbn [fst]; lia.
  - replace (y + Z.of_nat (S n)) with (y + 1 + Z.of_nat n) by lia. apply IH; [lia|done].
Qed.

Lemma table_after z n y t : 2 <= y -> season_ok z -> t < 86400 * year_start y -> match table z n y with w :: _ => t < w.1 | [] => True end.
Proof.
  intros Hy Hz Ht. destruct n as [|n]; [done|]. rewrite table_succ. pose proof (moments_in_year z y Hy Hz) as [Hs He]. unfold in_year in *.
  unfold pair_of. destruct (end_of z y <? start_of z y); cbn [fst app]; lia.
Qed.

(** The search finds the last transition that is not behind [t]. *)
Lemma find_transition_app pre post t : Forall (fun x => x <= t) pre -> match post with x :: _ => t < x | [] => True end ->
  forall i, find_transition (pre ++ post) i t = i + zlen pre.
Proof.
  intros Hpre Hpost. induction Hpre as [|x pre Hx _ IH]; intros i; cbn [app find_transition].
  - rewrite Z.add_0_r. destruct post as [|x post]; [done|]. cbn [find_transition]. by replace (t <? x) with true by lia.
  - replace (t <? x) with false by lia. rewrite IH, zlen_cons. lia.
Qed.

Lemma local_type_last sp w pre a ty post t :
  timecnt sp = zlen w -> ztake (zlen w) (ats sp) = w.*1 -> ztake (zlen w) (types sp) = w.*2 ->
  w = pre ++ (a, ty) :: post ->
  Forall (fun x => x.1 <= t) pre -> a <= t -> match post with x :: _ => t < x.1 | [] => True end ->
  local_type t sp = ttis sp !!! Z.to_nat ty.
Proof.
  intros Hn Hats Htypes Hw Hpre Ha Hpost. unfold local_type. rewrite Hn, Hats. pose proof (zlen_nonneg w).
  assert (zlen w = zlen pre + 1 + zlen post) as Hlen by (rewrite Hw, zlen_app, zlen_cons; lia). pose proof (zlen_nonneg pre). pose proof (zlen_nonneg post).
  assert (exists x rest, w.*1 = x :: rest ++ post.*1 /\ x <= t /\ Forall (fun x => x <= t) rest /\ zlen rest = zlen pre) as (x & rest & Hx & Hxt & Hrest & Hlr).
  { rewrite Hw, fmap_app. destruct Hpre as [|p pre Hp Hpre]; [by exists a, []|]. exists p.1, (pre.*1 ++ [a]). repeat split; [|done| |].
    - cbn. by rewrite <-app_assoc.
    - apply Forall_app. split; [by apply Forall_fmap|by constructor].
    - unfold zlen. rewrite length_app, length_fmap. cbn. lia. }
  assert (ats sp !!! 0%nat = x) as ->.
  { assert (w.*1 !! 0%nat = Some x) as Hfst by (by rewrite Hx). rewrite <-Hats in Hfst. unfold ztake in Hfst. apply lookup_take_Some in Hfst as [Hfst _].
    by apply list_lookup_total_correct. }
  replace ((zlen w =? 0) || (t <? x)) with false by lia. rewrite Hx. change (zdrop 1 (x :: rest ++ post.*1)) with (rest ++ post.*1).
  rewrite find_transition_app; [|done|by destruct post]. do 2 f_equal. rewrite Hlr. replace (1 + zlen pre - 1) with (zlen pre) by lia.
  apply list_lookup_total_correct. assert (w.*2 !! Z.to_nat (zlen pre) = Some ty) as Hty.
  { rewrite Hw, fmap_app. unfold zlen. rewrite Nat2Z.id, lookup_app_r, length_fmap, Nat.sub_diag by (rewrite length_fmap; lia). done. }
  rewrite <-Htypes in Hty. unfold ztake in Hty. by apply lookup_take_Some in Hty as [Hty _].
Qed.

Lemma table_split z y : 1971 <= y <= 2037 ->
  table z 68 1970 = table z (Z.to_nat (y - 1971)) 1970 ++ pair_of z (y - 1) ++ pair_of z y ++ table z (Z.to_nat (2037 - y)) (y + 1).
Proof.
  intros Hy. replace 68%nat with (Z.to_nat (y - 1971) + S (S (Z.to_nat (2037 - y))))%nat by lia.
  rewrite table_app, !table_succ. rewrite Z2Nat.id by lia. replace (1970 + (y - 1971)) with (y - 1) by lia. by replace (y - 1 + 1) with y by lia.
Qed.

(** Among the transitions of the year and of the year before. *)
Lemma local_type_pair sp w pre a1 a2 b1 b2 i j post t :
  timecnt sp = zlen w -> ztake (zlen w) (ats sp) = w.*1 -> ztake (zlen w) (types sp) = w.*2 ->
  w = pre ++ [(a1, i); (a2, j)] ++ [(b1, i); (b2, j)] ++ post ->
  Forall (fun x => x.1 <= t) pre -> a1 <= t -> a2 <= t -> b1 < b2 -> match post with x :: _ => t < x.1 | [] => True end ->
  local_type t sp = ttis sp !!! Z.to_nat (if (b1 <=? t) && (t <? b2) then i else j).
Proof.
  intros Hn Hats Htypes Hw Hpre Ha1 Ha2 Hb Hpost. destruct (Z.leb_spec b1 t) as [H1|H1]; [destruct (Z.ltb_spec t b2) as [H2|H2]|]; cbn [andb].
  - apply (local_type_last sp w (pre ++ [(a1, i); (a2, j)]) b1 i ((b2, j) :: post)); try done; [by rewrite Hw, <-app_assoc|].
    apply Forall_app. split; [done|]. by repeat constructor.
  - apply (local_type_last sp w (pre ++ [(a1, i); (a2, j); (b1, i)]) b2 j post); try done; [by rewrite Hw, <-app_assoc|].
    apply Forall_app. split; [done|]. by repeat constructor.
  - apply (local_type_last sp w (pre ++ [(a1, i)]) a2 j ((b1, i) :: (b2, j) :: post)); try done; [by rewrite Hw, <-app_assoc|].
    apply Forall_app. split; [done|]. by repeat constructor.
Qed.

Lemma season_type z y t sp :
  season_ok z -> 1971 <= y <= 2037 -> in_year y t ->
  timecnt sp = 136 -> ztake 136 (ats sp) = (table z 68 1970).*1 -> ztake 136 (types sp) = (table z 68 1970).*2 ->
  local_type t sp = ttis sp !!! (if summer z y t then 0 else 1)%nat.
Proof.
  intros Hz Hy Ht Hn Hats Htypes. assert (zlen (table z 68 1970) = 136) as Hw by (unfold zlen; by rewrite table_length).
  pose proof (moments_in_year z (y - 1) ltac:(lia) Hz) as [Hs' He']. pose proof (moments_in_year z y ltac:(lia) Hz) as [Hs He].
  pose proof (moments_order z (y - 1) ltac:(lia) Hz) as [Ho' Hne']. pose proof (moments_order z y ltac:(lia) Hz) as [Ho Hne].
  pose proof (table_before z (Z.to_nat (y - 1971)) 1970 ltac:(lia) Hz) as Hbefore. rewrite Z2Nat.id in Hbefore by lia.
  pose proof (table_after z (Z.to_nat (2037 - y)) (y + 1) t ltac:(lia) Hz) as Hafter. unfold in_year in *.
  replace (1970 + (y - 1971)) with (y - 1) in Hbefore by lia. replace (y - 1 + 1) with y in * by lia. specialize (Hafter ltac:(lia)).
  pose proof (year_start_mono (y - 1) y ltac:(lia)).
  assert (Forall (fun x => x.1 <= t) (table z (Z.to_nat (y - 1971)) 1970)) as Hpre by (eapply Forall_impl; [exact Hbefore|]; intros ?; cbn beta; lia).
  pose proof (table_split z y Hy) as Hsplit. unfold pair_of in Hsplit. unfold summer, summer_between. destruct (r_mon (se_start z) <? r_mon (se_end z)).
  - replace (end_of z (y - 1) <? start_of z (y - 1)) with false in Hsplit by lia. replace (end_of z y <? start_of z y) with false in Hsplit by lia.
    erewrite local_type_pair with (w := table z 68 1970); [|rewrite ?Hw; done..|exact Hsplit|done|lia|lia|lia|done]. by destruct (_ && _).
  - replace (end_of z (y - 1) <? start_of z (y - 1)) with true in Hsplit by lia. replace (end_of z y <? start_of z y) with true in Hsplit by lia.
    erewrite local_type_pair with (w := table z 68 1970); [|rewrite ?Hw; done..|exact Hsplit|done|lia|lia|lia|done].
    replace ((start_of z y <=? t) || (t <? end_of z y)) with (negb ((end_of z y <=? t) && (t <? start_of z y))) by lia. by destruct (_ && _).
Qed.

(** ** Zone descriptions as text *)

(** A time as ["h:m:s"], an offset with its sign, a rule and a zone. *)
Definition hms (n : Z) : bytes := Event.dec (n / 3600) ++ [58] ++ Event.dec (n / 60 mod 60) ++ [58] ++ Event.dec (n mod 60).
Definition offset_text (o : Z) : bytes := (if o <? 0 then [45] else []) ++ hms (Z.abs o).
Definition rule_text (r : rule) : bytes :=
  [77] ++ Event.dec (r_mon r) ++ [46] ++ Event.dec (r_week r) ++ [46] ++ Event.dec (r_day r) ++ [47] ++ hms (r_time r).
Definition zone_text (std dst : bytes) (z : season) : bytes :=
  std ++ offset_text (se_std z) ++ dst ++ offset_text (se_dst z) ++ [44] ++ rule_text (se_start z) ++ [44] ++ rule_text (se_end z).

Definition name_char (c : Z) : Prop := isdigit c = false /\ c <> 44 /\ c <> 45 /\ c <> 43.
Definition zone_name (s : bytes) : Prop := 3 <= zlen s <= 255 /\ Forall name_char s.

Ltac parse := cbn [mbind option_bind deref default from_option id head app Z.eqb Pos.eqb drop negb]; rewrite ?drop_0.

(** What may follow a number. *)
Definition no_digit (s : bytes) : Prop := isdigit (deref s) = false.

Lemma getnum_loop_digits s rest max : Forall (fun d => isdigit d = true) s -> no_digit rest -> forall num, 0 <= num ->
  num <= strtol_digits s num /\ (strtol_digits s num <= max -> getnum_loop (s ++ rest) num max = Some (strtol_digits s num, rest)).
Proof.
  intros Hs Hrest. induction Hs as [|c s Hc Hs IH]; intros num Hn; cbn [strtol_digits app].
  - split; [lia|]. intros _. destruct rest as [|c rest]; [done|]. cbn [getnum_loop]. unfold no_digit in Hrest. cbn in Hrest. by rewrite Hrest.
  - rewrite Hc. cbn [getnum_loop]. rewrite Hc. assert (48 <= c <= 57) by (unfold isdigit in Hc; lia).
    destruct (IH (num * 10 + (c - 48)) ltac:(lia)) as [Hle Hget]. split; [lia|]. intros Hmax.
    replace (max <? num * 10 + (c - 48)) with false by lia. by apply Hget.
Qed.

Lemma deref_digits s t : s <> [] -> Forall (fun d => isdigit d = true) s -> isdigit (deref (s ++ t)) = true.
Proof. intros Hne Hs. destruct Hs as [|c s Hc Hs]; [done|]. exact Hc. Qed.

Lemma dec_first n t : 0 <= n -> isdigit (deref (Event.dec n ++ t)) = true.
Proof. intros ?. apply deref_digits; [apply Event.dec_nonempty|by apply Event.dec_isdigit]. Qed.

Lemma getnum_dec n rest min max : 0 <= n -> min <= n <= max -> no_digit rest -> getnum (Event.dec n ++ rest) min max = Some (n, rest).
Proof.
  intros Hn Hr Hrest. unfold getnum. rewrite dec_first by done. cbn [negb].
  destruct (getnum_loop_digits (Event.dec n) rest max (Event.dec_isdigit n Hn) Hrest 0 ltac:(lia)) as [_ ->]; rewrite Event.dec_value by done; [|lia].
  cbn. by replace (n <? min) with false by lia.
Qed.

Lemma getsecs_hms n rest : 0 <= n < 604800 -> no_digit rest -> getsecs (hms n ++ rest) = Some (n, rest).
Proof.
  intros Hn Hrest. unfold getsecs, hms. rewrite <-!app_assoc. unfold HOURSPERDAY, DAYSPERWEEK, MINSPERHOUR, SECSPERMIN. rewrite SECSPERHOUR_eq.
  rewrite getnum_dec by (try done; Z.to_euclidean_division_equations; lia). parse.
  rewrite getnum_dec by (try done; Z.to_euclidean_division_equations; lia). parse.
  rewrite getnum_dec by (try done; Z.to_euclidean_division_equations; lia). parse. do 2 f_equal.
  Z.to_euclidean_division_equations; lia.
Qed.

Lemma getoffset_text o rest : - 604800 < o < 604800 -> no_digit rest -> getoffset (offset_text o ++ rest) = Some (o, rest).
Proof.
  intros Ho Hrest. unfold getoffset, offset_text. rewrite <-app_assoc. destruct (Z.ltb_spec o 0).
  - parse. rewrite getsecs_hms by (done || lia). parse. do 2 f_equal. lia.
  - cbn [app]. assert (isdigit (deref (hms (Z.abs o) ++ rest)) = true) as Hd.
    { unfold hms. rewrite <-!app_assoc. apply dec_first. Z.to_euclidean_division_equations; lia. }
    unfold isdigit in Hd. replace (deref _ =? 45) with false by lia. replace (deref _ =? 43) with false by lia.
    rewrite getsecs_hms by (done || lia). parse. do 2 f_equal. lia.
Qed.

Lemma getrule_text r rest : month_rule r -> 0 <= r_time r < 604800 -> no_digit rest -> getrule (rule_text r ++ rest) = Some (r, rest).
Proof.
  intros (Ht & Hm & Hw & Hd) Htime Hrest. unfold getrule, getdate, rule_text. rewrite <-!app_assoc. cbn [app].
  unfold DAYSPERNYEAR, MONSPERYEAR, DAYSPERWEEK. parse.
  rewrite getnum_dec by (done || lia). parse.
  rewrite getnum_dec by (done || lia). parse.
  rewrite getnum_dec by (done || lia). parse.
  rewrite getsecs_hms by done. cbn. destruct r. cbn in *. by subst.
Qed.

Lemma getzname_app s rest : Forall name_char s -> (isdigit (deref rest) = true \/ deref rest = 45 \/ deref rest = 44) -> getzname (s ++ rest) = rest.
Proof.
  intros Hs Hrest. induction Hs as [|c s (Hd & H1 & H2 & H3) Hs IH]; cbn [app getzname].
  - destruct rest as [|c rest]; [done|]. cbn in Hrest. cbn [getzname].
    replace (negb (isdigit c) && negb (c =? 44) && negb (c =? 45) && negb (c =? 43)) with false; [done|].
    destruct Hrest as [->|[->| ->]]; done.
  - rewrite Hd. replace (negb false && negb (c =? 44) && negb (c =? 45) && negb (c =? 43)) with true by lia. exact IH.
Qed.

Lemma zone_name_digits s t : zone_name s -> no_digit (s ++ t).
Proof. intros [Hl Hs]. destruct Hs as [|c s [Hd _] _]; [unfold zlen in Hl; cbn [length] in Hl; lia|]. exact Hd. Qed.

Lemma offset_text_first o t : isdigit (deref (offset_text o ++ t)) = true \/ deref (offset_text o ++ t) = 45 \/ deref (offset_text o ++ t) = 44.
Proof.
  unfold offset_text, hms. rewrite <-!app_assoc. destruct (o <? 0); [by right; left|]. left. apply dec_first. Z.to_euclidean_division_equations; lia.
Qed.

(** The name of a zone and its offset. *)
Lemma std_part_text std o rest : zone_name std -> - 604800 < o < 604800 -> no_digit rest ->
  std_part (std ++ offset_text o ++ rest) false = Some (zlen std, o, rest).
Proof.
  intros [Hl Hs] Ho Hrest. unfold std_part. pose proof (offset_text_first o rest) as Hf. rewrite getzname_app, !zlen_app by done.
  replace (zlen std + (zlen (offset_text o) + zlen rest) - (zlen (offset_text o) + zlen rest)) with (zlen std) by lia.
  replace (zlen std <? 3) with false by lia. destruct (offset_text o ++ rest) as [|c l] eqn:E; [by destruct Hf as [?|[?|?]]|]. rewrite <-E.
  by rewrite getoffset_text.
Qed.

Lemma dst_part_text dst stdoffset o rest : zone_name dst -> - 604800 < o < 604800 -> no_digit rest ->
  dst_part (dst ++ offset_text o ++ rest) stdoffset = Some (zlen dst, o, rest).
Proof.
  intros [Hl Hs] Ho Hrest. unfold dst_part. pose proof (offset_text_first o rest) as Hf. rewrite getzname_app, !zlen_app by done.
  replace (zlen dst + (zlen (offset_text o) + zlen rest) - (zlen (offset_text o) + zlen rest)) with (zlen dst) by lia.
  replace (zlen dst <? 3) with false by lia. replace (negb _ && negb _ && negb _) with true; [by rewrite getoffset_text|].
  unfold offset_text, hms in Hf |- *. rewrite <-!app_assoc in Hf |- *. destruct (o <? 0); [done|].
  pose proof (dec_first (Z.abs o / 3600) ([58] ++ Event.dec (Z.abs o / 60 mod 60) ++ [58] ++ Event.dec (Z.abs o mod 60) ++ rest)) as Hd.
  cbn [app] in *. unfold isdigit in Hd. specialize (Hd ltac:(Z.to_euclidean_division_equations; lia)). lia.
Qed.

Lemma rules_part_text z : season_ok z -> rules_part (rule_text (se_start z) ++ [44] ++ rule_text (se_end z)) = Some (se_start z, se_end z).
Proof.
  intros (Hs & He & Hts & Hte & _). unfold rules_part. rewrite getrule_text by done. cbn [mbind option_bind]. cbn [deref head default app Z.eqb Pos.eqb negb drop].
  replace (rule_text (se_end z)) with (rule_text (se_end z) ++ []) by apply app_nil_r. rewrite drop_0, getrule_text by done. done.
Qed.

(** The tables after a description with rules: those of the two names and the
    transitions of 68 years. *)
Definition zone_tables (std dst : bytes) (z : season) : state :=
  (store_names (zone_text std dst z) (zlen std) (zdrop (zlen std + zlen (offset_text (se_std z))) (zone_text std dst z)) (zlen dst)
     (fill_rules (se_start z) (se_end z) (zlen std) (se_std z) (se_dst z) (set_counts 0 0 0 zero_state)).1).1.

Lemma tzparse_zone std dst z : zone_name std -> zone_name dst -> season_ok z ->
  tzparse (zone_text std dst z) zero_state false = (zone_tables std dst z, 0).
Proof.
  intros Hstd Hdst Hz. pose proof Hz as (_ & _ & _ & _ & Ho1 & Ho2 & _). unfold tzparse, zone_text.
  rewrite std_part_text by (try done; by apply zone_name_digits).
  set (rest := dst ++ offset_text (se_dst z) ++ [44] ++ rule_text (se_start z) ++ [44] ++ rule_text (se_end z)).
  assert (rest <> []) as Hne by (destruct Hdst as [Hl _]; subst rest; destruct dst; [unfold zlen in Hl; cbn [length] in Hl; lia|done]).
  assert (zdrop (zlen std + zlen (offset_text (se_std z))) (zone_text std dst z) = rest) as Hdrop.
  { unfold zone_text. rewrite app_assoc. rewrite <-zlen_app. apply zdrop_app_exact. }
  destruct rest as [|c l] eqn:E; [done|]. rewrite <-E. unfold rest. rewrite dst_part_text by done.
  cbn [deref head default app Z.eqb Pos.eqb orb drop]. rewrite drop_0, rules_part_text by done.
  destruct (fill_rules _ _ _ _ _ _) as [sp ok] eqn:Ef. assert (ok = true) as ->. { change ok with (sp, ok).2. by rewrite <-Ef. }
  unfold zone_tables. change (set_counts 0 (timecnt zero_state) (typecnt zero_state) zero_state) with (set_counts 0 0 0 zero_state) in Ef.
  rewrite Ef. cbn [fst]. cbn iota. rewrite Hdrop, <-E. unfold rest, store_names. destruct Hstd as [Hl1 _], Hdst as [Hl2 _].
  replace (CHARS_DEF <? _) with false; [done|]. unfold CHARS_DEF, TZ_MAX_CHARS, MY_TZNAME_MAX. case_match; lia.
Qed.

Lemma store_names_tables a n b m sp : let sp' := (store_names a n b m sp).1 in
  leapcnt sp' = leapcnt sp /\ timecnt sp' = timecnt sp /\ ats sp' = ats sp /\ types sp' = types sp /\ ttis sp' = ttis sp.
Proof. unfold store_names. by destruct (CHARS_DEF <? _). Qed.

Lemma zone_tables_fields std dst z : let sp := zone_tables std dst z in
  leapcnt sp = 0 /\ timecnt sp = 136 /\ ztake 136 (ats sp) = (table z 68 1970).*1 /\ ztake 136 (types sp) = (table z 68 1970).*2 /\
  ttis sp !!! 0%nat = Ttinfo (- se_dst z) 1 (zlen std + 1) 0 0 /\ ttis sp !!! 1%nat = Ttinfo (- se_std z) 0 0 0 0.
Proof.
  cbn zeta. unfold zone_tables. set (sp := (fill_rules _ _ _ _ _ _).1).
  destruct (store_names_tables (zone_text std dst z) (zlen std) (zdrop (zlen std + zlen (offset_text (se_std z))) (zone_text std dst z)) (zlen dst) sp)
    as (-> & -> & -> & -> & ->).
  assert (zlen (table z 68 1970).*1 = 136 /\ zlen (table z 68 1970).*2 = 136) as [H1 H2].
  { unfold zlen. rewrite !length_fmap. by rewrite table_length. }
  assert (ats sp = blit 0 (table z 68 1970).*1 (replicate (Z.to_nat TZ_MAX_TIMES) 0)) as -> by reflexivity.
  assert (types sp = blit 0 (table z 68 1970).*2 (replicate (Z.to_nat TZ_MAX_TIMES) 0)) as -> by reflexivity.
  repeat split; [rewrite <-H1|rewrite <-H2]; apply ztake_blit_0.
Qed.

Lemma zone_time std dst z y t :
  zone_name std -> zone_name dst -> season_ok z -> 1971 <= y <= 2037 -> in_year y t ->
  let offset := if summer z y t then - se_dst z else - se_std z in
  exists x, tztime t (Some (zone_text std dst z)) = Ok x /\ proper_date x /\
    seconds x = t + offset /\ tm_gmtoff x = offset /\ tm_isdst x = (if summer z y t then 1 else 0).
Proof.
  intros Hstd Hdst Hz Hy Ht. cbn zeta. unfold tztime. cbn [default from_option id]. rewrite tzparse_zone by done. cbn [fst].
  destruct (zone_tables_fields std dst z) as (Hl & Hn & Hats & Htypes & H0 & H1).
  rewrite (season_type z y t _ Hz Hy Ht Hn Hats Htypes).
  pose proof Hz as (_ & _ & _ & _ & Ho1 & Ho2 & _).
  pose proof (year_start_mono 1970 y ltac:(lia)) as Hlo. pose proof (year_start_mono (y + 1) 2038 ltac:(lia)) as Hhi.
  change (year_start 1970) with 0 in Hlo. change (year_start 2038) with 24837 in Hhi. unfold in_year in Ht.
  assert (exists x, timesub t (if summer z y t then - se_dst z else - se_std z) (zone_tables std dst z) = Ok x /\ proper_date x /\
    seconds x = t + (if summer z y t then - se_dst z else - se_std z) /\ tm_gmtoff x = (if summer z y t then - se_dst z else - se_std z))
    as (x & Hx & Hp & Hsec & Hg) by (apply timesub_date; [done|case_match; lia]).
  exists (set_isdst (if summer z y t then 1 else 0) x). destruct (summer z y t); [rewrite H0|rewrite H1]; cbn [tt_gmtoff tt_isdst]; by rewrite (bind_ok _ _ _ Hx).
Qed.

(** C14: The local time of a zone description.  Take a zone with standard and
    summer time, written out as POSIX does, whose rules are of the form month,
    week, day of the week, with months from February to November, two months or
    more apart.  For any moment of the years 1971 to 2037, tztime ends with a
    proper date of the calendar that is the moment moved by the offset in force:
    that of summer time between the two transitions of the year in the north,
    and outside of them in the south, where the transition of a rule falls on
    the [n]-th such day of the week in its month, or the last for week 5. *)
Theorem zone_local_time (std dst : bytes) (z : season) (y t s e : Z) :
  zone_name std -> zone_name dst -> season_ok z -> 1971 <= y <= 2037 -> in_year y t ->
  moment y (se_start z) (se_std z) s -> moment y (se_end z) (se_dst z) e ->
  let dst_now := summer_between z s e t in
  let offset := if dst_now then - se_dst z else - se_std z in
  exists x, tztime t (Some (zone_text std dst z)) = Ok x /\ proper_date x /\
    seconds x = t + offset /\ tm_gmtoff x = offset /\ tm_isdst x = (if dst_now then 1 else 0).
Proof.
  intros Hstd Hdst Hz Hy Ht Hs He. pose proof Hz as (Hrs & Hre & _).
  apply moment_transtime in Hs as ->; [|lia|done]. apply moment_transtime in He as ->; [|lia|done]. by apply zone_time.
Qed.

(** New Zealand has summer time over the turn of the year. *)
Definition sample_rule (mon week day hour : Z) : rule := Rule MONTH_NTH_DAY_OF_WEEK day week mon (3600 * hour).
Definition new_zealand : season := Season (-43200) (-46800) (sample_rule 9 5 0 2) (sample_rule 4 1 0 3).

Lemma zone_local_time_witness :
  zone_text (str "NZST") (str "NZDT") new_zealand = str "NZST-12:0:0NZDT-13:0:0,M9.5.0/2:0:0,M4.1.0/3:0:0" /\
  exists x, tztime 1420070400 (Some (zone_text (str "NZST") (str "NZDT") new_zealand)) = Ok x /\ proper_date x /\
    seconds x = 1420070400 + 46800 /\ tm_gmtoff x = 46800 /\ tm_isdst x = 1.
Proof.
  split; [vm_compute; reflexivity|].
  apply (zone_local_time (str "NZST") (str "NZDT") new_zealand 2015 1420070400 1443276000 1428156000).
  - split; [vm_compute; split; discriminate|]. repeat constructor; vm_compute; discriminate.
  - split; [vm_compute; split; discriminate|]. repeat constructor; vm_compute; discriminate.
  - unfold season_ok, month_rule, new_zealand, sample_rule. cbn. lia.
  - lia.
  - split; vm_compute; [discriminate|reflexivity].
  - exists 27. split; [|vm_compute; reflexivity]. split; [vm_compute; split; discriminate|]. split; [vm_compute; reflexivity|].
    right. vm_compute. done.
  - exists 5. split; [|vm_compute; reflexivity]. split; [vm_compute; split; discriminate|]. split; [vm_compute; reflexivity|].
    left. vm_compute. done.
Defined.

(** ** Flaws *)

(** From 2038 on the season of the last transition stays: New York is in
    winter time in July 2038, Sydney in summer time in June. *)
Theorem no_season_after_2037 :
  tm_isdst <$> tztime 2162980800 (Some (str "EST5EDT4,M3.2.0,M11.1.0")) = Ok 0
  /\ tm_isdst <$> tztime 2162980800 (Some (str "AEST-10AEDT-11,M10.1.0,M4.1.0/3")) = Ok 1.
Proof. vm_compute. done. Qed.

(** A description without rules never has summer time, although TZDEFRULESTRING
    has rules for it, and one that cannot be read means universal time. *)
Theorem zone_without_rules :
  tm_isdst <$> tztime 1435000000 (Some (str "EST5EDT")) = Ok 0
  /\ tztime 1435000000 (Some (str "CET")) = tztime 1435000000 (Some gmt)
  /\ tztime 1435000000 (Some (str "EST5EDT4,M3.2.0,M13.1.0")) = tztime 1435000000 (Some gmt).
Proof. vm_compute. done. Qed.

End TimeZone.
