(* ===== verification/TimeCond.v ===== *)
(** * Dates and times as conditions

    The character tables and the comparisons of switch_utils.c (day of week,
    number, time of day, date and time), its splitting of dates, times and SIP
    users, and switch_xml_std_datetime_check of switch_xml.c, which decides
    with them whether a condition of a dialplan holds now.

    A C string is the bytes before its NUL; where the code keeps a pointer into
    the string and may move it behind the end, the pointer is an offset and a
    read outside of the string is a [Fault].  Memory that is read before it was
    written is an argument. *)

From S2P Require Import Prelude Outcome CString Event HashTable CoreHash Acl TimeZone.
Import CString CoreHash TimeZone.

Module TimeCond.

(** ** Character tables *)

Definition SWITCH_CTYPE_NUM_CHARS : Z := 256.

(** The first entry is that of EOF. *)
Definition switch_C_toupper : list Z :=
  [(-1); 0; 1; 2; 3; 4; 5; 6; 7; 8; 9; 10; 11; 12; 13; 14;
   15; 16; 17; 18; 19; 20; 21; 22; 23; 24; 25; 26; 27; 28; 29; 30;
   31; 32; 33; 34; 35; 36; 37; 38; 39; 40; 41; 42; 43; 44; 45; 46;
   47; 48; 49; 50; 51; 52; 53; 54; 55; 56; 57; 58; 59; 60; 61; 62;
   63; 64; 65; 66; 67; 68; 69; 70; 71; 72; 73; 74; 75; 76; 77; 78;
   79; 80; 81; 82; 83; 84; 85; 86; 87; 88; 89; 90; 91; 92; 93; 94;
   95; 96; 65; 66; 67; 68; 69; 70; 71; 72; 73; 74; 75; 76; 77; 78;
   79; 80; 81; 82; 83; 84; 85; 86; 87; 88; 89; 90; 123; 124; 125; 126;
   127; 128; 129; 130; 131; 132; 133; 134; 135; 136; 137; 138; 139; 140; 141; 142;
   143; 144; 145; 146; 147; 148; 149; 150; 151; 152; 153; 154; 155; 156; 157; 158;
   159; 160; 161; 162; 163; 164; 165; 166; 167; 168; 169; 170; 171; 172; 173; 174;
   175; 176; 177; 178; 179; 180; 181; 182; 183; 184; 185; 186; 187; 188; 189; 190;
   191; 192; 193; 194; 195; 196; 197; 198; 199; 200; 201; 202; 203; 204; 205; 206;
   207; 208; 209; 210; 211; 212; 213; 214; 215; 216; 217; 218; 219; 220; 221; 222;
   223; 224; 225; 226; 227; 228; 229; 230; 231; 232; 233; 234; 235; 236; 237; 238;
   239; 240; 241; 242; 243; 244; 245; 246; 247; 248; 249; 250; 251; 252; 253; 254;
   255].

Definition switch_C_tolower : list Z :=
  [(-1); 0; 1; 2; 3; 4; 5; 6; 7; 8; 9; 10; 11; 12; 13; 14;
   15; 16; 17; 18; 19; 20; 21; 22; 23; 24; 25; 26; 27; 28; 29; 30;
   31; 32; 33; 34; 35; 36; 37; 38; 39; 40; 41; 42; 43; 44; 45; 46;
   47; 48; 49; 50; 51; 52; 53; 54; 55; 56; 57; 58; 59; 60; 61; 62;
   63; 64; 97; 98; 99; 100; 101; 102; 103; 104; 105; 106; 107; 108; 109; 110;
   111; 112; 113; 114; 115; 116; 117; 118; 119; 120; 121; 122; 91; 92; 93; 94;
   95; 96; 97; 98; 99; 100; 101; 102; 103; 104; 105; 106; 107; 108; 109; 110;
   111; 112; 113; 114; 115; 116; 117; 118; 119; 120; 121; 122; 123; 124; 125; 126;
   127; 128; 129; 130; 131; 132; 133; 134; 135; 136; 137; 138; 139; 140; 141; 142;
   143; 144; 145; 146; 147; 148; 149; 150; 151; 152; 153; 154; 155; 156; 157; 158;
   159; 160; 161; 162; 163; 164; 165; 166; 167; 168; 169; 170; 171; 172; 173; 174;
   175; 176; 177; 178; 179; 180; 181; 182; 183; 184; 185; 186; 187; 188; 189; 190;
   191; 192; 193; 194; 195; 196; 197; 198; 199; 200; 201; 202; 203; 204; 205; 206;
   207; 208; 209; 210; 211; 212; 213; 214; 215; 216; 217; 218; 219; 220; 221; 222;
   223; 224; 225; 226; 227; 228; 229; 230; 231; 232; 233; 234; 235; 236; 237; 238;
   239; 240; 241; 242; 243; 244; 245; 246; 247; 248; 249; 250; 251; 252; 253; 254;
   255].

Definition old_switch_toupper (c : Z) : Z :=
  if 255 <? u32 c then c
  else if c <? -1 then -1
  else switch_C_toupper !!! Z.to_nat (1 + c).

Definition old_switch_tolower (c : Z) : Z :=
  if 255 <? u32 c then c
  else if c <? -1 then -1
  else switch_C_tolower !!! Z.to_nat (1 + c).

Definition C_U : Z := 0x01.
Definition C_L : Z := 0x02.
Definition C_N : Z := 0x04.
Definition C_S : Z := 0x08.
Definition C_P : Z := 0x10.
Definition C_C : Z := 0x20.
Definition C_X : Z := 0x40.
Definition C_B : Z := 0x80.

Definition switch_C_ctype : list Z :=
  [0; C_C; C_C; C_C; C_C; C_C; C_C; C_C;
   C_C; C_C; Z.lor C_C C_S; Z.lor C_C C_S; Z.lor C_C C_S; Z.lor C_C C_S; Z.lor C_C C_S; C_C;
   C_C; C_C; C_C; C_C; C_C; C_C; C_C; C_C;
   C_C; C_C; C_C; C_C; C_C; C_C; C_C; C_C;
   C_C; Z.lor C_S C_B; C_P; C_P; C_P; C_P; C_P; C_P;
   C_P; C_P; C_P; C_P; C_P; C_P; C_P; C_P;
   C_P; C_N; C_N; C_N; C_N; C_N; C_N; C_N;
   C_N; C_N; C_N; C_P; C_P; C_P; C_P; C_P;
   C_P; C_P; Z.lor C_U C_X; Z.lor C_U C_X; Z.lor C_U C_X; Z.lor C_U C_X; Z.lor C_U C_X; Z.lor C_U C_X;
   C_U; C_U; C_U; C_U; C_U; C_U; C_U; C_U;
   C_U; C_U; C_U; C_U; C_U; C_U; C_U; C_U;
   C_U; C_U; C_U; C_U; C_P; C_P; C_P; C_P;
   C_P; C_P; Z.lor C_L C_X; Z.lor C_L C_X; Z.lor C_L C_X; Z.lor C_L C_X; Z.lor C_L C_X; Z.lor C_L C_X;
   C_L; C_L; C_L; C_L; C_L; C_L; C_L; C_L;
   C_L; C_L; C_L; C_L; C_L; C_L; C_L; C_L;
   C_L; C_L; C_L; C_L; C_P; C_P; C_P; C_P;
   C_C; C_C; C_C; C_C; C_C; C_C; C_C; C_C;
   C_C; C_C; C_C; C_C; C_C; C_C; C_C; C_C;
   C_C; C_C; C_C; C_C; C_C; C_C; C_C; C_C;
   C_C; C_C; C_C; C_C; C_C; C_C; C_C; C_C;
   C_C; C_P; C_P; C_P; C_P; C_P; C_P; C_P;
   C_P; C_P; C_P; C_P; C_P; C_P; C_P; C_P;
   C_P; C_P; C_P; C_P; C_P; C_P; C_P; C_P;
   C_P; C_P; C_P; C_P; C_P; C_P; C_P; C_P;
   C_P; C_P; C_P; C_P; C_P; C_P; C_P; C_P;
   C_P; C_P; C_P; C_P; C_P; C_P; C_P; C_P;
   C_P; C_P; C_P; C_P; C_P; C_P; C_P; C_P;
   C_P; C_P; C_P; C_P; C_P; C_P; C_P; C_P;
   C_P; C_P; C_P; C_P; C_P; C_P; C_P; C_P;
   C_P; C_P; C_P; C_P; C_P; C_P; C_P; C_P;
   C_P; C_P; C_P; C_P; C_P; C_P; C_P; C_P;
   C_P; C_P; C_P; C_P; C_P; C_P; C_P; C_P;
   C_P].

(** The classes of a character that are in [mask]; every function of the
    family has this body. *)
Definition ctype_and (c mask : Z) : Z :=
  if c <? 0 then 0 else if 255 <? c then 0 else Z.land (switch_C_ctype !!! Z.to_nat (1 + u8 c)) mask.

Definition switch_isalnum (c : Z) : Z := ctype_and c (Z.lor (Z.lor C_U C_L) C_N).
Definition switch_isalpha (c : Z) : Z := ctype_and c (Z.lor C_U C_L).
Definition switch_iscntrl (c : Z) : Z := ctype_and c C_C.
Definition switch_isdigit (c : Z) : Z := ctype_and c C_N.
Definition switch_isgraph (c : Z) : Z := ctype_and c (Z.lor (Z.lor (Z.lor C_P C_U) C_L) C_N).
Definition switch_islower (c : Z) : Z := ctype_and c C_L.
Definition switch_isprint (c : Z) : Z := ctype_and c (Z.lor (Z.lor (Z.lor (Z.lor C_P C_U) C_L) C_N) C_B).
Definition switch_ispunct (c : Z) : Z := ctype_and c C_P.
Definition switch_isspace (c : Z) : Z := ctype_and c C_S.
Definition switch_isupper (c : Z) : Z := ctype_and c C_U.
Definition switch_isxdigit (c : Z) : Z := ctype_and c (Z.lor C_N C_X).

(** ** Days of the week *)

Definition DOW : list bytes := [str "sun"; str "mon"; str "tue"; str "wed"; str "thu"; str "fri"; str "sat"].

(** The comparison and the remainder are those of [size_t]. *)
Definition switch_dow_int2str (val : Z) : bytes :=
  let val := if 7 <=? u64 val then s32 (u64 val mod 7) else val in
  DOW !!! Z.to_nat val.

Fixpoint str2int_loop (names : list bytes) (x : Z) (exp : bytes) : Z :=
  match names with
  | n :: names => if strncaseeq n exp 3 then x + 1 else str2int_loop names (x + 1) exp
  | [] => -1
  end.

Definition switch_dow_str2int (exp : bytes) : Z := str2int_loop DOW 0 exp.

(** [dow_t] is an enumeration of integers. *)
Definition DOW_ERR : Z := -2.
Definition DOW_EOF : Z := -1.
Definition DOW_HYPHEN : Z := 45.
Definition DOW_COMA : Z := 44.

Definition dow_read_token (s : bytes) : Z * bytes :=
  let c := deref s in
  if c =? 45 then (DOW_HYPHEN, drop 1 s)
  else if c =? 44 then (DOW_COMA, drop 1 s)
  else if (49 <=? c) && (c <=? 55) then (c - 48, drop 1 s)
  else
    let i := switch_dow_str2int s in
    if negb (i =? 0) && negb (i =? -1) then (i, drop 3 s)
    else if c =? 0 then (DOW_EOF, s)
    else (DOW_ERR, s).

Fixpoint dow_loop (fuel : nat) (p : bytes) (prev range_start val : Z) : res bool :=
  match fuel with
  | O => NoFuel
  | S fuel =>
    let '(cur, p) := dow_read_token p in
    if cur =? DOW_EOF then Ok false
    else if cur =? DOW_COMA then dow_loop fuel p DOW_EOF range_start val
    else if cur =? DOW_HYPHEN then dow_loop fuel p cur prev val
    else if cur =? DOW_ERR then Ok false
    else if negb (range_start =? DOW_EOF) then
      if (range_start <=? val) && (val <=? cur) then Ok true else dow_loop fuel p cur DOW_EOF val
    else if val =? cur then Ok true else dow_loop fuel p cur range_start val
  end.

Definition switch_dow_cmp (exp : bytes) (val : Z) : res bool := dow_loop (S (length exp)) exp DOW_EOF DOW_EOF val.

(** ** Numbers *)

(** [strchr(s + i, c)]: the string is read from [i] on. *)
Definition strchr_from (s : bytes) (i c : Z) : res (option Z) :=
  if (i <? 0) || (zlen s <? i) then Fault else Ok ((fun j => i + j) <$> strchr (zdrop i s) c).

(** [while (cur)]: [cur] and [p] are offsets, [None] for NULL. *)
Fixpoint number_loop (fuel : nat) (exp : bytes) (cur p : option Z) (val : Z) : res Z :=
  match fuel with
  | O => NoFuel
  | S fuel =>
    match cur with
    | None => Ok 0
    | Some i =>
      if atol (zdrop i exp) =? val then Ok 1
      else match p with
           | None => number_loop fuel exp None None val
           | Some j =>
             q ← strchr_from exp (j + 1) 44;
             number_loop fuel exp (Some j) ((fun q => q + 1) <$> q) val
           end
    end
  end.

Definition switch_number_cmp (exp : bytes) (val : Z) : res Z :=
  match strchr exp 45 with
  | Some p =>
    let min := s32 (atol exp) in
    let max := s32 (atol (zdrop (p + 1) exp)) in
    Ok (if (min <=? val) && (val <=? max) then 1 else 0)
  | None =>
    match strchr exp 44 with
    | Some p => number_loop (length exp + 3) exp (Some 0) (Some (p + 1)) val
    | None => Ok (if atol exp =? val then 1 else 0)
    end
  end.

(** ** Times and dates *)

(** Seconds are optional in a time. *)
Definition split_seconds (s : bytes) : bytes * bytes :=
  match strchr s 58 with Some i => cut_at s i | None => (s, str "00") end.

Definition switch_tod_cmp (exp : bytes) (val : Z) : Z :=
  match strchr exp 58 with
  | None => 0
  | Some i =>
    let '(minh, minm) := cut_at exp i in
    match strchr minm 45 with
    | None => 0
    | Some j =>
      match strchr (zdrop j minm) 58 with
      | None => 0
      | Some k =>
        let maxh := ztake (k - 1) (zdrop (j + 1) minm) in
        let maxm := zdrop (j + k + 1) minm in
        let minm := ztake j minm in
        let '(minm, mins) := split_seconds minm in
        let '(maxm, maxs) := split_seconds maxm in
        if (s64 (atol minh * 60 * 60 + atol minm * 60 + atol mins) <=? val)
           && (val <? s64 (atol maxh * 60 * 60 + atol maxm * 60 + atol maxs)) then 1 else 0
      end
    end
  end.

(** The three numbers are written together or not at all. *)
Definition switch_split_time (exp : bytes) (out : Z * Z * Z) : Z * Z * Z :=
  match strchr exp 58 with
  | Some i =>
    let '(shour, smin) := cut_at exp i in
    let '(smin, ssec) := split_seconds smin in
    (s32 (atol shour), s32 (atol smin), s32 (atol ssec))
  | None => out
  end.

Definition switch_split_date (exp : bytes) (out : Z * Z * Z) : Z * Z * Z :=
  match strchr exp 45 with
  | Some i =>
    let '(syear, smonth) := cut_at exp i in
    match strchr smonth 45 with
    | Some j => let '(smonth, sday) := cut_at smonth j in (s32 (atol syear), s32 (atol smonth), s32 (atol sday))
    | None => out
    end
  | None => out
  end.

(** The numbers year, month, day and hour, minute, second of the function. *)
Definition numbers : Type := (Z * Z * Z) * (Z * Z * Z).

(** The fields that are handed to mktime. *)
Definition tm_of (n : numbers) : tm :=
  let '((year, month, day), (hour, min, sec)) := n in
  Tm sec min hour day (month - 1) (year - 1900) 0 0 0 0.

(** One end of the interval: the date and the time behind the space. *)
Definition read_end (s : bytes) (n : numbers) : option numbers :=
  match strchr s 32 with
  | Some i => let '(sDate, sTime) := cut_at s i in Some (switch_split_date sDate n.1, switch_split_time sTime n.2)
  | None => None
  end.

(** The C library's mktime, which knows the time zone of the process. *)
Class Mktime := mktime : tm -> Z.

(** [junk] is what the numbers of the function hold at its start. *)
Definition switch_fulldate_cmp {M : Mktime} (junk : numbers) (exp : bytes) (ts : Z) : Z :=
  match strchr exp 126 with
  | None => 0
  | Some i =>
    let '(sStart, sEnd) := cut_at exp i in
    match read_end sStart junk with
    | None => 0
    | Some n =>
      let tsStart := mktime (tm_of n) in
      match read_end sEnd n with
      | None => 0
      | Some n =>
        let tsEnd := mktime (tm_of n) in
        if (tsStart <=? Z.quot ts 1000000) && (Z.quot ts 1000000 <? tsEnd) then 1 else 0
      end
    end
  end.

(** ** SIP users *)

(** The host ends before a port, a parameter or a space. *)
Fixpoint host_part (h : bytes) : bytes :=
  match h with
  | c :: h' => if (c =? 58) || (c =? 59) || (c =? 32) then [] else c :: host_part h'
  | [] => []
  end.

(** The user, NULL where there is none, and the domain; [None] for 0. *)
Definition switch_split_user_domain (in_ : option bytes) : option (option bytes * bytes) :=
  in_ ← in_;
  let in_ := if strncaseeq in_ (str "sip:") 4 then zdrop 4 in_
             else if strncaseeq in_ (str "sips:") 5 then zdrop 5 in_ else in_ in
  let '(u, h) := match strchr in_ 64 with
                 | Some i => let '(u, h) := cut_at in_ i in (Some u, h)
                 | None => (None, in_)
                 end in
  Some (u, host_part h).

(** ** Conditions of a dialplan *)

(** [if (time_match && x)]: an attribute that is there decides, as long as no
    other one has failed. *)
Definition check_attr (x : option bytes) (test : bytes -> res Z) (time_match : Z) : res Z :=
  match x with
  | Some e => if time_match =? 0 then Ok time_match else test e
  | None => Ok time_match
  end.

Definition check_number (x : option bytes) (test time_match : Z) : res Z :=
  check_attr x (fun e => switch_number_cmp e test) time_match.

(** The day of the week of the first of the month, and the week of the month:
    [ceil] of a quotient by 7.0, which is exact for numbers of this size. *)
Definition firstdow (x : tm) : Z := Z.rem (7 - Z.rem (tm_mday x - (tm_wday x + 1)) 7) 7.
Definition week_of_month (x : tm) : Z := - (- (tm_mday x + firstdow x) / 7).

(** What the check reads of its surroundings: the clock, APR's local time and
    time at an offset, the zone list, mktime, and the contents of its
    uninitialised variables. *)
Record surroundings (H : Type) := Surroundings {
  now : Z; time_exp_lt : Z -> switch_time_exp_t; time_exp_tz : Z -> Z -> switch_time_exp_t; zones : H;
  env_mktime : Mktime; junk_tm : switch_time_exp_t; junk_numbers : numbers }.
Arguments now {H} _.
Arguments time_exp_lt {H} _ _.
Arguments time_exp_tz {H} _ _ _.
Arguments zones {H} _.
Arguments env_mktime {H} _.
Arguments junk_tm {H} _.
Arguments junk_numbers {H} _.

Section Check.
Context {H : Type} {SM : StringMap H bytes} (env : surroundings H).

(** The broken-down time of the check: at an offset, in a named zone, or local. *)
Definition check_time (offset : option Z) (tzname : option bytes) (ts : Z) : res switch_time_exp_t :=
  match offset with
  | Some o => Ok (time_exp_tz env ts (o * 3600))
  | None =>
    if negb (zstr tzname) then default (Ok (junk_tm env)) (switch_time_exp_tz_name (zones env) (now env) tzname ts)
    else Ok (time_exp_lt env ts)
  end.

(** The tests, one after the other, on the time of the check [x]; [tm2] is the
    local time. *)
Definition datetime_tests (xcond : Acl.xml) (ts dst loffset eoffset : Z) (x tm2 : tm) : res Z :=
  let attr name := Acl.switch_xml_attr xcond (str name) in
  m ← check_attr (attr "tz-offset"%string) (fun _ => Ok (if loffset =? eoffset then 1 else 0)) (-1);
  let m := if negb (m =? 0) && (-1 <? dst) then (if (0 <? tm_isdst tm2) && (0 <? dst) then 1 else 0) else m in
  m ← check_attr (attr "date-time"%string) (fun e => Ok (@switch_fulldate_cmp (env_mktime env) (junk_numbers env) e ts)) m;
  m ← check_number (attr "year"%string) (tm_year x + 1900) m;
  m ← check_number (attr "yday"%string) (tm_yday x + 1) m;
  m ← check_number (attr "mon"%string) (tm_mon x + 1) m;
  m ← check_number (attr "mday"%string) (tm_mday x) m;
  m ← check_number (attr "week"%string) (Z.quot (tm_yday x) 7 + 1) m;
  m ← check_number (attr "week"%string) (Z.quot (tm_yday x) 7 + 1) m;
  m ← check_number (attr "mweek"%string) (week_of_month x) m;
  m ← check_attr (attr "wday"%string) (fun e => (fun b : bool => if b then 1 else 0) <$> switch_dow_cmp e (tm_wday x + 1)) m;
  m ← check_number (attr "hour"%string) (tm_hour x) m;
  m ← check_number (attr "minute"%string) (tm_min x) m;
  m ← check_number (attr "minute-of-day"%string) (tm_hour x * 60 + (tm_min x + 1)) m;
  check_attr (attr "time-of-day"%string)
    (fun e => Ok (switch_tod_cmp e (tm_hour x * 60 * 60 + tm_min x * 60 + tm_sec x))) m.

Definition switch_xml_std_datetime_check (xcond : Acl.xml) (offset : option Z) (tzname : option bytes) : res Z :=
  let tzoff := Acl.switch_xml_attr xcond (str "tz-offset") in
  let isdst := Acl.switch_xml_attr xcond (str "dst") in
  let ts := now env in
  let dst := if negb (zstr isdst) then (if switch_true isdst then 1 else 0) else -1000 in
  let loffset := if negb (zstr tzoff) && switch_is_number (default [] tzoff) then atoi (default [] tzoff) else -1000 in
  let tm2 := exp_tm (time_exp_lt env ts) in
  x ← check_time offset tzname ts;
  let eoffset := default (-1000) offset in
  let eoffset := if eoffset =? -1000 then Z.quot (tm_gmtoff (exp_tm x)) 3600 else eoffset in
  let loffset := if loffset =? -1000 then eoffset else loffset in
  datetime_tests xcond ts dst loffset eoffset (exp_tm x) tm2.

End Check.

(** ** The character tables are those of the "C" locale *)

(** The case tables agree with the branch-free routines of switch_utils.h
    on every byte, leave every other number as it is, and the classes of a
    character are those of the standard's "C" locale for ASCII: a character is
    alphanumeric when it is a letter or a digit, printing when it is a graph or
    a space, a graph when it is alphanumeric or punctuation, and never both
    printing and a control character. *)
Theorem character_tables (c : Z) :
  - 2 ^ 31 <= c < 2 ^ 31 ->
  let has f := negb (f c =? 0) in
  let within lo hi := (lo <=? c) && (c <=? hi) in
  (old_switch_toupper c = if within 0 255 then switch_toupper c else c) /\
  (old_switch_tolower c = if within 0 255 then switch_tolower c else c) /\
  has switch_isdigit = within 48 57 /\ has switch_isupper = within 65 90 /\ has switch_islower = within 97 122 /\
  has switch_isspace = (c =? 32) || within 9 13 /\
  has switch_isxdigit = within 48 57 || within 65 70 || within 97 102 /\
  has switch_iscntrl = within 0 31 || within 127 159 /\
  has switch_isalpha = has switch_isupper || has switch_islower /\
  has switch_isalnum = has switch_isalpha || has switch_isdigit /\
  has switch_isgraph = has switch_isalnum || has switch_ispunct /\
  has switch_isprint = has switch_isgraph || (c =? 32) /\
  has switch_isprint && has switch_iscntrl = false.
Proof.
  intros Hc. cbn zeta. assert (0 <= c < 256 \/ ~ 0 <= c < 256) as [Hb|Hb] by lia.
  - pose proof (byte_cases (fun c =>
      let has f := negb (f c =? 0) in
      let within lo hi := (lo <=? c) && (c <=? hi) in
      (old_switch_toupper c =? (if within 0 255 then switch_toupper c else c)) &&
      (old_switch_tolower c =? (if within 0 255 then switch_tolower c else c)) &&
      bool_decide (has switch_isdigit = within 48 57) && bool_decide (has switch_isupper = within 65 90) && bool_decide (has switch_islower = within 97 122) &&
      bool_decide (has switch_isspace = (c =? 32) || within 9 13) &&
      bool_decide (has switch_isxdigit = within 48 57 || within 65 70 || within 97 102) &&
      bool_decide (has switch_iscntrl = within 0 31 || within 127 159) &&
      bool_decide (has switch_isalpha = has switch_isupper || has switch_islower) &&
      bool_decide (has switch_isalnum = has switch_isalpha || has switch_isdigit) &&
      bool_decide (has switch_isgraph = has switch_isalnum || has switch_ispunct) &&
      bool_decide (has switch_isprint = has switch_isgraph || (c =? 32)) &&
      bool_decide (has switch_isprint && has switch_iscntrl = false)) c) as Hall.
    cbn zeta in Hall. specialize (Hall ltac:(vm_compute; reflexivity) Hb). rewrite !andb_true_iff, !bool_decide_eq_true, !Z.eqb_eq in Hall. tauto.
  - unfold old_switch_toupper, old_switch_tolower. assert ((255 <? u32 c) = true) as -> by (unfold wrap; Z.to_euclidean_division_equations; lia).
    assert (forall mask, ctype_and c mask = 0) as Hz by (intros mask; unfold ctype_and; repeat case_match; lia).
    unfold switch_isdigit, switch_isupper, switch_islower, switch_isspace, switch_isxdigit, switch_iscntrl, switch_isalpha, switch_isalnum,
      switch_isgraph, switch_ispunct, switch_isprint. rewrite !Hz. cbn [Z.eqb negb orb andb].
    replace ((0 <=? c) && (c <=? 255)) with false by lia. repeat split; lia.
Qed.

Lemma character_tables_witness : old_switch_toupper 122 = switch_toupper 122.
Proof. destruct (character_tables 122 ltac:(lia)) as [Hu _]. exact Hu. Defined.

(** ** What the expressions mean *)

(** *** Days of the week *)

(** A day, 1 for Sunday, and a way to write it: its number or the first three
    letters of its name, in any case. *)
Definition day_text (d : Z) (t : bytes) : Prop :=
  1 <= d <= 7 /\ (t = [48 + d] \/ strcaseeq t (DOW !!! Z.to_nat (d - 1)) = true).

Inductive dow_item := Day (d : Z) (t : bytes) | Range (a : Z) (ta : bytes) (b : Z) (tb : bytes).

Definition item_ok (i : dow_item) : Prop :=
  match i with Day d t => day_text d t | Range a ta b tb => day_text a ta /\ day_text b tb end.
Definition item_text (i : dow_item) : bytes :=
  match i with Day _ t => t | Range _ ta _ tb => ta ++ [45] ++ tb end.
(** A range over the end of the week is its first day only. *)
Definition item_holds (v : Z) (i : dow_item) : bool :=
  match i with Day d _ => v =? d | Range a _ b _ => (v =? a) || ((a <=? v) && (v <=? b)) end.

Fixpoint items_text (l : list dow_item) : bytes :=
  match l with [] => [] | [i] => item_text i | i :: l => item_text i ++ [44] ++ items_text l end.

Lemma str2int_ci n t rest : length n = 3%nat -> length t = 3%nat -> tolower <$> t = tolower <$> n -> switch_dow_str2int (t ++ rest) = switch_dow_str2int n.
Proof.
  intros Hn Ht Heq. unfold switch_dow_str2int. generalize 0. induction DOW as [|m names IH]; intros x; [done|]. cbn [str2int_loop]. rewrite IH.
  replace (strncaseeq m (t ++ rest) 3) with (strncaseeq m n 3); [done|]. unfold strncaseeq, strcaseeq.
  assert (ztake 3 (t ++ rest) = t) as -> by (apply take_app_length'; by rewrite Ht). assert (ztake 3 n = n) as -> by (apply take_ge; rewrite Hn; lia).
  by rewrite Heq.
Qed.

Ltac weekdays d :=
  assert (d = 1 \/ d = 2 \/ d = 3 \/ d = 4 \/ d = 5 \/ d = 6 \/ d = 7) as Hcases by lia;
  repeat (destruct Hcases as [->|Hcases]); [..|subst d].

(** A day is read back, whatever follows. *)
Lemma read_day d t rest : day_text d t -> dow_read_token (t ++ rest) = (d, rest).
Proof.
  intros [Hd [->|Ht]]; [weekdays d; reflexivity|]. apply strcaseeq_spec in Ht. set (n := DOW !!! Z.to_nat (d - 1)) in *.
  assert (length n = 3%nat) as Hn by (subst n; weekdays d; reflexivity).
  assert (length t = 3%nat) as Htl by (apply (f_equal length) in Ht; rewrite !length_fmap in Ht; lia).
  assert (switch_dow_str2int n = d) as Hsd by (subst n; weekdays d; vm_compute; reflexivity).
  pose proof (str2int_ci n t rest Hn Htl Ht) as Hs. unfold dow_read_token. rewrite Hs, Hsd.
  replace (drop 3 (t ++ rest)) with rest by (rewrite <-Htl; by rewrite drop_app_length).
  destruct t as [|c t]; [done|]. cbn [deref head default from_option id app].
  assert (97 <= tolower c <= 122) as Hc.
  { subst n. weekdays d; injection Ht as Hc _; rewrite Hc; vm_compute; split; discriminate. }
  assert (c <> 45 /\ c <> 44 /\ ~ (49 <= c <= 55)) as (H1 & H2 & H3).
  { assert (~ (44 <= c <= 55)); [|lia]. intros E. unfold tolower in Hc. rewrite u8_small in Hc by lia.
    replace ((65 <=? c) && (c <=? 90)) with false in Hc by lia. lia. }
  replace (c =? 45) with false by lia. replace (c =? 44) with false by lia. replace ((49 <=? c) && (c <=? 55)) with false by lia.
  replace (negb (d =? 0) && negb (d =? -1)) with true by lia. done.
Qed.

Lemma day_range d t : day_text d t -> 1 <= d <= 7 /\ (0 < length t)%nat.
Proof.
  intros [Hd Ht]. split; [done|]. destruct Ht as [->|Ht]; [cbn; lia|]. apply strcaseeq_spec, (f_equal length) in Ht. rewrite !length_fmap in Ht.
  rewrite Ht. weekdays d; vm_compute; lia.
Qed.

(** Reading one day. *)
Lemma dow_loop_day fuel d t rest prev val : day_text d t -> (0 < fuel)%nat ->
  dow_loop fuel (t ++ rest) prev DOW_EOF val = if val =? d then Ok true else dow_loop (pred fuel) rest d DOW_EOF val.
Proof.
  intros Hd Hf. destruct fuel as [|fuel]; [lia|]. cbn [dow_loop pred]. rewrite (read_day d t) by done. apply day_range in Hd as [Hr _].
  unfold DOW_EOF, DOW_COMA, DOW_HYPHEN, DOW_ERR. replace (d =? -1) with false by lia. replace (d =? 44) with false by lia.
  replace (d =? 45) with false by lia. by replace (d =? -2) with false by lia.
Qed.

Lemma dow_loop_range fuel a t rest prev val b : day_text b t -> 1 <= a -> (1 < fuel)%nat ->
  dow_loop fuel ([45] ++ t ++ rest) a prev val
  = if (a <=? val) && (val <=? b) then Ok true else dow_loop (pred (pred fuel)) rest b DOW_EOF val.
Proof.
  intros Hb Ha Hf. destruct fuel as [|[|fuel]]; [lia..|]. cbn [pred]. cbn [dow_loop]. cbn [app]. unfold dow_read_token at 1. cbn [deref head default from_option id Z.eqb Pos.eqb drop].
  unfold DOW_EOF, DOW_COMA, DOW_HYPHEN, DOW_ERR. cbn [Z.eqb Pos.eqb dow_loop]. rewrite drop_0, (read_day b t) by done. apply day_range in Hb as [Hr _].
  unfold DOW_EOF, DOW_COMA, DOW_HYPHEN, DOW_ERR. replace (b =? -1) with false by lia. replace (b =? 44) with false by lia.
  replace (b =? 45) with false by lia. replace (b =? -2) with false by lia. by replace (a =? -1) with false by lia.
Qed.

Lemma dow_loop_item fuel i rest prev val : item_ok i -> (length (item_text i) < fuel)%nat ->
  exists fuel' prev', (fuel <= fuel' + length (item_text i))%nat /\
    dow_loop fuel (item_text i ++ rest) prev DOW_EOF val = if item_holds val i then Ok true else dow_loop fuel' rest prev' DOW_EOF val.
Proof.
  destruct i as [d t|a ta b tb]; cbn [item_ok item_text item_holds].
  - intros Hd Hf. pose proof (day_range d t Hd) as [_ Hl]. exists (pred fuel), d. split; [lia|]. apply dow_loop_day; [done|lia].
  - intros (Ha & Hb) Hf. pose proof (day_range a ta Ha) as [Hra Hla]. pose proof (day_range b tb Hb) as [Hrb Hlb]. rewrite !length_app in *. cbn [length] in *.
    rewrite <-!app_assoc. exists (pred (pred (pred fuel))), b. split; [lia|].
    rewrite (dow_loop_day _ a), (dow_loop_range _ a tb _ _ _ b) by (done || lia). by destruct (val =? a).
Qed.

Lemma items_text_cons i j l : items_text (i :: j :: l) = item_text i ++ [44] ++ items_text (j :: l).
Proof. done. Qed.

Lemma dow_loop_items val l : Forall item_ok l -> forall fuel prev, (length (items_text l) < fuel)%nat ->
  dow_loop fuel (items_text l) prev DOW_EOF val = Ok (existsb (item_holds val) l).
Proof.
  intros Hl. induction Hl as [|i l Hi Hl IH]; intros fuel prev Hf; [by destruct fuel; [lia|]|].
  destruct l as [|j l].
  - cbn [items_text] in *. rewrite <-(app_nil_r (item_text i)). destruct (dow_loop_item fuel i [] prev val Hi Hf) as (f' & p' & Hf' & ->).
    cbn [existsb]. rewrite orb_false_r. destruct (item_holds val i); [done|]. by destruct f'; [lia|].
  - rewrite items_text_cons in *. rewrite !length_app in Hf. cbn [length] in Hf.
    destruct (dow_loop_item fuel i ([44] ++ items_text (j :: l)) prev val Hi ltac:(lia)) as (f' & p' & Hf' & ->). cbn [existsb].
    destruct (item_holds val i); [done|]. destruct f' as [|f']; [lia|]. cbn [app dow_loop]. unfold dow_read_token. cbn [deref head default from_option id Z.eqb Pos.eqb drop].
    unfold DOW_EOF, DOW_COMA. cbn [Z.eqb Pos.eqb]. rewrite drop_0. apply IH. lia.
Qed.

(** A list of days and ranges of days means their union. *)
Lemma dow_cmp_items val l : Forall item_ok l -> switch_dow_cmp (items_text l) val = Ok (existsb (item_holds val) l).
Proof. intros Hl. apply dow_loop_items; [done|lia]. Qed.

Lemma read_token_shorter s c p : dow_read_token s = (c, p) -> c <> DOW_EOF -> c <> DOW_ERR -> (length p < length s)%nat.
Proof.
  unfold dow_read_token. destruct s as [|x s]; cbn [deref head default from_option id].
  { cbn. intros [= <- <-]. by destruct 1. }
  intros Hr Heof Herr. repeat (case_match; [injection Hr as <- <-; rewrite length_drop; cbn [length]; lia|]).
  by case_match; injection Hr as <- <-.
Qed.

(** Every expression has an answer. *)
Lemma dow_cmp_ends exp val : runs (switch_dow_cmp exp val).
Proof.
  unfold switch_dow_cmp. generalize DOW_EOF at 1. intros prev. generalize DOW_EOF. intros rs.
  assert (forall fuel p prev rs, (length p < fuel)%nat -> runs (dow_loop fuel p prev rs val)) as Hl; [|apply Hl; lia]. clear.
  induction fuel as [|fuel IH]; intros p prev rs Hf; [lia|]. cbn [dow_loop]. destruct (dow_read_token p) as [c q] eqn:E.
  pose proof (read_token_shorter p c q E) as Hs.
  destruct (Z.eqb_spec c DOW_EOF); [done|]. destruct (Z.eqb_spec c DOW_ERR) as [->|]; [done|]. specialize (Hs ltac:(done) ltac:(done)).
  repeat case_match; try done; apply IH; lia.
Qed.

(** *** Numbers *)

(** A number as it is written: with or without zeros in front. *)
Record numeral := Numeral { zeros : nat; value : Z }.
Coercion value : numeral >-> Z.

Definition num (n : numeral) : bytes := replicate (zeros n) 48 ++ Event.dec n.

Inductive number_expr := Single (n : numeral) | Span (a b : numeral) | OneOf (n m : numeral) (ms : list numeral).

Definition small (n : numeral) : Prop := 0 <= n < 2 ^ 31.
Definition number_ok (e : number_expr) : Prop :=
  match e with Single n => small n | Span a b => small a /\ small b | OneOf n m ms => Forall small (n :: m :: ms) end.

Definition more (ns : list numeral) : bytes := concat ((fun n => 44 :: num n) <$> ns).

Definition number_text (e : number_expr) : bytes :=
  match e with
  | Single n => num n
  | Span a b => num a ++ [45] ++ num b
  | OneOf n m ms => num n ++ more (m :: ms)
  end.

Definition number_holds (v : Z) (e : number_expr) : bool :=
  match e with Single n => n =? v | Span a b => (a <=? v) && (v <=? b) | OneOf n m ms => existsb (fun n : numeral => n =? v) (n :: m :: ms) end.

Lemma zdrop_behind (s : bytes) c t : zdrop (zlen s + 1) (s ++ c :: t) = t.
Proof. pose proof (cut_at_first s c t) as Hc. unfold cut_at in Hc. congruence. Qed.

Lemma num_isdigit (n : numeral) : 0 <= n -> Forall (fun c => isdigit c = true) (num n).
Proof.
  intros Hn. unfold num. apply Forall_app. split; [|by apply Event.dec_isdigit]. by apply Forall_replicate.
Qed.

Lemma num_nonempty (n : numeral) : num n <> [].
Proof. unfold num. intros [_ H]%app_nil. by apply Event.dec_nonempty in H. Qed.

Lemma dec_without c (n : numeral) : 0 <= n -> isdigit c = false -> c ∉ num n.
Proof. intros Hn Hc Hin. pose proof (proj1 (Forall_forall _ _) (num_isdigit n Hn) c Hin) as Hd. cbn in Hd. congruence. Qed.

Lemma atol_num (n : numeral) t : 0 <= n < 2 ^ 63 -> match t with c :: _ => isdigit c = false | [] => True end -> atol (num n ++ t) = n.
Proof.
  intros Hn Ht. rewrite <-(Event.atol_dec n t Hn Ht). unfold num. rewrite <-app_assoc. unfold atol.
  assert (Forall (fun c => isdigit c = true) (Event.dec n)) as Hd by (apply Event.dec_isdigit; lia).
  pose proof (Event.dec_nonempty n) as Hne. destruct (zeros n) as [|k]; [done|].
  assert (strtol10 (replicate (S k) 48 ++ Event.dec n ++ t) = strtol_digits (replicate (S k) 48 ++ Event.dec n ++ t) 0) as ->.
  { apply Event.strtol10_digits; [done|by apply Forall_replicate]. }
  rewrite Event.strtol10_digits by done. f_equal. f_equal. induction (S k) as [|m IH]; [done|]. exact IH.
Qed.

Lemma more_first ns : match more ns with c :: _ => isdigit c = false | [] => True end.
Proof. by destruct ns. Qed.

Lemma number_loop_list val ns : forall n pre fuel, small n -> Forall small ns -> (length ns + 2 <= fuel)%nat ->
  number_loop fuel (pre ++ num n ++ more ns) (Some (zlen pre))
    (match ns with [] => None | _ => Some (zlen pre + zlen (num n) + 1) end) val
  = Ok (if existsb (fun n : numeral => n =? val) (n :: ns) then 1 else 0).
Proof.
  induction ns as [|m ms IH]; intros n pre fuel Hn Hns Hf; (destruct fuel as [|fuel]; [lia|]); cbn [number_loop]; unfold small in Hn;
    rewrite zdrop_app_exact, atol_num by (lia || apply more_first); cbn [existsb]; (destruct (n =? val); [done|]); cbn [orb].
  { destruct fuel; [cbn in Hf; lia|done]. }
  apply Forall_cons in Hns as [Hm Hms]. unfold small in Hm.
  set (pre' := pre ++ num n ++ [44]). assert (zlen pre + zlen (num n) + 1 = zlen pre') as -> by (subst pre'; rewrite !zlen_app; unfold zlen; cbn; lia).
  assert (pre ++ num n ++ more (m :: ms) = pre' ++ num m ++ more ms) as ->.
  { subst pre'. unfold more. cbn [fmap list_fmap concat]. rewrite <-!app_assoc. done. }
  destruct (num m) as [|d ds] eqn:Ed; [by apply num_nonempty in Ed|].
  assert (44 ∉ ds) as Hds. { intros Hin. apply (dec_without 44 m); [lia|done|]. rewrite Ed. by right. }
  pose proof (IH m pre' fuel Hm Hms ltac:(cbn in Hf; lia)) as Hnext. rewrite Ed in Hnext. rewrite zlen_cons in Hnext. cbn [existsb] in Hnext.
  unfold strchr_from. rewrite !zlen_app, zlen_cons. pose proof (zlen_nonneg pre'). pose proof (zlen_nonneg ds). pose proof (zlen_nonneg (more ms)).
  replace ((zlen pre' + 1 <? 0) || _) with false by lia. cbn [mbind res_bind].
  assert (zdrop (zlen pre' + 1) (pre' ++ (d :: ds) ++ more ms) = ds ++ more ms) as ->.
  { replace (zlen pre' + 1) with (zlen (pre' ++ [d])) by (rewrite zlen_app; done).
    replace (pre' ++ (d :: ds) ++ more ms) with ((pre' ++ [d]) ++ ds ++ more ms) by (by rewrite <-app_assoc). apply zdrop_app_exact. }
  rewrite <-Hnext. f_equal. destruct ms as [|m2 ms].
  - unfold more. cbn [fmap list_fmap concat]. rewrite app_nil_r, strchr_absent by done. done.
  - unfold more. cbn [fmap list_fmap concat app]. rewrite strchr_first by done. cbn [fmap option_fmap option_map]. f_equal. lia.
Qed.

Lemma more_without_dash ns : Forall small ns -> 45 ∉ more ns.
Proof.
  intros Hns. induction Hns as [|n ns Hn Hns IH]; [apply not_elem_of_nil|]. unfold more. cbn [fmap list_fmap concat].
  apply not_elem_of_app. split; [|done]. apply not_elem_of_cons. split; [done|]. apply dec_without; [unfold small in Hn; lia|done].
Qed.

Lemma number_cmp_text val e : number_ok e -> switch_number_cmp (number_text e) val = Ok (if number_holds val e then 1 else 0).
Proof.
  unfold switch_number_cmp. destruct e as [n|a b|n m ms]; cbn [number_ok number_text number_holds]; unfold small.
  - intros Hn. rewrite !strchr_absent by (apply dec_without; [lia|done]). rewrite <-(app_nil_r (num n)), atol_num by (done || lia). done.
  - intros [Ha Hb]. cbn [app]. rewrite strchr_first by (apply dec_without; [lia|done]). rewrite atol_num by (done || lia).
    rewrite zdrop_behind.
    rewrite <-(app_nil_r (num b)), atol_num by (done || lia). cint. done.
  - intros Hall. apply Forall_cons in Hall as [Hn Hms]. pose proof (more_without_dash (m :: ms) Hms) as Hdash.
    rewrite strchr_absent by (apply not_elem_of_app; split; [apply dec_without; [lia|done]|done]).
    change (more (m :: ms)) with (44 :: num m ++ more ms) at 1. rewrite strchr_first by (apply dec_without; [lia|done]).
    pose proof (number_loop_list val (m :: ms) n [] (length (num n ++ more (m :: ms)) + 3)%nat Hn Hms) as Hl. cbn [app] in Hl. change (zlen []) with 0 in Hl.
    rewrite Z.add_0_l in Hl. apply Hl. cbn [length]. rewrite length_app. unfold more. cbn [fmap list_fmap concat]. clear. rewrite length_app. cbn [length].
    induction ms as [|k ms IH]; cbn [length fmap list_fmap concat]; [lia|]. rewrite length_app. cbn [length]. lia.
Qed.

(** *** Times of day and dates *)

(** Hour, minute and, where given, second. *)
Record clock := Clock { c_hour : numeral; c_min : numeral; c_sec : option numeral }.

Definition clock_ok (c : clock) : Prop := small (c_hour c) /\ small (c_min c) /\ (forall s, c_sec c = Some s -> small s).
Definition sec_text (c : clock) : bytes := match c_sec c with Some s => 58 :: num s | None => [] end.
Definition clock_text (c : clock) : bytes := num (c_hour c) ++ 58 :: num (c_min c) ++ sec_text c.
Definition c_secs (c : clock) : Z := match c_sec c with Some s => s | None => 0 end.
Definition clock_value (c : clock) : Z := c_hour c * 3600 + c_min c * 60 + c_secs c.

Lemma atol_dec_end n : small n -> atol (num n) = n.
Proof. unfold small. intros Hn. rewrite <-(app_nil_r (num n)). apply atol_num; [lia|done]. Qed.

Lemma split_seconds_text c : clock_ok c ->
  exists t, split_seconds (num (c_min c) ++ sec_text c) = (num (c_min c), t) /\ atol t = c_secs c.
Proof.
  intros (_ & Hm & Hs). unfold small in Hm. unfold split_seconds, sec_text, c_secs. destruct (c_sec c) as [s|].
  - rewrite strchr_first, cut_at_first by (apply dec_without; [lia|done]). eexists. split; [done|].
    apply atol_dec_end. by apply Hs.
  - rewrite app_nil_r, strchr_absent by (apply dec_without; [lia|done]). by eexists.
Qed.

Lemma clock_without c x : clock_ok x -> isdigit c = false -> c <> 58 -> c ∉ num (c_min x) ++ sec_text x.
Proof.
  intros (_ & Hm & Hs) Hc H58. unfold small in Hm. apply not_elem_of_app. split; [apply dec_without; [lia|done]|].
  unfold sec_text. destruct (c_sec x) as [s|]; [|apply not_elem_of_nil]. specialize (Hs s eq_refl). unfold small in Hs.
  apply not_elem_of_cons. split; [done|]. apply dec_without; [lia|done].
Qed.

(** An interval of the day includes its beginning and not its end. *)
Lemma tod_cmp_text lo hi val : clock_ok lo -> clock_ok hi ->
  switch_tod_cmp (clock_text lo ++ [45] ++ clock_text hi) val = if (clock_value lo <=? val) && (val <? clock_value hi) then 1 else 0.
Proof.
  intros Hlo Hhi. pose proof Hlo as (Hh & Hm & Hs). pose proof Hhi as (Hh' & Hm' & Hs'). unfold small in Hh, Hh'.
  set (m := num (c_min lo) ++ sec_text lo). set (h := num (c_hour hi)). set (m' := num (c_min hi) ++ sec_text hi).
  assert (clock_text lo ++ [45] ++ clock_text hi = num (c_hour lo) ++ 58 :: m ++ (45 :: h) ++ 58 :: m') as ->.
  { unfold clock_text, m, m', h. cbn [app]. rewrite <-!app_assoc. cbn [app]. by rewrite <-!app_assoc. }
  unfold switch_tod_cmp. rewrite strchr_first by (apply dec_without; [lia|done]). cbn iota. rewrite cut_at_first. cbn iota.
  change ((45 :: h) ++ 58 :: m') with (45 :: h ++ 58 :: m'). rewrite strchr_first by (by apply clock_without). cbn iota. rewrite zdrop_app_exact.
  assert (58 ∉ 45 :: h) as Hh58 by (apply not_elem_of_cons; split; [done|]; apply dec_without; [lia|done]).
  change (45 :: h ++ 58 :: m') with ((45 :: h) ++ 58 :: m'). rewrite strchr_first by done. cbn iota. rewrite ztake_app_exact.
  replace (ztake (zlen (45 :: h) - 1) (zdrop (zlen m + 1) (m ++ (45 :: h) ++ 58 :: m'))) with h.
  2: { rewrite zlen_cons. replace (zlen h + 1 - 1) with (zlen h) by lia. cbn [app]. rewrite zdrop_behind. by rewrite ztake_app_exact. }
  replace (zdrop (zlen m + zlen (45 :: h) + 1) (m ++ (45 :: h) ++ 58 :: m')) with m'.
  2: { rewrite <-zlen_app, app_assoc. by rewrite zdrop_behind. }
  subst m h m'. destruct (split_seconds_text lo Hlo) as (t & -> & Ht). destruct (split_seconds_text hi Hhi) as (t' & -> & Ht'). rewrite Ht, Ht'.
  rewrite !atol_dec_end by done. unfold clock_value. unfold small in *.
  assert (0 <= c_secs lo < 2 ^ 31) by (unfold c_secs; destruct (c_sec lo) as [s|]; [by apply Hs|cbn; lia]).
  assert (0 <= c_secs hi < 2 ^ 31) by (unfold c_secs; destruct (c_sec hi) as [s|]; [by apply Hs'|cbn; lia]).
  rewrite !swrap_small by lia. by rewrite <-!Z.mul_assoc.
Qed.

Record date := Date { d_year : numeral; d_mon : numeral; d_day : numeral }.
Definition date_ok (d : date) : Prop := small (d_year d) /\ small (d_mon d) /\ small (d_day d).
Definition date_text (d : date) : bytes := num (d_year d) ++ 45 :: num (d_mon d) ++ 45 :: num (d_day d).

(** A date and a time as the code hands them to mktime. *)
Definition stamp (d : date) (c : clock) : tm :=
  Tm (c_secs c) (c_min c) (c_hour c) (d_day d) (d_mon d - 1) (d_year d - 1900) 0 0 0 0.
Definition stamp_text (d : date) (c : clock) : bytes := date_text d ++ 32 :: clock_text c.

Lemma small_s32 n : 0 <= n < 2 ^ 31 -> s32 n = n.
Proof. intros ?. apply swrap_small; lia. Qed.

Lemma split_date_text d out : date_ok d -> switch_split_date (date_text d) out = (value (d_year d), value (d_mon d), value (d_day d)).
Proof.
  intros (Hy & Hm & Hd). unfold switch_split_date, date_text. rewrite strchr_first by (apply dec_without; [apply Hy|done]). cbn iota.
  rewrite cut_at_first. cbn iota. rewrite strchr_first by (apply dec_without; [apply Hm|done]). cbn iota. rewrite cut_at_first. cbn iota.
  by rewrite !atol_dec_end, !small_s32 by done.
Qed.

Lemma split_time_text c out : clock_ok c -> switch_split_time (clock_text c) out = (value (c_hour c), value (c_min c), c_secs c).
Proof.
  intros Hc. pose proof Hc as (Hh & Hm & Hs). unfold switch_split_time, clock_text. rewrite strchr_first by (apply dec_without; [apply Hh|done]). cbn iota.
  rewrite cut_at_first. cbn iota. destruct (split_seconds_text c Hc) as (t & -> & ->). rewrite !atol_dec_end by done.
  assert (0 <= c_secs c < 2 ^ 31) by (unfold c_secs; destruct (c_sec c) as [s|]; [by apply Hs|cbn; lia]). by rewrite !small_s32 by done.
Qed.

Lemma date_without c d : date_ok d -> isdigit c = false -> c <> 45 -> c ∉ date_text d.
Proof.
  intros (Hy & Hm & Hd) Hc H45. unfold date_text. unfold small in *.
  apply not_elem_of_app; split; [apply dec_without; [lia|done]|]. apply not_elem_of_cons; split; [done|].
  apply not_elem_of_app; split; [apply dec_without; [lia|done]|]. apply not_elem_of_cons; split; [done|]. apply dec_without; [lia|done].
Qed.

(** A well-formed end leaves nothing of the old numbers. *)
Lemma read_end_text d c n : date_ok d -> clock_ok c -> tm_of <$> read_end (stamp_text d c) n = Some (stamp d c).
Proof.
  intros Hd Hc. unfold read_end, stamp_text. rewrite strchr_first by (by apply date_without). cbn iota. rewrite cut_at_first. cbn iota.
  rewrite split_date_text, split_time_text by done. done.
Qed.

Lemma fulldate_cmp_text {M : Mktime} junk d1 c1 d2 c2 ts : date_ok d1 -> clock_ok c1 -> date_ok d2 -> clock_ok c2 ->
  switch_fulldate_cmp junk (stamp_text d1 c1 ++ 126 :: stamp_text d2 c2) ts
  = if (mktime (stamp d1 c1) <=? Z.quot ts 1000000) && (Z.quot ts 1000000 <? mktime (stamp d2 c2)) then 1 else 0.
Proof.
  intros Hd1 Hc1 Hd2 Hc2. unfold switch_fulldate_cmp. rewrite strchr_first.
  - cbn iota. rewrite cut_at_first. cbn iota. pose proof (read_end_text d1 c1 junk Hd1 Hc1) as H1. destruct (read_end (stamp_text d1 c1) junk) as [n|]; [|done].
    pose proof (read_end_text d2 c2 n Hd2 Hc2) as H2. destruct (read_end (stamp_text d2 c2) n) as [n'|]; [|done].
    injection H1 as ->. injection H2 as ->. done.
  - apply not_elem_of_app; split; [by apply date_without|]. apply not_elem_of_cons; split; [done|]. unfold clock_text.
    pose proof Hc1 as ([Hh _] & _).
    apply not_elem_of_app; split; [by apply dec_without|]. apply not_elem_of_cons; split; [done|]. by apply clock_without.
Qed.

(** *** SIP users *)

Definition host_end (c : Z) : bool := (c =? 58) || (c =? 59) || (c =? 32).

Lemma host_part_app host rest : Forall (fun c => host_end c = false) host -> match rest with c :: _ => host_end c = true | [] => True end ->
  host_part (host ++ rest) = host.
Proof.
  intros Hh Hr. induction Hh as [|c host Hc Hh IH]; cbn [app host_part].
  - destruct rest as [|c rest]; [done|]. cbn [host_part]. by replace ((c =? 58) || (c =? 59) || (c =? 32)) with true.
  - unfold host_end in Hc. by rewrite Hc, IH.
Qed.

(** The user and the host of an address with its scheme, in any case, and with
    a port or parameters behind the host. *)
Theorem user_domain_split (scheme user host rest : bytes) :
  strcaseeq scheme (str "sip:") = true \/ strcaseeq scheme (str "sips:") = true -> 64 ∉ user ->
  Forall (fun c => host_end c = false) host -> match rest with c :: _ => host_end c = true | [] => True end ->
  switch_split_user_domain (Some (scheme ++ user ++ 64 :: host ++ rest)) = Some (Some user, host).
Proof.
  intros Hs Hu Hh Hr. set (tail := user ++ 64 :: host ++ rest). unfold switch_split_user_domain. cbn [mbind option_bind].
  assert (forall t, length scheme = length t -> strcaseeq scheme t = true -> strncaseeq (scheme ++ tail) t (zlen t) = true /\ zdrop (zlen t) (scheme ++ tail) = tail) as Hcut.
  { intros t Hl Ht. assert (zlen scheme = zlen t) as <- by (unfold zlen; lia). split; [|apply zdrop_app_exact]. unfold strncaseeq. rewrite ztake_app_exact.
    assert (ztake (zlen scheme) t = t) as ->; [|done]. apply ztake_all. unfold zlen. lia. }
  assert ((if strncaseeq (scheme ++ tail) (str "sip:") 4 then zdrop 4 (scheme ++ tail)
    else if strncaseeq (scheme ++ tail) (str "sips:") 5 then zdrop 5 (scheme ++ tail) else scheme ++ tail) = tail) as ->.
  { destruct Hs as [Hs|Hs].
    - assert (length scheme = 4%nat) as Hl by (apply strcaseeq_spec, (f_equal length) in Hs; rewrite !length_fmap in Hs; exact Hs).
      change 4 with (zlen (str "sip:")). destruct (Hcut (str "sip:") Hl Hs) as [-> ->]. done.
    - assert (length scheme = 5%nat) as Hl by (apply strcaseeq_spec, (f_equal length) in Hs; rewrite !length_fmap in Hs; exact Hs).
      change 5 with (zlen (str "sips:")). destruct (Hcut (str "sips:") Hl Hs) as [-> ->].
      assert (strncaseeq (scheme ++ tail) (str "sip:") 4 = false) as ->; [|done].
      apply strcaseeq_spec in Hs. do 5 (destruct scheme as [|? scheme]; [done|]). unfold strncaseeq, strcaseeq. apply bool_decide_eq_false_2.
      cbn in Hs |- *. injection Hs as _ _ _ H4 _. intros Heq. injection Heq as _ _ _ H4'. rewrite H4 in H4'. vm_compute in H4'. discriminate. }
  subst tail. rewrite strchr_first by done. cbn iota. rewrite cut_at_first. cbn iota. by rewrite host_part_app.
Qed.

(** ** The condition as a whole *)

(** The attributes of a condition, each where it is given. *)
Record condition := Condition {
  k_tz : option bytes; k_dst : option bytes; k_date : option (date * clock * date * clock);
  k_year : option number_expr; k_yday : option number_expr; k_mon : option number_expr; k_mday : option number_expr;
  k_week : option number_expr; k_mweek : option number_expr; k_wday : option (list dow_item);
  k_hour : option number_expr; k_minute : option number_expr; k_minday : option number_expr; k_tod : option (clock * clock) }.

Definition opt {A} (P : A -> Prop) (o : option A) : Prop := match o with Some a => P a | None => True end.

Definition condition_ok (k : condition) : Prop :=
  opt (fun '(d1, c1, d2, c2) => date_ok d1 /\ clock_ok c1 /\ date_ok d2 /\ clock_ok c2) (k_date k) /\
  opt number_ok (k_year k) /\ opt number_ok (k_yday k) /\ opt number_ok (k_mon k) /\ opt number_ok (k_mday k) /\
  opt number_ok (k_week k) /\ opt number_ok (k_mweek k) /\ opt (Forall item_ok) (k_wday k) /\
  opt number_ok (k_hour k) /\ opt number_ok (k_minute k) /\ opt number_ok (k_minday k) /\
  opt (fun '(a, b) => clock_ok a /\ clock_ok b) (k_tod k).

(** The element has these attributes and no other that matters. *)
Definition written (x : Acl.xml) (k : condition) : Prop :=
  let attr name := Acl.switch_xml_attr x (str name) in
  attr "tz-offset"%string = k_tz k /\ attr "dst"%string = k_dst k /\
  attr "date-time"%string = (fun '(d1, c1, d2, c2) => stamp_text d1 c1 ++ 126 :: stamp_text d2 c2) <$> k_date k /\
  attr "year"%string = number_text <$> k_year k /\ attr "yday"%string = number_text <$> k_yday k /\
  attr "mon"%string = number_text <$> k_mon k /\ attr "mday"%string = number_text <$> k_mday k /\
  attr "week"%string = number_text <$> k_week k /\ attr "mweek"%string = number_text <$> k_mweek k /\
  attr "wday"%string = items_text <$> k_wday k /\ attr "hour"%string = number_text <$> k_hour k /\
  attr "minute"%string = number_text <$> k_minute k /\ attr "minute-of-day"%string = number_text <$> k_minday k /\
  attr "time-of-day"%string = (fun '(a, b) => clock_text a ++ [45] ++ clock_text b) <$> k_tod k.

Definition ask (e : option number_expr) (v : Z) : bool := match e with Some e => number_holds v e | None => true end.

(** The tests of a condition, each on the field of the time it is about; [x] is
    the time at the offset or in the zone asked for, [local] the local time. *)
Definition holds {M : Mktime} (k : condition) (ts eoffset : Z) (x local : tm) : bool :=
  match k_tz k with Some t => negb (negb (zstr (Some t)) && switch_is_number t) || (atoi t =? -1000) || (atoi t =? eoffset) | None => true end
  && (zstr (k_dst k) || ((0 <? tm_isdst local) && switch_true (k_dst k)))
  && match k_date k with
     | Some (d1, c1, d2, c2) => (mktime (stamp d1 c1) <=? Z.quot ts 1000000) && (Z.quot ts 1000000 <? mktime (stamp d2 c2))
     | None => true
     end
  && ask (k_year k) (tm_year x + 1900) && ask (k_yday k) (tm_yday x + 1) && ask (k_mon k) (tm_mon x + 1) && ask (k_mday k) (tm_mday x)
  && ask (k_week k) (Z.quot (tm_yday x) 7 + 1) && ask (k_mweek k) (week_of_month x)
  && match k_wday k with Some l => existsb (item_holds (tm_wday x + 1)) l | None => true end
  && ask (k_hour k) (tm_hour x) && ask (k_minute k) (tm_min x) && ask (k_minday k) (tm_hour x * 60 + (tm_min x + 1))
  && match k_tod k with
     | Some (a, b) => (clock_value a <=? tm_hour x * 60 * 60 + tm_min x * 60 + tm_sec x)
                      && (tm_hour x * 60 * 60 + tm_min x * 60 + tm_sec x <? clock_value b)
     | None => true
     end.

(** A test in the row: the match so far and the test together. *)
Definition nz (m : Z) : bool := negb (m =? 0).

Definition passes (r : res Z) (b : bool) : Prop := exists m, r = Ok m /\ nz m = b.

Lemma check_attr_step {A} (o : option A) text test holds m :
  (forall a, o = Some a -> test (text a) = Ok (if holds a : bool then 1 else 0)) ->
  passes (check_attr (text <$> o) test m) (nz m && match o with Some a => holds a | None => true end).
Proof.
  intros Ht. destruct o as [a|]; cbn [fmap option_fmap option_map check_attr]; [|exists m; by rewrite andb_true_r].
  specialize (Ht a eq_refl). unfold nz at 1. destruct (Z.eqb_spec m 0) as [->|]; [by exists 0|]. rewrite Ht. exists (if holds a then 1 else 0). by destruct (holds a).
Qed.

Lemma check_number_step e v m : opt number_ok e -> passes (check_number (number_text <$> e) v m) (nz m && ask e v).
Proof. intros He. apply (check_attr_step e number_text _ (number_holds v)). intros a ->. by apply number_cmp_text. Qed.

Lemma passes_bind r f b b' : passes r b -> (forall m, nz m = b -> passes (f m) b') -> passes (r ≫= f) b'.
Proof. intros (m & -> & Hm) Hf. by apply Hf. Qed.

(** The next test of the row: its own lemma, then the rest. *)
Ltac next_test lemma := eapply passes_bind; [apply lemma; done|]; 
  let m := fresh "m" in let Hm := fresh "Hm" in intros m Hm; cbn beta; rewrite <-Hm; clear Hm.

Lemma tz_step o eoffset :
  let loffset := if negb (zstr o) && switch_is_number (default [] o) then atoi (default [] o) else -1000 in
  passes (check_attr o (fun _ => Ok (if (if loffset =? -1000 then eoffset else loffset) =? eoffset then 1 else 0)) (-1))
    match o with Some t => negb (negb (zstr (Some t)) && switch_is_number t) || (atoi t =? -1000) || (atoi t =? eoffset) | None => true end.
Proof.
  destruct o as [t|]; [|by exists (-1)]. cbn [check_attr default from_option id]. eexists. split; [done|].
  destruct (negb (zstr (Some t)) && switch_is_number t); cbn [negb orb]; [|by rewrite Z.eqb_refl].
  destruct (atoi t =? -1000) eqn:E; [by rewrite Z.eqb_refl|]. by destruct (atoi t =? eoffset).
Qed.

Lemma dst_step o isdst m :
  let dst := if negb (zstr o) then (if switch_true o then 1 else 0) else -1000 in
  nz (if negb (m =? 0) && (-1 <? dst) then (if (0 <? isdst) && (0 <? dst) then 1 else 0) else m)
  = nz m && (zstr o || ((0 <? isdst) && switch_true o)).
Proof. unfold nz. destruct (zstr o), (switch_true o), (m =? 0) eqn:E, (0 <? isdst); cbn; by rewrite ?E. Qed.

Lemma date_step {M : Mktime} o junk ts m : opt (fun '(d1, c1, d2, c2) => date_ok d1 /\ clock_ok c1 /\ date_ok d2 /\ clock_ok c2) o ->
  passes (check_attr ((fun '(d1, c1, d2, c2) => stamp_text d1 c1 ++ 126 :: stamp_text d2 c2) <$> o) (fun e => Ok (switch_fulldate_cmp junk e ts)) m)
    (nz m && match o with
             | Some (d1, c1, d2, c2) => (mktime (stamp d1 c1) <=? Z.quot ts 1000000) && (Z.quot ts 1000000 <? mktime (stamp d2 c2))
             | None => true
             end).
Proof.
  intros Ho. apply (check_attr_step o _ _ (fun '(d1, c1, d2, c2) => (mktime (stamp d1 c1) <=? Z.quot ts 1000000) && (Z.quot ts 1000000 <? mktime (stamp d2 c2)))).
  intros [[[d1 c1] d2] c2] ->. destruct Ho as (?&?&?&?). f_equal. by apply fulldate_cmp_text.
Qed.

Lemma wday_step o v m : opt (Forall item_ok) o ->
  passes (check_attr (items_text <$> o) (fun e => (fun b : bool => if b then 1 else 0) <$> switch_dow_cmp e v) m)
    (nz m && match o with Some l => existsb (item_holds v) l | None => true end).
Proof. intros Ho. apply (check_attr_step o items_text _ (existsb (item_holds v))). intros l ->. by rewrite dow_cmp_items. Qed.

Lemma tod_step o v m : opt (fun '(a, b) => clock_ok a /\ clock_ok b) o ->
  passes (check_attr ((fun '(a, b) => clock_text a ++ [45] ++ clock_text b) <$> o) (fun e => Ok (switch_tod_cmp e v)) m)
    (nz m && match o with Some (a, b) => (clock_value a <=? v) && (v <? clock_value b) | None => true end).
Proof.
  intros Ho. apply (check_attr_step o _ _ (fun '(a, b) => (clock_value a <=? v) && (v <? clock_value b))).
  intros [a b] ->. destruct Ho as [??]. f_equal. by apply tod_cmp_text.
Qed.

(** The tests of an element. *)
Lemma datetime_tests_hold {H} {SM : StringMap H bytes} (env : surroundings H) xcond k ts eoffset x local :
  written xcond k -> condition_ok k ->
  let dst := if negb (zstr (k_dst k)) then (if switch_true (k_dst k) then 1 else 0) else -1000 in
  let loffset := if negb (zstr (k_tz k)) && switch_is_number (default [] (k_tz k)) then atoi (default [] (k_tz k)) else -1000 in
  passes (datetime_tests env xcond ts dst (if loffset =? -1000 then eoffset else loffset) eoffset x local) (@holds (env_mktime env) k ts eoffset x local).
Proof.
  intros (Htz & Hdst & Hdate & Hyear & Hyday & Hmon & Hmday & Hweek & Hmweek & Hwday & Hhour & Hminute & Hminday & Htod)
    (Kdate & Kyear & Kyday & Kmon & Kmday & Kweek & Kmweek & Kwday & Khour & Kminute & Kminday & Ktod).
  cbn zeta. unfold datetime_tests, holds. rewrite Htz, Hdate, Hyear, Hyday, Hmon, Hmday, Hweek, Hmweek, Hwday, Hhour, Hminute, Hminday, Htod.
  eapply passes_bind; [apply tz_step|]. intros m0 Hm0. cbn beta. rewrite <-Hm0, <-dst_step.
  match goal with |- passes (check_attr _ _ ?d ≫= _) _ => generalize d end. clear m0 Hm0. intros m.
  next_test (date_step (M := env_mktime env)). next_test (check_number_step (k_year k)). next_test (check_number_step (k_yday k)).
  next_test (check_number_step (k_mon k)). next_test (check_number_step (k_mday k)).
  eapply passes_bind; [by apply (check_number_step (k_week k))|]. intros m5 Hm5.
  eapply passes_bind; [by apply (check_number_step (k_week k))|]. intros m6 Hm6. cbn beta. rewrite Hm5, <-andb_assoc, andb_diag in Hm6. rewrite <-Hm6.
  next_test (check_number_step (k_mweek k)). next_test (wday_step (k_wday k)). next_test (check_number_step (k_hour k)).
  next_test (check_number_step (k_minute k)). next_test (check_number_step (k_minday k)). by apply tod_step.
Qed.


(** *** The week of the month *)

(** The week of the month is that of a calendar whose weeks begin on
    Sunday: for any date, the number of Sundays that begin a week of the month
    up to it, counting the week of the first; it is between 1 and 6. *)
Theorem week_of_month_calendar (x : tm) :
  proper_date x ->
  let first := year_start (full_year x) + month_start (full_year x) (tm_mon x) in
  firstdow x = weekday first /\ week_of_month x = (tm_mday x - 1 + weekday first) / 7 + 1 /\ 1 <= week_of_month x <= 6.
Proof.
  intros (Hmon & Hday & _ & _ & _ & Hyday & Hwday). cbn zeta. unfold week_of_month, firstdow, weekday. rewrite Hyday in Hwday.
  pose proof (month_length_range (isleap (full_year x)) (Z.to_nat (tm_mon x)) ltac:(lia)) as Hlen. set (f := year_start (full_year x) + month_start (full_year x) (tm_mon x)).
  replace (year_start (full_year x) + (month_start (full_year x) (tm_mon x) + tm_mday x - 1) + 4) with (f + 4 + (tm_mday x - 1)) in Hwday by (subst f; lia).
  clearbody f. rewrite Hwday. assert (1 <= tm_mday x <= 31) by lia. clear - H. generalize dependent (tm_mday x). intros d Hd.
  assert (Z.rem (7 - Z.rem (d - ((f + 4 + (d - 1)) mod 7 + 1)) 7) 7 = (f + 4) mod 7) as ->; Z.to_euclidean_division_equations; lia.
Qed.

Lemma week_of_month_calendar_witness : let x := Tm 0 0 0 29 1 100 2 59 0 0 in
  firstdow x = 2 /\ week_of_month x = 5 /\ 1 <= week_of_month x <= 6.
Proof.
  apply (week_of_month_calendar (Tm 0 0 0 29 1 100 2 59 0 0)). unfold proper_date. repeat split; vm_compute; (reflexivity || discriminate).
Defined.

(** *** Office hours in New Zealand *)

#[local] Instance zones_map : StringMap (HashTable.switch_hashtable bytes bytes Z) bytes := core_hash_string_map true.

Definition sample_cfg : Acl.xml :=
  Acl.Xml (str "configuration") [] [Acl.Xml (str "timezones") []
    [Acl.Xml (str "zone") [(str "name", str "GMT"); (str "value", str "GMT0")] [];
     Acl.Xml (str "zone") [(str "name", str "Pacific/Auckland"); (str "value", zone_text (str "NZST") (str "NZDT") new_zealand)] []]].

(** Midnight of January 1st 2015 in Greenwich; the host keeps universal time. *)
Definition sample_env : surroundings (HashTable.switch_hashtable bytes bytes Z) :=
  let utc ts off := match timesub (Z.quot ts 1000000) off zero_state with Ok x => TimeExp 0 x | _ => TimeExp 0 (Tm 0 0 0 0 0 0 0 0 0 0) end in
  Surroundings _ 1420070400000000 (fun ts => utc ts 0) utc (switch_load_timezones (Some sample_cfg)) seconds
    (TimeExp 0 (Tm 0 0 0 0 0 0 0 0 0 0)) ((0, 0, 0), (0, 0, 0)).

Definition office_hours : condition :=
  let n := Numeral 0 in
  Condition None None None (Some (OneOf (n 2014) (n 2015) [n 2016])) None (Some (Span (n 1) (Numeral 1 6))) None None None
    (Some [Range 2 (str "mon") 6 (str "FRI"); Range 7 (str "sat") 1 (str "sun")]) None None None
    (Some (Clock (Numeral 1 8) (Numeral 1 0) None, Clock (n 17) (n 30) (Some (Numeral 1 0)))).

Definition office_element : Acl.xml :=
  Acl.Xml (str "condition") [(str "wday", str "mon-FRI,sat-sun"); (str "time-of-day", str "08:00-17:30:00"); (str "mon", str "1-06"); (str "year", str "2014,2015,2016")] [].


(** ** Flaws *)

(** A list of numbers that ends in a comma is read behind its end; an empty
    entry is zero and hides the next one; a range hides the rest of a list. *)
Theorem number_list_flaws :
  switch_number_cmp (str "5,") 6 = Fault
  /\ switch_number_cmp (str "5,,6") 6 = Ok 0 /\ switch_number_cmp (str "5,,6") 0 = Ok 1
  /\ switch_number_cmp (str "1-3,5") 5 = Ok 0.
Proof. vm_compute. done. Qed.

(** A range of days over the end of the week is only its first day, and a range
    left open before a comma goes on to the next day of the list. *)
Theorem weekday_flaws :
  switch_dow_cmp (str "sat-mon") 7 = Ok true /\ switch_dow_cmp (str "sat-mon") 1 = Ok false
  /\ switch_dow_cmp (str "mon-,thu") 4 = Ok true.
Proof. vm_compute. done. Qed.

(** The comments of the sample dialplan (sample-conf/dialplan/default.xml) do
    not say what the conditions mean: 540-1080 is not 9am to 6pm, since it holds
    at 8:59 and not at 18:00, and the weekday 2 in the third week of a month is
    not always its third Monday: January 21st 2019 is the third Monday of its
    month and lies in the fourth week of the calendar. *)
Definition day_of_january (d wday hour min : Z) : switch_time_exp_t := TimeExp 0 (Tm 0 min hour d 0 119 wday (d - 1) 0 0).

Definition at_time (x : switch_time_exp_t) : surroundings (HashTable.switch_hashtable bytes bytes Z) :=
  Surroundings _ 1420070400000000 (fun _ => x) (fun _ _ => x) (switch_load_timezones (Some sample_cfg)) seconds x ((0, 0, 0), (0, 0, 0)).

Theorem sample_dialplan_differs :
  let check attrs x := switch_xml_std_datetime_check (at_time x) (Acl.Xml (str "condition") attrs []) None None in
  let nine_to_six := check [(str "minute-of-day", str "540-1080")] in
  let king_day := check [(str "wday", str "2"); (str "mweek", str "3"); (str "mon", str "1")] in
  nine_to_six (day_of_january 21 1 8 59) = Ok 1 /\ nine_to_six (day_of_january 21 1 17 59) = Ok 1
  /\ nine_to_six (day_of_january 21 1 18 0) = Ok 0
  /\ king_day (day_of_january 14 1 12 0) = Ok 1 /\ king_day (day_of_january 21 1 12 0) = Ok 0.
Proof. vm_compute. done. Qed.

(** The name and the number of a day do not fit together. *)
Theorem day_names_shifted : switch_dow_int2str (switch_dow_str2int (str "sun")) = str "mon".
Proof. vm_compute. reflexivity. Qed.

Lemma check_attr_failed x test : check_attr x test 0 = Ok 0.
Proof. by destruct x. Qed.

(** A condition that asks for winter time never holds. *)
Theorem winter_time_never {H} {SM : StringMap H bytes} (env : surroundings H) xcond offset tzname r e :
  Acl.switch_xml_attr xcond (str "dst") = Some e -> e <> [] -> switch_true (Some e) = false ->
  switch_xml_std_datetime_check env xcond offset tzname = Ok r -> r = 0.
Proof.
  intros He Hne Ht. unfold switch_xml_std_datetime_check. rewrite He. unfold zstr at 1. rewrite bool_decide_eq_false_2, Ht by done. cbn [negb].
  destruct (check_time env offset tzname (now env)) as [x| |]; cbn [mbind res_bind]; [|done..]. unfold datetime_tests.
  destruct (check_attr _ _ (-1)) as [m| |]; cbn [mbind res_bind]; [|done..].
  replace (if negb (m =? 0) && (-1 <? 0) then _ else m) with 0 by (cbn [Z.ltb Z.compare]; rewrite andb_false_r, andb_true_r; destruct (Z.eqb_spec m 0); done).
  unfold check_number. do 12 (rewrite check_attr_failed; cbn [mbind res_bind]). rewrite check_attr_failed. by intros [= <-].
Qed.

(** A date without its day is compared with what the stack held. *)
Theorem fulldate_reads_garbage :
  let M : Mktime := fun x => 86400 * (365 * (tm_year x - 70) + 31 * tm_mon x + tm_mday x) in
  exists junk junk', @switch_fulldate_cmp M junk (str "2009-10 14:33:22~2009-11-10 17:32:31") 1257000000000000
    <> @switch_fulldate_cmp M junk' (str "2009-10 14:33:22~2009-11-10 17:32:31") 1257000000000000.
Proof. exists ((0, 0, 0), (0, 0, 0)), ((3000, 0, 0), (0, 0, 0)). vm_compute. discriminate. Qed.

End TimeCond.
