(* ===== verification/XmlTree.v ===== *)
(** * The tree of an XML document

    src/lib/libfreeswitch/switch_xml.c: the tags of a document, the three lists
    they are linked in, inserting and cutting tags, looking up tags and
    attributes, and merging the settings of a user with those of the group and
    the domain.

    A tag is a [node] at an address of the heap [nodes]; the pointers of the C
    struct are addresses.  The tags below a parent are on the list [ordered] in
    the order of their offsets, those of the same name on a list [next], and the
    first ones of each name on the list [sibling].  A pointer that leads nowhere
    is [Fault], a list that runs in a circle ends in [NoFuel]: walks have the
    number of tags as fuel.  Strings are values; which of them are malloced is
    not recorded, and freeing is not modelled. *)

From stdpp Require Import sorting.
From S2P Require Import Prelude Outcome CString.
Import CString.

Module XmlTree.

(** ** Data *)

(** The value of an attribute: the literal "" the parser puts where no value
    is given, or a string of its own. *)
Inductive value := Literal | Own (s : bytes).

Definition text_of (v : value) : bytes := match v with Literal => [] | Own s => s end.

Record node := Node {
  n_name : option bytes; n_attr : list (bytes * value); n_txt : bytes; n_off : Z;
  n_next : option Z; n_sibling : option Z; n_ordered : option Z; n_child : option Z; n_parent : option Z }.

Definition with_name (v : option bytes) (n : node) : node :=
  Node v (n_attr n) (n_txt n) (n_off n) (n_next n) (n_sibling n) (n_ordered n) (n_child n) (n_parent n).
Definition with_attr (v : list (bytes * value)) (n : node) : node :=
  Node (n_name n) v (n_txt n) (n_off n) (n_next n) (n_sibling n) (n_ordered n) (n_child n) (n_parent n).
Definition with_txt (v : bytes) (n : node) : node :=
  Node (n_name n) (n_attr n) v (n_off n) (n_next n) (n_sibling n) (n_ordered n) (n_child n) (n_parent n).
Definition with_next (v : option Z) (n : node) : node :=
  Node (n_name n) (n_attr n) (n_txt n) (n_off n) v (n_sibling n) (n_ordered n) (n_child n) (n_parent n).
Definition with_sibling (v : option Z) (n : node) : node :=
  Node (n_name n) (n_attr n) (n_txt n) (n_off n) (n_next n) v (n_ordered n) (n_child n) (n_parent n).
Definition with_ordered (v : option Z) (n : node) : node :=
  Node (n_name n) (n_attr n) (n_txt n) (n_off n) (n_next n) (n_sibling n) v (n_child n) (n_parent n).
Definition with_child (v : option Z) (n : node) : node :=
  Node (n_name n) (n_attr n) (n_txt n) (n_off n) (n_next n) (n_sibling n) (n_ordered n) v (n_parent n).
Definition placed (off : Z) (p : Z) (n : node) : node :=
  Node (n_name n) (n_attr n) (n_txt n) off None None None (n_child n) (Some p).
Definition unlinked (n : node) : node :=
  Node (n_name n) (n_attr n) (n_txt n) (n_off n) None None None (n_child n) (n_parent n).

Abbreviation heap := (gmap Z node).

Definition deref (h : heap) (a : Z) : res node := match h !! a with Some n => Ok n | None => Fault end.
Definition upd (h : heap) (a : Z) (f : node -> node) : res heap := n ← deref h a; Ok (<[a := f n]> h).

(** [strcmp] with a name that may be NULL. *)
Definition named (name : bytes) (n : node) : res bool := match n_name n with Some s => Ok (streq name s) | None => Fault end.

(** ** Walks along a list *)

Definition fuel (h : heap) : nat := S (size h).

(** [while (p && !stop(p)) p = p->step] *)
Fixpoint seek (k : nat) (h : heap) (step : node -> option Z) (stop : node -> res bool) (p : option Z) : res (option Z) :=
  match p, k with
  | None, _ => Ok None
  | Some _, O => NoFuel
  | Some a, S k => n ← deref h a; b ← stop n; if b : bool then Ok (Some a) else seek k h step stop (step n)
  end.

(** The same, with the tag before the one it stops at. *)
Fixpoint seek_prev (k : nat) (h : heap) (stop : node -> res bool) (prev cur : option Z) : res (option Z * option Z) :=
  match cur, k with
  | None, _ => Ok (prev, None)
  | Some _, O => NoFuel
  | Some a, S k => n ← deref h a; b ← stop n; if b : bool then Ok (prev, Some a) else seek_prev k h stop (Some a) (n_sibling n)
  end.

(** [while (cur->step && cur->step->off <= off) cur = cur->step] *)
Fixpoint last_before (k : nat) (h : heap) (step : node -> option Z) (off : Z) (cur : Z) : res Z :=
  match k with
  | O => NoFuel
  | S k =>
    n ← deref h cur;
    match step n with
    | None => Ok cur
    | Some b => nb ← deref h b; if n_off nb <=? off then last_before k h step off b else Ok cur
    end
  end.

(** [while (cur->step != x) cur = cur->step], where the list may not end. *)
Fixpoint before (k : nat) (h : heap) (step : node -> option Z) (stop : Z -> res bool) (cur : Z) : res Z :=
  match k with
  | O => NoFuel
  | S k =>
    n ← deref h cur;
    match step n with
    | None => Fault
    | Some b => s ← stop b; if s : bool then Ok cur else before k h step stop b
    end
  end.

(** ** Inserting *)

(** The list of all tags of the parent. *)
Definition insert_ordered (x dest head : Z) (off : Z) (h : heap) : res heap :=
  nh ← deref h head;
  if n_off nh <=? off then
    cur ← last_before (fuel h) h n_ordered off head;
    nc ← deref h cur;
    h ← upd h x (with_ordered (n_ordered nc));
    upd h cur (with_ordered (Some x))
  else
    h ← upd h x (with_ordered (Some head));
    upd h dest (with_child (Some x)).

(** The lists by name. *)
Definition insert_named (x head : Z) (off : Z) (h : heap) : res heap :=
  nx ← deref h x;
  '(prev, cur) ← seek_prev (fuel h) h (fun n => match n_name n, n_name nx with Some a, Some b => Ok (streq a b) | _, _ => Fault end) None (Some head);
  first ← (match cur with Some c => nc ← deref h c; Ok (negb (n_off nc <=? off)) | None => Ok true end);
  match cur, first with
  | Some c, false =>
    cur ← last_before (fuel h) h n_next off c;
    nc ← deref h cur;
    h ← upd h x (with_next (n_next nc));
    upd h cur (with_next (Some x))
  | _, _ =>
    h ← (match prev, cur with Some p, Some c => nc ← deref h c; upd h p (with_sibling (n_sibling nc)) | _, _ => Ok h end);
    h ← upd h x (with_next cur);
    '(prev, cur) ← seek_prev (fuel h) h (fun n => Ok (negb (n_off n <=? off))) None (Some head);
    h ← upd h x (with_sibling cur);
    match prev with Some p => upd h p (with_sibling (Some x)) | None => Ok h end
  end.

Definition switch_xml_insert (x dest : Z) (off : Z) (h : heap) : res heap :=
  h ← upd h x (placed off dest);
  nd ← deref h dest;
  match n_child nd with
  | Some head => h ← insert_ordered x dest head off h; insert_named x head off h
  | None => upd h dest (with_child (Some x))
  end.

(** ** Cutting *)

Definition patch_sibling (x : Z) (h : heap) : res heap :=
  nx ← deref h x;
  match n_next nx with Some y => upd h y (with_sibling (n_sibling nx)) | None => Ok h end.

(** The tag from which the list [next] is searched for [x]. *)
Definition cut_sibling (x head : Z) (h : heap) : res (heap * Z) :=
  nx ← deref h x; nc ← deref h head;
  same ← (match n_name nc, n_name nx with Some a, Some b => Ok (streq a b) | _, _ => Fault end);
  if same : bool then Ok (h, head)
  else
    cur ← before (fuel h) h n_sibling
            (fun b => nb ← deref h b; match n_name nb, n_name nx with Some a, Some b => Ok (streq a b) | _, _ => Fault end) head;
    ncur ← deref h cur;
    match n_sibling ncur with
    | None => Fault
    | Some s =>
      if s =? x then
        h ← upd h cur (with_sibling (match n_next nx with Some y => Some y | None => n_sibling nx end));
        Ok (h, cur)
      else Ok (h, s)
    end.

Fixpoint cut_next (k : nat) (x cur : Z) (h : heap) : res heap :=
  match k with
  | O => NoFuel
  | S k =>
    n ← deref h cur;
    match n_next n with
    | None => Ok h
    | Some b =>
      if b =? x then nb ← deref h b; upd h cur (with_next (n_next nb))
      else cut_next k x b h
    end
  end.

Definition switch_xml_cut (x : Z) (h : heap) : res heap :=
  h ← patch_sibling x h;
  nx ← deref h x;
  h ← (match n_parent nx with
       | None => Ok h
       | Some p =>
         np ← deref h p;
         match n_child np with
         | None => Fault
         | Some head =>
           if head =? x then upd h p (with_child (n_ordered nx))
           else
             cur ← before (fuel h) h n_ordered (fun b => Ok (b =? x)) head;
             h ← upd h cur (with_ordered (n_ordered nx));
             '(h, cur) ← cut_sibling x head h;
             cut_next (fuel h) x cur h
         end
       end);
  upd h x unlinked.

(** ** Looking up *)

Definition switch_xml_child (h : heap) (xml : option Z) (name : bytes) : res (option Z) :=
  match xml with
  | None => Ok None
  | Some a => n ← deref h a; seek (fuel h) h n_sibling (named name) (n_child n)
  end.

Fixpoint idx_loop (h : heap) (xml : option Z) (idx : nat) : res (option Z) :=
  match xml, idx with
  | Some a, S i => n ← deref h a; idx_loop h (n_next n) i
  | _, _ => Ok xml
  end.

(** A negative index counts down through all of [int]; the list ends first. *)
Definition switch_xml_idx (h : heap) (xml : option Z) (idx : Z) : res (option Z) :=
  idx_loop h xml (if idx <? 0 then fuel h else Z.to_nat idx).

(** The arguments: names, each followed by an index; an empty name or a
    negative index ends them. *)
Fixpoint switch_xml_vget (h : heap) (xml : option Z) (path : list (bytes * Z)) : res (option Z) :=
  match path with
  | [] => Ok xml
  | (name, idx) :: path =>
    if bool_decide (name = []) then Ok xml
    else
      xml ← switch_xml_child h xml name;
      if idx <? 0 then Ok xml else xml ← switch_xml_idx h xml idx; switch_xml_vget h xml path
  end.

Definition switch_xml_get (h : heap) (xml : option Z) (path : list (bytes * Z)) : res (option Z) := switch_xml_vget h xml path.

(** Attributes with a default, per tag: name, default and its kind. *)
Abbreviation defaults := (list (bytes * list (bytes * option bytes * Z))).

Definition find_attr (l : list (bytes * value)) (attr : bytes) : option value :=
  (fun '(_, (_, v)) => v) <$> list_find (fun '(n, _) => n = attr) l.

Definition default_entry (ds : defaults) (name : option bytes) : option (list (bytes * option bytes * Z)) :=
  match name with
  | None => snd <$> head ds
  | Some name => (fun '(_, (_, l)) => l) <$> list_find (fun '(t, _) => t = name) ds
  end.

Definition find_default (l : list (bytes * option bytes * Z)) (attr : bytes) : option (bytes * option bytes * Z) :=
  snd <$> list_find (fun '(n, _, _) => n = attr) l.

Definition switch_xml_attr (ds : defaults) (h : heap) (xml : option Z) (attr : bytes) : res (option bytes) :=
  match xml with
  | None => Ok None
  | Some a =>
    n ← deref h a;
    match find_attr (n_attr n) attr with
    | Some v => Ok (Some (text_of v))
    | None => Ok (default_entry ds (n_name n) ≫= fun l => find_default l attr ≫= fun '(_, v, _) => v)
    end
  end.

Definition switch_xml_attr_soft (ds : defaults) (h : heap) (xml : option Z) (attr : bytes) : res bytes :=
  r ← switch_xml_attr ds h xml attr; Ok (default [] r).

(** [for (p = start; p; p = p->next) if (test(p)) break;] *)
Fixpoint next_loop (k : nat) (h : heap) (test : Z -> res bool) (p : option Z) : res (option Z) :=
  match p, k with
  | None, _ => Ok None
  | Some _, O => NoFuel
  | Some a, S k => b ← test a; if b : bool then Ok (Some a) else n ← deref h a; next_loop k h test (n_next n)
  end.

Definition switch_xml_find_child (ds : defaults) (h : heap) (xml : option Z) (childname attrname val : option bytes) : res (option Z) :=
  match childname, attrname, val with
  | Some c, Some a, Some v =>
    p ← switch_xml_child h xml c;
    next_loop (fuel h) h (fun p => r ← switch_xml_attr ds h (Some p) a; Ok (match r with Some s => strcaseeq s v | None => false end)) p
  | _, _, _ => Ok xml
  end.

(** One wanted attribute: a value behind an exclamation mark is one it must not
    have. *)
Definition attr_fits (aname val : bytes) : bool :=
  match val with
  | 33 :: sval => negb (strcaseeq aname sval)
  | _ => strcaseeq aname val
  end.

Fixpoint any_fits (ds : defaults) (h : heap) (p : Z) (wanted : list (bytes * bytes)) : res bool :=
  match wanted with
  | [] => Ok false
  | (a, v) :: wanted =>
    r ← switch_xml_attr ds h (Some p) a;
    if match r with Some s => attr_fits s v | None => false end then Ok true else any_fits ds h p wanted
  end.

Definition switch_xml_find_child_multi (ds : defaults) (h : heap) (xml : option Z) (childname : option bytes) (wanted : list (bytes * bytes))
  : res (option Z) :=
  let wanted := ztake 255 wanted in
  match childname, wanted with
  | Some c, _ :: _ => p ← switch_xml_child h xml c; next_loop (fuel h) h (fun p => any_fits ds h p wanted) p
  | _, _ => Ok xml
  end.

(** ** Documents *)

(** What went wrong, in place of the text of the message. *)
Inductive xml_error :=
  | RootTagMissing | MarkupOutside | MissingQuote (q : Z) | MissingClose | UnexpectedClosing (name : bytes)
  | UnclosedComment | UnclosedCdata | UnclosedDoctype | UnclosedInstruction | UnexpectedOpen | UnclosedTag (name : bytes)
  | CircularEntity (name : bytes) | UnclosedAttlist | MalformedAttlist.

(** A processing instruction with the mark that says whether it came before
    the root tag (60) or behind its beginning (62). *)
Abbreviation instructions := (list (bytes * list (bytes * Z))).

(** struct switch_xml_root: the tree, whose root tag is at address 0, and what
    belongs to the document.  [d_brk] is the next free address. *)
Record doc := Doc {
  d_nodes : heap; d_brk : Z; d_cur : option Z; d_ent : list (bytes * bytes); d_attr : defaults; d_pi : instructions;
  d_standalone : bool; d_err : option xml_error }.

Definition on_nodes (h : heap) (d : doc) : doc := Doc h (d_brk d) (d_cur d) (d_ent d) (d_attr d) (d_pi d) (d_standalone d) (d_err d).
Definition with_cur (c : option Z) (d : doc) : doc := Doc (d_nodes d) (d_brk d) c (d_ent d) (d_attr d) (d_pi d) (d_standalone d) (d_err d).
Definition with_ent (e : list (bytes * bytes)) (d : doc) : doc := Doc (d_nodes d) (d_brk d) (d_cur d) e (d_attr d) (d_pi d) (d_standalone d) (d_err d).
Definition with_defaults (a : defaults) (d : doc) : doc := Doc (d_nodes d) (d_brk d) (d_cur d) (d_ent d) a (d_pi d) (d_standalone d) (d_err d).
Definition with_pi (p : instructions) (d : doc) : doc := Doc (d_nodes d) (d_brk d) (d_cur d) (d_ent d) (d_attr d) p (d_standalone d) (d_err d).
Definition with_standalone (b : bool) (d : doc) : doc := Doc (d_nodes d) (d_brk d) (d_cur d) (d_ent d) (d_attr d) (d_pi d) b (d_err d).
Definition with_err (e : option xml_error) (d : doc) : doc := Doc (d_nodes d) (d_brk d) (d_cur d) (d_ent d) (d_attr d) (d_pi d) (d_standalone d) e.

Definition default_ent : list (bytes * bytes) :=
  [(str "lt;", str "&#60;"); (str "gt;", str "&#62;"); (str "quot;", [38; 35; 51; 52; 59]); (str "apos;", str "&#39;"); (str "amp;", str "&#38;")].

Definition root_node (name : option bytes) : node := Node name [] [] 0 None None None None None.

Definition switch_xml_new (name : option bytes) : doc :=
  Doc {[0 := root_node name]} 1 (Some 0) default_ent [] [] false None.

Definition switch_xml_add_child (xml : Z) (name : bytes) (off : Z) (d : doc) : res (doc * Z) :=
  let child := d_brk d in
  let h := <[child := Node (Some name) [] [] off None None None None (Some xml)]> (d_nodes d) in
  h ← switch_xml_insert child xml off h;
  Ok (Doc h (child + 1) (d_cur d) (d_ent d) (d_attr d) (d_pi d) (d_standalone d) (d_err d), child).

Definition switch_xml_set_txt (xml : Z) (txt : bytes) (d : doc) : res doc :=
  h ← upd (d_nodes d) xml (with_txt txt); Ok (on_nodes h d).

(** Replaces the value of the first attribute of the name, or adds one behind
    the others. *)
Fixpoint set_attr (l : list (bytes * value)) (name val : bytes) : list (bytes * value) :=
  match l with
  | [] => [(name, Own val)]
  | (n, w) :: l => if streq n name then (n, Own val) :: l else (n, w) :: set_attr l name val
  end.

(** Without a value, an attribute that is there should be removed; the code
    moves two pointers too many, from behind the block, and then accesses the
    list of flags through one of them. *)
Definition switch_xml_set_attr (xml : Z) (name : bytes) (val : option bytes) (d : doc) : res doc :=
  match val with
  | Some v => h ← upd (d_nodes d) xml (fun n => with_attr (set_attr (n_attr n) name v) n); Ok (on_nodes h d)
  | None => n ← deref (d_nodes d) xml; match find_attr (n_attr n) name with None => Ok d | Some _ => Fault end
  end.

Definition switch_xml_pi (d : doc) (target : bytes) : list bytes :=
  match list_find (fun '(t, _) => t = target) (d_pi d) with
  | Some (_, (_, l)) => l.*1
  | None => []
  end.

(** ** Merging the settings of a user *)

(** The inner loop: does [itag] have a tag whose name attribute is [var]? *)
Definition has_param (d : doc) (itag : Z) (tag_name : bytes) (var : option bytes) : res bool :=
  p ← switch_xml_child (d_nodes d) (Some itag) tag_name;
  r ← next_loop (fuel (d_nodes d)) (d_nodes d) (fun p =>
        ivar ← switch_xml_attr (d_attr d) (d_nodes d) (Some p) (str "name");
        Ok (match var, ivar with Some v, Some i => strcaseeq v i | _, _ => false end)) p;
  Ok (bool_decide (is_Some r)).

(** The outer loop, over the tags [param] of the other document. *)
Fixpoint merge_loop (k : nat) (src : doc) (itag : Z) (tag_name : bytes) (param : option Z) (d : doc) : res doc :=
  match param, k with
  | None, _ => Ok d
  | Some _, O => NoFuel
  | Some p, S k =>
    var ← switch_xml_attr (d_attr src) (d_nodes src) (Some p) (str "name");
    val ← switch_xml_attr (d_attr src) (d_nodes src) (Some p) (str "value");
    found ← has_param d itag tag_name var;
    d ← (if found : bool then Ok d
         else
           '(d, iitag) ← switch_xml_add_child itag tag_name 0 d;
           d ← switch_xml_set_attr iitag (str "name") (Some (default [] var)) d;
           switch_xml_set_attr iitag (str "value") (Some (default [] val)) d);
    n ← deref (d_nodes src) p;
    merge_loop k src itag tag_name (n_next n) d
  end.

Definition do_merge (inn : Z) (src : doc) (s : option Z) (container tag_name : bytes) (d : doc) : res doc :=
  itag ← switch_xml_child (d_nodes d) (Some inn) container;
  '(d, itag) ← (match itag with Some i => Ok (d, i) | None => switch_xml_add_child inn container 0 d end);
  tag ← switch_xml_child (d_nodes src) s container;
  match tag with
  | None => Ok d
  | Some t =>
    param ← switch_xml_child (d_nodes src) (Some t) tag_name;
    merge_loop (fuel (d_nodes src)) src itag tag_name param d
  end.

Definition switch_xml_merge_user (user : Z) (domain_doc : doc) (domain : option Z) (group_doc : doc) (group : option Z) (d : doc) : res doc :=
  domain_name ← switch_xml_attr (d_attr domain_doc) (d_nodes domain_doc) domain (str "name");
  d ← do_merge user group_doc group (str "params") (str "param") d;
  d ← do_merge user group_doc group (str "variables") (str "variable") d;
  d ← do_merge user group_doc group (str "profile-variables") (str "variable") d;
  d ← do_merge user domain_doc domain (str "params") (str "param") d;
  d ← do_merge user domain_doc domain (str "variables") (str "variable") d;
  d ← do_merge user domain_doc domain (str "profile-variables") (str "variable") d;
  if zstr domain_name then Ok d
  else switch_xml_set_attr user (str "domain-name") (Some (default [] domain_name)) d.

(** ** Lists in the heap *)

(** The field [f] of the tag at [a]. *)
Definition link {A} (f : node -> A) (h : heap) (a : Z) : option A := f <$> h !! a.

(** From [p] along [f] the heap has the tags [l]; [seg] stops at [q]. *)
Fixpoint seg (f : node -> option Z) (h : heap) (p : option Z) (l : list Z) (q : option Z) : Prop :=
  match l with
  | [] => p = q
  | a :: l => p = Some a /\ exists r, link f h a = Some r /\ seg f h r l q
  end.

Abbreviation chain f h p l := (seg f h p l None).

(** Two heaps that differ in what [er] forgets. *)
Definition like {A} (er : node -> A) (h h' : heap) : Prop := forall a, er <$> h' !! a = er <$> h !! a.

Section chains.
Context (f : node -> option Z).
Implicit Types (h : heap) (l : list Z).

Lemma seg_frame h h' l : forall p q, (forall a, a ∈ l -> link f h' a = link f h a) -> seg f h p l q -> seg f h' p l q.
Proof.
  induction l as [|a l IH]; intros p q Hl; [done|]. intros (-> & r & Hr & Hs). split; [done|]. exists r. split; [by rewrite Hl by set_solver|].
  apply IH; [set_solver|done].
Qed.

Lemma seg_app h l1 l2 : forall p q, seg f h p (l1 ++ l2) q <-> exists r, seg f h p l1 r /\ seg f h r l2 q.
Proof.
  induction l1 as [|a l1 IH]; intros p q; simpl.
  - split; [by exists p|]. by intros (r & -> & Hs).
  - split.
    + intros (-> & r & Hr & Hs). apply IH in Hs as (r' & H1 & H2). exists r'. split; [|done]. split; [done|]. by exists r.
    + intros (r' & (-> & r & Hr & H1) & H2). split; [done|]. exists r. split; [done|]. apply IH. by exists r'.
Qed.

Lemma chain_head h p l : chain f h p l -> p = head l.
Proof. destruct l; simpl; [done|]. by intros [-> _]. Qed.

Lemma chain_elem h l : forall p a, chain f h p l -> a ∈ l -> is_Some (h !! a).
Proof.
  induction l as [|b l IH]; intros p a Hc Ha; [set_solver|]. destruct Hc as (-> & r & Hr & Hc).
  apply elem_of_cons in Ha as [->|Ha]; [|by apply (IH r)]. unfold link in Hr. destruct (h !! b); [done|discriminate].
Qed.

Lemma nodup_size h l : NoDup l -> (forall a, a ∈ l -> is_Some (h !! a)) -> (length l <= size h)%nat.
Proof.
  intros Hn Hl. rewrite <-size_dom, <-(size_list_to_set (C := gset Z) l) by done. apply subseteq_size. intros a Ha.
  apply elem_of_list_to_set in Ha. apply elem_of_dom. by apply Hl.
Qed.

Lemma chain_size h p l : NoDup l -> chain f h p l -> (length l < fuel h)%nat.
Proof. intros Hn Hc. unfold fuel. apply Nat.lt_succ_r. apply nodup_size; [done|]. intros a. by apply (chain_elem h l p). Qed.

(** Putting [x] behind [c]. *)
Lemma chain_splice h h' p l1 c x l2 : NoDup (l1 ++ c :: l2) -> chain f h p (l1 ++ c :: l2) ->
  link f h' c = Some (Some x) -> link f h' x = Some (head l2) -> (forall a, a ∈ l1 ++ l2 -> link f h' a = link f h a) ->
  chain f h' p (l1 ++ c :: x :: l2).
Proof.
  intros Hn Hc Hcx Hx Hf. apply seg_app in Hc as (r & H1 & (-> & r & Hr & H2)). apply seg_app. exists (Some c).
  split; [by apply (seg_frame h); [set_solver|]|]. split; [done|]. exists (Some x). split; [done|]. split; [done|]. exists (head l2). split; [done|].
  rewrite <-(chain_head _ _ _ H2). apply (seg_frame h); [set_solver|done].
Qed.

(** Taking the tag behind [c] out. *)
Lemma chain_unsplice h h' p l1 c x l2 : NoDup (l1 ++ c :: x :: l2) -> chain f h p (l1 ++ c :: x :: l2) ->
  link f h' c = Some (head l2) -> (forall a, a ∈ l1 ++ l2 -> link f h' a = link f h a) ->
  chain f h' p (l1 ++ c :: l2).
Proof.
  intros Hn Hc Hcx Hf. apply seg_app in Hc as (r & H1 & (-> & r & Hr & (-> & r' & Hr' & H2))). apply seg_app. exists (Some c).
  split; [by apply (seg_frame h); [set_solver|]|]. split; [done|]. exists (head l2). split; [done|].
  rewrite <-(chain_head _ _ _ H2). apply (seg_frame h); [set_solver|done].
Qed.

End chains.

Lemma link_insert {A} (f : node -> A) h a n b : link f (<[a := n]> h) b = if decide (a = b) then Some (f n) else link f h b.
Proof. unfold link. destruct (decide (a = b)) as [->|]; [by rewrite lookup_insert_eq|by rewrite lookup_insert_ne]. Qed.

Lemma link_like {A B} (er : node -> B) (f : node -> A) (g : B -> A) h h' a :
  (forall n, f n = g (er n)) -> like er h h' -> link f h' a = link f h a.
Proof.
  intros Hg Hl. unfold link. specialize (Hl a). destruct (h !! a), (h' !! a); simpl in *; try done; injection Hl as Hl. by rewrite !Hg, Hl.
Qed.

Lemma heap_like_refl {A} (er : node -> A) h : like er h h.
Proof. done. Qed.

Lemma heap_like_trans {A} (er : node -> A) h1 h2 h3 : like er h1 h2 -> like er h2 h3 -> like er h1 h3.
Proof. intros H12 H23 a. by rewrite H23, H12. Qed.

Lemma like_insert {A} (er : node -> A) h a n n' : h !! a = Some n -> er n' = er n -> like er h (<[a := n']> h).
Proof. intros Ha He b. destruct (decide (a = b)) as [->|]; [by rewrite lookup_insert_eq, Ha; simpl; f_equal|by rewrite lookup_insert_ne]. Qed.

Lemma deref_some h a n : h !! a = Some n -> deref h a = Ok n.
Proof. unfold deref. by intros ->. Qed.

Lemma upd_some h a n g : h !! a = Some n -> upd h a g = Ok (<[a := g n]> h).
Proof. intros Ha. unfold upd. by rewrite (deref_some _ _ _ Ha). Qed.

Lemma size_like {A} (er : node -> A) h h' : like er h h' -> size h' = size h.
Proof.
  intros Hl. rewrite <-!size_dom. f_equal. apply set_eq. intros a. rewrite !elem_of_dom. specialize (Hl a).
  destruct (h !! a), (h' !! a); simpl in Hl; try discriminate; split; intros [? ?]; eauto; done.
Qed.

(** ** Walks, specified *)

(** [seek_prev] stops at the first tag of the second part. *)
Lemma seek_prev_spec h stop S1 S2 : forall k prev cur, chain n_sibling h cur (S1 ++ S2) -> (length (S1 ++ S2) < k)%nat ->
  (forall a n, a ∈ S1 -> h !! a = Some n -> stop n = Ok false) -> (forall a n, head S2 = Some a -> h !! a = Some n -> stop n = Ok true) ->
  seek_prev k h stop prev cur = Ok (match last S1 with Some a => Some a | None => prev end, head S2).
Proof.
  induction S1 as [|a S1 IH]; intros k prev cur Hc Hk H1 H2; simpl in Hc.
  - destruct S2 as [|b S2]; [simpl in Hc; subst cur; by destruct k|]. destruct Hc as (-> & r & Hr & Hc). destruct k as [|k]; [lia|]. cbn [seek_prev].
    unfold link in Hr. destruct (h !! b) as [n|] eqn:Hb; [|done]. rewrite (deref_some _ _ _ Hb). cbn [mbind res_bind]. by rewrite (H2 b n).
  - destruct Hc as (-> & r & Hr & Hc). destruct k as [|k]; [lia|]. cbn [seek_prev]. unfold link in Hr. destruct (h !! a) as [n|] eqn:Ha; [|done].
    rewrite (deref_some _ _ _ Ha). cbn [mbind res_bind]. rewrite (H1 a n) by (done || set_solver). cbn [mbind res_bind]. injection Hr as ->.
    rewrite (IH k (Some a) r Hc); [|simpl in Hk; lia|set_solver|done]. rewrite last_cons. by destruct (last S1).
Qed.

Lemma seek_spec h step stop S1 S2 : forall k cur, chain step h cur (S1 ++ S2) -> (length (S1 ++ S2) < k)%nat ->
  (forall a n, a ∈ S1 -> h !! a = Some n -> stop n = Ok false) -> (forall a n, head S2 = Some a -> h !! a = Some n -> stop n = Ok true) ->
  seek k h step stop cur = Ok (head S2).
Proof.
  induction S1 as [|a S1 IH]; intros k cur Hc Hk H1 H2; simpl in Hc.
  - destruct S2 as [|b S2]; [simpl in Hc; subst cur; by destruct k|]. destruct Hc as (-> & r & Hr & Hc). destruct k as [|k]; [lia|]. cbn [seek].
    unfold link in Hr. destruct (h !! b) as [n|] eqn:Hb; [|done]. rewrite (deref_some _ _ _ Hb). cbn [mbind res_bind]. by rewrite (H2 b n).
  - destruct Hc as (-> & r & Hr & Hc). destruct k as [|k]; [lia|]. cbn [seek]. unfold link in Hr. destruct (h !! a) as [n|] eqn:Ha; [|done].
    rewrite (deref_some _ _ _ Ha). cbn [mbind res_bind]. rewrite (H1 a n) by (done || set_solver). cbn [mbind res_bind]. injection Hr as ->.
    apply IH; [done|simpl in Hk; lia|set_solver|done].
Qed.

Lemma last_before_spec h f off l1 l2 : forall k c, chain f h (Some c) (c :: l1 ++ l2) -> (length (c :: l1 ++ l2) <= k)%nat ->
  (forall a n, a ∈ l1 -> h !! a = Some n -> n_off n <= off) -> (forall a n, head l2 = Some a -> h !! a = Some n -> off < n_off n) ->
  last_before k h f off c = Ok (default c (last l1)).
Proof.
  induction l1 as [|b l1 IH]; intros k c (_ & r & Hr & Hc) Hk H1 H2; (destruct k as [|k]; [simpl in Hk; lia|]); cbn [last_before];
    unfold link in Hr; (destruct (h !! c) as [n|] eqn:Hn; [|done]); injection Hr as Hr; rewrite (deref_some _ _ _ Hn); cbn [mbind res_bind]; rewrite Hr.
  - simpl in Hc. rewrite (chain_head _ _ _ _ Hc). destruct l2 as [|b l2]; [done|]. cbn [head]. destruct Hc as (-> & r' & Hr' & Hc). unfold link in Hr'.
    destruct (h !! b) as [nb|] eqn:Hb; [|done]. rewrite (deref_some _ _ _ Hb). cbn [mbind res_bind].
    destruct (Z.leb_spec (n_off nb) off); [|done]. specialize (H2 b nb eq_refl Hb). lia.
  - pose proof Hc as Hc'. destruct Hc as (-> & r' & Hr' & Hc). unfold link in Hr'. destruct (h !! b) as [nb|] eqn:Hb; [|done].
    rewrite (deref_some _ _ _ Hb). cbn [mbind res_bind]. destruct (Z.leb_spec (n_off nb) off) as [_|Hlt]; [|specialize (H1 b nb ltac:(set_solver) Hb); lia].
    rewrite (IH k b Hc'); [|simpl in *; lia|set_solver|done]. f_equal. rewrite last_cons. by destruct (last l1).
Qed.

Lemma before_spec h f stop l1 c x l2 : forall k p, chain f h (Some p) (l1 ++ c :: x :: l2) -> (length (l1 ++ c :: x :: l2) <= k)%nat ->
  (forall a, a ∈ tail (l1 ++ [c]) -> stop a = Ok false) -> stop x = Ok true ->
  before k h f stop p = Ok c.
Proof.
  induction l1 as [|b l1 IH]; intros k p Hc Hk H1 H2; (destruct k as [|k]; [simpl in Hk; lia|]); cbn [before].
  - destruct Hc as ([= ->] & r & Hr & (-> & _)). unfold link in Hr. destruct (h !! c) as [n|] eqn:Hn; [|done]. injection Hr as Hr.
    rewrite (deref_some _ _ _ Hn). cbn [mbind res_bind]. by rewrite Hr, H2.
  - destruct Hc as ([= ->] & r & Hr & Hc). pose proof (chain_head _ _ _ _ Hc) as Hhd. unfold link in Hr.
    destruct (h !! b) as [n|] eqn:Hn; [|done]. injection Hr as Hr. rewrite (deref_some _ _ _ Hn). cbn [mbind res_bind]. rewrite Hr, Hhd.
    rewrite Hhd in Hc. assert (exists q l', l1 ++ c :: x :: l2 = q :: l' /\ q ∈ l1 ++ [c]) as (q & l' & Hq & Hin).
    { destruct l1 as [|q l1]; [exists c, (x :: l2)|exists q, (l1 ++ c :: x :: l2)]; split; try done; set_solver. }
    rewrite Hq in Hc |- *. cbn [head] in Hc |- *. rewrite H1 by done. cbn [mbind res_bind]. rewrite <-Hq in Hc. apply (IH k q Hc); [simpl in Hk; lia| |done].
    intros a Ha. apply H1. cbn [tail app]. destruct (l1 ++ [c]); [done|]. set_solver.
Qed.

(** ** The tags below a parent *)

Record entry := Entry { e_addr : Z; e_name : bytes; e_off : Z }.

(** The tags of one name. *)
Definition only (name : bytes) (E : list entry) : list entry := filter (fun e => e_name e = name) E.

(** A new tag goes behind those whose offset is not larger. *)
Fixpoint place (x : entry) (E : list entry) : list entry :=
  match E with
  | [] => [x]
  | e :: E => if e_off e <=? e_off x then e :: place x E else x :: e :: E
  end.

Definition off_le (a b : entry) : Prop := e_off a <= e_off b.

(** [E] are the tags below [p]: the list [ordered] has them all, the list
    [sibling] a part of them in the same order with the first ones of every
    name, and the list [next] of such a first one all of its name. *)
Record kids (h : heap) (p : Z) (E : list entry) : Prop := Kids {
  k_lists : exists c S, link n_child h p = Some c /\ chain n_ordered h c (e_addr <$> E) /\ chain n_sibling h c (e_addr <$> S)
    /\ S `sublist_of` E /\ (forall name e l, only name E = e :: l -> e ∈ S);
  k_nodes : forall e, e ∈ E -> exists n, h !! e_addr e = Some n /\ n_name n = Some (e_name e) /\ n_off n = e_off e /\ n_parent n = Some p;
  k_next : forall name e l, only name E = e :: l -> chain n_next h (Some (e_addr e)) (e_addr <$> only name E);
  k_sorted : StronglySorted off_le E;
  k_nodup : NoDup (e_addr <$> E);
  k_apart : p ∉ e_addr <$> E }.

Definition early (off : Z) (E : list entry) : list entry := filter (fun e => e_off e <= off) E.
Definition late (off : Z) (E : list entry) : list entry := filter (fun e => off < e_off e) E.

Lemma filter_all {A} (P : A -> Prop) `{!forall x, Decision (P x)} l : Forall P l -> filter P l = l.
Proof. induction 1 as [|x l Hx Hl IH]; [done|]. by rewrite filter_cons, decide_True, IH. Qed.

Lemma filter_empty {A} (P : A -> Prop) `{!forall x, Decision (P x)} l : Forall (fun x => ~ P x) l -> filter P l = [].
Proof. induction 1 as [|x l Hx Hl IH]; [done|]. by rewrite filter_cons, decide_False, IH. Qed.

Lemma sorted_split off E : StronglySorted off_le E -> E = early off E ++ late off E.
Proof.
  induction 1 as [|e E Hs IH He]; [done|]. unfold early, late in *. rewrite !filter_cons.
  destruct (decide (e_off e <= off)) as [Hle|Hgt].
  - rewrite decide_False by lia. simpl. by f_equal.
  - rewrite decide_True by lia. rewrite filter_empty in * by (apply (Forall_impl _ _ _ He); unfold off_le; lia). simpl in *. by f_equal.
Qed.

Lemma place_split x E : StronglySorted off_le E -> place x E = early (e_off x) E ++ x :: late (e_off x) E.
Proof.
  induction 1 as [|e E Hs IH He]; [done|]. cbn [place]. unfold early, late in *. rewrite !filter_cons.
  destruct (Z.leb_spec (e_off e) (e_off x)).
  - rewrite decide_True, decide_False by lia. simpl. by f_equal.
  - rewrite decide_False, decide_True by lia. rewrite filter_empty by (apply (Forall_impl _ _ _ He); unfold off_le; lia).
    by rewrite filter_all by (apply (Forall_impl _ _ _ He); unfold off_le; lia).
Qed.

Lemma early_le off E e : e ∈ early off E -> e ∈ E /\ e_off e <= off.
Proof. unfold early. rewrite list_elem_of_filter. naive_solver. Qed.

Lemma late_gt off E e : e ∈ late off E -> e ∈ E /\ off < e_off e.
Proof. unfold late. rewrite list_elem_of_filter. naive_solver. Qed.

Lemma place_sorted x E : StronglySorted off_le E -> StronglySorted off_le (place x E).
Proof.
  intros Hs. rewrite place_split by done. pose proof Hs as Hs'. rewrite (sorted_split (e_off x) E Hs) in Hs'.
  apply StronglySorted_app_2.
  - intros a b Ha%early_le [->|Hb%late_gt]%elem_of_cons; unfold off_le; lia.
  - by apply StronglySorted_app_1_l in Hs'.
  - apply StronglySorted_cons. split; [|by apply StronglySorted_app_1_r in Hs']. apply Forall_forall. intros y Hy%late_gt. unfold off_le. lia.
Qed.

Lemma only_place name x E : StronglySorted off_le E ->
  only name (place x E) = only name (early (e_off x) E) ++ (if decide (e_name x = name) then [x] else []) ++ only name (late (e_off x) E).
Proof. intros Hs. unfold only. rewrite place_split, filter_app, filter_cons by done. by case_decide. Qed.

Lemma only_split name off E : StronglySorted off_le E -> only name E = only name (early off E) ++ only name (late off E).
Proof. intros Hs. unfold only. rewrite <-filter_app. by rewrite <-sorted_split. Qed.

Lemma only_elem name E e : e ∈ only name E <-> e ∈ E /\ e_name e = name.
Proof. unfold only. rewrite list_elem_of_filter. naive_solver. Qed.

Lemma sublist_filter_mono {A} (P : A -> Prop) `{!forall x, Decision (P x)} (l k : list A) :
  l `sublist_of` k -> filter P l `sublist_of` filter P k.
Proof.
  induction 1 as [|x l k Hs IH|x l k Hs IH]; [done| |]; rewrite !filter_cons; case_decide; try done; by constructor.
Qed.

Lemma sublist_sorted (l k : list entry) : l `sublist_of` k -> StronglySorted off_le k -> StronglySorted off_le l.
Proof.
  induction 1 as [|x l k Hs IH|x l k Hs IH]; [done| |]; intros [Hx Hk]%StronglySorted_cons; [apply StronglySorted_cons|by apply IH].
  split; [|by apply IH]. rewrite Forall_forall in *. intros y Hy. apply Hx. by apply (sublist_subseteq _ _ Hs).
Qed.

Lemma kids_frame h h' p E : (forall a, a = p \/ a ∈ e_addr <$> E -> h' !! a = h !! a) -> kids h p E -> kids h' p E.
Proof.
  intros Hf [(c & S & Hc & Ho & Hs & Hsub & Hfirst) Hn Hx Hso Hnd Hap].
  assert (forall A (f : node -> A) a, a ∈ e_addr <$> E -> link f h' a = link f h a) as Hl by (intros; unfold link; rewrite Hf; auto).
  assert (e_addr <$> S ⊆ e_addr <$> E) as HSE by (intros a (e & -> & He)%list_elem_of_fmap; by apply list_elem_of_fmap_2, (sublist_subseteq _ _ Hsub)).
  split; [|intros e He; rewrite Hf by (right; by apply list_elem_of_fmap_2); by apply Hn| |done|done|done].
  - exists c, S. split_and!; [by unfold link; rewrite Hf by auto| | |done|done].
    + apply (seg_frame _ h); [by intros; apply Hl|done].
    + apply (seg_frame _ h); [by intros; apply Hl, HSE|done].
  - intros name e l Hel. apply (seg_frame _ h); [|by apply (Hx name e l)]. intros a Ha. apply Hl.
    apply list_elem_of_fmap in Ha as (y & -> & Hy). apply only_elem in Hy as [Hy _]. by apply list_elem_of_fmap_2.
Qed.

(** What inserting into the list of all tags may change. *)
Definition er_oc (n : node) : node := with_ordered None (with_child None n).
(** What inserting into the lists by name may change. *)
Definition er_sn (n : node) : node := with_sibling None (with_next None n).

Lemma entry_eq E e e' : NoDup (e_addr <$> E) -> e ∈ E -> e' ∈ E -> e_addr e = e_addr e' -> e = e'.
Proof.
  intros Hnd (i & Hi)%list_elem_of_lookup_1 (j & Hj)%list_elem_of_lookup_1 Heq.
  assert (i = j) as ->; [|congruence]. eapply NoDup_lookup; [exact Hnd| |]; rewrite list_lookup_fmap; [by rewrite Hi|rewrite Hj; simpl; by rewrite Heq].
Qed.

Lemma last_split {A} (a : A) l : exists l1, a :: l = l1 ++ [default a (last l)].
Proof.
  destruct (last l) as [z|] eqn:Hl; simpl.
  - apply last_Some in Hl as (l' & ->). by exists (a :: l').
  - apply last_None in Hl as ->. by exists [].
Qed.

(** Linking [x] in behind [c], on either of the lists the code inserts into. *)
Section behind.
Context {A : Type} (f : node -> option Z) (g : option Z -> node -> node) (er : node -> A).
Hypothesis Hfg : forall v n, f (g v n) = v.
Hypothesis Her : forall v n, er (g v n) = er n.

Lemma link_behind h q l1 c l2 x nx nc : NoDup (l1 ++ c :: l2) -> chain f h q (l1 ++ c :: l2) -> x ∉ l1 ++ c :: l2 ->
  h !! x = Some nx -> h !! c = Some nc ->
  exists h', upd (<[x := g (f nc) nx]> h) c (g (Some x)) = Ok h' /\ chain f h' q (l1 ++ c :: x :: l2) /\ like er h h'
    /\ (forall a, a <> x -> a <> c -> link f h' a = link f h a).
Proof.
  intros Hnd Hch Hx Hnx Hnc. assert (x <> c) as Hxc by set_solver. rewrite (upd_some _ c nc) by (by rewrite lookup_insert_ne).
  eexists. split; [done|]. split_and!.
  - apply (chain_splice _ h); [done|done|by rewrite link_insert, decide_True, Hfg| |].
    + rewrite link_insert, decide_False, link_insert, decide_True, Hfg by done. f_equal.
      apply seg_app in Hch as (r & _ & (_ & r' & Hr' & Hch)). unfold link in Hr'. rewrite Hnc in Hr'. injection Hr' as <-. by apply chain_head in Hch.
    + intros a Ha. assert (a <> c) by (apply NoDup_app in Hnd as (_ & Hd & Hnd); apply NoDup_cons in Hnd as [Hnd _]; set_solver).
      rewrite link_insert, decide_False, link_insert, decide_False; [done|set_solver|done].
  - apply (heap_like_trans _ _ (<[x := g (f nc) nx]> h)); [by apply (like_insert _ _ _ nx)|].
    apply (like_insert _ _ _ nc); [by rewrite lookup_insert_ne|done].
  - intros a Hax Hac. by rewrite link_insert, decide_False, link_insert, decide_False.
Qed.

End behind.

Section inserting.
Context (h : heap) (p x : Z) (E : list entry) (off : Z) (nx : node).
Hypothesis HK : kids h p E.
Hypothesis Hx : h !! x = Some nx.
Hypothesis Hxp : x <> p.
Hypothesis HxE : x ∉ e_addr <$> E.

Let pre := early off E.
Let post := late off E.

Lemma pre_post : E = pre ++ post.
Proof. apply sorted_split, (k_sorted _ _ _ HK). Qed.

Lemma entry_off e n : e ∈ E -> h !! e_addr e = Some n -> n_off n = e_off e.
Proof. intros He Hn. destruct (k_nodes _ _ _ HK e He) as (n' & Hn' & _ & Ho & _). congruence. Qed.

Lemma addr_off a n : a ∈ e_addr <$> pre -> h !! a = Some n -> n_off n <= off.
Proof.
  intros (e & -> & He)%list_elem_of_fmap Hn. apply early_le in He as [He Hle]. by rewrite (entry_off e n He Hn).
Qed.

Lemma addr_late a n : a ∈ e_addr <$> post -> h !! a = Some n -> off < n_off n.
Proof.
  intros (e & -> & He)%list_elem_of_fmap Hn. apply late_gt in He as [He Hle]. by rewrite (entry_off e n He Hn).
Qed.

Lemma nodup_split : NoDup ((e_addr <$> pre) ++ (e_addr <$> post)).
Proof. rewrite <-fmap_app, <-pre_post. apply HK. Qed.

Lemma pre_none e0 E0 : E = e0 :: E0 -> pre = [] <-> off < e_off e0.
Proof.
  intros HE. unfold pre, early. rewrite HE, filter_cons. split.
  - case_decide; [done|lia].
  - intros Hlt. rewrite decide_False by lia. apply filter_empty. pose proof (k_sorted _ _ _ HK) as Hs. rewrite HE in Hs.
    apply StronglySorted_cons in Hs as [Hs _]. apply (Forall_impl _ _ _ Hs). unfold off_le. lia.
Qed.

Lemma kids_child e0 E0 : E = e0 :: E0 -> link n_child h p = Some (Some (e_addr e0)) /\ chain n_ordered h (Some (e_addr e0)) (e_addr <$> E).
Proof. intros HE. destruct (k_lists _ _ _ HK) as (c & S & Hc & Ho & _). pose proof (chain_head _ _ _ _ Ho) as ->. by rewrite HE in *. Qed.

Lemma kid_some a : a ∈ e_addr <$> E -> exists n, h !! a = Some n.
Proof. intros (e & -> & He)%list_elem_of_fmap. destruct (k_nodes _ _ _ HK e He) as (n & Hn & _). by exists n. Qed.

Lemma kids_fuel S : S `sublist_of` E -> (length (e_addr <$> S) < fuel h)%nat.
Proof.
  intros Hs. unfold fuel. apply Nat.lt_succ_r. rewrite length_fmap. apply sublist_length in Hs. etrans; [exact Hs|]. rewrite <-(length_fmap e_addr).
  apply nodup_size; [apply HK|]. intros a Ha. destruct (kid_some a Ha) as (n & ->). done.
Qed.

(** The new tag becomes the first one. *)
Lemma ordered_front e0 E0 : E = e0 :: E0 -> pre = [] ->
  exists h', insert_ordered x p (e_addr e0) off h = Ok h' /\ like er_oc h h'
    /\ link n_child h' p = Some (Some x) /\ (forall a, a <> p -> link n_child h' a = link n_child h a)
    /\ chain n_ordered h' (Some x) (x :: (e_addr <$> E)) /\ (forall a, a <> x -> link n_ordered h' a = link n_ordered h a).
Proof.
  intros HE Hpre. destruct (kids_child _ _ HE) as [Hc Ho]. apply (pre_none _ _ HE) in Hpre. unfold insert_ordered.
  destruct (k_nodes _ _ _ HK e0) as (n0 & Hn0 & _ & Hoff0 & _); [rewrite HE; set_solver|]. rewrite (deref_some _ _ _ Hn0). cbn [mbind res_bind].
  destruct (Z.leb_spec (n_off n0) off) as [Hle|_]; [lia|]. rewrite (upd_some _ _ _ _ Hx). cbn [mbind res_bind].
  destruct (h !! p) as [np|] eqn:Hp; [|unfold link in Hc; by rewrite Hp in Hc].
  rewrite (upd_some _ p np) by (by rewrite lookup_insert_ne). eexists. split; [done|].
  assert (forall a, a <> x -> link n_ordered (<[p := with_child (Some x) np]> (<[x := with_ordered (Some (e_addr e0)) nx]> h)) a = link n_ordered h a) as Hor.
  { intros a Ha. rewrite link_insert. case_decide as Hpa; [subst a; unfold link; by rewrite Hp|]. by rewrite link_insert, decide_False. }
  split_and!; [|by rewrite link_insert, decide_True| | |done].
  - apply (heap_like_trans _ _ (<[x := with_ordered (Some (e_addr e0)) nx]> h)); [by apply (like_insert _ _ _ nx)|].
    apply (like_insert _ _ _ np); [by rewrite lookup_insert_ne|done].
  - intros a Ha. rewrite link_insert, decide_False by done. rewrite link_insert. case_decide as Hxa; [|done]. subst a. unfold link. by rewrite Hx.
  - split; [done|]. exists (Some (e_addr e0)). split; [by rewrite link_insert, decide_False, link_insert, decide_True|].
    apply (seg_frame _ h); [|done]. intros a Ha. apply Hor. by intros ->.
Qed.

(** The new tag goes behind those that are early. *)
Lemma ordered_behind e0 E0 e1 pre' : E = e0 :: E0 -> pre = e1 :: pre' ->
  exists h', insert_ordered x p (e_addr e0) off h = Ok h' /\ like er_oc h h' /\ (forall a, link n_child h' a = link n_child h a)
    /\ chain n_ordered h' (Some (e_addr e0)) ((e_addr <$> pre) ++ x :: (e_addr <$> post))
    /\ (forall a, a <> x -> a ∉ e_addr <$> E -> link n_ordered h' a = link n_ordered h a).
Proof.
  intros HE Hpre. destruct (kids_child _ _ HE) as [Hc Ho]. unfold insert_ordered. pose proof pre_post as Hpp.
  assert (e_off e0 <= off) as He0. { destruct (Z.le_gt_cases (e_off e0) off); [done|]. rewrite (proj2 (pre_none _ _ HE)) in Hpre by lia. done. }
  destruct (k_nodes _ _ _ HK e0) as (n0 & Hn0 & _ & Hoff0 & _); [rewrite HE; set_solver|]. rewrite (deref_some _ _ _ Hn0). cbn [mbind res_bind].
  destruct (Z.leb_spec (n_off n0) off) as [_|Hgt]; [|lia].
  assert (e1 = e0) as -> by (rewrite HE, Hpre in Hpp; by injection Hpp). pose proof (kids_fuel E (reflexivity E)) as Hfu.
  rewrite Hpp, fmap_app in Ho, Hfu. rewrite Hpre in Ho, Hfu. change (e_addr <$> e0 :: pre') with (e_addr e0 :: (e_addr <$> pre')) in Ho, Hfu.
  rewrite <-app_comm_cons in Ho, Hfu.
  rewrite (last_before_spec h n_ordered off (e_addr <$> pre') (e_addr <$> post)); [|done|by apply Nat.lt_le_incl| |].
  2:{ intros a n Ha. apply addr_off. rewrite Hpre. simpl. set_solver. }
  2:{ intros a n Ha. apply addr_late. by apply head_Some_elem_of. }
  cbn [mbind res_bind]. destruct (last_split (e_addr e0) (e_addr <$> pre')) as (l1 & Hl1). set (c := default (e_addr e0) (last (e_addr <$> pre'))) in *.
  assert (e_addr <$> E = l1 ++ c :: (e_addr <$> post)) as HEl.
  { rewrite Hpp, Hpre, fmap_app. cbn [fmap list_fmap]. change (e_addr e0 :: list_fmap _ _ e_addr pre') with (e_addr e0 :: (e_addr <$> pre')).
    rewrite Hl1, <-app_assoc. done. }
  destruct (kid_some c) as (nc & Hnc); [rewrite HEl; set_solver|]. rewrite (deref_some _ _ _ Hnc). cbn [mbind res_bind].
  rewrite (upd_some _ _ _ _ Hx). cbn [mbind res_bind].
  destruct (link_behind n_ordered with_ordered (with_ordered None) ltac:(done) ltac:(done) h (Some (e_addr e0)) l1 c (e_addr <$> post) x nx nc)
    as (h' & -> & Hch & Hlk & Hot); [rewrite <-HEl; apply HK| |by rewrite <-HEl|done|done|].
  { rewrite <-HEl. by apply (kids_child _ E0). }
  exists h'. split; [done|]. split_and!.
  - intros a. pose proof (Hlk a) as Ha. destruct (h !! a), (h' !! a); simpl in *; try done. injection Ha as Ha. f_equal. unfold er_oc, with_ordered, with_child in *.
    simpl. congruence.
  - intros a. apply (link_like (with_ordered None) n_child n_child); [done|done].
  - rewrite Hpre. cbn [fmap list_fmap]. change (e_addr e0 :: list_fmap _ _ e_addr pre') with (e_addr e0 :: (e_addr <$> pre')). rewrite Hl1, <-app_assoc. done.
  - intros a Hax HaE. apply Hot; [done|]. intros ->. apply HaE. rewrite HEl. set_solver.
Qed.

End inserting.

Lemma split_first {A} (P : A -> Prop) `{!forall x, Decision (P x)} (l : list A) :
  exists l1 l2, l = l1 ++ l2 /\ Forall (fun x => ~ P x) l1 /\ (forall x, head l2 = Some x -> P x).
Proof.
  induction l as [|a l (l1 & l2 & -> & H1 & H2)]; [by exists [], []|]. destruct (decide (P a)).
  - exists [], (a :: l1 ++ l2). split_and!; [done|done|]. by intros x [= <-].
  - exists (a :: l1), l2. split_and!; [done|by constructor|done].
Qed.

(** The first one of a name on a part of the list is the first one of the
    whole list, if that is on it. *)
Lemma first_named name (S E : list entry) f l : NoDup E -> S `sublist_of` E -> only name E = f :: l -> f ∈ S -> exists l', only name S = f :: l'.
Proof.
  intros Hnd Hs Hf HfS. pose proof (sublist_filter_mono (fun e => e_name e = name) S E Hs) as Hsub. fold (only name S) (only name E) in Hsub.
  rewrite Hf in Hsub. assert (f ∈ only name S) as Hin.
  { apply only_elem. split; [done|]. assert (f ∈ only name E) as Hin by (rewrite Hf; set_solver). by apply only_elem in Hin as [_ Hin]. }
  destruct (only name S) as [|f' l'] eqn:HS; [set_solver|]. exists l'. f_equal. apply sublist_cons_r in Hsub as [Hsub|(l'' & [= -> ->] & _)]; [|done].
  exfalso. assert (NoDup (f :: l)) as Hn by (rewrite <-Hf; by apply NoDup_filter). apply NoDup_cons in Hn as [Hn _]. apply Hn.
  by apply (sublist_subseteq _ _ Hsub).
Qed.

Section naming.
Context (h : heap) (p x : Z) (E : list entry) (off : Z) (name : bytes) (nx : node) (e0 : entry) (E0 S : list entry).
Hypothesis HE : E = e0 :: E0.
Hypothesis Hnodes : forall e, e ∈ E -> exists n, h !! e_addr e = Some n /\ n_name n = Some (e_name e) /\ n_off n = e_off e.
Hypothesis Hnext : forall name e l, only name E = e :: l -> chain n_next h (Some (e_addr e)) (e_addr <$> only name E).
Hypothesis Hsorted : StronglySorted off_le E.
Hypothesis Hnodup : NoDup (e_addr <$> E).
Hypothesis Hsib : chain n_sibling h (Some (e_addr e0)) (e_addr <$> S).
Hypothesis HSE : S `sublist_of` E.
Hypothesis Hfirst : forall name e l, only name E = e :: l -> e ∈ S.
Hypothesis Hx : h !! x = Some nx.
Hypothesis Hname : n_name nx = Some name.
Hypothesis HxE : x ∉ e_addr <$> E.

Let xe := Entry x name off.

Lemma named_node e n : e ∈ E -> h !! e_addr e = Some n -> n_name n = Some (e_name e) /\ n_off n = e_off e.
Proof. intros He Hn. destruct (Hnodes e He) as (n' & Hn' & Ha & Hb). by simplify_eq. Qed.

Lemma sub_fuel T : T `sublist_of` E -> (length (e_addr <$> T) < fuel h)%nat.
Proof.
  intros Hs. unfold fuel. apply Nat.lt_succ_r. rewrite length_fmap. apply sublist_length in Hs. etrans; [exact Hs|]. rewrite <-(length_fmap e_addr).
  apply nodup_size; [done|]. intros a (e & -> & He)%list_elem_of_fmap. destruct (Hnodes e He) as (n & -> & _). done.
Qed.

Lemma sub_nodup T : T `sublist_of` E -> NoDup (e_addr <$> T).
Proof.
  intros Hs. assert (forall T E : list entry, T `sublist_of` E -> NoDup (e_addr <$> E) -> NoDup (e_addr <$> T)) as Hg; [|by apply (Hg T E)].
  clear. induction 1 as [|y T E Hs IH|y T E Hs IH]; [done| |]; simpl; intros [Hy Hn]%NoDup_cons; [|by apply IH].
  apply NoDup_cons. split; [|by apply IH]. intros (e & He & Hin)%list_elem_of_fmap. apply Hy. rewrite He.
  by apply list_elem_of_fmap_2, (sublist_subseteq _ _ Hs).
Qed.

Lemma sub_mem T a : T `sublist_of` E -> a ∈ e_addr <$> T -> a ∈ e_addr <$> E.
Proof. intros Hs (e & -> & He)%list_elem_of_fmap. by apply list_elem_of_fmap_2, (sublist_subseteq _ _ Hs). Qed.

Lemma S_head : exists S0, S = e0 :: S0.
Proof.
  destruct S as [|s S0] eqn:HS; [done|]. destruct Hsib as ([= Hs] & _). exists S0. f_equal.
  assert (s ∈ E) as Hin by (apply (sublist_subseteq _ _ HSE); set_solver).
  apply (entry_eq E); [done|done|rewrite HE; set_solver|done].
Qed.

(** Where the search by name ends. *)
Lemma seek_named : exists S1 S2, S = S1 ++ S2 /\ Forall (fun e => e_name e <> name) S1 /\
  (match S2 with [] => only name E = [] | f :: _ => exists l, only name E = f :: l end) /\
  seek_prev (fuel h) h (fun n => match n_name n, n_name nx with Some a, Some b => Ok (streq a b) | _, _ => Fault end) None (Some (e_addr e0))
    = Ok (last (e_addr <$> S1), head (e_addr <$> S2)).
Proof.
  destruct (split_first (fun e => e_name e = name) S) as (S1 & S2 & HS & H1 & H2). exists S1, S2. split_and!; [done|done| |].
  - destruct (only name E) as [|f l] eqn:Hf.
    + destruct S2 as [|g S2]; [done|]. specialize (H2 g eq_refl). assert (g ∈ only name E) as Hg; [|by rewrite Hf in Hg; set_solver].
      apply only_elem. split; [|done]. apply (sublist_subseteq _ _ HSE). rewrite HS. set_solver.
    + destruct (first_named name S E f l) as (l' & Hl'); [by apply (NoDup_fmap_1 e_addr)|done|done|by apply (Hfirst name f l)|].
      rewrite HS in Hl'. unfold only in Hl'. rewrite filter_app, (filter_empty _ S1 H1) in Hl'. simpl in Hl'.
      destruct S2 as [|g S2]; [done|]. rewrite filter_cons, decide_True in Hl' by (by apply H2). injection Hl' as -> _. by exists l.
  - rewrite (seek_prev_spec h _ (e_addr <$> S1) (e_addr <$> S2)).
    + by destruct (last (e_addr <$> S1)).
    + by rewrite <-fmap_app, <-HS.
    + rewrite <-fmap_app, <-HS. by apply sub_fuel.
    + intros a n (e & -> & He)%list_elem_of_fmap Hn. rewrite Forall_forall in H1. specialize (H1 e He).
      destruct (named_node e n) as [-> _]; [apply (sublist_subseteq _ _ HSE); rewrite HS; set_solver|done|]. rewrite Hname. f_equal.
      apply bool_decide_eq_false_2. done.
    + intros a n Ha Hn. destruct S2 as [|g S2]; [done|]. injection Ha as <-.
      destruct (named_node g n) as [-> _]; [apply (sublist_subseteq _ _ HSE); rewrite HS; set_solver|done|]. rewrite Hname. f_equal.
      apply bool_decide_eq_true_2. by apply H2.
Qed.

(** The outcome of the insertion into the lists by name. *)
Definition named_ok (h' : heap) : Prop :=
  like er_sn h h' /\
  (exists S', chain n_sibling h' (Some (match early off E with [] => x | _ => e_addr e0 end)) (e_addr <$> S') /\ S' `sublist_of` place xe E
    /\ (forall name e l, only name (place xe E) = e :: l -> e ∈ S')) /\
  (forall name e l, only name (place xe E) = e :: l -> chain n_next h' (Some (e_addr e)) (e_addr <$> only name (place xe E))) /\
  (forall a, a <> x -> a ∉ e_addr <$> E -> h' !! a = h !! a).

(** The tags of the name that come before the new one. *)
Lemma only_early f l : only name E = f :: l -> e_off f <= off ->
  f ∈ early off E /\ exists l1, only name (early off E) = f :: l1 /\ l = l1 ++ only name (late off E).
Proof.
  intros Hf Hle. pose proof (only_split name off E Hsorted) as Hsp. assert (f ∈ only name E) as Hin by (rewrite Hf; set_solver).
  pose proof Hin as [HfE Hfn]%only_elem. assert (f ∈ early off E) as Hfe by (apply list_elem_of_filter; done). split; [done|].
  destruct (only name (early off E)) as [|f' l1] eqn:Hl1; [|rewrite Hf in Hsp; injection Hsp as <- Hl; by exists l1].
  assert (f ∈ only name (early off E)) as Hin'; [by apply only_elem|rewrite Hl1 in Hin'; set_solver].
Qed.

Lemma last_named f l1 : only name (early off E) = f :: l1 -> chain n_next h (Some (e_addr f)) (e_addr f :: (e_addr <$> l1) ++ (e_addr <$> only name (late off E))) ->
  e_addr <$> only name E = e_addr f :: (e_addr <$> l1) ++ (e_addr <$> only name (late off E)) ->
  last_before (fuel h) h n_next off (e_addr f) = Ok (default (e_addr f) (last (e_addr <$> l1))).
Proof.
  intros Hl1 Hch Heq. apply (last_before_spec h n_next off (e_addr <$> l1) (e_addr <$> only name (late off E))); [done| | |].
  - rewrite <-Heq. apply Nat.lt_le_incl, sub_fuel, sublist_filter.
  - intros a n (e & -> & He)%list_elem_of_fmap Hn. assert (e ∈ only name (early off E)) as Hin by (rewrite Hl1; set_solver).
    apply only_elem in Hin as [Hin _]. apply early_le in Hin as [Hin Ho]. by destruct (named_node e n Hin Hn) as [_ ->].
  - intros a n Ha%head_Some_elem_of Hn. apply list_elem_of_fmap in Ha as (e & -> & He). apply only_elem in He as [He _].
    apply late_gt in He as [Hin Ho]. by destruct (named_node e n Hin Hn) as [_ ->].
Qed.

(** Not the first one of its name: behind the earlier ones. *)
Lemma named_behind f l : only name E = f :: l -> e_off f <= off ->
  exists nc, h !! default (e_addr f) (last (tail (e_addr <$> only name (early off E)))) = Some nc /\
  last_before (fuel h) h n_next off (e_addr f) = Ok (default (e_addr f) (last (tail (e_addr <$> only name (early off E))))) /\
  exists h', upd (<[x := with_next (n_next nc) nx]> h) (default (e_addr f) (last (tail (e_addr <$> only name (early off E))))) (with_next (Some x)) = Ok h'
    /\ named_ok h'.
Proof.
  intros Hf Hle. destruct (only_early f l Hf Hle) as (Hfe & l1 & Hl1 & Hl). rewrite Hl1.
  set (l2 := only name (late off E)) in *. pose proof (Hnext name f l Hf) as Hch.
  rewrite Hf, Hl in Hch. rewrite fmap_cons, fmap_app in Hch. cbn [fmap list_fmap tail]. change (list_fmap _ _ e_addr l1) with (e_addr <$> l1).
  assert (only name E `sublist_of` E) as Hsub by apply sublist_filter.
  assert (e_addr <$> only name E = e_addr f :: (e_addr <$> l1) ++ (e_addr <$> l2)) as Heq by (by rewrite Hf, Hl, fmap_cons, fmap_app).
  destruct (last_split (e_addr f) (e_addr <$> l1)) as (k1 & Hk1). set (c := default (e_addr f) (last (e_addr <$> l1))) in *.
  assert (e_addr <$> only name E = k1 ++ c :: (e_addr <$> l2)) as Heq2.
  { rewrite Heq, app_comm_cons, Hk1, <-app_assoc. done. }
  assert (c ∈ e_addr <$> E) as HcE by (apply (sub_mem (only name E)); [done|rewrite Heq2; set_solver]).
  destruct (proj1 (list_elem_of_fmap _ _ _) HcE) as (ec & Hec & HecE). destruct (Hnodes ec HecE) as (nc & Hnc & _). rewrite <-Hec in Hnc.
  exists nc. split; [done|]. split; [by apply last_named|].
  destruct (link_behind n_next with_next (with_next None) ltac:(done) ltac:(done) h (Some (e_addr f)) k1 c (e_addr <$> l2) x nx nc)
    as (h' & -> & Hch' & Hlk & Hot); [rewrite <-Heq2; by apply sub_nodup| | |done|done|].
  { by rewrite <-Heq2, Heq. }
  { rewrite <-Heq2. intros Hin. by apply HxE, (sub_mem (only name E)). }
  exists h'. split; [done|]. assert (early off E <> []) as Hpne by (intros Hnil; rewrite Hnil in Hfe; set_solver).
  assert (only name (place xe E) = (f :: l1) ++ xe :: l2) as Hpl.
  { rewrite only_place by done. simpl. rewrite decide_True by done. by rewrite Hl1. }
  split_and!.
  - intros a. pose proof (Hlk a) as Ha. destruct (h !! a), (h' !! a); simpl in *; try done. injection Ha as Ha. f_equal.
    unfold er_sn, with_sibling, with_next in *. simpl. congruence.
  - exists S. split_and!.
    + destruct (early off E); [done|]. apply (seg_frame _ h); [|done]. intros a _. by apply (link_like (with_next None) n_sibling n_sibling).
    + etrans; [exact HSE|]. rewrite place_split, (sorted_split off E Hsorted) at 1 by done. apply sublist_app; [done|]. by constructor.
    + intros m e k Hm. destruct (decide (m = name)) as [->|Hmn].
      * rewrite Hpl in Hm. injection Hm as <- _. by apply (Hfirst name f l).
      * rewrite only_place, decide_False in Hm by (done || simpl; congruence). simpl in Hm. rewrite <-only_split in Hm by done. by apply (Hfirst m e k).
  - intros m e k Hm. destruct (decide (m = name)) as [->|Hmn].
    + rewrite Hpl in *. injection Hm as <- _. rewrite fmap_app, !fmap_cons, Hk1, <-app_assoc. done.
    + rewrite only_place, decide_False in * by (done || simpl; congruence). simpl in *. rewrite <-only_split in * by done.
      apply (seg_frame _ h); [|by apply (Hnext m e k)]. intros a Ha. apply Hot.
      * intros ->. apply HxE. by apply (sub_mem (only m E)); [apply sublist_filter|].
      * intros ->. apply list_elem_of_fmap in Ha as (e' & He' & Hin). apply only_elem in Hin as [HinE Hm'].
         assert (c ∈ e_addr <$> only name E) as Hc2 by (rewrite Heq2; set_solver). apply list_elem_of_fmap in Hc2 as (e2 & He2 & Hin2).
         apply only_elem in Hin2 as [HinE2 Hm2]. assert (e' = e2) as -> by (apply (entry_eq E); congruence). congruence.
  - intros a Hax HaE. specialize (Hlk a). assert (a <> c) by (intros ->; done). pose proof (Hot a Hax H) as Hl'. unfold link in Hl'.
    destruct (h' !! a) as [n'|], (h !! a) as [n|]; simpl in *; try done. injection Hlk as ?. injection Hl' as ?. f_equal. destruct n, n'. simpl in *. congruence.
Qed.


(** The list [sibling] without the first one of the name, which is taken out
    only where something is in front of it. *)
Definition siblings_left (S1 S2 : list entry) : list entry :=
  match S1, S2 with _ :: _, _ :: S3 => S1 ++ S3 | _, _ => S1 ++ S2 end.

Lemma left_sub S1 S2 : S = S1 ++ S2 -> siblings_left S1 S2 `sublist_of` E.
Proof.
  intros HS. rewrite HS in HSE. unfold siblings_left. destruct S1 as [|s S1]; [done|]. destruct S2 as [|f S3]; [done|].
  etrans; [|exact HSE]. apply sublist_app; [done|]. by constructor.
Qed.

Lemma left_head S1 S2 : S = S1 ++ S2 -> exists S', siblings_left S1 S2 = e0 :: S'.
Proof.
  intros HS. destruct S_head as (S0 & HS0). unfold siblings_left. destruct S1 as [|s S1]; simpl in *; [rewrite HS0 in HS; destruct S2; [done|by exists S0]|].
  rewrite HS0 in HS. injection HS as <- _. destruct S2; by eexists.
Qed.

(** Taking it out. *)
Lemma take_out S1 S2 : S = S1 ++ S2 ->
  exists h1, (match last (e_addr <$> S1), head (e_addr <$> S2) with
              | Some pv, Some c => nc ← deref h c; upd h pv (with_sibling (n_sibling nc))
              | _, _ => Ok h
              end) = Ok h1 /\ like (with_sibling None) h h1 /\ chain n_sibling h1 (Some (e_addr e0)) (e_addr <$> siblings_left S1 S2)
    /\ (forall a, a ∉ e_addr <$> E -> h1 !! a = h !! a).
Proof.
  intros HS. destruct (last (e_addr <$> S1)) as [pv|] eqn:Hl.
  2:{ exists h. apply last_None in Hl. split_and!; [by destruct (head (e_addr <$> S2))|done| |done]. destruct S1; [|done]. unfold siblings_left. simpl in *. by rewrite <-HS. }
  destruct S2 as [|f S3].
  { exists h. split_and!; [done|done| |done]. unfold siblings_left. rewrite HS, app_nil_r in Hsib. destruct S1; [done|]. by rewrite app_nil_r. }
  cbn [fmap list_fmap head]. apply last_Some in Hl as (k1 & Hk1). pose proof HSE as HSE'. rewrite HS in HSE'.
  assert (f ∈ E) as HfE by (apply (sublist_subseteq _ _ HSE'); set_solver). destruct (Hnodes f HfE) as (nf & Hnf & _).
  rewrite (deref_some _ _ _ Hnf). cbn [mbind res_bind]. assert (pv ∈ e_addr <$> E) as Hpv.
  { apply (sub_mem (S1 ++ f :: S3)); [done|]. rewrite fmap_app, Hk1. set_solver. }
  destruct (proj1 (list_elem_of_fmap _ _ _) Hpv) as (ep & Hep & HepE). destruct (Hnodes ep HepE) as (np & Hnp & _). rewrite <-Hep in Hnp.
  rewrite (upd_some _ _ _ _ Hnp). eexists. split; [done|]. split_and!; [by apply (like_insert _ _ _ np)| |intros a Ha; rewrite lookup_insert_ne; [done|by intros ->]].
  rewrite HS, fmap_app, Hk1, <-app_assoc in Hsib. simpl in Hsib.
  assert (siblings_left S1 (f :: S3) = S1 ++ S3) as -> by (destruct S1; [by destruct k1|done]). rewrite fmap_app, Hk1, <-app_assoc. simpl.
  assert (NoDup (k1 ++ pv :: e_addr f :: (e_addr <$> S3))) as Hnd.
  { pose proof (sub_nodup _ HSE') as Hn. rewrite fmap_app, Hk1, <-app_assoc in Hn. done. }
  apply (chain_unsplice _ h _ _ _ _ (e_addr f)); [done|done| |].
  - rewrite link_insert, decide_True by done. f_equal. simpl. apply seg_app in Hsib as (r & _ & (_ & r' & _ & (_ & r'' & Hr'' & Hc))).
    unfold link in Hr''. rewrite Hnf in Hr''. injection Hr'' as ->. by apply chain_head in Hc.
  - intros a Ha. rewrite link_insert, decide_False; [done|]. intros <-. apply NoDup_app in Hnd as (_ & Hd & Hnd). apply NoDup_cons in Hnd as [Hnd _]. set_solver.
Qed.

(** The place of the new one in it. *)
Lemma early_empty T T' : T `sublist_of` E -> T = e0 :: T' -> early off E = [] <-> early off T = [].
Proof.
  intros HT HT'. pose proof (sublist_sorted _ _ HT Hsorted) as HsT. unfold early. rewrite HE, HT', !filter_cons. split; case_decide; try done; intros _; apply filter_empty.
  - rewrite HT' in HsT. apply StronglySorted_cons in HsT as [HsT _]. apply (Forall_impl _ _ _ HsT). unfold off_le. lia.
  - pose proof Hsorted as Hs. rewrite HE in Hs. apply StronglySorted_cons in Hs as [Hs _]. apply (Forall_impl _ _ _ Hs). unfold off_le. lia.
Qed.

Lemma seek_place h1 T : T `sublist_of` E -> chain n_sibling h1 (Some (e_addr e0)) (e_addr <$> T) ->
  (forall e n, e ∈ T -> h1 !! e_addr e = Some n -> n_off n = e_off e) ->
  seek_prev (fuel h1) h1 (fun n => Ok (negb (n_off n <=? off))) None (Some (e_addr e0)) = Ok (last (e_addr <$> early off T), head (e_addr <$> late off T)).
Proof.
  intros HT Hc Hoff. pose proof (sorted_split off T (sublist_sorted _ _ HT Hsorted)) as HTs.
  assert (length (e_addr <$> T) < fuel h1)%nat as HfT by (apply (chain_size n_sibling h1 (Some (e_addr e0))); [by apply sub_nodup|done]).
  rewrite (seek_prev_spec h1 _ (e_addr <$> early off T) (e_addr <$> late off T)).
  - by destruct (last (e_addr <$> early off T)).
  - by rewrite <-fmap_app, <-HTs.
  - by rewrite <-fmap_app, <-HTs.
  - intros a n (e & -> & He)%list_elem_of_fmap Hn. apply early_le in He as [He Hle]. rewrite (Hoff e n He Hn). f_equal. rewrite (proj2 (Z.leb_le _ _)) by done. done.
  - intros a n Ha%head_Some_elem_of Hn. apply list_elem_of_fmap in Ha as (e & -> & He). apply late_gt in He as [He Hlt]. rewrite (Hoff e n He Hn).
    f_equal. rewrite (proj2 (Z.leb_gt _ _)) by lia. done.
Qed.

(** Putting the new one in. *)
Lemma put_in h1 T : T `sublist_of` E -> (exists T', T = e0 :: T') -> h1 !! x = Some nx ->
  (forall e, e ∈ E -> exists n, h1 !! e_addr e = Some n /\ n_off n = e_off e) -> chain n_sibling h1 (Some (e_addr e0)) (e_addr <$> T) ->
  forall nxt, exists h2, ('(prev, cur) ← seek_prev (fuel (<[x := with_next nxt nx]> h1)) (<[x := with_next nxt nx]> h1)
                (fun n => Ok (negb (n_off n <=? off))) None (Some (e_addr e0));
              h2 ← upd (<[x := with_next nxt nx]> h1) x (with_sibling cur);
              match prev with Some pv => upd h2 pv (with_sibling (Some x)) | None => Ok h2 end) = Ok h2
    /\ like er_sn h1 h2 /\ link n_next h2 x = Some nxt /\ (forall a, a <> x -> link n_next h2 a = link n_next h1 a)
    /\ chain n_sibling h2 (Some (match early off E with [] => x | _ => e_addr e0 end)) (e_addr <$> early off T ++ xe :: late off T)
    /\ (forall a, a <> x -> a ∉ e_addr <$> E -> h2 !! a = h1 !! a).
Proof.
  intros HT (T' & HT') Hx1 Hn1 Hc1 nxt. set (h1' := <[x := with_next nxt nx]> h1).
  assert (x ∉ e_addr <$> T) as HxT by (intros Hin; by apply HxE, (sub_mem T)).
  assert (chain n_sibling h1' (Some (e_addr e0)) (e_addr <$> T)) as Hc1'.
  { apply (seg_frame _ h1); [|done]. intros a Ha. unfold h1'. rewrite link_insert, decide_False; [done|]. by intros ->. }
  pose proof (sublist_sorted _ _ HT Hsorted) as HsT. pose proof (sorted_split off T HsT) as HTs.
  assert (forall e n, e ∈ T -> h1' !! e_addr e = Some n -> n_off n = e_off e) as Hoff.
  { intros e n He. unfold h1'. rewrite lookup_insert_ne by (intros ->; by apply HxT, list_elem_of_fmap_2).
    destruct (Hn1 e) as (n' & -> & Ho); [by apply (sublist_subseteq _ _ HT)|]. by intros [= <-]. }
  rewrite (seek_place h1' T HT Hc1' Hoff).
  cbn [mbind res_bind]. assert (h1' !! x = Some (with_next nxt nx)) as Hx1' by (apply lookup_insert_eq).
  rewrite (upd_some _ _ _ _ Hx1'). cbn [mbind res_bind]. pose proof (early_empty T T' HT HT') as Hiff.
  assert (like er_sn h1 (<[x := with_sibling (head (e_addr <$> late off T)) (with_next nxt nx)]> h1')) as Hl2.
  { apply (heap_like_trans _ _ h1'); [by apply (like_insert _ _ _ nx)|]. by apply (like_insert _ _ _ (with_next nxt nx)). }
  destruct (last (e_addr <$> early off T)) as [pv|] eqn:Hlast.
  - apply last_Some in Hlast as (k1 & Hk1). rewrite fmap_app, Hk1, <-app_assoc. simpl. destruct (early off E) as [|ee EE] eqn:HeE.
    { rewrite (proj1 Hiff eq_refl) in Hk1. by destruct k1. }
    assert (pv ∈ e_addr <$> T) as HpvT by (rewrite HTs, fmap_app, Hk1; set_solver).
    assert (pv ∈ e_addr <$> E) as HpvE by (by apply (sub_mem T)).
    assert (x <> pv) as Hxpv by (intros ->; done). destruct (proj1 (list_elem_of_fmap _ _ _) HpvE) as (ep & Hep & HepE).
    destruct (Hn1 ep HepE) as (np & Hnp & _). rewrite <-Hep in Hnp.
    rewrite (upd_some _ pv np) by (unfold h1'; by rewrite !lookup_insert_ne). eexists. split; [done|].
    assert (NoDup (k1 ++ pv :: (e_addr <$> late off T))) as Hnd.
    { pose proof (sub_nodup T HT) as Hn. rewrite HTs, fmap_app, Hk1, <-app_assoc in Hn. done. }
    split_and!.
    + apply (heap_like_trans _ _ _ _ Hl2). apply (like_insert _ _ _ np); [unfold h1'; by rewrite !lookup_insert_ne|done].
    + rewrite link_insert, decide_False, link_insert, decide_True by done. done.
    + intros a Ha. rewrite link_insert. case_decide as Hpa; [subst a; unfold link; by rewrite Hnp|].
      rewrite link_insert, decide_False by done. unfold h1'. by rewrite link_insert, decide_False.
    + rewrite HTs, fmap_app, Hk1, <-app_assoc in Hc1'. apply (chain_splice _ h1'); [done|done| | |].
      * by rewrite link_insert, decide_True.
      * by rewrite link_insert, decide_False, link_insert, decide_True.
      * intros a Ha. assert (a ∈ e_addr <$> T) as HaT by (rewrite HTs, fmap_app, Hk1; set_solver).
        assert (a <> pv) by (apply NoDup_app in Hnd as (_ & Hd & Hnd); apply NoDup_cons in Hnd as [Hnd _]; set_solver).
        rewrite link_insert, decide_False, link_insert, decide_False; [done|by intros ->|done].
    + intros a Hax HaE. rewrite lookup_insert_ne by (by intros ->). unfold h1'. by rewrite !lookup_insert_ne.
  - apply last_None in Hlast. assert (early off T = []) as HeT by (by destruct (early off T)). rewrite (proj2 Hiff HeT), HeT in *. simpl in *.
    eexists. split; [done|]. split_and!; [done|by rewrite link_insert, decide_True| |done| |].
    + intros a Ha. rewrite link_insert, decide_False by done. unfold h1'. by rewrite link_insert, decide_False.
    + eexists. split; [by rewrite link_insert, decide_True|]. simpl. rewrite <-HTs.
      assert (head (e_addr <$> T) = Some (e_addr e0)) as -> by (by rewrite HT'). apply (seg_frame _ h1'); [|done].
      intros a Ha. rewrite link_insert, decide_False; [done|]. by intros ->.
    + intros a Hax HaE. unfold h1'. by rewrite !lookup_insert_ne.
Qed.


(** The first one of its name. *)
Lemma named_front S1 S2 h1 h2 : S = S1 ++ S2 -> Forall (fun e => e_name e <> name) S1 ->
  (match S2 with [] => only name E = [] | f :: _ => (exists l, only name E = f :: l) /\ off < e_off f end) ->
  like (with_sibling None) h h1 -> (forall a, a ∉ e_addr <$> E -> h1 !! a = h !! a) -> like er_sn h1 h2 ->
  link n_next h2 x = Some (head (e_addr <$> S2)) -> (forall a, a <> x -> link n_next h2 a = link n_next h1 a) ->
  chain n_sibling h2 (Some (match early off E with [] => x | _ => e_addr e0 end)) (e_addr <$> early off (siblings_left S1 S2) ++ xe :: late off (siblings_left S1 S2)) ->
  (forall a, a <> x -> a ∉ e_addr <$> E -> h2 !! a = h1 !! a) -> named_ok h2.
Proof.
  intros HS H1 H2 Hl1 Ho1 Hl2 Hnx Hn2 Hc2 Ho2. pose proof (left_sub S1 S2 HS) as HT. set (T := siblings_left S1 S2) in *.
  assert (only name (early off E) = []) as Hnone.
  { pose proof (only_split name off E Hsorted) as Hsp. destruct S2 as [|f S3]; [rewrite H2 in Hsp; by destruct (only name (early off E))|].
    destruct H2 as [(l & Hl) Hlt]. rewrite Hl in Hsp. destruct (only name (early off E)) as [|g k] eqn:Hg; [done|]. injection Hsp as <- _.
    assert (f ∈ only name (early off E)) as Hin by (rewrite Hg; set_solver). apply only_elem in Hin as [Hin _]. apply early_le in Hin. lia. }
  assert (only name (place xe E) = xe :: only name E) as Hpl.
  { rewrite only_place by done. cbn [e_name e_off xe]. rewrite Hnone, decide_True by done. simpl. f_equal.
    pose proof (only_split name off E Hsorted) as Hsp. rewrite Hnone in Hsp. done. }
  assert (forall m, m <> name -> only m (place xe E) = only m E) as Hpo.
  { intros m Hm. rewrite only_place, decide_False by (done || simpl; congruence). simpl. symmetry. by apply only_split. }
  split_and!.
  - intros a. specialize (Hl1 a). specialize (Hl2 a). rewrite Hl2. destruct (h1 !! a), (h !! a); simpl in *; try done. injection Hl1 as Hl1.
    f_equal. unfold er_sn, with_sibling, with_next in *. simpl. congruence.
  - exists (early off T ++ xe :: late off T). split_and!; [done| |].
    + rewrite place_split by done. cbn [e_off xe]. apply sublist_app; [by apply sublist_filter_mono|]. constructor. by apply sublist_filter_mono.
    + intros m e l Hm. destruct (decide (m = name)) as [->|Hmn]; [rewrite Hpl in Hm; injection Hm as <- _; set_solver|].
      rewrite Hpo in Hm by done. pose proof (Hfirst m e l Hm) as HeS. assert (e_name e = m) as Hem.
      { assert (e ∈ only m E) as Hin by (rewrite Hm; set_solver). by apply only_elem in Hin as [_ ?]. }
      assert (e ∈ T) as HeT.
      { unfold T, siblings_left. rewrite HS in HeS. destruct S1 as [|s S1]; [done|]. destruct S2 as [|f S3]; [done|].
        apply elem_of_app in HeS as [?|[->|?]%elem_of_cons]; [set_solver| |set_solver]. exfalso. destruct H2 as [(k & Hk) _].
        assert (f ∈ only name E) as Hin by (rewrite Hk; set_solver). apply only_elem in Hin as [_ ?]. congruence. }
      rewrite (sorted_split off T) in HeT by (by apply (sublist_sorted T E)). set_solver.
  - assert (forall a, a <> x -> link n_next h2 a = link n_next h a) as Hnn.
    { intros a Ha. rewrite Hn2 by done. by apply (link_like (with_sibling None) n_next n_next). }
    intros m e l Hm. destruct (decide (m = name)) as [->|Hmn].
    + rewrite Hpl in *. injection Hm as <- <-. cbn [fmap list_fmap e_addr xe]. split; [done|]. eexists. split; [exact Hnx|].
      destruct S2 as [|f S3]; [by rewrite H2|]. destruct H2 as [(k & Hk) _]. pose proof (Hnext name f k Hk) as Hch. simpl.
      apply (seg_frame _ h); [|done]. intros a Ha. apply Hnn. intros ->. by apply HxE, (sub_mem (only name E)); [apply sublist_filter|].
    + rewrite Hpo in * by done. apply (seg_frame _ h); [|by apply (Hnext m e l)]. intros a Ha. apply Hnn. intros ->.
      by apply HxE, (sub_mem (only m E)); [apply sublist_filter|].
  - intros a Hax HaE. by rewrite Ho2, Ho1.
Qed.

Lemma insert_named_spec : exists h', insert_named x (e_addr e0) off h = Ok h' /\ named_ok h'.
Proof.
  unfold insert_named. rewrite (deref_some _ _ _ Hx). cbn [mbind res_bind].
  destruct seek_named as (S1 & S2 & HS & H1 & H2 & Hseek).
  setoid_rewrite Hseek. cbn [mbind res_bind].
  assert (forall f S3, S2 = f :: S3 -> f ∈ E) as HfE.
  { intros f S3 ->. apply (sublist_subseteq _ _ HSE). rewrite HS. set_solver. }
  assert ((exists f S3, S2 = f :: S3 /\ e_off f <= off) \/ ~ (exists f S3, S2 = f :: S3 /\ e_off f <= off)) as [(f & S3 & -> & Hle)|Hgt].
  { destruct S2 as [|f S3]; [right; by intros (? & ? & ? & _)|]. destruct (Z.le_gt_cases (e_off f) off); [left; by exists f, S3|].
    right. intros (? & ? & [= <- <-] & ?). lia. }
  - cbn [fmap list_fmap head]. destruct (Hnodes f (HfE f S3 eq_refl)) as (nf & Hnf & _ & Hof). rewrite (deref_some _ _ _ Hnf). cbn [mbind res_bind].
    rewrite (proj2 (Z.leb_le (n_off nf) off)) by lia. cbn [negb]. destruct H2 as (l & Hl).
    destruct (named_behind f l Hl Hle) as (nc & Hnc & -> & h' & Hh' & Hok). cbn [mbind res_bind]. rewrite (deref_some _ _ _ Hnc). cbn [mbind res_bind].
    rewrite (upd_some _ _ _ _ Hx). cbn [mbind res_bind]. by exists h'.
  - assert (match S2 with [] => only name E = [] | f :: _ => (exists l, only name E = f :: l) /\ off < e_off f end) as H2'.
    { destruct S2 as [|f S3]; [done|]. split; [done|]. destruct (Z.le_gt_cases (e_off f) off); [|lia]. exfalso. apply Hgt. by exists f, S3. }
    destruct (take_out S1 S2 HS) as (h1 & Ht & Hl1 & Hc1 & Ho1).
    assert (h1 !! x = Some nx) as Hx1 by (by rewrite Ho1).
    destruct (put_in h1 (siblings_left S1 S2) (left_sub S1 S2 HS) (left_head S1 S2 HS) Hx1) with (nxt := head (e_addr <$> S2))
      as (h2 & Hp & Hl2 & Hnx & Hn2 & Hc2 & Ho2).
    { intros e He. destruct (Hnodes e He) as (n & Hn & _ & Hof). specialize (Hl1 (e_addr e)). rewrite Hn in Hl1.
      destruct (h1 !! e_addr e) as [n1|]; [|done]. injection Hl1 as Hl1. exists n1. split; [done|]. destruct n, n1. simpl in *. congruence. }
    { done. }
    exists h2. split; [|by apply (named_front S1 S2 h1)].
    assert (exists b, (match head (e_addr <$> S2) with Some c => nc ← deref h c; Ok (negb (n_off nc <=? off)) | None => Ok true end) = Ok b
            /\ (match head (e_addr <$> S2) with Some _ => b = true | None => True end)) as (b & -> & Hb).
    { destruct S2 as [|f S3]; [by exists true|]. cbn [fmap list_fmap head]. destruct (Hnodes f (HfE f S3 eq_refl)) as (nf & Hnf & _ & Hof).
      rewrite (deref_some _ _ _ Hnf). exists true. cbn [mbind res_bind]. destruct H2' as [_ Hlt]. by rewrite (proj2 (Z.leb_gt (n_off nf) off)) by lia. }
    cbn [mbind res_bind]. rewrite <-Hp. destruct (head (e_addr <$> S2)) as [c|]; [subst b|];
      (setoid_rewrite Ht || (assert (Ok h = Ok h1) as [= ->] by (rewrite <-Ht; by destruct (last (e_addr <$> S1)))));
      cbn [mbind res_bind]; by rewrite (upd_some _ _ _ _ Hx1).
Qed.

End naming.

(** ** Inserting, specified *)

(** A tag without its pointers. *)
Definition body (n : node) : node := unlinked (with_child None n).

Lemma like_weaken {A B} (er : node -> A) (er' : node -> B) (g : A -> B) h h' : (forall n, er' n = g (er n)) -> like er h h' -> like er' h h'.
Proof. intros Hg Hl a. specialize (Hl a). destruct (h !! a), (h' !! a); simpl in *; try done. injection Hl as Hl. by rewrite !Hg, Hl. Qed.

Lemma place_addr x E a : a ∈ e_addr <$> place x E <-> a = e_addr x \/ a ∈ e_addr <$> E.
Proof.
  induction E as [|e E IH]; cbn [place]; [set_solver|]. case_match; cbn [fmap list_fmap]; [|set_solver].
  rewrite !elem_of_cons. change (list_fmap _ _ e_addr (place x E)) with (e_addr <$> place x E). rewrite IH. set_solver.
Qed.

Lemma place_elem x E e : e ∈ place x E <-> e = x \/ e ∈ E.
Proof. induction E as [|y E IH]; cbn [place]; [set_solver|]. case_match; rewrite !elem_of_cons, ?IH; set_solver. Qed.

Lemma place_nodup x E : e_addr x ∉ e_addr <$> E -> NoDup (e_addr <$> E) -> NoDup (e_addr <$> place x E).
Proof.
  induction E as [|e E IH]; cbn [place]; intros Hx Hn; [repeat constructor; set_solver|].
  rewrite fmap_cons in Hx, Hn. apply not_elem_of_cons in Hx as [Hxe Hx]. apply NoDup_cons in Hn as [He Hn].
  case_match; rewrite !fmap_cons.
  - apply NoDup_cons. split; [|by apply IH]. rewrite place_addr. naive_solver.
  - repeat (apply NoDup_cons; split); [rewrite elem_of_cons; naive_solver|done|done].
Qed.

(** The first tag of a parent. *)
Lemma insert_first h p np x off name n : h !! p = Some np -> h !! x = Some n -> n_name n = Some name -> n_off n = off -> n_parent n = Some p ->
  n_next n = None -> n_sibling n = None -> n_ordered n = None -> x <> p -> kids (<[p := with_child (Some x) np]> h) p [Entry x name off].
Proof.
  intros Hp Hx H1 H2 H3 H4 H5 H6 Hxp. assert (forall A (f : node -> A), link f (<[p := with_child (Some x) np]> h) x = Some (f n)) as Hl.
  { intros A f. rewrite link_insert, decide_False by done. unfold link. by rewrite Hx. }
  split; [| |intros m e l| |by repeat constructor; set_solver|simpl; set_solver].
  - exists (Some x), [Entry x name off]. split_and!; [by rewrite link_insert, decide_True| | |done|].
    + simpl. split; [done|]. exists None. by rewrite Hl, H6.
    + simpl. split; [done|]. exists None. by rewrite Hl, H5.
    + intros m e l. unfold only. rewrite filter_cons. case_decide; [|done]. intros [= <- _]. set_solver.
  - intros e ->%list_elem_of_singleton. exists n. cbn [e_addr e_name e_off]. by rewrite lookup_insert_ne.
  - unfold only. rewrite filter_cons. case_decide; [|done]. intros [= <- <-]. simpl. split; [done|]. exists None. by rewrite Hl, H4.
  - repeat constructor.
Qed.

(** The new tag is in its place among the tags of the parent, and nothing else
    has changed but the pointers of these tags. *)
Lemma insert_spec h p E x off name nx : kids h p E -> h !! x = Some nx -> n_name nx = Some name -> x <> p -> x ∉ e_addr <$> E ->
  let h0 := <[x := placed off p nx]> h in
  exists h', switch_xml_insert x p off h = Ok h' /\ kids h' p (place (Entry x name off) E) /\ like body h0 h'
    /\ (forall a, a <> p -> link n_child h' a = link n_child h0 a)
    /\ (forall a, a <> x -> a ∉ e_addr <$> E -> with_child None <$> h' !! a = with_child None <$> h !! a).
Proof.
  intros HK Hx Hname Hxp HxE h0. assert (kids h0 p E) as HK0.
  { apply (kids_frame h); [|done]. intros a [->|Ha]; unfold h0; rewrite lookup_insert_ne; congruence. }
  assert (h0 !! x = Some (placed off p nx)) as Hx0 by apply lookup_insert_eq.
  unfold switch_xml_insert. rewrite (upd_some _ _ _ _ Hx). fold h0. cbn [mbind res_bind].
  pose proof HK0 as [(c & S & Hc & Ho & Hs & HSE & Hfirst) Hn Hnx Hso Hnd Hap].
  destruct (h0 !! p) as [np|] eqn:Hp; [|unfold link in Hc; by rewrite Hp in Hc]. rewrite (deref_some _ _ _ Hp). cbn [mbind res_bind].
  assert (n_child np = c) as Hcc by (unfold link in Hc; rewrite Hp in Hc; by injection Hc). rewrite Hcc.
  destruct E as [|e0 E0].
  - simpl in Ho. rewrite Ho. rewrite (upd_some _ _ _ _ Hp). eexists. split; [done|]. split_and!.
    + by apply (insert_first h0 p np x off name (placed off p nx)).
    + by apply (like_insert _ _ _ np).
    + intros a Ha. by rewrite link_insert, decide_False.
    + intros a Hax _. destruct (decide (a = p)) as [->|Hap']; [|unfold h0; by rewrite !lookup_insert_ne].
      rewrite lookup_insert_eq. unfold h0 in Hp. rewrite lookup_insert_ne in Hp by done. by rewrite Hp.
  - assert (c = Some (e_addr e0)) as -> by (by apply chain_head in Ho). 
    assert (exists h1, insert_ordered x p (e_addr e0) off h0 = Ok h1 /\ like er_oc h0 h1
      /\ link n_child h1 p = Some (Some (match early off (e0 :: E0) with [] => x | _ => e_addr e0 end)) /\ (forall a, a <> p -> link n_child h1 a = link n_child h0 a)
      /\ chain n_ordered h1 (Some (match early off (e0 :: E0) with [] => x | _ => e_addr e0 end)) (e_addr <$> place (Entry x name off) (e0 :: E0))
      /\ (forall a, a <> x -> a ∉ e_addr <$> e0 :: E0 -> link n_ordered h1 a = link n_ordered h0 a)) as (h1 & -> & Hl1 & Hc1 & Hco1 & Ho1 & Hor1).
    { rewrite place_split, fmap_app by done. cbn [e_off e_addr fmap list_fmap]. destruct (early off (e0 :: E0)) as [|e1 pre'] eqn:Hpre.
      - destruct (ordered_front h0 p x (e0 :: E0) off (placed off p nx) HK0 Hx0 Hxp HxE e0 E0 eq_refl Hpre) as (h1 & H1 & H2 & H3 & H4 & H5 & H6).
        exists h1. split_and!; [done|done|done|done| |by intros; apply H6]. rewrite (sorted_split off (e0 :: E0) Hso), Hpre in H5. done.
      - destruct (ordered_behind h0 p x (e0 :: E0) off (placed off p nx) HK0 Hx0 Hxp HxE e0 E0 e1 pre' eq_refl Hpre) as (h1 & H1 & H2 & H3 & H4 & H5).
        exists h1. split_and!; [done|done|by rewrite H3|by intros; apply H3| |done]. by rewrite Hpre in H4. }
    cbn [mbind res_bind].
    assert (forall A (f : node -> A) a, (forall n, f n = f (er_oc n)) -> link f h1 a = link f h0 a) as Hf1 by (intros A f a Hf; by apply (link_like er_oc f f)).
    assert (exists n1, h1 !! x = Some n1 /\ n_name n1 = Some name) as (n1 & Hn1 & Hname1).
    { specialize (Hf1 _ n_name x ltac:(done)). unfold link in Hf1. rewrite Hx0 in Hf1. destruct (h1 !! x) as [n1|]; [|done]. injection Hf1 as Hf1.
      exists n1. split; [done|]. by rewrite Hf1. }
    destruct (insert_named_spec h1 x (e0 :: E0) off name n1 e0 E0 S) as (h' & -> & Hl2 & (S' & HS' & HSE' & HF') & HN' & Ho2); try done.
    { intros e He. destruct (Hn e He) as (n & Hn' & Hb1 & Hb2 & _). specialize (Hl1 (e_addr e)). rewrite Hn' in Hl1.
      destruct (h1 !! e_addr e) as [m|]; [|done]. injection Hl1 as Hl1. exists m. destruct n, m. simpl in *. naive_solver congruence. }
    { intros m e l Hm. apply (seg_frame _ h0); [|by apply (Hnx m e l)]. intros a _. by apply Hf1. }
    { apply (seg_frame _ h0); [|done]. intros a _. by apply Hf1. }
    exists h'. split; [done|]. assert (like body h0 h') as Hlb.
    { apply (heap_like_trans _ _ h1); [by apply (like_weaken er_oc body body)|by apply (like_weaken er_sn body body)]. }
    assert (forall a, link n_child h' a = link n_child h1 a) as Hc2 by (intros a; by apply (link_like er_sn n_child n_child)).
    split_and!; [|done|by intros a Ha; rewrite Hc2, Hco1|].
    + split; [| |done|by apply place_sorted|by apply place_nodup|rewrite place_addr; naive_solver].
      * exists (Some (match early off (e0 :: E0) with [] => x | _ => e_addr e0 end)), S'. split_and!; [by rewrite Hc2| |done|done|done].
        apply (seg_frame _ h1); [|done]. intros a _. by apply (link_like er_sn n_ordered n_ordered).
      * intros e [->|He]%place_elem.
        -- pose proof (Hlb x) as Hb. rewrite Hx0 in Hb. cbn [e_addr]. destruct (h' !! x) as [m|]; [|done]. injection Hb as Hb. exists m. destruct m. simpl in *. naive_solver congruence.
        -- destruct (Hn e He) as (n & Hn' & Hb1 & Hb2 & Hb3). pose proof (Hlb (e_addr e)) as Hb. rewrite Hn' in Hb.
           destruct (h' !! e_addr e) as [m|]; [|done]. injection Hb as Hb. exists m. destruct n, m. simpl in *. naive_solver congruence.
    + intros a Hax HaE. rewrite Ho2 by done. transitivity (with_child None <$> h0 !! a); [|unfold h0; by rewrite lookup_insert_ne].
      specialize (Hl1 a). pose proof (Hor1 a Hax HaE) as Hb. unfold link in Hb.
      destruct (h1 !! a) as [n|], (h0 !! a) as [m|]; simpl in *; try done. injection Hl1. injection Hb. intros. f_equal. destruct n, m.
      unfold with_child. simpl in *. congruence.
Qed.

(** ** Looking up, specified *)

Lemma kids_weaken h h' p E : link n_child h' p = link n_child h p ->
  (forall e, e ∈ E -> with_child None <$> h' !! e_addr e = with_child None <$> h !! e_addr e) -> kids h p E -> kids h' p E.
Proof.
  intros Hc Hf [(c & S & Hcc & Ho & Hs & Hsub & Hfirst) Hn Hx Hso Hnd Hap].
  assert (forall A (f : node -> A) a, (forall n, f n = f (with_child None n)) -> a ∈ e_addr <$> E -> link f h' a = link f h a) as Hl.
  { intros A f a Hfc (e & -> & He)%list_elem_of_fmap. specialize (Hf e He). unfold link. destruct (h !! e_addr e), (h' !! e_addr e); simpl in *; try done.
    injection Hf. intros. f_equal. rewrite Hfc, (Hfc n). f_equal. unfold with_child. congruence. }
  split; [| | |done|done|done].
  - exists c, S. split_and!; [by rewrite Hc|by apply (seg_frame _ h); [intros; apply Hl|]| |done|done].
    apply (seg_frame _ h); [|done]. intros a (e & -> & He)%list_elem_of_fmap. apply Hl; [done|]. by apply list_elem_of_fmap_2, (sublist_subseteq _ _ Hsub).
  - intros e He. destruct (Hn e He) as (n & Hn' & H1 & H2 & H3). specialize (Hf e He). rewrite Hn' in Hf. destruct (h' !! e_addr e) as [m|]; [|done].
    injection Hf as Hf. exists m. destruct n, m. simpl in *. naive_solver congruence.
  - intros m e l Hm. apply (seg_frame _ h); [|by apply (Hx m e l)]. intros a (y & -> & Hy)%list_elem_of_fmap. apply Hl; [done|]. apply only_elem in Hy as [Hy _].
    by apply list_elem_of_fmap_2.
Qed.

(** Changes to attributes and texts do not matter to the lists. *)
Definition ties (n : node) : node := with_attr [] (with_txt [] n).

Lemma kids_ties h h' p E : like ties h h' -> kids h p E -> kids h' p E.
Proof.
  intros Hl [(c & S & Hc & Ho & Hs & Hsub & Hfirst) Hn Hx Hso Hnd Hap].
  assert (forall A (f : node -> A) a, (forall n, f n = f (ties n)) -> link f h' a = link f h a) as Hf by (intros A f a Hf; by apply (link_like ties f f)).
  split; [| | |done|done|done].
  - exists c, S. split_and!; [by rewrite Hf| | |done|done]; (apply (seg_frame _ h); [intros; by apply Hf|done]).
  - intros e He. destruct (Hn e He) as (n & Hn' & H1 & H2 & H3). specialize (Hl (e_addr e)). rewrite Hn' in Hl. destruct (h' !! e_addr e) as [m|]; [|done].
    injection Hl as Hl. exists m. destruct n, m. simpl in *. naive_solver congruence.
  - intros m e l Hm. apply (seg_frame _ h); [intros; by apply Hf|by apply (Hx m e l)].
Qed.

Lemma child_spec h p E name : kids h p E -> switch_xml_child h (Some p) name = Ok (head (e_addr <$> only name E)).
Proof.
  intros HK. pose proof HK as [(c & S & Hc & Ho & Hs & Hsub & Hfirst) Hn Hx Hso Hnd Hap]. unfold switch_xml_child. unfold link in Hc.
  destruct (h !! p) as [np|] eqn:Hp; [|done]. injection Hc as Hc. rewrite (deref_some _ _ _ Hp). cbn [mbind res_bind]. rewrite Hc.
  destruct (split_first (fun e => e_name e = name) S) as (S1 & S2 & HS & H1 & H2).
  assert (forall e n, e ∈ S -> h !! e_addr e = Some n -> named name n = Ok (bool_decide (name = e_name e))) as Hnm.
  { intros e n He Hen. destruct (Hn e) as (n' & Hn' & Hname & _); [by apply (sublist_subseteq _ _ Hsub)|]. rewrite Hen in Hn'. injection Hn' as <-.
    unfold named. by rewrite Hname. }
  rewrite (seek_spec h n_sibling (named name) (e_addr <$> S1) (e_addr <$> S2)).
  - f_equal. destruct (only name E) as [|f l] eqn:Hf.
    + destruct S2 as [|g S2]; [done|]. assert (g ∈ only name E) as Hg; [|rewrite Hf in Hg; set_solver]. apply only_elem. split; [|by apply H2].
      apply (sublist_subseteq _ _ Hsub). rewrite HS. set_solver.
    + destruct (first_named name S E f l) as (l' & Hl'); [by apply (NoDup_fmap_1 e_addr)|done|done|by apply (Hfirst name f l)|].
      rewrite HS in Hl'. unfold only in Hl'. rewrite filter_app, (filter_empty _ S1 H1) in Hl'. simpl in Hl'.
      destruct S2 as [|g S2]; [done|]. rewrite filter_cons, decide_True in Hl' by (by apply H2). by injection Hl' as -> _.
  - by rewrite <-fmap_app, <-HS.
  - rewrite <-fmap_app, <-HS. by apply (kids_fuel h p E HK S).
  - intros a n (e & -> & He)%list_elem_of_fmap Hen. rewrite (Hnm e n) by (done || rewrite HS; set_solver). rewrite Forall_forall in H1.
    specialize (H1 e He). by rewrite bool_decide_eq_false_2.
  - intros a n Ha Hen. destruct S2 as [|g S2]; [done|]. injection Ha as <-. rewrite (Hnm g n) by (done || rewrite HS; set_solver).
    by rewrite bool_decide_eq_true_2 by (symmetry; by apply H2).
Qed.

Lemma idx_loop_spec h l : forall i q, chain n_next h q l -> idx_loop h q i = Ok (l !! i).
Proof.
  induction l as [|a l IH]; intros i q Hc; [simpl in Hc; subst q; by destruct i|]. destruct Hc as (-> & r & Hr & Hc). destruct i as [|i]; [done|].
  cbn [idx_loop]. unfold link in Hr. destruct (h !! a) as [n|] eqn:Ha; [|done]. injection Hr as <-. rewrite (deref_some _ _ _ Ha). cbn [mbind res_bind].
  by apply IH.
Qed.

(** The tag number [i] of a name. *)
Lemma nth_child_spec h p E name i : kids h p E -> 0 <= i ->
  (c ← switch_xml_child h (Some p) name; switch_xml_idx h c i) = Ok ((e_addr <$> only name E) !! Z.to_nat i).
Proof.
  intros HK Hi. rewrite (child_spec h p E name HK). cbn [mbind res_bind]. unfold switch_xml_idx. rewrite (proj2 (Z.ltb_ge i 0)) by done.
  destruct (only name E) as [|f l] eqn:Hf; [simpl; by destruct (Z.to_nat i)|]. apply idx_loop_spec. pose proof (k_next _ _ _ HK name f l Hf) as Hc. by rewrite Hf in Hc.
Qed.

Lemma next_loop_spec h test l1 l2 : forall k q, chain n_next h q (l1 ++ l2) -> (length (l1 ++ l2) < k)%nat ->
  (forall a, a ∈ l1 -> test a = Ok false) -> (forall a, head l2 = Some a -> test a = Ok true) -> next_loop k h test q = Ok (head l2).
Proof.
  induction l1 as [|a l1 IH]; intros k q Hc Hk H1 H2; simpl in Hc.
  - destruct l2 as [|b l2]; [simpl in Hc; subst q; by destruct k|]. destruct Hc as (-> & r & Hr & Hc). destruct k as [|k]; [lia|]. cbn [next_loop].
    by rewrite (H2 b).
  - destruct Hc as (-> & r & Hr & Hc). destruct k as [|k]; [lia|]. cbn [next_loop]. rewrite (H1 a) by set_solver. cbn [mbind res_bind].
    unfold link in Hr. destruct (h !! a) as [n|] eqn:Ha; [|done]. injection Hr as <-. rewrite (deref_some _ _ _ Ha). cbn [mbind res_bind].
    apply IH; [done|simpl in Hk; lia|set_solver|done].
Qed.

(** ** A document as an abstract tree *)

(** What a tag is to its users: name, attributes, text, and its tags in the
    order of their offsets. *)
Record tag := Tag { t_name : bytes; t_attr : gmap bytes bytes; t_txt : bytes; t_kids : list entry }.

Inductive tree_op :=
  | AddChild (p : Z) (name : bytes) (off : Z)
  | SetTxt (a : Z) (txt : bytes)
  | SetAttr (a : Z) (name : bytes) (val : option bytes).

Definition tree_step (o : tree_op) (d : doc) : res doc :=
  match o with
  | AddChild p name off => fst <$> switch_xml_add_child p name off d
  | SetTxt a txt => switch_xml_set_txt a txt d
  | SetAttr a name val => switch_xml_set_attr a name val d
  end.

Fixpoint tree_run (os : list tree_op) (d : doc) : res doc :=
  match os with [] => Ok d | o :: os => d ← tree_step o d; tree_run os d end.

(** Tags are numbered as they come; an operation on a tag that does not exist
    has no meaning, nor has the removal of an attribute that is there. *)
Definition spec_step (o : tree_op) (f : gmap Z tag) : option (gmap Z tag) :=
  match o with
  | AddChild p name off =>
    t ← f !! p;
    let x := Z.of_nat (size f) in
    Some (<[x := Tag name ∅ [] []]> (<[p := Tag (t_name t) (t_attr t) (t_txt t) (place (Entry x name off) (t_kids t))]> f))
  | SetTxt a txt => t ← f !! a; Some (<[a := Tag (t_name t) (t_attr t) txt (t_kids t)]> f)
  | SetAttr a name (Some v) => t ← f !! a; Some (<[a := Tag (t_name t) (<[name := v]> (t_attr t)) (t_txt t) (t_kids t)]> f)
  | SetAttr a name None => t ← f !! a; if t_attr t !! name is Some _ then None else Some f
  end.

Fixpoint spec_run (os : list tree_op) (f : gmap Z tag) : option (gmap Z tag) :=
  match os with [] => Some f | o :: os => f ← spec_step o f; spec_run os f end.

Definition spec_new (name : bytes) : gmap Z tag := {[0 := Tag name ∅ [] []]}.

(** The tag [t] at the address [a]. *)
Definition tag_at (h : heap) (a : Z) (t : tag) : Prop :=
  exists n, h !! a = Some n /\ n_name n = Some (t_name t) /\ n_txt n = t_txt t /\ NoDup (n_attr n).*1
    /\ (forall m, text_of <$> find_attr (n_attr n) m = t_attr t !! m) /\ kids h a (t_kids t).

Record denotes (d : doc) (f : gmap Z tag) : Prop := Denotes {
  dn_brk : d_brk d = Z.of_nat (size f);
  dn_defaults : d_attr d = [];
  dn_dom : forall a, is_Some (d_nodes d !! a) -> 0 <= a < d_brk d;
  dn_spec : forall a, is_Some (f !! a) <-> 0 <= a < d_brk d;
  dn_tags : forall a t, f !! a = Some t -> tag_at (d_nodes d) a t }.

Lemma find_attr_cons n v l m : find_attr ((n, v) :: l) m = if decide (n = m) then Some v else find_attr l m.
Proof.
  unfold find_attr. cbn [list_find]. case_decide as Hnm; [by rewrite decide_True|]. rewrite decide_False by done. rewrite <-option_fmap_compose.
  apply option_fmap_ext. by intros [i [k w]].
Qed.

Lemma find_attr_absent l m : m ∉ l.*1 -> find_attr l m = None.
Proof.
  induction l as [|[n v] l IH]; [done|]. rewrite fmap_cons. intros [Hn Hl]%not_elem_of_cons. rewrite find_attr_cons, decide_False by (simpl in *; congruence).
  by apply IH.
Qed.

(** Setting an attribute is an update of the map of attributes. *)
Lemma set_attr_names l name val n : n <> name -> n ∉ l.*1 -> n ∉ (set_attr l name val).*1.
Proof.
  intros Hne. induction l as [|[k w] l IH]; cbn [set_attr]; intros Hin; [set_solver|]. rewrite fmap_cons in Hin. apply not_elem_of_cons in Hin as [Hk Hin].
  case_match; rewrite fmap_cons; apply not_elem_of_cons; (split; [done|]); [done|by apply IH].
Qed.

Lemma set_attr_spec l name val : NoDup l.*1 ->
  NoDup (set_attr l name val).*1 /\ forall m, text_of <$> find_attr (set_attr l name val) m = if decide (m = name) then Some val else text_of <$> find_attr l m.
Proof.
  induction l as [|[n v] l IH]; intros Hn.
  - cbn [set_attr]. split; [repeat constructor; set_solver|]. intros m. rewrite find_attr_cons. repeat case_decide; try done; congruence.
  - rewrite fmap_cons in Hn. apply NoDup_cons in Hn as [Hin Hn]. simpl in Hin. specialize (IH Hn) as [IH1 IH2]. cbn [set_attr]. unfold streq.
    destruct (decide (n = name)) as [->|Hne]; [rewrite bool_decide_eq_true_2 by done|rewrite bool_decide_eq_false_2 by done].
    + split; [rewrite fmap_cons; by constructor|]. intros m. rewrite !find_attr_cons. repeat case_decide; simpl; congruence.
    + split; [rewrite fmap_cons; constructor; [by apply set_attr_names|done]|].
      intros m. rewrite !find_attr_cons. destruct (decide (n = m)) as [->|Hnm]; [by rewrite decide_False|]. by rewrite IH2.
Qed.

(** A new tag: the tags of every parent are as they were, with the new one in
    its place. *)
Definition new_tag (p : Z) (name : bytes) (off : Z) : node := Node (Some name) [] [] off None None None None (Some p).

Lemma kids_nil h a n : h !! a = Some n -> n_child n = None -> kids h a [].
Proof.
  intros Ha Hc. split; [exists None, []; unfold link; rewrite Ha; simpl; rewrite Hc; split_and!; try done|set_solver|done|constructor|constructor|set_solver].
Qed.

Lemma add_child_heap h p E x name off : kids h p E -> h !! x = None ->
  exists h', switch_xml_insert x p off (<[x := new_tag p name off]> h) = Ok h' /\ kids h' p (place (Entry x name off) E) /\ kids h' x []
    /\ (forall a E', a <> p -> kids h a E' -> kids h' a E') /\ like body (<[x := new_tag p name off]> h) h'
    /\ (forall a, a <> x -> a ∉ e_addr <$> E -> with_child None <$> h' !! a = with_child None <$> h !! a)
    /\ (forall a, a <> p -> a <> x -> link n_child h' a = link n_child h a).
Proof.
  intros HK Hx. set (h0 := <[x := new_tag p name off]> h). assert (x <> p) as Hxp.
  { intros ->. destruct (k_lists _ _ _ HK) as (c & S & Hc & _). unfold link in Hc. by rewrite Hx in Hc. }
  assert (forall a E', kids h a E' -> x ∉ e_addr <$> E') as HxE.
  { intros a E' HK' (e & -> & He)%list_elem_of_fmap. destruct (k_nodes _ _ _ HK' e He) as (n & Hn & _). congruence. }
  assert (kids h0 p E) as HK0.
  { apply (kids_frame h); [|done]. intros a [->|Ha]; unfold h0; rewrite lookup_insert_ne; [done|done|done|]. intros ->. by apply (HxE p E). }
  assert (h0 !! x = Some (new_tag p name off)) as Hx0 by apply lookup_insert_eq.
  destruct (insert_spec h0 p E x off name (new_tag p name off) HK0 Hx0 eq_refl Hxp (HxE _ _ HK)) as (h' & Hins & HK' & Hl & Hch & Hot).
  assert (<[x := placed off p (new_tag p name off)]> h0 = h0) as Heq by (by apply insert_id).
  rewrite Heq in Hl, Hch. exists h'. split_and!; [done|done| | |done| |].
  - specialize (Hch x Hxp). unfold link in Hch. rewrite Hx0 in Hch. destruct (h' !! x) as [n|] eqn:Hn; [|done]. injection Hch as Hch. by apply (kids_nil h' x n).
  - intros a E' Hap HKa. apply (kids_weaken h); [|intros e He|done].
    + rewrite Hch by done. unfold h0. rewrite link_insert, decide_False; [done|]. intros ->. destruct (k_lists _ _ _ HKa) as (c & S & Hc & _).
      unfold link in Hc. by rewrite Hx in Hc.
    + assert (e_addr e <> x) as Hex by (intros <-; by apply (HxE a E' HKa), list_elem_of_fmap_2).
      destruct (k_nodes _ _ _ HKa e He) as (n & Hn & _ & _ & Hpar). assert (e_addr e ∉ e_addr <$> E) as HeE.
      { intros (e' & Heq' & He')%list_elem_of_fmap. destruct (k_nodes _ _ _ HK e' He') as (n' & Hn' & _ & _ & Hpar'). rewrite <-Heq' in Hn'. congruence. }
      rewrite Hot by done. unfold h0. by rewrite lookup_insert_ne.
  - intros a Hax HaE. rewrite Hot by done. unfold h0. by rewrite lookup_insert_ne.
  - intros a Hap Hax. rewrite Hch by done. unfold h0. by rewrite link_insert, decide_False.
Qed.

Lemma like_body_data h h' a n : like body h h' -> h !! a = Some n ->
  exists n', h' !! a = Some n' /\ n_name n' = n_name n /\ n_attr n' = n_attr n /\ n_txt n' = n_txt n /\ n_off n' = n_off n /\ n_parent n' = n_parent n.
Proof.
  intros Hl Hn. specialize (Hl a). rewrite Hn in Hl. destruct (h' !! a) as [n'|]; [|done]. injection Hl. intros. exists n'. by destruct n, n'.
Qed.

Lemma ties_step h a n n' E b : h !! a = Some n -> ties n' = ties n -> kids h b E -> kids (<[a := n']> h) b E.
Proof. intros Ha Ht. apply kids_ties. by apply (like_insert _ _ _ n). Qed.

Lemma denotes_new name : denotes (switch_xml_new (Some name)) (spec_new name).
Proof.
  split; [done|done| | |].
  - intros a [n Hn]. simpl in *. apply lookup_singleton_Some in Hn as [<- _]. lia.
  - intros a. unfold spec_new. simpl. split.
    + intros [t Ht]. apply lookup_singleton_Some in Ht as [<- _]. lia.
    + intros Ha. assert (a = 0) as -> by lia. rewrite lookup_singleton_eq. done.
  - intros a t Ht. unfold spec_new in Ht. apply lookup_singleton_Some in Ht as [<- <-]. exists (root_node (Some name)). simpl.
    rewrite lookup_singleton_eq. split_and!; try done; [constructor|]. by apply (kids_nil _ _ (root_node (Some name))).
Qed.

(** An update of one tag that leaves the lists alone. *)
Lemma denotes_update d f a t g t' : denotes d f -> f !! a = Some t -> (forall n, ties (g n) = ties n) -> t_kids t' = t_kids t -> t_name t' = t_name t ->
  (forall n, d_nodes d !! a = Some n -> n_txt (g n) = t_txt t' /\ NoDup (n_attr (g n)).*1 /\ forall m, text_of <$> find_attr (n_attr (g n)) m = t_attr t' !! m) ->
  exists h, upd (d_nodes d) a g = Ok h /\ denotes (on_nodes h d) (<[a := t']> f).
Proof.
  intros [Hb Hd Hdom Hsp Htag] Ht Hg Hk Hname Hn. destruct (Htag a t Ht) as (n & Hna & Hnm & Htx & Hnd & Hat & HK). rewrite (upd_some _ _ _ _ Hna).
  eexists. split; [done|]. destruct (Hn n Hna) as (Hx & Hnd' & Hat'). split; [|done| | |]; simpl.
  - rewrite Hb. rewrite map_size_insert_Some; [done|by rewrite Ht].
  - intros b [m Hm]. destruct (decide (a = b)) as [->|Hab]; [apply Hdom; by exists n|]. rewrite lookup_insert_ne in Hm by done. apply Hdom. by exists m.
  - intros b. destruct (decide (a = b)) as [->|Hab]; [|by rewrite lookup_insert_ne]. rewrite lookup_insert_eq. rewrite <-Hsp, Ht. by split; intros; eauto.
  - intros b t0 Ht0. destruct (decide (a = b)) as [->|Hab].
    + rewrite lookup_insert_eq in Ht0. injection Ht0 as <-. exists (g n). rewrite lookup_insert_eq. split_and!; [done| |done|done|done|].
      * assert (n_name (g n) = n_name n) as -> by (specialize (Hg n); unfold ties, with_attr, with_txt in Hg; simpl in Hg; congruence). by rewrite Hname.
      * rewrite Hk. by apply (ties_step _ _ n).
    + rewrite lookup_insert_ne in Ht0 by done. destruct (Htag b t0 Ht0) as (m & Hm & H1 & H2 & H3 & H4 & HK'). exists m. rewrite lookup_insert_ne by done.
      split_and!; try done. by apply (ties_step _ _ n).
Qed.

Lemma denotes_add d f p t name off : denotes d f -> f !! p = Some t ->
  exists d', switch_xml_add_child p name off d = Ok (d', d_brk d) /\
    denotes d' (<[d_brk d := Tag name ∅ [] []]> (<[p := Tag (t_name t) (t_attr t) (t_txt t) (place (Entry (d_brk d) name off) (t_kids t))]> f)).
Proof.
  intros [Hb Hd Hdom Hsp Htag] Ht. destruct (Htag p t Ht) as (np & Hnp & Hnm & Htx & Hnd & Hat & HK). set (x := d_brk d) in *.
  assert (d_nodes d !! x = None) as Hx. { destruct (d_nodes d !! x) eqn:Hx; [|done]. specialize (Hdom x). rewrite Hx in Hdom. specialize (Hdom ltac:(done)). lia. }
  assert (f !! x = None) as Hfx. { destruct (f !! x) eqn:Hfx; [|done]. specialize (Hsp x). rewrite Hfx in Hsp. assert (0 <= x < x) by (by apply Hsp). lia. }
  assert (p <> x) as Hpx by congruence.
  destruct (add_child_heap (d_nodes d) p (t_kids t) x name off HK Hx) as (h' & Hins & HK1 & HK2 & HK3 & Hl & _ & _).
  unfold switch_xml_add_child. fold x. fold (new_tag p name off). rewrite Hins. eexists. split; [done|]. split; simpl; [|done| | |].
  - rewrite map_size_insert_None by (by rewrite lookup_insert_ne). rewrite map_size_insert_Some by (by rewrite Ht). lia.
  - intros a Ha. assert (is_Some (<[x := new_tag p name off]> (d_nodes d) !! a)) as Ha'.
    { specialize (Hl a). destruct (<[x := new_tag p name off]> (d_nodes d) !! a); [done|]. destruct (h' !! a); [done|by destruct Ha]. }
    destruct (decide (x = a)) as [<-|Hxa]; [specialize (Hsp x); rewrite Hb; lia|]. rewrite lookup_insert_ne in Ha' by done. apply Hdom in Ha'. lia.
  - intros a. destruct (decide (x = a)) as [<-|Hxa]; [rewrite lookup_insert_eq; split; [rewrite Hb; lia|done]|]. rewrite lookup_insert_ne by done.
    destruct (decide (p = a)) as [<-|Hpa]; [rewrite lookup_insert_eq; split; [intros _; specialize (proj1 (Hsp p) (mk_is_Some _ _ Ht)); lia|done]|].
    rewrite lookup_insert_ne by done. rewrite Hsp. lia.
  - intros a t0 Ht0. destruct (decide (x = a)) as [<-|Hxa].
    + rewrite lookup_insert_eq in Ht0. injection Ht0 as <-.
      destruct (like_body_data _ _ x (new_tag p name off) Hl (lookup_insert_eq _ _ _)) as (n' & Hn' & H1 & H2 & H3 & _). exists n'.
      split_and!; [done|done|done|rewrite H2; constructor|intros m; by rewrite H2|done].
    + rewrite lookup_insert_ne in Ht0 by done. destruct (decide (p = a)) as [<-|Hpa].
      * rewrite lookup_insert_eq in Ht0. injection Ht0 as <-. destruct (like_body_data _ _ p np Hl) as (n' & Hn' & H1 & H2 & H3 & _); [by rewrite lookup_insert_ne|].
        exists n'. simpl. rewrite H1, H2, H3. done.
      * rewrite lookup_insert_ne in Ht0 by done. destruct (Htag a t0 Ht0) as (n & Hn & Hm1 & Hm2 & Hm3 & Hm4 & HKa).
        destruct (like_body_data _ _ a n Hl) as (n' & Hn' & H1 & H2 & H3 & _); [by rewrite lookup_insert_ne|]. exists n'. rewrite H1, H2, H3.
        split_and!; try done. by apply HK3.
Qed.

Lemma step_denotes o d f f' : denotes d f -> spec_step o f = Some f' -> exists d', tree_step o d = Ok d' /\ denotes d' f'.
Proof.
  intros HD Hs. destruct o as [p name off|a txt|a name val]; cbn [spec_step tree_step] in *.
  - destruct (f !! p) as [t|] eqn:Ht; [|done]. injection Hs as <-. destruct (denotes_add d f p t name off HD Ht) as (d' & -> & Hd'). exists d'.
    split; [done|]. by rewrite (dn_brk _ _ HD) in Hd'.
  - destruct (f !! a) as [t|] eqn:Ht; [|done]. injection Hs as <-. unfold switch_xml_set_txt.
    destruct (denotes_update d f a t (with_txt txt) (Tag (t_name t) (t_attr t) txt (t_kids t)) HD Ht) as (h & -> & Hh); try done; [|by eexists].
    intros n Hn. destruct (dn_tags _ _ HD a t Ht) as (n' & Hn' & _ & _ & H1 & H2 & _). simplify_eq. done.
  - destruct val as [v|]; (destruct (f !! a) as [t|] eqn:Ht; [|done]); cbn [mbind option_bind] in Hs; unfold switch_xml_set_attr.
    + injection Hs as <-. destruct (denotes_update d f a t (fun n => with_attr (set_attr (n_attr n) name v) n)
        (Tag (t_name t) (<[name := v]> (t_attr t)) (t_txt t) (t_kids t)) HD Ht) as (h & -> & Hh); try done; [|by eexists].
      intros n Hn. destruct (dn_tags _ _ HD a t Ht) as (n' & Hn' & _ & H0 & H1 & H2 & _). simplify_eq. cbn [with_attr n_attr n_txt t_txt t_attr].
      destruct (set_attr_spec (n_attr n) name v H1) as [H3 H4]. split_and!; [done|done|]. intros m. rewrite H4. case_decide as Hm.
      * subst m. by rewrite lookup_insert_eq.
      * rewrite lookup_insert_ne by congruence. apply H2.
    + destruct (dn_tags _ _ HD a t Ht) as (n & Hn & _ & _ & _ & H2 & _). specialize (H2 name). rewrite (deref_some _ _ _ Hn). cbn [mbind res_bind].
      destruct (t_attr t !! name); [done|]. injection Hs as <-. destruct (find_attr (n_attr n) name); [done|]. by exists d.
Qed.

Lemma run_denotes os : forall d f f', denotes d f -> spec_run os f = Some f' -> exists d', tree_run os d = Ok d' /\ denotes d' f'.
Proof.
  induction os as [|o os IH]; intros d f f' HD Hr; cbn [spec_run tree_run] in *; [injection Hr as <-; by exists d|].
  destruct (spec_step o f) as [f1|] eqn:Hs; [|done]. destruct (step_denotes o d f f1 HD Hs) as (d1 & -> & HD1). by apply (IH d1 f1).
Qed.

(** C38: A document is the tree that was built.  Tags, texts and attributes that
    are added and set in any order, at any offsets, are found again as
    the abstract tree has them: the n-th tag of a name below a tag is the n-th
    of that name in the order of the offsets (those of equal offset in the order
    of their insertion), the list of all tags has them all in that order, and
    the attributes are a map from names to values.  No walk along the three
    lists faults or runs in a circle. *)
Theorem xml_tree_refines (name : bytes) (os : list tree_op) (f : gmap Z tag) :
  spec_run os (spec_new name) = Some f ->
  exists d, tree_run os (switch_xml_new (Some name)) = Ok d /\ forall a t, f !! a = Some t ->
    (forall m i, 0 <= i -> (c ← switch_xml_child (d_nodes d) (Some a) m; switch_xml_idx (d_nodes d) c i) = Ok ((e_addr <$> only m (t_kids t)) !! Z.to_nat i))
    /\ (exists c, link n_child (d_nodes d) a = Some c /\ chain n_ordered (d_nodes d) c (e_addr <$> t_kids t))
    /\ (forall m, switch_xml_attr (d_attr d) (d_nodes d) (Some a) m = Ok (t_attr t !! m))
    /\ link n_txt (d_nodes d) a = Some (t_txt t).
Proof.
  intros Hr. destruct (run_denotes os _ _ f (denotes_new name) Hr) as (d & -> & HD). exists d. split; [done|]. intros a t Ht.
  destruct (dn_tags _ _ HD a t Ht) as (n & Hn & _ & Htx & _ & Hat & HK). split_and!.
  - intros m i Hi. by apply nth_child_spec.
  - destruct (k_lists _ _ _ HK) as (c & S & Hc & Ho & _). by exists c.
  - intros m. unfold switch_xml_attr. rewrite (deref_some _ _ _ Hn), (dn_defaults _ _ HD). cbn [mbind res_bind]. specialize (Hat m).
    destruct (find_attr (n_attr n) m) as [v|]; simpl in Hat; rewrite <-Hat; [done|]. by destruct (n_name n).
  - unfold link. rewrite Hn. simpl. by rewrite Htx.
Qed.

(** ** Witnesses *)

Definition sample_ops : list tree_op :=
  [AddChild 0 (str "param") 4; AddChild 0 (str "node") 7; AddChild 0 (str "param") 0; SetAttr 3 (str "name") (Some (str "dial"));
   SetAttr 3 (str "name") (Some (str "call")); AddChild 0 (str "param") 7; SetTxt 2 (str "text"); SetAttr 3 (str "gone") None].

Lemma xml_tree_refines_witness : exists f, spec_run sample_ops (spec_new (str "root")) = Some f /\ exists d,
  tree_run sample_ops (switch_xml_new (Some (str "root"))) = Ok d /\
  (c ← switch_xml_child (d_nodes d) (Some 0) (str "param"); switch_xml_idx (d_nodes d) c 0) = Ok (Some 3) /\
  (c ← switch_xml_child (d_nodes d) (Some 0) (str "param"); switch_xml_idx (d_nodes d) c 2) = Ok (Some 4) /\
  switch_xml_attr (d_attr d) (d_nodes d) (Some 3) (str "name") = Ok (Some (str "call")).
Proof.
  destruct (spec_run sample_ops (spec_new (str "root"))) as [f|] eqn:Hf; [|vm_compute in Hf; discriminate].
  exists f. split; [done|]. destruct (xml_tree_refines (str "root") sample_ops f Hf) as (d & Hd & Hall). exists d. split; [done|].
  assert (exists t0, f !! 0 = Some t0 /\ (e_addr <$> only (str "param") (t_kids t0)) !! 0%nat = Some 3 /\ (e_addr <$> only (str "param") (t_kids t0)) !! 2%nat = Some 4)
    as (t0 & Ht0 & Hi0 & Hi2).
  { assert (Some f = spec_run sample_ops (spec_new (str "root"))) as E by done. vm_compute in E. injection E as ->.
    eexists. split; [vm_compute; reflexivity|]. split; vm_compute; reflexivity. }
  assert (exists t3, f !! 3 = Some t3 /\ t_attr t3 !! str "name" = Some (str "call")) as (t3 & Ht3 & Ha).
  { assert (Some f = spec_run sample_ops (spec_new (str "root"))) as E by done. vm_compute in E. injection E as ->.
    eexists. split; vm_compute; reflexivity. }
  destruct (Hall 0 t0 Ht0) as (H0 & _). destruct (Hall 3 t3 Ht3) as (_ & _ & H3 & _).
  rewrite (H0 (str "param") 0), (H0 (str "param") 2), (H3 (str "name")) by lia. change (Z.to_nat 0) with 0%nat. change (Z.to_nat 2) with 2%nat.
  rewrite Hi0, Hi2, Ha. split; [reflexivity|]. split; reflexivity.
Defined.

(** ** Where cutting goes wrong *)

(** When the first tag is cut and another name follows it, the later tags of its
    name are still on the list of all tags but are not found any more. *)
Definition three_tags : list tree_op := [AddChild 0 (str "a") 0; AddChild 0 (str "b") 0; AddChild 0 (str "a") 0].

Theorem cut_loses_tags : exists d h, tree_run three_tags (switch_xml_new (Some (str "r"))) = Ok d /\ switch_xml_cut 1 (d_nodes d) = Ok h /\
  switch_xml_child h (Some 0) (str "a") = Ok None /\ link n_child h 0 = Some (Some 2) /\ link n_ordered h 2 = Some (Some 3).
Proof.
  destruct (tree_run three_tags (switch_xml_new (Some (str "r")))) as [d| |] eqn:Hd; [|by vm_compute in Hd..]. exists d.
  assert (Ok d = tree_run three_tags (switch_xml_new (Some (str "r")))) as E by done. vm_compute in E. injection E as ->.
  eexists. split; [done|]. split; [vm_compute; reflexivity|]. vm_compute. done.
Qed.

(** A tag that is put in front of a first one of the same name leaves that one
    on the list of first ones; cutting it makes this list run in a circle, and
    looking for a name that does not occur does not end. *)
Definition in_front : list tree_op := [AddChild 0 (str "a") 5; AddChild 0 (str "a") 0].

Theorem cut_makes_circle : exists d h, tree_run in_front (switch_xml_new (Some (str "r"))) = Ok d /\ switch_xml_cut 2 (d_nodes d) = Ok h /\
  link n_sibling h 1 = Some (Some 1) /\ switch_xml_child h (Some 0) (str "x") = NoFuel.
Proof.
  destruct (tree_run in_front (switch_xml_new (Some (str "r")))) as [d| |] eqn:Hd; [|by vm_compute in Hd..]. exists d.
  assert (Ok d = tree_run in_front (switch_xml_new (Some (str "r")))) as E by done. vm_compute in E. injection E as ->.
  eexists. split; [done|]. split; [vm_compute; reflexivity|]. vm_compute. done.
Qed.
End XmlTree.
