(* ===== verification/Xml.v ===== *)
(** * Reading and writing XML

    src/lib/libfreeswitch/switch_xml.c: the parser (switch_xml_parse_str with
    entities, the internal document type, processing instructions and UTF-16),
    the printer (switch_xml_toxml) and switch_xml_dup, which copies a tag by
    printing and parsing it.

    The parser of the source works in the buffer of the text: it ends strings
    by writing NULs into it and keeps pointers to them.  Here the buffer is the
    list of the characters that are still to be read, and a string is the list
    of its characters when it was ended; nothing the parser writes later lies
    inside of a string it has ended.  The loop that normalises newlines runs over
    the end of a string that ends in a carriage return, unless it has taken a
    newline out of that string and so left a second NUL behind it: then the rest
    of the text is normalised at once, as in the source, and where that runs over
    the end of the whole text, the outcome is [Fault]: the byte behind the text is
    read, which only a caller that hands over a string with its NUL has.  [Fault]
    is also the outcome where trimming an attribute or a declaration without an
    end runs over the end of its string or of the document type, where a shift is
    by a negative amount, and where strcmp gets NULL.  The printer writes into a
    block of [max] bytes that grows, and a write behind its end is [Fault]. *)

From stdpp Require Import sorting.
From S2P Require Import Prelude Outcome CString XmlTree.
Import CString XmlTree.

Module Xml.

(** ** Characters *)

Definition is_ws (c : Z) : bool := (c =? 9) || (c =? 13) || (c =? 10) || (c =? 32).
Definition isalpha (c : Z) : bool := ((65 <=? c) && (c <=? 90)) || ((97 <=? c) && (c <=? 122)).

(** [strspn] and [strcspn]: the characters of a class, and the rest. *)
Fixpoint span (p : Z -> bool) (s : bytes) : bytes * bytes :=
  match s with
  | [] => ([], [])
  | c :: s' => if p c then let '(a, b) := span p s' in (c :: a, b) else ([], s)
  end.

Definition skip (p : Z -> bool) (s : bytes) : bytes := (span p s).2.

(** [!strncmp(s, p, strlen(p))] *)
Definition starts (p s : bytes) : bool := streq (take (length p) s) p.

(** [strtol] with the place behind the number; without digits that is the
    beginning. *)
Definition digit_of (base c : Z) : option Z :=
  let v := if isdigit c then c - 48 else if (97 <=? c) && (c <=? 102) then c - 87 else if (65 <=? c) && (c <=? 70) then c - 55 else 99 in
  if v <? base then Some v else None.

Fixpoint number (base : Z) (s : bytes) (acc : Z) : Z * bytes :=
  match s with
  | [] => (acc, [])
  | c :: s' => match digit_of base c with Some v => number base s' (acc * base + v) | None => (acc, s) end
  end.

Definition strtol_at (base : Z) (s : bytes) : Z * bytes :=
  let s1 := skip_space s in
  let '(neg, s2) := match s1 with 45 :: r => (true, r) | 43 :: r => (false, r) | _ => (false, s1) end in
  let s3 := match s2 with
            | 48 :: x :: c :: r => if (base =? 16) && ((x =? 120) || (x =? 88)) && bool_decide (is_Some (digit_of base c)) then c :: r else s2
            | _ => s2
            end in
  match s3 with
  | c :: _ =>
    if bool_decide (is_Some (digit_of base c)) then
      let '(v, e) := number base s3 0 in (Z.max (- 2 ^ 63) (Z.min (2 ^ 63 - 1) (if neg : bool then - v else v)), e)
    else (0, s)
  | [] => (0, s)
  end.

(** ** UTF-8 *)

(** The bytes that follow the first one. *)
Fixpoint payload (b : nat) (c : Z) : bytes :=
  match b with
  | O => []
  | S b => Z.lor 0x80 (Z.land (Z.shiftr c (6 * Z.of_nat b)) 0x3F) :: payload b c
  end.

(** A character beyond ASCII: [b] is the number of further bytes. *)
Definition utf8_long (c : Z) : res bytes :=
  let b := (Z.log2 c + 1 - 2) / 5 in
  if 7 <? b then Fault
  else Ok (u8 (Z.lor (Z.shiftl 0xFF (7 - b)) (Z.shiftr c (6 * b))) :: payload (Z.to_nat b) c).

(** What a character reference stands for.  A negative number whose low byte is
    NUL would end the string while the code goes on behind it. *)
Definition character (c : Z) : res bytes :=
  if c <? 0x80 then (if u8 c =? 0 then Fault else Ok [u8 c]) else utf8_long c.

(** ** Decoding *)

(** Where the loop over the newlines is: in the text, or behind a carriage
    return, where it has stepped to a character that it will step over unless
    that is a newline, which is taken out, or a carriage return. *)
Inductive cr_state := InText | BehindCr.

(** The text with its newlines normalised, and whether the loop went on behind
    the end; [cut] tells that a newline was taken out.  A text that ends in a
    carriage return makes the loop step over the end.  Where a newline was taken
    out, the text was moved together with its NUL and the old NUL was left behind
    the new one, so that the loop stops there. *)
Fixpoint newlines (st : cr_state) (cut : bool) (s : bytes) : bytes * bool :=
  match s with
  | [] => ([], match st with InText => false | BehindCr => negb cut end)
  | c :: s =>
    if c =? 13 then let '(r, o) := newlines BehindCr cut s in (10 :: r, o)
    else match st with
         | BehindCr => if c =? 10 then newlines InText true s else let '(r, o) := newlines InText cut s in (c :: r, o)
         | InText => let '(r, o) := newlines InText cut s in (c :: r, o)
         end
  end.

(** Behind the first semicolon. *)
Fixpoint behind_semicolon (s : bytes) : bytes :=
  match s with [] => [] | c :: s => if c =? 59 then s else behind_semicolon s end.

Definition find_entity (ent : list (bytes * bytes)) (s : bytes) : option bytes :=
  (fun '(_, (_, v)) => v) <$> list_find (fun '(n, _) => starts n s = true) ent.

(** The number of a character reference at [s], which starts with "&#", and
    what follows it. *)
Definition ref_number (s : bytes) : Z * bytes := match s with 120 :: r => strtol_at 16 r | _ => strtol_at 10 s end.

Definition reference (s : bytes) : option (Z * bytes) :=
  let '(v, e) := ref_number (drop 2 s) in
  match e with
  | 59 :: r => if v =? 0 then None else Some (v, r)
  | _ => None
  end.

(** The loop over references; [t] is the kind of text. *)
Fixpoint decode_loop (k : nat) (ent : list (bytes * bytes)) (t : Z) (s : bytes) : res bytes :=
  match k with
  | O => NoFuel
  | S k =>
    match s with
    | [] => Ok []
    | c :: s' =>
      if negb (c =? 38) && negb ((c =? 37) && (t =? 37)) && negb (isspace c) then cons c <$> decode_loop k ent t s'
      else if negb (t =? 99) && starts (str "&#") s then
        match reference s with
        | Some (v, r) => b ← character v; app b <$> decode_loop k ent t r
        | None => cons c <$> decode_loop k ent t s'
        end
      else if ((c =? 38) && ((t =? 38) || (t =? 32) || (t =? 42))) || ((c =? 37) && (t =? 37)) then
        match find_entity ent s' with
        | Some v => decode_loop k ent t (v ++ behind_semicolon s)
        | None => cons c <$> decode_loop k ent t s'
        end
      else if ((t =? 32) || (t =? 42)) && isspace c then cons 32 <$> decode_loop k ent t s'
      else cons c <$> decode_loop k ent t s'
    end
  end.

(** Spaces of an attribute that is not CDATA: the inner loop stops at a space
    or at the end, and the outer one steps over what it stopped at. *)
Fixpoint trim_spaces (k : nat) (s : bytes) : res bytes :=
  match s, k with
  | [], _ => Ok []
  | _, O => NoFuel
  | _, S k =>
    let '(w, r) := span (fun c => negb (c =? 32)) (skip (fun c => c =? 32) s) in
    match r with
    | [] => Fault
    | _ :: [] => Ok w
    | _ :: r => app (w ++ [32]) <$> trim_spaces k r
    end
  end.

(** [k] bounds the steps beyond two for every character; only entities of a
    document type can need them. *)
Definition switch_xml_decode (k : nat) (s : bytes) (ent : list (bytes * bytes)) (t : Z) : res (bytes * bool) :=
  let '(s, over) := newlines InText false s in
  r ← decode_loop (k + 2 * length s + 1) ent t s;
  r ← (if t =? 42 then trim_spaces (length r) r else Ok r);
  Ok (r, over).

(** ** What the parser reports to the tree *)

Definition switch_xml_open_tag (name : bytes) (attr : list (bytes * value)) (d : doc) : res doc :=
  match d_cur d with
  | None => Ok d
  | Some x =>
    n ← deref (d_nodes d) x;
    '(d, c) ← (match n_name n with
               | Some _ => switch_xml_add_child x name (zlen (n_txt n)) d
               | None => h ← upd (d_nodes d) x (with_name (Some name)); Ok (on_nodes h d, x)
               end);
    h ← upd (d_nodes d) c (with_attr attr);
    Ok (with_cur (Some c) (on_nodes h d))
  end.

Definition switch_xml_char_content (k : nat) (s : bytes) (t : Z) (d : doc) : res (doc * bool) :=
  match d_cur d with
  | None => Ok (d, false)
  | Some x =>
    n ← deref (d_nodes d) x;
    if bool_decide (n_name n = None) || bool_decide (s = []) then Ok (d, false)
    else
      '(s, over) ← switch_xml_decode k s (d_ent d) t;
      h ← upd (d_nodes d) x (with_txt (n_txt n ++ s));
      Ok (on_nodes h d, over)
  end.

Definition fail (e : xml_error) (d : doc) : doc := with_err (Some e) d.

(** The document, and whether the tag could be closed. *)
Definition switch_xml_close_tag (name : bytes) (d : doc) : res (doc * bool) :=
  match d_cur d with
  | None => Ok (fail (UnexpectedClosing name) d, false)
  | Some x =>
    n ← deref (d_nodes d) x;
    if bool_decide (n_name n = Some name) then Ok (with_cur (n_parent n) d, true)
    else Ok (fail (UnexpectedClosing name) d, false)
  end.

(** ** Processing instructions *)

Fixpoint add_instruction (l : instructions) (target : bytes) (i : bytes * Z) : instructions :=
  match l with
  | [] => [(target, [i])]
  | (t, l1) :: l => if streq target t then (t, l1 ++ [i]) :: l else (t, l1) :: add_instruction l target i
  end.

Definition switch_xml_proc_inst (s : bytes) (d : doc) : res doc :=
  let '(target, r) := span (fun c => negb (is_ws c)) s in
  let s := match r with [] => [] | _ :: r => skip is_ws r end in
  if streq target (str "xml") then
    match strstr s (str "standalone") with
    | Some i => Ok (if starts (str "yes") (skip (fun c => is_ws c || (c =? 61) || (c =? 39) || (c =? 34)) (zdrop (i + 10) s))
                    then with_standalone true d else d)
    | None => Ok d
    end
  else
    root ← deref (d_nodes d) 0;
    Ok (with_pi (add_instruction (d_pi d) target (s, if bool_decide (n_name root = None) then 60 else 62)) d).

(** ** The internal document type *)

(** Is there no reference to [name] in [s], nor in what it refers to? *)
Fixpoint switch_xml_ent_ok (k : nat) (name s : bytes) (ent : list (bytes * bytes)) : res bool :=
  match k with
  | O => NoFuel
  | S k =>
    match skip (fun c => negb (c =? 38)) s with
    | [] => Ok true
    | _ :: s =>
      if starts name s then Ok false
      else
        ok ← (match find_entity ent s with Some v => switch_xml_ent_ok k name v ent | None => Ok true end);
        if ok : bool then switch_xml_ent_ok k name s ent else Ok false
    end
  end.

(** A value inside of the document type and the text behind it, which is
    normalised when the loop over the newlines of the value goes on behind its
    end; and whether it also went on behind the document type. *)
Definition dtd_value (k : nat) (v : bytes) (ent : list (bytes * bytes)) (t : Z) (rest : option bytes) : res (bytes * option bytes * bool) :=
  '(v, over) ← switch_xml_decode k v ent t;
  Ok (if over : bool then
        match rest with
        | Some r => let '(r, o) := newlines InText false r in (v, Some r, o)
        | None => (v, None, true)
        end
      else (v, rest, false)).

(** The value up to the quote [q] and the text behind it; without a quote the
    value goes to the end. *)
Definition up_to (q : Z) (s : bytes) : bytes * option bytes :=
  match span (fun c => negb (c =? q)) s with
  | (v, _ :: r) => (v, Some r)
  | (v, []) => (v, None)
  end.

Definition is_quote (q : Z) : bool := (q =? 34) || (q =? 39).

(** What goes on in the loop over the declarations: parameter entities, the
    last name that was read, the document, the text that is left ([None] where
    the source's pointer is NULL), and whether the newlines behind the document
    type have been normalised too; [stop] leaves the loop. *)
Record dtd := Dtd { t_pe : list (bytes * bytes); t_n : option bytes; t_doc : doc; t_rest : option bytes; t_over : bool; t_stop : bool }.

Definition declare_entity (k : nat) (s : bytes) (st : dtd) : res dtd :=
  let c := skip is_ws (drop 8 s) in
  let n := skip (fun c => is_ws c || (c =? 37)) c in
  let '(name, s1) := span (fun c => negb (is_ws c)) n in
  match s1 with
  | [] => Fault
  | _ :: s2 =>
    let name := name ++ [59] in
    match skip is_ws s2 with
    | q :: v =>
      if is_quote q then
        let param := match c with 37 :: _ => true | _ => false end in
        let ent := if param : bool then t_pe st else d_ent (t_doc st) in
        let '(v, rest) := up_to q v in
        '(v, rest, o) ← dtd_value k v (t_pe st) 37 rest;
        ok ← switch_xml_ent_ok (k + length v + 1) name v ent;
        if ok : bool then
          if param then Ok (Dtd (ent ++ [(name, v)]) (Some name) (t_doc st) rest (t_over st || o) false)
          else Ok (Dtd (t_pe st) (Some name) (with_ent (ent ++ [(name, v)]) (t_doc st)) rest (t_over st || o) false)
        else Ok (Dtd (t_pe st) (Some name) (fail (CircularEntity name) (t_doc st)) rest (t_over st || o) true)
      else Ok (Dtd (t_pe st) (Some (name ++ s2)) (t_doc st) ((fun i => zdrop i s2) <$> strchr s2 62) (t_over st) false)
    | [] => Ok (Dtd (t_pe st) (Some (name ++ s2)) (t_doc st) None (t_over st) false)
    end
  end.

(** Adds a default to the entry number [i] of the list. *)
Definition add_default (ds : defaults) (i : nat) (tag : bytes) (a : bytes * option bytes * Z) : defaults :=
  match ds !! i with
  | Some (t, l) => <[i := (t, l ++ [a])]> ds
  | None => ds ++ [(tag, [a])]
  end.

(** The attributes of one declaration, from the character behind the one [s]
    pointed to. *)
Fixpoint attlist_loop (f k : nat) (i : nat) (tag : bytes) (s : bytes) (st : dtd) : res dtd :=
  match f with
  | O => NoFuel
  | S f =>
    let n := skip is_ws s in
    if match n with [] => true | c :: _ => c =? 62 end then Ok (Dtd (t_pe st) (Some n) (t_doc st) (Some s) (t_over st) false)
    else
      let '(name, s1) := span (fun c => negb (is_ws c)) n in
      let bad rest := Ok (Dtd (t_pe st) (Some name) (fail MalformedAttlist (t_doc st)) rest (t_over st) false) in
      match s1 with
      | [] => bad (Some [])
      | _ :: s1 =>
        let s2 := skip is_ws s1 in
        let c := if starts (str "CDATA") s2 then 32 else 42 in
        let s3 := if starts (str "NOTATION") s2 then skip is_ws (drop 8 s2) else s2 in
        let s4 := match s3 with
                  | 40 :: _ => (fun j => zdrop j s3) <$> strchr s3 41
                  | _ => Some (skip (fun c => negb (is_ws c)) s3)
                  end in
        match s4 with
        | None => bad None
        | Some s4 =>
          let s5 := skip (fun c => is_ws c || (c =? 41)) s4 in
          let s6 := if starts (str "#FIXED") s5 then skip is_ws (drop 6 s5) else s5 in
          let add v rest o := attlist_loop f k i tag rest
                              (Dtd (t_pe st) (Some name) (with_defaults (add_default (d_attr (t_doc st)) i tag (name, v, c)) (t_doc st)) (Some rest) (t_over st || o) false) in
          match s6 with
          | 35 :: _ =>
            let rest := skip (fun c => negb (is_ws c) && negb (c =? 62)) s6 in
            if c =? 32 then attlist_loop f k i tag rest (Dtd (t_pe st) (Some name) (t_doc st) (Some rest) (t_over st) false) else add None rest false
          | q :: v =>
            if is_quote q then
              match up_to q v with
              | (v, Some rest) =>
                '(v, rest, o) ← dtd_value k v (d_ent (t_doc st)) c (Some rest);
                add (Some v) (default [] rest) o
              | (_, None) => bad None
              end
            else bad (Some s6)
          | [] => bad (Some [])
          end
        end
      end
  end.

Definition declare_attlist (k : nat) (s : bytes) (st : dtd) : res dtd :=
  match skip is_ws (drop 9 s) with
  | [] => Ok (Dtd (t_pe st) (t_n st) (fail UnclosedAttlist (t_doc st)) (Some []) (t_over st) true)
  | t =>
    let '(tag, s1) := span (fun c => negb (is_ws c) && negb (c =? 62)) t in
    match s1 with
    | 62 :: _ => Ok (Dtd (t_pe st) (t_n st) (t_doc st) (Some s1) (t_over st) false)
    | [] => Fault
    | _ :: s2 =>
      match d_attr (t_doc st), t_n st with
      | _ :: _, None => Fault
      | ds, n =>
        let i := match list_find (fun '(t, _) => Some t = n) ds with Some (i, _) => i | None => length ds end in
        attlist_loop (S (length s2)) k i tag s2 st
      end
    end
  end.

Fixpoint dtd_loop (f k : nat) (st : dtd) : res dtd :=
  match t_rest st with
  | None => Ok st
  | Some s =>
    match f with
    | O => NoFuel
    | S f =>
      let go rest := dtd_loop f k (Dtd (t_pe st) (t_n st) (t_doc st) rest (t_over st) false) in
      match skip (fun c => negb (c =? 60) && negb (c =? 37)) s with
      | [] => Ok st
      | (c :: s') as s =>
        if starts (str "<!ENTITY") s then st ← declare_entity k s st; if t_stop st then Ok st else dtd_loop f k st
        else if starts (str "<!ATTLIST") s then st ← declare_attlist k s st; if t_stop st then Ok st else dtd_loop f k st
        else if starts (str "<!--") s then go ((fun i => zdrop (4 + i) s) <$> strstr (drop 4 s) (str "-->"))
        else if starts (str "<?") s then
          match strstr (drop 2 s) (str "?>") with
          | Some i => d ← switch_xml_proc_inst (ztake i (drop 2 s)) (t_doc st); dtd_loop f k (Dtd (t_pe st) (t_n st) d (Some (zdrop (i + 3) s)) (t_over st) false)
          | None => go None
          end
        else if c =? 60 then go ((fun i => zdrop i s) <$> strchr s 62)
        else if negb (d_standalone (t_doc st)) then Ok st
        else go (Some s')
      end
    end
  end.

(** The document, whether there is no error, and whether the loop over the
    newlines went on behind the document type. *)
Definition switch_xml_internal_dtd (k : nat) (s : bytes) (d : doc) : res (doc * bool * bool) :=
  st ← dtd_loop (S (length s)) k (Dtd [] None d (Some s) false false);
  Ok (t_doc st, bool_decide (d_err (t_doc st) = None), t_over st).

(** ** The parser *)

(** The text behind a string that was decoded: where the loop over the newlines
    went on behind the end of the string, the newlines of the text are normalised
    as well, and the loop may also go on behind the end of the text. *)
Definition go_on (over : bool) (s : bytes) : res bytes :=
  if over then let '(s, o) := newlines InText false s in if o : bool then Fault else Ok s else Ok s.

Definition attr_kind (a : option (list (bytes * option bytes * Z))) (name : bytes) : Z :=
  match a ≫= fun l => find_default l name with Some (_, _, c) => c | None => 32 end.

(** One attribute: its name, its value, and the text behind it; or the quote
    that is missing. *)
Definition parse_attr (k : nat) (ent : list (bytes * bytes)) (a : option (list (bytes * option bytes * Z))) (s : bytes) : res (Z + (bytes * value) * bytes) :=
  let '(name, s1) := span (fun c => negb (is_ws c || (c =? 61) || (c =? 47) || (c =? 62))) s in
  match s1 with
  | c :: s2 =>
    if (c =? 61) || isspace c then
      match skip (fun c => is_ws c || (c =? 61)) s2 with
      | (q :: v) as s3 =>
        if is_quote q then
          match span (fun c => negb (c =? q)) v with
          | (_, []) => Ok (inl q)
          | (v, _ :: s4) =>
            '(v, over) ← switch_xml_decode k v ent (attr_kind a name);
            s5 ← go_on over s4;
            Ok (inr ((name, Own v), s5))
          end
        else Ok (inr ((name, Literal), s3))
      | [] => Ok (inr ((name, Literal), []))
      end
    else Ok (inr ((name, Literal), s1))
  | [] => Ok (inr ((name, Literal), []))
  end.

Definition tag_end (s : bytes) : bool := match s with [] => true | c :: _ => (c =? 47) || (c =? 62) end.

Fixpoint attr_loop (f k : nat) (ent : list (bytes * bytes)) (a : option (list (bytes * option bytes * Z))) (attr : list (bytes * value)) (s : bytes)
  : res (Z + list (bytes * value) * bytes) :=
  if tag_end s then Ok (inr (attr, s))
  else match f with
       | O => NoFuel
       | S f =>
         r ← parse_attr k ent a s;
         match r with
         | inl q => Ok (inl q)
         | inr (v, s) => attr_loop f k ent a (attr ++ [v]) (skip isspace s)
         end
       end.

Definition name_start (c : Z) : bool := isalpha c || (c =? 95) || (c =? 58) || (128 <=? c).

(** A construct of the text leaves the document and the text from its last
    character on; [inl] ends the parser. *)
Abbreviation outcome := (res (doc + doc * bytes)).

(** [e] is the last character of the text, which the source has replaced by
    the end. *)
Definition parse_tag (k : nat) (e : Z) (s : bytes) (d : doc) : outcome :=
  if bool_decide (d_cur d = None) then Ok (inl (fail MarkupOutside d))
  else
    let '(name, s1) := span (fun c => negb (is_ws c || (c =? 47) || (c =? 62))) s in
    let s2 := skip isspace s1 in
    let a := if tag_end s2 then None else (fun '(_, (_, l)) => l) <$> list_find (fun '(t, _) => t = name) (d_attr d) in
    r ← attr_loop (length s2) k (d_ent d) a [] s2;
    match r with
    | inl q => Ok (inl (fail (MissingQuote q) d))
    | inr (attr, s3) =>
      match s3 with
      | c :: s4 =>
        if c =? 47 then
          if match s4 with [] => negb (e =? 62) | c :: _ => negb (c =? 62) end then Ok (inl (fail MissingClose d))
          else
            d ← switch_xml_open_tag name attr d;
            '(d, _) ← switch_xml_close_tag name d;
            Ok (inr (d, s4))
        else d ← switch_xml_open_tag name attr d; Ok (inr (d, s3))
      | [] => if e =? 62 then d ← switch_xml_open_tag name attr d; Ok (inr (d, [])) else Ok (inl (fail MissingClose d))
      end
    end.

Definition parse_close (e : Z) (s : bytes) (d : doc) : outcome :=
  let '(name, s1) := span (fun c => negb (is_ws c || (c =? 62))) s in
  if bool_decide (s1 = []) && negb (e =? 62) then Ok (inl (fail MissingClose d))
  else
    '(d, ok) ← switch_xml_close_tag name d;
    if ok : bool then Ok (inr (d, skip is_ws s1)) else Ok (inl d).

Definition parse_comment (e : Z) (s : bytes) (d : doc) : outcome :=
  match strstr (drop 3 s) (str "--") with
  | None => Ok (inl (fail UnclosedComment d))
  | Some i =>
    let s := zdrop (i + 5) s in
    if match s with [] => negb (e =? 62) | c :: _ => negb (c =? 62) end then Ok (inl (fail UnclosedComment d)) else Ok (inr (d, s))
  end.

Definition parse_cdata (k : nat) (s : bytes) (d : doc) : outcome :=
  match strstr s (str "]]>") with
  | None => Ok (inl (fail UnclosedCdata d))
  | Some i =>
    '(d, over) ← switch_xml_char_content k (slice 8 (i - 8) s) 99 d;
    s ← go_on over (zdrop (i + 2) s);
    Ok (inr (d, s))
  end.

(** The search for the end of a document type, which may have an internal part
    in brackets. *)
Fixpoint doctype_loop (f : nat) (l : bool) (s : bytes) : res (bool * bytes) :=
  match s with
  | [] => Ok (l, [])
  | c :: s' =>
    if if l then negb (c =? 93) || negb (match skip is_ws s' with c :: _ => c =? 62 | [] => false end) else negb (c =? 62) then
      match f with
      | O => NoFuel
      | S f =>
        let s := skip (fun c => negb ((c =? 91) || (c =? 93) || (c =? 62))) s' in
        doctype_loop f (match s with c :: _ => if c =? 91 then true else l | [] => l end) s
      end
    else Ok (l, s)
  end.

Definition parse_doctype (k : nat) (e : Z) (s : bytes) (d : doc) : outcome :=
  '(l, r) ← doctype_loop (length s) false s;
  if bool_decide (r = []) && negb (e =? 62) then Ok (inl (fail UnclosedDoctype d))
  else if l : bool then
    let part := drop 1 (skip (fun c => negb (c =? 91)) s) in
    '(d, ok, over) ← switch_xml_internal_dtd k (take (length part - length r) part) d;
    r ← (match r with [] => if over : bool then Fault else Ok [] | _ :: r => go_on over r end);
    if ok : bool then Ok (inr (d, r)) else Ok (inl d)
  else Ok (inr (d, r)).

(** Behind the next question mark that stands before a [>] or the end. *)
Fixpoint find_pi (s : bytes) : option bytes :=
  match s with
  | [] => None
  | c :: s' =>
    if c =? 63 then match s' with [] => Some [] | c :: _ => if c =? 62 then Some s' else find_pi s' end
    else find_pi s'
  end.

(** The length of the instruction is that of the text less the two question
    marks; a single one makes it negative. *)
Definition parse_pi (e : Z) (s : bytes) (d : doc) : outcome :=
  match find_pi s with
  | None => Ok (inl (fail UnclosedInstruction d))
  | Some r =>
    if bool_decide (r = []) && negb (e =? 62) then Ok (inl (fail UnclosedInstruction d))
    else if zlen s - zlen r <? 2 then Fault
    else d ← switch_xml_proc_inst (slice 1 (zlen s - zlen r - 2) s) d; Ok (inr (d, r))
  end.

(** What stands behind a [<]. *)
Definition parse_markup (k : nat) (e : Z) (s : bytes) (d : doc) : outcome :=
  let c := match s with c :: _ => c | [] => 0 end in
  if name_start c then parse_tag k e s d
  else if c =? 47 then parse_close e (drop 1 s) d
  else if starts (str "!--") s then parse_comment e s d
  else if starts (str "![CDATA[") s then parse_cdata k s d
  else if starts (str "!DOCTYPE") s then parse_doctype k e s d
  else if c =? 63 then parse_pi e s d
  else Ok (inl (fail UnexpectedOpen d)).

Definition finish (d : doc) : res doc :=
  match d_cur d with
  | None => Ok d
  | Some x => n ← deref (d_nodes d) x; Ok (fail (match n_name n with None => RootTagMissing | Some name => UnclosedTag name end) d)
  end.

(** [s] is behind a [<]. *)
Fixpoint parse_loop (f k : nat) (e : Z) (s : bytes) (d : doc) : res doc :=
  match f with
  | O => NoFuel
  | S f =>
    r ← parse_markup k e s d;
    match r with
    | inl d => Ok d
    | inr (d, s) =>
      match drop 1 s with
      | [] => finish d
      | (c :: s1) as s0 =>
        if c =? 60 then parse_loop f k e s1 d
        else
          let '(text, r) := span (fun c => negb (c =? 60)) s0 in
          match r with
          | [] => finish d
          | _ :: r =>
            '(d, over) ← switch_xml_char_content k text 38 d;
            r ← go_on over r;
            parse_loop f k e r d
          end
      end
    end
  end.

(** ** UTF-16 *)

Definition pair_at (be : bool) (s : bytes) (i : Z) : Z :=
  let a := default 0 (s !! Z.to_nat i) in let b := default 0 (s !! Z.to_nat (i + 1)) in
  if be then Z.lor (Z.shiftl a 8) b else Z.lor (Z.shiftl b 8) a.

(** The loop over the pairs of bytes, with surrogates. *)
Fixpoint utf16_loop (f : nat) (be : bool) (s : bytes) (sl : Z) : res bytes :=
  if sl <? zlen s - 1 then
    match f with
    | O => NoFuel
    | S f =>
      let c := pair_at be s sl in
      let '(c, sl) :=
        if (0xD800 <=? c) && (c <=? 0xDFFF) then
          if sl + 2 <? zlen s - 1 then
            (Z.lor (Z.shiftl (Z.land c 0x3FF) 10) (Z.land (pair_at be s (sl + 2)) 0x3FF) + 0x10000, sl + 2)
          else (c, sl + 2)
        else (c, sl) in
      u ← (if c <? 0x80 then Ok [c] else utf8_long c);
      app u <$> utf16_loop f be s (sl + 2)
    end
  else Ok [].

Definition switch_xml_str2utf8 (s : bytes) : res bytes :=
  match s with
  | c :: _ => if c =? 0xFE then utf16_loop (length s) true s 2 else if c =? 0xFF then utf16_loop (length s) false s 2 else Ok s
  | [] => Ok s
  end.

(** [None] is NULL.  A text of which nothing is left after the conversion is
    accessed in front of its block. *)
Definition switch_xml_parse_str (k : nat) (s : bytes) : res (option doc) :=
  let d := switch_xml_new None in
  if bool_decide (s = []) then Ok None
  else
    s ← switch_xml_str2utf8 s;
    match last s with
    | None => Fault
    | Some e =>
      let text := (span (fun c => negb (c =? 0)) (take (length s - 1) s)).1 in
      match skip (fun c => negb (c =? 60)) text with
      | [] => Ok (Some (fail RootTagMissing d))
      | _ :: s => Some <$> parse_loop (S (length s)) k e s d
      end
    end.

(** For a string; its length is that up to its NUL. *)
Definition switch_xml_parse_str_dynamic (k : nat) (s : bytes) : res (option doc) := switch_xml_parse_str k s.

(** ** The printer *)

Definition SWITCH_XML_BUFSIZE : Z := 1024.

(** What was printed, and the size of the block. *)
Record buf := Buf { b_out : bytes; b_max : Z }.

(** [while (len + n > max) realloc(..., max += SWITCH_XML_BUFSIZE)] *)
Definition reserve (n : Z) (b : buf) : buf :=
  let need := zlen (b_out b) + n in
  if need <=? b_max b then b
  else Buf (b_out b) (b_max b + SWITCH_XML_BUFSIZE * ((need - b_max b + (SWITCH_XML_BUFSIZE - 1)) / SWITCH_XML_BUFSIZE)).

(** [sprintf], which writes a NUL behind the text. *)
Definition put (s : bytes) (b : buf) : res buf :=
  if zlen (b_out b) + zlen s + 1 <=? b_max b then Ok (Buf (b_out b ++ s) (b_max b)) else Fault.

(** A single character, without a NUL. *)
Definition put_char (c : Z) (b : buf) : res buf :=
  if zlen (b_out b) + 1 <=? b_max b then Ok (Buf (b_out b ++ [c]) (b_max b)) else Fault.

(** [%X] of a number that is not negative. *)
Fixpoint hex_digits (f : nat) (c : Z) : bytes :=
  match f with
  | O => []
  | S f => let d := c mod 16 in (if c / 16 =? 0 then [] else hex_digits f (c / 16)) ++ [if d <? 10 then 48 + d else 55 + d]
  end.

Definition hex (c : Z) : bytes := hex_digits 8 c.

Definition char_ref (c : Z) : bytes := str "&#x" ++ hex c ++ [59].

(** The state of the loop: everything is copied behind the beginning of a
    declaration; the number of bytes that are missing from a character of
    several bytes, and its value so far. *)
Record amp := Amp { a_immune : bool; a_expecting : Z; a_unicode : Z }.

(** The number of bytes the first byte of a character announces. *)
Definition utf8_num (c : Z) : Z :=
  if negb (Z.testbit c 6) then 1 else if negb (Z.testbit c 5) then 2 else if negb (Z.testbit c 4) then 3 else 4.

(** A character that is not special. *)
Definition amp_plain (c : Z) (st : amp) (b : buf) : res (amp * buf) :=
  if (a_expecting st =? 0) && (128 <=? c) then
    let num := utf8_num c in
    let u := if num =? 2 then Z.land c 0x1f else if num =? 3 then Z.land c 0x0f else if num =? 4 then Z.land c 0x07 else a_unicode st in
    Ok (Amp (a_immune st) (num - 1) u, b)
  else if 0 <? a_expecting st then
    if Z.land (Z.shiftr c 6) 3 =? 2 then
      let u := Z.lor (Z.shiftl (a_unicode st) 6) (Z.land c 0x3f) in
      let n := a_expecting st - 1 in
      b ← (if n =? 0 then put (char_ref u) b else Ok b);
      Ok (Amp (a_immune st) n u, b)
    else Ok (Amp (a_immune st) 0 (a_unicode st), b)
  else b ← put_char c b; Ok (st, b).

Definition amp_char (a : bool) (c : Z) (next : bytes) (st : amp) (b : buf) : res (amp * buf) :=
  let b := reserve 10 b in
  if a_immune st then b ← put_char c b; Ok (st, b)
  else if c =? 38 then b ← put (str "&amp;") b; Ok (st, b)
  else if c =? 60 then
    if match next with n :: _ => n =? 33 | [] => false end
    then b ← put_char c b; Ok (Amp true (a_expecting st) (a_unicode st), b)
    else b ← put (str "&lt;") b; Ok (st, b)
  else if c =? 62 then b ← put (str "&gt;") b; Ok (st, b)
  else if c =? 34 then b ← put (if a then str "&quot;" else [34]) b; Ok (st, b)
  else if c =? 10 then b ← put (if a then str "&#xA;" else [10]) b; Ok (st, b)
  else if c =? 9 then b ← put (if a then str "&#x9;" else [9]) b; Ok (st, b)
  else if c =? 13 then b ← put (str "&#xD;") b; Ok (st, b)
  else amp_plain c st b.

(** [e] is the number of characters up to the end, negative when there is none;
    at the NUL of the string the block has been enlarged once more. *)
Fixpoint amp_loop (a : bool) (e : Z) (s : bytes) (st : amp) (b : buf) : res buf :=
  if e =? 0 then Ok b
  else match s with
       | [] => Ok (reserve 10 b)
       | c :: s => '(st, b) ← amp_char a c s st b; amp_loop a (e - 1) s st b
       end.

(** A length of 0 means the whole string. *)
Definition switch_xml_ampencode (s : bytes) (len : Z) (b : buf) (a : bool) : res buf :=
  match s with
  | [] => Ok b
  | _ => amp_loop a (if len =? 0 then -1 else len) s (Amp false 0 0) b
  end.

Definition ends_in (c : Z) (b : buf) : bool := match last (b_out b) with Some x => x =? c | None => false end.

Definition indent (count : Z) : bytes := replicate (Z.to_nat (2 * count)) 32.

(** [switch_xml_attr(xml, name) == value], on pointers: the first attribute of
    the name is this one, or both are the literal of the parser. *)
Definition shows (l : list (bytes * value)) (i : nat) (name : bytes) (v : value) : bool :=
  match list_find (fun '(n, _) => n = name) l with
  | Some (j, (_, w)) => bool_decide (i = j) || (match v, w with Literal, Literal => true | _, _ => false end)
  | None => false
  end.

Definition put_attr (count n : Z) (name val : bytes) (b : buf) : res buf :=
  let b := reserve (zlen name + n + 2 * count) b in
  b ← put ([32] ++ name ++ [61; 34]) b;
  b ← switch_xml_ampencode val 0 b true;
  put [34] b.

Fixpoint put_attrs (count : Z) (all : list (bytes * value)) (i : nat) (l : list (bytes * value)) (b : buf) : res buf :=
  match l with
  | [] => Ok b
  | (name, v) :: l =>
    b ← (if shows all i name v then put_attr count 7 name (text_of v) b else Ok b);
    put_attrs count all (S i) l b
  end.

(** The defaults that apply to the tag: not its own attributes, and the first
    of their name. *)
Fixpoint put_defaults (count : Z) (all : list (bytes * value)) (seen l : list (bytes * option bytes * Z)) (b : buf) : res buf :=
  match l with
  | [] => Ok b
  | (name, v, c) :: l =>
    b ← (match v, find_attr all name, find_default seen name with
         | Some v, None, None => put_attr count 8 name v b
         | _, _, _ => Ok b
         end);
    put_defaults count all (seen ++ [(name, v, c)]) l b
  end.

(** The tag from its beginning up to its contents. *)
Definition put_open (ds : defaults) (n : node) (name : bytes) (count : Z) (b : buf) : res buf :=
  let b := reserve (zlen name + 5 + 2 * count + 1) b in
  b ← (if ends_in 62 b then put [10] b else Ok b);
  b ← put (indent count) b;
  b ← put (60 :: name) b;
  b ← put_attrs count (n_attr n) 0 (n_attr n) b;
  b ← put_defaults count (n_attr n) [] (default [] (default_entry ds (Some name))) b;
  put [62] b.

Definition put_close (name : bytes) (count : Z) (b : buf) : res buf :=
  let b := reserve (zlen name + 5 + 2 * count) b in
  b ← (if ends_in 10 b then put (indent count) b else Ok b);
  put (str "</" ++ name ++ [62; 10]) b.

(** The tag at [xml] and, unless it is the one to be printed, those that follow
    it below the same parent. *)
Fixpoint switch_xml_toxml_r (f : nat) (ds : defaults) (h : heap) (xml : Z) (start count : Z) (isroot : bool) (b : buf) : res (buf * Z) :=
  match f with
  | O => NoFuel
  | S f =>
    n ← deref h xml;
    txt ← (match n_parent n with Some p => if isroot then Ok [] else np ← deref h p; Ok (n_txt np) | None => Ok [] end);
    b ← switch_xml_ampencode (zdrop start txt) (n_off n -u start) b false;
    match n_name n with
    | None => Fault
    | Some name =>
      b ← put_open ds n name count b;
      '(b, count) ← (match n_child n with
                     | Some c => switch_xml_toxml_r f ds h c 0 (count + 1) false b
                     | None => b ← switch_xml_ampencode (n_txt n) 0 b false; Ok (b, count)
                     end);
      b ← put_close name count b;
      let off := Z.min (zlen txt) (n_off n) in
      match n_ordered n with
      | Some o => if isroot then b ← switch_xml_ampencode (zdrop off txt) 0 b false; Ok (b, if 0 <? count then count - 1 else count)
                  else switch_xml_toxml_r f ds h o off count false b
      | None => b ← switch_xml_ampencode (zdrop off txt) 0 b false; Ok (b, if 0 <? count then count - 1 else count)
      end
    end
  end.

(** The processing instructions with the mark [m]. *)
Definition put_instruction (target i front : bytes) (b : buf) : res buf :=
  put (front ++ str "<?" ++ target ++ (match i with [] => [] | _ => [32] end) ++ i ++ str "?>") (reserve (zlen target + zlen i + 7) b).

Fixpoint put_instructions (m : Z) (front : bytes) (l : instructions) (b : buf) : res buf :=
  match l with
  | [] => Ok b
  | (target, ins) :: l =>
    b ← foldl (fun b '(i, mark) => b ← b; if mark =? m then put_instruction target i front b else Ok b) (Ok b) ins;
    put_instructions m front l b
  end.

(** [f] bounds the number of tags that are printed. *)
Definition switch_xml_toxml_buf (f : nat) (d : doc) (xml : Z) (buflen : Z) (prn_header : bool) : res bytes :=
  b ← (if prn_header then put (str "<?xml version=" ++ [34] ++ str "1.0" ++ [34] ++ str "?>" ++ [10]) (Buf [] buflen) else Ok (Buf [] buflen));
  n ← deref (d_nodes d) xml;
  match n_name n with
  | None => Ok (b_out b)
  | Some _ =>
    let pi := match n_parent n with None => d_pi d | Some _ => [] end in
    b ← put_instructions 60 [] pi b;
    '(b, _) ← switch_xml_toxml_r f (d_attr d) (d_nodes d) xml 0 0 true b;
    b ← put_instructions 62 [10] pi b;
    Ok (b_out b)
  end.

Definition switch_xml_toxml (f : nat) (d : doc) (xml : Z) (prn_header : bool) : res bytes :=
  switch_xml_toxml_buf f d xml SWITCH_XML_BUFSIZE prn_header.

Definition switch_xml_tohtml (f : nat) (d : doc) (xml : Z) (prn_header : bool) : res bytes :=
  r ← switch_xml_toxml_buf f d xml SWITCH_XML_BUFSIZE prn_header;
  b_out <$> switch_xml_ampencode r 0 (Buf [] SWITCH_XML_BUFSIZE) true.

(** A copy of a tag with all that is below it. *)
Definition switch_xml_dup (f k : nat) (d : doc) (xml : Z) : res (option doc) :=
  x ← switch_xml_toxml f d xml false;
  switch_xml_parse_str_dynamic k x.

(** ** Texts and their encoding *)

(** A text as its characters; [utf8] are its bytes. *)
Definition utf8 (c : Z) : bytes := match character c with Ok b => b | _ => [] end.
Definition utf8_text (cs : list Z) : bytes := concat (utf8 <$> cs).

(** What the printer makes of a character. *)
Definition enc_char (a : bool) (c : Z) : bytes :=
  if c =? 38 then str "&amp;" else if c =? 60 then str "&lt;" else if c =? 62 then str "&gt;"
  else if c =? 34 then (if a then str "&quot;" else [34]) else if c =? 10 then (if a then str "&#xA;" else [10])
  else if c =? 9 then (if a then str "&#x9;" else [9]) else if c =? 13 then str "&#xD;"
  else if c <? 0x80 then [c] else char_ref c.

Definition enc (a : bool) (cs : list Z) : bytes := concat (enc_char a <$> cs).

(** No character behind which the printer copies everything as it is. *)
Fixpoint no_declaration (cs : list Z) : bool :=
  match cs with
  | c :: ((c' :: _) as cs) => negb ((c =? 60) && (c' =? 33)) && no_declaration cs
  | _ => true
  end.

(** A property of all numbers below [n], tested one by one. *)
Lemma below (P : Z -> bool) n c : forallb P (Z.of_nat <$> seq 0 n) = true -> 0 <= c < Z.of_nat n -> P c = true.
Proof.
  intros Hall Hc. rewrite forallb_forall in Hall. apply Hall. apply list_elem_of_In, list_elem_of_fmap. exists (Z.to_nat c).
  split; [lia|]. apply list_elem_of_In, in_seq. lia.
Qed.

Lemma lor_low u y : 0 <= y < 64 -> Z.lor (Z.shiftl u 6) y = u * 64 + y.
Proof.
  intros Hy. assert (Z.land (Z.shiftl u 6) y = 0) as Hl; [|rewrite <-Z.lxor_lor, <-Z.add_nocarry_lxor, Z.shiftl_mul_pow2 by (done || lia); lia].
  apply Z.bits_inj'. intros i Hi. rewrite Z.land_spec, Z.bits_0, Z.shiftl_spec by done. destruct (Z.ltb_spec i 6).
  - by rewrite Z.testbit_neg_r by lia.
  - assert (Z.log2 y < 6) by (destruct (Z.eq_dec y 0) as [->|]; [simpl; lia|apply Z.log2_lt_pow2; lia]). rewrite (Z.bits_above_log2 y i) by lia.
    apply andb_false_r.
Qed.

(** The further bytes of a character. *)
Lemma payload_byte c i : 0 <= c -> Z.lor 0x80 (Z.land (Z.shiftr c (6 * Z.of_nat i)) 0x3F) = 128 + (c / 2 ^ (6 * Z.of_nat i)) mod 64.
Proof.
  intros Hc. rewrite Z.shiftr_div_pow2 by lia. change 0x3F with (Z.ones 6). rewrite Z.land_ones by lia. change (2 ^ 6) with 64.
  set (y := (c / 2 ^ (6 * Z.of_nat i)) mod 64). assert (0 <= y < 64) as Hy by (apply Z.mod_pos_bound; lia).
  apply Z.eqb_eq. apply (below (fun y => Z.lor 0x80 y =? 128 + y) 64); [vm_compute; reflexivity|done].
Qed.

(** The first byte, of which [b] bits are free for the character. *)
Lemma head_byte b x : (b = 1 /\ 0 <= x < 32) \/ (b = 2 /\ 0 <= x < 16) \/ (b = 3 /\ 0 <= x < 8) ->
  u8 (Z.lor (Z.shiftl 0xFF (7 - b)) x) = (if b =? 1 then 192 else if b =? 2 then 224 else 240) + x.
Proof.
  intros [[-> Hx]|[[-> Hx]|[-> Hx]]]; apply Z.eqb_eq;
    [apply (below (fun x => u8 (Z.lor (Z.shiftl 0xFF (7 - 1)) x) =? 192 + x) 32)
    |apply (below (fun x => u8 (Z.lor (Z.shiftl 0xFF (7 - 2)) x) =? 224 + x) 16)
    |apply (below (fun x => u8 (Z.lor (Z.shiftl 0xFF (7 - 3)) x) =? 240 + x) 8)]; try done; vm_compute; reflexivity.
Qed.

(** The encodings of two, three and four bytes. *)
Lemma utf8_bytes c : 0x80 <= c < 0x200000 ->
  utf8 c = if c <? 0x800 then [192 + c / 64; 128 + c mod 64]
           else if c <? 0x10000 then [224 + c / 4096; 128 + c / 64 mod 64; 128 + c mod 64]
           else [240 + c / 262144; 128 + c / 4096 mod 64; 128 + c / 64 mod 64; 128 + c mod 64].
Proof.
  intros Hc. unfold utf8, character. rewrite (proj2 (Z.ltb_ge c 0x80)) by lia. unfold utf8_long.
  assert (forall lo hi, 2 ^ lo <= c < 2 ^ hi -> 0 <= lo -> lo <= Z.log2 c < hi) as Hlog.
  { intros lo hi Hr Hlo. split; [apply Z.log2_le_pow2; lia|apply Z.log2_lt_pow2; lia]. }
  destruct (Z.ltb_spec c 0x800); [|destruct (Z.ltb_spec c 0x10000)].
  - assert ((Z.log2 c + 1 - 2) / 5 = 1) as -> by (pose proof (Hlog 7 11); zdiv).
    change (7 <? 1) with false. change (Z.to_nat 1) with 1%nat. cbn [payload]. rewrite !payload_byte, Z.shiftr_div_pow2 by lia.
    rewrite head_byte by (left; split; [done|]; change (2 ^ (6 * 1)) with 64; zdiv). cbn [Z.of_nat Pos.of_succ_nat Pos.succ]. f_equal. by rewrite Z.div_1_r.
  - assert ((Z.log2 c + 1 - 2) / 5 = 2) as -> by (pose proof (Hlog 11 16); zdiv).
    change (7 <? 2) with false. change (Z.to_nat 2) with 2%nat. cbn [payload]. rewrite !payload_byte, Z.shiftr_div_pow2 by lia.
    rewrite head_byte by (right; left; split; [done|]; change (2 ^ (6 * 2)) with 4096; zdiv). cbn [Z.of_nat Pos.of_succ_nat Pos.succ]. f_equal. by rewrite Z.div_1_r.
  - assert ((Z.log2 c + 1 - 2) / 5 = 3) as -> by (pose proof (Hlog 16 21); zdiv).
    change (7 <? 3) with false. change (Z.to_nat 3) with 3%nat. cbn [payload]. rewrite !payload_byte, Z.shiftr_div_pow2 by lia.
    rewrite head_byte by (right; right; split; [done|]; change (2 ^ (6 * 3)) with 262144; zdiv). cbn [Z.of_nat Pos.of_succ_nat Pos.succ]. f_equal. by rewrite Z.div_1_r.
Qed.

(** Hexadecimal numbers are read back. *)
Definition hex_char (d : Z) : Z := if d <? 10 then 48 + d else 55 + d.

Lemma hex_step f c : hex_digits (S f) c = (if c / 16 =? 0 then [] else hex_digits f (c / 16)) ++ [hex_char (c mod 16)].
Proof. done. Qed.

Lemma digit_hex d : 0 <= d < 16 -> digit_of 16 (hex_char d) = Some d.
Proof.
  intros Hd. pose proof (below (fun d => match digit_of 16 (hex_char d) with Some v => v =? d | None => false end) 16 d ltac:(vm_compute; reflexivity) Hd) as H.
  simpl in H. destruct (digit_of 16 (hex_char d)) as [v|]; [|done]. f_equal. by apply Z.eqb_eq.
Qed.

Lemma number_hex f : forall c acc s, 0 <= c < 16 ^ Z.of_nat f -> f <> O ->
  number 16 (hex_digits f c ++ s) acc = number 16 s (acc * 16 ^ zlen (hex_digits f c) + c).
Proof.
  induction f as [|f IH]; intros c acc s Hc Hf; [done|]. rewrite hex_step. pose proof (Z.mod_pos_bound c 16 ltac:(lia)) as Hm.
  pose proof (Z.div_mod c 16 ltac:(lia)) as Hdm. destruct (Z.eqb_spec (c / 16) 0) as [H0|H0].
  - cbn [app number]. rewrite digit_hex by done. change (zlen [hex_char (c mod 16)]) with 1. f_equal. lia.
  - rewrite <-app_assoc. assert (0 <= c / 16 < 16 ^ Z.of_nat f) as Hr.
    { rewrite Nat2Z.inj_succ, Z.pow_succ_r in Hc by lia. split; [apply Z.div_pos; lia|apply Z.div_lt_upper_bound; lia]. }
    destruct f as [|f]; [simpl in Hr; lia|]. rewrite IH by done. cbn [app number]. rewrite digit_hex by done. f_equal. rewrite zlen_app.
    change (zlen [hex_char (c mod 16)]) with 1. rewrite Z.pow_add_r by (try apply zlen_nonneg; lia). lia.
Qed.

Lemma hex_length f : forall c n, 0 <= c < 16 ^ n -> 1 <= n -> f <> O -> 1 <= zlen (hex_digits f c) <= n.
Proof.
  induction f as [|f IH]; intros c n Hc Hn Hf; [done|]. rewrite hex_step, zlen_app. change (zlen [hex_char (c mod 16)]) with 1.
  destruct (Z.eqb_spec (c / 16) 0) as [H0|H0]; [rewrite zlen_nil; lia|]. assert (0 < c / 16) as Hp by (assert (0 <= c / 16) by (apply Z.div_pos; lia); lia).
  destruct (Z.eq_dec n 1) as [->|Hn1]; [rewrite Z.div_small in Hp by lia; lia|]. destruct f as [|f]; [simpl; rewrite zlen_nil; lia|].
  assert (1 <= zlen (hex_digits (S f) (c / 16)) <= n - 1); [|lia]. apply IH; [|lia|done]. split; [lia|]. apply Z.div_lt_upper_bound; [lia|].
  replace n with (Z.succ (n - 1)) in Hc by lia. rewrite Z.pow_succ_r in Hc by lia. lia.
Qed.

Lemma hex_head f : forall c, 0 < c < 16 ^ Z.of_nat f -> exists x l, hex_digits f c = x :: l /\ 49 <= x <= 70 /\ is_Some (digit_of 16 x).
Proof.
  induction f as [|f IH]; intros c Hc; [simpl in Hc; lia|]. rewrite hex_step. destruct (Z.eqb_spec (c / 16) 0) as [H0|H0].
  - assert (0 < c < 16) as Hs. { split; [lia|]. destruct (Z.lt_ge_cases c 16); [done|]. assert (1 <= c / 16) by (apply Z.div_le_lower_bound; lia). lia. }
    rewrite Z.mod_small by lia. exists (hex_char c), []. split; [done|]. split; [|rewrite digit_hex by lia; done].
    unfold hex_char. destruct (Z.ltb_spec c 10); lia.
  - destruct (IH (c / 16)) as (x & l & -> & Hx); [|by exists x, (l ++ [hex_char (c mod 16)])].
    rewrite Nat2Z.inj_succ, Z.pow_succ_r in Hc by lia. assert (0 <= c / 16) by (apply Z.div_pos; lia). split; [lia|].
    apply Z.div_lt_upper_bound; lia.
Qed.

Lemma strtol_hex c r : 0 < c < 2 ^ 32 -> strtol_at 16 (hex c ++ 59 :: r) = (c, 59 :: r).
Proof.
  intros Hc. assert (number 16 (hex c ++ 59 :: r) 0 = (c, 59 :: r)) as Hnum by (unfold hex; by rewrite (number_hex 8) by (simpl; lia)).
  destruct (hex_head 8 c) as (x & l & Hh & Hx & Hd); [simpl; lia|]. unfold hex in *. rewrite Hh in *. rewrite <-app_comm_cons in *. unfold strtol_at. cbn [skip_space].
  assert (isspace x = false) as -> by (unfold isspace; lia).
  assert ((match x :: l ++ 59 :: r with 45 :: r0 => (true, r0) | 43 :: r0 => (false, r0) | _ => (false, x :: l ++ 59 :: r) end) = (false, x :: l ++ 59 :: r)) as ->.
  { by repeat (destruct x as [|x|x]; try lia; try done). }
  assert ((match x :: l ++ 59 :: r with
           | 48 :: y :: z :: t => if (16 =? 16) && ((y =? 120) || (y =? 88)) && bool_decide (is_Some (digit_of 16 z)) then z :: t else x :: l ++ 59 :: r
           | _ => x :: l ++ 59 :: r end) = x :: l ++ 59 :: r) as ->.
  { by repeat (destruct x as [|x|x]; try lia; try done). }
  rewrite bool_decide_eq_true_2 by done. rewrite Hnum. f_equal. lia.
Qed.

Lemma reference_hex c r : 0 < c < 2 ^ 32 -> reference (char_ref c ++ r) = Some (c, r).
Proof.
  intros Hc. unfold reference, char_ref. rewrite <-!app_assoc. change (drop 2 (str "&#x" ++ hex c ++ [59] ++ r)) with (120 :: hex c ++ 59 :: r). cbn [ref_number].
  rewrite strtol_hex by done. destruct (Z.eqb_spec c 0); [lia|done].
Qed.

(** ** Decoding what was encoded *)

(** The kinds of text the printer makes: contents and attribute values. *)
Definition kind (a : bool) : Z := if a then 32 else 38.

Definition ok_char (a : bool) (c : Z) : Prop := 0 < c < 0x200000 /\ (a = true -> c <> 11 /\ c <> 12).

Lemma utf8_ascii c : 0 < c < 0x80 -> utf8 c = [c].
Proof.
  intros Hc. unfold utf8, character. rewrite (proj2 (Z.ltb_lt c 0x80)) by lia. rewrite u8_small by lia. by rewrite (proj2 (Z.eqb_neq c 0)) by lia.
Qed.

Lemma decode_plain k t c r : t = 38 \/ t = 32 -> c <> 38 -> isspace c = false ->
  decode_loop (S k) default_ent t (c :: r) = cons c <$> decode_loop k default_ent t r.
Proof.
  intros Ht Hc Hs. cbn [decode_loop]. rewrite Hs, (proj2 (Z.eqb_neq c 38)) by done. by destruct Ht as [->| ->]; rewrite andb_false_r.
Qed.

Lemma decode_space k a c r : isspace c = true -> (a = true -> c = 32) ->
  decode_loop (S k) default_ent (kind a) (c :: r) = cons c <$> decode_loop k default_ent (kind a) r.
Proof.
  intros Hs Ha. assert (c <> 38 /\ c <> 37) as [H1 H2] by (unfold isspace in Hs; lia). cbn [decode_loop]. rewrite Hs.
  assert (starts (str "&#") (c :: r) = false) as ->.
  { unfold starts, streq. apply bool_decide_eq_false_2. intros [= -> _]. done. }
  rewrite (proj2 (Z.eqb_neq c 38)), (proj2 (Z.eqb_neq c 37)) by done. destruct a; [by rewrite Ha|done].
Qed.

Lemma decode_ref k a c r : 0 < c < 0x200000 ->
  decode_loop (S k) default_ent (kind a) (char_ref c ++ r) = app (utf8 c) <$> decode_loop k default_ent (kind a) r.
Proof.
  intros Hc. pose proof (reference_hex c r ltac:(lia)) as Hr. unfold char_ref in *. rewrite <-!app_assoc in *.
  change (str "&#x" ++ hex c ++ [59] ++ r) with (38 :: 35 :: 120 :: hex c ++ 59 :: r) in *. cbn [decode_loop].
  assert (starts (str "&#") (38 :: 35 :: 120 :: hex c ++ 59 :: r) = true) as -> by done.
  assert (exists b, character c = Ok b /\ utf8 c = b) as (b & Hb & ->).
  { unfold utf8. destruct (character c) as [b| |] eqn:Hch; [by exists b| |].
    - exfalso. unfold character in Hch. destruct (Z.ltb_spec c 0x80); [rewrite u8_small in Hch by lia; by rewrite (proj2 (Z.eqb_neq c 0)) in Hch by lia|].
      unfold utf8_long in Hch. case_match eqn:Hb; [|done]. apply Z.ltb_lt in Hb. assert (Z.log2 c < 21) by (apply Z.log2_lt_pow2; lia). zdiv.
    - exfalso. unfold character, utf8_long in Hch. repeat case_match; done. }
  destruct a; cbn [kind Z.eqb negb andb isspace orb]; cbv beta; rewrite Hr, Hb; done.
Qed.

Lemma decode_entity k a c r name ref : (name, ref, c) ∈ [(str "amp;", str "&#38;", 38); (str "lt;", str "&#60;", 60); (str "gt;", str "&#62;", 62);
    (str "quot;", [38; 35; 51; 52; 59], 34); (str "apos;", str "&#39;", 39)] ->
  decode_loop (S (S k)) default_ent (kind a) (38 :: name ++ r) = app (utf8 c) <$> decode_loop k default_ent (kind a) r.
Proof. intros Hin. repeat (apply elem_of_cons in Hin as [[= -> -> ->]|Hin]; [by destruct a|]). set_solver. Qed.

Lemma decode_char k a c r : ok_char a c -> exists k', (k <= k')%nat /\
  decode_loop (S (S k)) default_ent (kind a) (enc_char a c ++ r) = app (utf8 c) <$> decode_loop k' default_ent (kind a) r.
Proof.
  intros [Hc Ha]. assert (kind a = 38 \/ kind a = 32) as Hk by (destruct a; simpl; lia). unfold enc_char.
  destruct (Z.eqb_spec c 38) as [->|]; [exists k; split; [lia|]; apply (decode_entity _ _ _ _ (str "amp;") (str "&#38;")); set_solver|].
  destruct (Z.eqb_spec c 60) as [->|]; [exists k; split; [lia|]; apply (decode_entity _ _ _ _ (str "lt;") (str "&#60;")); set_solver|].
  destruct (Z.eqb_spec c 62) as [->|]; [exists k; split; [lia|]; apply (decode_entity _ _ _ _ (str "gt;") (str "&#62;")); set_solver|].
  destruct (Z.eqb_spec c 34) as [->|].
  { destruct a; [exists k; split; [lia|]; apply (decode_entity _ _ _ _ (str "quot;") [38; 35; 51; 52; 59]); set_solver|].
    exists (S k). split; [lia|]. rewrite utf8_ascii by lia. by apply decode_plain. }
  exists (S k). split; [lia|].
  destruct (Z.eqb_spec c 10) as [->|]; [destruct a; [by apply (decode_ref _ true 10)|rewrite utf8_ascii by lia; by apply decode_space]|].
  destruct (Z.eqb_spec c 9) as [->|]; [destruct a; [by apply (decode_ref _ true 9)|rewrite utf8_ascii by lia; by apply decode_space]|].
  destruct (Z.eqb_spec c 13) as [->|]; [by apply (decode_ref _ a 13)|].
  destruct (Z.ltb_spec c 0x80); [|by apply decode_ref]. rewrite utf8_ascii by lia. cbn [app].
  destruct (isspace c) eqn:Hs; [|by apply decode_plain]. apply decode_space; [done|]. intros Ht. specialize (Ha Ht). unfold isspace in Hs. lia.
Qed.

Lemma enc_cons a c cs : enc a (c :: cs) = enc_char a c ++ enc a cs.
Proof. done. Qed.

Lemma utf8_cons c cs : utf8_text (c :: cs) = utf8 c ++ utf8_text cs.
Proof. done. Qed.

Lemma decode_enc a cs : forall k, Forall (ok_char a) cs -> (2 * length cs < k)%nat -> decode_loop k default_ent (kind a) (enc a cs) = Ok (utf8_text cs).
Proof.
  induction cs as [|c cs IH]; intros k Hok Hk; [destruct k; [simpl in Hk; lia|done]|]. apply Forall_cons in Hok as [Hc Hok].
  destruct k as [|[|k]]; [simpl in Hk; lia..|]. rewrite enc_cons.
  destruct (decode_char k a c (enc a cs) Hc) as (k' & Hk' & ->). rewrite IH; [done|done|simpl in Hk; lia].
Qed.

(** What an encoded text does not contain. *)
Definition cleanb (a : bool) (x : Z) : bool := (0 <? x) && (x <? 256) && negb (x =? 60) && negb (x =? 13) && (negb a || negb (x =? 34)).

Lemma hex_clean a f : forall n, forallb (cleanb a) (hex_digits f n) = true.
Proof.
  induction f as [|f IH]; intros n; [done|]. rewrite hex_step, forallb_app. apply andb_true_intro. split; [case_match; [done|apply IH]|].
  simpl. rewrite andb_true_r. pose proof (below (fun d => cleanb a (hex_char d)) 16 (n mod 16) ltac:(destruct a; vm_compute; reflexivity)) as H. apply H.
  apply Z.mod_pos_bound. lia.
Qed.

Lemma enc_char_clean a c : ok_char a c -> forallb (cleanb a) (enc_char a c) = true /\ (1 <= length (enc_char a c))%nat.
Proof.
  intros [Hc _]. unfold enc_char.
  destruct (Z.eqb_spec c 38), (Z.eqb_spec c 60), (Z.eqb_spec c 62), (Z.eqb_spec c 34), (Z.eqb_spec c 10), (Z.eqb_spec c 9), (Z.eqb_spec c 13);
    try (destruct a; split; [reflexivity|simpl; lia|reflexivity|simpl; lia]).
  destruct (Z.ltb_spec c 0x80).
  - simpl. split; [|lia]. rewrite andb_true_r. unfold cleanb. rewrite (proj2 (Z.ltb_lt 0 c)), (proj2 (Z.ltb_lt c 256)) by lia.
    rewrite (proj2 (Z.eqb_neq c 60)), (proj2 (Z.eqb_neq c 13)), (proj2 (Z.eqb_neq c 34)) by done. by destruct a.
  - unfold char_ref. rewrite !forallb_app, !length_app. unfold hex. rewrite hex_clean. split; [by destruct a|simpl; lia].
Qed.

Lemma enc_clean a cs : Forall (ok_char a) cs -> forallb (cleanb a) (enc a cs) = true /\ (length cs <= length (enc a cs))%nat.
Proof.
  induction cs as [|c cs IH]; intros Hok; [done|]. apply Forall_cons in Hok as [Hc Hok]. destruct (IH Hok) as [IH1 IH2].
  destruct (enc_char_clean a c Hc) as [H1 H2]. rewrite enc_cons, forallb_app, length_app, H1, IH1. split; [done|simpl; lia].
Qed.

(** ** Printing texts *)

(** There is room for [r] more bytes. *)
Definition room (r : Z) (b : buf) : Prop := zlen (b_out b) + r <= b_max b.

Lemma reserve_spec n b : b_out (reserve n b) = b_out b /\ room n (reserve n b).
Proof.
  unfold reserve, room, SWITCH_XML_BUFSIZE. destruct (Z.leb_spec (zlen (b_out b) + n) (b_max b)); [done|]. simpl. split; [done|]. zdiv.
Qed.

Lemma put_ok s b : room (zlen s + 1) b -> put s b = Ok (Buf (b_out b ++ s) (b_max b)).
Proof. unfold room, put. intros H. by rewrite (proj2 (Z.leb_le _ _)) by lia. Qed.

Lemma put_char_ok c b : room 1 b -> put_char c b = Ok (Buf (b_out b ++ [c]) (b_max b)).
Proof. unfold room, put_char. intros H. by rewrite (proj2 (Z.leb_le _ _)) by lia. Qed.

(** A step of the printer puts [s] out and leaves room for [r] bytes. *)
Definition printed (b b' : buf) (s : bytes) (r : Z) : Prop := b_out b' = b_out b ++ s /\ room r b'.

Lemma put_reserve s b n : zlen s + 1 <= n -> exists b', put s (reserve n b) = Ok b' /\ printed b b' s (n - zlen s).
Proof.
  intros Hn. destruct (reserve_spec n b) as [Ho Hr]. rewrite put_ok by (unfold room in *; lia). eexists. split; [done|].
  unfold printed, room in *. simpl. rewrite Ho, zlen_app. rewrite Ho in Hr. split; [done|lia].
Qed.

Definition idle (u : Z) : amp := Amp false 0 u.

Lemma amp_ascii a c next u b : 0 < c < 0x80 -> (c = 60 -> head next <> Some 33) ->
  exists b', amp_char a c next (idle u) b = Ok (idle u, b') /\ printed b b' (enc_char a c) (10 - zlen (enc_char a c)).
Proof.
  intros Hc Hn. unfold amp_char, enc_char. cbn [a_immune idle].
  destruct (Z.eqb_spec c 38) as [->|H38]; [destruct (put_reserve (str "&amp;") b 10 ltac:(done)) as (b' & -> & Hp); by exists b'|].
  destruct (Z.eqb_spec c 60) as [->|H60].
  { assert ((match next with n :: _ => n =? 33 | [] => false end) = false) as ->.
    { destruct next as [|n next]; [done|]. apply Z.eqb_neq. intros ->. by apply Hn. }
    destruct (put_reserve (str "&lt;") b 10 ltac:(done)) as (b' & -> & Hp). by exists b'. }
  destruct (Z.eqb_spec c 62) as [->|H62]; [destruct (put_reserve (str "&gt;") b 10 ltac:(done)) as (b' & -> & Hp); by exists b'|].
  destruct (Z.eqb_spec c 34) as [->|H34].
  { destruct (put_reserve (if a then str "&quot;" else [34]) b 10 ltac:(by destruct a)) as (b' & -> & Hp). by exists b'. }
  destruct (Z.eqb_spec c 10) as [->|H10].
  { destruct (put_reserve (if a then str "&#xA;" else [10]) b 10 ltac:(by destruct a)) as (b' & -> & Hp). by exists b'. }
  destruct (Z.eqb_spec c 9) as [->|H9].
  { destruct (put_reserve (if a then str "&#x9;" else [9]) b 10 ltac:(by destruct a)) as (b' & -> & Hp). by exists b'. }
  destruct (Z.eqb_spec c 13) as [->|H13]; [destruct (put_reserve (str "&#xD;") b 10 ltac:(done)) as (b' & -> & Hp); by exists b'|].
  rewrite (proj2 (Z.ltb_lt c 0x80)) by lia. unfold amp_plain. cbn [a_expecting idle]. rewrite (proj2 (Z.leb_gt 128 c)) by lia. cbn [Z.eqb andb Z.ltb Z.compare].
  destruct (reserve_spec 10 b) as [Ho Hr]. rewrite put_char_ok by (unfold room in *; lia). eexists. split; [done|].
  unfold printed, room in *. simpl. rewrite Ho in *. rewrite zlen_app. change (zlen [c]) with 1. split; [done|lia].
Qed.

(** A byte of a character of several bytes is none of the special ones. *)
Lemma amp_high a c next st b : 128 <= c -> a_immune st = false -> amp_char a c next st b = amp_plain c st (reserve 10 b).
Proof.
  intros Hc Hi. unfold amp_char. rewrite Hi. by do 7 (rewrite (proj2 (Z.eqb_neq c _)) by lia).
Qed.

(** The first byte: how many follow, and the bits it has. *)
Lemma amp_first a c next u b n x : (n = 2 /\ c = 192 + x /\ 0 <= x < 32) \/ (n = 3 /\ c = 224 + x /\ 0 <= x < 16) \/ (n = 4 /\ c = 240 + x /\ 0 <= x < 8) ->
  amp_char a c next (idle u) b = Ok (Amp false (n - 1) x, reserve 10 b).
Proof.
  intros Hn. rewrite amp_high by (done || lia). unfold amp_plain. cbn [a_expecting idle a_immune a_unicode]. rewrite (proj2 (Z.leb_le 128 c)) by lia. cbn [Z.eqb andb].
  destruct Hn as [(-> & -> & Hx)|[(-> & -> & Hx)|(-> & -> & Hx)]].
  - pose proof (below (fun x => (utf8_num (192 + x) =? 2) && (Z.land (192 + x) 0x1f =? x)) 32 x ltac:(vm_compute; reflexivity) ltac:(lia)) as [H1%Z.eqb_eq H2%Z.eqb_eq]%andb_prop.
    by rewrite H1, H2.
  - pose proof (below (fun x => (utf8_num (224 + x) =? 3) && (Z.land (224 + x) 0x0f =? x)) 16 x ltac:(vm_compute; reflexivity) ltac:(lia)) as [H1%Z.eqb_eq H2%Z.eqb_eq]%andb_prop.
    by rewrite H1, H2.
  - pose proof (below (fun x => (utf8_num (240 + x) =? 4) && (Z.land (240 + x) 0x07 =? x)) 8 x ltac:(vm_compute; reflexivity) ltac:(lia)) as [H1%Z.eqb_eq H2%Z.eqb_eq]%andb_prop.
    by rewrite H1, H2.
Qed.

(** A further byte. *)
Lemma amp_further a next u b n y : 0 <= y < 64 -> 0 < n ->
  amp_char a (128 + y) next (Amp false n u) b =
  (b ← (if n - 1 =? 0 then put (char_ref (u * 64 + y)) (reserve 10 b) else Ok (reserve 10 b)); Ok (Amp false (n - 1) (u * 64 + y), b)).
Proof.
  intros Hy Hn. rewrite amp_high by (done || lia). unfold amp_plain. cbn [a_expecting a_immune a_unicode].
  rewrite (proj2 (Z.eqb_neq n 0)), (proj2 (Z.ltb_lt 0 n)) by lia. cbn [andb].
  pose proof (below (fun y => (Z.land (Z.shiftr (128 + y) 6) 3 =? 2) && (Z.land (128 + y) 0x3f =? y)) 64 y ltac:(vm_compute; reflexivity) ltac:(lia)) as [H1 H2%Z.eqb_eq]%andb_prop.
  by rewrite H1, H2, lor_low.
Qed.

Lemma reserve_twice n b : reserve n (reserve n b) = reserve n b.
Proof.
  destruct (reserve_spec n b) as [Ho Hr]. unfold reserve at 1. by rewrite (proj2 (Z.leb_le _ _)).
Qed.

Lemma char_ref_len c : 0 < c < 0x100000 -> zlen (char_ref c) <= 9.
Proof.
  intros Hc. unfold char_ref, hex. rewrite !zlen_app. change (zlen (str "&#x")) with 3. change (zlen [59]) with 1.
  pose proof (hex_length 8 c 5 ltac:(lia) ltac:(lia) ltac:(lia)). lia.
Qed.

(** A character beyond ASCII. *)
Lemma amp_multi a c rest u b : 0x80 <= c < 0x100000 -> exists b', printed b b' (char_ref c) (10 - zlen (char_ref c)) /\
  forall e, e < 0 -> exists e', e' < 0 /\ amp_loop a e (utf8 c ++ rest) (idle u) b = amp_loop a e' rest (idle c) b'.
Proof.
  intros Hc. pose proof (char_ref_len c ltac:(lia)) as Hl.
  destruct (put_reserve (char_ref c) b 10 ltac:(lia)) as (b' & Hput & Hp). exists b'. split; [done|]. intros e He. rewrite utf8_bytes by lia.
  destruct (Z.ltb_spec c 0x800); [|destruct (Z.ltb_spec c 0x10000)]; cbn [app amp_loop].
  - exists (e - 2). split; [lia|]. rewrite (proj2 (Z.eqb_neq (e) 0)), (proj2 (Z.eqb_neq (e - 1) 0)) by lia. rewrite (amp_first a _ _ u b 2 (c / 64)) by (left; split_and!; try done; zdiv). cbn [mbind res_bind].
    rewrite amp_further by (try apply Z.mod_pos_bound; lia). rewrite reserve_twice. replace (c / 64 * 64 + c mod 64) with c by zdiv. cbn [Z.sub Z.add Z.opp Z.pos_sub Z.eqb Pos.pred_double].
    change (2 - 1 - 1 =? 0) with true. cbv iota. rewrite Hput. cbn [mbind res_bind]. by rewrite <-!Z.sub_add_distr.
  - exists (e - 3). split; [lia|]. rewrite (proj2 (Z.eqb_neq (e) 0)), (proj2 (Z.eqb_neq (e - 1) 0)), (proj2 (Z.eqb_neq (e - 1 - 1) 0)) by lia. rewrite (amp_first a _ _ u b 3 (c / 4096)) by (right; left; split_and!; try done; zdiv). cbn [mbind res_bind].
    rewrite amp_further by (try apply Z.mod_pos_bound; lia). rewrite reserve_twice. change (3 - 1 - 1 =? 0) with false. cbn [mbind res_bind].
    rewrite amp_further by (try apply Z.mod_pos_bound; lia). rewrite reserve_twice. change (3 - 1 - 1 - 1 =? 0) with true. cbv iota.
    replace ((c / 4096 * 64 + c / 64 mod 64) * 64 + c mod 64) with c by zdiv. rewrite Hput. cbn [mbind res_bind]. by rewrite <-!Z.sub_add_distr.
  - exists (e - 4). split; [lia|]. rewrite (proj2 (Z.eqb_neq (e) 0)), (proj2 (Z.eqb_neq (e - 1) 0)), (proj2 (Z.eqb_neq (e - 1 - 1) 0)), (proj2 (Z.eqb_neq (e - 1 - 1 - 1) 0)) by lia. rewrite (amp_first a _ _ u b 4 (c / 262144)) by (right; right; split_and!; try done; zdiv). cbn [mbind res_bind].
    rewrite amp_further by (try apply Z.mod_pos_bound; lia). rewrite reserve_twice. change (4 - 1 - 1 =? 0) with false. cbn [mbind res_bind].
    rewrite amp_further by (try apply Z.mod_pos_bound; lia). rewrite reserve_twice. change (4 - 1 - 1 - 1 =? 0) with false. cbn [mbind res_bind].
    rewrite amp_further by (try apply Z.mod_pos_bound; lia). rewrite reserve_twice. change (4 - 1 - 1 - 1 - 1 =? 0) with true. cbv iota.
    replace (((c / 262144 * 64 + c / 4096 mod 64) * 64 + c / 64 mod 64) * 64 + c mod 64) with c by zdiv. rewrite Hput. cbn [mbind res_bind]. by rewrite <-!Z.sub_add_distr.
Qed.

Lemma utf8_head c : 0 < c < 0x200000 -> exists x l, utf8 c = x :: l /\ 0 < x < 256 /\ (x = 33 -> c = 33).
Proof.
  intros Hc. destruct (Z.lt_ge_cases c 0x80); [rewrite utf8_ascii by lia; exists c, []; split_and!; done || lia|].
  rewrite utf8_bytes by lia. destruct (Z.ltb_spec c 0x800); [|destruct (Z.ltb_spec c 0x10000)]; eexists _, _; (split; [done|]); zdiv.
Qed.

(** A whole text; at its end there is room again. *)
Lemma amp_text a cs : forall e u b, Forall (fun c => 0 < c < 0x100000) cs -> no_declaration cs = true -> e < 0 ->
  exists b', amp_loop a e (utf8_text cs) (idle u) b = Ok b' /\ printed b b' (enc a cs) 10.
Proof.
  induction cs as [|c cs IH]; intros e u b Hok Hd He.
  { destruct (reserve_spec 10 b) as [Ho Hr]. exists (reserve 10 b). cbn [utf8_text fmap list_fmap concat amp_loop]. rewrite (proj2 (Z.eqb_neq e 0)) by lia.
    split; [done|]. split; [by rewrite Ho, app_nil_r|done]. }
  apply Forall_cons in Hok as [Hc Hok].
  assert (no_declaration cs = true) as Hd' by (destruct cs as [|c' cs]; [done|]; by apply andb_prop in Hd as [_ Hd]).
  rewrite utf8_cons, enc_cons.
  assert (exists u' b1 e', e' < 0 /\ b_out b1 = b_out b ++ enc_char a c /\ amp_loop a e (utf8 c ++ utf8_text cs) (idle u) b = amp_loop a e' (utf8_text cs) (idle u') b1)
    as (u' & b1 & e' & He' & Ho1 & ->).
  { destruct (Z.lt_ge_cases c 0x80) as [Hlt|Hge].
    - destruct (amp_ascii a c (utf8_text cs) u b) as (b1 & Hb1 & Hp & _); [lia| |].
      { intros -> Hh. destruct cs as [|c' cs]; [done|]. apply andb_prop in Hd as [Hd _]. rewrite utf8_cons in Hh. apply Forall_cons in Hok as [Hc' _].
        destruct (utf8_head c') as (x & l & Hx & _ & H33); [lia|]. rewrite Hx in Hh. injection Hh as ->. rewrite (H33 eq_refl) in Hd. done. }
      exists u, b1, (e - 1). split; [lia|]. split; [done|]. rewrite utf8_ascii by lia. cbn [app amp_loop]. rewrite (proj2 (Z.eqb_neq e 0)) by lia. by rewrite Hb1.
    - destruct (amp_multi a c (utf8_text cs) u b) as (b1 & [Hp _] & Hs); [lia|]. destruct (Hs e He) as (e' & He' & ->). exists c, b1, e'. split_and!; [done| |done].
      assert (enc_char a c = char_ref c) as ->; [|done]. unfold enc_char. do 7 rewrite (proj2 (Z.eqb_neq c _)) by lia. by rewrite (proj2 (Z.ltb_ge c 0x80)) by lia. }
  destruct (IH e' u' b1 Hok Hd' He') as (b' & -> & Ho & Hr). exists b'. split; [done|]. split; [by rewrite Ho, Ho1, app_assoc|done].
Qed.

Lemma ampencode_text a cs b : Forall (fun c => 0 < c < 0x100000) cs -> no_declaration cs = true ->
  exists b', switch_xml_ampencode (utf8_text cs) 0 b a = Ok b' /\ b_out b' = b_out b ++ enc a cs /\ ((cs = [] /\ b' = b) \/ room 10 b').
Proof.
  intros Hok Hd. destruct cs as [|c cs]; [exists b; rewrite app_nil_r; auto|]. unfold switch_xml_ampencode. change (if 0 =? 0 then -1 else 0) with (-1).
  destruct (amp_text a (c :: cs) (-1) 0 b Hok Hd ltac:(lia)) as (b' & Hb' & Ho & Hr). exists b'. split; [|auto].
  destruct (utf8_text (c :: cs)) eqn:Hu; [|done]. exfalso. apply Forall_cons in Hok as [Hc _]. destruct (utf8_head c) as (x & l & Hx & _); [lia|]. rewrite utf8_cons, Hx in Hu. done.
Qed.

(** Blanks are copied. *)
Definition blank (c : Z) : bool := (c =? 9) || (c =? 10) || (c =? 32).
Abbreviation blanks s := (forallb blank s = true).

Lemma amp_blanks s : forall e u b, blanks s -> exists b' w, amp_loop false e s (idle u) b = Ok b' /\ b_out b' = b_out b ++ w /\ blanks w.
Proof.
  induction s as [|c s IH]; intros e u b Hs.
  { exists (if e =? 0 then b else reserve 10 b), []. cbn [amp_loop]. rewrite app_nil_r. destruct (reserve_spec 10 b). by destruct (e =? 0). }
  simpl in Hs. apply andb_prop in Hs as [Hc Hs]. cbn [amp_loop]. destruct (e =? 0); [exists b, []; by rewrite app_nil_r|].
  assert (0 < c < 0x80 /\ c <> 60) as [Hr H60] by (unfold blank in Hc; lia).
  destruct (amp_ascii false c s u b) as (b1 & -> & [Ho1 _]); [lia|done|]. cbn [mbind res_bind]. destruct (IH (e - 1) u b1 Hs) as (b' & w & -> & Ho & Hw).
  exists b', (c :: w). split; [done|]. rewrite Ho, Ho1, <-app_assoc. split; [|by cbn [forallb]; rewrite Hc, Hw].
  unfold blank in Hc. assert (enc_char false c = [c]) as ->; [|done].
  assert (c = 9 \/ c = 10 \/ c = 32) as [-> | [-> | ->]] by lia; done.
Qed.

Lemma ampencode_blanks s len b : blanks s -> exists b' w, switch_xml_ampencode s len b false = Ok b' /\ b_out b' = b_out b ++ w /\ blanks w.
Proof. intros Hs. destruct s as [|c s]; [exists b, []; by rewrite app_nil_r|]. by apply amp_blanks. Qed.

Lemma blanks_app a b : blanks (a ++ b) <-> blanks a /\ blanks b.
Proof. rewrite forallb_app. by rewrite andb_true_iff. Qed.

Lemma blanks_drop n s : blanks s -> blanks (zdrop n s).
Proof. intros Hs. unfold zdrop. rewrite <-(take_drop (Z.to_nat n) s) in Hs. by apply blanks_app in Hs as [_ ?]. Qed.

Lemma blanks_indent n : blanks (indent n).
Proof. unfold indent. induction (Z.to_nat (2 * n)) as [|m IH]; [done|]. done. Qed.

(** ** Trees *)

(** A tag with all that is below it; texts and attribute values are lists of
    characters. *)
Inductive tree := Tree (name : bytes) (attrs : list (bytes * list Z)) (txt : list Z) (body : list tree).

Fixpoint tree_size (t : tree) : nat := let 'Tree _ _ _ ks := t in S (list_sum (tree_size <$> ks)).

(** The tree [t] is in the heap with its root at [a]: [up] holds between the
    addresses of a tag and of those below it, and [text] between the tags below
    a tag, its text in the tree, and its text in the heap. *)
Section stored.
Context (up : Z -> Z -> Prop) (text : list tree -> list Z -> bytes -> Prop) (h : heap).

Fixpoint stored (a : Z) (t : tree) : Prop :=
  let 'Tree name attrs txt ks := t in
  exists n E, h !! a = Some n /\ n_name n = Some name
    /\ (fun '(m, v) => (m, text_of v)) <$> n_attr n = (fun '(m, cs) => (m, utf8_text cs)) <$> attrs
    /\ text ks txt (n_txt n) /\ kids h a E
    /\ (fix all (ks : list tree) (E : list entry) : Prop :=
          match ks, E with
          | [], [] => True
          | k :: ks, e :: E => up a (e_addr e) /\ stored (e_addr e) k /\ all ks E
          | _, _ => False
          end) ks E.

Fixpoint all_stored (a : Z) (ks : list tree) (E : list entry) : Prop :=
  match ks, E with
  | [], [] => True
  | k :: ks, e :: E => up a (e_addr e) /\ stored (e_addr e) k /\ all_stored a ks E
  | _, _ => False
  end.

Lemma stored_unfold a name attrs txt ks : stored a (Tree name attrs txt ks) <->
  exists n E, h !! a = Some n /\ n_name n = Some name
    /\ (fun '(m, v) => (m, text_of v)) <$> n_attr n = (fun '(m, cs) => (m, utf8_text cs)) <$> attrs
    /\ text ks txt (n_txt n) /\ kids h a E /\ all_stored a ks E.
Proof.
  cbn [stored]. assert (forall E, (fix all (ks : list tree) (E : list entry) : Prop :=
    match ks, E with [], [] => True | k :: ks, e :: E => up a (e_addr e) /\ stored (e_addr e) k /\ all ks E | _, _ => False end) ks E <-> all_stored a ks E) as Hall.
  { revert ks. induction ks as [|k ks IH]; intros [|e E]; try done. cbn [all_stored]. by rewrite IH. }
  setoid_rewrite Hall. done.
Qed.

End stored.

(** The document has the tree. *)
Definition tree_at (h : heap) (a : Z) (t : tree) : Prop := stored (fun _ _ => True) (fun _ txt s => s = utf8_text txt) h a t.

(** The document has a copy of the tree: only the blanks between tags may
    differ. *)
Definition copy_at (h : heap) (a : Z) (t : tree) : Prop :=
  stored Z.lt (fun ks txt s => if ks is [] then s = utf8_text txt else blanks s) h a t.

(** Trees that survive printing and parsing. *)
Definition good_name (s : bytes) : bool :=
  match s with [] => false | c :: _ => name_start c end
  && forallb (fun c => (0 <? c) && (c <? 256) && negb (is_ws c || (c =? 47) || (c =? 62))) s.

Definition good_attr_name (s : bytes) : bool :=
  negb (bool_decide (s = [])) && forallb (fun c => (0 <? c) && (c <? 256) && negb (isspace c || (c =? 61) || (c =? 47) || (c =? 62))) s.

Definition good_value (cs : list Z) : bool :=
  forallb (fun c => (0 <? c) && (c <? 0x100000) && negb ((c =? 11) || (c =? 12))) cs && no_declaration cs.

Definition good_text (cs : list Z) : bool :=
  forallb (fun c => (0 <? c) && (c <? 0x100000)) cs && no_declaration cs && match last cs with Some c => negb (c =? 10) | None => true end.

Fixpoint good (t : tree) : bool :=
  let 'Tree name attrs txt ks := t in
  good_name name && bool_decide (NoDup attrs.*1) && forallb (fun '(m, cs) => good_attr_name m && good_value cs) attrs
  && match ks with [] => good_text txt | _ => forallb blank txt end && forallb good ks.

(** ** What is printed *)

Definition attr_text (p : bytes * list Z) : bytes := 32 :: p.1 ++ [61; 34] ++ enc true p.2 ++ [34].
Definition open_text (name : bytes) (attrs : list (bytes * list Z)) : bytes := 60 :: name ++ concat (attr_text <$> attrs) ++ [62].
Definition close_text (name : bytes) : bytes := str "</" ++ name ++ [62].

(** A tag, and a list of tags with blanks around them. *)
Inductive layout : tree -> bytes -> Prop :=
  | LayLeaf name attrs txt : layout (Tree name attrs txt []) (open_text name attrs ++ enc false txt ++ close_text name)
  | LayInner name attrs txt k ks s : layouts (k :: ks) s -> layout (Tree name attrs txt (k :: ks)) (open_text name attrs ++ s ++ close_text name)
with layouts : list tree -> bytes -> Prop :=
  | LayNil w : blanks w -> layouts [] w
  | LayCons w k s ks r : blanks w -> layout k s -> layouts ks r -> layouts (k :: ks) (w ++ s ++ r).

Scheme layout_mut := Minimality for layout Sort Prop
with layouts_mut := Minimality for layouts Sort Prop.

Lemma printed_app b1 b2 b3 s t r r' : printed b1 b2 s r -> printed b2 b3 t r' -> printed b1 b3 (s ++ t) r'.
Proof. intros [H1 _] [H2 H3]. split; [by rewrite H2, H1, app_assoc|done]. Qed.

Lemma put_printed s b r : room (zlen s + 1) b -> room r b -> exists b', put s b = Ok b' /\ printed b b' s (r - zlen s).
Proof.
  intros H1 H2. rewrite put_ok by done. eexists. split; [done|]. unfold printed, room in *. simpl. rewrite zlen_app. split; [done|lia].
Qed.

Lemma value_chars cs : good_value cs = true -> Forall (ok_char true) cs /\ Forall (fun c => 0 < c < 0x100000) cs /\ no_declaration cs = true.
Proof.
  unfold good_value. intros [Hf Hd]%andb_prop. split_and!; [| |done]; apply Forall_forall; intros c Hc; rewrite forallb_forall in Hf; apply list_elem_of_In in Hc; specialize (Hf c Hc);
    unfold ok_char; lia.
Qed.

Lemma good_text_chars cs : good_text cs = true -> Forall (ok_char false) cs /\ Forall (fun c => 0 < c < 0x100000) cs /\ no_declaration cs = true.
Proof.
  unfold good_text. intros [[Hf Hd]%andb_prop _]%andb_prop. split_and!; [| |done]; apply Forall_forall; intros c Hc; rewrite forallb_forall in Hf; apply list_elem_of_In in Hc; specialize (Hf c Hc);
    [unfold ok_char; split; [lia|done]|lia].
Qed.

Lemma put_attr_ok count m cs b : good_value cs = true -> 0 <= count -> exists b', put_attr count 7 m (utf8_text cs) b = Ok b' /\ printed b b' (attr_text (m, cs)) 2.
Proof.
  intros Hv Hc. destruct (value_chars cs Hv) as (_ & Hch & Hd). unfold put_attr.
  destruct (put_reserve ([32] ++ m ++ [61; 34]) b (zlen m + 7 + 2 * count)) as (b1 & -> & Hp1); [rewrite !zlen_app; change (zlen [32]) with 1; change (zlen [61; 34]) with 2; lia|].
  cbn [mbind res_bind]. destruct (ampencode_text true cs b1 Hch Hd) as (b2 & -> & Ho2 & Hr2). cbn [mbind res_bind].
  assert (room 3 b2) as Hr.
  { destruct Hr2 as [[-> ->]|Hr2]; [|unfold room in *; lia]. destruct Hp1 as [_ Hr1]. unfold room in *. rewrite !zlen_app in Hr1. change (zlen [32]) with 1 in Hr1.
    change (zlen [61; 34]) with 2 in Hr1. lia. }
  destruct (put_printed [34] b2 3) as (b3 & -> & Hp3); [unfold room in *; change (zlen [34]) with 1; lia|done|]. exists b3. split; [done|].
  destruct Hp1 as [Ho1 _]. destruct Hp3 as [Ho3 Hr3]. split; [|done]. rewrite Ho3, Ho2, Ho1, <-!app_assoc. done.
Qed.

Lemma shows_nodup l i m v : NoDup l.*1 -> l !! i = Some (m, v) -> shows l i m v = true.
Proof.
  intros Hn Hi. unfold shows. destruct (list_find (fun '(n, _) => n = m) l) as [[j [m' w]]|] eqn:Hf.
  - apply list_find_Some in Hf as (Hj & -> & _). assert (i = j) as ->; [|by rewrite bool_decide_eq_true_2].
    apply (NoDup_lookup l.*1 i j m Hn); rewrite list_lookup_fmap; [by rewrite Hi|by rewrite Hj].
  - apply list_find_None in Hf. rewrite Forall_forall in Hf. exfalso. apply (Hf (m, v)); [by apply list_elem_of_lookup_2 in Hi|done].
Qed.

Lemma put_attrs_ok count all attrs l : forall i b, NoDup all.*1 -> (forall j, l !! j = all !! (i + j)%nat) -> 0 <= count -> room 2 b ->
  (fun '(m, v) => (m, text_of v)) <$> l = (fun '(m, cs) => (m, utf8_text cs)) <$> attrs ->
  forallb (fun '(m, cs) => good_attr_name m && good_value cs) attrs = true ->
  exists b', put_attrs count all i l b = Ok b' /\ printed b b' (concat (attr_text <$> attrs)) 2.
Proof.
  revert attrs. induction l as [|[m v] l IH]; intros attrs i b Hn Hl Hc Hr Ha Hg.
  - destruct attrs as [|? attrs]; [|done]. exists b. split; [done|]. split; [by rewrite app_nil_r|done].
  - destruct attrs as [|[m' cs] attrs]; [done|]. injection Ha as -> Hv Ha. cbn [forallb] in Hg. apply andb_prop in Hg as [Hg1 Hg].
    apply andb_prop in Hg1 as [_ Hg1]. cbn [put_attrs]. rewrite shows_nodup by (done || (specialize (Hl O); rewrite Nat.add_0_r in Hl; by rewrite <-Hl)).
    rewrite Hv. destruct (put_attr_ok count m' cs b Hg1 Hc) as (b1 & -> & Hp1). cbn [mbind res_bind].
    destruct (IH attrs (S i) b1 Hn) as (b2 & -> & Hp2); [intros j; specialize (Hl (S j)); rewrite Nat.add_succ_r in Hl; done|done|by destruct Hp1|done|done|].
    exists b2. split; [done|]. by apply (printed_app b b1 b2 _ _ 2 2).
Qed.

Lemma zlen_indent count : 0 <= count -> zlen (indent count) = 2 * count.
Proof. intros Hc. unfold indent, zlen. rewrite length_replicate. lia. Qed.

Lemma put_open_ok n name attrs count b : NoDup (n_attr n).*1 -> 0 <= count ->
  (fun '(m, v) => (m, text_of v)) <$> n_attr n = (fun '(m, cs) => (m, utf8_text cs)) <$> attrs ->
  forallb (fun '(m, cs) => good_attr_name m && good_value cs) attrs = true ->
  exists b' w, put_open [] n name count b = Ok b' /\ b_out b' = b_out b ++ w ++ open_text name attrs /\ blanks w /\ (ends_in 62 b = false -> count = 0 -> w = []).
Proof.
  intros Hn Hc Ha Hg. unfold put_open. set (r := zlen name + 5 + 2 * count + 1). destruct (reserve_spec r b) as [Ho Hr].
  set (b0 := reserve r b) in *. assert (ends_in 62 b0 = ends_in 62 b) as He by (unfold ends_in; by rewrite Ho).
  pose proof (zlen_nonneg name) as Hz. assert (exists b1 w1, (if ends_in 62 b0 then put [10] b0 else Ok b0) = Ok b1 /\ printed b0 b1 w1 (r - 1) /\ blanks w1
    /\ (ends_in 62 b = false -> w1 = [])) as (b1 & w1 & -> & Hp1 & Hw1 & He1).
  { rewrite He. destruct (ends_in 62 b).
    - destruct (put_printed [10] b0 r) as (b1 & -> & Hp1); [unfold room in *; change (zlen [10]) with 1; lia|done|]. by exists b1, [10].
    - exists b0, []. split; [done|]. split; [|done]. split; [by rewrite app_nil_r|unfold room in *; lia]. }
  cbn [mbind res_bind]. destruct (put_printed (indent count) b1 (r - 1)) as (b2 & -> & Hp2); [destruct Hp1 as [_ Hr1]; unfold room in *; rewrite zlen_indent by done; lia|apply Hp1|].
  cbn [mbind res_bind]. rewrite zlen_indent in Hp2 by done.
  destruct (put_printed (60 :: name) b2 (r - 1 - 2 * count)) as (b3 & -> & Hp3); [destruct Hp2 as [_ Hr2]; unfold room in *; rewrite zlen_cons; lia|apply Hp2|].
  cbn [mbind res_bind]. rewrite zlen_cons in Hp3.
  destruct (put_attrs_ok count (n_attr n) attrs (n_attr n) 0 b3) as (b4 & -> & Hp4); [done|done|done|destruct Hp3 as [_ Hr3]; unfold room in *; lia|done|done|].
  cbn [mbind res_bind default_entry list_find fmap option_fmap option_map default put_defaults].
  destruct (put_printed [62] b4 2) as (b5 & -> & Hp5); [by destruct Hp4|by destruct Hp4|]. exists b5, (w1 ++ indent count). split; [done|].
  destruct Hp1 as [Ho1 _], Hp2 as [Ho2 _], Hp3 as [Ho3 _], Hp4 as [Ho4 _], Hp5 as [Ho5 _]. split_and!.
  - rewrite Ho5, Ho4, Ho3, Ho2, Ho1, Ho. unfold open_text. rewrite <-!app_assoc. done.
  - apply blanks_app. split; [done|apply blanks_indent].
  - intros H1 ->. by rewrite (He1 H1).
Qed.

Lemma put_close_ok name count b : 0 <= count -> exists b' w, put_close name count b = Ok b' /\ b_out b' = b_out b ++ w ++ close_text name ++ [10] /\ blanks w
  /\ (ends_in 10 b = false -> w = []).
Proof.
  intros Hc. unfold put_close. set (r := zlen name + 5 + 2 * count). destruct (reserve_spec r b) as [Ho Hr]. set (b0 := reserve r b) in *.
  assert (ends_in 10 b0 = ends_in 10 b) as He by (unfold ends_in; by rewrite Ho). pose proof (zlen_nonneg name) as Hz.
  assert (exists b1 w1, (if ends_in 10 b0 then put (indent count) b0 else Ok b0) = Ok b1 /\ printed b0 b1 w1 (r - 2 * count) /\ blanks w1
    /\ (ends_in 10 b = false -> w1 = [])) as (b1 & w1 & -> & Hp1 & Hw1 & He1).
  { rewrite He. destruct (ends_in 10 b).
    - destruct (put_printed (indent count) b0 r) as (b1 & -> & Hp1); [unfold room in *; rewrite zlen_indent by done; lia|done|].
      exists b1, (indent count). rewrite zlen_indent in Hp1 by done. split_and!; [done|done|apply blanks_indent|done].
    - exists b0, []. split; [done|]. split; [|done]. split; [by rewrite app_nil_r|unfold room in *; lia]. }
  cbn [mbind res_bind]. destruct (put_printed (str "</" ++ name ++ [62; 10]) b1 (r - 2 * count)) as (b2 & -> & Hp2);
    [destruct Hp1 as [_ Hr1]; unfold room in *; rewrite !zlen_app; change (zlen (str "</")) with 2; change (zlen [62; 10]) with 2; lia|apply Hp1|].
  exists b2, w1. split; [done|]. destruct Hp1 as [Ho1 _], Hp2 as [Ho2 _]. split_and!; [|done|done].
  rewrite Ho2, Ho1, Ho. unfold close_text. by rewrite <-!app_assoc.
Qed.

Lemma layouts_front w ks s : blanks w -> layouts ks s -> layouts ks (w ++ s).
Proof.
  intros Hw [w' Hw'|w' k s' ks' r Hw' Hk Hr]; [constructor; by apply blanks_app|]. rewrite app_assoc. constructor; [by apply blanks_app|done|done].
Qed.

Lemma layouts_back w ks s : blanks w -> layouts ks s -> layouts ks (s ++ w).
Proof.
  intros Hw. revert s. induction ks as [|k ks IH]; intros s Hs; inversion Hs; subst; [constructor; by apply blanks_app|].
  rewrite <-!app_assoc. constructor; [done|done|by apply IH].
Qed.

Lemma enc_app a cs cs' : enc a (cs ++ cs') = enc a cs ++ enc a cs'.
Proof. induction cs as [|c cs IH]; [done|]. cbn [app]. by rewrite !enc_cons, IH, app_assoc. Qed.

Lemma ends_in_app c b b' s : b_out b' = b_out b ++ s -> s <> [] -> last s <> Some c -> ends_in c b' = false.
Proof.
  intros Ho Hs Hl. unfold ends_in. rewrite Ho, last_app. destruct (last s) as [x|] eqn:Hx; [|by apply last_None in Hx].
  apply Z.eqb_neq. congruence.
Qed.

(** The contents of a leaf do not end in a newline, so that the printer does
    not indent its end. *)
Lemma enc_last cs : good_text cs = true -> last (enc false cs) <> Some 10.
Proof.
  intros Hg. destruct (good_text_chars cs Hg) as (Hok & _). unfold good_text in Hg. apply andb_prop in Hg as [_ Hg].
  destruct cs as [|c cs _] using rev_ind; [done|]. rewrite last_snoc in Hg. rewrite enc_app, last_app. apply Forall_app in Hok as [_ Hc].
  rewrite Forall_singleton in Hc. assert (enc false [c] = enc_char false c) as -> by apply app_nil_r.
  assert (exists x, last (enc_char false c) = Some x /\ x <> 10) as (x & -> & Hx); [|congruence].
  destruct Hc as [Hc _]. destruct (Z.lt_ge_cases c 0x80) as [Hlt|Hge].
  - pose proof (below (fun c => (c =? 10) || (c =? 0) || match last (enc_char false c) with Some x => negb (x =? 10) | None => false end) 128 c ltac:(vm_compute; reflexivity)
      ltac:(lia)) as H. cbv beta in H. destruct (last (enc_char false c)) as [x|]; [|lia]. exists x. split; [done|lia].
  - exists 59. unfold enc_char. do 7 rewrite (proj2 (Z.eqb_neq c _)) by lia. rewrite (proj2 (Z.ltb_ge c 0x80)) by lia. unfold char_ref. by rewrite !last_app.
Qed.

(** The tags below [p] from some tag on are printed as a layout. *)
Definition forest_ok (h : heap) (f : nat) : Prop := forall p np ks E a start count b,
  h !! p = Some np -> blanks (n_txt np) -> Forall (fun e => link n_parent h (e_addr e) = Some (Some p)) E ->
  chain n_ordered h (Some a) (e_addr <$> E) -> all_stored (fun _ _ => True) (fun _ txt s => s = utf8_text txt) h p ks E ->
  forallb good ks = true -> (list_sum (tree_size <$> ks) <= f)%nat -> 0 < count ->
  exists b' s, switch_xml_toxml_r f [] h a start count false b = Ok (b', count - 1) /\ b_out b' = b_out b ++ s /\ layouts ks s.

Lemma stored_attr_names {A B} (l : list (bytes * A)) (l' : list (bytes * B)) (f : A -> bytes) (g : B -> bytes) :
  (fun '(m, v) => (m, f v)) <$> l = (fun '(m, v) => (m, g v)) <$> l' -> l.*1 = l'.*1.
Proof.
  revert l'. induction l as [|[m v] l IH]; intros [|[m' v'] l'] He; try done. injection He as -> _ He. rewrite !fmap_cons. f_equal. by apply IH.
Qed.

(** A tag from its beginning to its end. *)
Lemma tag_printed h f a n name attrs txt ks E count b : forest_ok h f -> h !! a = Some n ->
  (fun '(m, v) => (m, text_of v)) <$> n_attr n = (fun '(m, cs) => (m, utf8_text cs)) <$> attrs -> n_txt n = utf8_text txt ->
  kids h a E -> all_stored (fun _ _ => True) (fun _ txt s => s = utf8_text txt) h a ks E -> good (Tree name attrs txt ks) = true ->
  (list_sum (tree_size <$> ks) <= f)%nat -> 0 <= count ->
  exists b1 b2 b3 w s, put_open [] n name count b = Ok b1 /\
    (match n_child n with
     | Some c => switch_xml_toxml_r f [] h c 0 (count + 1) false b1
     | None => b ← switch_xml_ampencode (n_txt n) 0 b1 false; Ok (b, count)
     end) = Ok (b2, count) /\ put_close name count b2 = Ok b3 /\ b_out b3 = b_out b ++ w ++ s ++ [10] /\ blanks w /\
    (ends_in 62 b = false -> count = 0 -> w = []) /\ layout (Tree name attrs txt ks) s.
Proof.
  intros IH Ha Hat Htxt HK Hst Hg Hf Hc. cbn [good] in Hg. apply andb_prop in Hg as [[[[Hgn Hnd]%andb_prop Hga]%andb_prop Hgt]%andb_prop Hgk].
  apply bool_decide_eq_true in Hnd. rewrite <-(stored_attr_names _ _ _ _ Hat) in Hnd.
  destruct (put_open_ok n name attrs count b Hnd Hc Hat Hga) as (b1 & w1 & Ho & Hb1 & Hw1 & He1).
  pose proof HK as [(c & S & Hch & Hco & _) Hn _ _ _ _]. unfold link in Hch. rewrite Ha in Hch. injection Hch as Hch.
  assert (exists b2 s2, (match n_child n with
     | Some c => switch_xml_toxml_r f [] h c 0 (count + 1) false b1
     | None => b ← switch_xml_ampencode (n_txt n) 0 b1 false; Ok (b, count)
     end) = Ok (b2, count) /\ b_out b2 = b_out b1 ++ s2 /\ (match ks with [] => s2 = enc false txt /\ ends_in 10 b2 = false | _ => layouts ks s2 end))
    as (b2 & s2 & Hin & Hb2 & Hs2).
  { destruct ks as [|k ks], E as [|e E]; try done.
    - simpl in Hco. rewrite Hch, Hco, Htxt. destruct (good_text_chars txt Hgt) as (_ & Hcs & Hd). 
      destruct (ampencode_text false txt b1 Hcs Hd) as (b2 & -> & Hb2 & _). exists b2, (enc false txt).
      split_and!; [done|done|done|]. apply (ends_in_app _ b b2 (w1 ++ open_text name attrs ++ enc false txt)).
      + by rewrite Hb2, Hb1, <-!app_assoc.
      + unfold open_text. intros [_ [? _]%app_eq_nil]%app_eq_nil. done.
      + rewrite !last_app. pose proof (enc_last txt Hgt) as Hl. destruct (last (enc false txt)) eqn:Hle; [done|]. unfold open_text.
        rewrite app_comm_cons, !last_app. done.
    - pose proof Hco as Hco'. apply chain_head in Hco'. rewrite Hch, Hco'. cbn [fmap list_fmap head]. rewrite Hco' in Hco.
      destruct (IH a n (k :: ks) (e :: E) (e_addr e) 0 (count + 1) b1) as (b2 & s2 & H1 & H2 & H3); try done; [|apply Forall_forall; intros e' He'; destruct (Hn e' He') as (n' & Hn' & _ & _ & Hp); unfold link; by rewrite Hn', <-Hp|lia|].
      + rewrite Htxt. assert (utf8_text txt = txt) as ->; [|done]. clear -Hgt. induction txt as [|c txt IH]; [done|]. cbn [forallb] in Hgt. apply andb_prop in Hgt as [H1 H2].
        rewrite utf8_cons, utf8_ascii by (unfold blank in H1; lia). cbn [app]. f_equal. by apply IH.
      + exists b2, s2. split; [rewrite H1; f_equal; f_equal; lia|done]. }
  destruct (put_close_ok name count b2 Hc) as (b3 & w3 & Hcl & Hb3 & Hw3 & He3). exists b1, b2, b3, w1, (open_text name attrs ++ (s2 ++ w3) ++ close_text name).
  split_and!; [done|done|done|by rewrite Hb3, Hb2, Hb1, <-!app_assoc|done|done|]. destruct ks as [|k ks].
  - destruct Hs2 as [-> Hs2]. rewrite (He3 Hs2), app_nil_r. constructor.
  - constructor. by apply layouts_back.
Qed.

Lemma toxml_eq f ds h xml start count isroot b : switch_xml_toxml_r (S f) ds h xml start count isroot b =
  (n ← deref h xml;
   txt ← (match n_parent n with Some p => if isroot then Ok [] else np ← deref h p; Ok (n_txt np) | None => Ok [] end);
   b ← switch_xml_ampencode (zdrop start txt) (n_off n -u start) b false;
   match n_name n with
   | None => Fault
   | Some name =>
     b ← put_open ds n name count b;
     '(b, count) ← (match n_child n with
                    | Some c => switch_xml_toxml_r f ds h c 0 (count + 1) false b
                    | None => b ← switch_xml_ampencode (n_txt n) 0 b false; Ok (b, count)
                    end);
     b ← put_close name count b;
     let off := Z.min (zlen txt) (n_off n) in
     match n_ordered n with
     | Some o => if isroot then b ← switch_xml_ampencode (zdrop off txt) 0 b false; Ok (b, if 0 <? count then count - 1 else count)
                 else switch_xml_toxml_r f ds h o off count false b
     | None => b ← switch_xml_ampencode (zdrop off txt) 0 b false; Ok (b, if 0 <? count then count - 1 else count)
     end
   end).
Proof. done. Qed.

Lemma forest_size name attrs txt ks ks' : list_sum (tree_size <$> Tree name attrs txt ks :: ks') = S (list_sum (tree_size <$> ks) + list_sum (tree_size <$> ks')).
Proof. done. Qed.

Lemma forest_printed h f : forest_ok h f.
Proof.
  induction f as [|f IH]; intros p np ks E a start count b Hp Hbl Hpar Hch Hst Hg Hf Hc.
  - destruct ks as [|[name attrs txt ks] ks']; [destruct E; [done|destruct Hst]|]. simpl in Hf. lia.
  - destruct ks as [|[name attrs txt ks] ks'], E as [|e E]; try done. cbn [all_stored] in Hst. destruct Hst as (_ & Hst & Hst').
    apply stored_unfold in Hst as (n & E' & Hn & Hname & Hat & Htxt & HK & Hall). cbn [forallb] in Hg. apply andb_prop in Hg as [Hg Hg'].
    rewrite forest_size in Hf. apply Forall_cons in Hpar as [He Hpar]. cbn [fmap list_fmap seg] in Hch.
    destruct Hch as ([= ->] & o & Ho & Hch). unfold link in He, Ho. rewrite Hn in He, Ho. injection He as He. injection Ho as Ho.
    rewrite toxml_eq, (deref_some _ _ _ Hn). cbn [mbind res_bind]. rewrite He, (deref_some _ _ _ Hp). cbn [mbind res_bind].
    destruct (ampencode_blanks (zdrop start (n_txt np)) (n_off n -u start) b) as (b0 & w0 & -> & Hb0 & Hw0); [by apply blanks_drop|].
    cbn [mbind res_bind]. rewrite Hname.
    destruct (tag_printed h f (e_addr e) n name attrs txt ks E' count b0) as (b1 & b2 & b3 & w & s & -> & Hin & Hcl & Hb3 & Hw & _ & Hs); try done; [lia|lia|].
    cbn [mbind res_bind]. rewrite Hin. cbn [mbind res_bind]. rewrite Hcl. cbn [mbind res_bind]. cbv zeta. rewrite Ho, (proj2 (Z.ltb_lt 0 count)) by done.
    destruct o as [o|].
    + destruct ks' as [|k' ks'], E as [|e' E]; try done. destruct (IH p np (k' :: ks') (e' :: E) o (Z.min (zlen (n_txt np)) (n_off n)) count b3) as (b' & r & H1 & H2 & H3); try done; [lia|].
      exists b', ((w0 ++ w) ++ s ++ [10] ++ r). split; [done|]. split; [by rewrite H2, Hb3, Hb0, <-!app_assoc|]. constructor; [by apply blanks_app|done|].
      by apply layouts_front.
    + destruct E as [|e' E]; [|by destruct Hch]. destruct ks' as [|k' ks']; [|done].
      destruct (ampencode_blanks (zdrop (Z.min (zlen (n_txt np)) (n_off n)) (n_txt np)) 0 b3) as (b' & w2 & -> & Hb' & Hw2); [by apply blanks_drop|].
      exists b', ((w0 ++ w) ++ s ++ [10] ++ w2). split; [done|]. split; [by rewrite Hb', Hb3, Hb0, <-!app_assoc|]. constructor; [by apply blanks_app|done|].
      constructor. by apply blanks_app.
Qed.

(** The tag that is printed, with a newline behind it. *)
Lemma root_printed f d a t : tree_at (d_nodes d) a t -> good t = true -> d_attr d = [] -> (tree_size t <= f)%nat ->
  (forall n, d_nodes d !! a = Some n -> n_parent n = None -> d_pi d = []) ->
  exists s, switch_xml_toxml f d a false = Ok (s ++ [10]) /\ layout t s.
Proof.
  intros Ht Hg Hds Hf Hpi. destruct t as [name attrs txt ks]. apply stored_unfold in Ht as (n & E & Hn & Hname & Hat & Htxt & HK & Hall).
  destruct f as [|f]; [simpl in Hf; lia|]. unfold switch_xml_toxml, switch_xml_toxml_buf. cbn [mbind res_bind]. rewrite (deref_some _ _ _ Hn). cbn [mbind res_bind].
  rewrite Hname. assert ((match n_parent n with None => d_pi d | Some _ => [] end) = []) as ->.
  { destruct (n_parent n) eqn:Hpar; [done|]. by apply (Hpi n). }
  cbn [put_instructions mbind res_bind]. rewrite Hds, toxml_eq, (deref_some _ _ _ Hn). cbn [mbind res_bind]. rewrite Hname.
  assert ((match n_parent n with Some _ => Ok [] | None => Ok [] end : res bytes) = Ok []) as -> by (by destruct (n_parent n)). cbn [mbind res_bind].
  assert (forall z l b, switch_xml_ampencode (zdrop z []) l b false = Ok b) as Hnil.
  { intros z l b. unfold zdrop. by rewrite drop_nil. }
  rewrite Hnil. cbn [mbind res_bind].
  destruct (tag_printed (d_nodes d) f a n name attrs txt ks E 0 (Buf [] SWITCH_XML_BUFSIZE) (forest_printed _ f)) as (b1 & b2 & b3 & w & s & -> & Hin & Hcl & Hb3 & Hw & Hw0 & Hs);
    try done; [simpl in Hf; lia|].
  cbn [mbind res_bind]. rewrite Hin. cbn [mbind res_bind]. rewrite Hcl. cbn [mbind res_bind]. cbv zeta. rewrite !Hnil. exists s. split; [|done].
  rewrite (Hw0 eq_refl eq_refl) in Hb3. simpl in Hb3. rewrite <-Hb3. by destruct (n_ordered n).
Qed.

(** ** Reading texts back *)

Lemma newlines_none cut s : forallb (fun c => negb (c =? 13)) s = true -> newlines InText cut s = (s, false).
Proof.
  induction s as [|c s IH]; [done|]. cbn [forallb newlines]. intros [Hc Hs]%andb_prop. by rewrite (proj2 (Z.eqb_neq c 13)), IH by (done || lia).
Qed.

Lemma forallb_impl {A} (P Q : A -> bool) l : (forall x, P x = true -> Q x = true) -> forallb P l = true -> forallb Q l = true.
Proof. intros HPQ. rewrite !forallb_forall. auto. Qed.

Lemma decode_printed k a cs : Forall (ok_char a) cs -> switch_xml_decode k (enc a cs) default_ent (kind a) = Ok (utf8_text cs, false).
Proof.
  intros Hok. destruct (enc_clean a cs Hok) as [Hcl Hlen]. unfold switch_xml_decode. rewrite newlines_none.
  - rewrite decode_enc by (done || lia). by destruct a.
  - revert Hcl. apply forallb_impl. unfold cleanb. intros x Hx. destruct a; simpl in Hx; lia.
Qed.

Lemma span_stop p s c r : forallb p s = true -> p c = false -> span p (s ++ c :: r) = (s, c :: r).
Proof.
  induction s as [|x s IH]; cbn [forallb app span]; [intros _ ->; done|]. intros [Hx Hs]%andb_prop Hc. by rewrite Hx, IH.
Qed.

Lemma skip_none p c r : p c = false -> skip p (c :: r) = c :: r.
Proof. unfold skip. cbn [span]. by intros ->. Qed.

(** One attribute, with what follows it. *)
Lemma attr_parsed k m cs rest : good_attr_name m = true -> good_value cs = true ->
  parse_attr k default_ent None (m ++ [61; 34] ++ enc true cs ++ [34] ++ rest) = Ok (inr ((m, Own (utf8_text cs)), rest)).
Proof.
  unfold good_attr_name. intros [_ Hm]%andb_prop Hv. destruct (value_chars cs Hv) as (Hok & _). unfold parse_attr. cbn [app].
  rewrite span_stop; [|revert Hm; apply forallb_impl; intros x Hx; unfold is_ws; unfold isspace in Hx; lia|done]. cbn [Z.eqb orb]. cbv iota beta.
  rewrite skip_none by done. cbv iota beta. cbn [is_quote Z.eqb orb]. destruct (enc_clean true cs Hok) as [Hcl _].
  change (is_quote 34) with true. cbv iota. rewrite span_stop; [|revert Hcl; apply forallb_impl; unfold cleanb; intros x Hx; lia|done].
  cbv iota beta. change (attr_kind None m) with (kind true). rewrite decode_printed by done. done.
Qed.

Lemma attr_name_head m : good_attr_name m = true -> exists c m', m = c :: m' /\ isspace c = false /\ tag_end m = false.
Proof.
  destruct m as [|c m]; [done|]. unfold good_attr_name. cbn [forallb]. intros [_ [Hc _]%andb_prop]%andb_prop. exists c, m. split; [done|].
  unfold isspace in *. simpl. lia.
Qed.

(** The attributes up to the end of the tag. *)
Lemma attrs_parsed k rest attrs : forall f acc, forallb (fun '(m, cs) => good_attr_name m && good_value cs) attrs = true ->
  (length (concat (attr_text <$> attrs)) <= S f)%nat ->
  attr_loop f k default_ent None acc (skip isspace (concat (attr_text <$> attrs) ++ 62 :: rest)) = Ok (inr (acc ++ ((fun '(m, cs) => (m, Own (utf8_text cs))) <$> attrs), 62 :: rest)).
Proof.
  induction attrs as [|[m cs] attrs IH]; intros f acc Hg Hf; [rewrite app_nil_r; by destruct f|].
  cbn [forallb] in Hg. apply andb_prop in Hg as [[Hm Hv]%andb_prop Hg]. destruct (attr_name_head m Hm) as (c & m' & Hmc & Hsp & Hte).
  change (concat (attr_text <$> (m, cs) :: attrs)) with (attr_text (m, cs) ++ concat (attr_text <$> attrs)) in *. rewrite length_app in Hf.
  assert (skip isspace ((attr_text (m, cs) ++ concat (attr_text <$> attrs)) ++ 62 :: rest) = m ++ [61; 34] ++ enc true cs ++ [34] ++ concat (attr_text <$> attrs) ++ 62 :: rest) as ->.
  { unfold attr_text at 1. rewrite <-app_assoc, <-app_comm_cons, <-!app_assoc. cbn [fst snd]. unfold skip at 1. cbn [span]. change (isspace 32) with true. cbv iota.
    rewrite Hmc, <-app_comm_cons. cbn [span]. by rewrite Hsp. }
  assert (length (attr_text (m, cs)) = (length m + length (enc true cs) + 4)%nat) as Hl.
  { unfold attr_text. cbn [fst snd length]. rewrite !length_app. simpl. lia. }
  destruct f as [|f]; [lia|]. cbn [attr_loop].
  assert (forall r, tag_end (m ++ r) = false) as Hte' by (intros r; rewrite Hmc in *; exact Hte). rewrite Hte', attr_parsed by done. cbn [mbind res_bind].
  rewrite IH by (done || lia). by rewrite <-app_assoc.
Qed.

(** ** Reading trees back *)

(** The parser behind a construct. *)
Definition resume (f k : nat) (e : Z) (s : bytes) (d : doc) : res doc :=
  match s with
  | [] => finish d
  | c :: s1 =>
    if c =? 60 then parse_loop f k e s1 d
    else
      let '(text, r) := span (fun c => negb (c =? 60)) s in
      match r with
      | [] => finish d
      | _ :: r =>
        '(d, over) ← switch_xml_char_content k text 38 d;
        r ← go_on over r;
        parse_loop f k e r d
      end
  end.

Lemma parse_loop_eq f k e s d : parse_loop (S f) k e s d =
  (r ← parse_markup k e s d; match r with inl d => Ok d | inr (d, s) => resume f k e (drop 1 s) d end).
Proof. cbn [parse_loop]. destruct (parse_markup k e s d) as [[d'|[d' s']]| |]; try done. cbn [mbind res_bind]. unfold resume. by destruct (drop 1 s'). Qed.

(** The heap has grown below [p]: other tags have what they had. *)
Record grows (p : Z) (h h' : heap) : Prop := Grows {
  g_tags : forall a n, h !! a = Some n -> exists n', h' !! a = Some n' /\ n_name n' = n_name n /\ n_attr n' = n_attr n /\ n_parent n' = n_parent n
    /\ (a <> p -> n_txt n' = n_txt n);
  g_kids : forall a E, a <> p -> kids h a E -> kids h' a E }.

Lemma grows_refl p h : grows p h h.
Proof. split; [intros a n Ha; by exists n|done]. Qed.

Lemma kids_some h a E : kids h a E -> is_Some (h !! a).
Proof. intros [(c & S & Hc & _) _ _ _ _ _]. unfold link in Hc. by destruct (h !! a). Qed.

Lemma grows_trans p q h1 h2 h3 : grows p h1 h2 -> grows q h2 h3 -> p = q \/ h1 !! q = None -> grows p h1 h3.
Proof.
  intros [Ht1 Hk1] [Ht2 Hk2] Hq. split.
  - intros a n Ha. destruct (Ht1 a n Ha) as (n1 & Ha1 & H1 & H2 & H3 & H4). destruct (Ht2 a n1 Ha1) as (n2 & Ha2 & H5 & H6 & H7 & H8).
    exists n2. split_and!; [done|congruence..|]. intros Hap. rewrite H8, H4; [done|done|]. intros ->. destruct Hq as [->|Hq]; [done|congruence].
  - intros a E Hap HK. apply Hk2; [|by apply Hk1]. intros ->. destruct Hq as [->|Hq]; [done|]. destruct (kids_some _ _ _ HK). congruence.
Qed.

(** Copies of trees that are not above [p] are still there. *)
Fixpoint copy_grows p h h' (Hg : grows p h h') (t : tree) {struct t} : forall a, p < a -> copy_at h a t -> copy_at h' a t.
Proof.
  intros a Hpa. destruct t as [name attrs txt ks]. unfold copy_at. rewrite !stored_unfold. intros (n & E & Ha & Hname & Hat & Htxt & HK & Hall).
  destruct (g_tags _ _ _ Hg a n Ha) as (n' & Ha' & H1 & H2 & H3 & H4). exists n', E. rewrite H1, H2, H4 by lia.
  split_and!; [done..|apply Hg; [lia|done]|]. clear -copy_grows Hg Hpa Hall. revert E Hall. induction ks as [|k ks IH]; intros [|e E]; try done.
  cbn [all_stored]. intros (Hup & Hst & Hall). split_and!; [done| |by apply IH]. apply (copy_grows p h h' Hg); [lia|done].
Qed.

(** The parser is at a tag [p] with the tags [E] below it. *)
Record ready (d : doc) : Prop := Ready {
  r_ent : d_ent d = default_ent; r_defaults : d_attr d = []; r_err : d_err d = None; r_dom : forall a, is_Some (d_nodes d !! a) -> a < d_brk d }.

Record at_tag (d : doc) (p : Z) (E : list entry) : Prop := AtTag {
  at_ready : ready d;
  at_cur : d_cur d = Some p;
  at_kids : kids (d_nodes d) p E;
  at_node : exists n, d_nodes d !! p = Some n /\ is_Some (n_name n) /\ blanks (n_txt n) /\ Forall (fun e => e_off e <= zlen (n_txt n)) E }.

(** Blanks in front of a construct. *)
Lemma blank_char c : blank c = true -> ok_char false c /\ enc_char false c = [c] /\ utf8 c = [c].
Proof.
  intros Hc. assert (c = 9 \/ c = 10 \/ c = 32) as Hc' by (unfold blank in Hc; lia). split; [unfold ok_char; lia|]. split; [|apply utf8_ascii; lia].
  by destruct Hc' as [-> | [-> | ->]].
Qed.

Lemma blanks_enc w : blanks w -> Forall (ok_char false) w /\ enc false w = w /\ utf8_text w = w.
Proof.
  induction w as [|c w IH]; [done|]. cbn [forallb]. intros [Hc Hw]%andb_prop. destruct (IH Hw) as (H1 & H2 & H3). destruct (blank_char c Hc) as (H4 & H5 & H6).
  rewrite enc_cons, utf8_cons, H2, H3, H5, H6. split_and!; [by constructor|done|done].
Qed.

(** The text of a tag grows by what is read. *)
Lemma content_parsed k cs d p n : Forall (ok_char false) cs -> cs <> [] -> ready d -> d_cur d = Some p -> d_nodes d !! p = Some n -> is_Some (n_name n) ->
  switch_xml_char_content k (enc false cs) 38 d = Ok (on_nodes (<[p := with_txt (n_txt n ++ utf8_text cs) n]> (d_nodes d)) d, false).
Proof.
  intros Hok Hne Hr Hcur Hn [name Hname]. unfold switch_xml_char_content. rewrite Hcur, (deref_some _ _ _ Hn). cbn [mbind res_bind].
  rewrite Hname, bool_decide_eq_false_2 by done. rewrite bool_decide_eq_false_2.
  - cbn [orb]. rewrite (r_ent _ Hr). change 38 with (kind false). rewrite decode_printed by done. cbn [mbind res_bind]. by rewrite (upd_some _ _ _ _ Hn).
  - intros He. destruct (enc_clean false cs Hok) as [_ Hl]. rewrite He in Hl. destruct cs; [done|]. simpl in Hl. lia.
Qed.

Lemma txt_grows h p n s : h !! p = Some n -> grows p h (<[p := with_txt s n]> h) /\ forall E, kids h p E -> kids (<[p := with_txt s n]> h) p E.
Proof.
  intros Hn. split; [split|].
  - intros a m Ha. destruct (decide (a = p)) as [->|Hap]; [|by exists m; rewrite lookup_insert_ne].
    exists (with_txt s n). rewrite lookup_insert_eq. assert (m = n) as -> by congruence. done.
  - intros a E _. by apply ties_step with n.
  - intros E. by apply ties_step with n.
Qed.

Lemma ready_nodes d h : ready d -> (forall a, is_Some (h !! a) -> is_Some (d_nodes d !! a)) -> ready (on_nodes h d).
Proof. intros [H1 H2 H3 H4] Hd. split; [done..|]. intros a Ha. by apply H4, Hd. Qed.

Lemma insert_dom (h : heap) a n m b : h !! a = Some n -> is_Some (<[a := m]> h !! b) -> is_Some (h !! b).
Proof. intros Ha. destruct (decide (a = b)) as [->|]; [by rewrite Ha|by rewrite lookup_insert_ne]. Qed.

Lemma blanks_parsed f k e w r d p E : blanks w -> at_tag d p E ->
  exists d', resume f k e (w ++ 60 :: r) d = resume f k e (60 :: r) d' /\ at_tag d' p E /\ grows p (d_nodes d) (d_nodes d').
Proof.
  intros Hw Hat. destruct w as [|c w]; [exists d; split_and!; [done|done|apply grows_refl]|].
  destruct Hat as [Hr Hcur HK (n & Hn & Hname & Hbl & Hoff)]. destruct (blanks_enc (c :: w) Hw) as (Hok & Henc & Hutf).
  assert (blank c = true) as Hbc by (by apply andb_prop in Hw as [? _]). assert (c <> 60) as H60 by (unfold blank in Hbc; lia).
  set (h' := <[p := with_txt (n_txt n ++ c :: w) n]> (d_nodes d)). destruct (txt_grows (d_nodes d) p n (n_txt n ++ c :: w) Hn) as [Hg Hk]. exists (on_nodes h' d).
  split_and!; [|split|done].
  - change (resume f k e ((c :: w) ++ 60 :: r) d) with (if c =? 60 then parse_loop f k e (w ++ 60 :: r) d else
      let '(text, r) := span (fun c => negb (c =? 60)) ((c :: w) ++ 60 :: r) in
      match r with [] => finish d | _ :: r => '(d, over) ← switch_xml_char_content k text 38 d; r ← go_on over r; parse_loop f k e r d end).
    rewrite (proj2 (Z.eqb_neq c 60)) by done. rewrite span_stop; [|revert Hw; apply forallb_impl; unfold blank; intros x Hx; lia|done]. cbv iota beta.
    rewrite <-Henc at 1. rewrite (content_parsed k (c :: w) d p n) by done. rewrite Hutf. done.
  - apply ready_nodes; [done|]. intros b. by apply (insert_dom _ _ n).
  - done.
  - by apply Hk.
  - exists (with_txt (n_txt n ++ c :: w) n). cbn [on_nodes d_nodes]. unfold h'. rewrite lookup_insert_eq. cbn [n_name n_txt with_txt]. split_and!; [done|done|by apply blanks_app|].
    apply (Forall_impl _ _ _ Hoff). intros x Hx. rewrite zlen_app. pose proof (zlen_nonneg (c :: w)). lia.
Qed.

Definition own_values (attrs : list (bytes * list Z)) : list (bytes * value) := (fun '(m, cs) => (m, Own (utf8_text cs))) <$> attrs.

Lemma skip_attrs attrs rest : forallb (fun '(m, cs) => good_attr_name m && good_value cs) attrs = true ->
  (length (concat (attr_text <$> attrs)) <= S (length (skip isspace (concat (attr_text <$> attrs) ++ 62%Z :: rest))))%nat.
Proof.
  destruct attrs as [|[m cs] attrs]; [simpl; lia|]. cbn [forallb]. intros [[Hm _]%andb_prop _]%andb_prop. destruct (attr_name_head m Hm) as (c & m' & Hmc & Hsp & _).
  change (concat (attr_text <$> (m, cs) :: attrs)) with (32 :: (m ++ [61; 34] ++ enc true cs ++ [34]) ++ concat (attr_text <$> attrs)).
  rewrite Hmc, <-!app_comm_cons. unfold skip. cbn [span]. change (isspace 32) with true. cbv iota. rewrite Hsp. cbn [snd length]. rewrite !length_app. lia.
Qed.

(** The beginning of a tag. *)
Lemma tag_parsed k e name attrs rest d : good_name name = true -> forallb (fun '(m, cs) => good_attr_name m && good_value cs) attrs = true ->
  is_Some (d_cur d) -> ready d ->
  parse_markup k e (name ++ concat (attr_text <$> attrs) ++ 62 :: rest) d = (d ← switch_xml_open_tag name (own_values attrs) d; Ok (inr (d, 62 :: rest))).
Proof.
  unfold good_name. intros [Hh Hn]%andb_prop Ha [p Hcur] Hr. destruct name as [|c name]; [done|]. unfold parse_markup. rewrite <-app_comm_cons. cbv zeta. rewrite Hh.
  unfold parse_tag. rewrite Hcur, bool_decide_eq_false_2 by done.
  assert (exists x y, concat (attr_text <$> attrs) ++ 62 :: rest = x :: y /\ (x = 32 \/ x = 62)) as (x & y & Hxy & Hx).
  { destruct attrs as [|[m cs] attrs]; [exists 62, rest; auto|]. by eexists 32, _; split; [reflexivity|left]. }
  assert (span (fun c => negb (is_ws c || (c =? 47) || (c =? 62))) (c :: name ++ concat (attr_text <$> attrs) ++ 62 :: rest) = (c :: name, concat (attr_text <$> attrs) ++ 62 :: rest)) as ->.
  { rewrite Hxy, app_comm_cons. apply span_stop; [|by destruct Hx as [-> | ->]]. revert Hn. apply forallb_impl. unfold is_ws. intros z Hz. lia. }
  cbv iota beta zeta. rewrite (r_defaults _ Hr). cbn [list_find fmap option_fmap option_map]. rewrite (r_ent _ Hr).
  assert (forall b : bool, (if b then None else None : option (list (bytes * option bytes * Z))) = None) as -> by (by intros []).
  rewrite attrs_parsed; [|done|by apply skip_attrs]. cbn [mbind res_bind app]. done.
Qed.

Lemma place_last x E : Forall (fun e => e_off e <= e_off x) E -> place x E = E ++ [x].
Proof. induction 1 as [|e E He HE IH]; [done|]. cbn [place app]. by rewrite (proj2 (Z.leb_le _ _)), IH by done. Qed.

Lemma open_text_app name attrs rest : open_text name attrs ++ rest = 60 :: name ++ concat (attr_text <$> attrs) ++ 62 :: rest.
Proof. unfold open_text. rewrite <-app_comm_cons, <-!app_assoc. done. Qed.

Lemma attr_grows h p n l : h !! p = Some n -> forall a E, kids h a E -> kids (<[p := with_attr l n]> h) a E.
Proof. intros Hn a E. by apply ties_step with n. Qed.

(** A tag below another one. *)
Lemma open_parsed f k e name attrs rest d p E : at_tag d p E -> good_name name = true -> forallb (fun '(m, cs) => good_attr_name m && good_value cs) attrs = true ->
  exists d' x n np off, resume (S f) k e (open_text name attrs ++ rest) d = resume f k e rest d' /\ at_tag d' x [] /\ p < x /\ d_nodes d !! x = None /\
    d_nodes d' !! x = Some n /\ n_name n = Some name /\ n_attr n = own_values attrs /\ n_txt n = [] /\ n_parent n = Some p /\
    kids (d_nodes d') p (E ++ [Entry x name off]) /\ grows p (d_nodes d) (d_nodes d') /\
    d_nodes d' !! p = Some np /\ is_Some (n_name np) /\ blanks (n_txt np) /\ Forall (fun e => e_off e <= zlen (n_txt np)) (E ++ [Entry x name off]).
Proof.
  intros [Hr Hcur HK (np & Hp & [pname Hname] & Hbl & Hoff)] Hgn Hga. rewrite open_text_app. cbn [resume]. rewrite Z.eqb_refl, parse_loop_eq, tag_parsed by (done || by rewrite Hcur).
  set (x := d_brk d). set (off := zlen (n_txt np)). assert (d_nodes d !! x = None) as Hx.
  { destruct (d_nodes d !! x) eqn:Hx; [|done]. pose proof (r_dom _ Hr x ltac:(by rewrite Hx)). unfold x in *. lia. }
  assert (p < x) as Hpx by (apply (r_dom _ Hr); by rewrite Hp).
  unfold switch_xml_open_tag. rewrite Hcur, (deref_some _ _ _ Hp). cbn [mbind res_bind]. rewrite Hname. unfold switch_xml_add_child. fold x off (new_tag p name off).
  destruct (add_child_heap (d_nodes d) p E x name off HK Hx) as (h' & -> & HKp & HKx & HKo & Hl & Hot & Hch). cbn [mbind res_bind d_nodes on_nodes].
  destruct (like_body_data _ _ x (new_tag p name off) Hl (lookup_insert_eq _ _ _)) as (nx & Hnx & Hx1 & Hx2 & Hx3 & Hx4 & Hx5).
  rewrite (upd_some _ _ _ _ Hnx). cbn [mbind res_bind drop]. set (h2 := <[x := with_attr (own_values attrs) nx]> h').
  pose proof (attr_grows h' x nx (own_values attrs) Hnx) as HK2. rewrite place_last in HKp by done.
  destruct (like_body_data _ _ p np Hl ltac:(rewrite lookup_insert_ne by lia; done)) as (np' & Hnp' & Hp1 & Hp2 & Hp3 & Hp4 & Hp5).
  eexists _, x, (with_attr (own_values attrs) nx), np', off. split; [reflexivity|]. cbn [d_nodes on_nodes with_cur]. fold h2. split_and!; try done.
  - split; [|done|by apply HK2|].
    + split; [apply Hr|apply Hr|apply Hr|]. intros a [n Ha]. cbn [with_cur on_nodes d_nodes d_brk] in *. destruct (decide (a = x)) as [->|Hax]; [lia|].
      unfold h2 in Ha. rewrite lookup_insert_ne in Ha by done. specialize (Hl a). rewrite Ha, lookup_insert_ne in Hl by done.
      destruct (d_nodes d !! a) as [m|] eqn:Hm; [|done]. pose proof (r_dom _ Hr a ltac:(by rewrite Hm)). unfold x. lia.
    + exists (with_attr (own_values attrs) nx). cbn [with_cur on_nodes d_nodes]. unfold h2. rewrite lookup_insert_eq. cbn [with_attr n_name n_txt]. rewrite Hx1, Hx3. by split_and!.
  - unfold h2. by rewrite lookup_insert_eq.
  - by apply HK2.
  - split.
    + intros a n Ha. assert (a <> x) as Hax by congruence. destruct (like_body_data _ _ a n Hl ltac:(by rewrite lookup_insert_ne)) as (n' & Ha' & H1 & H2 & H3 & H4 & H5).
      exists n'. unfold h2. rewrite lookup_insert_ne by done. by split_and!.
    + intros a E' Hap HKa. by apply HK2, HKo.
  - unfold h2. rewrite lookup_insert_ne by lia. done.
  - by rewrite Hp1, Hname.
  - by rewrite Hp3.
  - rewrite Hp3. apply Forall_app. split; [done|]. apply Forall_singleton. done.
Qed.

(** The end of a tag. *)
Lemma close_parsed f k e name rest d x n : good_name name = true -> d_cur d = Some x -> d_nodes d !! x = Some n -> n_name n = Some name ->
  resume (S f) k e (close_text name ++ rest) d = resume f k e rest (with_cur (n_parent n) d).
Proof.
  intros Hg Hcur Hn Hname. unfold close_text. rewrite <-!app_assoc. change (str "</" ++ name ++ [62] ++ rest) with (60 :: 47 :: name ++ 62 :: rest).
  cbn [resume]. rewrite Z.eqb_refl, parse_loop_eq. unfold parse_markup. change (name_start 47) with false. cbv zeta iota. rewrite Z.eqb_refl. cbn [drop].
  unfold parse_close. rewrite drop_0. rewrite span_stop; [|unfold good_name in Hg; apply andb_prop in Hg as [_ Hg]; revert Hg; apply forallb_impl; unfold is_ws; intros z Hz; lia|done].
  cbv iota beta. rewrite bool_decide_eq_false_2 by done. cbn [andb]. unfold switch_xml_close_tag. rewrite Hcur, (deref_some _ _ _ Hn). cbn [mbind res_bind].
  rewrite bool_decide_eq_true_2 by done. cbn [mbind res_bind]. rewrite skip_none by done. done.
Qed.

Lemma own_values_text attrs : (fun '(m, v) => (m, text_of v)) <$> own_values attrs = (fun '(m, cs) => (m, utf8_text cs)) <$> attrs.
Proof. unfold own_values. rewrite <-list_fmap_compose. apply list_fmap_ext. by intros ? [m cs] _. Qed.

(** What stands between the beginning of a tag and what follows its end. *)
Definition inside_read (t : tree) (content : bytes) : Prop := let 'Tree name attrs txt ks := t in forall f k e rest d x n,
  at_tag d x [] -> d_nodes d !! x = Some n -> n_name n = Some name -> n_attr n = own_values attrs -> n_txt n = [] ->
  (length (content ++ close_text name ++ rest) <= f)%nat ->
  exists f' d', resume f k e (content ++ close_text name ++ rest) d = resume f' k e rest d' /\ (length rest <= f')%nat /\ ready d' /\ d_cur d' = n_parent n /\
    copy_at (d_nodes d') x t /\ grows x (d_nodes d) (d_nodes d').

Definition tag_read (t : tree) (s : bytes) : Prop := let 'Tree name attrs _ _ := t in
  good t = true -> exists content, s = open_text name attrs ++ content ++ close_text name /\ inside_read t content.

Definition forest_read (ks : list tree) (s : bytes) : Prop := forallb good ks = true -> forall f k e r d p E,
  at_tag d p E -> (length (s ++ 60%Z :: r) <= f)%nat ->
  exists f' d' E', resume f k e (s ++ 60 :: r) d = resume f' k e (60 :: r) d' /\ (length (60%Z :: r) <= f')%nat /\ at_tag d' p (E ++ E') /\
    all_stored Z.lt (fun ks txt s => if ks is [] then s = utf8_text txt else blanks s) (d_nodes d') p ks E' /\ grows p (d_nodes d) (d_nodes d').

Lemma leaf_read name attrs txt : good (Tree name attrs txt []) = true -> inside_read (Tree name attrs txt []) (enc false txt).
Proof.
  cbn [good inside_read]. intros [[[[Hgn _]%andb_prop _]%andb_prop Hgt]%andb_prop _]%andb_prop f k e rest d x n [Hr Hcur HK _] Hx Hname Hat Htxt Hf.
  destruct (good_text_chars txt Hgt) as (Hok & _). destruct (enc_clean false txt Hok) as [Hcl Hlen].
  set (d1 := on_nodes (<[x := with_txt (utf8_text txt) n]> (d_nodes d)) d). rewrite length_app in Hf.
  assert (resume f k e (enc false txt ++ close_text name ++ rest) d = resume f k e (close_text name ++ rest) d1) as ->.
  { destruct txt as [|c txt].
    - unfold d1. cbn [enc utf8_text fmap list_fmap concat app]. f_equal. rewrite insert_id; [by destruct d|]. rewrite Hx. f_equal. destruct n. simpl in *. by subst.
    - assert (exists y l, enc false (c :: txt) = y :: l) as (y & l & Hyl) by (destruct (enc false (c :: txt)); [simpl in Hlen; lia|by eexists _, _]).
      assert (y <> 60) as Hy by (rewrite Hyl in Hcl; cbn [forallb] in Hcl; unfold cleanb in Hcl; lia).
      assert (resume f k e (enc false (c :: txt) ++ close_text name ++ rest) d = (let '(text, r) := span (fun c => negb (c =? 60)) (enc false (c :: txt) ++ close_text name ++ rest) in
        match r with [] => finish d | _ :: r => '(d, over) ← switch_xml_char_content k text 38 d; r ← go_on over r; parse_loop f k e r d end)) as ->.
      { rewrite Hyl, <-app_comm_cons. cbn [resume]. by rewrite (proj2 (Z.eqb_neq y 60)). }
      unfold close_text. rewrite <-!app_assoc. change (str "</" ++ name ++ [62] ++ rest) with (60 :: 47 :: name ++ 62 :: rest).
      rewrite span_stop; [|revert Hcl; apply forallb_impl; unfold cleanb; intros z Hz; lia|done]. cbv iota beta.
      rewrite (content_parsed k (c :: txt) d x n) by (done || by rewrite Hname). rewrite Htxt. done. }
  unfold close_text in Hf. rewrite length_app in Hf. simpl in Hf. destruct f as [|f]; [lia|]. rewrite (close_parsed f k e name rest d1 x (with_txt (utf8_text txt) n)); [|done|done|apply lookup_insert_eq|done].
  exists f. eexists. split; [reflexivity|]. destruct (txt_grows (d_nodes d) x n (utf8_text txt) Hx) as [Hg Hk]. split_and!; [rewrite !length_app in Hf; lia| |done| |done].
  - assert (ready d1) as [H1 H2 H3 H4]; [|by split]. apply ready_nodes; [done|]. intros b. by apply (insert_dom _ _ n).
  - unfold copy_at. rewrite stored_unfold. exists (with_txt (utf8_text txt) n), []. cbn [d_nodes with_cur d1 on_nodes with_txt n_name n_attr n_txt]. rewrite lookup_insert_eq, Hat, own_values_text.
    split_and!; try done. by apply Hk.
Qed.

Lemma inner_read name attrs txt k0 ks s : good (Tree name attrs txt (k0 :: ks)) = true -> forest_read (k0 :: ks) s -> inside_read (Tree name attrs txt (k0 :: ks)) s.
Proof.
  cbn [good inside_read]. intros [[[[Hgn _]%andb_prop _]%andb_prop _]%andb_prop Hgk]%andb_prop Hfr f k e rest d x n Hat Hx Hname Hatt Htxt Hf.
  change (close_text name ++ rest) with (60 :: (47 :: name ++ [62]) ++ rest) in Hf |- *.
  destruct (Hfr Hgk f k e ((47 :: name ++ [62]) ++ rest) d x [] Hat Hf) as (f1 & d1 & E' & -> & Hf1 & [Hr1 Hcur1 HK1 (n1 & Hn1 & _ & Hb1 & _)] & Hst & Hg).
  destruct (g_tags _ _ _ Hg x n Hx) as (n1' & Hn1' & H1 & H2 & H3 & _). assert (n1' = n1) as -> by congruence.
  change (60 :: (47 :: name ++ [62]) ++ rest) with (close_text name ++ rest) in Hf1 |- *. unfold close_text in Hf1. rewrite length_app in Hf1. simpl in Hf1. destruct f1 as [|f1]; [lia|].
  rewrite (close_parsed f1 k e name rest d1 x n1) by (done || congruence). eexists f1, _. split; [reflexivity|]. split_and!; [rewrite !length_app in Hf1; lia|by split; apply Hr1|done| |done].
  unfold copy_at. rewrite stored_unfold. exists n1, E'. cbn [with_cur d_nodes]. rewrite H2, Hatt, own_values_text. split_and!; [done|congruence|done|done|done|done].
Qed.

Lemma all_stored_grows p q h h' ks E : grows p h h' -> p <= q ->
  all_stored Z.lt (fun ks txt s => if ks is [] then s = utf8_text txt else blanks s) h q ks E ->
  all_stored Z.lt (fun ks txt s => if ks is [] then s = utf8_text txt else blanks s) h' q ks E.
Proof.
  intros Hg Hpq. revert E. induction ks as [|k ks IH]; intros [|e E]; try done. cbn [all_stored]. intros (Hup & Hst & Hall).
  split_and!; [done| |by apply IH]. apply (copy_grows p h h' Hg); [lia|done].
Qed.

Lemma forest_read_cons w t s ks r : blanks w -> tag_read t s -> forest_read ks r -> forest_read (t :: ks) (w ++ s ++ r).
Proof.
  intros Hw Ht Hfr Hg f k e r0 d p E Hat Hf. cbn [forallb] in Hg. apply andb_prop in Hg as [Hgt Hgk]. destruct t as [name attrs txt ks0].
  destruct (Ht Hgt) as (content & -> & Hin). cbn [good] in Hgt. apply andb_prop in Hgt as [[[[Hgn _]%andb_prop Hga]%andb_prop _]%andb_prop _].
  rewrite <-!app_assoc in Hf |- *. pose proof (open_text_app name attrs (content ++ close_text name ++ r ++ 60 :: r0)) as Ho.
  destruct (blanks_parsed f k e w (name ++ concat (attr_text <$> attrs) ++ 62 :: content ++ close_text name ++ r ++ 60 :: r0) d p E Hw Hat) as (d1 & Hd1 & Hat1 & Hg1).
  rewrite <-Ho in Hd1. rewrite Hd1. clear Hd1. assert (length (open_text name attrs ++ content ++ close_text name ++ r ++ 60%Z :: r0) <= f)%nat as Hf1 by (rewrite length_app in Hf; lia).
  clear Hf. rename Hf1 into Hf. rewrite length_app in Hf. assert (1 <= length (open_text name attrs))%nat as Hol by (unfold open_text; simpl; lia). destruct f as [|f]; [lia|].
  destruct (open_parsed f k e name attrs (content ++ close_text name ++ r ++ 60 :: r0) d1 p E Hat1 Hgn Hga)
    as (d2 & x & n & np & off & -> & Hat2 & Hpx & Hnew & Hx & Hx1 & Hx2 & Hx3 & Hx4 & HKp & Hg2 & Hp & Hpn & Hpb & Hpo).
  destruct (Hin f k e (r ++ 60 :: r0) d2 x n Hat2 Hx Hx1 Hx2 Hx3 ltac:(lia)) as (f3 & d3 & -> & Hf3 & Hr3 & Hcur3 & Hcopy & Hg3).
  destruct (g_tags _ _ _ Hg3 p np Hp) as (np3 & Hp3 & H1 & H2 & H3 & H4).
  assert (at_tag d3 p (E ++ [Entry x name off])) as Hat3.
  { split; [done|by rewrite Hcur3|apply Hg3; [lia|done]|]. exists np3. rewrite H1, H4 by lia. done. }
  destruct (Hfr Hgk f3 k e r0 d3 p (E ++ [Entry x name off]) Hat3 Hf3) as (f4 & d4 & E' & -> & Hf4 & Hat4 & Hst4 & Hg4).
  exists f4, d4, (Entry x name off :: E'). split_and!; [done|done|by rewrite <-app_assoc in Hat4| |].
  - cbn [all_stored e_addr]. split_and!; [done| |done]. by apply (copy_grows p (d_nodes d3) (d_nodes d4) Hg4).
  - apply (grows_trans p p _ (d_nodes d3)); [|done|by left]. apply (grows_trans p x _ (d_nodes d2)); [|done|].
    + apply (grows_trans p p _ (d_nodes d1)); [done|done|by left].
    + right. destruct (d_nodes d !! x) as [m|] eqn:Hm; [|done]. destruct (g_tags _ _ _ Hg1 x m Hm) as (m' & Hm' & _). congruence.
Qed.

Lemma layout_read t s : layout t s -> tag_read t s.
Proof.
  apply (layout_mut tag_read forest_read).
  - intros name attrs txt Hg. exists (enc false txt). split; [done|]. by apply leaf_read.
  - intros name attrs txt k ks r Hl Hfr Hg. exists r. split; [done|]. by apply inner_read.
  - intros w Hw _ f k e r d p E Hat Hf. destruct (blanks_parsed f k e w r d p E Hw Hat) as (d' & -> & Hat' & Hg). exists f, d', []. rewrite app_nil_r.
    rewrite length_app in Hf. split_and!; [done|lia|done|done|done].
  - intros w k s' ks r Hw Hl Ht Hls Hfr. by apply forest_read_cons.
Qed.

(** The root tag gets its name and its attributes. *)
Lemma root_parsed k e t s : layout t s -> good t = true ->
  exists r d, s = 60 :: r /\ parse_loop (S (length r)) k e r (switch_xml_new None) = Ok d /\ d_err d = None /\ copy_at (d_nodes d) 0 t.
Proof.
  intros Hl Hg. destruct t as [name attrs txt ks]. destruct (layout_read _ s Hl Hg) as (content & -> & Hin). cbn [good] in Hg.
  apply andb_prop in Hg as [[[[Hgn _]%andb_prop Hga]%andb_prop _]%andb_prop _]. rewrite open_text_app.
  set (u := name ++ concat (attr_text <$> attrs) ++ 62 :: content ++ close_text name). exists u. set (d0 := switch_xml_new None).
  assert (ready d0) as Hr0. { split; [done..|]. intros a [n Ha]. unfold d0, switch_xml_new in *. cbn [d_nodes d_brk] in *. apply lookup_singleton_Some in Ha as [<- _]. done. }
  set (n := with_attr (own_values attrs) (with_name (Some name) (root_node None))). set (d1 := with_cur (Some 0) (on_nodes {[0 := n]} d0)).
  assert (switch_xml_open_tag name (own_values attrs) d0 = Ok d1) as Hopen.
  { unfold switch_xml_open_tag, d0, switch_xml_new. cbn [d_cur d_nodes]. unfold deref. rewrite lookup_singleton_eq. cbn [mbind res_bind root_node n_name].
    unfold upd, deref. rewrite lookup_singleton_eq. cbn [mbind res_bind on_nodes d_nodes]. rewrite insert_singleton_eq, lookup_singleton_eq. cbn [mbind res_bind].
    by rewrite insert_singleton_eq. }
  assert (at_tag d1 0 []) as Hat1.
  { split; [|done|by apply (kids_nil _ _ n); [apply lookup_singleton_eq|]|].
    - split; [done..|]. intros a [m Ha]. unfold d1 in *. cbn [d_nodes d_brk with_cur on_nodes] in *. apply lookup_singleton_Some in Ha as [<- _]. done.
    - exists n. split_and!; [apply lookup_singleton_eq|done|done|done]. }
  destruct (Hin (length u) k e [] d1 0 n Hat1) as (f' & d' & Hp & _ & Hr' & Hcur' & Hcopy & _); [apply lookup_singleton_eq|done|done|done|rewrite app_nil_r; unfold u; rewrite !length_app; cbn [length]; rewrite !length_app; lia|].
  exists d'. split; [done|]. rewrite parse_loop_eq. unfold u at 2. rewrite tag_parsed by done. rewrite Hopen. cbn [mbind res_bind drop]. rewrite app_nil_r in Hp. rewrite drop_0, Hp.
  cbn [resume]. unfold finish. rewrite Hcur'. split_and!; [done|apply Hr'|done].
Qed.

(** What is printed has no NUL. *)
Abbreviation no_nul s := (forallb (fun c => negb (c =? 0)) s = true).

Lemma name_no_nul name : good_name name = true -> no_nul name.
Proof. unfold good_name. intros [_ H]%andb_prop. revert H. apply forallb_impl. intros c Hc. lia. Qed.

Lemma enc_no_nul a cs : Forall (ok_char a) cs -> no_nul (enc a cs).
Proof. intros [H _]%enc_clean. revert H. apply forallb_impl. unfold cleanb. intros c Hc. destruct a; simpl in Hc; lia. Qed.

Lemma open_no_nul name attrs : good_name name = true -> forallb (fun '(m, cs) => good_attr_name m && good_value cs) attrs = true -> no_nul (open_text name attrs).
Proof.
  intros Hn%name_no_nul Ha. unfold open_text. cbn [forallb]. rewrite !forallb_app, Hn. assert (no_nul (concat (attr_text <$> attrs))) as ->; [|done].
  induction attrs as [|[m cs] attrs IH]; [done|]. cbn [forallb] in Ha. apply andb_prop in Ha as [[Hm Hv]%andb_prop Ha]. destruct (value_chars cs Hv) as (Hok & _).
  cbn [fmap list_fmap concat]. rewrite forallb_app. apply andb_true_intro. split; [|by apply IH]. unfold attr_text. cbn [forallb fst snd].
  rewrite !forallb_app, (enc_no_nul true cs Hok). assert (no_nul m) as ->; [|done].
  unfold good_attr_name in Hm. apply andb_prop in Hm as [_ Hm]. revert Hm. apply forallb_impl. intros c Hc. lia.
Qed.

Lemma close_no_nul name : good_name name = true -> no_nul (close_text name).
Proof. intros Hn%name_no_nul. unfold close_text. by rewrite !forallb_app, Hn. Qed.

Lemma blanks_no_nul w : blanks w -> no_nul w.
Proof. apply forallb_impl. unfold blank. intros c Hc. lia. Qed.

Lemma layout_no_nul t s : layout t s -> good t = true -> no_nul s.
Proof.
  apply (layout_mut (fun t s => good t = true -> no_nul s) (fun ks s => forallb good ks = true -> no_nul s)).
  - intros name attrs txt. cbn [good]. intros [[[[Hn _]%andb_prop Ha]%andb_prop Ht]%andb_prop _]%andb_prop. destruct (good_text_chars txt Ht) as (Hok & _).
    rewrite !forallb_app, open_no_nul, (enc_no_nul false), close_no_nul by done. done.
  - intros name attrs txt k ks r _ IH. cbn [good]. intros [[[[Hn _]%andb_prop Ha]%andb_prop _]%andb_prop Hk]%andb_prop.
    rewrite !forallb_app, open_no_nul, close_no_nul, (IH Hk) by done. done.
  - intros w Hw _. by apply blanks_no_nul.
  - intros w k s' ks r Hw _ IHk _ IHr. cbn [forallb]. intros [Hk Hks]%andb_prop. rewrite !forallb_app, blanks_no_nul, (IHk Hk), (IHr Hks) by done. done.
Qed.

Lemma span_all p s : forallb p s = true -> span p s = (s, []).
Proof. induction s as [|c s IH]; [done|]. cbn [forallb span]. intros [-> Hs]%andb_prop. by rewrite IH. Qed.

(** C40: A copy of a tag is the same tree.  [switch_xml_dup] prints the tag with
    all that is below it and parses the text: no write of the printer leaves its
    block, the parser reports no error, and the new document has a tree of the
    same names, the same attributes in the same order with the same values, the
    same texts of leaves and the same tags below every tag, in the same order;
    only the blanks between tags may differ.  The characters that mark up, quotes
    and newlines in values, and characters of several bytes come back.  [good]
    leaves out what does not survive: text between tags, a leaf that ends in a
    newline, a declaration inside of a text, a vertical tab or a form feed in an
    attribute value, which comes back as a blank, and characters from U+100000
    on, for which the printer has not enough room.  The document has no default
    attributes of a document type ([d_attr d] is empty), which the copy would get
    as attributes of its own, and, where the tag is the root of its document, no
    processing instructions ([d_pi d] is empty), which would be printed with
    it. *)
Theorem xml_dup_round_trip (f k : nat) (d : doc) (a : Z) (t : tree) :
  tree_at (d_nodes d) a t -> good t = true -> d_attr d = [] -> (tree_size t <= f)%nat ->
  (forall n, d_nodes d !! a = Some n -> n_parent n = None -> d_pi d = []) ->
  exists d', switch_xml_dup f k d a = Ok (Some d') /\ d_err d' = None /\ copy_at (d_nodes d') 0 t.
Proof.
  intros Ht Hg Hds Hf Hpi. destruct (root_printed f d a t Ht Hg Hds Hf Hpi) as (s & Hs & Hl). pose proof (layout_no_nul t s Hl Hg) as Hz.
  destruct (root_parsed k 10 t s Hl Hg) as (r & d' & -> & Hp & He & Hc). exists d'. split; [|done]. unfold switch_xml_dup. rewrite Hs. cbn [mbind res_bind].
  unfold switch_xml_parse_str_dynamic, switch_xml_parse_str. rewrite bool_decide_eq_false_2 by done. change (switch_xml_str2utf8 ((60 :: r) ++ [10])) with (Ok ((60 :: r) ++ [10])).
  cbn [mbind res_bind]. rewrite last_snoc, length_app, Nat.add_sub, take_app_length, span_all by done. cbn [fst]. rewrite skip_none by done. by rewrite Hp.
Qed.

(** ** A document and its copy *)

Definition dup_ops : list tree_op :=
  [AddChild 0 (str "b") 0; AddChild 0 (str "c") 0; AddChild 2 (str "d") 0; SetTxt 1 (utf8_text (str "1 < 2 & " ++ [246; 0x20AC])); SetTxt 0 [10; 32];
   SetAttr 0 (str "x") (Some (utf8_text [34; 10; 38; 252])); SetAttr 3 (str "y") (Some [])].

Definition dup_tree : tree :=
  Tree (str "a") [(str "x", [34; 10; 38; 252])] [10; 32] [Tree (str "b") [] (str "1 < 2 & " ++ [246; 0x20AC]) []; Tree (str "c") [] [] [Tree (str "d") [(str "y", [])] [] []]].

Definition dup_doc : doc := match tree_run dup_ops (switch_xml_new (Some (str "a"))) with Ok d => d | _ => switch_xml_new None end.

Lemma dup_doc_tree : tree_at (d_nodes dup_doc) 0 dup_tree.
Proof.
  destruct (spec_run dup_ops (spec_new (str "a"))) as [f|] eqn:Hf; [|vm_compute in Hf; discriminate].
  destruct (run_denotes dup_ops _ _ f (denotes_new (str "a")) Hf) as (d & Hd & HD). assert (dup_doc = d) as Hdd by (unfold dup_doc; by rewrite Hd).
  assert (forall a t, (spec_run dup_ops (spec_new (str "a")) ≫= fun f => f !! a) = Some t -> tag_at (d_nodes dup_doc) a t) as Htag.
  { intros a t. rewrite Hf, Hdd. apply (dn_tags _ _ HD). }
  unfold tree_at, dup_tree. clear Hf Hd HD Hdd f d.
  repeat first [match goal with |- _ /\ _ => split end | exact I | progress cbn [all_stored e_addr t_kids]
    | rewrite stored_unfold; match goal with |- exists n E, ?h !! ?a = Some n /\ _ =>
        let n := eval vm_compute in (h !! a) in
        let t := eval vm_compute in (spec_run dup_ops (spec_new (str "a")) ≫= fun f => f !! a) in
        match n with Some ?n => match t with Some ?t =>
          let H := fresh in pose proof (Htag a t ltac:(vm_compute; reflexivity)) as H; destruct H as (? & _ & _ & _ & _ & _ & H);
          exists n, (t_kids t); split; [vm_compute; reflexivity|]; split; [reflexivity|]; split; [vm_compute; reflexivity|]; split; [vm_compute; reflexivity|]; split; [exact H|]
        end end end ].
Qed.

Lemma xml_dup_round_trip_witness : exists d', switch_xml_dup 4 0 dup_doc 0 = Ok (Some d') /\ d_err d' = None /\ copy_at (d_nodes d') 0 dup_tree.
Proof.
  apply (xml_dup_round_trip 4 0 dup_doc 0 dup_tree dup_doc_tree); [vm_compute; reflexivity|vm_compute; reflexivity|vm_compute; lia|intros n _ _; vm_compute; reflexivity].
Defined.

(** ** Where the printer and the parser go wrong *)

Definition reprinted (s : bytes) : res bytes :=
  r ← switch_xml_parse_str 0 s; match r with Some d => switch_xml_toxml (S (length s)) d 0 false | None => Fault end.

(** Text behind the last tag is printed in front of every tag that has no text
    in front of it: a length of 0 means the whole string to
    switch_xml_ampencode. *)
Theorem mixed_text_repeated : reprinted (str "<a><b/><c/>tail</a>") =
  Ok (str "<a>tail  <b></b>" ++ [10] ++ str "tail  <c></c>" ++ [10] ++ str "tail</a>" ++ [10]).
Proof. vm_compute. reflexivity. Qed.

(** A text that ends in a newline gets the indentation of its end tag. *)
Theorem leaf_newline_grows : reprinted (str "<r><a>x" ++ [10] ++ str "</a></r>") =
  Ok (str "<r>" ++ [10] ++ str "  <a>x" ++ [10] ++ str "  </a>" ++ [10] ++ str "</r>" ++ [10]).
Proof. vm_compute. reflexivity. Qed.

(** The longest character reference and its NUL need one byte more than the
    printer makes room for. *)
Theorem long_reference_overruns : exists d, tree_run [SetTxt 0 (replicate 1011 121 ++ utf8 0x10FFFF)] (switch_xml_new (Some (str "a"))) = Ok d /\
  switch_xml_toxml 1 d 0 false = Fault.
Proof. eexists. split; [reflexivity|]. vm_compute. reflexivity. Qed.

(** An instruction of a single question mark has the length -1, a byte order
    mark alone leaves no text, and a large character reference is shifted by a
    negative amount. *)
Theorem parser_faults : switch_xml_parse_str 0 (str "<?><a/>") = Fault /\ switch_xml_parse_str 0 [0xFE; 0xFF] = Fault /\
  switch_xml_parse_str 0 (str "<a>&#x40000000000;</a>") = Fault.
Proof. vm_compute. done. Qed.

(** The newlines behind a string are normalised with it when the string ends in a
    carriage return, but not when a newline was taken out of it: then the loop
    finds a second NUL.  A document type with pairs at all line ends, also at the
    end of a value, is read; carriage returns at the end of a value and of the
    text make the loop leave the text. *)
Theorem newline_overruns :
  newlines InText false [120; 13; 10] = ([120; 10], false) /\ newlines InText false [13; 10; 120; 13] = ([10; 120; 10], false) /\
  newlines InText false [120; 13] = ([120; 10], true) /\
  (r ← switch_xml_parse_str 0 (str "<!DOCTYPE a [" ++ [13; 10] ++ str "<!ENTITY x 'y" ++ [13; 10] ++ str "'>" ++ [13; 10] ++ str "]>" ++ [13; 10] ++ str "<a>&x;</a>" ++ [13; 10]);
   match r with Some d => n ← deref (d_nodes d) 0; Ok (d_err d, n_txt n) | None => Fault end) = Ok (None, [121; 10]) /\
  (r ← switch_xml_parse_str 0 (str "<a>x" ++ [13] ++ str "<?p q" ++ [13; 10] ++ str "r?></a>" ++ [10]);
   match r with Some d => Ok (d_pi d) | None => Fault end) = Ok [(str "p", [([113; 10; 114], 62)])] /\
  (r ← switch_xml_parse_str 0 (str "<a>x" ++ [13; 10] ++ str "<?p q" ++ [13; 10] ++ str "r?></a>" ++ [10]);
   match r with Some d => Ok (d_pi d) | None => Fault end) = Ok [(str "p", [([113; 13; 10; 114], 62)])] /\
  switch_xml_parse_str 0 (str "<a>x" ++ [13] ++ str "</a>" ++ [13; 10]) = Fault.
Proof. vm_compute. done. Qed.

(** The defaults of a tag are looked up under the last name that was read in
    place of the name of the tag, so that a second declaration for a tag makes a
    second entry, which is never found. *)
Theorem attlist_goes_astray :
  (r ← switch_xml_parse_str 0 (str "<!DOCTYPE a [<!ATTLIST a b CDATA 'x'><!ATTLIST a c CDATA 'y'>]><a></a>");
   match r with
   | Some d => b ← switch_xml_attr (d_attr d) (d_nodes d) (Some 0) (str "b"); c ← switch_xml_attr (d_attr d) (d_nodes d) (Some 0) (str "c"); Ok (d_attr d, b, c)
   | None => Fault
   end) =
  Ok ([(str "a", [(str "b", Some (str "x"), 32)]); (str "a", [(str "c", Some (str "y"), 32)])], Some (str "x"), None).
Proof. vm_compute. reflexivity. Qed.

(** ** Documents of arbitrary texts *)

(** A tag of a parsed document: the tags below it stand in the order in which
    they were read, behind the tag and inside of its text. *)
Definition tag_sound (h : heap) (a : Z) (n : node) : Prop :=
  (a <> 0 -> is_Some (n_name n)) /\ (forall p, n_parent n = Some p -> is_Some (h !! p)) /\
  exists E, kids h a E /\ Forall (fun e => e_off e <= zlen (n_txt n)) E /\ StronglySorted Z.lt (a :: (e_addr <$> E)).

Record sound (d : doc) : Prop := Sound {
  s_dom : forall a, is_Some (d_nodes d !! a) -> 0 <= a < d_brk d;
  s_root : exists n, d_nodes d !! 0 = Some n /\ (n_name n = None -> d_cur d = Some 0 /\ forall a, is_Some (d_nodes d !! a) -> a = 0);
  s_tags : forall a n, d_nodes d !! a = Some n -> tag_sound (d_nodes d) a n;
  s_cur : forall x, d_cur d = Some x -> is_Some (d_nodes d !! x) }.

(** What belongs to the document but not to the tree. *)
Definition same_tree (d d' : doc) : Prop := d_nodes d' = d_nodes d /\ d_brk d' = d_brk d /\ d_cur d' = d_cur d.

Lemma sound_same d d' : same_tree d d' -> sound d -> sound d'.
Proof. intros (H1 & H2 & H3) [Hd Hr Ht Hc]. split; rewrite ?H1, ?H2, ?H3; done. Qed.

Lemma sound_new : sound (switch_xml_new None).
Proof.
  unfold switch_xml_new. split; cbn [d_nodes d_brk d_cur].
  - intros a [n Ha]. apply lookup_singleton_Some in Ha as [<- _]. lia.
  - exists (root_node None). split; [apply lookup_singleton_eq|]. intros _. split; [done|]. intros a [n Ha]. apply lookup_singleton_Some in Ha as [<- _]. done.
  - intros a n Ha. apply lookup_singleton_Some in Ha as [<- <-]. split; [done|]. split; [done|]. exists []. split_and!; [|done|repeat constructor].
    by apply (kids_nil _ _ (root_node None)); [apply lookup_singleton_eq|].
  - intros x [= <-]. eexists. apply lookup_singleton_eq.
Qed.

(** Texts that grow and attributes that are set keep it. *)
Lemma sound_data d a n n' : sound d -> d_nodes d !! a = Some n -> ties n' = ties n -> zlen (n_txt n) <= zlen (n_txt n') ->
  sound (on_nodes (<[a := n']> (d_nodes d)) d).
Proof.
  intros [Hd (r & Hr0 & Hr) Ht Hc] Ha Hti Hl. assert (forall b, is_Some (<[a := n']> (d_nodes d) !! b) <-> is_Some (d_nodes d !! b)) as Hdom.
  { intros b. destruct (decide (a = b)) as [<-|Hab]; [rewrite lookup_insert_eq, Ha|rewrite lookup_insert_ne by done]; done. }
  assert (n_name n' = n_name n /\ n_parent n' = n_parent n) as [Hname Hpar] by (destruct n, n'; unfold ties in Hti; simpl in *; by injection Hti).
  split; cbn [on_nodes d_nodes d_brk d_cur].
  - intros b Hb. by apply Hd, Hdom.
  - destruct (decide (a = 0)) as [->|Ha0].
    + exists n'. rewrite lookup_insert_eq. split; [done|]. rewrite Hname. intros Hn. assert (r = n) as -> by congruence. destruct (Hr Hn) as [H1 H2].
      split; [done|]. intros b Hb. by apply H2, Hdom.
    + exists r. rewrite lookup_insert_ne by done. split; [done|]. intros Hn. destruct (Hr Hn) as [H1 H2]. split; [done|]. intros b Hb. by apply H2, Hdom.
  - intros b m Hb. assert (exists m0, d_nodes d !! b = Some m0 /\ n_name m = n_name m0 /\ n_parent m = n_parent m0 /\ zlen (n_txt m0) <= zlen (n_txt m)) as (m0 & Hb0 & H1 & H2 & H3).
    { destruct (decide (a = b)) as [<-|Hab]; [rewrite lookup_insert_eq in Hb; injection Hb as <-; by exists n|rewrite lookup_insert_ne in Hb by done; by exists m]. }
    destruct (Ht b m0 Hb0) as (Hnm & Hp & E & HK & Hoff & Hs). split; [by rewrite H1|]. split; [intros p; rewrite H2; intros Hpp; by apply Hdom, Hp|].
    exists E. split_and!; [by apply ties_step with n|apply (Forall_impl _ _ _ Hoff); intros e He; lia|done].
  - intros x Hx. by apply Hdom, Hc.
Qed.

Lemma sorted_snoc (a x : Z) (l : list Z) : StronglySorted Z.lt (a :: l) -> a < x -> (forall y, y ∈ l -> y < x) -> StronglySorted Z.lt (a :: l ++ [x]).
Proof.
  intros Hs Hax Hl. apply (StronglySorted_app_2 Z.lt (a :: l) [x]); [|done|repeat constructor]. intros y z Hy ->%list_elem_of_singleton.
  apply elem_of_cons in Hy as [->|Hy]; auto.
Qed.

(** A tag below another one. *)
Lemma sound_add d p np name : sound d -> d_nodes d !! p = Some np -> is_Some (n_name np) ->
  exists d', switch_xml_add_child p name (zlen (n_txt np)) d = Ok (d', d_brk d) /\ sound (with_cur (Some (d_brk d)) d') /\ d_err d' = d_err d.
Proof.
  intros [Hd (r & Hr0 & Hr) Ht Hc] Hp Hnp. set (x := d_brk d). set (off := zlen (n_txt np)).
  assert (d_nodes d !! x = None) as Hx by (destruct (d_nodes d !! x) eqn:Hx; [|done]; pose proof (Hd x ltac:(by rewrite Hx)); unfold x in *; lia).
  pose proof (Hd p ltac:(by rewrite Hp)) as Hpr. destruct (Ht p np Hp) as (_ & _ & E & HK & Hoff & Hs).
  unfold switch_xml_add_child. fold x off (new_tag p name off).
  destruct (add_child_heap (d_nodes d) p E x name off HK Hx) as (h' & -> & HKp & HKx & HKo & Hl & _ & _). cbn [mbind res_bind]. eexists. split; [reflexivity|]. split; [|done].
  assert (forall b, is_Some (h' !! b) <-> b = x \/ is_Some (d_nodes d !! b)) as Hdom.
  { intros b. specialize (Hl b). destruct (decide (b = x)) as [->|Hbx]; [rewrite lookup_insert_eq in Hl; destruct (h' !! x); [|done]; split; [by left|done]|].
    rewrite lookup_insert_ne in Hl by done. destruct (h' !! b), (d_nodes d !! b); try done; (split; [by right|intros [?|?]; done]). }
  assert (forall b m, h' !! b = Some m -> exists m0, <[x := new_tag p name off]> (d_nodes d) !! b = Some m0 /\ n_name m = n_name m0 /\ n_txt m = n_txt m0 /\ n_parent m = n_parent m0) as Hback.
  { intros b m Hb. pose proof (Hl b) as Hlb. rewrite Hb in Hlb. destruct (<[x := new_tag p name off]> (d_nodes d) !! b) as [m0|] eqn:Hm0; [|done].
    destruct (like_body_data _ _ b m0 Hl Hm0) as (m' & Hm' & H1 & _ & H3 & _ & H5). assert (m' = m) as -> by congruence. by exists m0. }
  rewrite place_last in HKp by done. split; cbn [with_cur d_nodes d_brk d_cur].
  - intros b [->|Hb]%Hdom; [unfold x; lia|]. specialize (Hd b Hb). unfold x. lia.
  - destruct (h' !! 0) as [m|] eqn:Hm; [|exfalso; assert (is_Some (h' !! 0)) as [? ?] by (apply Hdom; right; by rewrite Hr0); congruence].
    exists m. split; [done|]. intros Hn. exfalso. destruct (Hback 0 m Hm) as (m0 & Hm0 & H1 & _). rewrite lookup_insert_ne in Hm0 by (unfold x; lia).
    assert (m0 = r) as -> by congruence. rewrite H1 in Hn. destruct (Hr Hn) as [_ H2]. assert (p = 0) as -> by (apply H2; by rewrite Hp).
    assert (np = r) as -> by congruence. rewrite Hn in Hnp. by destruct Hnp.
  - intros b m Hb. destruct (Hback b m Hb) as (m0 & Hm0 & H1 & H3 & H5). unfold tag_sound. rewrite H1, H3, H5.
    destruct (decide (b = x)) as [->|Hbx].
    + rewrite lookup_insert_eq in Hm0. injection Hm0 as <-. split; [done|]. split; [intros q [= <-]; apply Hdom; right; by rewrite Hp|]. exists []. split_and!; [done|done|repeat constructor].
    + rewrite lookup_insert_ne in Hm0 by done. destruct (Ht b m0 Hm0) as (Hnm & Hpp & E' & HK' & Hoff' & Hs'). split; [done|].
      split; [intros q Hq; apply Hdom; right; by apply Hpp|]. destruct (decide (b = p)) as [->|Hbp]; [|exists E'; split_and!; [by apply HKo|done|done]].
      assert (m0 = np) as -> by congruence. exists (E ++ [Entry x name off]). split_and!; [done|apply Forall_app; split; [done|by apply Forall_singleton]|].
      rewrite fmap_app. apply (sorted_snoc p x); [done|unfold x; lia|]. intros y (e & -> & He)%list_elem_of_fmap. destruct (k_nodes _ _ _ HK e He) as (ne & Hne & _).
      apply Hd. by rewrite Hne.
  - intros y [= <-]. apply Hdom. by left.
Qed.

(** What a result is, if there is one. *)
Definition yields {A} (P : A -> Prop) (r : res A) : Prop := match r with Ok a => P a | _ => True end.

Lemma yields_bind {A B} (P : A -> Prop) (Q : B -> Prop) (r : res A) (f : A -> res B) : yields P r -> (forall a, P a -> yields Q (f a)) -> yields Q (r ≫= f).
Proof. destruct r; cbn; auto. Qed.

Lemma yields_any {A B} (Q : B -> Prop) (r : res A) (f : A -> res B) : (forall a, yields Q (f a)) -> yields Q (r ≫= f).
Proof. destruct r; cbn; auto. Qed.

(** The document type changes nothing of the tree. *)
Definition dtd_keeps (d : doc) (st : dtd) : Prop := same_tree d (t_doc st).

Lemma same_refl d : same_tree d d.
Proof. done. Qed.

Lemma same_trans d1 d2 d3 : same_tree d1 d2 -> same_tree d2 d3 -> same_tree d1 d3.
Proof. unfold same_tree. intuition congruence. Qed.

Ltac yields := repeat first [done | apply yields_any; intros ? | case_match].

Lemma proc_inst_keeps s d : yields (same_tree d) (switch_xml_proc_inst s d).
Proof. unfold switch_xml_proc_inst. yields. Qed.

Lemma declare_entity_keeps k s st : yields (dtd_keeps (t_doc st)) (declare_entity k s st).
Proof. unfold declare_entity. yields. Qed.

Lemma attlist_keeps k i tag d : forall f s st, dtd_keeps d st -> yields (dtd_keeps d) (attlist_loop f k i tag s st).
Proof.
  induction f as [|f IH]; intros s st Hd; [done|]. cbn [attlist_loop]. repeat first [done | apply IH; done | apply yields_any; intros ? | case_match].
Qed.

Lemma declare_attlist_keeps k s st : yields (dtd_keeps (t_doc st)) (declare_attlist k s st).
Proof.
  unfold declare_attlist. repeat first [done | apply attlist_keeps; done | case_match].
Qed.

Lemma dtd_loop_keeps k d : forall f st, dtd_keeps d st -> yields (dtd_keeps d) (dtd_loop f k st).
Proof.
  induction f as [|f IH]; intros st Hd; cbn [dtd_loop]; destruct (t_rest st) as [s|]; try done. destruct (skip _ s) as [|c s']; [done|]. cbv zeta.
  assert (forall r, yields (dtd_keeps (t_doc st)) r -> yields (dtd_keeps d) (st0 ← r; if t_stop st0 then Ok st0 else dtd_loop f k st0)) as Hdecl.
  { intros r Hr. apply (yields_bind _ _ _ _ Hr). intros st' Hst'. assert (dtd_keeps d st') as Hk by (by apply (same_trans _ (t_doc st))). case_match; [done|by apply IH]. }
  case_match; [apply Hdecl, declare_entity_keeps|]. case_match; [apply Hdecl, declare_attlist_keeps|]. case_match; [by apply IH|].
  case_match.
  - case_match; [|by apply IH]. apply (yields_bind _ _ _ _ (proc_inst_keeps _ _)). intros d' Hd'. apply IH. by apply (same_trans _ (t_doc st)).
  - repeat first [done | by apply IH | case_match].
Qed.

Lemma internal_dtd_keeps k s d : yields (fun '(d', ok, _) => same_tree d d' /\ (ok = false -> d_err d' <> None)) (switch_xml_internal_dtd k s d).
Proof.
  unfold switch_xml_internal_dtd. apply (yields_bind (dtd_keeps d)); [by apply dtd_loop_keeps|]. intros st Hst. split; [done|]. by intros ?%bool_decide_eq_false.
Qed.

(** Tags that are opened, filled and closed keep the document sound. *)
Lemma open_sound name attr d : sound d -> exists d', switch_xml_open_tag name attr d = Ok d' /\ sound d' /\ d_err d' = d_err d.
Proof.
  intros Hs. unfold switch_xml_open_tag. destruct (d_cur d) as [x|] eqn:Hcur; [|by exists d]. destruct (s_cur _ Hs x Hcur) as [n Hn].
  rewrite (deref_some _ _ _ Hn). cbn [mbind res_bind]. destruct (n_name n) as [m|] eqn:Hname.
  - destruct (sound_add d x n name Hs Hn ltac:(by rewrite Hname)) as (d' & -> & Hs' & He). cbn [mbind res_bind].
    destruct (s_cur _ Hs' (d_brk d) eq_refl) as [nx Hnx]. cbn [with_cur d_nodes] in Hnx. rewrite (upd_some _ _ _ _ Hnx). cbn [mbind res_bind]. eexists. split; [reflexivity|].
    split; [|done]. exact (sound_data (with_cur (Some (d_brk d)) d') (d_brk d) nx (with_attr attr nx) Hs' Hnx eq_refl ltac:(done)).
  - assert (x = 0) as -> by (destruct (decide (x = 0)); [done|]; destruct (s_tags _ Hs x n Hn) as (Hx & _); specialize (Hx ltac:(done)); rewrite Hname in Hx; by destruct Hx).
    rewrite (upd_some _ _ _ _ Hn). cbn [mbind res_bind on_nodes d_nodes]. rewrite (upd_some _ _ (with_name (Some name) n)) by apply lookup_insert_eq. cbn [mbind res_bind].
    eexists. split; [reflexivity|]. split; [|done]. destruct Hs as [Hd (r & Hr0 & Hr) Ht Hc]. assert (r = n) as -> by congruence. destruct (Hr Hname) as [_ Honly].
    destruct (Ht 0 n Hn) as (_ & Hp & E & HK & _). assert (E = []) as ->.
    { destruct E as [|e E]; [done|]. exfalso. destruct (k_nodes _ _ _ HK e ltac:(set_solver)) as (ne & Hne & _). assert (e_addr e = 0) as He0 by (apply Honly; by rewrite Hne).
      apply (k_apart _ _ _ HK). rewrite <-He0. set_solver. }
    assert (n_child n = None) as Hch. { destruct (k_lists _ _ _ HK) as (c & S & Hc0 & Ho & _). unfold link in Hc0. rewrite Hn in Hc0. injection Hc0 as ->. done. }
    rewrite insert_insert_eq. assert (forall b, is_Some (<[0 := with_attr attr (with_name (Some name) n)]> (d_nodes d) !! b) <-> is_Some (d_nodes d !! b)) as Hdom.
    { intros b. destruct (decide (b = 0)) as [->|]; [by rewrite lookup_insert_eq, Hn|by rewrite lookup_insert_ne]. }
    split; cbn [with_cur on_nodes d_nodes d_cur d_brk].
    + intros b Hb. by apply Hd, Hdom.
    + eexists. split; [apply lookup_insert_eq|done].
    + intros b m Hb. assert (b = 0) as -> by (apply Honly, Hdom; by rewrite Hb). rewrite lookup_insert_eq in Hb. injection Hb as <-. split; [done|].
      split; [intros p Hpp; by apply Hdom, Hp|]. exists []. split_and!; [|done|repeat constructor]. by apply (kids_nil _ _ (with_attr attr (with_name (Some name) n))); [apply lookup_insert_eq|].
    + intros y [= <-]. by apply Hdom.
Qed.

Lemma close_sound name d : sound d -> exists d' ok, switch_xml_close_tag name d = Ok (d', ok) /\ sound d' /\ (ok = false -> d_err d' <> None).
Proof.
  intros Hs. unfold switch_xml_close_tag. destruct (d_cur d) as [x|] eqn:Hcur; [|eexists _, _; split; [reflexivity|]; split; [by apply (sound_same d)|done]].
  destruct (s_cur _ Hs x Hcur) as [n Hn]. rewrite (deref_some _ _ _ Hn). cbn [mbind res_bind]. destruct (decide (n_name n = Some name)) as [Hname|Hname].
  - rewrite bool_decide_eq_true_2 by done. eexists _, _. split; [reflexivity|]. split; [|done]. destruct Hs as [Hd (r & Hr0 & Hr) Ht Hc]. split; cbn [with_cur d_nodes d_cur d_brk]; [done| |done|].
    + exists r. split; [done|]. intros Hrn. destruct (Hr Hrn) as [Hc0 _]. rewrite Hcur in Hc0. injection Hc0 as ->. congruence.
    + intros p Hp. destruct (Ht x n Hn) as (_ & Hpar & _). by apply Hpar.
  - rewrite bool_decide_eq_false_2 by done. eexists _, _. split; [reflexivity|]. split; [by apply (sound_same d)|done].
Qed.

Lemma content_sound k s t d : sound d -> yields (fun '(d', _) => sound d') (switch_xml_char_content k s t d).
Proof.
  intros Hs. unfold switch_xml_char_content. destruct (d_cur d) as [x|] eqn:Hcur; [|done]. destruct (s_cur _ Hs x Hcur) as [n Hn]. rewrite (deref_some _ _ _ Hn). cbn [mbind res_bind].
  case_match; [done|]. apply yields_any. intros [r over]. rewrite (upd_some _ _ _ _ Hn). cbn [mbind res_bind yields]. apply (sound_data d x n); [done|done|done|].
  cbn [with_txt n_txt]. rewrite zlen_app. pose proof (zlen_nonneg r). lia.
Qed.

(** A construct either ends the parser with an error or leaves a sound
    document. *)
Definition step_sound (r : doc + doc * bytes) : Prop := match r with inl d => sound d /\ d_err d <> None | inr (d, _) => sound d end.

Lemma fail_sound e d : sound d -> step_sound (inl (fail e d)).
Proof. intros Hs. split; [by apply (sound_same d)|done]. Qed.

Lemma tag_step k e s d : sound d -> yields step_sound (parse_tag k e s d).
Proof.
  intros Hs. unfold parse_tag. case_match; [by apply fail_sound|]. case_match. cbv zeta. apply yields_any. intros [q|[attr s3]]; [by apply fail_sound|].
  destruct (open_sound l attr d Hs) as (d1 & Ho & Hs1 & _). rewrite Ho. destruct (close_sound l d1 Hs1) as (d2 & ok & Hc & Hs2 & _). cbn [mbind res_bind]. rewrite Hc.
  repeat first [done | by apply fail_sound | case_match].
Qed.

Lemma markup_step k e s d : sound d -> yields step_sound (parse_markup k e s d).
Proof.
  intros Hs. unfold parse_markup. generalize (match s with c :: _ => c | [] => 0 end). intros c. cbv zeta. case_match; [by apply tag_step|]. case_match.
  { unfold parse_close. destruct (span _ (drop 1 s)) as [l s1]. destruct (bool_decide (s1 = []) && negb (e =? 62)); [by apply fail_sound|]. destruct (close_sound l d Hs) as (d1 & ok & -> & Hs1 & He). cbn [mbind res_bind].
    destruct ok; [done|]. split; [done|by apply He]. }
  case_match; [unfold parse_comment; repeat first [done | by apply fail_sound | case_match]|].
  case_match.
  { unfold parse_cdata. case_match; [|by apply fail_sound]. apply (yields_bind _ _ _ _ (content_sound _ _ _ _ Hs)). intros [d1 o] Hs1. apply yields_any. by intros r. }
  case_match.
  { unfold parse_doctype. apply yields_any. intros [l r]. case_match; [by apply fail_sound|]. destruct l; [|done].
    apply (yields_bind _ _ _ _ (internal_dtd_keeps _ _ _)). intros [[d1 ok] o] [Hd1 He]. apply yields_any. intros r'. destruct ok; [by apply (sound_same d)|]. split; [by apply (sound_same d)|by apply He]. }
  case_match; [|by apply fail_sound]. unfold parse_pi. case_match; [|by apply fail_sound]. case_match; [by apply fail_sound|]. case_match; [done|].
  apply (yields_bind _ _ _ _ (proc_inst_keeps _ _)). intros d1 Hd1. by apply (sound_same d).
Qed.

(** A document without an error is closed. *)
Definition read_sound (d : doc) : Prop := sound d /\ (d_err d = None -> d_cur d = None).

Lemma finish_sound d : sound d -> yields read_sound (finish d).
Proof.
  intros Hs. unfold finish. destruct (d_cur d) as [x|] eqn:Hcur; [|by split]. apply yields_any. intros n. split; [by apply (sound_same d)|done].
Qed.

Lemma parse_loop_sound k e f : forall s d, sound d -> yields read_sound (parse_loop f k e s d).
Proof.
  induction f as [|f IH]; intros s d Hs; [done|]. rewrite parse_loop_eq. apply (yields_bind _ _ _ _ (markup_step k e s d Hs)). intros [d1|[d1 s1]] H1.
  - destruct H1. by split.
  - unfold resume. destruct (drop 1 s1) as [|c s2]; [by apply finish_sound|]. case_match; [by apply IH|]. case_match. destruct l0; [by apply finish_sound|].
    apply (yields_bind _ _ _ _ (content_sound _ _ _ _ H1)). intros [d2 o] H2. apply yields_any. intros r. by apply IH.
Qed.

(** Printing goes along the list of all tags and into every tag; both lead to
    larger addresses. *)
Lemma ordered_above d a n : sound d -> d_nodes d !! a = Some n ->
  (forall c, n_child n = Some c -> a < c /\ is_Some (d_nodes d !! c)).
Proof.
  intros Hs Ha c Hc. destruct (s_tags _ Hs a n Ha) as (_ & _ & E & HK & _ & Hso). destruct (k_lists _ _ _ HK) as (c' & S & Hc' & Ho & _).
  unfold link in Hc'. rewrite Ha in Hc'. injection Hc' as Hc'. rewrite Hc in Hc'. subst c'. destruct E as [|x E]; [done|]. destruct Ho as ([= ->] & _).
  split; [by apply StronglySorted_cons in Hso as [[? _]%Forall_cons _]|]. destruct (k_nodes _ _ _ HK x ltac:(set_solver)) as (nx & Hnx & _). by rewrite Hnx.
Qed.

(** The tags from one on to the end of its list. *)
Definition tail_of (h : heap) (a : Z) (l : list Z) : Prop := chain n_ordered h (Some a) (a :: l) /\ StronglySorted Z.lt (a :: l).

Lemma ampencode_runs s len b a : runs (switch_xml_ampencode s len b a).
Proof.
  unfold switch_xml_ampencode. destruct s as [|c s]; [runs|]. generalize (if len =? 0 then -1 else len). generalize (Amp false 0 0). revert b. generalize (c :: s).
  intros l. induction l as [|x l IH]; intros b st e; cbn [amp_loop]; [runs|]. case_match; [runs|]. apply runs_bind; [|intros [st' b'] _; apply IH].
  unfold amp_char, amp_plain, put_char, put. runs.
Qed.

Lemma put_attr_runs count n name v b : runs (put_attr count n name v b).
Proof. unfold put_attr, put. apply runs_bind; [runs|]. intros b1 _. apply runs_bind; [apply ampencode_runs|]. intros b2 _. runs. Qed.

Lemma put_open_runs ds n name count b : runs (put_open ds n name count b).
Proof.
  unfold put_open. do 3 (apply runs_bind; [unfold put; runs|intros ? _]).
  apply runs_bind.
  { generalize (n_attr n) at 1. generalize O. generalize a1. intros b' i all. revert i b'. induction (n_attr n) as [|[m v] l IH]; intros i b'; cbn [put_attrs]; [runs|].
    apply runs_bind; [case_match; [apply put_attr_runs|runs]|]. intros b2 _. apply IH. }
  intros b1 _. apply runs_bind; [|intros ? _; unfold put; runs].
  revert b1. generalize (@nil (bytes * option bytes * Z)) at 1. induction (default [] (default_entry ds (Some name))) as [|[[m v] c] l IH]; intros seen b1; cbn [put_defaults]; [runs|].
  apply runs_bind; [repeat case_match; try apply put_attr_runs; runs|]. intros b2 _. apply IH.
Qed.

Lemma put_close_runs name count b : runs (put_close name count b).
Proof. unfold put_close, put. runs. Qed.

Lemma toxml_runs d ds : sound d -> forall f a start count isroot b l, is_Some (d_nodes d !! a) -> (isroot = false -> tail_of (d_nodes d) a l) ->
  d_brk d - a <= Z.of_nat f -> runs (switch_xml_toxml_r f ds (d_nodes d) a start count isroot b).
Proof.
  intros Hs. induction f as [|f IH]; intros a start count isroot b l [n Hn] Htl Hf.
  { pose proof (s_dom _ Hs a ltac:(by rewrite Hn)). lia. }
  rewrite toxml_eq, (deref_some _ _ _ Hn). cbn [mbind res_bind]. apply runs_bind; [unfold deref; runs|]. intros txt _.
  apply runs_bind; [apply ampencode_runs|]. intros b1 _. case_match; [|runs]. apply runs_bind; [apply put_open_runs|]. intros b2 _.
  apply runs_bind.
  - destruct (n_child n) as [c|] eqn:Hc; [|apply runs_bind; [apply ampencode_runs|runs]]. destruct (ordered_above d a n Hs Hn c Hc) as [Hac Hsc].
    destruct (s_tags _ Hs a n Hn) as (_ & _ & E & HK & _ & Hso). destruct (k_lists _ _ _ HK) as (c' & S & Hc' & Ho & _).
    unfold link in Hc'. rewrite Hn in Hc'. injection Hc' as Hc'. rewrite Hc in Hc'. subst c'. destruct E as [|x E]; [done|]. pose proof Ho as ([= Hcx] & _). rewrite Hcx in *.
    apply (IH _ _ _ _ _ (e_addr <$> E)); [done| |lia]. intros _. split; [done|]. by apply StronglySorted_cons in Hso as [_ Hso].
  - intros [b3 count'] _. apply runs_bind; [apply put_close_runs|]. intros b4 _. cbv zeta.
    destruct (n_ordered n) as [o|] eqn:Ho; [|apply runs_bind; [apply ampencode_runs|runs]]. destruct isroot; [apply runs_bind; [apply ampencode_runs|runs]|].
    destruct (Htl eq_refl) as [Hch Hso]. cbn [seg] in Hch. destruct Hch as (_ & r & Hr & Hch). unfold link in Hr. rewrite Hn in Hr. injection Hr as Hr. rewrite Ho in Hr. subst r.
    destruct l as [|y l]; [done|]. pose proof Hch as ([= <-] & _). apply StronglySorted_cons in Hso as [[Hay _]%Forall_cons Hso].
    apply (IH _ _ _ _ _ l); [|by intros _; split|lia]. apply (chain_elem n_ordered _ (o :: l) (Some o)); [done|set_solver].
Qed.

Lemma put_instructions_runs m front l : forall b, runs (put_instructions m front l b).
Proof.
  induction l as [|[target ins] l IH]; intros b; cbn [put_instructions]; [runs|]. apply runs_bind; [|intros b1 _; apply IH].
  assert (runs (Ok b)) as Hb by done. revert Hb. generalize (Ok b). induction ins as [|[i mark] ins IHi]; intros r Hr; cbn [foldl]; [done|]. apply IHi.
  apply runs_bind; [done|]. intros b1 _. unfold put_instruction, put. runs.
Qed.

(** C32: Whatever text is parsed, the document is a tree that can be used.  When
    the parser returns a document, with an error or without, and no access has
    left its string on the way ([Fault]: a byte order mark alone, a processing
    instruction of one question mark, a character reference to NUL or from 2^42
    on, newlines normalised over the end of the text, a value declared as other
    than CDATA that is trimmed and does not end in a blank, a declaration that
    runs over the end of the document type, or a list of defaults that is searched
    before a name was read), the tags below every tag are on its three lists as they should be, so that looking for the n-th tag
    of a name gives the n-th one, without a fault and without an end that is not
    reached; every tag but the root has a name; printing any of its tags ends; and
    a document without an error has been closed. *)
Theorem parsed_document_sound (k : nat) (s : bytes) (d : doc) : switch_xml_parse_str k s = Ok (Some d) ->
  (d_err d = None -> d_cur d = None) /\
  (forall a n, d_nodes d !! a = Some n -> 0 <= a < d_brk d /\ (a <> 0 -> is_Some (n_name n)) /\ exists E, kids (d_nodes d) a E /\
     forall m i, 0 <= i -> (c ← switch_xml_child (d_nodes d) (Some a) m; switch_xml_idx (d_nodes d) c i) = Ok ((e_addr <$> only m E) !! Z.to_nat i)) /\
  (forall a f hdr, is_Some (d_nodes d !! a) -> d_brk d <= Z.of_nat f -> switch_xml_toxml f d a hdr <> NoFuel).
Proof.
  intros Hp. assert (read_sound d) as [Hs Hc].
  { revert Hp. unfold switch_xml_parse_str. case_match; [done|]. destruct (switch_xml_str2utf8 s) as [u| |]; [|done|done]. cbn [mbind res_bind].
    destruct (last u) as [e|]; [|done]. destruct (skip _ _) as [|c r]; [intros [= <-]; split; [by apply (sound_same (switch_xml_new None)); [|apply sound_new]|done]|].
    pose proof (parse_loop_sound k e (S (length r)) r _ sound_new) as Hy. destruct (parse_loop _ _ _ _ _) as [d1| |]; [|done|done]. by intros [= <-]. }
  split_and!; [done| |].
  - intros a n Ha. split; [apply (s_dom _ Hs); by rewrite Ha|]. destruct (s_tags _ Hs a n Ha) as (Hn & _ & E & HK & _). split; [done|]. exists E. split; [done|].
    intros m i Hi. by apply nth_child_spec.
  - intros a f hdr Ha Hf. change (runs (switch_xml_toxml f d a hdr)). unfold switch_xml_toxml, switch_xml_toxml_buf. apply runs_bind; [unfold put; runs|]. intros b _.
    apply runs_bind; [unfold deref; runs|]. intros n _. case_match; [|runs]. cbv zeta. apply runs_bind; [apply put_instructions_runs|]. intros b1 _.
    apply runs_bind; [|intros [b2 ?] _; apply runs_bind; [apply put_instructions_runs|runs]].
    apply (toxml_runs d (d_attr d) Hs f a 0 0 true b1 []); [done|done|]. pose proof (s_dom _ Hs a Ha). lia.
Qed.

(** A text with an error in it: what was read up to there. *)
Definition broken_text : bytes := str "<a x='1'><b/>text<b>&lt;</b><c></a>".

Lemma parsed_document_sound_witness : exists d, switch_xml_parse_str 0 broken_text = Ok (Some d) /\ d_err d = Some (UnexpectedClosing (str "a")) /\
  (exists E, kids (d_nodes d) 0 E /\ (c ← switch_xml_child (d_nodes d) (Some 0) (str "b"); switch_xml_idx (d_nodes d) c 1) = Ok ((e_addr <$> only (str "b") E) !! 1%nat)) /\
  (c ← switch_xml_child (d_nodes d) (Some 0) (str "b"); switch_xml_idx (d_nodes d) c 1) = Ok (Some 2) /\ switch_xml_toxml 9 d 0 false <> NoFuel.
Proof.
  destruct (switch_xml_parse_str 0 broken_text) as [[d|]| |] eqn:Hd; [|vm_compute in Hd; discriminate..]. exists d. split; [done|].
  destruct (parsed_document_sound 0 broken_text d Hd) as (_ & Hall & Hend).
  assert (Ok (Some d) = switch_xml_parse_str 0 broken_text) as E by done. vm_compute in E. injection E as ->.
  split; [reflexivity|]. split; [|split].
  - destruct (Hall 0 _ ltac:(vm_compute; reflexivity)) as (_ & _ & E & HK & Hget). exists E. split; [done|]. apply (Hget (str "b") 1). lia.
  - vm_compute. reflexivity.
  - apply Hend; vm_compute; [by eexists|done].
Defined.

(** ** The parser ends *)

(** The text does not have [w] anywhere. *)
Fixpoint lacks (w s : bytes) : bool := negb (starts w s) && match s with [] => true | _ :: s => lacks w s end.

(** [s'] is what is left of [s], perhaps with its newlines normalised. *)
Definition DOCTYPE : bytes := str "!DOCTYPE".
Definition behind (s' s : bytes) : Prop := (length s' <= length s)%nat /\ (lacks DOCTYPE s = true -> lacks DOCTYPE s' = true).

Lemma behind_refl s : behind s s.
Proof. done. Qed.

Lemma behind_trans s1 s2 s3 : behind s1 s2 -> behind s2 s3 -> behind s1 s3.
Proof. intros [H1 H2] [H3 H4]. split; [lia|auto]. Qed.

Lemma behind_app a s : behind s (a ++ s).
Proof.
  induction a as [|c a IH]; [done|]. apply (behind_trans _ (a ++ s)); [done|]. split; [simpl; lia|]. cbn [lacks app]. by intros [_ ?]%andb_prop.
Qed.

Lemma behind_drop n s : behind (drop n s) s.
Proof. rewrite <-(take_drop n s) at 2. apply behind_app. Qed.

Lemma behind_zdrop n s : behind (zdrop n s) s.
Proof. apply behind_drop. Qed.

Lemma span_app p s a b : span p s = (a, b) -> s = a ++ b.
Proof.
  revert a. induction s as [|c s IH]; intros a; cbn [span]; [by intros [= <- <-]|]. destruct (p c); [|by intros [= <- <-]].
  destruct (span p s) as [x y]. intros [= <- <-]. cbn [app]. f_equal. by apply IH.
Qed.

Lemma behind_span p s a b : span p s = (a, b) -> behind b s.
Proof. intros ->%span_app. apply behind_app. Qed.

Lemma behind_skip p s : behind (skip p s) s.
Proof. unfold skip. destruct (span p s) as [a b] eqn:Hs. by apply (behind_span _ _ _ _ Hs). Qed.

Lemma starts_app w s : starts w s = true -> exists r, s = w ++ r.
Proof. unfold starts, streq. intros H%bool_decide_eq_true. exists (drop (length w) s). rewrite <-H at 1. by rewrite take_drop. Qed.

Lemma app_starts w r : starts w (w ++ r) = true.
Proof. unfold starts, streq. rewrite take_app_length. by apply bool_decide_eq_true. Qed.

(** Normalising newlines makes no new words. *)
Lemma newlines_starts w cut s : forallb (fun c => negb (c =? 10)) w = true -> starts w (newlines InText cut s).1 = true -> starts w s = true.
Proof.
  intros Hw Hst. apply starts_app in Hst as (r & Hr). revert s r Hr Hw. induction w as [|c w IH]; intros s r Hr Hw; [done|]. cbn [forallb] in Hw. apply andb_prop in Hw as [Hc Hw].
  destruct s as [|x s]; [done|]. cbn [newlines] in Hr. destruct (Z.eqb_spec x 13) as [->|Hx].
  - destruct (newlines BehindCr cut s) as [y o]. injection Hr as Hxc _. subst c. done.
  - destruct (newlines InText cut s) as [y o] eqn:Hy. injection Hr as -> Hr. destruct (starts_app w s) as (q & ->); [apply (IH s r); [by rewrite Hy|done]|]. apply (app_starts (c :: w)).
Qed.

Lemma newlines_length s : forall st cut, (length (newlines st cut s).1 <= length s)%nat.
Proof.
  induction s as [|c s IH]; intros st cut; cbn [newlines]; [simpl; lia|].
  pose proof (IH InText cut). pose proof (IH BehindCr cut). pose proof (IH InText true). destruct (newlines InText cut s), (newlines BehindCr cut s). simpl in *.
  repeat case_match; simpl; lia.
Qed.

Lemma newlines_lacks s : forall st cut, lacks DOCTYPE s = true -> lacks DOCTYPE (newlines st cut s).1 = true.
Proof.
  induction s as [|c s IH]; intros st cut; cbn [newlines lacks]; [done|]. intros [Hst Hl]%andb_prop. pose proof (newlines_starts DOCTYPE cut (c :: s) ltac:(done)) as Hns. cbn [newlines] in Hns.
  assert (starts DOCTYPE (c :: s) = false) as Hf by (by apply negb_true_iff). rewrite Hf in Hns. clear Hst Hf.
  destruct (c =? 13) eqn:Hc; [specialize (IH BehindCr cut Hl); destruct (newlines BehindCr cut s); done|].
  pose proof (IH InText cut Hl) as IHt. destruct (newlines InText cut s) as [r o]. cbn [fst lacks] in *.
  assert (starts DOCTYPE (c :: r) = false) as Hst by (destruct (starts DOCTYPE (c :: r)); [by discriminate Hns|done]).
  destruct st; [|destruct (c =? 10); [by apply IH|]]; cbn [fst lacks]; by rewrite Hst, IHt.
Qed.

Lemma go_on_runs o s : runs (go_on o s).
Proof. unfold go_on. repeat case_match; done. Qed.

Lemma behind_go_on o s : yields (fun s' => behind s' s) (go_on o s).
Proof.
  unfold go_on. destruct o; [|done]. pose proof (newlines_length s InText false) as Hn. pose proof (newlines_lacks s InText false) as Hl.
  destruct (newlines InText false s) as [r o]. by destruct o.
Qed.

Lemma runs_fmap {A B} (f : A -> B) (r : res A) : runs r -> runs (f <$> r).
Proof. by destruct r. Qed.

Lemma number_length base s : forall acc, (length (number base s acc).2 <= length s)%nat.
Proof. induction s as [|c s IH]; intros acc; cbn [number]; [done|]. destruct (digit_of base c); [|done]. specialize (IH (acc * base + z)). simpl. lia. Qed.

Lemma skip_space_length s : (length (skip_space s) <= length s)%nat.
Proof. induction s as [|c s IH]; cbn [skip_space]; [done|]. case_match; simpl; lia. Qed.

Lemma strtol_length base s : (length (strtol_at base s).2 <= length s)%nat.
Proof.
  unfold strtol_at. pose proof (skip_space_length s) as H1. set (s1 := skip_space s) in *. clearbody s1.
  destruct (match s1 with 45 :: r => (true, r) | 43 :: r => (false, r) | _ => (false, s1) end) as [neg s2] eqn:Hs2.
  assert (length s2 <= length s1)%nat as H2 by (repeat case_match; simplify_eq; simpl; lia). clear Hs2.
  set (s3 := match s2 with 48 :: x :: c :: r => _ | _ => s2 end).
  assert (length s3 <= length s2)%nat as H3 by (unfold s3; repeat case_match; simplify_eq; simpl; lia). clearbody s3.
  destruct s3 as [|c s3]; [done|]. case_match; [|done]. pose proof (number_length base (c :: s3) 0) as H4. destruct (number base (c :: s3) 0). simpl in *. lia.
Qed.

Lemma reference_length s v r : reference s = Some (v, r) -> (length r < length s)%nat.
Proof.
  unfold reference. assert (forall x, (length (ref_number x).2 <= length x)%nat) as Hl.
  { intros [|c x]; [done|]. unfold ref_number. repeat case_match; first [apply strtol_length | etransitivity; [apply strtol_length|simpl; lia]]. }
  specialize (Hl (drop 2 s)). destruct (ref_number (drop 2 s)) as [w e]. cbn [snd] in Hl. rewrite length_drop in Hl.
  intros Hr. destruct e as [|x e]; [done|]. assert (r = e) as -> by (repeat (case_match; try done); by simplify_eq). simpl in Hl. lia.
Qed.

Lemma character_runs c : runs (character c).
Proof. unfold character, utf8_long. runs. Qed.

(** An entity is replaced by a character reference, which is replaced at once. *)
Lemma entity_step k a s v : find_entity default_ent s = Some v ->
  exists c r, (length r < length s)%nat /\ decode_loop (S (S k)) default_ent (kind a) (38 :: s) = app (utf8 c) <$> decode_loop k default_ent (kind a) r.
Proof.
  unfold find_entity. destruct (list_find _ default_ent) as [[i [name w]]|] eqn:Hf; [|done]. intros _. apply list_find_Some in Hf as (Hi & Hst & _).
  destruct (starts_app _ _ Hst) as (r & ->). apply list_elem_of_lookup_2 in Hi.
  assert (exists c, (name, w, c) ∈ [(str "amp;", str "&#38;", 38); (str "lt;", str "&#60;", 60); (str "gt;", str "&#62;", 62);
    (str "quot;", [38; 35; 51; 52; 59], 34); (str "apos;", str "&#39;", 39)] /\ (0 < length name)%nat) as (c & Hc & Hl).
  { let mem c := solve [exists c; split; [repeat first [apply elem_of_cons; left; reflexivity | apply elem_of_cons; right]|simpl; lia]] in unfold default_ent in Hi;
      repeat (apply elem_of_cons in Hi as [[= -> ->]|Hi]; [mem 38 || mem 60 || mem 62 || mem 34 || mem 39|]); set_solver. }
  exists c, r. split; [rewrite length_app; lia|]. by apply (decode_entity k a c r name w).
Qed.

Lemma decode_loop_runs t : t = 99 \/ t = 38 \/ t = 32 -> forall n s k, (length s <= n)%nat -> (2 * length s < k)%nat -> runs (decode_loop k default_ent t s).
Proof.
  intros Ht. induction n as [|n IH]; intros s k Hn Hk; (destruct k as [|k]; [lia|]); (destruct s as [|c s]; [done|]); [simpl in Hn; lia|].
  cbn [length] in Hn, Hk. assert (forall f : bytes -> bytes, runs (f <$> decode_loop k default_ent t s)) as Hgo by (intros f; apply runs_fmap, IH; lia).
  cbn [decode_loop]. case_match; [apply Hgo|]. case_match.
  { destruct (reference (c :: s)) as [[v r]|] eqn:Hr; [|apply Hgo]. apply reference_length in Hr. cbn [length] in Hr. apply runs_bind; [apply character_runs|]. intros b _. apply runs_fmap, IH; lia. }
  case_match; [|case_match; apply Hgo]. destruct (find_entity default_ent s) as [v|] eqn:Hf; [|apply Hgo].
  assert (c = 38 /\ exists a, t = kind a) as (-> & a & ->).
  { destruct Ht as [-> |[-> | ->]]; [lia|split; [lia|by exists false]|split; [lia|by exists true]]. }
  destruct k as [|k]; [lia|]. destruct (entity_step k a s v Hf) as (c & r & Hr & Hd).
  assert (decode_loop (S (S k)) default_ent (kind a) (38 :: s) = decode_loop (S k) default_ent (kind a) (v ++ behind_semicolon (38 :: s))) as Hone.
  { cbn [decode_loop]. rewrite Hf. match goal with H : negb (kind a =? 99) && _ = false |- _ => rewrite H end. by destruct a. }
  rewrite <-Hone, Hd. apply runs_fmap, IH; lia.
Qed.

Lemma decode_runs k s t : t = 99 \/ t = 38 \/ t = 32 -> runs (switch_xml_decode k s default_ent t).
Proof.
  intros Ht. unfold switch_xml_decode. destruct (newlines InText false s) as [u o]. apply runs_bind; [apply (decode_loop_runs t Ht (length u)); lia|]. intros r _.
  assert (t =? 42 = false) as -> by lia. cbn [mbind res_bind]. runs.
Qed.

(** The document has only the entities every document has. *)
Definition plain (d : doc) : Prop := d_ent d = default_ent /\ d_attr d = [].

Lemma span_head p s a c r : span p s = (a, c :: r) -> p c = false.
Proof.
  revert a. induction s as [|x s IH]; intros a; cbn [span]; [done|]. destruct (p x) eqn:Hx; [|by intros [= _ <- _]]. destruct (span p s) as [y z]. intros [= _ ->]. by apply (IH y).
Qed.

Lemma attr_reads k s : tag_end s = false ->
  runs (parse_attr k default_ent None s) /\ yields (fun r => match r with inl _ => True | inr (_, s') => behind s' s /\ (length s' < length s)%nat end) (parse_attr k default_ent None s).
Proof.
  intros Hte. unfold parse_attr. destruct (span _ s) as [name s1] eqn:Hs1. pose proof Hs1 as Hs2. pose proof (behind_span _ _ _ _ Hs1) as Hb1.
  destruct s as [|c0 s0]; [done|]. destruct s1 as [|c s2]; [split; [done|]; split; [try exact Hb1; by eapply behind_trans|simpl; lia]|].
  assert (behind s2 (c :: s2)) as Hb2 by apply (behind_app [c]). assert (length s2 < length (c0 :: s0))%nat as Hlt by (destruct Hb1 as [Hb1 _]; simpl in Hb1 |- *; lia).
  pose proof (behind_trans _ _ _ Hb2 Hb1) as Hb3. destruct ((c =? 61) || isspace c) eqn:Hc.
  - pose proof (behind_skip (fun c => is_ws c || (c =? 61)) s2) as Hb4. destruct (skip _ s2) as [|q v]; [split; [done|]; split; [try exact Hb1; by eapply behind_trans|simpl; lia]|].
    pose proof (behind_trans _ _ _ Hb4 Hb3) as Hb5. assert (length (q :: v) < length (c0 :: s0))%nat as Hlt' by (destruct Hb4 as [Hb4 _]; lia).
    destruct (is_quote q); [|done]. destruct (span (fun c => negb (c =? q)) v) as [w r] eqn:Hw. pose proof (behind_span _ _ _ _ Hw) as Hb6. destruct r as [|x s4]; [done|].
    assert (behind s4 (x :: s4)) as Hb7 by apply (behind_app [x]). assert (behind v (q :: v)) as Hb8 by apply (behind_app [q]).
    change (attr_kind None name) with 32. split; [apply runs_bind; [apply decode_runs; auto|]; intros [? o] _; apply runs_bind; [apply go_on_runs|done]|]. apply yields_any. intros [w' o].
    apply (yields_bind _ _ _ _ (behind_go_on o s4)). intros s5 Hb9. assert (behind s5 v) as Hb10 by (eapply behind_trans; [apply Hb9|]; by eapply behind_trans).
    split; [eapply behind_trans; [apply Hb10|]; by eapply behind_trans|]. destruct Hb10 as [Hb10 _]. simpl in Hlt' |- *. lia.
  - split; [done|]. split; [done|]. destruct name as [|x name].
    + apply span_app in Hs1. simpl in Hs1. injection Hs1 as <- <-. exfalso. cbn [tag_end] in Hte. pose proof (span_head _ _ _ _ _ Hs2) as Hp. unfold isspace in Hc. unfold is_ws in Hp. lia.
    + apply span_app in Hs1. rewrite Hs1, length_app. simpl. lia.
Qed.

Lemma attr_loop_reads k : forall f acc s, (length s <= f)%nat -> runs (attr_loop f k default_ent None acc s) /\
  yields (fun r => match r with inl _ => True | inr (_, s') => behind s' s end) (attr_loop f k default_ent None acc s).
Proof.
  induction f as [|f IH]; intros acc s Hf; cbn [attr_loop]; destruct (tag_end s) eqn:Hte; try done; [destruct s; [done|simpl in Hf; lia]|].
  destruct (attr_reads k s Hte) as [Hr Hy]. destruct (parse_attr k default_ent None s) as [[q|[v s']]| |]; cbn [mbind res_bind]; try done. destruct Hy as [Hb Hl].
  pose proof (behind_skip isspace s') as Hb'. destruct (IH (acc ++ [v]) (skip isspace s')) as [H1 H2]; [destruct Hb'; lia|]. split; [done|].
  destruct (attr_loop f k default_ent None (acc ++ [v]) (skip isspace s')) as [[q|[a s3]]| |]; try done. cbn [yields] in *. eapply behind_trans; [done|]. by eapply behind_trans.
Qed.

(** What a construct leaves: a plain document and less of the text. *)
Definition reads (s : bytes) (r : outcome) : Prop := runs r /\ yields (fun x => match x with inl _ => True | inr (d', s') => plain d' /\ behind s' s end) r.

Lemma reads_fail s e d : reads s (Ok (inl (fail e d))).
Proof. done. Qed.

Lemma open_plain name attr d d' : plain d -> switch_xml_open_tag name attr d = Ok d' -> plain d'.
Proof.
  intros Hp Ho. assert (yields plain (switch_xml_open_tag name attr d)) as Hy; [|by rewrite Ho in Hy]. unfold switch_xml_open_tag, switch_xml_add_child. destruct (d_cur d) as [x|]; [|done].
  apply yields_any. intros n. apply (yields_bind (fun '(d', _) => plain d')); [|intros [d1 c] H1; by apply yields_any].
  destruct (n_name n); apply yields_any; by intros h.
Qed.

Lemma close_plain name d d' ok : plain d -> switch_xml_close_tag name d = Ok (d', ok) -> plain d'.
Proof.
  intros Hp Ho. assert (yields (fun '(d', _) => plain d') (switch_xml_close_tag name d)) as Hy; [|by rewrite Ho in Hy]. unfold switch_xml_close_tag. destruct (d_cur d) as [x|]; [|done].
  apply yields_any. intros n. by case_match.
Qed.

Lemma tag_reads k e s d : sound d -> plain d -> reads s (parse_tag k e s d).
Proof.
  intros Hs [He Ha]. unfold parse_tag. case_match; [apply reads_fail|]. destruct (span _ s) as [name s1] eqn:Hs1. cbv zeta. rewrite Ha, He.
  pose proof (behind_trans _ _ _ (behind_skip isspace s1) (behind_span _ _ _ _ Hs1)) as Hb. set (s2 := skip isspace s1) in *. cbn [list_find fmap option_fmap option_map].
  assert (forall b : bool, (if b then None else None : option (list (bytes * option bytes * Z))) = None) as -> by (by intros []).
  destruct (attr_loop_reads k (length s2) [] s2 ltac:(lia)) as [Hr Hy]. destruct (attr_loop _ _ _ _ _ _) as [[q|[attr s3]]| |]; cbn [mbind res_bind]; try done.
  cbn [yields] in Hy. pose proof (behind_trans _ _ _ Hy Hb) as Hb3. destruct (open_sound name attr d Hs) as (d1 & Ho & Hs1' & _). pose proof (open_plain _ _ _ _ (conj He Ha) Ho) as Hp1.
  destruct (close_sound name d1 Hs1') as (d2 & ok & Hc & _). pose proof (close_plain _ _ _ _ Hp1 Hc) as Hp2. rewrite Ho. cbn [mbind res_bind]. rewrite Hc. cbn [mbind res_bind].
  destruct s3 as [|c s4]; [destruct (e =? 62); done|]. destruct (c =? 47); [|done]. case_match; [done|]. split; [done|]. split; [done|]. eapply behind_trans; [apply (behind_app [c])|done].
Qed.

Lemma content_reads k s t d : sound d -> plain d -> t = 99 \/ t = 38 -> runs (switch_xml_char_content k s t d) /\ yields (fun '(d', _) => plain d') (switch_xml_char_content k s t d).
Proof.
  intros Hs [He Ha] Ht. unfold switch_xml_char_content. destruct (d_cur d) as [x|] eqn:Hcur; [|done]. destruct (s_cur _ Hs x Hcur) as [n Hn]. rewrite (deref_some _ _ _ Hn). cbn [mbind res_bind].
  case_match; [done|]. rewrite He. split.
  - apply runs_bind; [apply decode_runs; naive_solver|]. intros [r o] _. by rewrite (upd_some _ _ _ _ Hn).
  - apply yields_any. intros [r o]. by rewrite (upd_some _ _ _ _ Hn).
Qed.

Lemma find_pi_behind s r : find_pi s = Some r -> behind r s.
Proof.
  revert r. induction s as [|c s IH]; intros r; cbn [find_pi]; [done|]. assert (behind s (c :: s)) as Hb by apply (behind_app [c]).
  repeat case_match; try done; intros Hr; simplify_eq; try done; (eapply behind_trans; [by apply IH|done]).
Qed.

Lemma markup_reads k e s d : sound d -> plain d -> lacks DOCTYPE s = true -> reads s (parse_markup k e s d).
Proof.
  intros Hs Hp Hl. unfold parse_markup. generalize (match s with c :: _ => c | [] => 0 end). intros c. cbv zeta. case_match; [by apply tag_reads|]. case_match.
  { unfold parse_close. destruct (span _ (drop 1 s)) as [l s1] eqn:Hsp. destruct (bool_decide (s1 = []) && negb (e =? 62)); [done|].
    destruct (close_sound l d Hs) as (d1 & ok & Hc & _). pose proof (close_plain _ _ _ _ Hp Hc) as Hp1. rewrite Hc. cbn [mbind res_bind]. destruct ok; [|done]. split; [done|]. split; [done|].
    eapply behind_trans; [apply behind_skip|]. eapply behind_trans; [by eapply behind_span|apply behind_drop]. }
  case_match. { unfold parse_comment. repeat first [done | case_match]. all: (split; [done|]; split; [done|]; match goal with H : ?l = _ |- _ => rewrite <-H end; apply behind_zdrop). }
  case_match.
  { unfold parse_cdata. case_match; [|done]. destruct (content_reads k (slice 8 (z - 8) s) 99 d Hs Hp ltac:(by left)) as [Hr Hy].
    destruct (switch_xml_char_content _ _ _ _) as [[d1 o]| |]; cbn [mbind res_bind] in *; [|done|done]. split; [apply runs_bind; [apply go_on_runs|done]|].
    apply (yields_bind _ _ _ _ (behind_go_on o _)). intros s' Hs'. split; [done|]. eapply behind_trans; [apply Hs'|apply behind_zdrop]. }
  assert (starts (str "!DOCTYPE") s = false) as ->.
  { change (str "!DOCTYPE") with DOCTYPE. destruct s; cbn [lacks] in Hl; apply andb_prop in Hl as [Hl _]; by apply negb_true_iff in Hl. }
  case_match; [|done]. unfold parse_pi. destruct (find_pi s) as [r|] eqn:Hf; [|done]. case_match; [done|]. case_match; [done|]. apply find_pi_behind in Hf.
  set (i := slice 1 _ s). assert (runs (switch_xml_proc_inst i d)) as Hr by (unfold switch_xml_proc_inst, deref; runs).
  assert (yields plain (switch_xml_proc_inst i d)) as Hy by (unfold switch_xml_proc_inst; yields). destruct (switch_xml_proc_inst i d); done.
Qed.

Lemma parse_loop_runs k e f : forall s d, sound d -> plain d -> lacks DOCTYPE s = true -> (length s < f)%nat -> runs (parse_loop f k e s d).
Proof.
  induction f as [|f IH]; intros s d Hs Hp Hl Hf; [lia|]. rewrite parse_loop_eq. destruct (markup_reads k e s d Hs Hp Hl) as [Hr Hy]. pose proof (markup_step k e s d Hs) as Hm.
  destruct (parse_markup k e s d) as [[d1|[d1 s1]]| |]; cbn [mbind res_bind]; try done. destruct Hy as [Hp1 Hb1]. cbn [yields step_sound] in Hm.
  assert (forall d, runs (finish d)) as Hfin by (intros d'; unfold finish, deref; runs).
  pose proof (behind_drop 1 s1) as Hb2. unfold resume. destruct (drop 1 s1) as [|c s2] eqn:Hd; [apply Hfin|].
  assert (length (c :: s2) < length s)%nat as Hlen. { rewrite <-Hd, length_drop. destruct s1; [done|]. destruct Hb1 as [Hb1 _]. simpl in Hb1 |- *. lia. }
  pose proof (behind_trans _ _ _ Hb2 Hb1) as Hb3. case_match.
  - apply IH; [done|done| |simpl in Hlen; lia]. by apply (behind_app [c] s2), Hb3.
  - destruct (span _ (c :: s2)) as [text r] eqn:Hsp. apply behind_span in Hsp. destruct r as [|x r]; [apply Hfin|].
    destruct (content_reads k text 38 d1 Hm Hp1 ltac:(by right)) as [Hr2 Hy2]. pose proof (content_sound k text 38 d1 Hm) as Hs2.
    destruct (switch_xml_char_content k text 38 d1) as [[d2 o]| |]; cbn [mbind res_bind yields] in *; [|done|done].
    pose proof (behind_go_on o r) as Hb5. pose proof (go_on_runs o r) as Hr3. destruct (go_on o r) as [r'| |]; cbn [mbind res_bind yields] in *; [|done|done].
    assert (behind r' (x :: r)) as Hb4 by (eapply behind_trans; [apply Hb5|apply (behind_app [x])]).
    apply IH; [done|done|by apply Hb4, Hsp, Hb3|]. destruct Hb5 as [Hb5 _]. destruct Hsp as [Hsp _]. simpl in Hsp, Hlen. lia.
Qed.

Lemma utf16_runs be s : forall f sl, 0 <= sl -> zlen s - sl <= Z.of_nat f -> runs (utf16_loop f be s sl).
Proof.
  induction f as [|f IH]; intros sl H0 Hf; cbn [utf16_loop]; (destruct (Z.ltb_spec sl (zlen s - 1)); [|done]); [lia|].
  cbv zeta. match goal with |- context [let '(_, _) := ?x in _] => destruct x as [c sl'] eqn:Hc end. assert (sl <= sl') as Hle by (repeat case_match; simplify_eq; lia).
  apply runs_bind; [unfold utf8_long; runs|]. intros u _. apply runs_fmap, IH; lia.
Qed.

Lemma str2utf8_runs s : runs (switch_xml_str2utf8 s).
Proof. unfold switch_xml_str2utf8. destruct s as [|c s]; [done|]. repeat case_match; [apply utf16_runs| apply utf16_runs|done]; try lia; unfold zlen; lia. Qed.

Lemma lacks_prefix w a b : lacks w (a ++ b) = true -> lacks w a = true.
Proof.
  induction a as [|c a IH]; cbn [lacks app].
  - intros Hl. assert (starts w b = false) as Hst by (destruct b; cbn [lacks] in Hl; apply andb_prop in Hl as [Hl _]; by apply negb_true_iff). rewrite andb_true_r. apply negb_true_iff.
    destruct (starts w []) eqn:H0; [|done]. apply starts_app in H0 as (r & Hr). symmetry in Hr. apply app_eq_nil in Hr as [-> _]. by rewrite <-Hst.
  - intros [Hst Hl]%andb_prop. rewrite (IH Hl), andb_true_r. apply negb_true_iff. apply negb_true_iff in Hst. destruct (starts w (c :: a)) eqn:H0; [|done].
    apply starts_app in H0 as (r & Hr). rewrite <-Hst. change (c :: a ++ b) with ((c :: a) ++ b). rewrite Hr, <-app_assoc. symmetry. apply app_starts.
Qed.

(** C37: The parser ends.  For every text of bytes, in UTF-8 or UTF-16, that has no
    document type, switch_xml_parse_str either returns or comes to an access
    outside of its text ([Fault]) after a number of steps that its length bounds: every construct and every text between two
    constructs takes something off the text that is left, an entity is replaced by
    a character reference which is replaced at once, and normalising the newlines
    behind the end of a string neither lengthens what follows nor makes a document
    type of it. *)
Theorem xml_parse_ends (k : nat) (s : bytes) : (forall u, switch_xml_str2utf8 s = Ok u -> lacks DOCTYPE u = true) -> switch_xml_parse_str k s <> NoFuel.
Proof.
  intros Hl. change (runs (switch_xml_parse_str k s)). unfold switch_xml_parse_str. case_match; [done|]. apply runs_bind; [apply str2utf8_runs|]. intros u Hu. specialize (Hl u Hu).
  destruct (last u) as [e|]; [|done]. destruct (span (fun c => negb (c =? 0)) (take (length u - 1) u)) as [text rest] eqn:Hsp. cbn [fst].
  assert (lacks DOCTYPE text = true) as Ht.
  { apply (lacks_prefix _ _ rest). rewrite <-(span_app _ _ _ _ Hsp). apply (lacks_prefix _ _ (drop (length u - 1) u)). by rewrite take_drop. }
  pose proof (behind_skip (fun c => negb (c =? 60)) text) as Hb. destruct (skip _ text) as [|c r]; [done|]. apply runs_fmap, parse_loop_runs; [apply sound_new|done| |lia].
  by apply (behind_app [c] r), Hb.
Qed.

Definition long_text : bytes := str "<?xml version='1.0'?><!-- <a> --><a b = '&#x41;&amp;'>&lt;" ++ [13; 10] ++ str "<![CDATA[&]]><b c/></a>".

Lemma xml_parse_ends_witness : (forall u, switch_xml_str2utf8 long_text = Ok u -> lacks DOCTYPE u = true) /\ switch_xml_parse_str 0 long_text <> NoFuel.
Proof.
  assert (forall u, switch_xml_str2utf8 long_text = Ok u -> lacks DOCTYPE u = true) as H by (intros u Hu; vm_compute in Hu; injection Hu as <-; vm_compute; reflexivity).
  split; [exact H|]. exact (xml_parse_ends 0 long_text H).
Defined.
End Xml.
