(* ===== verification/Dmachine.v ===== *)
(** * The digit machine

    The part of switch_ivr_async.c that recognises digit strings: bindings of
    digits or regular expressions in realms (switch_ivr_dmachine_bind), digits
    fed one by one (switch_ivr_dmachine_feed), the match against the active
    realm (switch_ivr_dmachine_check_match), timeouts, and the verdict with its
    callbacks (switch_ivr_dmachine_ping).

    Realms live in a hash of the core (class [StringMap]).  The pointer to the
    active realm is its name: a realm is never replaced while it is in the
    hash, and clearing the active one clears the pointer.  The buffers are
    strings of less than DMACHINE_MAX_DIGIT_LEN bytes; a write behind their end
    and the use of a NULL pointer are a [Fault].  The clock is an argument of
    what reads it.  A callback is the list of the operations it performs on the
    machine and its answer; it does not feed or ping the machine that called
    it.  [locks] counts how often the mutex, which is a
    nested one, is held by the thread that runs the operations. *)

From S2P Require Import Prelude Outcome CString HashTable CoreHash.
Import CString CoreHash.

Module Dmachine.

Definition DMACHINE_MAX_DIGIT_LEN : Z := 512.

(** ** Data *)

Record binding := Binding {
  b_digits : bytes; b_key : Z; b_rmatch : Z; b_callback : option Z; b_is_regex : bool; b_user_data : Z }.

(** [binding_list] with its [tail], and the terminators; the name is the key
    in the hash. *)
Record dm_binding_head := Head { binding_list : list binding; terminators : option bytes }.

Inductive dm_match_type := DM_MATCH_POSITIVE | DM_MATCH_NEGATIVE.

(** [match_digits] points to one of two buffers of the machine. *)
Inductive digits_ptr := LastMatchingDigits | LastFailedDigits.

Record match_info := Match { match_digits : option digits_ptr; match_key : Z; match_type : dm_match_type; match_user_data : Z }.

Record dmachine (H : Type) := Machine {
  digit_timeout_ms : Z; input_timeout_ms : Z; binding_hash : H; match_ : match_info;
  digits : bytes; last_matching_digits : bytes; last_failed_digits : bytes; cur_digit_len : Z; max_digit_len : Z;
  last_digit_time : Z; is_match : bool; match_callback : option Z; nonmatch_callback : option Z;
  realm : option bytes; last_matching_binding : option binding; user_data : Z; locks : Z; last_return : switch_status }.
Arguments digit_timeout_ms {H} _.
Arguments input_timeout_ms {H} _.
Arguments binding_hash {H} _.
Arguments match_ {H} _.
Arguments digits {H} _.
Arguments last_matching_digits {H} _.
Arguments last_failed_digits {H} _.
Arguments cur_digit_len {H} _.
Arguments max_digit_len {H} _.
Arguments last_digit_time {H} _.
Arguments is_match {H} _.
Arguments match_callback {H} _.
Arguments nonmatch_callback {H} _.
Arguments realm {H} _.
Arguments last_matching_binding {H} _.
Arguments user_data {H} _.
Arguments locks {H} _.
Arguments last_return {H} _.

Inductive dm_match := DM_MATCH_NONE | DM_MATCH_EXACT | DM_MATCH_PARTIAL | DM_MATCH_BOTH | DM_MATCH_NEVER.

#[export] Instance dm_match_eq_dec : EqDecision dm_match.
Proof. solve_decision. Defined.

(** Assignments to the fields of a machine. *)
Section setters.
Context {H : Type}.
Implicit Types m : dmachine H.

Definition set_timeouts dt it m := Machine H dt it (binding_hash m) (match_ m) (digits m) (last_matching_digits m) (last_failed_digits m) (cur_digit_len m) (max_digit_len m) (last_digit_time m) (is_match m) (match_callback m) (nonmatch_callback m) (realm m) (last_matching_binding m) (user_data m) (locks m) (last_return m).
Definition set_hash h m := Machine H (digit_timeout_ms m) (input_timeout_ms m) h (match_ m) (digits m) (last_matching_digits m) (last_failed_digits m) (cur_digit_len m) (max_digit_len m) (last_digit_time m) (is_match m) (match_callback m) (nonmatch_callback m) (realm m) (last_matching_binding m) (user_data m) (locks m) (last_return m).
Definition set_match i m := Machine H (digit_timeout_ms m) (input_timeout_ms m) (binding_hash m) i (digits m) (last_matching_digits m) (last_failed_digits m) (cur_digit_len m) (max_digit_len m) (last_digit_time m) (is_match m) (match_callback m) (nonmatch_callback m) (realm m) (last_matching_binding m) (user_data m) (locks m) (last_return m).
Definition set_digits d n m := Machine H (digit_timeout_ms m) (input_timeout_ms m) (binding_hash m) (match_ m) d (last_matching_digits m) (last_failed_digits m) n (max_digit_len m) (last_digit_time m) (is_match m) (match_callback m) (nonmatch_callback m) (realm m) (last_matching_binding m) (user_data m) (locks m) (last_return m).
Definition set_matching b d m := Machine H (digit_timeout_ms m) (input_timeout_ms m) (binding_hash m) (match_ m) (digits m) d (last_failed_digits m) (cur_digit_len m) (max_digit_len m) (last_digit_time m) (is_match m) (match_callback m) (nonmatch_callback m) (realm m) b (user_data m) (locks m) (last_return m).
Definition set_failed d m := Machine H (digit_timeout_ms m) (input_timeout_ms m) (binding_hash m) (match_ m) (digits m) (last_matching_digits m) d (cur_digit_len m) (max_digit_len m) (last_digit_time m) (is_match m) (match_callback m) (nonmatch_callback m) (realm m) (last_matching_binding m) (user_data m) (locks m) (last_return m).
Definition set_max n m := Machine H (digit_timeout_ms m) (input_timeout_ms m) (binding_hash m) (match_ m) (digits m) (last_matching_digits m) (last_failed_digits m) (cur_digit_len m) n (last_digit_time m) (is_match m) (match_callback m) (nonmatch_callback m) (realm m) (last_matching_binding m) (user_data m) (locks m) (last_return m).
Definition set_time t m := Machine H (digit_timeout_ms m) (input_timeout_ms m) (binding_hash m) (match_ m) (digits m) (last_matching_digits m) (last_failed_digits m) (cur_digit_len m) (max_digit_len m) t (is_match m) (match_callback m) (nonmatch_callback m) (realm m) (last_matching_binding m) (user_data m) (locks m) (last_return m).
Definition set_is_match b m := Machine H (digit_timeout_ms m) (input_timeout_ms m) (binding_hash m) (match_ m) (digits m) (last_matching_digits m) (last_failed_digits m) (cur_digit_len m) (max_digit_len m) (last_digit_time m) b (match_callback m) (nonmatch_callback m) (realm m) (last_matching_binding m) (user_data m) (locks m) (last_return m).
Definition set_callbacks a b m := Machine H (digit_timeout_ms m) (input_timeout_ms m) (binding_hash m) (match_ m) (digits m) (last_matching_digits m) (last_failed_digits m) (cur_digit_len m) (max_digit_len m) (last_digit_time m) (is_match m) a b (realm m) (last_matching_binding m) (user_data m) (locks m) (last_return m).
Definition set_active r m := Machine H (digit_timeout_ms m) (input_timeout_ms m) (binding_hash m) (match_ m) (digits m) (last_matching_digits m) (last_failed_digits m) (cur_digit_len m) (max_digit_len m) (last_digit_time m) (is_match m) (match_callback m) (nonmatch_callback m) r (last_matching_binding m) (user_data m) (locks m) (last_return m).
Definition set_locks n m := Machine H (digit_timeout_ms m) (input_timeout_ms m) (binding_hash m) (match_ m) (digits m) (last_matching_digits m) (last_failed_digits m) (cur_digit_len m) (max_digit_len m) (last_digit_time m) (is_match m) (match_callback m) (nonmatch_callback m) (realm m) (last_matching_binding m) (user_data m) n (last_return m).
Definition set_last_return s m := Machine H (digit_timeout_ms m) (input_timeout_ms m) (binding_hash m) (match_ m) (digits m) (last_matching_digits m) (last_failed_digits m) (cur_digit_len m) (max_digit_len m) (last_digit_time m) (is_match m) (match_callback m) (nonmatch_callback m) (realm m) (last_matching_binding m) (user_data m) (locks m) s.
End setters.

(** What callers, and callbacks, can do to a machine besides feeding it. *)
Inductive op :=
| Bind (rname : option bytes) (d : bytes) (key : Z) (cb : option Z) (data : Z)
| SetRealm (name : bytes) | ClearRealm (name : option bytes) | SetTerminators (t : bytes)
| SetDigitTimeout (t : Z) | SetInputTimeout (t : Z) | SetMatchCallback (cb : option Z) | SetNonmatchCallback (cb : option Z)
| GetMatch | Clear.

(** What is outside: regular expressions, and the callbacks, named by numbers;
    a callback sees the match and the digits it points to. *)
Class Services := {
  switch_regex_match : bytes -> bytes -> bool;
  callback : Z -> match_info -> bytes -> list op * switch_status }.

(** ** Operations *)

Section machine.
Context {H : Type} {SM : StringMap H dm_binding_head} {SV : Services}.
Implicit Types m : dmachine H.

Definition switch_ivr_dmachine_create (digit_timeout input_timeout : Z) (match_cb nonmatch_cb : option Z) (data : Z) : dmachine H :=
  Machine H digit_timeout input_timeout sm_empty (Match None 0 DM_MATCH_POSITIVE 0) [] [] [] 0 0 0 false match_cb nonmatch_cb
    None None data 0 SWITCH_STATUS_SUCCESS.

Definition switch_ivr_dmachine_set_match_callback (cb : option Z) m := set_callbacks cb (nonmatch_callback m) m.
Definition switch_ivr_dmachine_set_nonmatch_callback (cb : option Z) m := set_callbacks (match_callback m) cb m.
Definition switch_ivr_dmachine_set_digit_timeout_ms (t : Z) m := set_timeouts t (input_timeout_ms m) m.
Definition switch_ivr_dmachine_set_input_timeout_ms (t : Z) m := set_timeouts (digit_timeout_ms m) t m.
Definition switch_ivr_dmachine_last_ping m := last_return m.
Definition switch_ivr_dmachine_get_failed_digits m := last_failed_digits m.

(** The head of the active realm. *)
Definition active m : option dm_binding_head := name ← realm m; sm_find (binding_hash m) name.

Definition switch_ivr_dmachine_set_terminators (t : bytes) m : dmachine H * switch_status :=
  match realm m, active m with
  | Some name, Some h => (set_hash (sm_insert (binding_hash m) name (Head (binding_list h) (Some t))) m, SWITCH_STATUS_SUCCESS)
  | _, _ => (m, SWITCH_STATUS_FALSE)
  end.

Definition switch_ivr_dmachine_set_realm (name : bytes) m : dmachine H * switch_status :=
  match sm_find (binding_hash m) name with
  | Some _ => (set_active (Some name) m, SWITCH_STATUS_SUCCESS)
  | None => (m, SWITCH_STATUS_FALSE)
  end.

(** [headp == dmachine->realm] *)
Definition is_active m (name : bytes) : bool := bool_decide (sm_canon <$> realm m = Some (sm_canon name)).

Definition switch_ivr_dmachine_clear_realm (name : option bytes) m : dmachine H * switch_status :=
  match name with
  | Some name =>
    if zstr (Some name) then (m, SWITCH_STATUS_FALSE)
    else
      let m := if is_active m name then set_active None m else m in
      (set_hash (sm_delete (binding_hash m) name) m, SWITCH_STATUS_SUCCESS)
  | None => (m, SWITCH_STATUS_FALSE)
  end.

(** The search for an existing binding; [digits + 1] of an empty string is
    behind its end. *)
Fixpoint find_existing (l : list binding) (d : bytes) (i : nat) : res (option nat) :=
  match l with
  | [] => Ok None
  | b :: l =>
    regex ← (if b_is_regex b then match d with [] => Fault | _ :: d' => Ok (streq (b_digits b) d') end else Ok false);
    if regex || streq (b_digits b) d then Ok (Some i) else find_existing l d (S i)
  end.

Definition rebind (cb : option Z) (data : Z) (b : binding) : binding :=
  Binding (b_digits b) (b_key b) (b_rmatch b) cb (b_is_regex b) data.

Definition switch_ivr_dmachine_bind (rname : option bytes) (d : bytes) (key : Z) (cb : option Z) (data : Z) m
  : res (dmachine H * switch_status) :=
  if DMACHINE_MAX_DIGIT_LEN - 1 <? zlen d then Ok (m, SWITCH_STATUS_FALSE)
  else
    let name := if zstr rname then str "default" else default [] rname in
    let '(h, headp) := match sm_find (binding_hash m) name with
                       | Some headp => (binding_hash m, headp)
                       | None => let headp := Head [] None in (sm_insert (binding_hash m) name headp, headp)
                       end in
    found ← find_existing (binding_list headp) d 0;
    match found with
    | Some i => Ok (set_hash (sm_insert h name (Head (alter (rebind cb data) i (binding_list headp)) (terminators headp))) m, SWITCH_STATUS_SUCCESS)
    | None =>
      let is_regex := bool_decide (head d = Some 126) in
      let d := if is_regex then drop 1 d else d in
      let b := Binding d key 0 cb is_regex data in
      let m := set_hash (sm_insert h name (Head (binding_list headp ++ [b]) (terminators headp))) m in
      let m := if is_active m name then m else (switch_ivr_dmachine_set_realm name m).1 in
      let m := if is_regex && negb (max_digit_len m =? DMACHINE_MAX_DIGIT_LEN - 1) then set_max (DMACHINE_MAX_DIGIT_LEN - 1) m
               else if max_digit_len m <? zlen d then set_max (zlen d) m else m in
      Ok (m, SWITCH_STATUS_SUCCESS)
    end.

(** *** The match *)

(** [!strncmp(dmachine->digits, bp->digits, strlen(dmachine->digits))] *)
Definition pmatch_of (d : bytes) (b : binding) : bool := strneq d (b_digits b) (zlen d).

(** The first pass: the counters of the regular expressions, and how many
    bindings are still possible. *)
Definition count_binding (d : bytes) (b : binding) : binding :=
  if b_is_regex b then
    Binding (b_digits b) (b_key b) (if switch_regex_match d (b_digits b) then u8 (b_rmatch b + 1) else 0) (b_callback b) true (b_user_data b)
  else b.

Definition pmatches_of (d : bytes) (l : list binding) : Z := zlen (filter (fun b => b_is_regex b || pmatch_of d b = true) l).
Definition ematches_of (d : bytes) (l : list binding) : Z := if existsb (fun b => negb (b_is_regex b) && pmatch_of d b) l then 1 else 0.
Definition rmatches_of (l : list binding) : Z := zlen (filter (fun b => b_is_regex b = true) l).

(** [strrchr] *)
Fixpoint strrchr (s : bytes) (c : Z) : option Z :=
  match s with
  | [] => None
  | x :: s => match strrchr s c with Some i => Some (i + 1) | None => if x =? c then Some 0 else None end
  end.

(** The first terminator that is among the digits cuts them. *)
Fixpoint cut_terminator (ts : bytes) (d : bytes) : option bytes :=
  match ts with
  | [] => None
  | t :: ts => match strrchr d t with Some q => Some (ztake q d) | None => cut_terminator ts d end
  end.

(** The second pass, with what it has found. *)
Record candidates := Candidates { best : dm_match; exact_bp : option binding; partial_bp : option binding; both_bp : option binding }.

(** [p != NULL] *)
Definition isset {A} (p : option A) : bool := match p with Some _ => true | None => false end.

Fixpoint match_loop (l : list binding) (d : bytes) (is_timeout single plain_ok full : bool) (c : candidates) : candidates :=
  match l with
  | [] => c
  | bp :: l =>
    if b_is_regex bp then
      if negb (b_rmatch bp =? 0) then
        if is_timeout || single then Candidates DM_MATCH_EXACT (Some bp) (partial_bp c) (both_bp c)
        else match_loop l d is_timeout single plain_ok full (Candidates DM_MATCH_PARTIAL (exact_bp c) (partial_bp c) (both_bp c))
      else match_loop l d is_timeout single plain_ok full c
    else
      let pmatch := pmatch_of d bp in
      let found := negb (isset (exact_bp c)) && pmatch && (plain_ok || is_timeout) && streq (b_digits bp) d in
      let c := if found then Candidates DM_MATCH_EXACT (Some bp) (partial_bp c) (both_bp c) else c in
      if found && full then c
      else
        let c := if negb (isset (both_bp c) && isset (partial_bp c))
                    && negb (zlen (b_digits bp) =? zlen d) && pmatch
                 then match exact_bp c with
                      | Some _ => Candidates DM_MATCH_BOTH (exact_bp c) (partial_bp c) (Some bp)
                      | None => Candidates DM_MATCH_PARTIAL (exact_bp c) (Some bp) (both_bp c)
                      end
                 else c in
        if isset (both_bp c) && isset (exact_bp c) && isset (partial_bp c) then c
        else match_loop l d is_timeout single plain_ok full c
  end.

(** What follows the label [end]. *)
Definition conclude (c : candidates) (is_timeout : bool) m : dmachine H * dm_match :=
  let r_bp := if is_timeout then match both_bp c with
                                 | Some b => Some (default b (exact_bp c))
                                 | None => None
                                 end
              else None in
  let r_bp := if bool_decide (best c = DM_MATCH_EXACT) then match exact_bp c with Some e => Some e | None => r_bp end else r_bp in
  match r_bp with
  | Some b => (set_matching (Some b) (ztake (DMACHINE_MAX_DIGIT_LEN - 1) (digits m)) m, DM_MATCH_EXACT)
  | None => (m, best c)
  end.

Definition switch_ivr_dmachine_check_match (is_timeout : bool) m : dmachine H * dm_match :=
  match realm m, active m with
  | Some name, Some h =>
    if cur_digit_len m =? 0 then conclude (Candidates DM_MATCH_NONE None None None) is_timeout m
    else
      let d := digits m in
      let l := count_binding d <$> binding_list h in
      let pmatches := pmatches_of d l in
      let ematches := ematches_of d l in
      let m := set_hash (sm_insert (binding_hash m) name (Head l (terminators h))) m in
      let '(d, is_timeout) := match (if zstr (terminators h) then None else cut_terminator (default [] (terminators h)) d) with
                              | Some d => (d, true)
                              | None => (d, is_timeout)
                              end in
      let m := set_digits d (cur_digit_len m) m in
      let plain_ok := ((pmatches =? 1) || (ematches =? 1)) && (rmatches_of l =? 0) in
      let c := match_loop l d is_timeout (bool_decide (length l = 1%nat)) plain_ok (cur_digit_len m =? max_digit_len m)
                 (Candidates DM_MATCH_NONE None None None) in
      let c := if pmatches =? 0 then Candidates DM_MATCH_NEVER (exact_bp c) (partial_bp c) (both_bp c) else c in
      conclude c is_timeout m
  | _, _ => conclude (Candidates DM_MATCH_NONE None None None) is_timeout m
  end.

(** *** Time *)

Definition switch_ivr_dmachine_check_timeout (now : Z) m : dmachine H * bool :=
  let timeout := if cur_digit_len m =? 0 then input_timeout_ms m else digit_timeout_ms m in
  let m := if last_digit_time m =? 0 then set_time now m else m in
  (m, negb (timeout =? 0) && (timeout <? u32 (Z.quot (now - last_digit_time m) 1000))).

(** *** The verdict *)

Definition switch_ivr_dmachine_clear m : dmachine H := set_time 0 (set_digits [] 0 m).

(** What the answer of a callback makes of the status. *)
Definition after_callback (s r : switch_status) : switch_status :=
  match s with
  | SWITCH_STATUS_CONTINUE => SWITCH_STATUS_SUCCESS
  | SWITCH_STATUS_SUCCESS => r
  | _ => SWITCH_STATUS_BREAK
  end.

Definition switch_ivr_dmachine_get_match m : dmachine H * option match_info :=
  if is_match m then (set_is_match false m, Some (match_ m)) else (m, None).

Definition run_op (o : op) m : res (dmachine H) :=
  match o with
  | Bind rname d key cb data => fst <$> switch_ivr_dmachine_bind rname d key cb data m
  | SetRealm name => Ok (switch_ivr_dmachine_set_realm name m).1
  | ClearRealm name => Ok (switch_ivr_dmachine_clear_realm name m).1
  | SetTerminators t => Ok (switch_ivr_dmachine_set_terminators t m).1
  | SetDigitTimeout t => Ok (switch_ivr_dmachine_set_digit_timeout_ms t m)
  | SetInputTimeout t => Ok (switch_ivr_dmachine_set_input_timeout_ms t m)
  | SetMatchCallback cb => Ok (switch_ivr_dmachine_set_match_callback cb m)
  | SetNonmatchCallback cb => Ok (switch_ivr_dmachine_set_nonmatch_callback cb m)
  | GetMatch => Ok (switch_ivr_dmachine_get_match m).1
  | Clear => Ok (switch_ivr_dmachine_clear m)
  end.

Fixpoint run_ops (os : list op) m : res (dmachine H) :=
  match os with [] => Ok m | o :: os => m ← run_op o m; run_ops os m end.

(** The digits [match.match_digits] points to. *)
Definition digits_at m : bytes :=
  match match_digits (match_ m) with Some LastMatchingDigits => last_matching_digits m | Some LastFailedDigits => last_failed_digits m | None => [] end.

Definition run_callback (cb : option Z) (r : switch_status) m : res (dmachine H * switch_status) :=
  match cb with
  | Some f => let '(os, s) := callback f (match_ m) (digits_at m) in m ← run_ops os m; Ok (m, after_callback s r)
  | None => Ok (m, r)
  end.

Definition set_match_user_data (u : Z) m : dmachine H :=
  set_match (Match (match_digits (match_ m)) (match_key (match_ m)) (match_type (match_ m)) u) m.

(** A callback of the machine itself gets the machine's user data. *)
Definition machine_callback (cb : option Z) (r : switch_status) m : res (dmachine H * switch_status) :=
  match cb with Some _ => run_callback cb r (set_match_user_data (user_data m) m) | None => Ok (m, r) end.

(** A match: the callbacks of the binding and of the machine decide what is
    returned. *)
Definition positive_match m : res (dmachine H * switch_status) :=
  match last_matching_binding m with
  | None => Fault
  | Some b =>
    let m := set_match (Match (Some LastMatchingDigits) (b_key b) DM_MATCH_POSITIVE (b_user_data b)) m in
    let m := set_is_match true m in
    '(m, r) ← run_callback (b_callback b) SWITCH_STATUS_FOUND m;
    machine_callback (match_callback m) r m
  end.

Definition negative_match (r : switch_status) m : res (dmachine H * switch_status) :=
  let m := set_failed (ztake (DMACHINE_MAX_DIGIT_LEN - 1) (digits m)) m in
  let m := set_match (Match (Some LastFailedDigits) (match_key (match_ m)) DM_MATCH_NEGATIVE (match_user_data (match_ m))) m in
  machine_callback (nonmatch_callback m) r m.

Definition failed (r : switch_status) : bool :=
  match r with SWITCH_STATUS_FOUND | SWITCH_STATUS_SUCCESS | SWITCH_STATUS_BREAK => false | _ => true end.

(** The part under the mutex: [clear] counts, [r] is returned. *)
Definition verdict (is_timeout : bool) (is_match_ : dm_match) m : res (dmachine H * switch_status) :=
  '(m, r, clear) ←
    (if bool_decide (digits m = []) && negb is_timeout then Ok (m, SWITCH_STATUS_SUCCESS, false)
     else if max_digit_len m <? cur_digit_len m then Ok (m, SWITCH_STATUS_FALSE, false)
     else if bool_decide (is_match_ = DM_MATCH_EXACT) || (bool_decide (is_match_ = DM_MATCH_BOTH) && is_timeout)
     then '(m, r) ← positive_match m; Ok (m, r, true)
     else if is_timeout then Ok (m, SWITCH_STATUS_TIMEOUT, false)
     else if bool_decide (is_match_ = DM_MATCH_NONE) && (cur_digit_len m =? max_digit_len m) then Ok (m, SWITCH_STATUS_NOTFOUND, false)
     else Ok (m, SWITCH_STATUS_SUCCESS, false));
  '(m, r, clear) ← (if failed r then '(m, r) ← negative_match r m; Ok (m, r, true) else Ok (m, r, clear));
  let m := if clear : bool then switch_ivr_dmachine_clear m else m in
  Ok (set_last_return r m, r).

(** [busy]: another thread holds the mutex, and the trial to take it fails. *)
Definition switch_ivr_dmachine_ping (now : Z) (busy : bool) m : res (dmachine H * switch_status) :=
  let '(m, is_timeout) := switch_ivr_dmachine_check_timeout now m in
  let '(m, is_match_) := switch_ivr_dmachine_check_match is_timeout m in
  let is_timeout := is_timeout || bool_decide (is_match_ = DM_MATCH_NEVER) in
  if busy then Ok (m, SWITCH_STATUS_SUCCESS)
  else
    '(m, r) ← verdict is_timeout is_match_ (set_locks (locks m + 1) m);
    Ok (set_locks (locks m - 1) m, r).

(** One digit, with the two readings of the clock it causes.  The mutex is not
    released when there is no room. *)
Definition feed_digit (p now now' : Z) (m : dmachine H) (status : switch_status) : res (dmachine H * switch_status) :=
  let m := set_locks (locks m + 1) m in
  if cur_digit_len m <? max_digit_len m then
    if DMACHINE_MAX_DIGIT_LEN <=? zlen (digits m) + 1 then Fault
    else
      let m := set_digits (digits m ++ [p]) (u32 (cur_digit_len m + 1)) m in
      let m := set_locks (locks m - 1) m in
      let m := set_time now m in
      if bool_decide (status = SWITCH_STATUS_SUCCESS) then
        '(m, istatus) ← switch_ivr_dmachine_ping now' false m;
        Ok (m, if bool_decide (istatus = SWITCH_STATUS_SUCCESS) then status else istatus)
      else Ok (m, status)
  else Ok (m, SWITCH_STATUS_FALSE).

Fixpoint feed_loop (ds : list (Z * Z * Z)) (m : dmachine H) (status : switch_status) : res (dmachine H * switch_status) :=
  match ds with
  | [] => Ok (m, status)
  | (p, now, now') :: ds => '(m, status) ← feed_digit p now now' m status; feed_loop ds m status
  end.

Definition switch_ivr_dmachine_feed (ds : list (Z * Z * Z)) m : res (dmachine H * switch_status) :=
  feed_loop ds m (match ds with [] => SWITCH_STATUS_BREAK | _ => SWITCH_STATUS_SUCCESS end).

End machine.

(** ** The invariant *)

Section invariant.
Context {H : Type} {SM : StringMap H dm_binding_head} {SV : Services}.
Implicit Types m : dmachine H.

(** The digits fit into their buffer, and no binding is longer than the
    machine takes digits. *)
Record wf m : Prop := {
  wf_hash : sm_ok (binding_hash m);
  wf_digits : zlen (digits m) <= cur_digit_len m;
  wf_cur : cur_digit_len m <= max_digit_len m;
  wf_max : max_digit_len m < DMACHINE_MAX_DIGIT_LEN;
  wf_bindings : forall name h, sm_find (binding_hash m) name = Some h ->
    Forall (fun b => zlen (b_digits b) <= max_digit_len m) (binding_list h) }.

(** The fields the invariant is about. *)
Definition same_core m m' : Prop :=
  binding_hash m' = binding_hash m /\ digits m' = digits m /\ cur_digit_len m' = cur_digit_len m /\ max_digit_len m' = max_digit_len m.

Lemma dm_wf_same m m' : same_core m m' -> wf m -> wf m'.
Proof. intros (Hh & Hd & Hc & Hm) [? ? ? ? ?]. split; rewrite ?Hh, ?Hd, ?Hc, ?Hm; done. Qed.

(** A realm replaced by one with no longer bindings. *)
Lemma wf_insert m name h : wf m -> Forall (fun b => zlen (b_digits b) <= max_digit_len m) (binding_list h) ->
  wf (set_hash (sm_insert (binding_hash m) name h) m).
Proof.
  intros [Hh Hd Hc Hm Hb] Hl. split; try done; cbn [set_hash binding_hash max_digit_len]; [by apply sm_insert_ok|].
  intros name' h'. rewrite sm_find_insert by done. case_bool_decide; [by intros [= <-]|apply Hb].
Qed.

Lemma wf_clear m : wf m -> wf (switch_ivr_dmachine_clear m).
Proof. intros [Hh Hd Hc Hm Hb]. split; try done; cbn; pose proof (zlen_nonneg (digits m)); lia. Qed.

Lemma find_existing_ok l d i : d <> [] -> exists r, find_existing l d i = Ok r.
Proof.
  intros Hd. revert i. induction l as [|b l IH]; intros i; cbn [find_existing]; [by eexists|].
  destruct d as [|c d]; [done|]. destruct (b_is_regex b); cbn [mbind res_bind]; case_match; eauto.
Qed.

Lemma Forall_alter_digits n i cb data l : Forall (fun b => zlen (b_digits b) <= n) l -> Forall (fun b => zlen (b_digits b) <= n) (alter (rebind cb data) i l).
Proof.
  intros Hl. revert i. induction Hl as [|b l Hb Hl IH]; intros [|i]; try done; constructor; try done; by apply IH.
Qed.

(** A larger maximum. *)
Lemma wf_set_max m n : wf m -> max_digit_len m <= n -> n < DMACHINE_MAX_DIGIT_LEN -> wf (set_max n m).
Proof.
  intros [Hh Hd Hc Hm Hb] Hle Hn. split; cbn [set_max binding_hash digits cur_digit_len max_digit_len]; try done; [lia|].
  intros name h Hf. eapply Forall_impl; [by apply (Hb name)|]. intros b. cbn beta. lia.
Qed.

Lemma wf_set_realm m name : wf m -> wf (switch_ivr_dmachine_set_realm name m).1.
Proof. unfold switch_ivr_dmachine_set_realm. destruct (sm_find _ _); [apply dm_wf_same|]; done. Qed.

(** Binding keeps the invariant; the new binding counts for the maximum. *)
Lemma dm_bind_wf m rname d key cb data : wf m -> d <> [] ->
  exists m' s, switch_ivr_dmachine_bind rname d key cb data m = Ok (m', s) /\ wf m'.
Proof.
  intros Hw Hd. unfold switch_ivr_dmachine_bind. destruct (Z.ltb_spec (DMACHINE_MAX_DIGIT_LEN - 1) (zlen d)) as [|Hlen]; [by eexists _, _|].
  set (name := if zstr rname then _ else _).
  assert (exists h headp, (match sm_find (binding_hash m) name with Some headp => (binding_hash m, headp)
    | None => (sm_insert (binding_hash m) name (Head [] None), Head [] None) end) = (h, headp) /\ wf (set_hash h m)
    /\ Forall (fun b => zlen (b_digits b) <= max_digit_len m) (binding_list headp)) as (h & headp & -> & Hw' & Hl).
  { destruct (sm_find (binding_hash m) name) as [headp|] eqn:E.
    - eexists _, _. split; [done|]. split; [by apply (dm_wf_same m)|]. by apply (wf_bindings m Hw name).
    - eexists _, _. split; [done|]. split; [|constructor]. by apply wf_insert. }
  destruct (find_existing_ok (binding_list headp) d 0 Hd) as [found ->]. cbn [mbind res_bind]. destruct found as [i|].
  - eexists _, _. split; [done|]. apply (wf_insert (set_hash h m)); [done|]. by apply Forall_alter_digits.
  - eexists _, _. split; [done|]. set (d' := if bool_decide (head d = Some 126) then drop 1 d else d).
    assert (zlen d' <= 511) as Hd' by (subst d'; unfold zlen, DMACHINE_MAX_DIGIT_LEN in *; case_match; rewrite ?length_drop; lia).
    set (b := Binding d' key 0 cb _ data). set (hd := Head (binding_list headp ++ [b]) (terminators headp)).
    assert (forall n, max_digit_len m <= n -> zlen d' <= n -> n < 512 -> forall m1, same_core (set_hash (sm_insert h name hd) m) m1 -> wf (set_max n m1)) as Hnew.
    { intros n H1 H2 H3 m1 (Eh & Ed & Ec & Em). apply (dm_wf_same (set_max n (set_hash (sm_insert h name hd) m))); [by repeat split|].
      apply (wf_insert (set_max n (set_hash h m))); [by apply wf_set_max|]. apply Forall_app. split; [|by repeat constructor].
      eapply Forall_impl; [exact Hl|]. intros b'. cbn. lia. }
    assert (exists m1, same_core (set_hash (sm_insert h name hd) m) m1 /\
      (if is_active (set_hash (sm_insert h name hd) m) name then set_hash (sm_insert h name hd) m
       else (switch_ivr_dmachine_set_realm name (set_hash (sm_insert h name hd) m)).1) = m1) as (m1 & Hsame & ->).
    { eexists. split; [|done]. unfold switch_ivr_dmachine_set_realm. by repeat case_match. }
    pose proof (wf_max m Hw) as Hmax. unfold DMACHINE_MAX_DIGIT_LEN in *. destruct Hsame as (Eh & Ed & Ec & Em). cbn in Em.
    case_match; [apply Hnew; done || lia|]. destruct (Z.ltb_spec (max_digit_len m1) (zlen d')); [apply Hnew; done || lia|].
    apply (dm_wf_same (set_max (max_digit_len m1) m1)); [by repeat split|]. apply Hnew; done || lia.
Qed.

(** A match that is reported has its binding. *)
Definition cand_ok (c : candidates) : Prop := (best c = DM_MATCH_EXACT -> exact_bp c <> None) /\ (best c = DM_MATCH_BOTH -> both_bp c <> None).

Lemma match_loop_ok l d t single plain full : forall c, cand_ok c -> cand_ok (match_loop l d t single plain full c).
Proof.
  induction l as [|b l IH]; intros c Hc; cbn [match_loop]; [done|]. destruct (b_is_regex b).
  { repeat case_match; try apply IH; try done; split; cbn; try done. }
  cbn zeta. set (found := negb (isset (exact_bp c)) && _ && _ && _). set (c1 := if found then Candidates DM_MATCH_EXACT (Some b) (partial_bp c) (both_bp c) else c).
  assert (cand_ok c1) as Hc1 by (subst c1; destruct found; [by split|done]). clearbody c1 found.
  destruct (found && full); [done|].
  match goal with |- context [if _ && negb _ && _ then ?x else c1] => set (c2 := x) end.
  assert (cand_ok c2) as Hc2 by (subst c2; case_match; by split). clearbody c2.
  destruct (_ && negb _ && _); (case_match; [done|]); by apply IH.
Qed.

Lemma strrchr_bound s c : forall i, strrchr s c = Some i -> 0 <= i.
Proof.
  induction s as [|x s IH]; intros i; cbn [strrchr]; [done|]. destruct (strrchr s c) as [j|].
  - intros [= <-]. specialize (IH j eq_refl). lia.
  - case_match; [|done]. by intros [= <-].
Qed.

Lemma cut_terminator_shorter ts d d' : cut_terminator ts d = Some d' -> zlen d' <= zlen d.
Proof.
  induction ts as [|t ts IH]; cbn [cut_terminator]; [done|]. destruct (strrchr d t) as [q|] eqn:E; [|done]. intros [= <-].
  apply strrchr_bound in E. rewrite zlen_ztake by lia. lia.
Qed.

(** What check_match guarantees to its caller. *)
Definition reported (is_timeout : bool) m (r : dm_match) : Prop :=
  r = DM_MATCH_EXACT \/ (r = DM_MATCH_BOTH /\ is_timeout = true) -> last_matching_binding m <> None.

Lemma conclude_ok c t t' m : cand_ok c -> wf m -> (t' = true -> t = true) ->
  wf (conclude c t m).1 /\ reported t' (conclude c t m).1 (conclude c t m).2.
Proof.
  intros [He Hb] Hw Ht. unfold conclude. set (r_bp := if t then _ else None).
  destruct (bool_decide_reflect (best c = DM_MATCH_EXACT)) as [E|E].
  - destruct (exact_bp c) as [e|]; [|by apply He in E]. cbn. split; [by apply (dm_wf_same m)|by intros _].
  - subst r_bp. destruct t.
    + destruct (both_bp c) as [b|] eqn:Eb; cbn; [split; [by apply (dm_wf_same m)|by intros _]|]. split; [done|].
      intros [?|[? _]]; [done|]. exfalso. by apply Hb.
    + cbn. split; [done|]. intros [?|[_ ->]]; [done|]. by specialize (Ht eq_refl).
Qed.

Lemma cand_none : cand_ok (Candidates DM_MATCH_NONE None None None).
Proof. by split. Qed.

Lemma count_binding_digits d b : b_digits (count_binding d b) = b_digits b.
Proof. unfold count_binding. by case_match. Qed.

Lemma check_match_ok t m : wf m ->
  wf (switch_ivr_dmachine_check_match t m).1 /\ reported t (switch_ivr_dmachine_check_match t m).1 (switch_ivr_dmachine_check_match t m).2.
Proof.
  intros Hw. unfold switch_ivr_dmachine_check_match, active. destruct (realm m) as [name|]; [|by apply conclude_ok; [apply cand_none|..]].
  cbn [mbind option_bind]. destruct (sm_find (binding_hash m) name) as [h|] eqn:E; [|by apply conclude_ok; [apply cand_none|..]].
  destruct (cur_digit_len m =? 0); [by apply conclude_ok; [apply cand_none|..]|]. cbn zeta.
  set (l := count_binding (digits m) <$> binding_list h). set (m1 := set_hash _ m).
  assert (wf m1) as Hw1.
  { apply wf_insert; [done|]. apply Forall_fmap. eapply Forall_impl; [by apply (wf_bindings m Hw name)|].
    intros b. unfold compose. by rewrite count_binding_digits. }
  assert (exists d t', (match (if zstr (terminators h) then None else cut_terminator (default [] (terminators h)) (digits m)) with
    | Some d => (d, true) | None => (digits m, t) end) = (d, t') /\ zlen d <= zlen (digits m) /\ (t = true -> t' = true)) as (d & t' & -> & Hd & Ht).
  { destruct (zstr (terminators h)); [by eexists _, _|]. destruct (cut_terminator _ _) as [d|] eqn:Ec; [|by eexists _, _].
    eexists _, _. split; [done|]. split; [|done]. by eapply cut_terminator_shorter. }
  apply conclude_ok; [|destruct Hw1; split; cbn in *; try done; lia|done].
  set (c := match_loop _ _ _ _ _ _ _). assert (cand_ok c) by (apply match_loop_ok, cand_none). by case_match.
Qed.

(** *** Operations keep the invariant *)

(** The result is there, and well-formed. *)
Definition safe {A} (r : res (dmachine H * A)) : Prop := exists m a, r = Ok (m, a) /\ wf m.

Definition op_ok (o : op) : Prop := match o with Bind _ d _ _ _ => d <> [] | _ => True end.

Lemma run_op_wf o m : wf m -> op_ok o -> exists m', run_op o m = Ok m' /\ wf m'.
Proof.
  intros Hw Ho. destruct o as [rname d key cb data|name|name|t|t|t|cb|cb| |]; cbn [run_op op_ok] in *.
  { destruct (dm_bind_wf m rname d key cb data Hw Ho) as (m' & s & -> & Hw'). by exists m'. }
  all: eexists; split; [done|]; try (by apply (dm_wf_same m)).
  - by apply wf_set_realm.
  - unfold switch_ivr_dmachine_clear_realm. destruct name as [name|]; [|done]. destruct (zstr (Some name)); [done|]. cbn [fst].
    set (m1 := if is_active m name then _ else m). assert (wf m1) as [Hh Hd Hc Hm Hb] by (subst m1; case_match; [by apply (dm_wf_same m)|done]).
    split; try done; cbn [set_hash binding_hash max_digit_len]; [by apply sm_delete_ok|].
    intros name' h'. rewrite sm_find_delete by done. case_bool_decide; [done|apply Hb].
  - unfold switch_ivr_dmachine_set_terminators, active. destruct (realm m) as [name|]; [|done]. cbn [mbind option_bind].
    destruct (sm_find (binding_hash m) name) as [h|] eqn:E; [|done]. apply wf_insert; [done|]. cbn. by apply (wf_bindings m Hw name).
  - unfold switch_ivr_dmachine_get_match. case_match; [by apply (dm_wf_same m)|done].
  - by apply wf_clear.
Qed.

Lemma run_ops_wf os : forall m, wf m -> Forall op_ok os -> exists m', run_ops os m = Ok m' /\ wf m'.
Proof.
  induction os as [|o os IH]; intros m Hw Hos; cbn [run_ops]; [by exists m|]. apply Forall_cons in Hos as [Ho Hos].
  destruct (run_op_wf o m Hw Ho) as (m1 & -> & Hw1). by apply IH.
Qed.

(** What is asked of the callbacks: they do not bind the empty string. *)
Definition callbacks_ok : Prop := forall f i d, Forall op_ok (callback f i d).1.

Lemma run_callback_safe cb r m : callbacks_ok -> wf m -> safe (run_callback cb r m).
Proof.
  intros Hcb Hw. unfold run_callback. destruct cb as [f|]; [|by exists m, r]. specialize (Hcb f (match_ m) (digits_at m)).
  destruct (callback f (match_ m) (digits_at m)) as [os s]. destruct (run_ops_wf os m Hw Hcb) as (m' & -> & Hw'). by eexists _, _.
Qed.

Lemma machine_callback_safe cb r m : callbacks_ok -> wf m -> safe (machine_callback cb r m).
Proof.
  intros Hcb Hw. unfold machine_callback. destruct cb as [f|]; [|by exists m, r]. apply run_callback_safe; [done|]. by apply (dm_wf_same m).
Qed.

Lemma positive_match_safe m : callbacks_ok -> wf m -> last_matching_binding m <> None -> safe (positive_match m).
Proof.
  intros Hcb Hw Hl. unfold positive_match. destruct (last_matching_binding m) as [b|]; [|done].
  set (m1 := set_is_match true _). assert (wf m1) as Hw1 by (by apply (dm_wf_same m)).
  destruct (run_callback_safe (b_callback b) SWITCH_STATUS_FOUND m1 Hcb Hw1) as (m2 & r & -> & Hw2). by apply machine_callback_safe.
Qed.

Lemma verdict_safe t r m : callbacks_ok -> wf m -> (r = DM_MATCH_EXACT \/ (r = DM_MATCH_BOTH /\ t = true) -> last_matching_binding m <> None) ->
  safe (verdict t r m).
Proof.
  intros Hcb Hw Hr. unfold verdict.
  assert (exists m1 s clear, (if bool_decide (digits m = []) && negb t then Ok (m, SWITCH_STATUS_SUCCESS, false)
     else if max_digit_len m <? cur_digit_len m then Ok (m, SWITCH_STATUS_FALSE, false)
     else if bool_decide (r = DM_MATCH_EXACT) || (bool_decide (r = DM_MATCH_BOTH) && t)
     then '(m, r) ← positive_match m; Ok (m, r, true)
     else if t then Ok (m, SWITCH_STATUS_TIMEOUT, false)
     else if bool_decide (r = DM_MATCH_NONE) && (cur_digit_len m =? max_digit_len m) then Ok (m, SWITCH_STATUS_NOTFOUND, false)
     else Ok (m, SWITCH_STATUS_SUCCESS, false)) = Ok (m1, s, clear) /\ wf m1) as (m1 & s & clear & -> & Hw1).
  { repeat (case_match; [try (by eexists _, _, _)|]); try (by eexists _, _, _).
    destruct (positive_match_safe m Hcb Hw) as (m1 & s & -> & Hw1); [|by eexists _, _, _].
    apply Hr. destruct (bool_decide_reflect (r = DM_MATCH_EXACT)); [by left|]. destruct (bool_decide_reflect (r = DM_MATCH_BOTH)); [by right|done]. }
  cbn [mbind res_bind]. assert (exists m2 s2 clear2, (if failed s then '(m, r) ← negative_match s m1; Ok (m, r, true) else Ok (m1, s, clear)) = Ok (m2, s2, clear2) /\ wf m2)
    as (m2 & s2 & clear2 & -> & Hw2).
  { destruct (failed s); [|by eexists _, _, _]. unfold negative_match. set (m2 := set_match _ _).
    assert (wf m2) as Hw2 by (by apply (dm_wf_same m1)). destruct (machine_callback_safe (nonmatch_callback m2) s m2 Hcb Hw2) as (m3 & s3 & -> & Hw3). by eexists _, _, _. }
  cbn [mbind res_bind]. eexists _, _. split; [done|]. destruct clear2; [|by apply (dm_wf_same m2)].
  apply (dm_wf_same (switch_ivr_dmachine_clear m2)); [done|by apply wf_clear].
Qed.

Lemma ping_safe now busy m : callbacks_ok -> wf m -> safe (switch_ivr_dmachine_ping now busy m).
Proof.
  intros Hcb Hw. unfold switch_ivr_dmachine_ping, switch_ivr_dmachine_check_timeout. set (m1 := if last_digit_time m =? 0 then _ else m). set (t := negb _ && _).
  assert (wf m1) as Hw1 by (subst m1; case_match; [by apply (dm_wf_same m)|done]).
  destruct (check_match_ok t m1 Hw1) as [Hw2 Hr]. destruct (switch_ivr_dmachine_check_match t m1) as [m2 r]. cbn [fst snd] in *.
  destruct busy; [by eexists _, _|].
  destruct (verdict_safe (t || bool_decide (r = DM_MATCH_NEVER)) r (set_locks (locks m2 + 1) m2) Hcb) as (m3 & s & -> & Hw3).
  - by apply (dm_wf_same m2).
  - intros Hx. apply Hr. destruct Hx as [->|[-> Ht]]; [by left|right]. by rewrite bool_decide_eq_false_2, orb_false_r in Ht by done.
  - eexists _, _. split; [done|]. by apply (dm_wf_same m3).
Qed.

Lemma feed_digit_safe p now now' m s : callbacks_ok -> wf m -> safe (feed_digit p now now' m s).
Proof.
  intros Hcb Hw. unfold feed_digit. cbn [set_locks cur_digit_len max_digit_len digits]. pose proof Hw as [Hh Hd Hc Hm Hb].
  destruct (Z.ltb_spec (cur_digit_len m) (max_digit_len m)) as [Hlt|]; [|eexists _, _; split; [done|]; by apply (dm_wf_same m)].
  unfold DMACHINE_MAX_DIGIT_LEN in *. pose proof (zlen_nonneg (digits m)). replace (512 <=? zlen (digits m) + 1) with false by lia.
  set (m1 := set_time now _). assert (wf m1) as Hw1.
  { split; try done; subst m1; cbn [set_time set_locks set_digits digits cur_digit_len max_digit_len]; rewrite ?zlen_app, ?zlen_cons, ?zlen_nil; cint; lia. }
  case_match; [|by eexists _, _]. destruct (ping_safe now' false m1 Hcb Hw1) as (m2 & s2 & -> & Hw2). by eexists _, _.
Qed.

Lemma feed_safe ds m : callbacks_ok -> wf m -> safe (switch_ivr_dmachine_feed ds m).
Proof.
  intros Hcb. unfold switch_ivr_dmachine_feed. generalize (match ds with [] => SWITCH_STATUS_BREAK | _ => SWITCH_STATUS_SUCCESS end). revert m.
  induction ds as [|[[p now] now'] ds IH]; intros m s Hw; cbn [feed_loop]; [by exists m, s|].
  destruct (feed_digit_safe p now now' m s Hcb Hw) as (m1 & s1 & -> & Hw1). by apply IH.
Qed.

Lemma dm_create_wf dt it a b data : wf (switch_ivr_dmachine_create dt it a b data).
Proof. split; [apply sm_empty_ok|done..|]. cbn. intros name h. by rewrite sm_find_empty. Qed.

(** *** Sequences of requests *)

Inductive request := Op (o : op) | Feed (ds : list (Z * Z * Z)) | Ping (now : Z) (busy : bool).

Definition request_ok (q : request) : Prop := match q with Op o => op_ok o | _ => True end.

Definition serve (q : request) m : res (dmachine H) :=
  match q with Op o => run_op o m | Feed ds => fst <$> switch_ivr_dmachine_feed ds m | Ping now busy => fst <$> switch_ivr_dmachine_ping now busy m end.

Fixpoint serve_all (qs : list request) m : res (dmachine H) :=
  match qs with [] => Ok m | q :: qs => m ← serve q m; serve_all qs m end.

Lemma serve_wf q m : callbacks_ok -> wf m -> request_ok q -> exists m', serve q m = Ok m' /\ wf m'.
Proof.
  intros Hcb Hw Hq. destruct q as [o|ds|now busy]; cbn [serve].
  - by apply run_op_wf.
  - destruct (feed_safe ds m Hcb Hw) as (m' & s & -> & Hw'). by exists m'.
  - destruct (ping_safe now busy m Hcb Hw) as (m' & s & -> & Hw'). by exists m'.
Qed.

End invariant.

(** A digit machine is safe to use.  Whatever is bound to it, fed to it and
    asked of it in any order, with any callbacks that change realms, bindings
    and timeouts but do not bind the empty string, it never writes behind its
    buffers and never uses a missing binding, and its invariant holds: the
    digits collected are at most those counted, those at most the longest
    binding, and that less than the size of the buffers. *)
Theorem dmachine_safe {H} {SM : StringMap H dm_binding_head} {SV : Services} (dt it data : Z) (a b : option Z) (qs : list request) :
  callbacks_ok -> Forall request_ok qs ->
  exists m, serve_all qs (switch_ivr_dmachine_create dt it a b data) = Ok m /\ wf m.
Proof.
  intros Hcb. generalize (dm_create_wf (H := H) dt it a b data). generalize (switch_ivr_dmachine_create (H := H) dt it a b data).
  induction qs as [|q qs IH]; intros m Hw Hqs; cbn [serve_all]; [by exists m|]. apply Forall_cons in Hqs as [Hq Hqs].
  destruct (serve_wf q m Hcb Hw Hq) as (m1 & -> & Hw1). by apply IH.
Qed.

(** ** Recognition *)

Section recognition.
Context {H : Type} {SM : StringMap H dm_binding_head} {SV : Services}.
Implicit Types m : dmachine H.

(** Some binding goes on behind the digits [u]. *)
Definition longer (u : bytes) (b : binding) : bool := pmatch_of u b && negb (zlen (b_digits b) =? zlen u).
Definition extended (l : list binding) (u : bytes) : bool := existsb (longer u) l.

(** A realm of digit strings: no regular expressions, callbacks or empty
    strings, no string twice, and a string before those that begin with it. *)
Record realm_ok (l : list binding) : Prop := {
  realm_plain : Forall (fun b => b_is_regex b = false /\ b_callback b = None /\ b_digits b <> []) l;
  realm_order : forall l1 e l2, l = l1 ++ e :: l2 -> Forall (fun b => b_digits b <> b_digits e /\ longer (b_digits e) b = false) l1;
  realm_once : forall l1 e l2, l = l1 ++ e :: l2 -> Forall (fun b => b_digits b <> b_digits e) l2 }.

Lemma pmatch_spec u b : pmatch_of u b = true <-> exists v, b_digits b = u ++ v.
Proof.
  unfold pmatch_of, strneq. rewrite streq_spec, ztake_all by lia. split.
  - intros Hu. exists (zdrop (zlen u) (b_digits b)). rewrite Hu at 1. symmetry. apply ztake_zdrop.
  - intros [v ->]. by rewrite ztake_app_exact.
Qed.

Lemma longer_spec u b : longer u b = true <-> exists c v, b_digits b = u ++ c :: v.
Proof.
  unfold longer. rewrite andb_true_iff, negb_true_iff, Z.eqb_neq, pmatch_spec. split.
  - intros [[[|c v] Hv] Hl]; [|by exists c, v]. rewrite Hv, app_nil_r in Hl. done.
  - intros (c & v & ->). split; [by eexists|]. rewrite zlen_app, zlen_cons. pose proof (zlen_nonneg v). lia.
Qed.

Lemma pmatch_cases u b : pmatch_of u b = longer u b || streq (b_digits b) u.
Proof.
  apply eq_bool_prop_intro. rewrite !Is_true_true, orb_true_iff, streq_spec, pmatch_spec, longer_spec. split.
  - intros [[|c v] Hv]; [right; by rewrite Hv, app_nil_r|left; by exists c, v].
  - intros [(c & v & ->)| ->]; [by eexists|]. exists []. by rewrite app_nil_r.
Qed.

(** Before an exact match has been found. *)
Lemma match_loop_none l d t single plain full rest : forall c,
  Forall (fun b => b_is_regex b = false) l -> Forall (fun b => b_digits b <> d) l -> exact_bp c = None -> both_bp c = None ->
  exists c', match_loop (l ++ rest) d t single plain full c = match_loop rest d t single plain full c' /\
    exact_bp c' = None /\ both_bp c' = None /\ best c' = if extended l d then DM_MATCH_PARTIAL else best c.
Proof.
  induction l as [|b l IH]; intros c Hr Hne He Hb; [by exists c|]. apply Forall_cons in Hr as [Hr1 Hr], Hne as [Hne1 Hne].
  cbn [app match_loop extended existsb]. rewrite Hr1, pmatch_cases. fold (extended l d). assert (streq (b_digits b) d = false) as -> by (unfold streq; by apply bool_decide_eq_false_2).
  rewrite andb_false_r, orb_false_r. cbn [andb]. rewrite Hb, He. cbn -[match_loop longer extended].
  replace (negb (zlen (b_digits b) =? zlen d) && longer d b) with (longer d b) by (unfold longer; destruct (pmatch_of d b), (zlen (b_digits b) =? zlen d); done).
  destruct (longer d b); cbn [orb].
  - destruct (IH (Candidates DM_MATCH_PARTIAL None (Some b) None)) as (c' & Hc' & H1 & H2 & H3); [done..|]. cbn -[match_loop extended].
    exists c'. split_and!; [done..|]. rewrite H3. by case_match.
  - rewrite Hb, He. cbn [andb isset]. by apply IH.
Qed.

(** After one has been found. *)
Lemma match_loop_found l d t single plain full e : forall c,
  Forall (fun b => b_is_regex b = false) l -> Forall (fun b => b_digits b <> d) l ->
  exact_bp c = Some e -> best c = (if isset (both_bp c) then DM_MATCH_BOTH else DM_MATCH_EXACT) ->
  let c' := match_loop l d t single plain full c in
  exact_bp c' = Some e /\ best c' = (if isset (both_bp c') then DM_MATCH_BOTH else DM_MATCH_EXACT) /\
  best c' = if extended l d then DM_MATCH_BOTH else best c.
Proof.
  induction l as [|b l IH]; intros c Hr Hne He Hb; [done|]. apply Forall_cons in Hr as [Hr1 Hr], Hne as [Hne1 Hne].
  cbn [match_loop extended existsb]. rewrite Hr1, pmatch_cases. fold (extended l d). assert (streq (b_digits b) d = false) as -> by (unfold streq; by apply bool_decide_eq_false_2).
  rewrite andb_false_r, orb_false_r. cbn [andb]. rewrite He. cbn -[match_loop longer extended].
  replace (negb (isset (both_bp c) && isset (partial_bp c)) && negb (zlen (b_digits b) =? zlen d) && longer d b)
    with (negb (isset (both_bp c) && isset (partial_bp c)) && longer d b)
    by (unfold longer; destruct (pmatch_of d b), (zlen (b_digits b) =? zlen d); by rewrite ?andb_true_r, ?andb_false_r).
  destruct c as [bst ex pa bo]. cbn [best exact_bp partial_bp both_bp] in *. subst ex bst.
  destruct bo as [bo|], pa as [pa|], (longer d b); cbn -[match_loop longer extended];
    try (split_and!; [done..|by destruct (extended l d)]);
    match goal with |- context [match_loop l d t single plain full ?c] => destruct (IH c) as (H1 & H2 & H3) end; try done;
    rewrite H1, H3 in *; (split_and!; [done|done|]); by destruct (extended l d).
Qed.

Lemma extended_app l1 l2 d : extended (l1 ++ l2) d = extended l1 d || extended l2 d.
Proof. apply existsb_app. Qed.

(** Where the string itself is in the list: the others that begin with it
    follow. *)
Lemma match_loop_exact l1 e l2 t single plain full :
  Forall (fun b => b_is_regex b = false) (l1 ++ e :: l2) -> Forall (fun b => b_digits b <> b_digits e) l1 -> Forall (fun b => b_digits b <> b_digits e) l2 ->
  plain || t = true ->
  let c := match_loop (l1 ++ e :: l2) (b_digits e) t single plain full (Candidates DM_MATCH_NONE None None None) in
  exact_bp c = Some e /\ best c = (if isset (both_bp c) then DM_MATCH_BOTH else DM_MATCH_EXACT) /\
  best c = if negb full && extended l2 (b_digits e) then DM_MATCH_BOTH else DM_MATCH_EXACT.
Proof.
  intros Hr H1 H2 Ht. apply Forall_app in Hr as [Hr1 Hr]. apply Forall_cons in Hr as [Hre Hr2]. cbn zeta.
  destruct (match_loop_none l1 (b_digits e) t single plain full (e :: l2) (Candidates DM_MATCH_NONE None None None)) as (c' & -> & He & Hb & _); [done..|].
  cbn [match_loop]. rewrite Hre, pmatch_cases, He, Ht. rewrite (proj2 (streq_spec _ _) eq_refl), orb_true_r, Z.eqb_refl. cbn [isset negb andb].
  destruct full; cbn [exact_bp both_bp best negb andb]; [by rewrite Hb|]. rewrite andb_false_r. cbn [andb]. rewrite Hb. cbn [isset andb].
  destruct (match_loop_found l2 (b_digits e) t single plain false e (Candidates DM_MATCH_EXACT (Some e) (partial_bp c') None)) as (H3 & H4 & H5); [done..|].
  cbn zeta in *. split_and!; [exact H3|exact H4|exact H5].
Qed.

(** ** The automaton it implements *)

Inductive outcome := Waiting | Recognised (e : binding) | Rejected.

Definition lookup_digits (l : list binding) (u : bytes) : option binding := snd <$> list_find (fun b => b_digits b = u) l.

(** What is to become of the digits [u]; [late] when the time is over. *)
Definition judge (l : list binding) (u : bytes) (late : bool) : outcome :=
  match lookup_digits l u with
  | Some e => if late || negb (extended l u) then Recognised e else Waiting
  | None => if late || negb (extended l u) then Rejected else Waiting
  end.

(** A machine without callbacks that has collected the digits [u] in a realm. *)
Record collected (h : dm_binding_head) (u : bytes) m : Prop := {
  col_wf : wf m;
  col_active : active m = Some h;
  col_realm : realm_ok (binding_list h);
  col_terminators : zstr (terminators h) = true;
  col_digits : digits m = u;
  col_len : cur_digit_len m = zlen u;
  col_callbacks : match_callback m = None /\ nonmatch_callback m = None }.

(** One that waits for another digit. *)
Definition ready (h : dm_binding_head) (u : bytes) m : Prop :=
  collected h u m /\ binding_list h <> [] /\ (u <> [] -> extended (binding_list h) u = true).

Definition judged (h : dm_binding_head) (u : bytes) (o : outcome) m (r : switch_status) : Prop :=
  match o with
  | Waiting => r = SWITCH_STATUS_SUCCESS /\ ready h u m
  | Recognised e => r = SWITCH_STATUS_FOUND /\ ready h [] m /\ is_match m = true /\ last_matching_digits m = u /\
                    match_ m = Match (Some LastMatchingDigits) (b_key e) DM_MATCH_POSITIVE (b_user_data e)
  | Rejected => r = SWITCH_STATUS_TIMEOUT /\ ready h [] m /\ last_failed_digits m = u /\
                match_digits (match_ m) = Some LastFailedDigits /\ match_type (match_ m) = DM_MATCH_NEGATIVE
  end.

(** *** The match on plain realms *)

Lemma lookup_split l u e : realm_ok l -> lookup_digits l u = Some e ->
  exists l1 l2, l = l1 ++ e :: l2 /\ b_digits e = u /\ Forall (fun b => b_digits b <> u) l1 /\ Forall (fun b => b_digits b <> u) l2 /\
    extended l1 u = false.
Proof.
  intros Hl. unfold lookup_digits. destruct (list_find _ l) as [[i e']|] eqn:E; [|done]. cbn. intros [= ->].
  apply list_find_Some in E as (Hi & <- & _). apply take_drop_middle in Hi. exists (take i l), (drop (S i) l). symmetry in Hi.
  pose proof (realm_order l Hl _ _ _ Hi) as Ho. pose proof (realm_once l Hl _ _ _ Hi) as H2. split_and!; try done.
  - eapply Forall_impl; [exact Ho|]. by intros b [? _].
  - unfold extended. apply not_true_iff_false. rewrite existsb_exists. intros (b & Hb & Hlong). apply list_elem_of_In in Hb.
    rewrite Forall_forall in Ho. destruct (Ho b Hb) as [_ Hf]. congruence.
Qed.

Lemma lookup_none l u : lookup_digits l u = None -> Forall (fun b => b_digits b <> u) l.
Proof. unfold lookup_digits. destruct (list_find _ l) as [[i e]|] eqn:E; [done|]. intros _. by apply list_find_None in E. Qed.

Lemma plain_counts l u : Forall (fun b => b_is_regex b = false) l ->
  count_binding u <$> l = l /\ rmatches_of l = 0 /\ (pmatches_of u l =? 0) = negb (existsb (pmatch_of u) l) /\
  ematches_of u l = if existsb (pmatch_of u) l then 1 else 0.
Proof.
  intros Hl. unfold rmatches_of, pmatches_of, ematches_of. induction Hl as [|b l Hb Hl (IH1 & IH2 & IH3 & IH4)]; [done|].
  rewrite !filter_cons. cbn [fmap list_fmap existsb]. unfold count_binding at 1. rewrite Hb, IH1. cbn [orb negb andb].
  rewrite decide_False by done. split_and!; [done|done| |].
  - destruct (pmatch_of u b); cbn [orb negb]; [rewrite decide_True by done|by rewrite decide_False by done].
    rewrite zlen_cons. pose proof (zlen_nonneg (filter (fun b => b_is_regex b || pmatch_of u b = true) l)). lia.
  - destruct (pmatch_of u b); [done|exact IH4].
Qed.

Lemma pmatch_any l u : existsb (pmatch_of u) l = extended l u || isset (lookup_digits l u).
Proof.
  unfold lookup_digits, extended. induction l as [|b l IH]; [done|]. cbn [existsb list_find]. rewrite IH, pmatch_cases. unfold streq.
  destruct (decide (b_digits b = u)) as [E|E].
  - rewrite bool_decide_eq_true_2 by done. cbn. by rewrite !orb_true_r.
  - rewrite bool_decide_eq_false_2, orb_false_r by done. destruct (list_find _ l) as [[i e]|]; cbn; by destruct (longer u b), (existsb _ l).
Qed.

Lemma extended_room h u m : wf m -> active m = Some h -> extended (binding_list h) u = true -> zlen u < max_digit_len m.
Proof.
  intros Hw Ha He. unfold extended in He. apply existsb_exists in He as (b & Hb & Hl). apply list_elem_of_In in Hb.
  unfold active in Ha. destruct (realm m) as [name|]; [|done]. cbn in Ha. pose proof (wf_bindings m Hw name h Ha) as Hf. rewrite Forall_forall in Hf.
  specialize (Hf b Hb). cbn in Hf. apply longer_spec in Hl as (c & v & Hd). rewrite Hd, zlen_app, zlen_cons in Hf. pose proof (zlen_nonneg v). lia.
Qed.

(** The grade the match gives to the digits of a plain realm. *)
Definition grade (l : list binding) (u : bytes) (late : bool) : dm_match :=
  match lookup_digits l u with
  | Some _ => if late || negb (extended l u) then DM_MATCH_EXACT else DM_MATCH_BOTH
  | None => if extended l u then DM_MATCH_PARTIAL else DM_MATCH_NEVER
  end.

(** The second pass and its conclusion. *)
Lemma match_loop_grade l u t single full m :
  Forall (fun b => b_is_regex b = false) l -> realm_ok l -> (full = true -> extended l u = false) -> u = digits m -> zlen u < DMACHINE_MAX_DIGIT_LEN ->
  let any := existsb (pmatch_of u) l in
  let c := match_loop l u t single any full (Candidates DM_MATCH_NONE None None None) in
  let c := if negb any then Candidates DM_MATCH_NEVER (exact_bp c) (partial_bp c) (both_bp c) else c in
  conclude c t m = (match lookup_digits l u with Some e => if t || negb (extended l u) then set_matching (Some e) u m else m | None => m end, grade l u t).
Proof.
  intros Hr Hl Hfull Hu Hlen. cbn zeta. rewrite pmatch_any. unfold grade. destruct (lookup_digits l u) as [e|] eqn:E.
  - rewrite orb_true_r. cbn [negb]. destruct (lookup_split l u e Hl E) as (l1 & l2 & Hsplit & He & H1 & H2 & Hext).
    assert (extended l u = extended l2 u) as Hx.
    { rewrite Hsplit, extended_app, Hext. cbn [extended existsb orb]. unfold longer at 1. by rewrite He, Z.eqb_refl, andb_false_r. }
    rewrite Hsplit in Hr. subst u. rewrite <-He in *. rewrite Hsplit at 1.
    destruct (match_loop_exact l1 e l2 t single true full Hr H1 H2 eq_refl) as (Hex & Hbb & Hbest). cbn zeta in *.
    set (c := match_loop _ _ _ _ _ _ _) in *. clearbody c. rewrite Hx in *. unfold conclude.
    assert (negb full && extended l2 (b_digits e) = extended l2 (b_digits e)) as Hf by (destruct full; [by rewrite Hfull|done]). rewrite Hf in Hbest.
    rewrite Hex. rewrite <-He, ztake_all by (unfold DMACHINE_MAX_DIGIT_LEN in *; rewrite ?He in *; lia).
    destruct (extended l2 (b_digits e)); rewrite Hbest in *.
    + rewrite bool_decide_eq_false_2 by done. destruct (both_bp c) as [bo|]; [|done]. by destruct t; rewrite ?orb_true_r.
    + rewrite bool_decide_eq_true_2 by done. by rewrite orb_true_r.
  - rewrite orb_false_r. cbn [isset].
    destruct (match_loop_none l u t single (extended l u || false) full [] (Candidates DM_MATCH_NONE None None None)) as (c & Hc & Hex & Hbo & Hbest);
      [done|by apply lookup_none|done..|]. rewrite app_nil_r in Hc. rewrite orb_false_r in *. rewrite Hc. cbn [match_loop]. unfold conclude.
    destruct (extended l u); cbn [negb best exact_bp both_bp]; rewrite Hex, Hbo, ?Hbest; by destruct t.
Qed.

Lemma collected_same h u m m' : collected h u m -> same_core m m' -> realm m' = realm m ->
  match_callback m' = match_callback m -> nonmatch_callback m' = nonmatch_callback m -> collected h u m'.
Proof.
  intros [Hw Ha Hl Ht Hd Hlen Hcb] Hs Hr H1 H2. pose proof Hs as (Eh & Ed & Ec & _). split; try done; try congruence.
  - by apply (dm_wf_same m).
  - unfold active in *. by rewrite Hr, Eh.
Qed.

(** The realm is written back as it was. *)
Lemma collected_rewritten h u m name : collected h u m -> realm m = Some name ->
  collected h u (set_digits u (cur_digit_len m) (set_hash (sm_insert (binding_hash m) name h) m)).
Proof.
  intros Hc Hn. pose proof Hc as [Hw Ha Hl Ht Hd Hlen Hcb].
  assert (sm_find (binding_hash m) name = Some h) as Hf by (unfold active in Ha; rewrite Hn in Ha; exact Ha).
  assert (wf (set_hash (sm_insert (binding_hash m) name h) m)) as Hw' by (apply wf_insert; [done|by apply (wf_bindings m Hw name)]).
  split; try done.
  - apply (dm_wf_same (set_hash (sm_insert (binding_hash m) name h) m)); [|done]. by repeat split.
  - unfold active. cbn. rewrite Hn. cbn. rewrite sm_find_insert by apply Hw. by rewrite bool_decide_eq_true_2.
Qed.

Lemma check_match_plain h u m t : collected h u m -> u <> [] ->
  exists m', collected h u m' /\ last_digit_time m' = last_digit_time m /\ user_data m' = user_data m /\
    switch_ivr_dmachine_check_match t m
    = (match lookup_digits (binding_list h) u with
       | Some e => if t || negb (extended (binding_list h) u) then set_matching (Some e) u m' else m'
       | None => m'
       end, grade (binding_list h) u t).
Proof.
  intros Hc Hu. pose proof Hc as [Hw Ha Hl Ht Hd Hlen Hcb]. unfold switch_ivr_dmachine_check_match. rewrite Ha.
  destruct (realm m) as [name|] eqn:Hn; [|by unfold active in Ha; rewrite Hn in Ha].
  assert (0 < zlen u) as Hpos by (destruct u as [|c u]; [done|rewrite zlen_cons; pose proof (zlen_nonneg u); lia]).
  replace (cur_digit_len m =? 0) with false by lia. rewrite Ht, Hd.
  assert (Forall (fun b => b_is_regex b = false) (binding_list h)) as Hr by (eapply Forall_impl; [apply (realm_plain _ Hl)|]; by intros b [? _]).
  destruct (plain_counts (binding_list h) u Hr) as (-> & -> & -> & ->). replace (Head (binding_list h) (terminators h)) with h by (by destruct h).
  set (m1 := set_digits _ _ _). pose proof (collected_rewritten h u m name Hc Hn) as Hc1. change (set_digits u _ _) with m1 in Hc1.
  exists m1. split_and!; [done|done|done|].
  replace (((pmatches_of u (binding_list h) =? 1) || ((if existsb (pmatch_of u) (binding_list h) then 1 else 0) =? 1)) && (0 =? 0))
    with (existsb (pmatch_of u) (binding_list h)).
  - apply match_loop_grade; try done; [|pose proof (wf_max m Hw); pose proof (wf_cur m Hw); lia].
    intros Hfull. apply not_true_iff_false. intros Hx. pose proof (extended_room h u m Hw Ha Hx). subst m1. cbn in Hfull. lia.
  - destruct (plain_counts (binding_list h) u Hr) as (_ & _ & Hp & _). rewrite andb_true_r. destruct (existsb _ _); [by rewrite orb_true_r|].
    cbn [negb] in Hp. replace (pmatches_of u (binding_list h) =? 1) with false by lia. done.
Qed.

(** *** The verdict on them *)

Lemma verdict_waiting t r m : digits m <> [] -> cur_digit_len m <= max_digit_len m -> t = false -> r = DM_MATCH_PARTIAL \/ r = DM_MATCH_BOTH ->
  verdict t r m = Ok (set_last_return SWITCH_STATUS_SUCCESS m, SWITCH_STATUS_SUCCESS).
Proof.
  intros Hd Hc -> Hr. unfold verdict. rewrite bool_decide_eq_false_2 by done. cbn [andb]. replace (max_digit_len m <? cur_digit_len m) with false by lia.
  by destruct Hr as [-> | ->].
Qed.

Lemma verdict_found t m e : digits m <> [] -> cur_digit_len m <= max_digit_len m -> last_matching_binding m = Some e ->
  b_callback e = None -> match_callback m = None ->
  verdict t DM_MATCH_EXACT m
  = Ok (set_last_return SWITCH_STATUS_FOUND (switch_ivr_dmachine_clear
      (set_is_match true (set_match (Match (Some LastMatchingDigits) (b_key e) DM_MATCH_POSITIVE (b_user_data e)) m))), SWITCH_STATUS_FOUND).
Proof.
  intros Hd Hc Hl He Hcb. unfold verdict, positive_match. rewrite bool_decide_eq_false_2 by done. cbn [andb]. replace (max_digit_len m <? cur_digit_len m) with false by lia.
  rewrite Hl, He. cbn [bool_decide run_callback mbind res_bind]. unfold machine_callback. cbn [match_callback set_is_match set_match]. by rewrite Hcb.
Qed.

Lemma negative_match_plain r m : nonmatch_callback m = None -> zlen (digits m) < DMACHINE_MAX_DIGIT_LEN ->
  negative_match r m
  = Ok (set_match (Match (Some LastFailedDigits) (match_key (match_ m)) DM_MATCH_NEGATIVE (match_user_data (match_ m))) (set_failed (digits m) m), r).
Proof.
  intros Hcb Hlen. unfold negative_match, machine_callback. cbn [nonmatch_callback set_match set_failed]. rewrite Hcb.
  by rewrite ztake_all by (unfold DMACHINE_MAX_DIGIT_LEN in *; lia).
Qed.

Lemma verdict_rejected r m : digits m <> [] -> cur_digit_len m <= max_digit_len m -> r = DM_MATCH_NEVER \/ r = DM_MATCH_PARTIAL ->
  nonmatch_callback m = None -> zlen (digits m) < DMACHINE_MAX_DIGIT_LEN ->
  exists m', verdict true r m = Ok (m', SWITCH_STATUS_TIMEOUT) /\ m' = set_last_return SWITCH_STATUS_TIMEOUT (switch_ivr_dmachine_clear
    (set_match (Match (Some LastFailedDigits) (match_key (match_ m)) DM_MATCH_NEGATIVE (match_user_data (match_ m))) (set_failed (digits m) m))).
Proof.
  intros Hd Hc Hr Hcb Hlen. eexists. split; [|done]. unfold verdict. rewrite !bool_decide_eq_false_2 by (done || by destruct Hr as [-> | ->]). cbn [andb orb].
  replace (max_digit_len m <? cur_digit_len m) with false by lia. cbn [mbind res_bind failed]. by rewrite negative_match_plain.
Qed.

(** *** One ping *)

(** More than the timeout has passed; a timeout of zero never does. *)
Definition timed_out (timeout passed : Z) : bool := negb (timeout =? 0) && (timeout <? u32 (Z.quot passed 1000)).

Lemma collected_clear h u m : collected h u m -> collected h [] (switch_ivr_dmachine_clear m).
Proof. intros [Hw Ha Hl Ht Hd Hlen Hcb]. split; try done. by apply wf_clear. Qed.

Lemma ready_clear h u m : collected h u m -> binding_list h <> [] -> ready h [] (switch_ivr_dmachine_clear m).
Proof. intros Hc Hne. split_and!; [by eapply collected_clear|done|done]. Qed.

Lemma ready_same h u m m' : ready h u m -> same_core m m' -> realm m' = realm m ->
  match_callback m' = match_callback m -> nonmatch_callback m' = nonmatch_callback m -> ready h u m'.
Proof. intros (Hc & Hr) ????. split; [by eapply (collected_same h u m)|done]. Qed.

(** The verdict is the judgement. *)
Lemma verdict_judged h u m t : collected h u m -> u <> [] -> binding_list h <> [] ->
  let m1 := match lookup_digits (binding_list h) u with
            | Some e => if t || negb (extended (binding_list h) u) then set_matching (Some e) u m else m
            | None => m
            end in
  let g := grade (binding_list h) u t in
  exists m2 r, verdict (t || bool_decide (g = DM_MATCH_NEVER)) g m1 = Ok (m2, r) /\ judged h u (judge (binding_list h) u t) m2 r.
Proof.
  intros Hc Hu Hne. pose proof Hc as [Hw Ha Hl Ht Hd Hlen [Hmc Hnc]]. pose proof (wf_cur m Hw) as Hcur. pose proof (wf_max m Hw) as Hmax. cbn zeta. unfold grade, judge.
  destruct (lookup_digits (binding_list h) u) as [e|] eqn:E; [destruct (t || negb (extended (binding_list h) u)) eqn:Et|].
  - assert (b_callback e = None) as He.
    { destruct (lookup_split _ _ _ Hl E) as (l1 & l2 & Hsplit & _). pose proof (realm_plain _ Hl) as Hp. rewrite Hsplit in Hp. apply Forall_app in Hp as [_ Hp]. by apply Forall_cons in Hp as [(_ & ? & _) _]. }
    rewrite (verdict_found _ _ e) by (cbn; congruence || lia). eexists _, _. split; [done|]. split_and!; try done.
    eapply ready_same; [apply (ready_clear h u m Hc Hne)|..]; done.
  - apply orb_false_iff in Et as [-> Hx]. apply negb_false_iff in Hx. rewrite verdict_waiting by (congruence || lia || auto). eexists _, _. split; [done|]. split; [done|].
    eapply (ready_same h u m); [|done..]. done.
  - destruct (extended (binding_list h) u) eqn:Hx; cbn [negb]; rewrite ?orb_false_r, ?orb_true_r.
    + destruct t.
      * destruct (verdict_rejected DM_MATCH_PARTIAL m) as (m' & Hv & ->); [congruence|lia|by right|done|rewrite Hd; lia|]. rewrite Hd in *. rewrite Hv. eexists _, _. split; [done|].
        split_and!; try done. eapply ready_same; [apply (ready_clear h u m Hc Hne)|..]; done.
      * rewrite verdict_waiting by (congruence || lia || auto). eexists _, _. split; [done|]. split; [done|]. eapply (ready_same h u m); [|done..]. done.
    + destruct (verdict_rejected DM_MATCH_NEVER m) as (m' & Hv & ->); [congruence|lia|by left|done|rewrite Hd; lia|]. rewrite Hd in *. rewrite Hv. eexists _, _. split; [done|].
      split_and!; try done. eapply ready_same; [apply (ready_clear h u m Hc Hne)|..]; done.
Qed.

Lemma judged_same h u o m m' r : judged h u o m r -> same_core m m' -> realm m' = realm m -> match_callback m' = match_callback m ->
  nonmatch_callback m' = nonmatch_callback m -> is_match m' = is_match m -> match_ m' = match_ m ->
  last_matching_digits m' = last_matching_digits m -> last_failed_digits m' = last_failed_digits m -> judged h u o m' r.
Proof.
  intros Hj Hs Hr H1 H2 H3 H4 H5 H6. destruct o as [|e|]; cbn [judged] in *.
  - destruct Hj as [? Hj]. split; [done|]. by eapply (ready_same h u m).
  - destruct Hj as (? & Hj & ? & ? & ?). split_and!; try congruence. by eapply (ready_same h [] m).
  - destruct Hj as (? & Hj & ? & ? & ?). split_and!; try congruence. by eapply (ready_same h [] m).
Qed.

Lemma ping_judged h u m now : collected h u m -> u <> [] -> binding_list h <> [] -> last_digit_time m <> 0 ->
  exists m' r, switch_ivr_dmachine_ping now false m = Ok (m', r) /\
    judged h u (judge (binding_list h) u (timed_out (digit_timeout_ms m) (now - last_digit_time m))) m' r.
Proof.
  intros Hc Hu Hne Htime. unfold switch_ivr_dmachine_ping, switch_ivr_dmachine_check_timeout. pose proof Hc as [Hw Ha Hl Ht Hd Hlen Hcb].
  replace (last_digit_time m =? 0) with false by lia.
  assert (0 < zlen u) as Hpos by (destruct u as [|c u']; [done|rewrite zlen_cons; pose proof (zlen_nonneg u'); lia]).
  replace (cur_digit_len m =? 0) with false by lia. fold (timed_out (digit_timeout_ms m) (now - last_digit_time m)). set (t := timed_out _ _).
  destruct (check_match_plain h u m t Hc Hu) as (m1 & Hc1 & _ & _ & ->).
  destruct (verdict_judged h u (set_locks (locks m1 + 1) m1) t) as (m2 & r & Hv & Hj); [by eapply (collected_same h u m1)|done|done|].
  exists (set_locks (locks m2 - 1) m2), r. split; [|by apply (judged_same h u _ m2)]. revert Hv.
  destruct (lookup_digits (binding_list h) u); [destruct (t || negb (extended (binding_list h) u))|]; intros Hv;
    exact (bind_ok _ _ _ Hv).
Qed.

(** *** One digit *)

Lemma feed_judged h u m p now now' : ready h u m -> now <> 0 ->
  exists m' r, switch_ivr_dmachine_feed [(p, now, now')] m = Ok (m', r) /\
    judged h (u ++ [p]) (judge (binding_list h) (u ++ [p]) (timed_out (digit_timeout_ms m) (now' - now))) m' r.
Proof.
  intros (Hc & Hne & Hmore) Hnow. pose proof Hc as [Hw Ha Hl Ht Hd Hlen [Hmc Hnc]]. unfold switch_ivr_dmachine_feed. cbn [feed_loop].
  assert (zlen u < max_digit_len m) as Hroom.
  { destruct u as [|c u]; [|apply (extended_room h); [done|done|by apply Hmore]]. apply (extended_room h); [done|done|].
    destruct (binding_list h) as [|b l] eqn:El; [done|]. pose proof (realm_plain _ Hl) as Hp. apply Forall_cons in Hp as [(_ & _ & Hb) _].
    cbn [extended existsb]. apply orb_true_iff. left. apply longer_spec. destruct (b_digits b) as [|c v]; [done|]. by exists c, v. }
  pose proof (wf_max m Hw) as Hmax. unfold feed_digit. cbn [set_locks cur_digit_len max_digit_len digits locks]. rewrite Hlen, Hd.
  replace (zlen u <? max_digit_len m) with true by lia. unfold DMACHINE_MAX_DIGIT_LEN in *. replace (512 <=? zlen u + 1) with false by lia.
  set (m1 := set_time now _). pose proof (zlen_nonneg u).
  assert (collected h (u ++ [p]) m1) as Hc1.
  { split; try done; subst m1; cbn [set_time set_locks set_digits cur_digit_len]; [|rewrite zlen_app, zlen_cons, zlen_nil; cint; lia].
    destruct Hw as [Hh Hdd Hcc Hmm Hb]. split; try done; cbn [set_time set_locks set_digits digits cur_digit_len max_digit_len]; rewrite ?zlen_app, ?zlen_cons, ?zlen_nil; cint; lia. }
  rewrite bool_decide_eq_true_2 by done.
  destruct (ping_judged h (u ++ [p]) m1 now' Hc1) as (m2 & r & Hp & Hj); [by destruct u|done|done|]. rewrite Hp. cbn [mbind res_bind].
  eexists _, _. split; [done|]. by destruct (bool_decide_reflect (r = SWITCH_STATUS_SUCCESS)) as [->|].
Qed.

End recognition.

(** C12: In a realm of digit strings (none twice, each before those that begin
    with it, no terminators), a machine without callbacks implements the
    automaton [judge].  A digit that completes a string which no other string
    continues, or a timeout behind a string, reports that string with its key
    and user data and starts anew; a digit that some string continues is kept
    and waited for; a digit no string has, or a timeout in the middle of one,
    reports the digits as failed and starts anew.  Feeding always ends with a
    machine that is again ready. *)
Theorem dmachine_recognises {H} {SM : StringMap H dm_binding_head} {SV : Services} (h : dm_binding_head) (u : bytes) (m : dmachine H) :
  ready h u m ->
  (forall p now now', now <> 0 ->
    exists m' r, switch_ivr_dmachine_feed [(p, now, now')] m = Ok (m', r) /\
      judged h (u ++ [p]) (judge (binding_list h) (u ++ [p]) (timed_out (digit_timeout_ms m) (now' - now))) m' r) /\
  (forall now, u <> [] -> last_digit_time m <> 0 ->
    exists m' r, switch_ivr_dmachine_ping now false m = Ok (m', r) /\
      judged h u (judge (binding_list h) u (timed_out (digit_timeout_ms m) (now - last_digit_time m))) m' r).
Proof.
  intros Hr. split.
  - intros p now now' Hnow. by apply feed_judged.
  - intros now Hu Htime. destruct Hr as (Hc & Hne & _). by apply ping_judged.
Qed.

(** ** A menu *)

#[local] Instance realms_map : StringMap (HashTable.switch_hashtable bytes dm_binding_head Z) dm_binding_head := core_hash_string_map true.

(** No regular expression matches; callback 1 switches to the realm "sub". *)
#[local] Instance sample_services : Services := {|
  switch_regex_match d e := false;
  callback f i d := if f =? 1 then ([SetRealm (str "sub"); Clear], SWITCH_STATUS_SUCCESS) else ([], SWITCH_STATUS_CONTINUE) |}.

Abbreviation sample_machine := (dmachine (HashTable.switch_hashtable bytes dm_binding_head Z)).

Definition bindings (m : res sample_machine) (l : list (bytes * Z)) : res sample_machine :=
  fold_left (fun r '(d, key) => m ← r; run_op (Bind None d key None 0) m) l m.

Definition fresh : res sample_machine := Ok (switch_ivr_dmachine_create 2000 5000 None None 0).

Definition press (m : res sample_machine) (ds : bytes) (now : Z) : res (sample_machine * switch_status) :=
  m ← m; switch_ivr_dmachine_feed ((fun d => (d, now, now)) <$> ds) m.

(** The key that was reported, when one was. *)
Definition pressed (m : res sample_machine) (ds : bytes) (now : Z) : res (option Z * switch_status) :=
  '(m, r) ← press m ds now; Ok (if is_match m then Some (match_key (match_ m)) else None, r).

Definition menu : list (bytes * Z) := [(str "1", 10); (str "12", 11); (str "9", 12)].

Definition menu_machine : sample_machine :=
  match bindings fresh menu with Ok m => m | _ => switch_ivr_dmachine_create 0 0 None None 0 end.

Definition menu_head : dm_binding_head :=
  Head [Binding (str "1") 10 0 None false 0; Binding (str "12") 11 0 None false 0; Binding (str "9") 12 0 None false 0] None.

Lemma menu_realm : realm_ok (binding_list menu_head).
Proof.
  split.
  - repeat constructor; discriminate.
  - intros l1 e l2. destruct l1 as [|a [|b [|c [|x l1]]]]; intros [=]; subst; repeat constructor; try (vm_compute; done).
  - intros l1 e l2. destruct l1 as [|a [|b [|c [|x l1]]]]; intros [=]; subst; repeat constructor; vm_compute; done.
Qed.

Lemma bindings_wf l : forall m : sample_machine, Forall (fun b => b.1 <> []) l -> wf m -> exists m', bindings (Ok m) l = Ok m' /\ wf m'.
Proof.
  induction l as [|[d key] l IH]; intros m Hl Hw; [by exists m|]. apply Forall_cons in Hl as [Hd Hl].
  destruct (run_op_wf (Bind None d key None 0) m Hw Hd) as (m1 & Hm1 & Hw1). unfold bindings. cbn [fold_left]. rewrite (bind_ok (Ok m) _ m eq_refl), Hm1. by apply IH.
Qed.

Lemma dmachine_safe_witness : exists m : sample_machine,
  serve_all [Op (Bind None (str "1") 10 (Some 1) 0); Op (Bind (Some (str "sub")) (str "~^\d+$") 11 None 0); Op (SetRealm (str "default"));
             Feed [(49, 1000, 1000)]; Op (SetTerminators (str "#")); Feed [(50, 2000, 2000); (35, 3000, 3000)]; Ping 9000000 false]
    (switch_ivr_dmachine_create 2000 5000 (Some 2) None 0) = Ok m /\ wf m.
Proof.
  apply dmachine_safe.
  - intros f i d. cbn. case_match; repeat constructor.
  - repeat constructor; cbn; discriminate.
Defined.

Lemma dmachine_recognises_witness :
  exists m' r, switch_ivr_dmachine_feed [(57, 1000000, 1000000)] menu_machine = Ok (m', r) /\
    judged menu_head (str "9") (Recognised (Binding (str "9") 12 0 None false 0)) m' r.
Proof.
  assert (ready menu_head [] menu_machine) as Hr.
  { split; [|done]. split; [|vm_compute; reflexivity|apply menu_realm|reflexivity|vm_compute; reflexivity|vm_compute; reflexivity|split; vm_compute; reflexivity].
    destruct (bindings_wf menu (switch_ivr_dmachine_create 2000 5000 None None 0)) as (m & Hm & Hw);
      [repeat constructor; discriminate|apply dm_create_wf|]. change (bindings fresh menu = Ok m) in Hm.
    unfold menu_machine. rewrite Hm. exact Hw. }
  destruct (dmachine_recognises menu_head [] menu_machine Hr) as [Hfeed _]. specialize (Hfeed 57 1000000 1000000 ltac:(discriminate)).
  assert (digit_timeout_ms menu_machine = 2000) as Ht by (vm_compute; reflexivity). rewrite Ht in Hfeed.
  assert (judge (binding_list menu_head) ([] ++ [57]) (timed_out 2000 (1000000 - 1000000)) = Recognised (Binding (str "9") 12 0 None false 0)) as Hj
    by (vm_compute; reflexivity). rewrite Hj in Hfeed. exact Hfeed.
Defined.

(** "1" waits for "12" until the time is over; "12" and "9" are final; "3"
    fails at once. *)
Example menu_works :
  pressed (bindings fresh menu) (str "1") 1000000 = Ok (None, SWITCH_STATUS_SUCCESS)
  /\ pressed (bindings fresh menu) (str "12") 1000000 = Ok (Some 11, SWITCH_STATUS_FOUND)
  /\ pressed (bindings fresh menu) (str "9") 1000000 = Ok (Some 12, SWITCH_STATUS_FOUND)
  /\ pressed (bindings fresh menu) (str "3") 1000000 = Ok (None, SWITCH_STATUS_TIMEOUT)
  /\ ('(m, _) ← press (bindings fresh menu) (str "1") 1000000; '(m, r) ← switch_ivr_dmachine_ping 4000000 false m; Ok (match_key (match_ m), r))
     = Ok (10, SWITCH_STATUS_FOUND).
Proof. vm_compute. done. Qed.

(** ** Flaws *)

(** Bound behind "12", the string "1" is reported at once, and "12" never is. *)
Theorem longer_first_unreachable :
  pressed (bindings fresh [(str "12", 11); (str "1", 10)]) (str "12") 1000000 = Ok (Some 10, SWITCH_STATUS_FOUND).
Proof. vm_compute. reflexivity. Qed.

(** A terminator that is to end "12" before "123" makes it fail instead. *)
Theorem terminator_fails :
  pressed (m ← bindings fresh [(str "12", 11); (str "123", 12)]; run_op (SetTerminators (str "#")) m) (str "12#") 1000000
  = Ok (None, SWITCH_STATUS_TIMEOUT).
Proof. vm_compute. reflexivity. Qed.

(** Where there is no room for a digit, the mutex stays locked. *)
Theorem overflow_keeps_lock : locks <$> (fst <$> press fresh (str "1") 1000000) = Ok 1.
Proof. vm_compute. reflexivity. Qed.

(** Binding a string again keeps its old key. *)
Theorem rebinding_keeps_key : pressed (bindings fresh [(str "5", 1); (str "5", 2)]) (str "5") 1000000 = Ok (Some 1, SWITCH_STATUS_FOUND).
Proof. vm_compute. reflexivity. Qed.

(** The empty string is read behind its end when a regular expression is bound. *)
Theorem empty_binding_overrun : bindings fresh [(str "~^1", 1); ([], 2)] = Fault.
Proof. vm_compute. reflexivity. Qed.

End Dmachine.
