(* ===== verification/EventBus.v ===== *)
(** * The event bus (switch_event.c)

    Bindings of callbacks to event types, delivery, the registry of custom
    subclasses and the dispatch queue.  The registry is a hash of the core; the
    development uses it through the interface of CoreHash only.  Callbacks and
    user data are opaque pointers; a delivery is the sequence of calls it makes. *)

From S2P Require Import Prelude CString HashTable Event CoreHash.

Module EventBus.
Import CString Event CoreHash.

(** ** Data *)

(** [struct switch_event_node]. *)
Record node := mk_node {
  n_addr : Z; n_id : bytes; n_event_id : Z; n_subclass : option bytes; n_callback : Z; n_user_data : option Z }.

(** [struct switch_event_subclass]. *)
Record subclass := mk_subclass { sc_owner : bytes; sc_name : bytes; sc_bind : bool }.

Section bus.
Context {H : Type} {SM : StringMap H subclass}.

(** EVENT_NODES, CUSTOM_HASH, SYSTEM_RUNNING and the next free address. *)
Record bus := mk_bus { nodes : list (list node); custom_hash : H; running : bool; bus_fresh : Z }.

Definition set_nodes (ns : list (list node)) (b : bus) : bus := mk_bus ns (custom_hash b) (running b) (bus_fresh b).
Definition set_custom (h : H) (b : bus) : bus := mk_bus (nodes b) h (running b) (bus_fresh b).

Definition empty_bus : bus := mk_bus (replicate (Z.to_nat (SWITCH_EVENT_ALL + 1)) []) sm_empty true 1.

Definition bucket (b : bus) (e : Z) : list node := default [] (nodes b !! Z.to_nat e).

(** ** Matching and delivery *)

Definition strstr_in (hay : bytes) (needle : bytes) : bool := bool_decide (is_Some (strstr hay needle)).

Definition subclass_match (ev : event) (match0 : bool) (ns es : bytes) : bool :=
  if strncaseeq ns (str "file:") 5 then
    match switch_event_get_header ev (str "file") with
    | Some file => strstr_in (zdrop 5 ns) file
    | None => match0
    end
  else if strncaseeq ns (str "func:") 5 then
    match switch_event_get_header ev (str "function") with
    | Some func => strstr_in (zdrop 5 ns) func
    | None => match0
    end
  else strstr_in es ns.

Definition switch_events_match (ev : event) (n : node) : bool :=
  let all := n_event_id n =? SWITCH_EVENT_ALL in
  if all && bool_decide (n_subclass n = None) then true
  else if all || (event_id ev =? n_event_id n) then
    match subclass_name ev, n_subclass n with
    | Some es, Some ns => subclass_match ev all ns es
    | _, None => true
    | None, Some _ => false
    end
  else all.

(** The calls made for the nodes of one type: the callback and the user data
    the event carries into it. *)
Definition deliver_to (ev : event) (ns : list node) : list (Z * option Z) :=
  (fun n => (n_callback n, n_user_data n)) <$> List.filter (switch_events_match ev) ns.

Definition switch_event_deliver (b : bus) (ev : event) : list (Z * option Z) :=
  if running b then
    deliver_to ev (bucket b (event_id ev))
    ++ (if event_id ev =? SWITCH_EVENT_ALL then [] else deliver_to ev (bucket b SWITCH_EVENT_ALL))
  else [].

(** ** Subclasses *)

Definition switch_event_free_subclass_detailed (b : bus) (owner name : bytes) : bus * switch_status :=
  match sm_find (custom_hash b) name with
  | Some sc =>
    if streq owner (sc_owner sc) then (set_custom (sm_delete (custom_hash b) name) b, SWITCH_STATUS_SUCCESS)
    else (set_custom (sm_insert (custom_hash b) name (mk_subclass (sc_owner sc) (sc_name sc) true)) b, SWITCH_STATUS_FALSE)
  | None => (b, SWITCH_STATUS_FALSE)
  end.

Definition switch_event_reserve_subclass_detailed (b : bus) (owner name : bytes) : bus * switch_status :=
  match sm_find (custom_hash b) name with
  | Some sc =>
    if sc_bind sc then
      (set_custom (sm_insert (custom_hash b) name (mk_subclass (sc_owner sc) (sc_name sc) false)) b, SWITCH_STATUS_SUCCESS)
    else (b, SWITCH_STATUS_INUSE)
  | None => (set_custom (sm_insert (custom_hash b) name (mk_subclass owner name false)) b, SWITCH_STATUS_SUCCESS)
  end.

(** ** Binding *)

(** A subclass nobody has reserved is reserved for the listener, to be taken
    over by the module that owns it. *)
Definition reserve_for_listener (b : bus) (id : bytes) (name : bytes) : bus :=
  match sm_find (custom_hash b) name with
  | Some _ => b
  | None =>
    let b := (switch_event_reserve_subclass_detailed b id name).1 in
    set_custom (sm_insert (custom_hash b) name (mk_subclass id name true)) b
  end.

(** The new node, as the caller's [*node], on success. *)
Definition switch_event_bind_removable (b : bus) (id : bytes) (e : Z) (sub : option bytes) (callback : Z)
    (user_data : option Z) : bus * option node * switch_status :=
  let b := match sub with Some name => reserve_for_listener b id name | None => b end in
  if e <=? SWITCH_EVENT_ALL then
    let n := mk_node (bus_fresh b) id e sub callback user_data in
    (mk_bus (<[Z.to_nat e := n :: bucket b e]> (nodes b)) (custom_hash b) (running b) (bus_fresh b + 1),
     Some n, SWITCH_STATUS_SUCCESS)
  else (b, None, SWITCH_STATUS_MEMERR).

(** The loop of switch_event_unbind_callback over one type. *)
Definition drop_callback (callback : Z) (ns : list node) : list node :=
  List.filter (fun n => negb (n_callback n =? callback)) ns.

Definition switch_event_unbind_callback (b : bus) (callback : Z) : bus * switch_status :=
  (set_nodes (drop_callback callback <$> nodes b) b,
   if existsb (existsb (fun n => n_callback n =? callback)) (nodes b) then SWITCH_STATUS_SUCCESS else SWITCH_STATUS_FALSE).

(** The walk of switch_event_unbind to the node at the given address. *)
Fixpoint unlink_node (addr : Z) (ns : list node) : option (list node) :=
  match ns with
  | [] => None
  | n :: ns => if n_addr n =? addr then Some ns else cons n <$> unlink_node addr ns
  end.

Definition switch_event_unbind (b : bus) (n : option node) : bus * switch_status :=
  match n with
  | None => (b, SWITCH_STATUS_FALSE)
  | Some n =>
    match unlink_node (n_addr n) (bucket b (n_event_id n)) with
    | Some ns => (set_nodes (<[Z.to_nat (n_event_id n) := ns]> (nodes b)) b, SWITCH_STATUS_SUCCESS)
    | None => (b, SWITCH_STATUS_FALSE)
    end
  end.

(** ** Invariant *)

Record bus_wf (b : bus) : Prop := {
  bus_len : zlen (nodes b) = SWITCH_EVENT_ALL + 1;
  bus_addr : NoDup (n_addr <$> concat (nodes b));
  bus_below : Forall (fun n => n_addr n < bus_fresh b) (concat (nodes b));
  bus_typed : forall i ns, nodes b !! i = Some ns -> Forall (fun n => n_event_id n = Z.of_nat i) ns;
  bus_custom : sm_ok (custom_hash b) }.

Lemma empty_bus_wf : bus_wf empty_bus.
Proof.
  split; [done|apply NoDup_nil_2|constructor| |apply sm_empty_ok].
  intros i ns Hi. apply lookup_replicate_1 in Hi as [-> _]. constructor.
Qed.

Lemma type_lookup b e : bus_wf b -> 0 <= e <= SWITCH_EVENT_ALL -> nodes b !! Z.to_nat e = Some (bucket b e).
Proof.
  intros Hwf He. unfold bucket. destruct (nodes b !! Z.to_nat e) eqn:Hn; [done|].
  apply lookup_ge_None_1 in Hn. pose proof (bus_len b Hwf). unfold zlen in *. lia.
Qed.

Lemma reserve_same b id name :
  bus_wf b -> bus_wf (reserve_for_listener b id name) /\ nodes (reserve_for_listener b id name) = nodes b
  /\ running (reserve_for_listener b id name) = running b
  /\ bus_fresh (reserve_for_listener b id name) = bus_fresh b.
Proof.
  intros Hwf. unfold reserve_for_listener, switch_event_reserve_subclass_detailed.
  destruct (sm_find (custom_hash b) name) eqn:Hf; [done|]. rewrite ?Hf. split_and!; try done.
  destruct Hwf. split; simpl; auto using sm_insert_ok.
Qed.

Lemma concat_cons_insert (t : list (list node)) i x ns :
  t !! i = Some ns -> concat (<[i := x :: ns]> t) ≡ₚ x :: concat t.
Proof.
  intros Hi. rewrite (concat_update _ _ _ _ Hi), (concat_split _ _ _ Hi). simpl. by rewrite <-Permutation_middle.
Qed.

Lemma bind_wf b id e sub cb ud b' n st :
  bus_wf b -> 0 <= e -> switch_event_bind_removable b id e sub cb ud = (b', n, st) -> bus_wf b'.
Proof.
  intros Hwf He. unfold switch_event_bind_removable.
  set (b1 := match sub with Some name => reserve_for_listener b id name | None => b end).
  assert (bus_wf b1) as Hwf1 by (subst b1; destruct sub; [by apply reserve_same|done]). clearbody b1.
  destruct (Z.leb_spec e SWITCH_EVENT_ALL) as [Hle|]; [|by intros [= <- <- <-]].
  intros [= <- <- <-]. pose proof (type_lookup b1 e Hwf1 (conj He Hle)) as Hb. destruct Hwf1 as [Hlen Hnd Hlt Hty Hcu].
  pose proof (concat_cons_insert _ _ (mk_node (bus_fresh b1) id e sub cb ud) _ Hb) as Hperm.
  split; simpl; try done.
  - unfold zlen in *. by rewrite length_insert.
  - rewrite Hperm, fmap_cons. apply NoDup_cons. split; [|done]. simpl.
    intros (x & Hx & Hin)%list_elem_of_fmap. pose proof (proj1 (Forall_forall _ _) Hlt x Hin). simpl in *. lia.
  - rewrite Hperm. constructor; [simpl; lia|]. eapply Forall_impl; [exact Hlt|]. simpl. lia.
  - intros i ns Hi. destruct (decide (i = Z.to_nat e)) as [->|Hne].
    + rewrite list_lookup_insert_eq in Hi by (by eapply lookup_lt_Some). injection Hi as <-.
      constructor; [simpl; lia|]. by apply Hty.
    + rewrite list_lookup_insert_ne in Hi by done. by eapply Hty.
Qed.

(** ** What binding and unbinding do to deliveries *)

Lemma deliver_to_filter ev cb ns :
  deliver_to ev (drop_callback cb ns) = List.filter (fun c => negb (c.1 =? cb)) (deliver_to ev ns).
Proof.
  unfold deliver_to, drop_callback. induction ns as [|n ns IH]; [done|]. simpl.
  destruct (n_callback n =? cb) eqn:Hcb, (switch_events_match ev n) eqn:Hm;
    cbn [negb]; rewrite ?fmap_cons; cbn [List.filter]; rewrite ?Hm, ?fmap_cons; simpl; rewrite ?Hcb; simpl; by rewrite ?IH.
Qed.

Lemma bucket_drop b cb e : bucket (switch_event_unbind_callback b cb).1 e = drop_callback cb (bucket b e).
Proof. unfold bucket, switch_event_unbind_callback. simpl. rewrite list_lookup_fmap. by destruct (nodes b !! Z.to_nat e). Qed.

Lemma filter_app' {A} (f : A -> bool) l m : List.filter f (l ++ m) = List.filter f l ++ List.filter f m.
Proof. induction l as [|x l IH]; [done|]. simpl. rewrite IH. by destruct (f x). Qed.

Lemma bucket_insert b e ns e' :
  bus_wf b -> 0 <= e <= SWITCH_EVENT_ALL -> 0 <= e' ->
  default [] (<[Z.to_nat e := ns]> (nodes b) !! Z.to_nat e') = if e =? e' then ns else bucket b e'.
Proof.
  intros Hwf He He'. destruct (Z.eqb_spec e e') as [<-|Hne].
  - rewrite list_lookup_insert_eq; [done|]. eapply lookup_lt_Some. by apply type_lookup.
  - rewrite list_lookup_insert_ne by lia. done.
Qed.

Lemma bind_spec b id e sub cb ud :
  bus_wf b -> 0 <= e <= SWITCH_EVENT_ALL ->
  exists b' n, switch_event_bind_removable b id e sub cb ud = (b', Some n, SWITCH_STATUS_SUCCESS)
  /\ bus_wf b' /\ running b' = running b
  /\ n_callback n = cb /\ n_user_data n = ud /\ n_event_id n = e
  /\ forall x, 0 <= x -> bucket b' x = if e =? x then n :: bucket b x else bucket b x.
Proof.
  intros Hwf He. destruct (switch_event_bind_removable b id e sub cb ud) as [[b' on] st] eqn:Hbind.
  pose proof (bind_wf _ _ _ _ _ _ _ _ _ Hwf (proj1 He) Hbind) as Hwf'. unfold switch_event_bind_removable in Hbind.
  set (b1 := match sub with Some name => reserve_for_listener b id name | None => b end) in *.
  assert (bus_wf b1 /\ nodes b1 = nodes b /\ running b1 = running b) as (Hwf1 & Hn1 & Hr1).
  { subst b1. destruct sub as [s|]; [|done]. destruct (reserve_same b id s Hwf) as (? & ? & ? & _). done. }
  clearbody b1. rewrite (proj2 (Z.leb_le e SWITCH_EVENT_ALL)) in Hbind by lia. injection Hbind as <- <- <-.
  eexists _, _. split_and!; try done. intros x Hx. unfold bucket at 1. cbn [nodes].
  rewrite (bucket_insert b1) by done. destruct (Z.eqb_spec e x) as [<-|]; unfold bucket; by rewrite Hn1.
Qed.

Lemma deliver_ext b1 b2 ev :
  running b1 = running b2 -> bucket b1 (event_id ev) = bucket b2 (event_id ev) ->
  bucket b1 SWITCH_EVENT_ALL = bucket b2 SWITCH_EVENT_ALL -> switch_event_deliver b1 ev = switch_event_deliver b2 ev.
Proof. intros Hr He Ha. unfold switch_event_deliver. by rewrite Hr, He, Ha. Qed.

Lemma deliver_drop b cb ev :
  switch_event_deliver (switch_event_unbind_callback b cb).1 ev
  = List.filter (fun c => negb (c.1 =? cb)) (switch_event_deliver b ev).
Proof.
  unfold switch_event_deliver. rewrite !bucket_drop. simpl running.
  destruct (running b); [|done]. rewrite filter_app', deliver_to_filter. f_equal.
  destruct (_ =? _); [done|]. apply deliver_to_filter.
Qed.

Lemma deliver_to_cons ev n ns :
  deliver_to ev (n :: ns) = (if switch_events_match ev n then [(n_callback n, n_user_data n)] else []) ++ deliver_to ev ns.
Proof. unfold deliver_to. simpl. by destruct (switch_events_match ev n). Qed.

(** C25: bindings and deliveries.  On a well-formed bus: binding a callback adds,
    for every event, at most the call of the new node, in front of those of its
    type and only where the node matches, and changes nothing else; unbinding the
    returned node restores every delivery; and unbinding by callback removes
    exactly the calls of that callback from every delivery, in place. *)
Theorem bus_bind_unbind b id e sub cb ud ev :
  bus_wf b -> 0 <= e <= SWITCH_EVENT_ALL -> 0 <= event_id ev <= SWITCH_EVENT_ALL -> running b = true ->
  exists b' n, switch_event_bind_removable b id e sub cb ud = (b', Some n, SWITCH_STATUS_SUCCESS)
  /\ bus_wf b'
  /\ (let own := if switch_events_match ev n then [(cb, ud)] else [] in
      switch_event_deliver b' ev
      = if e =? event_id ev then own ++ switch_event_deliver b ev
        else if e =? SWITCH_EVENT_ALL
        then deliver_to ev (bucket b (event_id ev)) ++ own ++ deliver_to ev (bucket b SWITCH_EVENT_ALL)
        else switch_event_deliver b ev)
  /\ switch_event_deliver (switch_event_unbind b' (Some n)).1 ev = switch_event_deliver b ev
  /\ (switch_event_unbind b' (Some n)).2 = SWITCH_STATUS_SUCCESS
  /\ switch_event_deliver (switch_event_unbind_callback b' cb).1 ev
     = List.filter (fun c => negb (c.1 =? cb)) (switch_event_deliver b ev).
Proof.
  intros Hwf He Hev Hrun.
  destruct (bind_spec b id e sub cb ud Hwf He) as (b' & n & Hbind & Hwf' & Hr' & Hcb & Hud & Hty & Hbk).
  exists b', n. split; [done|]. split; [done|].
  assert (unlink_node (n_addr n) (bucket b' (n_event_id n)) = Some (bucket b e)) as Hun.
  { rewrite Hty, Hbk, Z.eqb_refl by lia. simpl. by rewrite Z.eqb_refl. }
  assert (forall own, own = (if switch_events_match ev n then [(cb, ud)] else []) ->
    switch_event_deliver b' ev
    = if e =? event_id ev then own ++ switch_event_deliver b ev
      else if e =? SWITCH_EVENT_ALL
      then deliver_to ev (bucket b (event_id ev)) ++ own ++ deliver_to ev (bucket b SWITCH_EVENT_ALL)
      else switch_event_deliver b ev) as Hdel.
  { intros own ->. unfold switch_event_deliver. rewrite Hr', Hrun, !Hbk by (unfold SWITCH_EVENT_ALL; lia).
    rewrite <-Hcb, <-Hud. destruct (Z.eqb_spec e (event_id ev)) as [<-|Hne].
    - rewrite deliver_to_cons. destruct (e =? SWITCH_EVENT_ALL); by rewrite <-app_assoc.
    - destruct (Z.eqb_spec e SWITCH_EVENT_ALL) as [->|].
      + rewrite (proj2 (Z.eqb_neq (event_id ev) SWITCH_EVENT_ALL)) by done. by rewrite deliver_to_cons.
      + done. }
  split_and!.
  - by apply Hdel.
  - unfold switch_event_unbind. rewrite Hun. cbn [fst].
    assert (forall x, 0 <= x -> bucket (set_nodes (<[Z.to_nat (n_event_id n) := bucket b e]> (nodes b')) b') x = bucket b x) as Hx.
    { intros x Hx. unfold bucket at 1. cbn [nodes set_nodes]. rewrite Hty, (bucket_insert b') by done.
      destruct (Z.eqb_spec e x) as [<-|Hne]; [done|]. rewrite Hbk by done. by rewrite (proj2 (Z.eqb_neq e x)). }
    apply deliver_ext; [done|apply Hx; lia|apply Hx; unfold SWITCH_EVENT_ALL; lia].
  - unfold switch_event_unbind. by rewrite Hun.
  - rewrite deliver_drop, (Hdel _ eq_refl).
    assert (List.filter (fun c => negb (c.1 =? cb)) (if switch_events_match ev n then [(cb, ud)] else []) = []) as Hown.
    { destruct (switch_events_match ev n); [|done]. simpl. by rewrite Z.eqb_refl. }
    destruct (Z.eqb_spec e (event_id ev)) as [|Hne]; [by rewrite filter_app', Hown|].
    destruct (Z.eqb_spec e SWITCH_EVENT_ALL) as [->|]; [|done].
    rewrite !filter_app', Hown. unfold switch_event_deliver. rewrite Hrun.
    rewrite (proj2 (Z.eqb_neq (event_id ev) SWITCH_EVENT_ALL)) by done. by rewrite filter_app'.
Qed.

(** ** Reservations *)

(** A reserved subclass is exclusive.  After a successful reservation every
    further reservation, by anyone, is refused until the reservation is dropped;
    its owner can release it, after which the name is free again; a listener that
    binds an unreserved name leaves it open for one later reservation. *)
Theorem subclass_exclusive b owner name other id :
  sm_ok (custom_hash b) ->
  (forall b1, switch_event_reserve_subclass_detailed b owner name = (b1, SWITCH_STATUS_SUCCESS) ->
    (switch_event_reserve_subclass_detailed b1 other name).2 = SWITCH_STATUS_INUSE
    /\ (sm_find (custom_hash b) name = None ->
        let '(b2, st) := switch_event_free_subclass_detailed b1 owner name in
        st = SWITCH_STATUS_SUCCESS /\ sm_find (custom_hash b2) name = None))
  /\ (sm_find (custom_hash b) name = None ->
      let b1 := reserve_for_listener b id name in
      let '(b2, st) := switch_event_reserve_subclass_detailed b1 owner name in
      st = SWITCH_STATUS_SUCCESS /\ (switch_event_reserve_subclass_detailed b2 other name).2 = SWITCH_STATUS_INUSE).
Proof.
  intros Hok. split.
  - intros b1. unfold switch_event_reserve_subclass_detailed.
    assert (forall sc, sm_find (sm_insert (custom_hash b) name sc) name = Some sc) as Hins.
    { intros sc. rewrite sm_find_insert by done. by rewrite bool_decide_eq_true_2. }
    destruct (sm_find (custom_hash b) name) as [sc|] eqn:Hf.
    + destruct (sc_bind sc); [|done]. intros [= <-]. cbn [custom_hash set_custom]. rewrite Hins. by split.
    + intros [= <-]. cbn [custom_hash set_custom]. rewrite Hins. split; [done|]. intros _.
      unfold switch_event_free_subclass_detailed. cbn [custom_hash set_custom]. rewrite Hins. cbn [sc_owner].
      rewrite (proj2 (streq_spec owner owner)) by done. split; [done|]. cbn [custom_hash set_custom].
      rewrite sm_find_delete by by apply sm_insert_ok. by rewrite bool_decide_eq_true_2.
  - intros Hf. unfold reserve_for_listener, switch_event_reserve_subclass_detailed. rewrite Hf.
    cbn [custom_hash set_custom fst].
    rewrite sm_find_insert by by apply sm_insert_ok. rewrite bool_decide_eq_true_2 by done. cbn [sc_bind].
    split; [done|]. cbn [custom_hash set_custom].
    rewrite sm_find_insert by by apply sm_insert_ok, sm_insert_ok. by rewrite bool_decide_eq_true_2.
Qed.

End bus.

(** ** Event names *)

(** The first type whose name matches, either the whole string or what follows
    its first 13 characters ([SWITCH_EVENT_]). *)
Fixpoint name_event_loop (names : list bytes) (x : Z) (name : bytes) : option Z :=
  match names with
  | [] => None
  | n :: names =>
    if ((13 <? zlen name) && strcaseeq (zdrop 13 name) n) || strcaseeq name n then Some x
    else name_event_loop names (x + 1) name
  end.

Definition switch_name_event (name : bytes) : option Z := name_event_loop EVENT_NAMES 0 name.

(** Event names.  Every event type is found again under its name, under its
    name in lower case and under its name with the SWITCH_EVENT_ prefix. *)
Theorem name_event_round_trip e name :
  0 <= e <= SWITCH_EVENT_ALL -> switch_event_name e = Some name ->
  switch_name_event name = Some e /\ switch_name_event (tolower <$> name) = Some e
  /\ switch_name_event (str "SWITCH_EVENT_" ++ name) = Some e.
Proof.
  intros He Hn.
  pose proof (byte_cases (fun e => if e <=? SWITCH_EVENT_ALL then
    match switch_event_name e with
    | Some n => bool_decide (switch_name_event n = Some e) && bool_decide (switch_name_event (tolower <$> n) = Some e)
                && bool_decide (switch_name_event (str "SWITCH_EVENT_" ++ n) = Some e)
    | None => false
    end else true) e) as Hb.
  cbv beta in Hb. specialize (Hb ltac:(vm_compute; reflexivity)). unfold SWITCH_EVENT_ALL in *.
  specialize (Hb ltac:(lia)). rewrite (proj2 (Z.leb_le e 87)), Hn in Hb by lia.
  apply andb_true_iff in Hb as [[H1%bool_decide_eq_true H2%bool_decide_eq_true]%andb_true_iff H3%bool_decide_eq_true]. done.
Qed.

Lemma name_event_round_trip_witness :
  switch_name_event (str "CHANNEL_STATE") = Some 4 /\ switch_name_event (tolower <$> str "CHANNEL_STATE") = Some 4
  /\ switch_name_event (str "SWITCH_EVENT_" ++ str "CHANNEL_STATE") = Some 4.
Proof. apply (name_event_round_trip 4 (str "CHANNEL_STATE")); [unfold SWITCH_EVENT_ALL; lia|reflexivity]. Defined.

(** ** The dispatch queue *)

Definition DISPATCH_QUEUE_LEN : Z := 10000.

(** EVENT_DISPATCH_QUEUE, PENDING, SOFT_MAX_DISPATCH, MAX_DISPATCH and
    DISPATCH_THREAD_COUNT. *)
Record dispatch := mk_dispatch {
  d_queue : list event; d_pending : Z; d_soft_max : Z; d_max : Z; d_threads : Z; d_running : bool }.

Definition set_pending (p : Z) (d : dispatch) : dispatch :=
  mk_dispatch (d_queue d) p (d_soft_max d) (d_max d) (d_threads d) (d_running d).
Definition push_queue (ev : event) (d : dispatch) : dispatch :=
  mk_dispatch (d_queue d ++ [ev]) (d_pending d) (d_soft_max d) (d_max d) (d_threads d) (d_running d).

(** switch_event_queue_dispatch_event; [launch] is
    switch_event_launch_dispatch_threads. *)
Definition switch_event_queue_dispatch_event (launch : Z -> dispatch -> dispatch) (d : dispatch) (ev : event)
  : dispatch * switch_status :=
  if d_running d then
    let want := (d_pending d =? 0) && (u32 (DISPATCH_QUEUE_LEN * d_threads d) <? zlen (d_queue d))
                && (d_max d <? u32 (d_soft_max d + 1)) in
    let d := if want then set_pending (d_pending d + 1) d else d in
    let d := if want then
               let d := if u32 (d_soft_max d + 1) <? d_max d then launch (u32 (d_soft_max d + 1)) d else d in
               set_pending (d_pending d - 1) d
             else d in
    (push_queue ev d, SWITCH_STATUS_SUCCESS)
  else (d, SWITCH_STATUS_FALSE).

(** The dispatch pool never grows on demand.  Queueing an event appends it
    to the queue and does nothing else, however long the queue is: the test that
    decides to launch another dispatch thread and the test before the launch
    contradict each other, so switch_event_launch_dispatch_threads is not called. *)
Theorem dispatch_never_launches launch d ev :
  d_running d = true ->
  switch_event_queue_dispatch_event launch d ev = (push_queue ev d, SWITCH_STATUS_SUCCESS).
Proof.
  intros Hrun. unfold switch_event_queue_dispatch_event. rewrite Hrun.
  destruct (d_max d <? u32 (d_soft_max d + 1)) eqn:Hlt; rewrite ?andb_true_r, ?andb_false_r; [|done].
  destruct (_ && _); [|done]. cbn [d_soft_max d_max set_pending].
  rewrite (proj2 (Z.ltb_ge (u32 (d_soft_max d + 1)) (d_max d))) by lia.
  destruct d. unfold set_pending, push_queue. simpl. do 2 f_equal. lia.
Qed.

Lemma dispatch_never_launches_witness :
  switch_event_queue_dispatch_event (fun n d => mk_dispatch [] 0 n 0 0 false)
    (mk_dispatch [blank_event] 0 64 64 0 true) sample_event
  = (mk_dispatch [blank_event; sample_event] 0 64 64 0 true, SWITCH_STATUS_SUCCESS).
Proof.
  apply (dispatch_never_launches (fun n d => mk_dispatch [] 0 n 0 0 false)
           (mk_dispatch [blank_event] 0 64 64 0 true) sample_event).
  reflexivity.
Defined.

(** ** Presence events *)

Definition SWITCH_EVENT_PRESENCE_IN : Z := 38.

Definition add_top (ev : event) (nv : bytes * option bytes) : event :=
  (switch_event_add_header_string ev SWITCH_STACK_TOP nv.1 nv.2).1.

(** switch_event_create_pres_in_detailed up to the event it fires. *)
Definition switch_event_create_pres_in (env : delivery_env) (seq : Z)
    (proto login from from_domain status event_type alt_event_type : option bytes) (event_count : Z)
    (unique_id channel_state answer_state call_direction : option bytes) : option event * switch_status :=
  match switch_event_create_subclass env seq SWITCH_EVENT_PRESENCE_IN None with
  | (Some ev, _, SWITCH_STATUS_SUCCESS) =>
    (Some (foldl add_top ev
       [(str "proto", proto); (str "login", login);
        (str "from", Some (default [] from ++ [64] ++ default [] from_domain));
        (str "status", status); (str "event_type", event_type); (str "alt_event_type", alt_event_type);
        (str "event_count", Some (dec event_count)); (str "unique-id", alt_event_type);
        (str "channel-state", channel_state); (str "answer-state", answer_state);
        (str "presence-call-direction", call_direction)]), SWITCH_STATUS_SUCCESS)
  | _ => (None, SWITCH_STATUS_MEMERR)
  end.

(** The unique id handed to switch_event_create_pres_in is not used: the
    "unique-id" header carries the alternate event type. *)
Lemma pres_in_ignores_unique_id env seq pr lo fr fd st et at' n id1 id2 cs an cd :
  switch_event_create_pres_in env seq pr lo fr fd st et at' n id1 cs an cd
  = switch_event_create_pres_in env seq pr lo fr fd st et at' n id2 cs an cd.
Proof. reflexivity. Qed.

(** ** Witnesses, on the hash table of the core *)

Abbreviation core_hash := (HashTable.switch_hashtable bytes subclass Z).

#[local] Instance custom_hash_map : StringMap core_hash subclass := core_hash_string_map true.

Definition core_bus : bus (H := core_hash) := empty_bus.

Lemma bus_bind_unbind_witness :
  exists b' n, switch_event_bind_removable core_bus (str "mod") 87 None 5 (Some 9) = (b', Some n, SWITCH_STATUS_SUCCESS)
  /\ switch_event_deliver b' sample_event = [(5, Some 9)]
  /\ switch_event_deliver (switch_event_unbind b' (Some n)).1 sample_event = [].
Proof.
  destruct (bus_bind_unbind core_bus (str "mod") 87 None 5 (Some 9) sample_event)
    as (b' & n & Hb & _ & _ & Hu & _).
  - apply empty_bus_wf.
  - unfold SWITCH_EVENT_ALL. lia.
  - vm_compute. split; discriminate.
  - reflexivity.
  - exists b', n. split; [exact Hb|]. split; [|exact Hu].
    unfold switch_event_bind_removable in Hb. simpl in Hb. injection Hb as <- _. reflexivity.
Defined.

Lemma subclass_exclusive_witness :
  (switch_event_reserve_subclass_detailed
     (switch_event_reserve_subclass_detailed core_bus (str "mod_a") (str "a::b")).1 (str "mod_b") (str "a::b")).2
  = SWITCH_STATUS_INUSE.
Proof.
  apply (subclass_exclusive core_bus (str "mod_a") (str "a::b") (str "mod_b") (str "x")).
  - apply (sm_empty_ok (H := core_hash)).
  - unfold switch_event_reserve_subclass_detailed. cbn [custom_hash core_bus empty_bus].
    by rewrite (sm_find_empty (H := core_hash)).
Defined.

End EventBus.
