(* ===== verification/Scheduler.v ===== *)
(** * The task scheduler (switch_scheduler.c)

    A list of tasks under one mutex, a task thread that scans it, and threads of
    their own for the tasks that ask for one.  The task thread releases the mutex
    while a task runs, so that other threads add and delete tasks in the middle of
    a scan: the model is a step relation whose steps are what happens under one
    hold of the mutex (or inside a task's own thread).  Adding a task takes two
    steps, since the new task is read again after the mutex is released.  A
    callback is opaque: it leaves the task with some runtime and repeat interval. *)

From S2P Require Import Prelude CString.

Module Scheduler.
Import CString.

Definition SSHF_OWN_THREAD : Z := Z.shiftl 1 0.
Definition SSHF_FREE_ARG : Z := Z.shiftl 1 1.
Definition SSHF_NO_DEL : Z := Z.shiftl 1 2.

(** [switch_scheduler_task_container] with its [switch_scheduler_task]. *)
Record task := mk_task {
  t_id : Z; t_created : Z; t_runtime : Z; t_repeat : Z; t_cmd_id : Z; t_cmd_arg : option Z;
  t_group : bytes; t_hash : Z; t_desc : bytes; t_flags : Z; t_func : Z;
  t_executed : Z; t_in_thread : bool; t_destroyed : Z; t_running : bool }.

Definition set_run (runtime repeat executed destroyed : Z) (in_thread running : bool) (t : task) : task :=
  mk_task (t_id t) (t_created t) runtime repeat (t_cmd_id t) (t_cmd_arg t) (t_group t) (t_hash t) (t_desc t)
    (t_flags t) (t_func t) executed in_thread destroyed running.

Definition set_destroyed (d : Z) (t : task) : task :=
  set_run (t_runtime t) (t_repeat t) (t_executed t) d (t_in_thread t) (t_running t) t.
Definition set_in_thread (b : bool) (t : task) : task :=
  set_run (t_runtime t) (t_repeat t) (t_executed t) (t_destroyed t) b (t_running t) t.
Definition set_running (b : bool) (t : task) : task :=
  set_run (t_runtime t) (t_repeat t) (t_executed t) (t_destroyed t) (t_in_thread t) b t.
Definition set_executed (now : Z) (t : task) : task :=
  set_run (t_runtime t) (t_repeat t) now (t_destroyed t) (t_in_thread t) (t_running t) t.

(** The schedule events queued for the event system. *)
Inductive schedule_event := ADD_SCHEDULE (id : Z) | RE_SCHEDULE (id : Z) | DEL_SCHEDULE (id : Z).

(** Where the task thread is: outside its loop, about to look at task [k],
    running task [k] without the mutex, or between its two loops. *)
Inductive thread_pc := Idle | Scan (k : nat) | Exec (k : nat) | Between.

(** [globals], the task thread, the tasks that other threads have linked into
    the list and have not reported yet ([adding]) and, for the statements, the
    number of tasks ever added. *)
Record sched := mk_sched {
  task_list : list task; task_id : Z; event_queue : list schedule_event; pc : thread_pc; adding : list Z; added : Z }.

Definition with_tasks (ts : list task) (s : sched) : sched :=
  mk_sched ts (task_id s) (event_queue s) (pc s) (adding s) (added s).
Definition at_pc (p : thread_pc) (s : sched) : sched :=
  mk_sched (task_list s) (task_id s) (event_queue s) p (adding s) (added s).
Definition queue (es : list schedule_event) (s : sched) : sched :=
  mk_sched (task_list s) (task_id s) (event_queue s ++ es) (pc s) (adding s) (added s).

(** ** switch_scheduler_add_task *)

(** [for (id = 0; !id; id = ++globals.task_id)]: the next non-zero number. *)
Definition next_id (n : Z) : Z := if u32 (n + 1) =? 0 then 1 else u32 (n + 1).

(** Under the mutex: the task is linked into the list. *)
Definition add_link (now runtime func : Z) (desc group : option bytes) (cmd_id : Z)
    (cmd_arg : option Z) (flags : Z) (s : sched) : sched * Z :=
  let repeat := if runtime <? now then u32 runtime else 0 in
  let runtime := if runtime <? now then runtime + now else runtime in
  let group := default (str "none") group in
  let id := next_id (task_id s) in
  let t := mk_task id now runtime repeat cmd_id cmd_arg group (switch_ci_hashfunc_default group)
             (default (str "none") desc) flags func 0 false 0 false in
  (mk_sched (task_list s ++ [t]) id (event_queue s) (pc s) (id :: adding s) (added s + 1), id).

(** The rest, after the mutex has been released, reads the container again for
    the log, the event and the result.  [None]: it has been freed meanwhile. *)
Definition add_report (id : Z) (s : sched) : option sched :=
  match List.find (fun t => t_id t =? id) (task_list s) with
  | Some t => Some (mk_sched (task_list s) (task_id s) (event_queue s ++ [ADD_SCHEDULE (t_id t)]) (pc s)
                      (remove Z.eq_dec id (adding s)) (added s))
  | None => None
  end.

(** Without another thread in between. *)
Definition switch_scheduler_add_task (now runtime func : Z) (desc group : option bytes) (cmd_id : Z)
    (cmd_arg : option Z) (flags : Z) (s : sched) : sched * Z :=
  let '(s, id) := add_link now runtime func desc group cmd_id cmd_arg flags s in
  (default s (add_report id s), id).

(** ** Deleting *)

Fixpoint del_id_loop (id : Z) (ts : list task) : list task * Z :=
  match ts with
  | [] => ([], 0)
  | t :: ts =>
    if t_id t =? id then
      if test_flag (t_flags t) SSHF_NO_DEL then (t :: ts, 0)
      else if t_running t then (t :: ts, 0)
      else (set_destroyed (t_destroyed t + 1) t :: ts, 1)
    else let '(ts', n) := del_id_loop id ts in (t :: ts', n)
  end.

Definition switch_scheduler_del_task_id (id : Z) (s : sched) : sched * Z :=
  let '(ts, n) := del_id_loop id (task_list s) in (with_tasks ts s, n).

Definition in_group (group : bytes) (t : task) : bool :=
  (t_destroyed t =? 0) && (switch_ci_hashfunc_default group =? t_hash t) && streq (t_group t) group
  && negb (test_flag (t_flags t) SSHF_NO_DEL).

Definition switch_scheduler_del_task_group (group : bytes) (s : sched) : sched * Z :=
  if zstr (Some group) then (s, 0)
  else
    (with_tasks ((fun t => if in_group group t then set_destroyed (t_destroyed t + 1) t else t) <$> task_list s) s,
     zlen (List.filter (in_group group) (task_list s))).

(** ** Executing *)

(** switch_scheduler_execute after the callback has left [runtime] and
    [repeat] in the task: the task and the event queued. *)
Definition switch_scheduler_execute (now runtime repeat : Z) (t : task) : task * list schedule_event :=
  let runtime := if repeat =? 0 then runtime else now + repeat in
  if runtime >? t_executed t
  then (set_run runtime repeat 0 (t_destroyed t) (t_in_thread t) (t_running t) t, [RE_SCHEDULE (t_id t)])
  else (set_run runtime repeat (t_executed t) 1 (t_in_thread t) (t_running t) t, []).

(** The guard of the scan: [!tp->destroyed], [now >= runtime && !tp->in_thread]. *)
Definition due (now : Z) (t : task) : bool :=
  (t_destroyed t =? 0) && (t_runtime t <=? now) && negb (t_in_thread t).

(** The second loop: what is freed. *)
Definition swept (t : task) : bool := negb (t_destroyed t =? 0) && negb (t_in_thread t).

Definition sweep (s : sched) : sched :=
  queue ((fun t => DEL_SCHEDULE (t_id t)) <$> List.filter swept (task_list s))
    (with_tasks (List.filter (negb ∘ swept) (task_list s)) s).

(** ** The steps *)

(** The mutex is free for other threads. *)
Definition unlocked (p : thread_pc) : bool := match p with Scan _ => false | _ => true end.

(** What an observer sees of a step. *)
Inductive label := Begins (id now : Z) | Ends (id : Z) | Quiet.

Inductive step : sched -> label -> sched -> Prop :=
| step_add now runtime func desc group cmd_id arg flags s :
    unlocked (pc s) = true ->
    step s Quiet (add_link now runtime func desc group cmd_id arg flags s).1
| step_report id s s' :
    id ∈ adding s -> add_report id s = Some s' -> step s Quiet s'
| step_del_id id s :
    unlocked (pc s) = true -> step s Quiet (switch_scheduler_del_task_id id s).1
| step_del_group group s :
    unlocked (pc s) = true -> step s Quiet (switch_scheduler_del_task_group group s).1
| step_enter s : pc s = Idle -> step s Quiet (at_pc (Scan 0) s)
| step_skip k t now s :
    pc s = Scan k -> task_list s !! k = Some t -> due now t = false -> step s Quiet (at_pc (Scan (S k)) s)
| step_own k t now s :
    pc s = Scan k -> task_list s !! k = Some t -> due now t = true -> test_flag (t_flags t) SSHF_OWN_THREAD = true ->
    step s (Begins (t_id t) now)
      (at_pc (Scan (S k)) (with_tasks (<[k := set_in_thread true (set_executed now t)]> (task_list s)) s))
| step_begin k t now s :
    pc s = Scan k -> task_list s !! k = Some t -> due now t = true -> test_flag (t_flags t) SSHF_OWN_THREAD = false ->
    step s (Begins (t_id t) now)
      (at_pc (Exec k) (with_tasks (<[k := set_running true (set_executed now t)]> (task_list s)) s))
| step_end k t now runtime repeat t' es s :
    pc s = Exec k -> task_list s !! k = Some t -> switch_scheduler_execute now runtime repeat t = (t', es) ->
    step s (Ends (t_id t))
      (at_pc (Scan (S k)) (queue es (with_tasks (<[k := set_running false t']> (task_list s)) s)))
| step_own_end k t now runtime repeat t' es s :
    task_list s !! k = Some t -> t_in_thread t = true -> switch_scheduler_execute now runtime repeat t = (t', es) ->
    step s (Ends (t_id t)) (queue es (with_tasks (<[k := set_in_thread false t']> (task_list s)) s))
| step_scanned k s :
    pc s = Scan k -> task_list s !! k = None -> step s Quiet (at_pc Between s)
| step_sweep s : pc s = Between -> step s Quiet (at_pc Idle (sweep s))
| step_shutdown s :
    pc s = Idle -> step s Quiet (at_pc Between (with_tasks (set_destroyed 1 <$> task_list s) s)).

Definition initial : sched := mk_sched [] 0 [] Idle [] 0.

Inductive steps : sched -> list label -> sched -> Prop :=
| steps_refl s : steps s [] s
| steps_trans s1 l s2 ls s3 : step s1 l s2 -> steps s2 ls s3 -> steps s1 (l :: ls) s3.

Definition reachable (s : sched) : Prop := exists ls, steps initial ls s.

(** ** Invariant *)

Definition ids (ts : list task) : list Z := t_id <$> ts.

Record inv (s : sched) : Prop := {
  inv_added : 0 <= added s;
  inv_ids : added s < 2 ^ 32 ->
    task_id s = added s /\ NoDup (ids (task_list s)) /\ Forall (fun i => 0 < i <= added s) (ids (task_list s));
  inv_running : forall k t, task_list s !! k = Some t -> t_running t = true -> pc s = Exec k }.

Lemma ids_insert ts k t t' : ts !! k = Some t -> t_id t' = t_id t -> ids (<[k := t']> ts) = ids ts.
Proof.
  intros Hk Hid. unfold ids. rewrite list_fmap_insert, Hid. apply list_insert_id.
  by rewrite list_lookup_fmap, Hk.
Qed.

Lemma ids_fmap ts f : (forall t, t_id (f t) = t_id t) -> ids (f <$> ts) = ids ts.
Proof. intros Hf. unfold ids. rewrite <-list_fmap_compose. apply list_fmap_ext. intros. apply Hf. Qed.

Lemma del_id_loop_spec id ts :
  ids (del_id_loop id ts).1 = ids ts
  /\ Forall2 (fun t t' => t' = t \/ (t_id t = id /\ t' = set_destroyed (t_destroyed t + 1) t
                                     /\ test_flag (t_flags t) SSHF_NO_DEL = false)) ts (del_id_loop id ts).1.
Proof.
  induction ts as [|t ts [IH1 IH2]]; [by split|]. simpl.
  assert (Forall2 (fun t t' => t' = t \/ (t_id t = id /\ t' = set_destroyed (t_destroyed t + 1) t
                    /\ test_flag (t_flags t) SSHF_NO_DEL = false)) ts ts) as Hrefl.
  { apply Forall_Forall2_diag. apply Forall_true. by left. }
  destruct (Z.eqb_spec (t_id t) id) as [Hid|Hne].
  - destruct (test_flag (t_flags t) SSHF_NO_DEL) eqn:Hnd; [split; [done|]; constructor; [by left|done]|].
    destruct (t_running t); (split; [done|]; constructor; [|done]); [by left|by right].
  - destruct (del_id_loop id ts) as [ts' n]. cbn [fst] in *. split; [exact (f_equal (cons (t_id t)) IH1)|].
    constructor; [by left|done].
Qed.

(** A step that replaces one task by one with the same id. *)
Lemma inv_insert s k t t' p :
  inv s -> task_list s !! k = Some t -> t_id t' = t_id t ->
  (t_running t' = true -> p = Exec k) -> (forall j, pc s = Exec j -> j <> k -> p = Exec j) ->
  inv (at_pc p (with_tasks (<[k := t']> (task_list s)) s)).
Proof.
  intros [Ha Hi Hr] Hk Hid Hrun Hother. split; simpl; [done| |].
  - by rewrite (ids_insert _ _ t).
  - intros j u Hj Hu. destruct (decide (j = k)) as [->|Hne].
    + rewrite list_lookup_insert_eq in Hj by (by eapply lookup_lt_Some). injection Hj as <-. by apply Hrun.
    + rewrite list_lookup_insert_ne in Hj by done. apply Hother; [|done]. by eapply Hr.
Qed.

Lemma execute_fields now runtime repeat t t' es :
  switch_scheduler_execute now runtime repeat t = (t', es) ->
  t_id t' = t_id t /\ t_in_thread t' = t_in_thread t /\ t_running t' = t_running t
  /\ (t_destroyed t <> 0 -> t_destroyed t' <> 0).
Proof. unfold switch_scheduler_execute. destruct (_ >? _); intros [= <- <-]; done. Qed.

Lemma inv_queue es s : inv s -> inv (queue es s).
Proof. intros [Ha Hi Hr]. by split. Qed.

Lemma next_id_succ n : 0 <= n -> n + 1 < 2 ^ 32 -> next_id n = n + 1.
Proof.
  intros Hn Hlt. unfold next_id. rewrite wrap_small by lia. by rewrite (proj2 (Z.eqb_neq (n + 1) 0)) by lia.
Qed.

Lemma inv_add now runtime func desc group cmd_id arg flags s :
  inv s -> unlocked (pc s) = true ->
  inv (add_link now runtime func desc group cmd_id arg flags s).1.
Proof.
  intros [Ha Hi Hr] _. split; simpl; [lia| |].
  - intros Hlt. destruct (Hi ltac:(lia)) as (Hid & Hnd & Hb). rewrite Hid, next_id_succ by lia.
    unfold ids in *. rewrite fmap_app. split; [done|]. split.
    + apply NoDup_app. split; [done|]. split; [|apply NoDup_singleton].
      intros x Hx ->%list_elem_of_singleton. pose proof (proj1 (Forall_forall _ _) Hb _ Hx). simpl in *. lia.
    + apply Forall_app_2; [eapply Forall_impl; [exact Hb|]; simpl; lia|]. constructor; [simpl; lia|constructor].
  - intros k t Hk Hrun. apply lookup_app_Some in Hk as [Hk|[_ Hk]]; [by eapply Hr|].
    apply list_lookup_singleton_Some in Hk as [_ <-]. done.
Qed.

Lemma inv_fmap s f p :
  inv s -> (forall t, t_id (f t) = t_id t /\ t_running (f t) = t_running t) -> (forall k, pc s = Exec k -> p = Exec k) ->
  inv (at_pc p (with_tasks (f <$> task_list s) s)).
Proof.
  intros [Ha Hi Hr] Hf Hp. split; simpl; [done|by rewrite ids_fmap by apply Hf|].
  intros k t Hk Hrun. rewrite list_lookup_fmap in Hk. apply fmap_Some in Hk as (u & Hu & ->).
  apply Hp. eapply Hr; [exact Hu|]. by destruct (Hf u) as [_ <-].
Qed.

Lemma inv_at_pc p s : inv s -> (forall k, pc s = Exec k -> p = Exec k) -> inv (at_pc p s).
Proof. intros [Ha Hi Hr] Hp. split; simpl; [done|done|]. intros k t Hk Hrun. apply Hp. by eapply Hr. Qed.

Lemma ids_filter f ts : ids (List.filter f ts) `sublist_of` ids ts.
Proof.
  unfold ids. induction ts as [|t ts IH]; [constructor|]. simpl. destruct (f t); by constructor.
Qed.

(** Reporting a task leaves the list and the thread alone. *)
Lemma report_same id s s' : add_report id s = Some s' ->
  task_list s' = task_list s /\ task_id s' = task_id s /\ pc s' = pc s /\ added s' = added s.
Proof. unfold add_report. destruct (List.find _ _); [|done]. by intros [= <-]. Qed.

Lemma step_inv s l s' : inv s -> step s l s' -> inv s'.
Proof.
  intros Hinv Hstep. destruct Hstep as [|id s s' _ Hr|id s Hu|group s Hu|s Hp|k t now s Hp _ _|k t now s Hp Hk Hd _|k t now s Hp Hk Hd _
    |k t now rt rp t' es s Hp Hk He|k t now rt rp t' es s Hk Hth He|k s Hp _|s Hp|s Hp].
  - by apply inv_add.
  - destruct (report_same id s s' Hr) as (E1 & E2 & E3 & E4), Hinv as [Ha Hi Hrun]. split; rewrite ?E1, ?E2, ?E3, ?E4; done.
  - unfold switch_scheduler_del_task_id. destruct (del_id_loop_spec id (task_list s)) as [Hids Hf2].
    destruct (del_id_loop id (task_list s)) as [ts n]. simpl in *. destruct Hinv as [Ha Hi Hr]. split; simpl; [done|by rewrite Hids|].
    intros k t Hk Hrun. destruct (Forall2_lookup_r _ _ _ _ _ Hf2 Hk) as (u & Hu' & [->|(_ & -> & _)]); by eapply Hr.
  - unfold switch_scheduler_del_task_group. destruct (zstr _); [done|]. simpl.
    apply (inv_fmap s _ (pc s)); [done| |done]. intros t. by destruct (in_group group t).
  - apply inv_at_pc; [done|]. by rewrite Hp.
  - apply inv_at_pc; [done|]. by rewrite Hp.
  - eapply inv_insert; [done..| |]; [|by rewrite Hp]. simpl. intros Hrun.
    pose proof (inv_running s Hinv k t Hk Hrun). congruence.
  - eapply inv_insert; [done..|by rewrite Hp].
  - destruct (execute_fields _ _ _ _ _ _ He) as (Hid & _ & _ & _).
    apply (inv_queue es (at_pc (Scan (S k)) (with_tasks (<[k := set_running false t']> (task_list s)) s))).
    eapply inv_insert; [done|exact Hk|done|done|]. rewrite Hp. intros j [= ->]. done.
  - destruct (execute_fields _ _ _ _ _ _ He) as (Hid & _ & Hrun & _). apply inv_queue.
    apply (inv_insert s k t (set_in_thread false t') (pc s)); [done|done|done| |done].
    simpl. rewrite Hrun. by apply (inv_running s Hinv k t Hk).
  - apply inv_at_pc; [done|]. by rewrite Hp.
  - destruct Hinv as [Ha Hi Hr]. split; simpl; [done| |].
    + intros Hlt. destruct (Hi Hlt) as (Hid & Hnd & Hb). split; [done|].
      pose proof (ids_filter (negb ∘ swept) (task_list s)) as Hsub. split; [by eapply sublist_NoDup|].
      apply Forall_forall. intros i Hin. eapply (proj1 (Forall_forall _ _) Hb). by eapply elem_of_sublist.
    + intros k t Hk Hrun. apply list_elem_of_lookup_2, list_elem_of_In, filter_In in Hk as [Hk _].
      apply list_elem_of_In, list_elem_of_lookup in Hk as [j Hj]. pose proof (Hr j t Hj Hrun). congruence.
  - apply inv_fmap; [done|done|]. by rewrite Hp.
Qed.

Lemma steps_inv s ls s' : steps s ls s' -> inv s -> inv s'.
Proof. induction 1; eauto using step_inv. Qed.

Lemma initial_inv : inv initial.
Proof. split; simpl; [lia| |done]. intros _. split_and!; [done|apply NoDup_nil_2|constructor]. Qed.

Lemma reachable_inv s : reachable s -> inv s.
Proof. intros [ls Hs]. eapply steps_inv; [exact Hs|apply initial_inv]. Qed.

(** ** Deleted tasks *)

(** Every task with this id is marked for removal, and the id is taken. *)
Definition gone (id : Z) (s : sched) : Prop :=
  0 < id <= added s /\ Forall (fun t => t_id t = id -> t_destroyed t <> 0) (task_list s)
  /\ Forall (fun t => 0 <= t_destroyed t) (task_list s).

Lemma step_added s l s' : step s l s' -> added s <= added s'.
Proof.
  destruct 1 as [|id s s' _ (_ & _ & _ & ->)%report_same| | | | | | | | | | |]; simpl; try lia; unfold switch_scheduler_del_task_id, switch_scheduler_del_task_group;
    [destruct (del_id_loop _ _)|destruct (zstr _)]; simpl; lia.
Qed.

Lemma steps_added s ls s' : steps s ls s' -> added s <= added s'.
Proof. induction 1 as [|? ? ? ? ? Hst]; [lia|]. apply step_added in Hst. lia. Qed.

(** Tasks replaced one by one: the two facts of [gone] are kept. *)
Lemma gone_insert id s k t t' p :
  gone id s -> task_list s !! k = Some t -> t_id t' = t_id t ->
  (t_destroyed t <> 0 -> t_destroyed t' <> 0) -> (0 <= t_destroyed t -> 0 <= t_destroyed t') ->
  gone id (at_pc p (with_tasks (<[k := t']> (task_list s)) s)).
Proof.
  intros (Hid & Hd & Hn) Hk Hidt Hdt Hnt. split; [done|]. simpl. split; apply Forall_insert; try done.
  - rewrite Hidt. intros He. apply Hdt. by apply (Forall_lookup_1 _ _ _ _ Hd Hk).
  - by apply Hnt, (Forall_lookup_1 _ _ _ _ Hn Hk).
Qed.

Lemma gone_fmap id s f p :
  gone id s -> (forall t, t_id (f t) = t_id t) -> (forall t, 0 <= t_destroyed t -> t_destroyed t <= t_destroyed (f t)) ->
  gone id (at_pc p (with_tasks (f <$> task_list s) s)).
Proof.
  intros (Hid & Hd & Hn) Hf Hle. split; [done|]. simpl. rewrite !Forall_fmap. split.
  - apply Forall_forall. intros t Ht. simpl. rewrite Hf. intros He.
    pose proof (proj1 (Forall_forall _ _) Hd t Ht He). pose proof (proj1 (Forall_forall _ _) Hn t Ht).
    simpl in *. specialize (Hle t). lia.
  - eapply Forall_impl; [exact Hn|]. simpl. intros t Ht. specialize (Hle t Ht). lia.
Qed.

Lemma execute_destroyed now runtime repeat t t' es :
  switch_scheduler_execute now runtime repeat t = (t', es) -> 0 <= t_destroyed t -> 0 <= t_destroyed t'.
Proof. unfold switch_scheduler_execute. destruct (_ >? _); intros [= <- <-]; simpl; lia. Qed.

Lemma gone_del_loop id id' ts :
  Forall (fun t => t_id t = id -> t_destroyed t <> 0) ts /\ Forall (fun t => 0 <= t_destroyed t) ts ->
  Forall (fun t => t_id t = id -> t_destroyed t <> 0) (del_id_loop id' ts).1
  /\ Forall (fun t => 0 <= t_destroyed t) (del_id_loop id' ts).1.
Proof.
  intros [Hd Hn]. destruct (del_id_loop_spec id' ts) as [_ Hf2]. revert Hf2. generalize (del_id_loop id' ts).1.
  intros ts' Hf2. induction Hf2 as [|t t' ts ts' Ht Hf2 IH]; [by split|].
  apply Forall_cons in Hd as [Hd1 Hd]. apply Forall_cons in Hn as [Hn1 Hn]. destruct (IH Hd Hn).
  destruct Ht as [->|(_ & -> & _)]; split; constructor; simpl; try done; lia.
Qed.

Lemma step_gone id s l s' :
  inv s -> gone id s -> added s' < 2 ^ 32 -> step s l s' -> gone id s' /\ forall now, l <> Begins id now.
Proof.
  intros Hinv Hg Hlt Hstep. pose proof Hg as (Hid & Hd & Hn).
  destruct Hstep as [now rt fn ds gr ci ar fl s Hu|id0 s s' _ Hrep|id' s Hu|group s Hu|s Hp|k t now s Hp _ _|k t now s Hp Hk Hdue _
    |k t now s Hp Hk Hdue _|k t now rt rp t' es s Hp Hk He|k t now rt rp t' es s Hk Hth He|k s Hp _|s Hp|s Hp].
  - split; [|done]. simpl in Hlt. destruct (inv_ids s Hinv ltac:(lia)) as (Htid & _). pose proof (inv_added s Hinv).
    split; simpl; [lia|]. rewrite Htid, next_id_succ by lia. split; apply Forall_app_2; try done; constructor; simpl; (lia || constructor).
  - split; [|done]. destruct (report_same id0 s s' Hrep) as (E1 & _ & _ & E4). unfold gone. by rewrite E1, E4.
  - split; [|done]. unfold switch_scheduler_del_task_id.
    destruct (gone_del_loop id id' (task_list s)) as [Hd' Hn']; [done|].
    destruct (del_id_loop id' (task_list s)). by split.
  - split; [|done]. unfold switch_scheduler_del_task_group. destruct (zstr _); [done|]. simpl.
    apply (gone_fmap id s _ (pc s)); [done|intros t; by destruct (in_group group t)|].
    intros t Ht. destruct (in_group group t); simpl; lia.
  - by split.
  - by split.
  - split; [by eapply gone_insert|]. intros now' [= Hi _]. unfold due in Hdue.
    pose proof (Forall_lookup_1 _ _ _ _ Hd Hk Hi) as Hnz. apply andb_true_iff in Hdue as [Hdue _].
    apply andb_true_iff in Hdue as [Hz _]. simpl in *. lia.
  - split; [by eapply gone_insert|]. intros now' [= Hi _]. unfold due in Hdue.
    pose proof (Forall_lookup_1 _ _ _ _ Hd Hk Hi) as Hnz. apply andb_true_iff in Hdue as [Hdue _].
    apply andb_true_iff in Hdue as [Hz _]. simpl in *. lia.
  - split; [|done]. destruct (execute_fields _ _ _ _ _ _ He) as (Ht & _ & _ & Hdd).
    change (gone id (at_pc (Scan (S k)) (with_tasks (<[k := set_running false t']> (task_list s)) s))).
    eapply gone_insert; [done|exact Hk|done|done|]. simpl. by eapply execute_destroyed.
  - split; [|done]. destruct (execute_fields _ _ _ _ _ _ He) as (Ht & _ & _ & Hdd).
    change (gone id (at_pc (pc s) (with_tasks (<[k := set_in_thread false t']> (task_list s)) s))).
    eapply gone_insert; [done|exact Hk|done|done|]. simpl. by eapply execute_destroyed.
  - by split.
  - split; [|done]. split; [done|]. simpl.
    assert (forall P, Forall P (task_list s) -> Forall P (List.filter (negb ∘ swept) (task_list s))) as Hfil.
    { intros P HP. apply Forall_forall. intros t Ht. apply list_elem_of_In, filter_In in Ht as [Ht _].
      by apply (proj1 (Forall_forall _ _) HP), list_elem_of_In. }
    split; by apply Hfil.
  - split; [|done]. split; [done|]. simpl. rewrite !Forall_fmap. split; apply Forall_true; simpl; intros; lia.
Qed.

Lemma steps_gone id s ls s' :
  steps s ls s' -> inv s -> gone id s -> added s' < 2 ^ 32 -> forall now, Begins id now ∉ ls.
Proof.
  induction 1 as [s|s1 l s2 ls s3 Hst Hsts IH]; intros Hinv Hg Hlt now; [apply not_elem_of_nil|].
  pose proof (steps_added _ _ _ Hsts).
  destruct (step_gone id s1 l s2 Hinv Hg ltac:(lia) Hst) as [Hg2 Hl].
  rewrite not_elem_of_cons. split; [intros Heq; by apply (Hl now)|].
  apply IH; [by eapply step_inv|done|done].
Qed.

(** The destruction counts never become negative. *)
Definition counts_ok (s : sched) : Prop := Forall (fun t => 0 <= t_destroyed t) (task_list s).

Lemma del_loop_counts id ts :
  Forall (fun t => 0 <= t_destroyed t) ts -> Forall (fun t => 0 <= t_destroyed t) (del_id_loop id ts).1.
Proof.
  intros Hn. destruct (del_id_loop_spec id ts) as [_ Hf2]. revert Hf2. generalize (del_id_loop id ts).1.
  intros ts' Hf2. induction Hf2 as [|t t' ts ts' Ht Hf2 IH]; [done|]. apply Forall_cons in Hn as [Hn1 Hn].
  constructor; [|by apply IH]. destruct Ht as [->|(_ & -> & _)]; simpl; lia.
Qed.

Lemma step_counts s l s' : step s l s' -> counts_ok s -> counts_ok s'.
Proof.
  unfold counts_ok. intros Hstep Hn.
  destruct Hstep as [now rt fn ds gr ci ar fl s Hu|id0 s s' _ Hrep|id' s Hu|group s Hu|s Hp|k t now s Hp _ _|k t now s Hp Hk Hdue _
    |k t now s Hp Hk Hdue _|k t now rt rp t' es s Hp Hk He|k t now rt rp t' es s Hk Hth He|k s Hp _|s Hp|s Hp]; simpl; try done.
  - apply Forall_app_2; [done|]. constructor; [simpl; lia|constructor].
  - by destruct (report_same id0 s s' Hrep) as (-> & _).
  - unfold switch_scheduler_del_task_id. pose proof (del_loop_counts id' _ Hn). by destruct (del_id_loop id' (task_list s)).
  - unfold switch_scheduler_del_task_group. destruct (zstr _); [done|]. simpl. apply Forall_fmap.
    eapply Forall_impl; [exact Hn|]. simpl. intros t Ht. destruct (in_group group t); simpl; lia.
  - apply Forall_insert; [done|]. apply (Forall_lookup_1 _ _ _ _ Hn Hk).
  - apply Forall_insert; [done|]. apply (Forall_lookup_1 _ _ _ _ Hn Hk).
  - apply Forall_insert; [done|]. simpl. eapply execute_destroyed; [exact He|]. apply (Forall_lookup_1 _ _ _ _ Hn Hk).
  - apply Forall_insert; [done|]. simpl. eapply execute_destroyed; [exact He|]. apply (Forall_lookup_1 _ _ _ _ Hn Hk).
  - apply Forall_forall. intros t Ht. apply list_elem_of_In, filter_In in Ht as [Ht _].
    by apply (proj1 (Forall_forall _ _) Hn), list_elem_of_In.
  - apply Forall_fmap. apply Forall_true. simpl. lia.
Qed.

Lemma steps_counts s ls s' : steps s ls s' -> counts_ok s -> counts_ok s'.
Proof. induction 1; eauto using step_counts. Qed.

Lemma reachable_counts s : reachable s -> counts_ok s.
Proof. intros [ls Hs]. eapply steps_counts; [exact Hs|constructor]. Qed.

(** The task a successful deletion by id marks. *)
Lemma del_id_marks id ts ts' :
  NoDup (ids ts) -> Forall (fun t => 0 <= t_destroyed t) ts -> del_id_loop id ts = (ts', 1) ->
  id ∈ ids ts /\ Forall (fun t => t_id t = id -> t_destroyed t <> 0) ts'.
Proof.
  revert ts'. induction ts as [|t ts IH]; intros ts' Hnd Hn; [done|]. simpl.
  apply Forall_cons in Hn as [Hn1 Hn]. unfold ids in Hnd. rewrite fmap_cons in Hnd. apply NoDup_cons in Hnd as [Hni Hnd].
  destruct (Z.eqb_spec (t_id t) id) as [<-|Hne].
  - destruct (test_flag _ _); [done|]. destruct (t_running t); [done|]. intros [= <-]. split; [by left|].
    constructor; [simpl; lia|]. apply Forall_forall. intros u Hu Heq. exfalso. apply Hni. rewrite <-Heq.
    apply list_elem_of_fmap. by exists u.
  - destruct (del_id_loop id ts) as [ts1 n] eqn:Hd. intros [= <- ->].
    destruct (IH ts1 Hnd Hn eq_refl) as [Hin Hall]. split; [by right|]. by constructor.
Qed.


(** C24: a task being executed is never freed, and ids are unique.  In every
    state that is reached with fewer than 2^32 - 1 tasks ever added (ids wrap at
    2^32 and are then used again), the ids of the listed tasks are distinct and
    not zero, a new task gets an id that is not among them, and no step of any
    thread removes a task whose callback is running, on the task thread or on a
    thread of its own.  (A task that has only been added can be freed while
    switch_scheduler_add_task still reads it, see [add_reads_freed_task].) *)
Theorem scheduler_no_use_after_free s l s' t :
  reachable s -> added s + 1 < 2 ^ 32 ->
  NoDup (ids (task_list s)) /\ (0 ∉ ids (task_list s))
  /\ (forall now rt fn ds gr ci ar fl, (switch_scheduler_add_task now rt fn ds gr ci ar fl s).2 ∉ ids (task_list s))
  /\ (step s l s' -> t ∈ task_list s -> t_running t = true \/ t_in_thread t = true -> t_id t ∈ ids (task_list s')).
Proof.
  intros Hr Hlt. pose proof (reachable_inv s Hr) as Hinv. pose proof (inv_added s Hinv).
  destruct (inv_ids s Hinv ltac:(lia)) as (Hid & Hnd & Hb). rewrite Forall_forall in Hb.
  split; [done|]. split; [intros H0; specialize (Hb 0 H0); simpl in Hb; lia|]. split.
  { intros. unfold switch_scheduler_add_task, add_link. cbn [snd]. rewrite Hid, next_id_succ by lia. intros Hin. specialize (Hb _ Hin). simpl in Hb. lia. }
  intros Hstep Ht Hex. assert (t_id t ∈ ids (task_list s)) as Hin by (apply list_elem_of_fmap; by exists t).
  destruct Hstep as [now rt fn ds gr ci ar fl s Hu|id0 s s' _ Hrep|id' s Hu|group s Hu|s Hp|k u now s Hp _ _|k u now s Hp Hk Hdue _
    |k u now s Hp Hk Hdue _|k u now rt rp u' es s Hp Hk He|k u now rt rp u' es s Hk Hth He|k s Hp _|s Hp|s Hp]; simpl; try done.
  - unfold ids in *. rewrite fmap_app. apply elem_of_app. by left.
  - by destruct (report_same id0 s s' Hrep) as (-> & _).
  - unfold switch_scheduler_del_task_id. destruct (del_id_loop_spec id' (task_list s)) as [Hids _].
    destruct (del_id_loop id' (task_list s)). simpl in *. by rewrite Hids.
  - unfold switch_scheduler_del_task_group. destruct (zstr _); [done|]. simpl.
    rewrite ids_fmap; [done|]. intros u. by destruct (in_group group u).
  - by rewrite (ids_insert _ _ u).
  - by rewrite (ids_insert _ _ u).
  - rewrite (ids_insert _ _ u); [done|done|]. simpl. by destruct (execute_fields _ _ _ _ _ _ He) as (-> & _).
  - rewrite (ids_insert _ _ u); [done|done|]. simpl. by destruct (execute_fields _ _ _ _ _ _ He) as (-> & _).
  - apply list_elem_of_fmap. exists t. split; [done|]. apply list_elem_of_In, filter_In. split; [by apply list_elem_of_In|].
    simpl. unfold swept. apply list_elem_of_lookup in Ht as [k Hk]. destruct Hex as [Hrun|Hin'].
    + pose proof (inv_running s Hinv k t Hk Hrun). congruence.
    + by rewrite Hin', andb_false_r.
  - by rewrite ids_fmap.
Qed.

(** What a run leaves behind.  Only a task that is due, not marked and not
    already on a thread is started; when its callback is done, a repeating task
    is planned one interval from now, a task whose callback moved its time into
    the future is kept for that time, and any other task is marked for removal. *)
Theorem scheduler_run_outcome s l s' id now runtime repeat t :
  (step s l s' -> l = Begins id now ->
   exists k u, task_list s !! k = Some u /\ t_id u = id /\ t_runtime u <= now /\ t_destroyed u = 0
     /\ t_in_thread u = false /\ exists u', task_list s' !! k = Some u' /\ t_executed u' = now)
  /\ (let '(t', es) := switch_scheduler_execute now runtime repeat t in
      if 0 <? repeat then t_executed t <= now -> t_runtime t' = now + repeat /\ t_destroyed t' = t_destroyed t
      else repeat = 0 ->
        t_runtime t' = runtime
        /\ if t_executed t <? runtime then t_destroyed t' = t_destroyed t /\ es = [RE_SCHEDULE (t_id t)]
           else t_destroyed t' = 1 /\ es = []).
Proof.
  split.
  - intros Hstep ->. inversion Hstep as [| | | | | |k u nw s0 Hp Hk Hdue Hf|k u nw s0 Hp Hk Hdue Hf| | | | |]; subst;
      (exists k, u; unfold due in Hdue; apply andb_true_iff in Hdue as [[Hz Hr]%andb_true_iff Hi];
       split_and!; [done|done|lia|lia|by destruct (t_in_thread u)|]; eexists; split;
       [simpl; apply list_lookup_insert_eq; by eapply lookup_lt_Some|done]).
  - unfold switch_scheduler_execute. destruct (Z.ltb_spec 0 repeat) as [Hpos|Hnp].
    + rewrite (proj2 (Z.eqb_neq repeat 0)) by lia.
      destruct (Z.gtb_spec (now + repeat) (t_executed t)); simpl; [done|lia].
    + destruct (Z.eqb_spec repeat 0) as [->|Hne]; [|by destruct (_ >? _)].
      destruct (Z.gtb_spec runtime (t_executed t)), (Z.ltb_spec (t_executed t) runtime); try lia; done.
Qed.

(** Undeletable tasks.  A task flagged SSHF_NO_DEL is left exactly as it is
    by deletion by id and by group. *)
Theorem scheduler_no_del s t id group :
  t ∈ task_list s -> test_flag (t_flags t) SSHF_NO_DEL = true ->
  t ∈ task_list (switch_scheduler_del_task_id id s).1 /\ t ∈ task_list (switch_scheduler_del_task_group group s).1.
Proof.
  intros Ht Hnd. split.
  - unfold switch_scheduler_del_task_id. destruct (del_id_loop_spec id (task_list s)) as [_ Hf2].
    destruct (del_id_loop id (task_list s)) as [ts n]. simpl in *. apply list_elem_of_lookup in Ht as [k Hk].
    destruct (Forall2_lookup_l _ _ _ _ _ Hf2 Hk) as (u & Hu & [->|(_ & _ & Hf)]); [|congruence].
    by eapply list_elem_of_lookup_2.
  - unfold switch_scheduler_del_task_group. destruct (zstr _); [done|]. simpl. apply list_elem_of_fmap.
    exists t. split; [|done]. unfold in_group. by rewrite Hnd, andb_false_r.
Qed.

(** ** Witnesses *)

Definition sample_task : task := mk_task 5 0 10 0 0 None (str "g") 0 [] SSHF_NO_DEL 0 0 false 0 false.

Lemma scheduler_no_del_witness :
  let s := with_tasks [sample_task] initial in
  sample_task ∈ task_list (switch_scheduler_del_task_id 5 s).1
  /\ sample_task ∈ task_list (switch_scheduler_del_task_group (str "g") s).1.
Proof. apply (scheduler_no_del (with_tasks [sample_task] initial) sample_task 5 (str "g")); [by left|reflexivity]. Defined.

Definition sample_sched : sched := (switch_scheduler_add_task 100 200 7 None (Some (str "g")) 0 None 0 initial).1.

Lemma sample_sched_reachable : reachable sample_sched.
Proof.
  exists [Quiet; Quiet]. econstructor; [by apply (step_add 100 200 7 None (Some (str "g")) 0 None 0)|].
  econstructor; [|constructor]. apply (step_report 1); [by left|reflexivity].
Qed.


(** Two tasks, the first of which is running. *)
Definition two_tasks : sched := (switch_scheduler_add_task 100 250 8 None (Some (str "g")) 0 None 0 sample_sched).1.
Definition running_task : task := set_running true (set_executed 300 (mk_task 1 100 200 0 0 None (str "g") (switch_ci_hashfunc_default (str "g")) (str "none") 0 7 0 false 0 false)).
Definition one_running : sched := at_pc (Exec 0) (with_tasks (<[0%nat := running_task]> (task_list two_tasks)) two_tasks).

Lemma one_running_reachable : reachable one_running.
Proof.
  destruct sample_sched_reachable as [ls Hls]. exists (ls ++ [Quiet; Quiet; Quiet; Begins 1 300]).
  assert (steps sample_sched [Quiet; Quiet; Quiet; Begins 1 300] one_running) as Hs.
  { econstructor; [by apply (step_add 100 250 8 None (Some (str "g")) 0 None 0)|].
    econstructor; [apply (step_report 2 _ two_tasks); [by left|vm_compute; reflexivity]|].
    econstructor; [by apply step_enter|]. econstructor; [|constructor].
    apply (step_begin 0 (mk_task 1 100 200 0 0 None (str "g") (switch_ci_hashfunc_default (str "g")) (str "none") 0 7 0 false 0 false) 300
      (at_pc (Scan 0) two_tasks)); [reflexivity|vm_compute; reflexivity|reflexivity|reflexivity]. }
  clear - Hls Hs. induction Hls as [s|s1 l s2 ls s3 Hst Hsts IH]; [done|]. econstructor; [exact Hst|by apply IH].
Qed.

(** Another thread deletes the group of the task that is running: it stays. *)
Lemma scheduler_no_use_after_free_witness :
  NoDup (ids (task_list one_running)) /\ t_id running_task ∈ ids (task_list (switch_scheduler_del_task_group (str "g") one_running).1).
Proof.
  destruct (scheduler_no_use_after_free one_running Quiet (switch_scheduler_del_task_group (str "g") one_running).1 running_task)
    as (Hnd & _ & _ & Hkeep); [exact one_running_reachable|vm_compute; reflexivity|].
  split; [exact Hnd|]. apply Hkeep; [by apply step_del_group|by left|left; reflexivity].
Defined.

(** ** A flaw *)

(** A task can be run, marked and freed between the unlocking and the reading of
    switch_scheduler_add_task: one that is due at once, or one that another
    thread deletes.  The thread that added it then reads freed memory. *)
Theorem add_reads_freed_task : exists ls s, steps initial ls s /\ (1 ∈ adding s) /\ add_report 1 s = None.
Proof.
  set (s1 := (add_link 100 100 7 None None 0 None 0 initial).1). set (s2 := (switch_scheduler_del_task_id 1 s1).1).
  exists [Quiet; Quiet; Quiet; Quiet; Quiet; Quiet], (at_pc Idle (sweep (at_pc Between (at_pc (Scan 1) (at_pc (Scan 0) s2))))).
  split; [|split; [by left|vm_compute; reflexivity]].
  econstructor; [by apply (step_add 100 100 7 None None 0 None 0)|]. econstructor; [by apply (step_del_id 1)|].
  econstructor; [by apply step_enter|]. econstructor; [eapply (step_skip 0 _ 300); [reflexivity|vm_compute; reflexivity|reflexivity]|].
  econstructor; [by eapply (step_scanned 1)|]. econstructor; [by apply step_sweep|constructor].
Qed.

End Scheduler.
