(* ===== verification/Dtmf.v ===== *)
(** * DTMF digits of a channel

    The digit queues of src/lib/libfreeswitch/switch_channel.c
    (switch_channel_queue_dtmf ... switch_channel_uninit, and the part of
    switch_channel_set_timestamps that reports the digits), the receive hook of
    switch_core_io.c (switch_core_session_recv_dtmf) and the duration limits of
    switch_core.c (switch_core_max_dtmf_duration and its siblings).

    The queues are APR's apr_queue_t, which is not part of the sources: the
    class [AprQueue] states its documented behaviour (a bounded FIFO whose
    non-blocking push fails exactly when it is full and whose non-blocking pop
    fails exactly when it is empty), and everything below is proved against it. *)

From S2P Require Import Prelude CString Tokenizer.
Import CString Tokenizer.

Module Dtmf.

(** ** Duration limits (switch_core.c, switch_types.h) *)

Definition SWITCH_DEFAULT_DTMF_DURATION : Z := 2000.
Definition SWITCH_MIN_DTMF_DURATION : Z := 400.
Definition SWITCH_MAX_DTMF_DURATION : Z := 192000.

Record runtime := Runtime {
  max_dtmf_duration : Z;
  default_dtmf_duration : Z;
  min_dtmf_duration : Z
}.

(** The values switch_core_init stores. *)
Definition runtime_init : runtime :=
  Runtime SWITCH_MAX_DTMF_DURATION SWITCH_DEFAULT_DTMF_DURATION SWITCH_MIN_DTMF_DURATION.

(** Each setter returns the value of the field; an argument of 0 only reads it. *)
Definition switch_core_max_dtmf_duration (rt : runtime) (duration : Z) : runtime * Z :=
  let rt :=
    if duration =? 0 then rt
    else
      let duration := if SWITCH_MAX_DTMF_DURATION <? duration then SWITCH_MAX_DTMF_DURATION else duration in
      let duration := if duration <? SWITCH_MIN_DTMF_DURATION then SWITCH_MIN_DTMF_DURATION else duration in
      Runtime duration (default_dtmf_duration rt)
        (if duration <? min_dtmf_duration rt then duration else min_dtmf_duration rt)
  in (rt, max_dtmf_duration rt).

Definition switch_core_default_dtmf_duration (rt : runtime) (duration : Z) : runtime * Z :=
  let rt :=
    if duration =? 0 then rt
    else
      let duration := if duration <? SWITCH_MIN_DTMF_DURATION then SWITCH_MIN_DTMF_DURATION else duration in
      let duration := if SWITCH_MAX_DTMF_DURATION <? duration then SWITCH_MAX_DTMF_DURATION else duration in
      Runtime (if max_dtmf_duration rt <? duration then duration else max_dtmf_duration rt) duration
        (if duration <? min_dtmf_duration rt then duration else min_dtmf_duration rt)
  in (rt, default_dtmf_duration rt).

Definition switch_core_min_dtmf_duration (rt : runtime) (duration : Z) : runtime * Z :=
  let rt :=
    if duration =? 0 then rt
    else
      let duration := if duration <? SWITCH_MIN_DTMF_DURATION then SWITCH_MIN_DTMF_DURATION else duration in
      let duration := if SWITCH_MAX_DTMF_DURATION <? duration then SWITCH_MAX_DTMF_DURATION else duration in
      Runtime (if max_dtmf_duration rt <? duration then duration else max_dtmf_duration rt)
        (default_dtmf_duration rt) duration
  in (rt, min_dtmf_duration rt).

(** The clamp of switch_channel_queue_dtmf. *)
Definition clamp_duration (rt : runtime) (duration : Z) : Z :=
  if max_dtmf_duration rt <? duration then max_dtmf_duration rt
  else if duration <? min_dtmf_duration rt then min_dtmf_duration rt
  else duration.

(** The clamp of the other routines, where a zero duration within the limits
    becomes the default. *)
Definition limit_duration (rt : runtime) (duration : Z) : Z :=
  if max_dtmf_duration rt <? duration then max_dtmf_duration rt
  else if duration <? min_dtmf_duration rt then min_dtmf_duration rt
  else if duration =? 0 then default_dtmf_duration rt
  else duration.

(** ** Digits *)

Inductive switch_dtmf_source : Set :=
| SWITCH_DTMF_UNKNOWN | SWITCH_DTMF_INBAND_AUDIO | SWITCH_DTMF_RTP | SWITCH_DTMF_ENDPOINT | SWITCH_DTMF_APP.

Record switch_dtmf := Dtmf {
  digit : Z;
  duration : Z;
  dflags : Z;
  source : switch_dtmf_source
}.

Definition DTMF_FLAG_SKIP_PROCESS : Z := 1.
Definition DTMF_FLAG_SENSITIVE : Z := 2.

Definition set_duration (d : switch_dtmf) (n : Z) : switch_dtmf := Dtmf (digit d) n (dflags d) (source d).
Definition set_dflag (d : switch_dtmf) (f : Z) : switch_dtmf :=
  Dtmf (digit d) (duration d) (Z.lor (dflags d) f) (source d).

Definition is_dtmf (key : Z) : bool :=
  ((47 <? key) && (key <? 58)) || ((64 <? key) && (key <? 69)) || ((96 <? key) && (key <? 101))
  || (key =? 35) || (key =? 42) || (key =? 87) || (key =? 119) || (key =? 70) || (key =? 102).

Definition SWITCH_DTMF_LOG_LEN : Z := 1000.

(** ** The bounded queue the channel relies on *)

Class AprQueue (E Q : Type) := {
  queue_create : Z -> Q;
  queue_trypush : Q -> E -> option Q;
  queue_trypop : Q -> option (E * Q);
  queue_size : Q -> Z;
  elements : Q -> list E;
  capacity : Q -> Z;
  create_elements n : elements (queue_create n) = [];
  create_capacity n : capacity (queue_create n) = n;
  size_elements q : queue_size q = zlen (elements q);
  push_full q e : zlen (elements q) >= capacity q -> queue_trypush q e = None;
  push_room q e : zlen (elements q) < capacity q ->
    exists q', queue_trypush q e = Some q' /\ elements q' = elements q ++ [e] /\ capacity q' = capacity q;
  pop_empty q : elements q = [] -> queue_trypop q = None;
  pop_oldest q e es : elements q = e :: es ->
    exists q', queue_trypop q = Some (e, q') /\ elements q' = es /\ capacity q' = capacity q
}.

(** A queue that behaves so. *)
Record list_queue (E : Type) := ListQueue { lq_elements : list E; lq_capacity : Z }.
Arguments ListQueue {E}.
Arguments lq_elements {E}.
Arguments lq_capacity {E}.

#[export] Program Instance list_queue_apr E : AprQueue E (list_queue E) := {
  queue_create n := ListQueue [] n;
  queue_trypush q e :=
    if zlen (lq_elements q) <? lq_capacity q then Some (ListQueue (lq_elements q ++ [e]) (lq_capacity q)) else None;
  queue_trypop q :=
    match lq_elements q with [] => None | e :: es => Some (e, ListQueue es (lq_capacity q)) end;
  queue_size q := zlen (lq_elements q);
  elements := lq_elements;
  capacity := lq_capacity
}.
Next Obligation. done. Qed.
Next Obligation. done. Qed.
Next Obligation. done. Qed.
Next Obligation. intros E q e ?. simpl. destruct (Z.ltb_spec (zlen (lq_elements q)) (lq_capacity q)); [lia|done]. Qed.
Next Obligation. intros E q e ?. simpl. rewrite (proj2 (Z.ltb_lt _ _)) by done. eauto. Qed.
Next Obligation. intros E q Hq. simpl in *. by rewrite Hq. Qed.
Next Obligation. intros E q e es Hq. simpl in *. rewrite Hq. eauto. Qed.

(** ** The channel's digit state *)

Section channel.
Context {Q : Type} `{AQ : AprQueue switch_dtmf Q}.

(** [live]: digits allocated and not freed; [fed]: digits given to the digit
    machine; [fired]: the DTMF events sent. *)
Record dtmf_state := DtmfState {
  dtmf_queue : Q;
  dtmf_log_queue : Q;
  live : Z;
  fed : bytes;
  fired : list switch_dtmf
}.

(** What the routines read of the session: the sensitive_dtmf variable,
    whether the channel is down, whether a digit machine is installed, and the
    recv_dtmf event hooks. *)
Record dtmf_env := DtmfEnv {
  sensitive_dtmf : option bytes;
  channel_down : bool;
  dmachine : bool;
  recv_dtmf_hooks : list (switch_dtmf -> switch_status)
}.

(** The part of switch_channel_alloc that makes the queues. *)
Definition dtmf_alloc : dtmf_state :=
  DtmfState (queue_create SWITCH_DTMF_LOG_LEN) (queue_create SWITCH_DTMF_LOG_LEN) 0 [] [].

Definition switch_channel_has_dtmf (c : dtmf_state) : Z := queue_size (dtmf_queue c).

Fixpoint run_recv_hooks (hooks : list (switch_dtmf -> switch_status)) (d : switch_dtmf) : switch_status :=
  match hooks with
  | [] => SWITCH_STATUS_SUCCESS
  | h :: hooks => if decide (h d = SWITCH_STATUS_SUCCESS) then run_recv_hooks hooks d else h d
  end.

Definition switch_core_session_recv_dtmf (rt : runtime) (env : dtmf_env) (c : dtmf_state) (dtmf : switch_dtmf)
  : dtmf_state * switch_status :=
  if channel_down env then (c, SWITCH_STATUS_FALSE)
  else if test_flag (dflags dtmf) DTMF_FLAG_SENSITIVE then (c, SWITCH_STATUS_SUCCESS)
  else
    let new_dtmf := set_duration dtmf (limit_duration rt (duration dtmf)) in
    if test_flag (dflags dtmf) DTMF_FLAG_SKIP_PROCESS then (c, SWITCH_STATUS_SUCCESS)
    else
      let c := if dmachine env
               then DtmfState (dtmf_queue c) (dtmf_log_queue c) (live c) (fed c ++ [digit dtmf]) (fired c)
               else c in
      let status := run_recv_hooks (recv_dtmf_hooks env) new_dtmf in
      if decide (status = SWITCH_STATUS_SUCCESS)
      then (c, if dmachine env then SWITCH_STATUS_FALSE else SWITCH_STATUS_SUCCESS)
      else (c, status).

(** The [while] around switch_queue_trypush: each failure drops the oldest
    digit, and [tries] more failures are tolerated. *)
Fixpoint push_loop (tries : nat) (q : Q) (live : Z) (dt : switch_dtmf) : Q * Z * switch_status :=
  match queue_trypush q dt with
  | Some q => (q, live, SWITCH_STATUS_SUCCESS)
  | None =>
    let '(q, live) := match queue_trypop q with Some (_, q) => (q, live - 1) | None => (q, live) end in
    match tries with
    | O => (q, live - 1, SWITCH_STATUS_FALSE)
    | S tries => push_loop tries q live dt
    end
  end.

Definition switch_channel_queue_dtmf (rt : runtime) (env : dtmf_env) (c : dtmf_state) (dtmf : switch_dtmf)
  : dtmf_state * switch_status :=
  let sensitive := switch_true (sensitive_dtmf env) in
  let new_dtmf := if sensitive then set_dflag dtmf DTMF_FLAG_SENSITIVE else dtmf in
  let '(c, status) := switch_core_session_recv_dtmf rt env c dtmf in
  if decide (status = SWITCH_STATUS_SUCCESS) then
    if is_dtmf (digit new_dtmf) then
      let new_dtmf :=
        if negb (digit new_dtmf =? 119) && negb (digit new_dtmf =? 87)
        then set_duration new_dtmf (clamp_duration rt (duration new_dtmf)) else new_dtmf in
      let new_dtmf :=
        if duration new_dtmf =? 0 then set_duration new_dtmf (default_dtmf_duration rt) else new_dtmf in
      let '(q, n, status) := push_loop 100 (dtmf_queue c) (live c + 1) new_dtmf in
      (DtmfState q (dtmf_log_queue c) n (fed c) (fired c), status)
    else (c, SWITCH_STATUS_SUCCESS)
  else (c, SWITCH_STATUS_FALSE).

(** The inner loop of switch_channel_queue_dtmf_string over one field; the
    duration is carried from digit to digit. *)
Fixpoint queue_field (rt : runtime) (env : dtmf_env) (c : dtmf_state) (dtmf : switch_dtmf) (p : bytes) (sent : Z)
  : dtmf_state * Z :=
  match p with
  | [] => (c, sent)
  | key :: p =>
    if is_dtmf key then
      let dtmf := Dtmf key (limit_duration rt (duration dtmf)) (dflags dtmf) (source dtmf) in
      let '(c, status) := switch_channel_queue_dtmf rt env c dtmf in
      queue_field rt env c dtmf p (if decide (status = SWITCH_STATUS_SUCCESS) then sent + 1 else sent)
    else queue_field rt env c dtmf p sent
  end.

(** One field: [digits], or [digits@milliseconds]. *)
Definition field_duration (rt : runtime) (arg : bytes) : bytes * Z :=
  match strchr arg 64 with
  | None => (arg, default_dtmf_duration rt)
  | Some i =>
    let '(ds, p) := cut_at arg i in
    let dur := atoi p in
    (ds, if min_dtmf_duration rt `div` 8 <? dur then u32 (dur * 8) else default_dtmf_duration rt)
  end.

Fixpoint queue_fields (rt : runtime) (env : dtmf_env) (c : dtmf_state) (flags : Z) (argv : list bytes) (sent : Z)
  : dtmf_state * Z :=
  match argv with
  | [] => (c, sent)
  | arg :: argv =>
    let '(ds, n) := field_duration rt arg in
    let '(c, sent) := queue_field rt env c (Dtmf 0 n flags SWITCH_DTMF_APP) ds sent in
    queue_fields rt env c flags argv sent
  end.

(** [None]: switch_separate_string ran over the end of the string. *)
Definition switch_channel_queue_dtmf_string (rt : runtime) (env : dtmf_env) (c : dtmf_state) (dtmf_string : option bytes)
  : option (dtmf_state * switch_status) :=
  match dtmf_string with
  | None | Some [] => Some (c, SWITCH_STATUS_FALSE)
  | Some (x :: s) =>
    let '(s, flags) := if x =? 126 then (s, 0) else (x :: s, DTMF_FLAG_SKIP_PROCESS) in
    argv ← switch_separate_string s 43 256;
    let '(c, sent) := queue_fields rt env c flags argv 0 in
    Some (c, if sent =? 0 then SWITCH_STATUS_FALSE else SWITCH_STATUS_SUCCESS)
  end.

(** The popped digit goes to the log queue, or is freed when that is full; a
    sensitive one does neither. *)
Definition switch_channel_dequeue_dtmf (rt : runtime) (c : dtmf_state) : dtmf_state * option switch_dtmf :=
  match queue_trypop (dtmf_queue c) with
  | None => (c, None)
  | Some (dt, q) =>
    let sensitive := test_flag (dflags dt) DTMF_FLAG_SENSITIVE in
    let '(lq, n) :=
      if sensitive then (dtmf_log_queue c, live c)
      else match queue_trypush (dtmf_log_queue c) dt with
           | Some lq => (lq, live c)
           | None => (dtmf_log_queue c, live c - 1)
           end in
    let dtmf := set_duration dt (limit_duration rt (duration dt)) in
    (DtmfState q lq n (fed c) (if sensitive then fired c else fired c ++ [dtmf]), Some dtmf)
  end.

(** The digits written to [dtmf_str]; [len - 1] is a [size_t].  The loop runs
    once per queued digit at most, which bounds its fuel. *)
Fixpoint dequeue_string_loop (fuel : nat) (rt : runtime) (c : dtmf_state) (len : Z) (dtmf_str : bytes)
  : dtmf_state * bytes :=
  match fuel with
  | O => (c, dtmf_str)
  | S fuel =>
    if zlen dtmf_str <? (len -u 1) then
      match switch_channel_dequeue_dtmf rt c with
      | (c, Some dtmf) => dequeue_string_loop fuel rt c len (dtmf_str ++ [digit dtmf])
      | (c, None) => (c, dtmf_str)
      end
    else (c, dtmf_str)
  end.

Definition switch_channel_dequeue_dtmf_string (rt : runtime) (c : dtmf_state) (len : Z) : dtmf_state * bytes :=
  dequeue_string_loop (S (Z.to_nat (queue_size (dtmf_queue c)))) rt c len [].

Fixpoint flush_loop (fuel : nat) (hungup : bool) (c : dtmf_state) : dtmf_state :=
  match fuel with
  | O => c
  | S fuel =>
    match queue_trypop (dtmf_queue c) with
    | None => c
    | Some (dt, q) =>
      let '(lq, n) :=
        if hungup then (dtmf_log_queue c, live c - 1)
        else match queue_trypush (dtmf_log_queue c) dt with
             | Some lq => (lq, live c)
             | None => (dtmf_log_queue c, live c - 1)
             end in
      flush_loop fuel hungup (DtmfState q lq n (fed c) (fired c))
    end
  end.

(** [hungup]: channel->state >= CS_HANGUP. *)
Definition switch_channel_flush_dtmf (hungup : bool) (c : dtmf_state) : dtmf_state :=
  flush_loop (S (Z.to_nat (queue_size (dtmf_queue c)))) hungup c.

Fixpoint drain_log (fuel : nat) (c : dtmf_state) : dtmf_state :=
  match fuel with
  | O => c
  | S fuel =>
    match queue_trypop (dtmf_log_queue c) with
    | None => c
    | Some (_, lq) => drain_log fuel (DtmfState (dtmf_queue c) lq (live c - 1) (fed c) (fired c))
    end
  end.

(** The digit part of switch_channel_uninit. *)
Definition dtmf_uninit (hungup : bool) (c : dtmf_state) : dtmf_state :=
  let c := switch_channel_flush_dtmf hungup c in
  drain_log (S (Z.to_nat (queue_size (dtmf_log_queue c)))) c.

Fixpoint log_digits (fuel : nat) (c : dtmf_state) (dtstr : bytes) : dtmf_state * bytes :=
  match fuel with
  | O => (c, dtstr)
  | S fuel =>
    match queue_trypop (dtmf_log_queue c) with
    | None => (c, dtstr)
    | Some (dt, lq) =>
      log_digits fuel (DtmfState (dtmf_queue c) lq (live c - 1) (fed c) (fired c)) (dtstr ++ [digit dt])
    end
  end.

(** The digits_dialed variable switch_channel_set_timestamps sets. *)
Definition digits_dialed (c : dtmf_state) : dtmf_state * bytes :=
  let '(c, dtstr) := log_digits (Z.to_nat SWITCH_DTMF_LOG_LEN) c [] in
  (c, if bool_decide (dtstr = []) then str "none" else dtstr).

(** ** The queue operations on the digits they hold *)

Lemma push_loop_spec n q l dt :
  0 < capacity q -> zlen (elements q) <= capacity q ->
  exists q', push_loop (S n) q l dt =
      (q', (if zlen (elements q) <? capacity q then l else l - 1), SWITCH_STATUS_SUCCESS)
    /\ capacity q' = capacity q
    /\ elements q' = (if zlen (elements q) <? capacity q then elements q else tail (elements q)) ++ [dt].
Proof.
  intros Hcap Hlen. cbn [push_loop]. destruct (Z.ltb_spec (zlen (elements q)) (capacity q)) as [Hroom|Hfull].
  - destruct (push_room q dt Hroom) as (q' & -> & He & Hc). by exists q'.
  - rewrite push_full by lia.
    destruct (elements q) as [|e es] eqn:Hq; [rewrite zlen_nil in Hfull; lia|].
    destruct (pop_oldest q e es Hq) as (q1 & -> & He1 & Hc1).
    rewrite zlen_cons in Hlen. destruct (push_room q1 dt) as (q' & Hp & He & Hc); [rewrite He1; lia|].
    exists q'. destruct n; cbn [push_loop]; rewrite Hp, Hc, Hc1, He, He1; done.
Qed.

(** The digit switch_channel_queue_dtmf stores for [d]. *)
Definition stored (rt : runtime) (env : dtmf_env) (d : switch_dtmf) : switch_dtmf :=
  let d' := if switch_true (sensitive_dtmf env) then set_dflag d DTMF_FLAG_SENSITIVE else d in
  let n := if negb (digit d =? 119) && negb (digit d =? 87) then clamp_duration rt (duration d) else duration d in
  set_duration d' (if n =? 0 then default_dtmf_duration rt else n).

(** Appending to a queue that holds [cap] digits at most drops the oldest. *)
Definition keep_newest (cap : Z) (es : list switch_dtmf) : list switch_dtmf :=
  if zlen es <? cap then es else tail es.

Definition accepted (rt : runtime) (env : dtmf_env) (c : dtmf_state) (d : switch_dtmf) : Prop :=
  snd (switch_core_session_recv_dtmf rt env c d) = SWITCH_STATUS_SUCCESS.

#[local] Instance accepted_dec rt env c d : Decision (accepted rt env c d).
Proof. unfold accepted. apply _. Defined.

(** Receiving a digit does not touch the queues. *)
Lemma recv_dtmf_queues rt env c d c' st : switch_core_session_recv_dtmf rt env c d = (c', st) ->
  dtmf_queue c' = dtmf_queue c /\ dtmf_log_queue c' = dtmf_log_queue c /\ live c' = live c /\ fired c' = fired c.
Proof. unfold switch_core_session_recv_dtmf. intros H. repeat case_match; simplify_eq; done. Qed.

Lemma stored_eq rt env d :
  (let new := if switch_true (sensitive_dtmf env) then set_dflag d DTMF_FLAG_SENSITIVE else d in
   let new := if negb (digit new =? 119) && negb (digit new =? 87)
              then set_duration new (clamp_duration rt (duration new)) else new in
   if duration new =? 0 then set_duration new (default_dtmf_duration rt) else new) = stored rt env d.
Proof.
  unfold stored, set_duration, set_dflag. destruct d as [k n f src].
  destruct (switch_true _); simpl; destruct (negb (k =? 119) && negb (k =? 87)); simpl; by case_match.
Qed.

Lemma stored_digit rt env d : digit (stored rt env d) = digit d.
Proof. unfold stored. by case_match. Qed.

Lemma sensitive_digit env d :
  digit (if switch_true (sensitive_dtmf env) then set_dflag d DTMF_FLAG_SENSITIVE else d) = digit d.
Proof. by case_match. Qed.

Lemma queue_dtmf_spec rt env c d :
  0 < capacity (dtmf_queue c) -> zlen (elements (dtmf_queue c)) <= capacity (dtmf_queue c) ->
  is_dtmf (digit d) = true -> accepted rt env c d ->
  exists c', switch_channel_queue_dtmf rt env c d = (c', SWITCH_STATUS_SUCCESS)
    /\ elements (dtmf_queue c') =
         keep_newest (capacity (dtmf_queue c)) (elements (dtmf_queue c)) ++ [stored rt env d]
    /\ capacity (dtmf_queue c') = capacity (dtmf_queue c)
    /\ dtmf_log_queue c' = dtmf_log_queue c /\ fired c' = fired c
    /\ live c' = live c + zlen (elements (dtmf_queue c')) - zlen (elements (dtmf_queue c)).
Proof.
  intros Hcap Hlen Hd Hacc. unfold accepted in Hacc. unfold switch_channel_queue_dtmf.
  destruct (switch_core_session_recv_dtmf rt env c d) as [c1 st] eqn:Hr.
  apply recv_dtmf_queues in Hr as (Hq & Hl & Hn & Hf). simpl in Hacc. subst st.
  rewrite decide_True by done. pose proof (stored_eq rt env d) as Hst. cbv zeta in Hst |- *.
  rewrite Hst, sensitive_digit, Hd. clear Hst.
  destruct (push_loop_spec 99 (dtmf_queue c1) (live c1 + 1) (stored rt env d)) as (q' & -> & Hc' & He'); [by rewrite Hq..|].
  rewrite Hq in *. eexists; split; [done|]; cbn [dtmf_queue dtmf_log_queue live fired].
  split_and!; try done; unfold keep_newest. rewrite He', Hn, zlen_app, zlen_cons, zlen_nil.
  case_match; [lia|]. destruct (elements (dtmf_queue c)) eqn:Hes; [rewrite zlen_nil in *; lia|].
  simpl. rewrite zlen_cons. lia.
Qed.

Lemma queue_dtmf_rejected rt env c d : is_dtmf (digit d) = false \/ ~ accepted rt env c d ->
  exists f, fst (switch_channel_queue_dtmf rt env c d) =
    DtmfState (dtmf_queue c) (dtmf_log_queue c) (live c) f (fired c).
Proof.
  intros Hd. unfold switch_channel_queue_dtmf, accepted in *.
  destruct (switch_core_session_recv_dtmf rt env c d) as [c1 st] eqn:Hr.
  apply recv_dtmf_queues in Hr as (Hq & Hl & Hn & Hf). simpl in Hd. rewrite sensitive_digit.
  destruct c1 as [q l n f fi]; simpl in *; subst. exists f.
  destruct (decide (st = SWITCH_STATUS_SUCCESS)); [|done].
  destruct Hd as [-> | ?]; done.
Qed.

Lemma dequeue_dtmf_spec rt c d es :
  elements (dtmf_queue c) = d :: es ->
  exists c', switch_channel_dequeue_dtmf rt c = (c', Some (set_duration d (limit_duration rt (duration d))))
    /\ elements (dtmf_queue c') = es /\ capacity (dtmf_queue c') = capacity (dtmf_queue c)
    /\ capacity (dtmf_log_queue c') = capacity (dtmf_log_queue c)
    /\ (if test_flag (dflags d) DTMF_FLAG_SENSITIVE
        then dtmf_log_queue c' = dtmf_log_queue c /\ live c' = live c /\ fired c' = fired c
        else if zlen (elements (dtmf_log_queue c)) <? capacity (dtmf_log_queue c)
        then elements (dtmf_log_queue c') = elements (dtmf_log_queue c) ++ [d] /\ live c' = live c
        else elements (dtmf_log_queue c') = elements (dtmf_log_queue c) /\ live c' = live c - 1).
Proof.
  intros Hq. unfold switch_channel_dequeue_dtmf. destruct (pop_oldest _ _ _ Hq) as (q' & -> & He & Hc).
  destruct (test_flag _ _) eqn:Hs; [eexists; split; [done|]; simpl; by split_and!|].
  destruct (Z.ltb_spec (zlen (elements (dtmf_log_queue c))) (capacity (dtmf_log_queue c))) as [Hr|Hf].
  - destruct (push_room _ d Hr) as (lq & -> & Hle & Hlc). eexists; split; [done|]; simpl. by split_and!.
  - rewrite push_full by lia. eexists; split; [done|]; simpl. by split_and!.
Qed.

Lemma dequeue_dtmf_empty rt c : elements (dtmf_queue c) = [] -> switch_channel_dequeue_dtmf rt c = (c, None).
Proof. intros Hq. unfold switch_channel_dequeue_dtmf. by rewrite (pop_empty _ Hq). Qed.

(** ** The invariant of the digit queues *)

Definition ordered (rt : runtime) : Prop :=
  SWITCH_MIN_DTMF_DURATION <= min_dtmf_duration rt
  /\ min_dtmf_duration rt <= max_dtmf_duration rt <= SWITCH_MAX_DTMF_DURATION
  /\ SWITCH_MIN_DTMF_DURATION <= default_dtmf_duration rt <= SWITCH_MAX_DTMF_DURATION.

(** A queued digit is a key of the pad (or a pause) with a usable duration. *)
Definition digit_ok (rt : runtime) (d : switch_dtmf) : Prop :=
  is_dtmf (digit d) = true /\ duration d <> 0
  /\ (digit d <> 119 -> digit d <> 87 -> min_dtmf_duration rt <= duration d <= max_dtmf_duration rt).

Definition insensitive (d : switch_dtmf) : Prop := test_flag (dflags d) DTMF_FLAG_SENSITIVE = false.

(** [clear]: no digit was ever marked sensitive. *)
Record digits_inv (clear : Prop) (rt : runtime) (c : dtmf_state) : Prop := {
  inv_cap : capacity (dtmf_queue c) = SWITCH_DTMF_LOG_LEN;
  inv_log_cap : capacity (dtmf_log_queue c) = SWITCH_DTMF_LOG_LEN;
  inv_len : zlen (elements (dtmf_queue c)) <= SWITCH_DTMF_LOG_LEN;
  inv_log_len : zlen (elements (dtmf_log_queue c)) <= SWITCH_DTMF_LOG_LEN;
  inv_ok : Forall (digit_ok rt) (elements (dtmf_queue c));
  inv_live : zlen (elements (dtmf_queue c)) + zlen (elements (dtmf_log_queue c)) <= live c;
  inv_clear : clear ->
    zlen (elements (dtmf_queue c)) + zlen (elements (dtmf_log_queue c)) = live c
    /\ Forall insensitive (elements (dtmf_queue c))
}.

Definition clear_input (env : dtmf_env) (d : switch_dtmf) : Prop :=
  switch_true (sensitive_dtmf env) = false /\ insensitive d.

Lemma alloc_inv clear rt : digits_inv clear rt dtmf_alloc.
Proof.
  unfold dtmf_alloc, SWITCH_DTMF_LOG_LEN.
  constructor; cbn [dtmf_queue dtmf_log_queue live]; rewrite ?create_elements, ?create_capacity, ?zlen_nil; try done; lia.
Qed.

Lemma stored_ok rt env d : ordered rt -> is_dtmf (digit d) = true -> digit_ok rt (stored rt env d).
Proof.
  unfold ordered, SWITCH_MIN_DTMF_DURATION. intros Hrt Hd. unfold digit_ok. rewrite stored_digit.
  split_and!; [done|..].
  - unfold stored. simpl. case_match eqn:Hz; [lia|]. by apply Z.eqb_neq.
  - intros ??. unfold stored. simpl. rewrite (proj2 (Z.eqb_neq (digit d) 119)), (proj2 (Z.eqb_neq (digit d) 87)) by done. simpl.
    unfold clamp_duration. repeat case_match; lia.
Qed.

Lemma stored_clear rt env d : clear_input env d -> insensitive (stored rt env d).
Proof. intros [Hs Hi]. unfold stored. rewrite Hs. done. Qed.

Lemma keep_newest_forall (P : switch_dtmf -> Prop) n es : Forall P es -> Forall P (keep_newest n es).
Proof. intros H. unfold keep_newest. case_match; [done|]. destruct es; [done|]. by apply Forall_cons in H as [_ H]. Qed.

Lemma keep_newest_len n es : 0 < n -> zlen es <= n -> zlen (keep_newest n es) <= n - 1.
Proof.
  intros ??. unfold keep_newest. destruct (Z.ltb_spec (zlen es) n); [lia|].
  destruct es; simpl; rewrite ?zlen_nil, ?zlen_cons in *; lia.
Qed.

Lemma queue_dtmf_inv (clear : Prop) rt env c d : ordered rt -> (clear -> clear_input env d) ->
  digits_inv clear rt c -> digits_inv clear rt (fst (switch_channel_queue_dtmf rt env c d)).
Proof.
  intros Hrt Hcl Hinv.
  destruct (decide (is_dtmf (digit d) = true /\ accepted rt env c d)) as [[Hd Ha]|Hno].
  - destruct Hinv as [Hc Hlc Hl Hll Hok Hlv Hclr].
    destruct (queue_dtmf_spec rt env c d) as (c' & -> & He & Hc' & Hlog & _ & Hlive);
      [rewrite Hc; unfold SWITCH_DTMF_LOG_LEN; lia|lia|done..|].
    pose proof (keep_newest_len SWITCH_DTMF_LOG_LEN (elements (dtmf_queue c)) eq_refl Hl) as Hk.
    simpl. rewrite Hc in *.
    constructor; rewrite ?Hc', ?Hlog, ?Hlive; try done.
    + rewrite He, zlen_app, zlen_cons, zlen_nil. lia.
    + rewrite He. apply Forall_app; split; [by apply keep_newest_forall|]. constructor; [by apply stored_ok|done].
    + lia.
    + intros Hx. destruct (Hclr Hx) as [Heq Hf]. split; [lia|]. rewrite He.
      apply Forall_app; split; [by apply keep_newest_forall|]. constructor; [apply stored_clear; auto|done].
  - destruct (queue_dtmf_rejected rt env c d) as [f ->].
    { destruct (is_dtmf (digit d)); [right; intros ?; apply Hno; done|by left]. }
    destruct Hinv. by constructor.
Qed.

Lemma dequeue_dtmf_inv clear rt c : digits_inv clear rt c -> digits_inv clear rt (fst (switch_channel_dequeue_dtmf rt c)).
Proof.
  intros Hinv. destruct (elements (dtmf_queue c)) as [|d es] eqn:Hq; [by rewrite dequeue_dtmf_empty|].
  destruct (dequeue_dtmf_spec rt c d es Hq) as (c' & -> & He & Hc & Hlc & Hcase). simpl.
  destruct Hinv as [H1 H2 H3 H4 H5 H6 H7]. rewrite Hq, zlen_cons in *. apply Forall_cons in H5 as [_ H5].
  assert (zlen (elements (dtmf_log_queue c')) <= SWITCH_DTMF_LOG_LEN
    /\ zlen (elements (dtmf_queue c')) + zlen (elements (dtmf_log_queue c')) <= live c'
    /\ (clear -> zlen (elements (dtmf_queue c')) + zlen (elements (dtmf_log_queue c')) = live c')) as (Ha & Hb & Hd).
  { rewrite He, H2 in *. destruct (test_flag _ _) eqn:Hs.
    - destruct Hcase as (-> & -> & _). split_and!; [done|lia|]. intros Hx. destruct (H7 Hx) as [_ Hf].
      apply Forall_cons in Hf as [Hf _]. unfold insensitive in Hf. congruence.
    - destruct (Z.ltb_spec (zlen (elements (dtmf_log_queue c))) SWITCH_DTMF_LOG_LEN); destruct Hcase as (-> & ->);
        rewrite ?zlen_app, ?zlen_cons, ?zlen_nil; (split_and!; [lia..|]; intros Hx; destruct (H7 Hx); lia). }
  constructor; rewrite ?He, ?Hc, ?Hlc in *; try done; [lia|].
  intros Hx. split; [by apply Hd|]. destruct (H7 Hx) as [_ Hf]. by apply Forall_cons in Hf as [_ Hf].
Qed.

Lemma queue_field_inv (clear : Prop) rt env p : forall c d n, ordered rt -> (clear -> clear_input env d) ->
  digits_inv clear rt c -> digits_inv clear rt (fst (queue_field rt env c d p n)).
Proof.
  induction p as [|key p IH]; intros c d n Hrt Hcl Hinv; [done|]. cbn [queue_field]. destruct (is_dtmf key); [|by apply IH].
  set (d' := Dtmf key _ _ _). assert (clear -> clear_input env d') as Hcl' by done.
  pose proof (queue_dtmf_inv clear rt env c d' Hrt Hcl' Hinv) as Hq.
  destruct (switch_channel_queue_dtmf rt env c d') as [c' st]. by apply IH.
Qed.

Lemma queue_fields_inv (clear : Prop) rt env flags argv : forall c n, ordered rt ->
  (clear -> forall k m, clear_input env (Dtmf k m flags SWITCH_DTMF_APP)) ->
  digits_inv clear rt c -> digits_inv clear rt (fst (queue_fields rt env c flags argv n)).
Proof.
  induction argv as [|arg argv IH]; intros c n Hrt Hcl Hinv; [done|]. cbn [queue_fields].
  destruct (field_duration rt arg) as [ds m].
  pose proof (queue_field_inv clear rt env ds c (Dtmf 0 m flags SWITCH_DTMF_APP) n Hrt) as Hf.
  destruct (queue_field _ _ _ _ _ _) as [c' n']. apply IH; [done..|]. apply Hf; auto.
Qed.

Lemma dequeue_string_loop_inv clear rt len fuel : forall c acc,
  digits_inv clear rt c -> digits_inv clear rt (fst (dequeue_string_loop fuel rt c len acc)).
Proof.
  induction fuel as [|fuel IH]; intros c acc Hinv; [done|]. cbn [dequeue_string_loop].
  case_match; [|done]. pose proof (dequeue_dtmf_inv clear rt c Hinv) as Hd.
  destruct (switch_channel_dequeue_dtmf rt c) as [c' [d|]]; [by apply IH|done].
Qed.

(** One turn of the flush loop. *)
Lemma flush_step (hungup : bool) c d es :
  elements (dtmf_queue c) = d :: es -> capacity (dtmf_log_queue c) = SWITCH_DTMF_LOG_LEN ->
  zlen (elements (dtmf_log_queue c)) <= SWITCH_DTMF_LOG_LEN ->
  exists c', (forall fuel, flush_loop (S fuel) hungup c = flush_loop fuel hungup c')
    /\ elements (dtmf_queue c') = es /\ capacity (dtmf_queue c') = capacity (dtmf_queue c)
    /\ capacity (dtmf_log_queue c') = SWITCH_DTMF_LOG_LEN
    /\ elements (dtmf_log_queue c') = elements (dtmf_log_queue c) ++
         (if negb hungup && (zlen (elements (dtmf_log_queue c)) <? SWITCH_DTMF_LOG_LEN) then [d] else [])
    /\ zlen (elements (dtmf_queue c')) + zlen (elements (dtmf_log_queue c')) - live c'
       = zlen (elements (dtmf_queue c)) + zlen (elements (dtmf_log_queue c)) - live c.
Proof.
  intros Hq Hlc Hll. destruct (pop_oldest _ _ _ Hq) as (q' & Hpop & He & Hc).
  destruct (negb hungup && _) eqn:Hb.
  - apply andb_true_iff in Hb as [Hh Hb]. destruct hungup; [done|].
    destruct (push_room (dtmf_log_queue c) d) as (lq & Hpush & Hle & Hlc'); [rewrite Hlc; by apply Z.ltb_lt|].
    exists (DtmfState q' lq (live c) (fed c) (fired c)). split_and!; try done; simpl; try congruence.
    + intros fuel. cbn [flush_loop]. by rewrite Hpop, Hpush.
    + rewrite Hq, He, Hle, zlen_app, !zlen_cons, zlen_nil. lia.
  - exists (DtmfState q' (dtmf_log_queue c) (live c - 1) (fed c) (fired c)).
    split_and!; try done; simpl; rewrite ?app_nil_r; try done; try congruence.
    + intros fuel. cbn [flush_loop]. rewrite Hpop. destruct hungup; [done|]. simpl in Hb. apply Z.ltb_ge in Hb.
      by rewrite push_full by lia.
    + rewrite Hq, He, !zlen_cons. lia.
Qed.

Lemma flush_loop_inv clear rt hungup fuel : forall c,
  digits_inv clear rt c -> digits_inv clear rt (flush_loop fuel hungup c).
Proof.
  induction fuel as [|fuel IH]; intros c Hinv; [done|].
  destruct (elements (dtmf_queue c)) as [|d es] eqn:Hq; [cbn [flush_loop]; by rewrite (pop_empty _ Hq)|].
  destruct Hinv as [H1 H2 H3 H4 H5 H6 H7].
  destruct (flush_step hungup c d es) as (c' & -> & He & Hc & Hlc & Hl & Hlive); [done..|].
  rewrite Hq, zlen_cons in *. apply Forall_cons in H5 as [_ H5].
  apply IH. constructor; rewrite ?He, ?Hc, ?Hlc in *; try done; try lia.
  - rewrite Hl, zlen_app. destruct hungup; simpl; rewrite ?zlen_nil; [lia|].
    destruct (Z.ltb_spec (zlen (elements (dtmf_log_queue c))) SWITCH_DTMF_LOG_LEN); rewrite ?zlen_cons, ?zlen_nil; lia.
  - intros Hx. destruct (H7 Hx) as [Hlv Hf]. apply Forall_cons in Hf as [_ Hf]. split; [lia|done].
Qed.

Lemma flush_loop_empty hungup fuel : forall c,
  (length (elements (dtmf_queue c)) < fuel)%nat -> capacity (dtmf_log_queue c) = SWITCH_DTMF_LOG_LEN ->
  zlen (elements (dtmf_log_queue c)) <= SWITCH_DTMF_LOG_LEN -> elements (dtmf_queue (flush_loop fuel hungup c)) = [].
Proof.
  induction fuel as [|fuel IH]; intros c Hlen Hc Hl; [lia|].
  destruct (elements (dtmf_queue c)) as [|d es] eqn:Hq; [cbn [flush_loop]; by rewrite (pop_empty _ Hq)|].
  destruct (flush_step hungup c d es) as (c' & -> & He & _ & Hlc & Hle & _); [done..|].
  apply IH; [rewrite He; simpl in Hlen; lia|done|]. rewrite Hle, zlen_app.
  destruct hungup; simpl; rewrite ?zlen_nil; [lia|].
  destruct (Z.ltb_spec (zlen (elements (dtmf_log_queue c))) SWITCH_DTMF_LOG_LEN); rewrite ?zlen_cons, ?zlen_nil; lia.
Qed.

(** The two loops that empty the log queue free every digit they take. *)
Lemma drain_log_spec fuel : forall c,
  (length (elements (dtmf_log_queue c)) < fuel)%nat ->
  elements (dtmf_log_queue (drain_log fuel c)) = [] /\ dtmf_queue (drain_log fuel c) = dtmf_queue c
  /\ live (drain_log fuel c) = live c - zlen (elements (dtmf_log_queue c)).
Proof.
  induction fuel as [|fuel IH]; intros c Hlen; [lia|]. cbn [drain_log].
  destruct (elements (dtmf_log_queue c)) as [|d es] eqn:Hq; [rewrite (pop_empty _ Hq), zlen_nil, Hq; split_and!; [done..|lia]|].
  destruct (pop_oldest _ _ _ Hq) as (lq & -> & He & _). simpl in Hlen.
  destruct (IH (DtmfState (dtmf_queue c) lq (live c - 1) (fed c) (fired c))) as (H1 & H2 & H3); [simpl; rewrite He; lia|].
  rewrite H1, H2, H3. simpl. rewrite He, zlen_cons. split_and!; [done..|lia].
Qed.

Lemma log_digits_inv clear rt fuel : forall c acc,
  digits_inv clear rt c -> digits_inv clear rt (fst (log_digits fuel c acc)).
Proof.
  induction fuel as [|fuel IH]; intros c acc Hinv; [done|]. cbn [log_digits].
  destruct (elements (dtmf_log_queue c)) as [|d es] eqn:Hq; [by rewrite (pop_empty _ Hq)|].
  destruct (pop_oldest _ _ _ Hq) as (lq & -> & He & Hc). apply IH.
  destruct Hinv as [H1 H2 H3 H4 H5 H6 H7]. rewrite Hq, zlen_cons in *.
  constructor; simpl; rewrite ?He, ?Hc; try done; try lia.
  intros Hx. destruct (H7 Hx). split; [lia|done].
Qed.

Lemma log_digits_spec fuel : forall c acc,
  (length (elements (dtmf_log_queue c)) <= fuel)%nat ->
  snd (log_digits fuel c acc) = acc ++ (digit <$> elements (dtmf_log_queue c)).
Proof.
  induction fuel as [|fuel IH]; intros c acc Hlen; cbn [log_digits];
    destruct (elements (dtmf_log_queue c)) as [|d es] eqn:Hq; simpl in *; rewrite ?app_nil_r; try done; try lia.
  - by rewrite (pop_empty _ Hq).
  - destruct (pop_oldest _ _ _ Hq) as (lq & -> & He & Hc). rewrite IH; simpl; rewrite He; [|lia].
    by rewrite <-app_assoc.
Qed.

(** ** Histories of a channel's digits *)

Inductive dtmf_op :=
| OpQueue (env : dtmf_env) (d : switch_dtmf)
| OpQueueString (env : dtmf_env) (s : option bytes)
| OpDequeue
| OpDequeueString (len : Z)
| OpFlush (hungup : bool)
| OpReport.

Definition run_op (rt : runtime) (c : dtmf_state) (op : dtmf_op) : option dtmf_state :=
  match op with
  | OpQueue env d => Some (fst (switch_channel_queue_dtmf rt env c d))
  | OpQueueString env s => fst <$> switch_channel_queue_dtmf_string rt env c s
  | OpDequeue => Some (fst (switch_channel_dequeue_dtmf rt c))
  | OpDequeueString len => Some (fst (switch_channel_dequeue_dtmf_string rt c len))
  | OpFlush hungup => Some (switch_channel_flush_dtmf hungup c)
  | OpReport => Some (fst (digits_dialed c))
  end.

Fixpoint run_ops (rt : runtime) (c : dtmf_state) (ops : list dtmf_op) : option dtmf_state :=
  match ops with
  | [] => Some c
  | op :: ops => c ← run_op rt c op; run_ops rt c ops
  end.

Definition op_clear (op : dtmf_op) : Prop :=
  match op with
  | OpQueue env d => clear_input env d
  | OpQueueString env _ => switch_true (sensitive_dtmf env) = false
  | _ => True
  end.

Lemma queue_string_inv (clear : Prop) rt env c s c' st : ordered rt ->
  (clear -> switch_true (sensitive_dtmf env) = false) -> digits_inv clear rt c ->
  switch_channel_queue_dtmf_string rt env c s = Some (c', st) -> digits_inv clear rt c'.
Proof.
  intros Hrt Hcl Hinv. unfold switch_channel_queue_dtmf_string.
  destruct s as [[|x s]|]; [by intros [= <- _]| |by intros [= <- _]].
  destruct (if x =? 126 then _ else _) as [s' flags] eqn:Hx.
  assert (flags = 0 \/ flags = DTMF_FLAG_SKIP_PROCESS) as Hflags by (case_match; simplify_eq; eauto).
  destruct (switch_separate_string s' 43 256) as [argv|]; [|done]. simpl.
  pose proof (queue_fields_inv clear rt env flags argv c 0 Hrt) as Hf.
  destruct (queue_fields _ _ _ _ _ _) as [c1 n]. intros [= <- _]. apply Hf; [|done].
  intros Hc k m. split; [by apply Hcl|]. unfold insensitive, test_flag. simpl. by destruct Hflags as [-> | ->].
Qed.

Lemma run_op_inv (clear : Prop) rt c op c' : ordered rt -> (clear -> op_clear op) ->
  digits_inv clear rt c -> run_op rt c op = Some c' -> digits_inv clear rt c'.
Proof.
  intros Hrt Hcl Hinv. destruct op as [env d|env s| |len|h|]; simpl; intros Hrun; simplify_eq.
  - by apply queue_dtmf_inv.
  - apply fmap_Some in Hrun as ([c1 st] & Hrun & ->). by eapply queue_string_inv.
  - by apply dequeue_dtmf_inv.
  - by apply dequeue_string_loop_inv.
  - by apply flush_loop_inv.
  - unfold digits_dialed. pose proof (log_digits_inv clear rt (Z.to_nat SWITCH_DTMF_LOG_LEN) c [] Hinv) as H.
    by destruct (log_digits _ _ _).
Qed.

Lemma run_ops_inv (clear : Prop) rt ops : forall c c', ordered rt -> (clear -> Forall op_clear ops) ->
  digits_inv clear rt c -> run_ops rt c ops = Some c' -> digits_inv clear rt c'.
Proof.
  induction ops as [|op ops IH]; intros c c' Hrt Hcl Hinv; simpl; [by intros [= <-]|].
  intros (c1 & H1 & H2)%bind_Some. eapply IH; [done| |by eapply run_op_inv; [| |done|done]; [|intros Hc; by apply Hcl, Forall_cons in Hc as [Hc _]]|done].
  intros Hc. by apply Hcl, Forall_cons in Hc as [_ Hc].
Qed.

Lemma uninit_spec clear rt h c : digits_inv clear rt c ->
  elements (dtmf_queue (dtmf_uninit h c)) = [] /\ elements (dtmf_log_queue (dtmf_uninit h c)) = []
  /\ (clear -> live (dtmf_uninit h c) = 0).
Proof.
  intros Hinv. unfold dtmf_uninit. pose proof Hinv as [H1 H2 H3 H4 _ _ _].
  assert (elements (dtmf_queue (switch_channel_flush_dtmf h c)) = []) as He.
  { apply flush_loop_empty; [|done..]. rewrite size_elements. unfold zlen. lia. }
  pose proof (flush_loop_inv clear rt h (S (Z.to_nat (queue_size (dtmf_queue c)))) c Hinv) as Hf.
  fold (switch_channel_flush_dtmf h c) in Hf.
  destruct (drain_log_spec (S (Z.to_nat (queue_size (dtmf_log_queue (switch_channel_flush_dtmf h c))))) (switch_channel_flush_dtmf h c))
    as (Ha & Hb & Hc); [rewrite size_elements; unfold zlen; lia|].
  rewrite Ha, Hb, Hc, He. split_and!; [done..|]. intros Hx.
  destruct (inv_clear _ _ _ Hf Hx) as [Hlive _]. rewrite He, zlen_nil in Hlive. lia.
Qed.

(** The digit queues stay within their bounds and free what they take.
    Whatever digits and digit strings a channel receives, dequeues, flushes and
    reports, both queues hold at most 1000 digits, every queued digit is a valid
    key with a duration inside the configured limits, and switch_channel_uninit
    empties both queues; if no digit was sensitive every allocation was freed. *)
Theorem dtmf_history_bounded rt ops c hungup :
  ordered rt -> run_ops rt dtmf_alloc ops = Some c ->
  zlen (elements (dtmf_queue c)) <= SWITCH_DTMF_LOG_LEN
  /\ zlen (elements (dtmf_log_queue c)) <= SWITCH_DTMF_LOG_LEN
  /\ Forall (digit_ok rt) (elements (dtmf_queue c))
  /\ elements (dtmf_queue (dtmf_uninit hungup c)) = []
  /\ elements (dtmf_log_queue (dtmf_uninit hungup c)) = []
  /\ (Forall op_clear ops -> live (dtmf_uninit hungup c) = 0).
Proof.
  intros Hrt Hrun. eapply (run_ops_inv (Forall op_clear ops)) in Hrun; [|done..|apply alloc_inv].
  pose proof (uninit_spec _ _ hungup _ Hrun) as (Ha & Hb & Hc). destruct Hrun. done.
Qed.

Lemma accepted_state rt env c c' d : accepted rt env c d -> accepted rt env c' d.
Proof. unfold accepted, switch_core_session_recv_dtmf. repeat case_match; done. Qed.

Lemma tail_drop {A} n (l : list A) : tail (drop n l) = drop (S n) l.
Proof. revert l. induction n as [|n IH]; intros [|x l]; try done. simpl. by rewrite IH. Qed.

Definition queue_all (rt : runtime) (env : dtmf_env) (c : dtmf_state) (ds : list switch_dtmf) : dtmf_state :=
  fold_left (fun c d => fst (switch_channel_queue_dtmf rt env c d)) ds c.

Lemma queue_all_snoc rt env c ds d :
  queue_all rt env c (ds ++ [d]) = fst (switch_channel_queue_dtmf rt env (queue_all rt env c ds) d).
Proof. unfold queue_all. by rewrite fold_left_app. Qed.

Lemma queue_all_newest rt env c ds :
  elements (dtmf_queue c) = [] -> 0 < capacity (dtmf_queue c) ->
  Forall (fun d => is_dtmf (digit d) = true /\ accepted rt env c d) ds ->
  capacity (dtmf_queue (queue_all rt env c ds)) = capacity (dtmf_queue c)
  /\ elements (dtmf_queue (queue_all rt env c ds))
     = drop (length ds - Z.to_nat (capacity (dtmf_queue c))) (stored rt env <$> ds).
Proof.
  intros He Hcap. induction ds as [|d ds IH] using rev_ind; [done|].
  intros [Hds Hd]%Forall_app. apply Forall_cons in Hd as [[Hd Ha] _]. destruct (IH Hds) as [Hc' He']. clear IH.
  rewrite queue_all_snoc. set (n := length ds) in *. set (k := Z.to_nat (capacity (dtmf_queue c))) in *.
  assert (zlen (elements (dtmf_queue (queue_all rt env c ds))) = Z.of_nat (n - (n - k))) as Hlen.
  { unfold zlen. rewrite He', length_drop, length_fmap. done. }
  destruct (queue_dtmf_spec rt env (queue_all rt env c ds) d) as (c' & -> & Hel & Hcap' & _);
    [rewrite Hc'; lia | rewrite Hlen, Hc'; lia | done | by eapply accepted_state|].
  simpl. split; [congruence|]. rewrite Hel, fmap_app, length_app. unfold keep_newest. rewrite Hlen, Hc', He'.
  simpl. fold n. destruct (Z.ltb_spec (Z.of_nat (n - (n - k))) (capacity (dtmf_queue c))).
  - replace (n + 1 - k)%nat with 0%nat by lia. by replace (n - k)%nat with 0%nat by lia.
  - rewrite tail_drop. replace (n + 1 - k)%nat with (S (n - k)) by lia.
    rewrite drop_app_le; [done|]. rewrite length_fmap. fold n. lia.
Qed.

(** A full digit queue drops its oldest digits.  After any number of
    accepted digits, the queue of a fresh channel holds the most recent 1000 of
    them, in the order they came, each with its duration clamped into the limits
    (pauses excepted) and marked sensitive when the channel says so. *)
Theorem dtmf_queue_keeps_newest rt env ds :
  Forall (fun d => is_dtmf (digit d) = true /\ accepted rt env dtmf_alloc d) ds ->
  elements (dtmf_queue (queue_all rt env dtmf_alloc ds)) = drop (length ds - 1000) (stored rt env <$> ds).
Proof.
  intros Hds.
  assert (capacity (dtmf_queue dtmf_alloc) = 1000) as Hcap by apply create_capacity.
  destruct (queue_all_newest rt env dtmf_alloc ds) as [_ ->]; [apply create_elements|lia|done|].
  by rewrite Hcap.
Qed.

(** ** Digit strings *)

Lemma is_dtmf_plain k : is_dtmf k = true ->
  k <> 43 /\ k <> 64 /\ k <> 126 /\ k <> 94 /\ k <> 32 /\ k <> 39 /\ k <> 92.
Proof. intros H. split_and!; by intros ->. Qed.

Lemma strchr_none s k : Forall (fun c => c <> k) s -> strchr s k = None.
Proof.
  induction 1 as [|c s Hc _ IH]; [done|]. simpl. by rewrite (proj2 (Z.eqb_neq _ _)), IH by done.
Qed.

(** The digits switch_channel_queue_dtmf_string builds from one field: the
    duration is limited again for each digit. *)
Fixpoint field_digits (rt : runtime) (flags n : Z) (ds : bytes) : list switch_dtmf :=
  match ds with
  | [] => []
  | k :: ds => let n := limit_duration rt n in Dtmf k n flags SWITCH_DTMF_APP :: field_digits rt flags n ds
  end.

Lemma field_digits_digit rt flags ds : forall n, digit <$> field_digits rt flags n ds = ds.
Proof. induction ds as [|k ds IH]; intros n; [done|]. simpl. by rewrite IH. Qed.

Lemma skip_accepted rt env c k n : channel_down env = false ->
  accepted rt env c (Dtmf k n DTMF_FLAG_SKIP_PROCESS SWITCH_DTMF_APP).
Proof. intros Hd. unfold accepted, switch_core_session_recv_dtmf. by rewrite Hd. Qed.

Lemma queue_field_all rt env flags ds : forall c m n k,
  Forall (fun d => is_dtmf d = true) ds ->
  fst (queue_field rt env c (Dtmf m n flags SWITCH_DTMF_APP) ds k) = queue_all rt env c (field_digits rt flags n ds).
Proof.
  induction ds as [|key ds IH]; intros c m n k Hds; [done|]. apply Forall_cons in Hds as [Hk Hds].
  cbn [queue_field field_digits]. rewrite Hk. cbn [duration dflags source].
  destruct (switch_channel_queue_dtmf _ _ _ _) as [c' st] eqn:Hq. rewrite IH by done.
  unfold queue_all. cbn [fold_left]. by rewrite Hq.
Qed.

(** Every accepted digit is counted. *)
Lemma queue_field_sent rt env ds : forall c m n k,
  channel_down env = false -> capacity (dtmf_queue c) = SWITCH_DTMF_LOG_LEN ->
  zlen (elements (dtmf_queue c)) <= SWITCH_DTMF_LOG_LEN -> Forall (fun d => is_dtmf d = true) ds ->
  snd (queue_field rt env c (Dtmf m n DTMF_FLAG_SKIP_PROCESS SWITCH_DTMF_APP) ds k) = k + zlen ds.
Proof.
  induction ds as [|key ds IH]; intros c m n k Hdown Hcap Hlen Hds; [simpl; rewrite zlen_nil; lia|].
  apply Forall_cons in Hds as [Hk Hds]. cbn [queue_field]. rewrite Hk. cbn [duration dflags source].
  destruct (queue_dtmf_spec rt env c (Dtmf key (limit_duration rt n) DTMF_FLAG_SKIP_PROCESS SWITCH_DTMF_APP))
    as (c' & -> & He & Hc & _); [rewrite Hcap; done|lia|done|by apply skip_accepted|].
  rewrite decide_True by done. rewrite IH, zlen_cons; [lia|done|congruence| |done].
  rewrite He, zlen_app, zlen_cons, zlen_nil, Hcap.
  pose proof (keep_newest_len SWITCH_DTMF_LOG_LEN (elements (dtmf_queue c)) eq_refl Hlen). lia.
Qed.

Lemma dequeue_loop_all rt len fuel : forall c acc,
  (length (elements (dtmf_queue c)) < fuel)%nat ->
  zlen acc + zlen (elements (dtmf_queue c)) < len < 2 ^ 64 ->
  snd (dequeue_string_loop fuel rt c len acc) = acc ++ (digit <$> elements (dtmf_queue c))
  /\ elements (dtmf_queue (fst (dequeue_string_loop fuel rt c len acc))) = [].
Proof.
  induction fuel as [|fuel IH]; intros c acc Hlen Hroom; [lia|]. cbn [dequeue_string_loop].
  pose proof (zlen_nonneg acc). pose proof (zlen_nonneg (elements (dtmf_queue c))).
  destruct (elements (dtmf_queue c)) as [|d es] eqn:Hq.
  - rewrite dequeue_dtmf_empty by done. simpl. rewrite app_nil_r. by case_match.
  - rewrite zlen_cons in Hroom. pose proof (zlen_nonneg es).
    rewrite (wrap_small 64) by lia. rewrite (proj2 (Z.ltb_lt _ _)) by lia.
    destruct (dequeue_dtmf_spec rt c d es Hq) as (c' & -> & He & _). simpl in Hlen.
    destruct (IH c' (acc ++ [digit d])) as [Hs Hm];
      [rewrite He; lia | rewrite He, zlen_app, zlen_cons, zlen_nil; lia|].
    cbn [digit set_duration]. rewrite Hs, Hm, He. by rewrite <-app_assoc.
Qed.

Lemma separate_digits ds : ds <> [] -> Forall (fun k => is_dtmf k = true) ds ->
  switch_separate_string ds 43 256 = Some [ds].
Proof.
  intros Hne Hds.
  assert (forall k, k ∈ ds -> k <> 43 /\ k <> 94 /\ k <> 32 /\ k <> 39 /\ k <> 92) as Hpl.
  { intros k Hk. rewrite Forall_forall in Hds. by destruct (is_dtmf_plain k (Hds k Hk)) as (?&?&?&?&?&?&?). }
  apply separate_plain; try done.
  - split; intros Hh; (destruct (Hpl 32) as (_&_&?&_); [|done]).
    + destruct ds; simplify_eq/=. by apply list_elem_of_here.
    + by apply last_Some_elem_of.
  - intros Hh. destruct (Hpl 94) as (_&?&_); [|done]. destruct ds; simplify_eq/=. by apply list_elem_of_here.
  - apply Forall_forall. intros k Hk. destruct (Hpl k Hk) as (?&?&?&?&?). unfold special, QUOTE, ESCAPE_META.
    rewrite !not_elem_of_cons. split_and!; try done. apply not_elem_of_nil.
Qed.

(** A plain string queues its digits with the default duration. *)
Lemma queue_string_digits rt env c ds :
  channel_down env = false -> capacity (dtmf_queue c) = SWITCH_DTMF_LOG_LEN ->
  zlen (elements (dtmf_queue c)) <= SWITCH_DTMF_LOG_LEN -> ds <> [] -> Forall (fun k => is_dtmf k = true) ds ->
  switch_channel_queue_dtmf_string rt env c (Some ds) =
    Some (queue_all rt env c (field_digits rt DTMF_FLAG_SKIP_PROCESS (default_dtmf_duration rt) ds), SWITCH_STATUS_SUCCESS).
Proof.
  intros Hdown Hcap Hlen Hne Hds. unfold switch_channel_queue_dtmf_string.
  destruct ds as [|x ds'] eqn:Hx; [done|]. rewrite <-Hx in *.
  assert (Forall (fun k => k <> 64 /\ k <> 126) ds) as Hpl.
  { eapply Forall_impl; [exact Hds|]. intros k Hk. by destruct (is_dtmf_plain k Hk) as (?&?&?&_). }
  replace (x =? 126) with false. 2: { symmetry. apply Z.eqb_neq. rewrite Hx in Hpl. by apply Forall_cons in Hpl as [[_ ?] _]. }
  rewrite separate_digits by done. cbn [mbind option_bind queue_fields]. unfold field_duration.
  rewrite strchr_none by (eapply Forall_impl; [exact Hpl|]; by intros ? [? ?]).
  pose proof (queue_field_all rt env DTMF_FLAG_SKIP_PROCESS ds c 0 (default_dtmf_duration rt) 0 Hds) as Hc1.
  pose proof (queue_field_sent rt env ds c 0 (default_dtmf_duration rt) 0 Hdown Hcap Hlen Hds) as Hn.
  destruct (queue_field _ _ _ _ _ _) as [c1 n]. simpl in Hc1, Hn. subst c1 n.
  rewrite (proj2 (Z.eqb_neq (0 + zlen ds) 0)); [done|]. rewrite Hx, zlen_cons. pose proof (zlen_nonneg ds'). lia.
Qed.

Lemma queue_field_digits rt env c n ds :
  channel_down env = false -> elements (dtmf_queue c) = [] -> capacity (dtmf_queue c) = SWITCH_DTMF_LOG_LEN ->
  Forall (fun k => is_dtmf k = true) ds -> zlen ds <= SWITCH_DTMF_LOG_LEN ->
  digit <$> elements (dtmf_queue (queue_all rt env c (field_digits rt DTMF_FLAG_SKIP_PROCESS n ds))) = ds.
Proof.
  intros Hdown He Hcap Hds Hlen. set (dg := field_digits _ _ _ _).
  assert (digit <$> dg = ds) as Hdg by apply field_digits_digit.
  assert (length dg = length ds) as Hl by (by rewrite <-Hdg, length_fmap).
  destruct (queue_all_newest rt env c dg) as [_ ->]; [done|by rewrite Hcap| |].
  { unfold dg. clear -Hds Hdown. revert n. induction Hds as [|k ds Hk Hds IH]; intros n; [constructor|].
    simpl. constructor; [split; [done|by apply skip_accepted]|apply IH]. }
  rewrite Hcap. replace (length dg - _)%nat with 0%nat by (unfold zlen, SWITCH_DTMF_LOG_LEN in *; lia).
  rewrite drop_0, <-list_fmap_compose. trans (digit <$> dg); [|done]. apply list_fmap_ext. intros. apply stored_digit.
Qed.

(** Digit strings are played back as given.  On a channel that is up and
    whose digit queue is empty, switch_channel_queue_dtmf_string accepts any
    string of up to 1000 keys, and switch_channel_dequeue_dtmf_string with a
    large enough buffer returns exactly that string and empties the queue. *)
Theorem dtmf_string_round_trip rt env c ds len :
  channel_down env = false -> elements (dtmf_queue c) = [] -> capacity (dtmf_queue c) = SWITCH_DTMF_LOG_LEN ->
  ds <> [] -> Forall (fun k => is_dtmf k = true) ds -> zlen ds <= SWITCH_DTMF_LOG_LEN -> zlen ds < len < 2 ^ 64 ->
  exists c1 c2, switch_channel_queue_dtmf_string rt env c (Some ds) = Some (c1, SWITCH_STATUS_SUCCESS)
    /\ switch_channel_dequeue_dtmf_string rt c1 len = (c2, ds)
    /\ switch_channel_has_dtmf c2 = 0.
Proof.
  intros Hdown He Hcap Hne Hds Hlen Hroom.
  rewrite queue_string_digits by (rewrite ?He; done). set (c1 := queue_all _ _ _ _).
  assert (digit <$> elements (dtmf_queue c1) = ds) as Hdig by (by apply queue_field_digits).
  unfold switch_channel_dequeue_dtmf_string.
  destruct (dequeue_loop_all rt len (S (Z.to_nat (queue_size (dtmf_queue c1)))) c1 []) as [Hs Hemp].
  - rewrite size_elements. unfold zlen. lia.
  - rewrite zlen_nil. rewrite <-Hdig in Hroom. unfold zlen in *. rewrite length_fmap in Hroom. lia.
  - destruct (dequeue_string_loop _ _ c1 _ _) as [c2 s2] eqn:Hloop. simpl in Hs, Hemp. rewrite Hdig in Hs. subst s2.
    exists c1, c2. split_and!; [done..|]. unfold switch_channel_has_dtmf. by rewrite size_elements, Hemp.
Qed.

End channel.

(** ** Instances of the theorems *)

Definition calm_env : dtmf_env := DtmfEnv None false false [].
Definition secret_env : dtmf_env := DtmfEnv (Some (str "true")) false false [].
Definition pad_digit (k : Z) : switch_dtmf := Dtmf k 100 0 SWITCH_DTMF_RTP.

Inductive limit_call := SetMax (n : Z) | SetDefault (n : Z) | SetMin (n : Z).

Definition set_limit (rt : runtime) (call : limit_call) : runtime :=
  match call with
  | SetMax n => fst (switch_core_max_dtmf_duration rt n)
  | SetDefault n => fst (switch_core_default_dtmf_duration rt n)
  | SetMin n => fst (switch_core_min_dtmf_duration rt n)
  end.

Definition reconfigured (rt : runtime) (calls : list limit_call) : runtime := fold_left set_limit calls rt.

Lemma runtime_init_ordered : ordered runtime_init.
Proof. repeat split; done. Qed.

(** The duration limits stay ordered.  After any sequence of calls to the
    three setters, the minimum does not exceed the maximum and all three values
    lie within the compiled-in range 400..192000, whatever values were asked
    for. *)
Theorem dtmf_limits_ordered calls : ordered (reconfigured runtime_init calls).
Proof.
  unfold reconfigured. generalize runtime_init_ordered. generalize runtime_init.
  induction calls as [|call calls IH]; intros rt Hrt; [done|]. cbn [fold_left]. apply IH.
  revert Hrt. unfold ordered, SWITCH_MIN_DTMF_DURATION, SWITCH_MAX_DTMF_DURATION.
  destruct call as [n|n|n]; simpl;
    unfold switch_core_max_dtmf_duration, switch_core_default_dtmf_duration, switch_core_min_dtmf_duration,
      SWITCH_MIN_DTMF_DURATION, SWITCH_MAX_DTMF_DURATION; simpl; intros Hrt; repeat case_match; simpl; lia.
Qed.

Lemma dtmf_history_bounded_witness :
  exists c : dtmf_state,
    run_ops runtime_init (Q := list_queue switch_dtmf) dtmf_alloc
      [OpQueueString calm_env (Some (str "12+3@90")); OpQueue calm_env (pad_digit 35); OpDequeue; OpFlush false] = Some c
    /\ live c = 4 /\ live (dtmf_uninit true c) = 0.
Proof.
  eexists. split; [vm_compute; reflexivity|]. split; [reflexivity|].
  eapply (dtmf_history_bounded runtime_init
    [OpQueueString calm_env (Some (str "12+3@90")); OpQueue calm_env (pad_digit 35); OpDequeue; OpFlush false]);
    [exact runtime_init_ordered|vm_compute; reflexivity|].
  repeat constructor.
Defined.

Lemma dtmf_queue_keeps_newest_witness :
  elements (dtmf_queue (queue_all (Q := list_queue switch_dtmf) runtime_init secret_env dtmf_alloc
    [pad_digit 49; pad_digit 119])) = [Dtmf 49 400 2 SWITCH_DTMF_RTP; Dtmf 119 100 2 SWITCH_DTMF_RTP].
Proof.
  rewrite (dtmf_queue_keeps_newest runtime_init secret_env [pad_digit 49; pad_digit 119]); [vm_compute; reflexivity|].
  repeat constructor.
Defined.

Lemma dtmf_string_round_trip_witness :
  exists c1 c2 : dtmf_state (Q := list_queue switch_dtmf),
    switch_channel_queue_dtmf_string runtime_init calm_env dtmf_alloc (Some (str "1234#")) = Some (c1, SWITCH_STATUS_SUCCESS)
    /\ switch_channel_dequeue_dtmf_string runtime_init c1 80 = (c2, str "1234#")
    /\ switch_channel_has_dtmf c2 = 0.
Proof.
  apply (dtmf_string_round_trip runtime_init calm_env dtmf_alloc (str "1234#") 80); try reflexivity.
  - vm_compute. discriminate.
  - repeat constructor.
  - vm_compute. discriminate.
  - split; vm_compute; reflexivity.
Defined.

(** Sensitive digits are neither logged nor announced when they are
    dequeued, but they are leaked and a flush exposes them.  A digit received
    while sensitive_dtmf is set leaves no trace in the log queue or in DTMF
    events when it is dequeued, and stays allocated after
    switch_channel_uninit; when it is flushed instead, it reaches the
    digits_dialed variable. *)
Theorem dtmf_sensitive_exposure k :
  is_dtmf k = true ->
  let c := fst (switch_channel_queue_dtmf (Q := list_queue switch_dtmf) runtime_init secret_env dtmf_alloc (pad_digit k)) in
  let taken := fst (switch_channel_dequeue_dtmf runtime_init c) in
  snd (digits_dialed taken) = str "none" /\ fired taken = [] /\ live (dtmf_uninit false taken) = 1
  /\ snd (digits_dialed (switch_channel_flush_dtmf false c)) = [k].
Proof.
  intros Hk. cbv zeta.
  assert (fst (switch_channel_queue_dtmf (Q := list_queue switch_dtmf) runtime_init secret_env dtmf_alloc (pad_digit k))
    = DtmfState (ListQueue [stored runtime_init secret_env (pad_digit k)] 1000) (ListQueue [] 1000) 1 [] []) as ->.
  { unfold switch_channel_queue_dtmf. pose proof (stored_eq runtime_init secret_env (pad_digit k)) as Hst.
    cbv zeta in Hst |- *. rewrite Hst, sensitive_digit. cbn [pad_digit digit]. by rewrite Hk. }
  unfold switch_channel_dequeue_dtmf. cbn [dtmf_queue queue_trypop list_queue_apr lq_elements].
  replace (test_flag (dflags (stored runtime_init secret_env (pad_digit k))) DTMF_FLAG_SENSITIVE) with true by done.
  by split_and!.
Qed.

Lemma dtmf_sensitive_exposure_witness :
  snd (digits_dialed (switch_channel_flush_dtmf false
    (fst (switch_channel_queue_dtmf (Q := list_queue switch_dtmf) runtime_init secret_env dtmf_alloc (pad_digit 53))))) = [53].
Proof. apply (dtmf_sensitive_exposure 53). reflexivity. Defined.

End Dtmf.
