(* ===== verification/ChannelVars.v ===== *)
(** * Channel variables

    The variables of a channel: src/lib/libfreeswitch/switch_channel.c
    (switch_channel_set_variable_var_check ... switch_channel_get_variable_dup,
    the scopes pushed by switch_channel_set_scope_variables, the exports to
    another leg, the prefix operations) and the guard against nested expansions
    of src/include/switch_utils.h (switch_string_var_check).

    Variables are the headers of a channel-data event, so this file is a client
    of [Event].  The caller profile fields (switch_caller.c) and the global
    variables (switch_core.c) a look-up falls back to are functions of the
    environment. *)

From S2P Require Import Prelude CString Tokenizer Event.
Import CString.

Module ChannelVars.

(** ** The guard against "${" in values *)

(** switch_string_var_check_const: is there an expansion in [s]? *)
Fixpoint var_check_loop (s : bytes) (dol : bool) : bool :=
  match s with
  | [] => false
  | p :: s =>
    if p =? 36 then var_check_loop s true
    else if dol then
      if p =? 123 then true
      else if negb (p =? 92) then var_check_loop s false
      else var_check_loop s true
    else var_check_loop s false
  end.

Definition switch_string_var_check_const (s : bytes) : bool := var_check_loop s false.

(** switch_string_var_check with [disable]: the dollar sign that opens an
    expansion is overwritten.  [dol] holds the bytes from the pending dollar
    sign to the current position. *)
Fixpoint var_disable_loop (s : bytes) (dol : option bytes) : bytes :=
  match s with
  | [] => default [] dol
  | p :: s =>
    if p =? 36 then default [] dol ++ var_disable_loop s (Some [p])
    else match dol with
         | Some d =>
           if p =? 123 then (37 :: tail d) ++ p :: var_disable_loop s None
           else if negb (p =? 92) then d ++ p :: var_disable_loop s None
           else var_disable_loop s (Some (d ++ [p]))
         | None => p :: var_disable_loop s None
         end
  end.

Definition switch_var_clean_string (s : bytes) : bytes := var_disable_loop s None.

(** ** The variables of a channel *)

Record vars := Vars {
  scope_variables : list Event.event;
  variables : option Event.event
}.

(** The event switch_channel_alloc creates. *)
Definition plain_vars : vars := Vars [] (Some (Event.switch_event_create_plain Event.SWITCH_EVENT_CHANNEL_DATA)).

Definition switch_channel_add_variable_var_check (c : vars) (varname value : option bytes) (var_check : bool) (stack : Z)
  : vars * switch_status :=
  match variables c, varname with
  | Some ev, Some ((_ :: _) as name) =>
    let ev :=
      match value with
      | None | Some [] => Event.switch_event_del_header ev name
      | Some v =>
        let ok := if var_check then negb (switch_string_var_check_const v) else true in
        if ok then (Event.switch_event_add_header_string ev stack name (Some v)).1 else ev
      end in
    (Vars (scope_variables c) (Some ev), SWITCH_STATUS_SUCCESS)
  | _, _ => (c, SWITCH_STATUS_FALSE)
  end.

Definition switch_channel_set_variable_var_check (c : vars) (varname value : option bytes) (var_check : bool)
  : vars * switch_status :=
  match variables c, varname with
  | Some ev, Some ((_ :: _) as name) =>
    let ev :=
      match value with
      | None | Some [] => Event.switch_event_del_header ev name
      | Some v =>
        let ok := if var_check then negb (switch_string_var_check_const v) else true in
        if ok then (Event.switch_event_add_header_string ev Event.SWITCH_STACK_BOTTOM name (Some v)).1 else ev
      end in
    (Vars (scope_variables c) (Some ev), SWITCH_STATUS_SUCCESS)
  | _, _ => (c, SWITCH_STATUS_FALSE)
  end.

(** The macro switch_channel_set_variable: the check is on. *)
Definition switch_channel_set_variable (c : vars) (varname : bytes) (value : option bytes) : vars :=
  (switch_channel_set_variable_var_check c (Some varname) value true).1.

(** The variables switch_channel_alloc leaves a channel with. *)
Definition vars_alloc (outbound : bool) : vars :=
  switch_channel_set_variable plain_vars (str "direction") (Some (if outbound then str "outbound" else str "inbound")).

(** A pushed event becomes the innermost scope; no event pops it. *)
Definition switch_channel_set_scope_variables (c : vars) (event : option Event.event) : vars :=
  match event with
  | Some ev => Vars (ev :: scope_variables c) (variables c)
  | None => Vars (tail (scope_variables c)) (variables c)
  end.

(** What a look-up reads outside the channel: the caller profile's fields and
    those of its originator and originatee, and the global variables. *)
Record externals := Externals {
  caller_profile : option (bytes -> option bytes);
  originator_caller_profile : option (bytes -> option bytes);
  originatee_caller_profile : option (bytes -> option bytes);
  core_variable : bytes -> option bytes
}.

Fixpoint first_scope (eps : list Event.event) (varname : bytes) (idx : Z) : option bytes :=
  match eps with
  | [] => None
  | ep :: eps =>
    match Event.switch_event_get_header_idx ep varname idx with
    | Some v => Some v
    | None => first_scope eps varname idx
    end
  end.

Definition external_variable (x : externals) (varname : bytes) : option bytes :=
  let '(cp, varname) :=
    match caller_profile x with
    | Some cp =>
      if strneq varname (str "aleg_") 5 then (originator_caller_profile x, zdrop 5 varname)
      else if strneq varname (str "bleg_") 5 then (originatee_caller_profile x, zdrop 5 varname)
      else (Some cp, varname)
    | None => (None, varname)
    end in
  match cp ≫= (fun field => field varname) with
  | Some v => Some v
  | None => core_variable x varname
  end.

Definition switch_channel_get_variable_dup (x : externals) (c : vars) (varname : bytes) (idx : Z) : option bytes :=
  match first_scope (scope_variables c) varname idx with
  | Some v => Some v
  | None =>
    match variables c ≫= (fun ev => Event.switch_event_get_header_idx ev varname idx) with
    | Some v => Some v
    | None => external_variable x varname
    end
  end.

(** The macro switch_channel_get_variable. *)
Definition switch_channel_get_variable (x : externals) (c : vars) (varname : bytes) : option bytes :=
  switch_channel_get_variable_dup x c varname (-1).

(** Headers of a scope are copied unless a header is named like their value. *)
Definition copy_scope (new_event ep : Event.event) : Event.event :=
  foldl (fun ev hp =>
    if bool_decide (is_Some (Event.switch_event_get_header ev (default [] (Event.h_value hp)))) then ev
    else (Event.switch_event_add_header_string ev Event.SWITCH_STACK_BOTTOM (Event.h_name hp) (Event.h_value hp)).1)
    new_event (Event.headers ep).

Definition switch_channel_get_scope_variables (c : vars) : option Event.event :=
  match scope_variables c with
  | [] => None
  | eps => Some (foldl copy_scope (Event.switch_event_create_plain Event.SWITCH_EVENT_CHANNEL_DATA) eps)
  end.

(** The duplicate of the variables that the iterations below walk over. *)
Definition switch_channel_get_variables (env : Event.delivery_env) (seq : Z) (c : vars) : option Event.event :=
  match variables c with
  | Some ev => Some (Event.switch_event_dup ev)
  | None => (Event.switch_event_create_subclass env seq Event.SWITCH_EVENT_CHANNEL_DATA None).1.1
  end.

Definition prefixed (prefix : option bytes) (name : bytes) : bool :=
  zstr prefix || strncaseeq name (default [] prefix) (zlen (default [] prefix)).

Definition switch_channel_del_variable_prefix (env : Event.delivery_env) (seq : Z) (c : vars) (prefix : option bytes) : vars :=
  foldl (fun c hp => if prefixed prefix (Event.h_name hp) then switch_channel_set_variable c (Event.h_name hp) None else c)
    c (default [] (Event.headers <$> switch_channel_get_variables env seq c)).

Definition switch_channel_transfer_variable_prefix (orig new : vars) (prefix : option bytes) : vars * switch_status :=
  foldl (fun '(new, st) hp =>
    if prefixed prefix (Event.h_name hp)
    then (switch_channel_set_variable new (Event.h_name hp) (Event.h_value hp), SWITCH_STATUS_SUCCESS)
    else (new, st))
    (new, SWITCH_STATUS_FALSE) (default [] (Event.headers <$> variables orig)).

(** ** Exports *)

Definition switch_channel_export_variable_var_check (x : externals) (c : vars) (varname val : option bytes)
  (export_varname : bytes) (var_check : bool) : vars :=
  let exports := switch_channel_get_variable x c export_varname in
  let c := (switch_channel_set_variable_var_check c varname val var_check).1 in
  match varname, val with
  | Some var, Some _ =>
    switch_channel_set_variable c export_varname
      (Some (match exports with Some e => e ++ [44] ++ var | None => var end))
  | _, _ => c
  end.

(** The name an exported variable has on the other leg. *)
Definition export_target (vvar : bytes) : bytes :=
  if strncaseeq vvar (str "nolocal:") 8 then zdrop 8 vvar
  else if strncaseeq vvar (str "_nolocal_") 9 then zdrop 9 vvar
  else vvar.

Definition export_one (x : externals) (c : vars) (st : option vars * option Event.event) (arg : bytes)
  : option vars * option Event.event :=
  match switch_channel_get_variable x c arg with
  | None => st
  | Some vval =>
    let vvar := export_target arg in
    let '(peer, var_event) := st in
    ((fun p => switch_channel_set_variable p vvar (Some vval)) <$> peer,
     (fun ev => (Event.switch_event_add_header_string (Event.switch_event_del_header ev vvar)
                   Event.SWITCH_STACK_BOTTOM vvar (Some vval)).1) <$> var_event)
  end.

(** [None]: switch_separate_string ran over the end of the list. *)
Definition switch_channel_process_export (x : externals) (c : vars) (peer : option vars) (var_event : option Event.event)
  (export_varname : bytes) : option (option vars * option Event.event) :=
  match switch_channel_get_variable x c export_varname with
  | None | Some [] => Some (peer, var_event)
  | Some export_vars =>
    let var_event :=
      (fun ev => (Event.switch_event_add_header_string (Event.switch_event_del_header ev export_varname)
                    Event.SWITCH_STACK_BOTTOM export_varname (Some export_vars)).1) <$> var_event in
    let peer := (fun p => switch_channel_set_variable p export_varname (Some export_vars)) <$> peer in
    argv ← Tokenizer.switch_separate_string export_vars 44 256;
    Some (foldl (export_one x c) (peer, var_event) argv)
  end.

(** ** The guard *)

Lemma replicate_snoc {A} n (x : A) : replicate n x ++ [x] = x :: replicate n x.
Proof. induction n; [done|]. simpl. by rewrite IHn. Qed.

Lemma check_backslashes n s b : var_check_loop (replicate n 92 ++ s) b = var_check_loop s b.
Proof. induction n; [done|]. simpl. by destruct b. Qed.

(** What the loop does with a pending dollar sign and [n] backslashes. *)
Lemma disable_pending n p s : p <> 36 ->
  var_disable_loop (p :: s) (Some (36 :: replicate n 92)) =
    if p =? 123 then 37 :: replicate n 92 ++ 123 :: var_disable_loop s None
    else if p =? 92 then var_disable_loop s (Some (36 :: replicate (S n) 92))
    else 36 :: replicate n 92 ++ p :: var_disable_loop s None.
Proof.
  intros Hp. cbn [var_disable_loop]. rewrite (proj2 (Z.eqb_neq p 36)) by done.
  destruct (Z.eqb_spec p 123) as [->|]; [done|]. destruct (Z.eqb_spec p 92) as [->|]; [|done].
  simpl. by rewrite replicate_snoc.
Qed.

Lemma disable_safe s :
  var_check_loop (var_disable_loop s None) false = false
  /\ forall n b, var_check_loop (var_disable_loop s (Some (36 :: replicate n 92))) b = false.
Proof.
  induction s as [|p s [IHn IHs]]; [split; [done|]; intros n b; simpl; rewrite <-(app_nil_r (replicate n 92)); apply check_backslashes|].
  split; [|intros n b].
  - cbn [var_disable_loop]. destruct (Z.eqb_spec p 36) as [->|]; [apply (IHs 0%nat)|].
    cbn [var_check_loop]. by rewrite (proj2 (Z.eqb_neq p 36)).
  - destruct (decide (p = 36)) as [->|Hp].
    + cbn [var_disable_loop default]. simpl. rewrite check_backslashes. apply (IHs 0%nat).
    + rewrite disable_pending by done. destruct (Z.eqb_spec p 123) as [->|H1].
      * cbn [var_check_loop]. destruct b; simpl; rewrite check_backslashes; simpl; done.
      * destruct (Z.eqb_spec p 92) as [->|H2]; [apply IHs|]. simpl. rewrite check_backslashes. cbn [var_check_loop].
        by rewrite (proj2 (Z.eqb_neq p 36)), (proj2 (Z.eqb_neq p 123)), (proj2 (Z.eqb_neq p 92)).
Qed.

Lemma disable_id s :
  (var_check_loop s false = false -> var_disable_loop s None = s)
  /\ forall n, var_check_loop s true = false ->
      var_disable_loop s (Some (36 :: replicate n 92)) = 36 :: replicate n 92 ++ s.
Proof.
  induction s as [|p s [IHn IHs]]; [split; [done|]; intros n _; simpl; by rewrite app_nil_r|].
  split; [|intros n]; cbn [var_check_loop].
  - cbn [var_disable_loop]. destruct (Z.eqb_spec p 36) as [->|]; intros H; [exact (IHs 0%nat H)|by rewrite IHn].
  - destruct (Z.eqb_spec p 36) as [->|Hp]; intros H.
    + cbn [var_disable_loop default]. simpl. do 2 f_equal. exact (IHs 0%nat H).
    + rewrite disable_pending by done. destruct (Z.eqb_spec p 123); [done|].
      destruct (Z.eqb_spec p 92) as [->|]; simpl in H; [|by rewrite IHn].
      rewrite IHs by done. simpl. f_equal. change (92 :: replicate n 92 ++ s) with ((92 :: replicate n 92) ++ s).
      by rewrite <-replicate_snoc, <-app_assoc.
Qed.

Lemma disable_length s :
  zlen (var_disable_loop s None) = zlen s
  /\ forall d, d <> [] -> zlen (var_disable_loop s (Some d)) = zlen d + zlen s.
Proof.
  induction s as [|p s [IHn IHs]]; [split; [done|]; intros; simpl; rewrite zlen_nil; lia|].
  split; [|intros d Hd]; cbn [var_disable_loop]; rewrite zlen_cons.
  - case_match; simpl; rewrite ?IHs, ?zlen_cons, ?zlen_nil, ?IHn by done; lia.
  - repeat case_match; simpl; rewrite ?zlen_app, ?IHs, ?zlen_cons, ?zlen_app, ?zlen_cons, ?zlen_nil, ?IHn by (done || by destruct d); try lia.
    destruct d; [done|]. simpl. rewrite zlen_cons. lia.
Qed.

(** Switch_var_clean_string removes every expansion and nothing else.  The
    cleaned string passes switch_string_var_check_const, it is the original
    string when that already passed, and its length never changes. *)
Theorem var_clean_string_safe s :
  switch_string_var_check_const (switch_var_clean_string s) = false
  /\ (switch_string_var_check_const s = false -> switch_var_clean_string s = s)
  /\ zlen (switch_var_clean_string s) = zlen s.
Proof. split_and!; [apply disable_safe|apply disable_id|apply disable_length]. Qed.

(** ** Variables and scopes as finite maps *)

(** Names are compared up to case; a value that looks like a rendered array or
    a name with an index is the business of the event arrays. *)
Inductive vop :=
| VSet (name : bytes) (value : option bytes)
| VPush (ev : Event.event)
| VPop
| VGet (name : bytes).

Definition vop_ok (o : vop) : Prop :=
  match o with
  | VSet name value => name <> [] /\ Event.plain_name name /\ Event.plain_data (default [] value)
  | VPush ev => Event.ev_wf ev
  | VPop => True
  | VGet name => name <> str "_body"
  end.

Definition vop_step (x : externals) (c : vars) (o : vop) : vars * option bytes :=
  match o with
  | VSet name value => (switch_channel_set_variable c name value, None)
  | VPush ev => (switch_channel_set_scope_variables c (Some ev), None)
  | VPop => (switch_channel_set_scope_variables c None, None)
  | VGet name => (c, switch_channel_get_variable x c name)
  end.

(** The specification: a stack of maps over a base map. *)
Record vspec := VSpec { scopes : list (gmap bytes bytes); base : gmap bytes bytes }.

Definition first_map (ms : list (gmap bytes bytes)) (k : bytes) : option bytes :=
  foldr (fun m r => match m !! k with Some v => Some v | None => r end) None ms.

Definition vspec_step (x : externals) (s : vspec) (o : vop) : vspec * option bytes :=
  match o with
  | VSet name value =>
    (match value with
     | None | Some [] => VSpec (scopes s) (delete (Event.lower name) (base s))
     | Some v => if switch_string_var_check_const v then s
                 else VSpec (scopes s) (<[Event.lower name := v]> (base s))
     end, None)
  | VPush ev => (VSpec (Event.header_map ev :: scopes s) (base s), None)
  | VPop => (VSpec (tail (scopes s)) (base s), None)
  | VGet name =>
    (s, match first_map (scopes s ++ [base s]) (Event.lower name) with
        | Some v => Some v
        | None => external_variable x name
        end)
  end.

Fixpoint vop_run {S} (step : S -> vop -> S * option bytes) (st : S) (os : list vop) : list (option bytes) :=
  match os with
  | [] => []
  | o :: os => let '(st, r) := step st o in r :: vop_run step st os
  end.

(** The simulation relation. *)
Record represents (c : vars) (s : vspec) : Prop := {
  rep_scopes : Forall2 (fun ev m => Event.ev_wf ev /\ Event.header_map ev = m) (scope_variables c) (scopes s);
  rep_base : exists ev, variables c = Some ev /\ Event.ev_wf ev
    /\ test_flag (Event.flags ev) Event.EF_UNIQ_HEADERS = true /\ Event.header_map ev = base s
}.

Lemma first_scope_map eps ms name :
  Forall2 (fun ev m => Event.ev_wf ev /\ Event.header_map ev = m) eps ms -> name <> str "_body" ->
  first_scope eps name (-1) = first_map ms (Event.lower name).
Proof.
  intros H Hn. induction H as [|ev m eps ms [Hwf <-] _ IH]; [done|]. cbn [first_scope].
  change (Event.switch_event_get_header_idx ev name (-1)) with (Event.switch_event_get_header ev name).
  rewrite Event.get_header_map by done. simpl. by rewrite IH.
Qed.

Lemma first_map_snoc ms m k :
  first_map (ms ++ [m]) k = match first_map ms k with Some v => Some v | None => m !! k end.
Proof. unfold first_map. induction ms as [|m' ms IH]; simpl; [by destruct (m !! k)|]. rewrite IH. by destruct (m' !! k). Qed.

Lemma set_variable_represents c s name value :
  represents c s -> vop_ok (VSet name value) ->
  represents (switch_channel_set_variable c name value)
    (match value with
     | None | Some [] => VSpec (scopes s) (delete (Event.lower name) (base s))
     | Some v => if switch_string_var_check_const v then s
                 else VSpec (scopes s) (<[Event.lower name := v]> (base s))
     end).
Proof.
  intros [Hs (ev & Hev & Hwf & Hu & Hb)] (Hne & Hn & Hd). unfold switch_channel_set_variable, switch_channel_set_variable_var_check.
  rewrite Hev. destruct name as [|k name']; [done|]. set (name := k :: name') in *.
  pose proof (Event.hop_step_map ev (Event.HDel name) Hwf Hu I) as (Hw' & Hu' & Hm'). cbn [Event.hop_step Event.map_step fst] in *.
  assert (represents (Vars (scope_variables c) (Some (Event.switch_event_del_header ev name)))
    (VSpec (scopes s) (delete (Event.lower name) (base s)))) as Hdel.
  { split; [done|]. eexists. split_and!; [done..|]. by rewrite Event.del_header_map, Hb. }
  destruct value as [[|v0 v]|]; [exact Hdel| |exact Hdel]. set (v' := v0 :: v) in *. simpl in Hd. fold v' in Hd.
  destruct (switch_string_var_check_const v'); simpl; [split; [done|by exists ev]|].
  pose proof (Event.hop_step_map ev (Event.HAdd false name v') Hwf Hu (conj Hn Hd)) as (Hw & Hf & _).
  cbn [Event.hop_step fst] in *. split; [done|]. eexists. split_and!; [done..|].
  pose proof (Event.add_header_map ev false name v' Hwf Hu Hn Hd) as Hmap. cbn [Event.stack_of] in Hmap.
  rewrite Hb in Hmap. exact Hmap.
Qed.

Lemma vop_step_represents x c s o : represents c s -> vop_ok o ->
  represents (vop_step x c o).1 (vspec_step x s o).1 /\ (vop_step x c o).2 = (vspec_step x s o).2.
Proof.
  intros Hr Ho. destruct o as [name value|ev| |name]; simpl.
  - split; [by apply set_variable_represents|done].
  - split; [|done]. destruct Hr as [Hs Hb]. split; [by constructor|done].
  - split; [|done]. destruct Hr as [Hs Hb]. split; [simpl; by destruct Hs|done].
  - split; [done|]. destruct Hr as [Hs (ev & Hev & Hwf & Hu & Hb)]. unfold switch_channel_get_variable, switch_channel_get_variable_dup.
    rewrite first_map_snoc, (first_scope_map _ (scopes s)), Hev by done. destruct (first_map _ _); [done|]. simpl.
    change (Event.switch_event_get_header_idx ev name (-1)) with (Event.switch_event_get_header ev name).
    rewrite Event.get_header_map by done. by rewrite Hb.
Qed.

(** Setting a variable leaves the others alone. *)
Lemma set_variable_other x c s name value key :
  represents c s -> vop_ok (VSet name value) -> key <> str "_body" -> Event.lower name <> Event.lower key ->
  (exists s', represents (switch_channel_set_variable c name value) s')
  /\ switch_channel_get_variable x (switch_channel_set_variable c name value) key = switch_channel_get_variable x c key.
Proof.
  intros Hr Hok Hk Hne. pose proof (set_variable_represents c s name value Hr Hok) as Hr'. split; [by eexists|].
  destruct (vop_step_represents x _ _ (VGet key) Hr Hk) as [_ H1]. destruct (vop_step_represents x _ _ (VGet key) Hr' Hk) as [_ H2].
  cbn [vop_step vspec_step snd] in H1, H2. rewrite H1, H2.
  destruct value as [[|v0 v]|]; cbn [scopes base]; rewrite !first_map_snoc; cbn [scopes base];
    try (by rewrite lookup_delete_ne by done).
  destruct (switch_string_var_check_const _); [done|]. cbn [scopes base]. by rewrite lookup_insert_ne.
Qed.

Lemma plain_vars_represents : represents plain_vars (VSpec [] ∅).
Proof.
  split; [done|]. eexists. split_and!; [done| |done..].
  eapply Event.wf_same; [..|exact Event.blank_event_wf]; done.
Qed.

Lemma vop_run_represents x os : forall c s, represents c s -> Forall vop_ok os ->
  vop_run (vop_step x) c os = vop_run (vspec_step x) s os.
Proof.
  induction os as [|o os IH]; intros c s Hr Hos; [done|]. apply Forall_cons in Hos as [Ho Hos]. cbn [vop_run].
  destruct (vop_step_represents x c s o Hr Ho) as [Hr' Hres].
  destruct (vop_step x c o), (vspec_step x s o). simpl in *. f_equal; [done|by apply IH].
Qed.

Lemma vars_alloc_represents outbound : represents (vars_alloc outbound)
  (VSpec [] {[str "direction" := if outbound then str "outbound" else str "inbound"]}).
Proof.
  destruct outbound; refine (set_variable_represents _ _ (str "direction") (Some _) plain_vars_represents _);
    repeat split; vm_compute; discriminate.
Qed.

(** C8: channel variables are a stack of finite maps.  From a fresh channel,
    which has the one variable direction, any sequence of sets, scope pushes,
    pops and look-ups answers like a stack of maps over a base map, up to the
    letter case of names: the innermost scope that has the name wins, then the
    channel's own variable, then the caller profile and the global variables;
    setting an empty value deletes, and a value that contains an expansion is
    refused.  This is for plain names and values: a variable that is set has a
    name that is not empty, has no [ (which addresses a slot of an array) and is
    not _body (which means the body of an event), and a value without ARRAY:: in
    it (which makes an array); a look-up is for any name but _body; and a pushed
    event is a well-formed one, as all those are that the event operations build. *)
Theorem channel_variables_refine x outbound os :
  Forall vop_ok os ->
  vop_run (vop_step x) (vars_alloc outbound) os
  = vop_run (vspec_step x) (VSpec [] {[str "direction" := if outbound then str "outbound" else str "inbound"]}) os.
Proof. intros Hos. apply vop_run_represents; [apply vars_alloc_represents|done]. Qed.

Definition no_externals : externals := Externals None None None (fun _ => None).

Definition scope_event (name value : bytes) : Event.event :=
  (Event.switch_event_add_header_string (Event.switch_event_create_plain Event.SWITCH_EVENT_CHANNEL_DATA)
     Event.SWITCH_STACK_BOTTOM name (Some value)).1.

Lemma scope_event_wf name value : Event.ev_wf (scope_event name value).
Proof.
  apply Event.add_header_wf. eapply Event.wf_same; [..|exact Event.blank_event_wf]; done.
Qed.

Lemma channel_variables_refine_witness :
  vop_run (vop_step no_externals) (vars_alloc true)
    [VGet (str "direction"); VSet (str "a") (Some (str "1")); VPush (scope_event (str "A") (str "2")); VGet (str "a"); VPop; VGet (str "A")]
  = [Some (str "outbound"); None; None; Some (str "2"); None; Some (str "1")].
Proof.
  rewrite (channel_variables_refine no_externals true
    [VGet (str "direction"); VSet (str "a") (Some (str "1")); VPush (scope_event (str "A") (str "2")); VGet (str "a"); VPop; VGet (str "A")]).
  - vm_compute. reflexivity.
  - repeat (apply Forall_cons; split); try exact I; try apply scope_event_wf; try (repeat split; vm_compute; discriminate).
    by apply Forall_nil.
Defined.

(** ** Reading the scopes back *)

Lemma plain_event_rep :
  let ev := Event.switch_event_create_plain Event.SWITCH_EVENT_CHANNEL_DATA in
  Event.ev_wf ev /\ test_flag (Event.flags ev) Event.EF_UNIQ_HEADERS = true /\ Event.header_map ev = ∅.
Proof. split_and!; [|done..]. eapply Event.wf_same; [..|exact Event.blank_event_wf]; done. Qed.

Lemma scope_event_headers name v : Event.plain_name name -> Event.plain_data v -> v <> [] ->
  exists addr hash, Event.headers (scope_event name v) = [Event.mk_header addr name (Some v) [] hash].
Proof.
  intros Hn Hd Hv. unfold scope_event, Event.switch_event_add_header_string. cbn [fst].
  rewrite Event.base_add_plain by done. rewrite bool_decide_eq_false_2 by done. by eexists _, _.
Qed.

Lemma scope_event_map name v : Event.plain_name name -> Event.plain_data v -> v <> [] ->
  test_flag (Event.flags (scope_event name v)) Event.EF_UNIQ_HEADERS = true
  /\ Event.header_map (scope_event name v) = {[Event.lower name := v]}.
Proof.
  intros Hn Hd Hv. destruct plain_event_rep as (Hwf & Hu & Hm).
  pose proof (Event.hop_step_map _ (Event.HAdd false name v) Hwf Hu (conj Hn Hd)) as (_ & Hf & _).
  split; [exact Hf|]. pose proof (Event.add_header_map _ false name v Hwf Hu Hn Hd) as Hmap.
  rewrite Hm, bool_decide_eq_false_2 in Hmap by done. exact Hmap.
Qed.

Lemma copy_scope_single ev name v :
  Event.ev_wf ev -> Event.plain_name name -> Event.plain_data v -> v <> [] -> v <> str "_body" ->
  Event.header_map ev !! Event.lower v = None ->
  copy_scope ev (scope_event name v) = (Event.switch_event_add_header_string ev Event.SWITCH_STACK_BOTTOM name (Some v)).1.
Proof.
  intros Hwf Hn Hd Hv Hvb Hm. unfold copy_scope. destruct (scope_event_headers name v) as (a & h & ->); [done..|].
  cbn [foldl Event.h_value Event.h_name default]. rewrite bool_decide_eq_false_2; [done|].
  rewrite Event.get_header_map by done. unfold id. rewrite Hm. by intros [? ?].
Qed.

(** Switch_channel_get_scope_variables reports the wrong scope.  When an
    inner scope shadows a variable of an outer one, look-ups answer with the
    inner value, but the event collected from the scopes holds the outer value:
    the routine tests for a header named like the value instead of the name. *)
Theorem scope_variables_report_outer name v w :
  Event.plain_name name -> Event.plain_data v -> Event.plain_data w -> v <> [] -> w <> [] ->
  v <> str "_body" -> w <> str "_body" -> Event.lower w <> Event.lower name ->
  let c := switch_channel_set_scope_variables
             (switch_channel_set_scope_variables plain_vars (Some (scope_event name w))) (Some (scope_event name v)) in
  switch_channel_get_variable no_externals c name = Some v
  /\ (switch_channel_get_scope_variables c ≫= fun ev => Event.switch_event_get_header ev name) = Some w.
Proof.
  intros Hn Hv Hw Hv0 Hw0 Hvb Hwb Hne. cbv zeta.
  destruct (scope_event_map name v Hn Hv Hv0) as [Hfv Hmv]. destruct Hn as [Hi Hb]. assert (Event.plain_name name) as Hn by done.
  assert (Event.switch_event_get_header (scope_event name v) name = Some v) as Hgv.
  { rewrite Event.get_header_map by (done || apply scope_event_wf). by rewrite Hmv, lookup_singleton_eq. }
  split.
  - unfold switch_channel_get_variable, switch_channel_get_variable_dup. cbn [switch_channel_set_scope_variables scope_variables first_scope].
    unfold Event.switch_event_get_header in Hgv. by rewrite Hgv.
  - cbn [switch_channel_set_scope_variables switch_channel_get_scope_variables scope_variables mbind option_bind foldl plain_vars].
    destruct plain_event_rep as (Hwf0 & _ & Hm0).
    rewrite (copy_scope_single _ name v) by (done || by rewrite Hm0, lookup_empty). fold (scope_event name v).
    rewrite copy_scope_single by (done || apply scope_event_wf || by rewrite Hmv, lookup_singleton_ne).
    pose proof (Event.hop_step_map _ (Event.HAdd false name w) (scope_event_wf name v) Hfv (conj Hn Hw)) as (Hwf & _ & _).
    rewrite Event.get_header_map by done.
    pose proof (Event.add_header_map _ false name w (scope_event_wf name v) Hfv Hn Hw) as Hmap. cbn [Event.stack_of] in Hmap.
    rewrite Hmap, bool_decide_eq_false_2 by done. by rewrite lookup_insert_eq.
Qed.

Lemma scope_variables_report_outer_witness :
  (switch_channel_get_scope_variables (switch_channel_set_scope_variables
     (switch_channel_set_scope_variables plain_vars (Some (scope_event (str "x") (str "outer"))))
     (Some (scope_event (str "x") (str "inner")))) ≫= fun ev => Event.switch_event_get_header ev (str "x")) = Some (str "outer").
Proof.
  apply (scope_variables_report_outer (str "x") (str "inner") (str "outer")); try reflexivity; try (vm_compute; discriminate).
  split; [reflexivity|vm_compute; discriminate].
Defined.

(** ** Exports *)

Lemma get_variable_represents x c s name : represents c s -> name <> str "_body" ->
  switch_channel_get_variable x c name
  = match first_map (scopes s ++ [base s]) (Event.lower name) with Some v => Some v | None => external_variable x name end.
Proof. intros Hr Hn. by destruct (vop_step_represents x c s (VGet name) Hr Hn) as [_ H]. Qed.

(** Names and values that mean nothing special to the variable store. *)
Definition plain_value (v : bytes) : Prop :=
  v <> [] /\ Event.plain_data v /\ switch_string_var_check_const v = false.

Lemma set_plain_represents c s name v : represents c s -> name <> [] -> Event.plain_name name -> plain_value v ->
  represents (switch_channel_set_variable c name (Some v)) (VSpec (scopes s) (<[Event.lower name := v]> (base s))).
Proof.
  intros Hr Hn Hp (Hv & Hd & Hc). pose proof (set_variable_represents c s name (Some v) Hr (conj Hn (conj Hp Hd))) as H.
  destruct v; [done|]. by rewrite Hc in H.
Qed.

(** A variable name that survives the comma-separated export list. *)
Definition list_name (name : bytes) : Prop :=
  name <> [] /\ Event.plain_name name /\ plain_value name /\ Tokenizer.trimmed name /\ head name <> Some 94
  /\ Forall (fun c => c ∉ Tokenizer.special 44) name.

(** An exported variable reaches the other leg.  After a variable is
    exported on a channel that exports nothing yet, switch_channel_process_export
    sets it on the peer under its name without the nolocal prefix, to the
    exported value; with the prefix, the exporting channel's own variable of
    that name keeps its value. *)
Theorem channel_export_reaches_peer x c peer m mp name val ev :
  represents c (VSpec [] m) -> represents peer (VSpec [] mp) ->
  switch_channel_get_variable x c ev = None -> ev <> [] -> Event.plain_name ev ->
  list_name name -> plain_value val -> Event.lower name <> Event.lower ev ->
  export_target name <> [] -> Event.plain_name (export_target name) ->
  Event.lower (export_target name) <> Event.lower ev ->
  let c' := switch_channel_export_variable_var_check x c (Some name) (Some val) ev true in
  (exists peer', switch_channel_process_export x c' (Some peer) None ev = Some (Some peer', None)
     /\ switch_channel_get_variable x peer' (export_target name) = Some val)
  /\ (Event.lower (export_target name) <> Event.lower name ->
      switch_channel_get_variable x c' (export_target name) = switch_channel_get_variable x c (export_target name)).
Proof.
  intros Hc Hp Hnone Hev Hpev (Hne & Hpn & Hvn & Htr & Hhd & Hsp) Hval Hlow Ht Hpt Htlow. cbv zeta.
  unfold switch_channel_export_variable_var_check. rewrite Hnone. fold (switch_channel_set_variable c name (Some val)).
  pose proof (set_plain_represents _ _ name val Hc Hne Hpn Hval) as H1.
  pose proof (set_plain_represents _ _ ev name H1 Hev Hpev Hvn) as H2. cbn [scopes base] in *.
  set (c' := switch_channel_set_variable (switch_channel_set_variable c name (Some val)) ev (Some name)) in *.
  pose proof Hpn as [_ Hnb]. pose proof Hpt as [_ Htb]. pose proof Hpev as [_ Heb].
  split.
  - unfold switch_channel_process_export. rewrite (get_variable_represents x c' _ ev H2 Heb). simpl. rewrite lookup_insert_eq.
    destruct name as [|k name'] eqn:Hnm; [done|]. rewrite <-Hnm in *.
    rewrite Tokenizer.separate_plain; [|unfold Tokenizer.separator_ok, Tokenizer.QUOTE, Tokenizer.ESCAPE_META; lia|done..].
    cbn [mbind option_bind foldl fmap option_fmap option_map]. unfold export_one.
    rewrite (get_variable_represents x c' _ name H2 Hnb). simpl. rewrite lookup_insert_ne, lookup_insert_eq by done.
    pose proof (set_plain_represents _ _ ev name Hp Hev Hpev Hvn) as P1.
    pose proof (set_plain_represents _ _ _ val P1 Ht Hpt Hval) as P2.
    eexists. split; [done|]. rewrite (get_variable_represents x _ _ _ P2 Htb). simpl. by rewrite lookup_insert_eq.
  - intros Hdiff. rewrite (get_variable_represents x c' _ _ H2 Htb), (get_variable_represents x c _ _ Hc Htb). simpl.
    by rewrite !lookup_insert_ne by done.
Qed.

Lemma channel_export_reaches_peer_witness :
  exists peer', switch_channel_process_export no_externals
      (switch_channel_export_variable_var_check no_externals plain_vars (Some (str "nolocal:codec")) (Some (str "PCMU"))
         (str "export_vars") true) (Some plain_vars) None (str "export_vars") = Some (Some peer', None)
    /\ switch_channel_get_variable no_externals peer' (str "codec") = Some (str "PCMU").
Proof.
  eapply (channel_export_reaches_peer no_externals plain_vars plain_vars ∅ ∅ (str "nolocal:codec") (str "PCMU") (str "export_vars"));
    try apply plain_vars_represents; try reflexivity; try (vm_compute; discriminate);
    repeat split; try reflexivity; try (vm_compute; discriminate).
  apply (bool_decide_unpack _). vm_compute. exact I.
Defined.

End ChannelVars.
