(* ===== verification/Expand.v ===== *)
(** * Expansion of variables and API calls in text

    switch_channel_expand_variables_check of switch_channel.c and
    switch_event_expand_headers_check of switch_event.c, with
    switch_event_check_permission_list and switch_string_has_escaped_data: text
    with ["${name}"], ["${name:offset:length}"], ["${name[index]}"],
    ["${command(argument)}"] and backslashes is rewritten, and what a variable
    holds is expanded in turn.

    The two functions are the same text but for the look-up of a variable, so
    their loop is written once, over that look-up.  The input is read through
    the pointer [p], here the bytes from [p] on; the output is the block
    [data] with the position [len] of the pointer [c], and writing behind the
    end of the block is a [Fault].  API commands are functions on the state
    of the session; allocation succeeds. *)

From S2P Require Import Prelude Outcome CString Event ChannelVars.
Import CString.

Module Expand.

(** ** Permission lists *)

Definition EF_DEFAULT_ALLOW : Z := 4.

Definition switch_event_check_permission_list (l : option Event.event) (name : bytes) : bool :=
  match l with
  | None => true
  | Some ev =>
    let default_allow := test_flag (Event.flags ev) EF_DEFAULT_ALLOW in
    match Event.headers ev with
    | [] => default_allow
    | _ =>
      match Event.switch_event_get_header ev name with
      | Some v => negb (bool_decide (head v = Some 100))
      | None => default_allow
      end
    end
  end.

(** ** The input *)

(** A backslash followed by a backslash, n, s, t or a quote. *)
Fixpoint switch_string_has_escaped_data (s : bytes) : bool :=
  match s with
  | [] => false
  | c :: s' =>
    if (c =? 92) && match s' with d :: _ => existsb (Z.eqb d) [92; 110; 115; 116; 39] | [] => false end then true
    else switch_string_has_escaped_data s'
  end.

Definition next_is (c : Z) (s : bytes) : bool := bool_decide (head s = Some c).

(** The text up to the closing brace; [first]: is this the first character
    ([e == s])?  The name, the count [br] it leaves and what follows. *)
Fixpoint scan_braces (s : bytes) (first : bool) (br : Z) : bytes * Z * bytes :=
  match s with
  | [] => ([], br, [])
  | e :: s' =>
    if (br =? 1) && (e =? 125) then ([], 0, s')
    else
      let br := if 0 <? br then
                  if negb first && (e =? 123) then br + 1 else if (1 <? br) && (e =? 125) then br - 1 else br
                else br in
      let '(name, br, rest) := scan_braces s' false br in (e :: name, br, rest)
  end.

(** A space or an opening parenthesis makes a call: the name before it, the
    argument behind it, and the count of parentheses.  The spaces the code
    then removes from the end of the name cannot be there, since the first one
    ended it. *)
Fixpoint split_call (name : bytes) (br : Z) : option (bytes * bytes * Z) :=
  match name with
  | [] => None
  | c :: name =>
    if c =? 32 then Some ([], name, br)
    else if c =? 40 then Some ([], name, 1)
    else '(n, v, br) ← split_call name br; Some (c :: n, v, br)
  end.

(** The argument up to its closing parenthesis. *)
Fixpoint close_call (v : bytes) (br : Z) : bytes :=
  match v with
  | [] => []
  | e :: v =>
    if e =? 40 then e :: close_call v (br + 1)
    else if (1 <? br) && (e =? 41) then e :: close_call v (br - 1)
    else if (br =? 1) && (e =? 41) then []
    else e :: close_call v br
  end.

(** [name:offset:length] and [name[index]]: the parts, with 0, 0 and -1 for
    those that are missing. *)
Definition split_offsets (vname : bytes) : bytes * Z * Z :=
  match strchr vname 58 with
  | Some i =>
    let '(name, ptr) := cut_at vname i in
    (name, atoi ptr, match strchr ptr 58 with Some j => atoi (zdrop (j + 1) ptr) | None => 0 end)
  | None => (vname, 0, 0)
  end.

Definition split_index (vname : bytes) : bytes * Z :=
  match strchr vname 91 with
  | Some i => if bool_decide (is_Some (strchr (zdrop i vname) 93)) then let '(name, ptr) := cut_at vname i in (name, atoi ptr)
              else (vname, -1)
  | None => (vname, -1)
  end.

(** ** The output *)

(** The block and the position of [c] in it, which is also [len]; the size of
    the block is [olen]. *)
Record out := mk_out { data : bytes; len : Z }.
Definition olen (o : out) : Z := zlen (data o).

Definition new_out (n : Z) : out := mk_out (replicate (Z.to_nat n) 0) 0.

(** [*c++ = b; len++]. *)
Definition put (b : Z) (o : out) : res out :=
  if len o <? olen o then Ok (mk_out (blit (len o) [b] (data o)) (len o + 1)) else Fault.

(** The macro resize: the block grows, and everything from [c] on is cleared. *)
Definition resize (l : Z) (o : out) : out :=
  let n := olen o + (len o + l + 128) in
  mk_out (ztake (len o) (data o) ++ replicate (Z.to_nat (n - len o)) 0) (len o).

Definition room (l : Z) (o : out) : out := if olen o <=? len o + l then resize l o else o.

(** [strcat(c, s); c += strlen(s)]: the string is put where the terminator is
    found from [c] on. *)
Definition append (s : bytes) (o : out) : res out :=
  match s with
  | [] => Ok o
  | _ =>
    let o := room (zlen s) o in
    match strchr (zdrop (len o) (data o)) 0 with
    | Some k => if len o + k + zlen s <? olen o
                then Ok (mk_out (blit (len o + k) (s ++ [0]) (data o)) (len o + zlen s)) else Fault
    | None => Fault
    end
  end.

(** The string in a block; a block without terminator cannot be read. *)
Definition cstring (m : bytes) : res bytes :=
  match strchr m 0 with Some i => Ok (ztake i m) | None => Fault end.

(** ** The loop *)

(** API commands: switch_api_execute with its effect on the state and the text
    it wrote, when it succeeded; [api_expansion] is the flag SCF_API_EXPANSION. *)
Class Api (St : Type) := {
  api_execute : bytes -> bytes -> St -> St * option bytes;
  api_expansion : bool
}.

Section loop.
Context {St : Type} {AP : Api St} (api_list : option Event.event) (denied : bytes).

(** The look-up of the text for a variable: the expansion to use for its value,
    is it written with two dollar signs, its name, offset, length and index. *)
Variable substitute : (bytes -> St -> res (St * bytes)) -> bool -> bytes -> Z -> Z -> Z -> St -> res (St * option bytes).

(** The expansion one level deeper. *)
Variable rec : bytes -> St -> res (St * bytes).

Definition call (vname vval : bytes) (st : St) : res (St * option bytes) :=
  '(st, vname) ← rec vname st;
  '(st, vval) ← rec vval st;
  if negb api_expansion || (bool_decide (is_Some api_list) && negb (switch_event_check_permission_list api_list vname))
  then Ok (st, Some denied)
  else Ok (api_execute vname vval st).

Definition variable (global : bool) (vname : bytes) (st : St) : res (St * option bytes) :=
  '(st, vname) ← rec vname st;
  let '(vname, offset, ooffset) := split_offsets vname in
  let '(vname, idx) := split_index vname in
  substitute rec global vname offset ooffset idx st.

(** What stands for the text between the braces. *)
Definition replacement (global : bool) (name : bytes) (br : Z) (st : St) : res (St * option bytes) :=
  match split_call name br with
  | Some (vname, vval, br) => call vname (close_call vval br) st
  | None => variable global name st
  end.

Fixpoint expand_loop (fuel : nat) (s : bytes) (st : St) (o : out) : res (St * out) :=
  match fuel with
  | O => NoFuel
  | S fuel =>
    match s with
    | [] => Ok (st, o)
    | p :: s =>
      let plain := o ← put p (room 1 o); expand_loop fuel s st o in
      if p =? 92 then
        if next_is 36 s then
          let s := tail s in
          o ← put 36 o; expand_loop fuel (if next_is 36 s then tail s else s) st o
        else if next_is 39 s then expand_loop fuel (tail s) st o
        else if next_is 92 s then o ← put 92 o; expand_loop fuel (tail s) st o
        else plain
      else if p =? 36 then
        let '(global, s) := if next_is 36 s then (true, tail s) else (false, s) in
        if next_is 123 s then
          let '(name, br, rest) := scan_braces (tail s) true 1 in
          '(st, sub_val) ← replacement global name br st;
          o ← append (default [] sub_val) o;
          let o := room 1 o in
          if next_is 36 rest then expand_loop fuel rest st o
          else o ← put (default 0 (head rest)) o; expand_loop fuel (tail rest) st o
        else o ← put 36 o; expand_loop fuel s st o
      else plain
    end
  end.

(** One call, on text that may hold expansions. *)
Definition expand_once (s : bytes) (st : St) : res (St * bytes) :=
  if bool_decide (s = []) then Ok (st, s)
  else if negb (ChannelVars.switch_string_var_check_const s || switch_string_has_escaped_data s) then Ok (st, s)
  else
    '(st, o) ← expand_loop (S (length s)) s st (new_out (zlen s + 1));
    r ← cstring (data o);
    Ok (st, r).

End loop.

(** The recursion: [depth] calls may still be nested; at none the text is
    returned as it is.  The code counts [recur] up to 100. *)
Fixpoint expand {St} {AP : Api St} (api_list : option Event.event) (denied : bytes)
    (substitute : (bytes -> St -> res (St * bytes)) -> bool -> bytes -> Z -> Z -> Z -> St -> res (St * option bytes))
    (depth : nat) (s : bytes) (st : St) : res (St * bytes) :=
  match depth with
  | O => Ok (st, s)
  | S depth => expand_once api_list denied substitute (expand api_list denied substitute depth) s st
  end.

Definition MAX_RECUR : nat := 101.

(** ** Channels *)

(** The part of a value that an offset and a length select. *)
Definition cut_value (v : bytes) (offset ooffset : Z) : bytes :=
  let v := if 0 <=? offset then if zlen v <? offset then [] else zdrop offset v
           else if Z.abs offset <=? zlen v then zdrop (zlen v + offset) v else v in
  if (0 <? ooffset) && (ooffset <? zlen v) then ztake ooffset v else v.

Definition VAR_DENIED : bytes := str "<Variable Expansion Permission Denied>".

Definition channel_substitute (x : ChannelVars.externals) (var_list : option Event.event)
    (rec : bytes -> ChannelVars.vars -> res (ChannelVars.vars * bytes)) (global : bool)
    (vname : bytes) (offset ooffset idx : Z) (c : ChannelVars.vars) : res (ChannelVars.vars * option bytes) :=
  match ChannelVars.switch_channel_get_variable_dup x c vname idx with
  | None => Ok (c, None)
  | Some v =>
    let v := if bool_decide (is_Some var_list) && negb (switch_event_check_permission_list var_list vname)
             then VAR_DENIED else v in
    '(c, v) ← rec v c;
    Ok (c, Some (cut_value v offset ooffset))
  end.

Definition switch_channel_expand_variables_check {AP : Api ChannelVars.vars} (x : ChannelVars.externals) (c : ChannelVars.vars)
    (s : bytes) (var_list api_list : option Event.event) (recur : nat) : res (ChannelVars.vars * bytes) :=
  expand api_list (str "<API Execute Permission Denied>") (channel_substitute x var_list) (MAX_RECUR - recur) s c.

(** The macro switch_channel_expand_variables. *)
Definition switch_channel_expand_variables {AP : Api ChannelVars.vars} (x : ChannelVars.externals) (c : ChannelVars.vars) (s : bytes)
  : res (ChannelVars.vars * bytes) := switch_channel_expand_variables_check x c s None None 0.

(** ** Events *)

(** The value of a header is taken as it is, a global variable is expanded.
    Without a value an offset copies NULL, and an offset behind the end of the
    value is not noticed. *)
Definition cut_header (v : option bytes) (offset ooffset : Z) : res (option bytes) :=
  match v with
  | None => if (offset =? 0) && (ooffset =? 0) then Ok None else Fault
  | Some v =>
    v ← (if 0 <=? offset then if zlen v <? offset then Fault else Ok (zdrop offset v)
         else Ok (if Z.abs offset <=? zlen v then zdrop (zlen v + offset) v else v));
    Ok (Some (if (0 <? ooffset) && (ooffset <? zlen v) then ztake ooffset v else v))
  end.

Definition event_substitute (core_variable : bytes -> option bytes) (var_list : option Event.event)
    (rec : bytes -> Event.event -> res (Event.event * bytes)) (global : bool)
    (vname : bytes) (offset ooffset idx : Z) (ev : Event.event) : res (Event.event * option bytes) :=
  let header := if global then None else Event.switch_event_get_header_idx ev vname idx in
  '(ev, v) ← match header with
             | Some v => Ok (ev, Some v)
             | None =>
               let v := if bool_decide (is_Some var_list) && negb (switch_event_check_permission_list var_list vname)
                        then Some VAR_DENIED else core_variable vname in
               match v with
               | Some v => '(ev, v) ← rec v ev; Ok (ev, Some v)
               | None => Ok (ev, None)
               end
             end;
  v ← cut_header v offset ooffset;
  Ok (ev, v).

Definition switch_event_expand_headers_check {AP : Api Event.event} (core_variable : bytes -> option bytes) (ev : Event.event)
    (s : bytes) (var_list api_list : option Event.event) (recur : nat) : res (Event.event * bytes) :=
  expand api_list (str "<API execute Permission Denied>") (event_substitute core_variable var_list) (MAX_RECUR - recur) s ev.

(** ** The output block *)

(** The block holds [d], and zeros from there to its end, one at least. *)
Definition holds (o : out) (d : bytes) : Prop := exists n, data o = d ++ replicate (S n) 0 /\ len o = zlen d.

Lemma holds_olen o d : holds o d -> len o < olen o.
Proof. intros (n & Hd & Hl). unfold olen. rewrite Hd, Hl, zlen_app, zlen_replicate. lia. Qed.

Lemma new_holds n : 0 <= n -> holds (new_out (n + 1)) [].
Proof. intros Hn. exists (Z.to_nat n). split; [|done]. unfold new_out. cbn [data app]. f_equal. lia. Qed.

Lemma resize_holds l o d : 0 <= l -> holds o d -> holds (resize l o) d /\ len o + l < olen (resize l o) /\ olen o <= olen (resize l o).
Proof.
  intros Hl Ho. pose proof (holds_olen o d Ho) as Hlt. destruct Ho as (n & Hd & Hn).
  assert (olen (resize l o) = olen o + (len o + l + 128)) as Hol.
  { unfold olen at 1. unfold resize. cbn [data]. rewrite zlen_app, zlen_replicate, zlen_ztake by (unfold zlen in *; lia).
    pose proof (zlen_nonneg d). unfold olen in *. lia. }
  pose proof (zlen_nonneg d). split; [|rewrite Hol; lia]. exists (Z.to_nat (olen o + (len o + l + 128) - len o) - 1)%nat. split; [|done].
  unfold resize. cbn [data]. f_equal; [|f_equal; lia]. by rewrite Hd, Hn, ztake_app_exact.
Qed.

Lemma room_holds l o d : 0 <= l -> holds o d -> holds (room l o) d /\ len o + l < olen (room l o) /\ olen o <= olen (room l o).
Proof.
  intros Hl Ho. unfold room. destruct (Z.leb_spec (olen o) (len o + l)); [by apply resize_holds|]. split_and!; [done|lia..].
Qed.

Lemma room_len l o : len (room l o) = len o.
Proof. unfold room. by case_match. Qed.

Lemma room_room o d : holds o d -> room 1 (room 1 o) = room 1 o.
Proof.
  intros Ho. destruct (room_holds 1 o d ltac:(lia) Ho) as (_ & H & _). unfold room at 1. rewrite room_len.
  by rewrite (proj2 (Z.leb_gt _ _)).
Qed.

Lemma put_holds b o d : holds o d -> len o + 1 < olen o -> exists o', put b o = Ok o' /\ holds o' (d ++ [b]) /\ olen o' = olen o.
Proof.
  intros (n & Hd & Hn) Hlt. unfold olen in *. rewrite Hd, Hn, zlen_app, zlen_replicate in Hlt. destruct n as [|n]; [lia|].
  unfold put, olen. rewrite Hd, Hn. pose proof (zlen_nonneg d).
  rewrite (proj2 (Z.ltb_lt _ _)) by (rewrite zlen_app, zlen_replicate; lia).
  assert (blit (zlen d) [b] (d ++ replicate (S (S n)) 0) = (d ++ [b]) ++ replicate (S n) 0) as Hb.
  { unfold blit. rewrite ztake_app_exact, <-app_assoc. do 2 f_equal.
    replace (zlen d + zlen [b]) with (zlen (d ++ [0])) by (rewrite zlen_app; done).
    replace (d ++ replicate (S (S n)) 0) with ((d ++ [0]) ++ replicate (S n) 0) by (by rewrite <-app_assoc). apply zdrop_app_exact. }
  rewrite Hb. eexists. split_and!; [done| |].
  - exists n. split; [done|]. cbn [len]. by rewrite zlen_app.
  - cbn [data]. rewrite !zlen_app, !zlen_replicate. rewrite zlen_cons, zlen_nil. lia.
Qed.

Lemma put_room_holds b o d : holds o d -> exists o', put b (room 1 o) = Ok o' /\ holds o' (d ++ [b]) /\ olen o <= olen o'.
Proof.
  intros Ho. destruct (room_holds 1 o d ltac:(lia) Ho) as (Hr & Hlt & Hle).
  destruct (put_holds b _ _ Hr) as (o' & ? & ? & Hol); [by rewrite room_len|]. exists o'. split_and!; [done..|lia].
Qed.

Definition no_nul (s : bytes) : Prop := 0 ∉ s.

Lemma append_holds s o d : holds o d -> exists o', append s o = Ok o' /\ holds o' (d ++ s).
Proof.
  intros Ho. destruct s as [|b s]; [exists o; by rewrite app_nil_r|]. unfold append. set (t := b :: s).
  pose proof (zlen_nonneg t). destruct (room_holds (zlen t) o d ltac:(lia) Ho) as (Hr & Hlt & _). rewrite <-(room_len (zlen t) o) in Hlt.
  destruct Hr as (n & Hd & Hn). revert Hd Hn Hlt. generalize (room (zlen t) o). clear o Ho. intros o Hd Hn Hlt.
  rewrite Hd, Hn, zdrop_app_exact. cbn [replicate strchr]. rewrite Z.eqb_refl. rewrite Z.add_0_r.
  rewrite (proj2 (Z.ltb_lt _ _)) by lia. eexists. split; [done|].
  unfold olen in Hlt. rewrite Hd, Hn, zlen_app, zlen_replicate in Hlt.
  assert (exists k, n = (length t + k)%nat) as [k ->] by (exists (n - length t)%nat; unfold zlen in Hlt; lia).
  exists k. split; [|cbn [len]; by rewrite zlen_app]. cbn [data]. unfold blit. rewrite ztake_app_exact, <-!app_assoc. f_equal. f_equal.
  rewrite zlen_app. change (zlen [0]) with 1.
  replace (0 :: replicate (length t + k) 0) with (replicate (S (length t)) 0 ++ replicate k 0) by (rewrite <-replicate_add; done).
  rewrite app_assoc. change (replicate (S k) 0) with ([0] ++ replicate k 0). f_equal.
  replace (zlen d + (zlen t + 1)) with (zlen (d ++ replicate (S (length t)) 0)) by (rewrite zlen_app, zlen_replicate; unfold zlen; lia).
  by rewrite zdrop_app_exact.
Qed.

(** What the caller reads from the block; the loop may have copied the
    terminator of its input. *)
Definition result (o : out) (d : bytes) : Prop := holds o d \/ holds o (d ++ [0]).

Lemma cstring_result o d : no_nul d -> result o d -> cstring (data o) = Ok d.
Proof.
  intros Hd [(n & H & _)|(n & H & _)]; unfold cstring; rewrite H; [cbn [replicate]|rewrite <-app_assoc; cbn [app]];
    rewrite strchr_first by done; by rewrite ztake_app_exact.
Qed.

(** ** Expansion ends *)

Lemma scan_braces_rest s : forall first br name br' rest,
  scan_braces s first br = (name, br', rest) -> (length rest <= length s)%nat.
Proof.
  induction s as [|e s IH]; intros first br name br' rest H; cbn [scan_braces] in H; [by simplify_eq|].
  case_match; [simplify_eq; cbn; lia|]. destruct (scan_braces s false _) as [[n b] r] eqn:E. simplify_eq.
  apply IH in E. cbn. lia.
Qed.

Lemma length_tail_le (s : bytes) : (length (tail s) <= length s)%nat.
Proof. destruct s; cbn; lia. Qed.

Section ends.
Context {St : Type} {AP : Api St} (api_list : option Event.event) (denied : bytes).
Variable substitute : (bytes -> St -> res (St * bytes)) -> bool -> bytes -> Z -> Z -> Z -> St -> res (St * option bytes).
Hypothesis substitute_runs : forall rec g n o oo i st, (forall s st, runs (rec s st)) -> runs (substitute rec g n o oo i st).

Lemma runs_put b o : runs (put b o).
Proof. unfold put. runs. Qed.

Lemma runs_append s o : runs (append s o).
Proof. unfold append. runs. Qed.

Lemma runs_replacement rec g name br st : (forall s st, runs (rec s st)) -> runs (replacement api_list denied substitute rec g name br st).
Proof.
  intros Hrec. unfold replacement. destruct (split_call name br) as [[[vn vv] br']|]; [unfold call|unfold variable].
  - apply runs_bind; [apply Hrec|intros [st1 n] _]. apply runs_bind; [apply Hrec|intros [st2 v] _]. by case_match.
  - apply runs_bind; [apply Hrec|intros [st1 n] _]. repeat case_match. by apply substitute_runs.
Qed.

Lemma runs_loop rec : (forall s st, runs (rec s st)) ->
  forall fuel s st o, (length s < fuel)%nat -> runs (expand_loop api_list denied substitute rec fuel s st o).
Proof.
  intros Hrec. induction fuel as [|fuel IH]; intros s st o Hlen; [lia|]. destruct s as [|p s]; [done|].
  cbn [length] in Hlen. cbn [expand_loop]. pose proof (length_tail_le s). pose proof (length_tail_le (tail s)).
  assert (forall b o t, (length t < fuel)%nat -> runs (o ← put b o; expand_loop api_list denied substitute rec fuel t st o)) as Hput.
  { intros b o1 t Ht. apply runs_bind; [apply runs_put|intros o2 _; by apply IH]. }
  case_match; [repeat case_match; (apply Hput || apply IH); lia|].
  case_match; [|apply Hput; lia].
  destruct (if next_is 36 s then (true, tail s) else (false, s)) as [g s'] eqn:E.
  assert (length s' <= length s)%nat by (destruct (next_is 36 s); simplify_eq; lia).
  clear E. destruct (next_is 123 s'); [|apply Hput; lia]. destruct (scan_braces (tail s') true 1) as [[name br] rest] eqn:Esc.
  apply scan_braces_rest in Esc. pose proof (length_tail_le s'). pose proof (length_tail_le rest).
  apply runs_bind; [by apply runs_replacement|intros [st1 v] _]. apply runs_bind; [apply runs_append|intros o1 _].
  case_match; [apply IH; lia|]. apply runs_bind; [apply runs_put|intros o2 _]. apply IH. lia.
Qed.

Lemma runs_expand depth : forall s st, runs (expand api_list denied substitute depth s st).
Proof.
  induction depth as [|depth IH]; intros s st; [done|]. cbn [expand]. unfold expand_once. do 2 (case_match; [done|]).
  apply runs_bind; [apply runs_loop; [done|lia]|intros [st1 o] _]. apply runs_bind; [|done]. unfold cstring. by case_match.
Qed.
End ends.

Lemma runs_channel_substitute x vl rec g n o oo i c : (forall s st, runs (rec s st)) -> runs (channel_substitute x vl rec g n o oo i c).
Proof.
  intros Hrec. unfold channel_substitute. case_match; [|done]. apply runs_bind; [apply Hrec|]. by intros [c' v'] _.
Qed.

Lemma runs_event_substitute cv vl rec g n o oo i ev : (forall s st, runs (rec s st)) -> runs (event_substitute cv vl rec g n o oo i ev).
Proof.
  intros Hrec. unfold event_substitute. apply runs_bind.
  - destruct (if g then None else _); [done|].
    destruct (if _ && _ then _ else _); [apply runs_bind; [apply Hrec|by intros [c' v'] _]|done].
  - intros [ev' v'] _. apply runs_bind; [unfold cut_header; runs|done].
Qed.

(** C39: expanding a text always ends.  Whatever the text, the variables, the
    commands and the permissions are, even when variables refer to themselves,
    the expansion of a text on a channel and on an event comes to a result or
    to a write behind its block; it does not loop. *)
Theorem expansion_ends {AP : Api ChannelVars.vars} {AE : Api Event.event} x c core_variable ev s var_list api_list recur :
  switch_channel_expand_variables_check x c s var_list api_list recur <> NoFuel
  /\ switch_event_expand_headers_check core_variable ev s var_list api_list recur <> NoFuel.
Proof. split; apply runs_expand; [apply runs_channel_substitute|apply runs_event_substitute]. Qed.

(** ** Templates *)

(** A reference syntax: characters that stand for themselves, and references to
    variables. *)
Inductive piece := Chr (b : Z) | Ref (name : bytes).
Abbreviation template := (list piece).

Definition render_piece (p : piece) : bytes := match p with Chr b => [b] | Ref n => 36 :: 123 :: n ++ [125] end.
Definition render (t : template) : bytes := concat (render_piece <$> t).

(** Neither NUL nor a dollar sign nor a backslash; and in a name none of the
    signs that delimit or qualify it. *)
Definition plain_char (b : Z) : Prop := b <> 0 /\ b <> 36 /\ b <> 92.
Definition name_char (b : Z) : Prop := plain_char b /\ b <> 32 /\ b <> 40 /\ b <> 58 /\ b <> 91 /\ b <> 123 /\ b <> 125.
Definition piece_ok (p : piece) : Prop := match p with Chr b => plain_char b | Ref n => Forall name_char n end.

#[export] Instance plain_char_dec b : Decision (plain_char b).
Proof. unfold plain_char. apply _. Defined.
#[export] Instance name_char_dec b : Decision (name_char b).
Proof. unfold name_char. apply _. Defined.
#[export] Instance piece_ok_dec p : Decision (piece_ok p).
Proof. destruct p; cbn [piece_ok]; apply _. Defined.

(** The meaning of a template to a given depth: below it, references stay. *)
Fixpoint meaning (env : bytes -> option template) (depth : nat) (t : template) : bytes :=
  match depth with
  | O => render t
  | S depth =>
    concat ((fun p => match p with
                      | Chr b => [b]
                      | Ref n => match env n with Some t => meaning env depth t | None => [] end
                      end) <$> t)
  end.

Lemma no_char c s (P : Z -> Prop) : Forall P s -> ~ P c -> c ∉ s.
Proof. intros Hs Hc Hin. rewrite Forall_forall in Hs. by apply Hc, Hs. Qed.

Lemma render_no_nul t : Forall piece_ok t -> no_nul (render t).
Proof.
  induction t as [|p t IH]; intros Ht; [apply not_elem_of_nil|]. apply Forall_cons in Ht as [Hp Ht]. unfold no_nul, render in *.
  cbn [fmap list_fmap concat]. apply not_elem_of_app. split; [|by apply IH]. destruct p as [b|n]; cbn [render_piece piece_ok] in *.
  - apply not_elem_of_cons. split; [|apply not_elem_of_nil]. intros <-. by destruct Hp.
  - do 2 (apply not_elem_of_cons; split; [done|]). apply not_elem_of_app. split; [|by apply not_elem_of_cons; split; [|apply not_elem_of_nil]].
    eapply no_char; [exact Hp|]. intros ((? & _) & _). done.
Qed.

Lemma meaning_no_nul env depth : (forall n t, env n = Some t -> Forall piece_ok t) ->
  forall t, Forall piece_ok t -> no_nul (meaning env depth t).
Proof.
  intros Henv. induction depth as [|depth IH]; intros t Ht; [by apply render_no_nul|]. cbn [meaning].
  induction t as [|p t IHt]; [apply not_elem_of_nil|]. apply Forall_cons in Ht as [Hp Ht].
  cbn [fmap list_fmap concat]. apply not_elem_of_app. split; [|by apply IHt]. destruct p as [b|n]; cbn [piece_ok] in Hp.
  - apply not_elem_of_cons. split; [|apply not_elem_of_nil]. intros <-. by destruct Hp.
  - destruct (env n) eqn:E; [apply IH; eauto|apply not_elem_of_nil].
Qed.

(** Text without dollar signs and backslashes is not expanded. *)
Lemma var_check_plain s : (36 ∉ s) -> ChannelVars.var_check_loop s false = false.
Proof.
  induction s as [|b s IH]; [done|]. intros [Hb Hs]%not_elem_of_cons. cbn [ChannelVars.var_check_loop].
  rewrite (proj2 (Z.eqb_neq b 36)) by done. by apply IH.
Qed.

Lemma escaped_plain s : (92 ∉ s) -> switch_string_has_escaped_data s = false.
Proof.
  induction s as [|b s IH]; [done|]. intros [Hb Hs]%not_elem_of_cons. cbn [switch_string_has_escaped_data].
  rewrite (proj2 (Z.eqb_neq b 92)) by done. by apply IH.
Qed.

Lemma var_check_ref t n : Ref n ∈ t -> Forall piece_ok t -> forall dol, ChannelVars.var_check_loop (render t) dol = true.
Proof.
  induction t as [|p t IH]; [by intros ?%elem_of_nil|]. intros Hin [Hp Ht]%Forall_cons dol. unfold render. cbn [fmap list_fmap concat].
  destruct p as [b|m]; [|done]. apply elem_of_cons in Hin as [?|Hin]; [done|]. cbn [render_piece app ChannelVars.var_check_loop].
  destruct Hp as (_ & H36 & H92). rewrite (proj2 (Z.eqb_neq b 36)) by done. rewrite (proj2 (Z.eqb_neq b 92)) by done.
  destruct dol; [destruct (b =? 123); [done|]|]; cbn [negb]; by apply IH.
Qed.

Lemma scan_name n rest : Forall name_char n -> forall first, scan_braces (n ++ 125 :: rest) first 1 = (n, 0, rest).
Proof.
  induction n as [|b n IH]; intros Hn first; [done|]. apply Forall_cons in Hn as [Hb Hn].
  destruct Hb as (_ & _ & _ & _ & _ & H123 & H125). cbn [app scan_braces]. rewrite (proj2 (Z.eqb_neq b 125)) by done.
  rewrite (proj2 (Z.eqb_neq b 123)) by done. rewrite !andb_false_r. cbn [Z.ltb Z.compare Pos.compare Pos.compare_cont]. by rewrite IH.
Qed.

Lemma split_call_name n br : Forall name_char n -> split_call n br = None.
Proof.
  induction n as [|b n IH]; intros Hn; [done|]. apply Forall_cons in Hn as [Hb Hn]. destruct Hb as (_ & H32 & H40 & _).
  cbn [split_call]. rewrite (proj2 (Z.eqb_neq b 32)), (proj2 (Z.eqb_neq b 40)) by done. by rewrite IH.
Qed.

Lemma split_name n : Forall name_char n -> split_offsets n = (n, 0, 0) /\ split_index n = (n, -1).
Proof.
  intros Hn. unfold split_offsets, split_index.
  by rewrite !strchr_absent by (eapply no_char; [exact Hn|intros (_ & _ & _ & ? & ? & _); done]).
Qed.

Lemma cut_value_all v : cut_value v 0 0 = v.
Proof.
  unfold cut_value. rewrite (proj2 (Z.ltb_ge (zlen v) 0)) by apply zlen_nonneg. by rewrite zdrop_0.
Qed.

Section templates.
Context {AP : Api ChannelVars.vars} (x : ChannelVars.externals) (c : ChannelVars.vars) (api_list : option Event.event) (denied : bytes).
Context (env : bytes -> option template).
Hypothesis env_ok : forall n t, env n = Some t -> Forall piece_ok t.
Hypothesis env_reads : forall n, ChannelVars.switch_channel_get_variable_dup x c n (-1) = render <$> env n.

Abbreviation expand_at := (expand api_list denied (channel_substitute x None)).

Lemma expand_plain depth s : (36 ∉ s) -> (92 ∉ s) -> expand_at depth s c = Ok (c, s).
Proof.
  intros H36 H92. destruct depth; [done|]. cbn [expand]. unfold expand_once. case_match; [done|].
  unfold ChannelVars.switch_string_var_check_const. by rewrite var_check_plain, escaped_plain.
Qed.

Lemma replacement_name depth n br : Forall name_char n ->
  (forall t, env n = Some t -> expand_at depth (render t) c = Ok (c, meaning env depth t)) ->
  replacement api_list denied (channel_substitute x None) (expand_at depth) false n br c
  = Ok (c, meaning env depth <$> env n).
Proof.
  intros Hn IH. unfold replacement, variable. rewrite split_call_name by done.
  rewrite expand_plain by (eapply no_char; [exact Hn|intros ((? & ? & ?) & _); done]). cbn [mbind res_bind].
  destruct (split_name n Hn) as [-> ->]. unfold channel_substitute. rewrite env_reads. destruct (env n) as [t|]; [|done].
  cbn [fmap option_fmap option_map bool_decide andb]. rewrite (bool_decide_eq_false_2 (is_Some None)) by (by intros []). cbn [andb].
  rewrite IH by done. cbn [mbind res_bind]. by rewrite cut_value_all.
Qed.

Lemma next_is_cons b d s : next_is b (d :: s) = (d =? b).
Proof. unfold next_is. cbn [head]. destruct (Z.eqb_spec d b) as [->|]; [by apply bool_decide_eq_true_2|apply bool_decide_eq_false_2; congruence]. Qed.

Lemma loop_plain substitute rec fuel b s o : plain_char b ->
  expand_loop api_list denied substitute rec (S fuel) (b :: s) c o
  = (o ← put b (room 1 o); expand_loop api_list denied substitute rec fuel s c o).
Proof. intros (_ & H36 & H92). cbn [expand_loop]. by rewrite (proj2 (Z.eqb_neq b 92)), (proj2 (Z.eqb_neq b 36)). Qed.

Lemma loop_ref substitute rec fuel n s o : Forall name_char n ->
  expand_loop api_list denied substitute rec (S fuel) (36 :: 123 :: n ++ 125 :: s) c o
  = ('(st, v) ← replacement api_list denied substitute rec false n 0 c;
     o ← append (default [] v) o;
     if next_is 36 s then expand_loop api_list denied substitute rec fuel s st (room 1 o)
     else o ← put (default 0 (head s)) (room 1 o); expand_loop api_list denied substitute rec fuel (tail s) st o).
Proof.
  intros Hn. cbn [expand_loop]. rewrite !next_is_cons. cbn [Z.eqb Pos.eqb tail]. by rewrite scan_name.
Qed.

Lemma loop_template depth :
  (forall t, Forall piece_ok t -> expand_at depth (render t) c = Ok (c, meaning env depth t)) ->
  forall t d o fuel, Forall piece_ok t -> (length (render t) < fuel)%nat -> holds o d ->
  exists o', expand_loop api_list denied (channel_substitute x None) (expand_at depth) fuel (render t) c o = Ok (c, o')
    /\ result o' (d ++ meaning env (S depth) t).
Proof.
  intros IHd. induction t as [|p t IH]; intros d o fuel Ht Hlen Ho.
  { destruct fuel as [|fuel]; [cbn in Hlen; lia|]. exists o. split; [done|]. left. cbn [meaning fmap list_fmap concat]. by rewrite app_nil_r. }
  apply Forall_cons in Ht as [Hp Ht]. destruct fuel as [|fuel]; [lia|]. destruct p as [b|n].
  - change (render (Chr b :: t)) with (b :: render t) in *. cbn [length] in Hlen. rewrite loop_plain by done.
    destruct (put_room_holds b o d Ho) as (o1 & -> & Ho1 & _). cbn [mbind res_bind].
    destruct (IH _ o1 fuel Ht ltac:(lia) Ho1) as (o' & -> & Hr). exists o'. split; [done|]. by rewrite <-app_assoc in Hr.
  - assert (render (Ref n :: t) = 36 :: 123 :: n ++ 125 :: render t) as Hre
      by (unfold render; cbn [fmap list_fmap concat render_piece app]; by rewrite <-app_assoc).
    rewrite Hre in *. cbn [length] in Hlen. rewrite length_app in Hlen. cbn [length] in Hlen. rewrite loop_ref by done.
    rewrite replacement_name by eauto. cbn [mbind res_bind]. set (v := default [] (meaning env depth <$> env n)).
    destruct (append_holds v o d Ho) as (o1 & -> & Ho1). cbn [mbind res_bind].
    assert (meaning env (S depth) (Ref n :: t) = v ++ meaning env (S depth) t) as ->
      by (cbn [meaning fmap list_fmap concat]; subst v; by destruct (env n)).
    rewrite app_assoc. destruct (room_holds 1 o1 _ ltac:(lia) Ho1) as (Ho2 & _ & _). destruct t as [|[b|m] t].
    + destruct (put_room_holds 0 o1 _ Ho1) as (o2 & Hput & Ho3 & _). exists o2. cbn [render fmap list_fmap concat next_is head default tail].
      cbn. rewrite Hput. cbn [mbind res_bind]. destruct fuel as [|fuel]; [lia|]. split; [done|]. right. cbn. by rewrite app_nil_r.
    + destruct (IH _ _ (S fuel) Ht ltac:(lia) Ho2) as (o' & He & Hr). exists o'. split; [|done].
      change (render (Chr b :: t)) with (b :: render t) in *. apply Forall_cons in Ht as [Hb _]. rewrite loop_plain in He by done.
      rewrite (room_room _ _ Ho1) in He. rewrite next_is_cons. destruct Hb as (_ & H36 & _). by rewrite (proj2 (Z.eqb_neq b 36)).
    + destruct (IH _ _ fuel Ht ltac:(lia) Ho2) as (o' & He & Hr). exists o'. split; [|done]. by cbn [render fmap list_fmap concat render_piece app] in *.
Qed.

Lemma expand_template depth : forall t, Forall piece_ok t -> expand_at depth (render t) c = Ok (c, meaning env depth t).
Proof.
  induction depth as [|depth IHd]; intros t Ht; [done|]. cbn [expand]. unfold expand_once.
  assert ((forall n, Ref n ∉ t) -> render t = meaning env (S depth) t) as Hlit.
  { clear Ht. intros Ht. unfold render. cbn [meaning]. induction t as [|p t IH]; [done|]. cbn [fmap list_fmap concat]. f_equal.
    - destruct p as [|n]; [done|]. destruct (Ht n). apply elem_of_cons. by left.
    - apply IH. intros n Hn. destruct (Ht n). apply elem_of_cons. by right. }
  assert (forall n, Ref n ∈ t -> ChannelVars.switch_string_var_check_const (render t) = true) as Href
    by (intros n Hn; by eapply var_check_ref).
  case_bool_decide as He; [|case_match eqn:Eg].
  - do 2 f_equal. apply Hlit. intros n Hn%Href. by rewrite He in Hn.
  - do 2 f_equal. apply Hlit. intros n Hn%Href. by rewrite Hn in Eg.
  - destruct (loop_template depth IHd t [] (new_out (zlen (render t) + 1)) (S (length (render t))) Ht) as (o' & -> & Hr);
      [lia|apply new_holds, zlen_nonneg|]. cbn [mbind res_bind]. rewrite (cstring_result o' (meaning env (S depth) t)); [done| |done].
    by apply meaning_no_nul.
Qed.
End templates.

(** C15: a text with references means what its template means.  When the
    variables of a channel hold texts with references themselves, expanding a
    text gives the characters in order with the meaning of each variable in the
    place of its reference, a variable that does not exist counting as empty,
    down to the depth of nesting that is left; deeper references stay as they
    are, so that variables that refer to each other do no harm.  The block for
    the result is always large enough. *)
Theorem expansion_means {AP : Api ChannelVars.vars} x c env t api_list recur :
  (forall n t, env n = Some t -> Forall piece_ok t) ->
  (forall n, ChannelVars.switch_channel_get_variable_dup x c n (-1) = render <$> env n) ->
  Forall piece_ok t ->
  switch_channel_expand_variables_check x c (render t) None api_list recur = Ok (c, meaning env (MAX_RECUR - recur) t).
Proof. intros Henv Hread Ht. by apply expand_template. Qed.

(** ** Escaping *)

Definition escape_char (b : Z) : bytes := if (b =? 36) || (b =? 92) then [92; b] else [b].
Definition escape (s : bytes) : bytes := concat (escape_char <$> s).

Lemma escape_cons b s : escape (b :: s) = escape_char b ++ escape s.
Proof. done. Qed.

(** The check for expansions does not see backslashes. *)
Lemma var_check_escape s : forall dol, ChannelVars.var_check_loop (escape s) dol = ChannelVars.var_check_loop s dol.
Proof.
  induction s as [|b s IH]; intros dol; [done|]. rewrite escape_cons. unfold escape_char.
  destruct (Z.eqb_spec b 36) as [->|]; [cbn; destruct dol; apply IH|].
  destruct (Z.eqb_spec b 92) as [->|]; [cbn; destruct dol; apply IH|].
  cbn [orb app ChannelVars.var_check_loop]. by rewrite !IH.
Qed.

Lemma next_is_escape s : next_is 36 (escape s) = false.
Proof.
  destruct s as [|b s]; [done|]. rewrite escape_cons. unfold escape_char. destruct (Z.eqb_spec b 36); [done|].
  by destruct (Z.eqb_spec b 92) as [->|]; [|cbn [orb app]; rewrite next_is_cons; apply Z.eqb_neq].
Qed.

Section escapes.
Context {St : Type} {AP : Api St} (api_list : option Event.event) (denied : bytes).
Variable substitute : (bytes -> St -> res (St * bytes)) -> bool -> bytes -> Z -> Z -> Z -> St -> res (St * option bytes).

(** Without expansions the result is not longer than the input. *)
Lemma loop_escape rec st : forall s d o fuel, (length (escape s) < fuel)%nat -> holds o d -> len o + zlen (escape s) < olen o ->
  exists o', expand_loop api_list denied substitute rec fuel (escape s) st o = Ok (st, o') /\ holds o' (d ++ s).
Proof.
  induction s as [|b s IH]; intros d o fuel Hlen Ho Hroom; (destruct fuel as [|fuel]; [cbn in Hlen; lia|]).
  { exists o. by rewrite app_nil_r. }
  assert (forall o1, holds o1 (d ++ [b]) -> olen o <= olen o1 -> (length (escape s) < fuel)%nat ->
    zlen (escape s) + 1 <= zlen (escape (b :: s)) ->
    exists o', expand_loop api_list denied substitute rec fuel (escape s) st o1 = Ok (st, o') /\ holds o' (d ++ b :: s)) as Hgo.
  { intros o1 Ho1 Hle Hl Hz. destruct (IH _ o1 fuel Hl Ho1) as (o' & ? & Ho'); [|exists o'; by rewrite <-app_assoc in Ho'].
    destruct Ho1 as (n1 & _ & ->). destruct Ho as (n & _ & Hn). rewrite zlen_app, zlen_cons, zlen_nil. lia. }
  revert Hgo Hlen Hroom. rewrite escape_cons. unfold escape_char. pose proof (zlen_nonneg (escape s)).
  destruct (Z.eqb_spec b 36) as [->|]; [|destruct (Z.eqb_spec b 92) as [->|]]; cbn [orb app length]; rewrite ?zlen_cons; intros Hgo Hlen Hroom.
  - cbn [expand_loop]. rewrite !next_is_cons. cbn [Z.eqb Pos.eqb tail]. rewrite next_is_escape.
    destruct (put_holds 36 o d Ho) as (o1 & -> & Ho1 & Heq); [lia|]. apply Hgo; [done|lia..].
  - cbn [expand_loop]. rewrite !next_is_cons. cbn [Z.eqb Pos.eqb tail].
    destruct (put_holds 92 o d Ho) as (o1 & -> & Ho1 & Heq); [lia|]. apply Hgo; [done|lia..].
  - cbn [expand_loop]. rewrite (proj2 (Z.eqb_neq b 92)), (proj2 (Z.eqb_neq b 36)) by done.
    destruct (put_room_holds b o d Ho) as (o1 & -> & Ho1 & Heq). apply Hgo; [done|lia..].
Qed.
End escapes.

(** Escaping protects a text from expansion.  A text with a reference or a
    backslash in it is returned unchanged by the expansion when its dollar signs
    and backslashes are written with a backslash in front, on a channel and on
    an event, at every depth; nothing is looked up and no command runs. *)
Theorem escape_protects {AP : Api ChannelVars.vars} {AE : Api Event.event} x c core_variable ev s var_list api_list recur :
  no_nul s -> ChannelVars.switch_string_var_check_const s = true -> (recur <= 100)%nat ->
  switch_channel_expand_variables_check x c (escape s) var_list api_list recur = Ok (c, s)
  /\ switch_event_expand_headers_check core_variable ev (escape s) var_list api_list recur = Ok (ev, s).
Proof.
  intros Hnul Hvar Hrec. unfold switch_channel_expand_variables_check, switch_event_expand_headers_check, MAX_RECUR.
  replace (101 - recur)%nat with (S (100 - recur)) by lia. generalize (100 - recur)%nat. intros depth. cbn [expand].
  assert (escape s <> []) as Hne by (destruct s as [|b s]; [done|]; rewrite escape_cons; unfold escape_char; by case_match).
  split; unfold expand_once; rewrite (bool_decide_eq_false_2 _ Hne);
    unfold ChannelVars.switch_string_var_check_const in *; rewrite var_check_escape, Hvar; cbn [orb negb].
  all: match goal with |- context [expand_loop ?al ?de ?su ?re ?f ?t ?st ?o] =>
         destruct (loop_escape al de su re st s [] o f) as (o' & -> & Ho') end;
    [lia|apply new_holds, zlen_nonneg|unfold olen, new_out; cbn [data len]; rewrite zlen_replicate; pose proof (zlen_nonneg (escape s)); lia|].
  all: cbn [mbind res_bind]; rewrite (cstring_result o' s); [done|done|by left].
Qed.

(** ** Permissions *)

(** Two channels that look alike to someone who may read the variables of a
    list: permitted variables are the same, of the others only their presence. *)
Definition looks_alike (l : Event.event) (x1 x2 : ChannelVars.externals) (c1 c2 : ChannelVars.vars) : Prop :=
  forall n i,
    let v1 := ChannelVars.switch_channel_get_variable_dup x1 c1 n i in
    let v2 := ChannelVars.switch_channel_get_variable_dup x2 c2 n i in
    if switch_event_check_permission_list (Some l) n then v1 = v2 else is_Some v1 <-> is_Some v2.

Section permissions.
Context {AP : Api ChannelVars.vars} (l : Event.event) (api_list : option Event.event) (denied : bytes).
Context (x1 x2 : ChannelVars.externals) (c1 c2 : ChannelVars.vars).
Hypothesis no_api : api_expansion = false.
Hypothesis alike : looks_alike l x1 x2 c1 c2.

(** The same outcome from the two channels, which stay as they are. *)
Definition same {A} (r1 r2 : res (ChannelVars.vars * A)) : Prop :=
  match r1, r2 with
  | Ok (d1, a1), Ok (d2, a2) => d1 = c1 /\ d2 = c2 /\ a1 = a2
  | Fault, Fault | NoFuel, NoFuel => True
  | _, _ => False
  end.

Lemma same_bind {A B} (r1 r2 : res (ChannelVars.vars * A)) (f1 f2 : ChannelVars.vars * A -> res (ChannelVars.vars * B)) :
  same r1 r2 -> (forall a, same (f1 (c1, a)) (f2 (c2, a))) -> same (r1 ≫= f1) (r2 ≫= f2).
Proof. intros Hr Hf. destruct r1 as [[d1 a1]| |], r2 as [[d2 a2]| |]; try done. destruct Hr as (-> & -> & ->). apply Hf. Qed.

Lemma same_pure {A B} (r : res A) (f1 f2 : A -> res (ChannelVars.vars * B)) :
  (forall a, same (f1 a) (f2 a)) -> same (r ≫= f1) (r ≫= f2).
Proof. intros Hf. destruct r; cbn [mbind res_bind]; [apply Hf|done|done]. Qed.

Context (rec1 rec2 : bytes -> ChannelVars.vars -> res (ChannelVars.vars * bytes)).
Hypothesis rec_same : forall s, same (rec1 s c1) (rec2 s c2).

Lemma same_substitute g n o oo i :
  same (channel_substitute x1 (Some l) rec1 g n o oo i c1) (channel_substitute x2 (Some l) rec2 g n o oo i c2).
Proof.
  unfold channel_substitute. rewrite bool_decide_eq_true_2 by done. cbn [andb]. specialize (alike n i). cbn zeta in alike.
  destruct (switch_event_check_permission_list (Some l) n); cbn [negb].
  - rewrite alike. destruct (ChannelVars.switch_channel_get_variable_dup x2 c2 n i); [|done].
    apply same_bind; [apply rec_same|done].
  - destruct (ChannelVars.switch_channel_get_variable_dup x1 c1 n i), (ChannelVars.switch_channel_get_variable_dup x2 c2 n i);
      [apply same_bind; [apply rec_same|done]| | |done]; destruct alike as [H1 H2]; [destruct H1|destruct H2]; done.
Qed.

Lemma same_replacement g name br :
  same (replacement api_list denied (channel_substitute x1 (Some l)) rec1 g name br c1)
       (replacement api_list denied (channel_substitute x2 (Some l)) rec2 g name br c2).
Proof.
  unfold replacement. destruct (split_call name br) as [[[vn vv] br']|]; [unfold call|unfold variable].
  - do 2 (apply same_bind; [apply rec_same|intros ?]). by rewrite no_api.
  - apply same_bind; [apply rec_same|intros n]. destruct (split_offsets n) as [[n1 o1] oo1], (split_index n1). apply same_substitute.
Qed.

Lemma same_loop fuel : forall s o,
  same (expand_loop api_list denied (channel_substitute x1 (Some l)) rec1 fuel s c1 o)
       (expand_loop api_list denied (channel_substitute x2 (Some l)) rec2 fuel s c2 o).
Proof.
  induction fuel as [|fuel IH]; intros s o; [done|]. destruct s as [|p s]; [done|]. cbn [expand_loop].
  assert (forall r t, same (r ≫= expand_loop api_list denied (channel_substitute x1 (Some l)) rec1 fuel t c1)
    (r ≫= expand_loop api_list denied (channel_substitute x2 (Some l)) rec2 fuel t c2)) as Hput by (intros; by apply same_pure).
  case_match; [repeat case_match; (apply Hput || apply IH)|]. case_match; [|apply Hput].
  destruct (if next_is 36 s then (true, tail s) else (false, s)) as [g t]. destruct (next_is 123 t); [|apply Hput].
  destruct (scan_braces (tail t) true 1) as [[name br] rest]. apply same_bind; [apply same_replacement|intros v].
  apply same_pure. intros o1. destruct (next_is 36 rest); [apply IH|apply Hput].
Qed.
End permissions.

Lemma same_expand {AP : Api ChannelVars.vars} l api_list denied x1 x2 c1 c2 : api_expansion = false -> looks_alike l x1 x2 c1 c2 ->
  forall depth s, same c1 c2 (expand api_list denied (channel_substitute x1 (Some l)) depth s c1)
                            (expand api_list denied (channel_substitute x2 (Some l)) depth s c2).
Proof.
  intros Hapi Hal. induction depth as [|depth IH]; intros s; [done|]. cbn [expand]. unfold expand_once. do 2 (case_match; [done|]).
  apply (same_bind c1 c2); [by apply same_loop|]. intros o. by apply same_pure.
Qed.

(** The text of a result. *)
Definition text {St} (r : res (St * bytes)) : res bytes := '(_, s) ← r; Ok s.

(** C16: what may not be read does not show.  With a list of permitted variables
    and without API commands, two channels that agree on the permitted variables,
    and on which of the others exist, expand every text to the same result: the
    value of a variable that is not permitted cannot be got at, not by nesting,
    offsets, indices or values of other variables either. *)
Theorem permission_noninterference {AP : Api ChannelVars.vars} l x1 x2 c1 c2 s api_list recur :
  api_expansion = false -> looks_alike l x1 x2 c1 c2 ->
  text (switch_channel_expand_variables_check x1 c1 s (Some l) api_list recur)
  = text (switch_channel_expand_variables_check x2 c2 s (Some l) api_list recur).
Proof.
  intros Hapi Hal. unfold switch_channel_expand_variables_check.
  pose proof (same_expand l api_list (str "<API Execute Permission Denied>") x1 x2 c1 c2 Hapi Hal (MAX_RECUR - recur) s) as H.
  destruct (expand _ _ _ _ s c1) as [[]| |], (expand _ _ _ _ s c2) as [[]| |]; try done. by destruct H as (_ & _ & ->).
Qed.

(** ** A channel with some variables *)

Definition sample_env (n : bytes) : option template :=
  if streq n (str "domain") then Some (Chr <$> str "example.com")
  else if streq n (str "user") then Some [Chr 49; Chr 48; Chr 48]
  else if streq n (str "uri") then Some ((Chr <$> str "sip:") ++ [Ref (str "user"); Chr 64; Ref (str "domain")])
  else if streq n (str "self") then Some [Ref (str "self")]
  else None.

Definition sample_externals : ChannelVars.externals := ChannelVars.Externals None None None (fun n => render <$> sample_env n).

(** A command that shows what it got. *)
Definition sample_api (allowed : bool) (St : Type) : Api St := {|
  api_execute := fun cmd arg st => (st, Some (str "<" ++ cmd ++ str "|" ++ arg ++ str ">"));
  api_expansion := allowed
|}.

Definition with_variable (name value : bytes) : ChannelVars.vars :=
  ChannelVars.switch_channel_set_variable ChannelVars.plain_vars name (Some value).

Definition sample_text (c : ChannelVars.vars) (s : bytes) : res bytes :=
  text (@switch_channel_expand_variables (sample_api true _) sample_externals c s).

Lemma expansion_means_witness :
  @switch_channel_expand_variables_check (sample_api true _) sample_externals ChannelVars.plain_vars
    (str "<${uri}>${self}") None None 0
  = Ok (ChannelVars.plain_vars, str "<sip:100@example.com>${self}").
Proof.
  apply (@expansion_means (sample_api true _) sample_externals ChannelVars.plain_vars sample_env
    [Chr 60; Ref (str "uri"); Chr 62; Ref (str "self")] None 0%nat).
  - intros n t. unfold sample_env. repeat case_match; intros; simplify_eq; apply (bool_decide_unpack _); vm_compute; exact I.
  - intros n. unfold ChannelVars.switch_channel_get_variable_dup, ChannelVars.plain_vars. cbn [ChannelVars.first_scope ChannelVars.scope_variables].
    cbn -[streq sample_env render]. by destruct (streq n _).
  - apply (bool_decide_unpack _). vm_compute. exact I.
Defined.

Lemma escape_protects_witness :
  @switch_channel_expand_variables_check (sample_api true _) sample_externals ChannelVars.plain_vars
    (str "\${uri} \\ \$1") None None 0 = Ok (ChannelVars.plain_vars, str "${uri} \ $1").
Proof.
  apply (@escape_protects (sample_api true _) (sample_api true _) sample_externals ChannelVars.plain_vars (fun _ => None)
    (Event.switch_event_create_plain 0) (str "${uri} \ $1") None None 0%nat).
  - apply (bool_decide_unpack _). vm_compute. exact I.
  - reflexivity.
  - lia.
Defined.

(** A list that permits everything but the password. *)
Definition sample_list : Event.event :=
  (Event.switch_event_add_header_string (Event.set_flags EF_DEFAULT_ALLOW (Event.switch_event_create_plain 0))
     Event.SWITCH_STACK_BOTTOM (str "password") (Some (str "deny"))).1.

Definition secret_externals (secret : bytes) : ChannelVars.externals :=
  ChannelVars.Externals None None None
    (fun n => if streq n (str "password") then Some secret else render <$> sample_env n).

Lemma permission_noninterference_witness :
  text (@switch_channel_expand_variables_check (sample_api false _) (secret_externals (str "1234")) ChannelVars.plain_vars
    (str "${uri}:${password:1:1}") (Some sample_list) None 0)
  = text (@switch_channel_expand_variables_check (sample_api false _) (secret_externals (str "geheim")) ChannelVars.plain_vars
    (str "${uri}:${password:1:1}") (Some sample_list) None 0).
Proof.
  apply (@permission_noninterference (sample_api false _)); [reflexivity|]. intros n i. cbn zeta.
  assert (forall secret, ChannelVars.switch_channel_get_variable_dup (secret_externals secret) ChannelVars.plain_vars n i
    = if streq n (str "password") then Some secret else render <$> sample_env n) as Hget.
  { intros secret. unfold ChannelVars.switch_channel_get_variable_dup, ChannelVars.plain_vars. cbn -[streq sample_env]. by destruct (streq n _). }
  rewrite !Hget. destruct (streq n (str "password")) eqn:E; [|by case_match].
  apply streq_spec in E as ->. by split; eexists.
Defined.

(** ** Flaws *)

(** Escaped dollar signs behind a value are written without a check of the
    room: 25 bytes of text and a value of 22 bytes run over the block. *)
Theorem expansion_overrun :
  sample_text (with_variable (str "v") (replicate 22 120)) (str "${v}a\$\$\$\$\$\$\$\$\$\$") = Fault.
Proof. vm_compute. reflexivity. Qed.

(** A backslash right behind a reference does not escape; an escaped dollar
    sign alone keeps its backslash; the argument of a command that is written
    with a space ends at the first parenthesis. *)
Example escape_behind_reference : sample_text (with_variable (str "a") (str "x")) (str "${a}\${user}") = Ok (str "x\100").
Proof. vm_compute. reflexivity. Qed.

Example escape_left_over : sample_text ChannelVars.plain_vars (str "price \$5") = Ok (str "price \$5").
Proof. vm_compute. reflexivity. Qed.

Example call_cut : sample_text ChannelVars.plain_vars (str "${expr 2*(3+4)*5}") = Ok (str "<expr|2*(3+4>").
Proof. vm_compute. reflexivity. Qed.

(** On events an offset behind the end of a value is read, and an offset of a
    missing header copies NULL. *)
Theorem event_offset_overrun :
  let ev := (Event.switch_event_add_header_string (Event.switch_event_create_plain 0) Event.SWITCH_STACK_BOTTOM (str "h") (Some (str "abc"))).1 in
  let expand_event s := text (@switch_event_expand_headers_check (sample_api true _) (fun _ => None) ev s None None 0) in
  expand_event (str "${h:1:1}") = Ok (str "b") /\ expand_event (str "${h:4}") = Fault /\ expand_event (str "${missing:1}") = Fault.
Proof. vm_compute. done. Qed.

End Expand.
