(* ===== verification/ChannelNames.v ===== *)
(** * Names of channel states, call states and hangup causes

    The enumerations of src/include/switch_types.h that the channel works with
    (switch_channel_state_t, switch_channel_callstate_t, switch_channel_flag_t,
    switch_call_cause_t) and the charts of src/lib/libfreeswitch/switch_channel.c
    that translate them to and from text. *)

From S2P Require Import Prelude CString.
Import CString.

Module ChannelNames.

(** ** Enumerations *)

Inductive switch_channel_state : Set :=
| CS_NEW | CS_INIT | CS_ROUTING | CS_SOFT_EXECUTE | CS_EXECUTE | CS_EXCHANGE_MEDIA | CS_PARK
| CS_CONSUME_MEDIA | CS_HIBERNATE | CS_RESET | CS_HANGUP | CS_REPORTING | CS_DESTROY | CS_NONE.

(** The number the enumeration gives a state: the code compares states with it. *)
Definition cs (s : switch_channel_state) : Z :=
  match s with
  | CS_NEW => 0 | CS_INIT => 1 | CS_ROUTING => 2 | CS_SOFT_EXECUTE => 3 | CS_EXECUTE => 4
  | CS_EXCHANGE_MEDIA => 5 | CS_PARK => 6 | CS_CONSUME_MEDIA => 7 | CS_HIBERNATE => 8 | CS_RESET => 9
  | CS_HANGUP => 10 | CS_REPORTING => 11 | CS_DESTROY => 12 | CS_NONE => 13
  end.

Inductive switch_channel_callstate : Set :=
| CCS_DOWN | CCS_DIALING | CCS_RINGING | CCS_EARLY | CCS_ACTIVE | CCS_HELD | CCS_RING_WAIT | CCS_HANGUP | CCS_UNHELD.

Definition ccs (s : switch_channel_callstate) : Z :=
  match s with
  | CCS_DOWN => 0 | CCS_DIALING => 1 | CCS_RINGING => 2 | CCS_EARLY => 3 | CCS_ACTIVE => 4
  | CCS_HELD => 5 | CCS_RING_WAIT => 6 | CCS_HANGUP => 7 | CCS_UNHELD => 8
  end.

Inductive switch_call_direction : Set := SWITCH_CALL_DIRECTION_INBOUND | SWITCH_CALL_DIRECTION_OUTBOUND.

#[export] Instance switch_channel_state_eq_dec : EqDecision switch_channel_state.
Proof. solve_decision. Defined.
#[export] Instance switch_channel_callstate_eq_dec : EqDecision switch_channel_callstate.
Proof. solve_decision. Defined.
#[export] Instance switch_call_direction_eq_dec : EqDecision switch_call_direction.
Proof. solve_decision. Defined.

(** The channel flags index the arrays of the channel. *)
Inductive switch_channel_flag : Set :=
| CF_ANSWERED | CF_OUTBOUND | CF_EARLY_MEDIA | CF_BRIDGE_ORIGINATOR | CF_UUID_BRIDGE_ORIGINATOR | CF_TRANSFER
| CF_ACCEPT_CNG | CF_REDIRECT | CF_BRIDGED | CF_HOLD | CF_SERVICE | CF_TAGGED | CF_WINNER | CF_CONTROLLED
| CF_PROXY_MODE | CF_SUSPEND | CF_EVENT_PARSE | CF_GEN_RINGBACK | CF_RING_READY | CF_BREAK | CF_BROADCAST
| CF_UNICAST | CF_VIDEO | CF_EVENT_LOCK | CF_EVENT_LOCK_PRI | CF_RESET | CF_ORIGINATING | CF_STOP_BROADCAST
| CF_PROXY_MEDIA | CF_INNER_BRIDGE | CF_REQ_MEDIA | CF_VERBOSE_EVENTS | CF_PAUSE_BUGS | CF_DIVERT_EVENTS
| CF_BLOCK_STATE | CF_FS_RTP | CF_REPORTING | CF_PARK | CF_TIMESTAMP_SET | CF_ORIGINATOR | CF_XFER_ZOMBIE
| CF_MEDIA_ACK | CF_THREAD_SLEEPING | CF_DISABLE_RINGBACK | CF_NOT_READY | CF_SIGNAL_BRIDGE_TTL
| CF_MEDIA_BRIDGE_TTL | CF_BYPASS_MEDIA_AFTER_BRIDGE | CF_LEG_HOLDING | CF_BROADCAST_DROP_MEDIA
| CF_EARLY_HANGUP | CF_MEDIA_SET | CF_CONSUME_ON_ORIGINATE | CF_PASSTHRU_PTIME_MISMATCH | CF_BRIDGE_NOWRITE
| CF_RECOVERED | CF_JITTERBUFFER | CF_JITTERBUFFER_PLC | CF_DIALPLAN | CF_BLEG
| CF_BLOCK_BROADCAST_UNTIL_MEDIA | CF_CNG_PLC | CF_ATTENDED_TRANSFER | CF_LAZY_ATTENDED_TRANSFER
| CF_SIGNAL_DATA | CF_SIMPLIFY | CF_ZOMBIE_EXEC | CF_INTERCEPT | CF_INTERCEPTED | CF_VIDEO_REFRESH_REQ
| CF_SERVICE_AUDIO | CF_SERVICE_VIDEO | CF_ZRTP_PASSTHRU_REQ | CF_ZRTP_PASSTHRU | CF_ZRTP_HASH
| CF_CHANNEL_SWAP | CF_DEVICE_LEG | CF_FINAL_DEVICE_LEG | CF_PICKUP | CF_CONFIRM_BLIND_TRANSFER
| CF_NO_PRESENCE | CF_CONFERENCE | CF_RECOVERING | CF_RECOVERING_BRIDGE | CF_TRACKED | CF_TRACKABLE
| CF_NO_CDR | CF_EARLY_OK | CF_MEDIA_TRANS | CF_HOLD_ON_BRIDGE | CF_NOVIDEO | CF_VIDEO_ECHO
| CF_SLA_INTERCEPT | CF_HANGUP_HELD.

Definition cf (f : switch_channel_flag) : nat :=
  match f with
  | CF_ANSWERED => 1 | CF_OUTBOUND => 2 | CF_EARLY_MEDIA => 3 | CF_BRIDGE_ORIGINATOR => 4
  | CF_UUID_BRIDGE_ORIGINATOR => 5 | CF_TRANSFER => 6 | CF_ACCEPT_CNG => 7 | CF_REDIRECT => 8
  | CF_BRIDGED => 9 | CF_HOLD => 10 | CF_SERVICE => 11 | CF_TAGGED => 12 | CF_WINNER => 13
  | CF_CONTROLLED => 14 | CF_PROXY_MODE => 15 | CF_SUSPEND => 16 | CF_EVENT_PARSE => 17
  | CF_GEN_RINGBACK => 18 | CF_RING_READY => 19 | CF_BREAK => 20 | CF_BROADCAST => 21 | CF_UNICAST => 22
  | CF_VIDEO => 23 | CF_EVENT_LOCK => 24 | CF_EVENT_LOCK_PRI => 25 | CF_RESET => 26 | CF_ORIGINATING => 27
  | CF_STOP_BROADCAST => 28 | CF_PROXY_MEDIA => 29 | CF_INNER_BRIDGE => 30 | CF_REQ_MEDIA => 31
  | CF_VERBOSE_EVENTS => 32 | CF_PAUSE_BUGS => 33 | CF_DIVERT_EVENTS => 34 | CF_BLOCK_STATE => 35
  | CF_FS_RTP => 36 | CF_REPORTING => 37 | CF_PARK => 38 | CF_TIMESTAMP_SET => 39 | CF_ORIGINATOR => 40
  | CF_XFER_ZOMBIE => 41 | CF_MEDIA_ACK => 42 | CF_THREAD_SLEEPING => 43 | CF_DISABLE_RINGBACK => 44
  | CF_NOT_READY => 45 | CF_SIGNAL_BRIDGE_TTL => 46 | CF_MEDIA_BRIDGE_TTL => 47
  | CF_BYPASS_MEDIA_AFTER_BRIDGE => 48 | CF_LEG_HOLDING => 49 | CF_BROADCAST_DROP_MEDIA => 50
  | CF_EARLY_HANGUP => 51 | CF_MEDIA_SET => 52 | CF_CONSUME_ON_ORIGINATE => 53
  | CF_PASSTHRU_PTIME_MISMATCH => 54 | CF_BRIDGE_NOWRITE => 55 | CF_RECOVERED => 56 | CF_JITTERBUFFER => 57
  | CF_JITTERBUFFER_PLC => 58 | CF_DIALPLAN => 59 | CF_BLEG => 60 | CF_BLOCK_BROADCAST_UNTIL_MEDIA => 61
  | CF_CNG_PLC => 62 | CF_ATTENDED_TRANSFER => 63 | CF_LAZY_ATTENDED_TRANSFER => 64 | CF_SIGNAL_DATA => 65
  | CF_SIMPLIFY => 66 | CF_ZOMBIE_EXEC => 67 | CF_INTERCEPT => 68 | CF_INTERCEPTED => 69
  | CF_VIDEO_REFRESH_REQ => 70 | CF_SERVICE_AUDIO => 71 | CF_SERVICE_VIDEO => 72 | CF_ZRTP_PASSTHRU_REQ => 73
  | CF_ZRTP_PASSTHRU => 74 | CF_ZRTP_HASH => 75 | CF_CHANNEL_SWAP => 76 | CF_DEVICE_LEG => 77
  | CF_FINAL_DEVICE_LEG => 78 | CF_PICKUP => 79 | CF_CONFIRM_BLIND_TRANSFER => 80 | CF_NO_PRESENCE => 81
  | CF_CONFERENCE => 82 | CF_RECOVERING => 83 | CF_RECOVERING_BRIDGE => 84 | CF_TRACKED => 85
  | CF_TRACKABLE => 86 | CF_NO_CDR => 87 | CF_EARLY_OK => 88 | CF_MEDIA_TRANS => 89 | CF_HOLD_ON_BRIDGE => 90
  | CF_NOVIDEO => 91 | CF_VIDEO_ECHO => 92 | CF_SLA_INTERCEPT => 93 | CF_HANGUP_HELD => 94
  end.

Definition CF_FLAG_MAX : nat := 95.

Definition flag_at (n : nat) : option switch_channel_flag :=
  match n with
  | 1 => Some CF_ANSWERED | 2 => Some CF_OUTBOUND | 3 => Some CF_EARLY_MEDIA | 4 => Some CF_BRIDGE_ORIGINATOR
  | 5 => Some CF_UUID_BRIDGE_ORIGINATOR | 6 => Some CF_TRANSFER | 7 => Some CF_ACCEPT_CNG
  | 8 => Some CF_REDIRECT | 9 => Some CF_BRIDGED | 10 => Some CF_HOLD | 11 => Some CF_SERVICE
  | 12 => Some CF_TAGGED | 13 => Some CF_WINNER | 14 => Some CF_CONTROLLED | 15 => Some CF_PROXY_MODE
  | 16 => Some CF_SUSPEND | 17 => Some CF_EVENT_PARSE | 18 => Some CF_GEN_RINGBACK | 19 => Some CF_RING_READY
  | 20 => Some CF_BREAK | 21 => Some CF_BROADCAST | 22 => Some CF_UNICAST | 23 => Some CF_VIDEO
  | 24 => Some CF_EVENT_LOCK | 25 => Some CF_EVENT_LOCK_PRI | 26 => Some CF_RESET | 27 => Some CF_ORIGINATING
  | 28 => Some CF_STOP_BROADCAST | 29 => Some CF_PROXY_MEDIA | 30 => Some CF_INNER_BRIDGE
  | 31 => Some CF_REQ_MEDIA | 32 => Some CF_VERBOSE_EVENTS | 33 => Some CF_PAUSE_BUGS
  | 34 => Some CF_DIVERT_EVENTS | 35 => Some CF_BLOCK_STATE | 36 => Some CF_FS_RTP | 37 => Some CF_REPORTING
  | 38 => Some CF_PARK | 39 => Some CF_TIMESTAMP_SET | 40 => Some CF_ORIGINATOR | 41 => Some CF_XFER_ZOMBIE
  | 42 => Some CF_MEDIA_ACK | 43 => Some CF_THREAD_SLEEPING | 44 => Some CF_DISABLE_RINGBACK
  | 45 => Some CF_NOT_READY | 46 => Some CF_SIGNAL_BRIDGE_TTL | 47 => Some CF_MEDIA_BRIDGE_TTL
  | 48 => Some CF_BYPASS_MEDIA_AFTER_BRIDGE | 49 => Some CF_LEG_HOLDING | 50 => Some CF_BROADCAST_DROP_MEDIA
  | 51 => Some CF_EARLY_HANGUP | 52 => Some CF_MEDIA_SET | 53 => Some CF_CONSUME_ON_ORIGINATE
  | 54 => Some CF_PASSTHRU_PTIME_MISMATCH | 55 => Some CF_BRIDGE_NOWRITE | 56 => Some CF_RECOVERED
  | 57 => Some CF_JITTERBUFFER | 58 => Some CF_JITTERBUFFER_PLC | 59 => Some CF_DIALPLAN | 60 => Some CF_BLEG
  | 61 => Some CF_BLOCK_BROADCAST_UNTIL_MEDIA | 62 => Some CF_CNG_PLC | 63 => Some CF_ATTENDED_TRANSFER
  | 64 => Some CF_LAZY_ATTENDED_TRANSFER | 65 => Some CF_SIGNAL_DATA | 66 => Some CF_SIMPLIFY
  | 67 => Some CF_ZOMBIE_EXEC | 68 => Some CF_INTERCEPT | 69 => Some CF_INTERCEPTED
  | 70 => Some CF_VIDEO_REFRESH_REQ | 71 => Some CF_SERVICE_AUDIO | 72 => Some CF_SERVICE_VIDEO
  | 73 => Some CF_ZRTP_PASSTHRU_REQ | 74 => Some CF_ZRTP_PASSTHRU | 75 => Some CF_ZRTP_HASH
  | 76 => Some CF_CHANNEL_SWAP | 77 => Some CF_DEVICE_LEG | 78 => Some CF_FINAL_DEVICE_LEG
  | 79 => Some CF_PICKUP | 80 => Some CF_CONFIRM_BLIND_TRANSFER | 81 => Some CF_NO_PRESENCE
  | 82 => Some CF_CONFERENCE | 83 => Some CF_RECOVERING | 84 => Some CF_RECOVERING_BRIDGE
  | 85 => Some CF_TRACKED | 86 => Some CF_TRACKABLE | 87 => Some CF_NO_CDR | 88 => Some CF_EARLY_OK
  | 89 => Some CF_MEDIA_TRANS | 90 => Some CF_HOLD_ON_BRIDGE | 91 => Some CF_NOVIDEO
  | 92 => Some CF_VIDEO_ECHO | 93 => Some CF_SLA_INTERCEPT | 94 => Some CF_HANGUP_HELD
  | _ => None
  end%nat.

Lemma flag_at_cf f : flag_at (cf f) = Some f.
Proof. by destruct f. Qed.

Lemma cf_inj f g : cf f = cf g -> f = g.
Proof. intros H. apply (inj Some). by rewrite <-!flag_at_cf, H. Qed.

#[export] Instance switch_channel_flag_eq_dec : EqDecision switch_channel_flag.
Proof.
  refine (fun f g => cast_if (decide (cf f = cf g))); [|by intros ->].
  by apply cf_inj.
Defined.

(** ** Charts *)

Definition CAUSE_CHART : list (bytes * Z) :=
  (fun p => (str p.1, p.2)) <$> [
    ("NONE", 0); ("UNALLOCATED_NUMBER", 1); ("NO_ROUTE_TRANSIT_NET", 2); ("NO_ROUTE_DESTINATION", 3);
    ("CHANNEL_UNACCEPTABLE", 6); ("CALL_AWARDED_DELIVERED", 7); ("NORMAL_CLEARING", 16); ("USER_BUSY", 17);
    ("NO_USER_RESPONSE", 18); ("NO_ANSWER", 19); ("SUBSCRIBER_ABSENT", 20); ("CALL_REJECTED", 21);
    ("NUMBER_CHANGED", 22); ("REDIRECTION_TO_NEW_DESTINATION", 23); ("EXCHANGE_ROUTING_ERROR", 25);
    ("DESTINATION_OUT_OF_ORDER", 27); ("INVALID_NUMBER_FORMAT", 28); ("FACILITY_REJECTED", 29);
    ("RESPONSE_TO_STATUS_ENQUIRY", 30); ("NORMAL_UNSPECIFIED", 31); ("NORMAL_CIRCUIT_CONGESTION", 34);
    ("NETWORK_OUT_OF_ORDER", 38); ("NORMAL_TEMPORARY_FAILURE", 41); ("SWITCH_CONGESTION", 42);
    ("ACCESS_INFO_DISCARDED", 43); ("REQUESTED_CHAN_UNAVAIL", 44); ("PRE_EMPTED", 45);
    ("FACILITY_NOT_SUBSCRIBED", 50); ("OUTGOING_CALL_BARRED", 52); ("INCOMING_CALL_BARRED", 54);
    ("BEARERCAPABILITY_NOTAUTH", 57); ("BEARERCAPABILITY_NOTAVAIL", 58); ("SERVICE_UNAVAILABLE", 63);
    ("BEARERCAPABILITY_NOTIMPL", 65); ("CHAN_NOT_IMPLEMENTED", 66); ("FACILITY_NOT_IMPLEMENTED", 69);
    ("SERVICE_NOT_IMPLEMENTED", 79); ("INVALID_CALL_REFERENCE", 81); ("INCOMPATIBLE_DESTINATION", 88);
    ("INVALID_MSG_UNSPECIFIED", 95); ("MANDATORY_IE_MISSING", 96); ("MESSAGE_TYPE_NONEXIST", 97);
    ("WRONG_MESSAGE", 98); ("IE_NONEXIST", 99); ("INVALID_IE_CONTENTS", 100); ("WRONG_CALL_STATE", 101);
    ("RECOVERY_ON_TIMER_EXPIRE", 102); ("MANDATORY_IE_LENGTH_ERROR", 103); ("PROTOCOL_ERROR", 111);
    ("INTERWORKING", 127); ("SUCCESS", 142); ("ORIGINATOR_CANCEL", 487); ("CRASH", 500);
    ("SYSTEM_SHUTDOWN", 501); ("LOSE_RACE", 502); ("MANAGER_REQUEST", 503); ("BLIND_TRANSFER", 600);
    ("ATTENDED_TRANSFER", 601); ("ALLOTTED_TIMEOUT", 602); ("USER_CHALLENGE", 603); ("MEDIA_TIMEOUT", 604);
    ("PICKED_OFF", 605); ("USER_NOT_REGISTERED", 606); ("PROGRESS_TIMEOUT", 607); ("INVALID_GATEWAY", 608);
    ("GATEWAY_DOWN", 609); ("INVALID_URL", 610); ("INVALID_PROFILE", 611); ("NO_PICKUP", 612)]%string.

Definition SWITCH_CAUSE_NONE : Z := 0.
Definition SWITCH_CAUSE_NORMAL_CLEARING : Z := 16.
Definition SWITCH_CAUSE_WRONG_CALL_STATE : Z := 101.
Definition SWITCH_CAUSE_INTERWORKING : Z := 127.

Definition CALLSTATE_CHART : list (bytes * Z) :=
  [(str "DOWN", ccs CCS_DOWN); (str "DIALING", ccs CCS_DIALING); (str "RINGING", ccs CCS_RINGING);
   (str "EARLY", ccs CCS_EARLY); (str "ACTIVE", ccs CCS_ACTIVE); (str "HELD", ccs CCS_HELD);
   (str "RING_WAIT", ccs CCS_RING_WAIT); (str "HANGUP", ccs CCS_HANGUP); (str "UNHELD", ccs CCS_UNHELD)].

Definition state_names : list bytes :=
  [str "CS_NEW"; str "CS_INIT"; str "CS_ROUTING"; str "CS_SOFT_EXECUTE"; str "CS_EXECUTE"; str "CS_EXCHANGE_MEDIA";
   str "CS_PARK"; str "CS_CONSUME_MEDIA"; str "CS_HIBERNATE"; str "CS_RESET"; str "CS_HANGUP"; str "CS_REPORTING";
   str "CS_DESTROY"; str "CS_NONE"].

(** The search loops of cause2str and callstate2str: the first entry with the number. *)
Fixpoint chart_name (chart : list (bytes * Z)) (n : Z) : bytes :=
  match chart with
  | [] => str "UNKNOWN"
  | (name, m) :: chart => if m =? n then name else chart_name chart n
  end.

(** The search loops of str2cause and str2callstate: the first entry with the name. *)
Fixpoint chart_number (chart : list (bytes * Z)) (s : bytes) : Z :=
  match chart with
  | [] => SWITCH_CAUSE_NONE
  | (name, m) :: chart => if strcaseeq name s then m else chart_number chart s
  end.

Definition switch_channel_cause2str (cause : Z) : bytes := chart_name CAUSE_CHART cause.
Definition switch_channel_callstate2str (callstate : Z) : bytes := chart_name CALLSTATE_CHART callstate.

(** A leading digit means a number; the conversion to the enumeration keeps it. *)
Definition switch_channel_str2cause (s : bytes) : Z :=
  match s with
  | c :: _ => if (47 <? c) && (c <? 58) then atoi s else chart_number CAUSE_CHART s
  | [] => chart_number CAUSE_CHART s
  end.

Definition switch_channel_str2callstate (s : bytes) : Z :=
  match s with
  | c :: _ => if (47 <? c) && (c <? 58) then atoi s else chart_number CALLSTATE_CHART s
  | [] => chart_number CALLSTATE_CHART s
  end.

Definition switch_channel_cause_q850 (cause : Z) : Z :=
  if cause <=? SWITCH_CAUSE_INTERWORKING then cause else SWITCH_CAUSE_NORMAL_CLEARING.

(** [None]: an index outside of the table. *)
Definition switch_channel_state_name (state : switch_channel_state) : option bytes := state_names !! Z.to_nat (cs state).

Fixpoint name_state_loop (names : list bytes) (x : Z) (name : bytes) : Z :=
  match names with
  | [] => cs CS_DESTROY
  | n :: names => if strcaseeq n name then x else name_state_loop names (x + 1) name
  end.

Definition switch_channel_name_state (name : bytes) : Z := name_state_loop state_names 0 name.

(** ** Round trips *)

(** Looking a name up does not depend on its case. *)
Lemma chart_number_case chart s t : tolower <$> s = tolower <$> t -> chart_number chart s = chart_number chart t.
Proof.
  intros H. induction chart as [|[n m] chart IH]; [done|]. simpl. unfold strcaseeq. by rewrite H, IH.
Qed.

Lemma name_state_case names s t : forall x, tolower <$> s = tolower <$> t -> name_state_loop names x s = name_state_loop names x t.
Proof.
  induction names as [|n names IH]; intros x H; [done|]. simpl. unfold strcaseeq. by rewrite H, IH.
Qed.

Lemma digit_lower c : 0 <= c < 256 -> (47 <? tolower c) && (tolower c <? 58) = (47 <? c) && (c <? 58).
Proof.
  intros Hc. unfold tolower. cint. repeat case_match; try done; lia.
Qed.

Lemma head_digit_case s t : tolower <$> s = tolower <$> t -> Forall (fun c => 0 <= c < 256) s -> Forall (fun c => 0 <= c < 256) t ->
  match s with c :: _ => (47 <? c) && (c <? 58) | [] => false end = match t with c :: _ => (47 <? c) && (c <? 58) | [] => false end.
Proof.
  intros H Hs Ht. destruct s as [|c s], t as [|d t]; try done. simplify_list_eq.
  apply Forall_cons in Hs as [Hc _]. apply Forall_cons in Ht as [Hd _].
  rewrite <-digit_lower, <-(digit_lower d) by done. by f_equal; f_equal.
Qed.

Definition chart_ok (chart : list (bytes * Z)) (number : bytes -> Z) : bool :=
  forallb (fun p => (number p.1 =? p.2) && streq (chart_name chart p.2) p.1
                    && negb (match p.1 with c :: _ => (47 <? c) && (c <? 58) | [] => false end)
                    && forallb (fun c => (0 <=? c) && (c <? 256)) p.1) chart.

Lemma number_in_chart chart t name n :
  chart_ok chart (chart_number chart) = true -> (name, n) ∈ chart -> Forall (fun c => 0 <= c < 256) t ->
  tolower <$> t = tolower <$> chart_name chart n ->
  match t with c :: _ => if (47 <? c) && (c <? 58) then atoi t else chart_number chart t | [] => chart_number chart t end = n.
Proof.
  intros Hok Hin Ht Hcase. unfold chart_ok in Hok. rewrite forallb_forall in Hok.
  specialize (Hok (name, n) (proj1 (list_elem_of_In _ _) Hin)). simpl in Hok. rewrite !andb_true_iff, negb_true_iff in Hok.
  destruct Hok as [[[Hnum%Z.eqb_eq Hname%streq_spec] Hdig] Hrange]. rewrite Hname in Hcase.
  rewrite (head_digit_case name t) in Hdig; [|done| |done].
  2: { apply Forall_forall. intros c Hc. rewrite forallb_forall in Hrange. apply list_elem_of_In in Hc.
       specialize (Hrange c Hc). apply andb_true_iff in Hrange. lia. }
  rewrite <-Hnum, (chart_number_case chart name t) by done. destruct t; [done|]. by rewrite Hdig.
Qed.

Lemma name_state_in x (names : list bytes) (s nm : bytes) : forall i,
  NoDup ((fun n : bytes => tolower <$> n) <$> names) -> names !! i = Some nm -> tolower <$> s = tolower <$> nm ->
  name_state_loop names x s = x + Z.of_nat i.
Proof.
  revert x. induction names as [|n names IH]; intros x i Hnd Hi Hs; [done|].
  rewrite fmap_cons in Hnd. apply NoDup_cons in Hnd as [Hni Hnd]. cbn [name_state_loop].
  destruct i as [|i]; simplify_eq/=.
  - rewrite (proj2 (strcaseeq_spec nm s)) by done. lia.
  - destruct (strcaseeq n s) eqn:Hc.
    + apply strcaseeq_spec in Hc. destruct Hni. rewrite Hc, Hs. apply list_elem_of_fmap. exists nm. split; [done|].
      by eapply list_elem_of_lookup_2.
    + rewrite (IH (x + 1) i) by done. lia.
Qed.

(** Names and numbers of hangup causes, call states and channel states
    round-trip.  Every cause of the chart, every call state and every channel
    state prints to a name that reads back, in any letter case, as the same
    value. *)
Theorem channel_names_round_trip t :
  Forall (fun c => 0 <= c < 256) t ->
  (forall name n, (name, n) ∈ CAUSE_CHART -> tolower <$> t = tolower <$> switch_channel_cause2str n ->
     switch_channel_str2cause t = n)
  /\ (forall s, tolower <$> t = tolower <$> switch_channel_callstate2str (ccs s) -> switch_channel_str2callstate t = ccs s)
  /\ (forall s name, switch_channel_state_name s = Some name -> tolower <$> t = tolower <$> name ->
     switch_channel_name_state t = cs s).
Proof.
  intros Ht. split_and!.
  - intros name n Hin Hcase. by apply (number_in_chart CAUSE_CHART t name n).
  - intros s Hcase. apply (number_in_chart CALLSTATE_CHART t (switch_channel_callstate2str (ccs s)) (ccs s)); try done.
    apply (bool_decide_unpack _). by destruct s.
  - intros s name Hs Hcase. unfold switch_channel_name_state.
    rewrite (name_state_in 0 state_names t name (Z.to_nat (cs s))); [by destruct s| |done..].
    apply (bool_decide_unpack _). by vm_compute.
Qed.

Lemma channel_names_round_trip_witness :
  switch_channel_str2cause (str "User_Busy") = 17.
Proof.
  assert (Forall (fun c => 0 <= c < 256) (str "User_Busy")) as H by (repeat constructor; vm_compute; discriminate || reflexivity).
  destruct (channel_names_round_trip (str "User_Busy") H) as (Hc & _ & _).
  apply (Hc (str "USER_BUSY")); [|vm_compute; reflexivity]. apply (bool_decide_unpack _). vm_compute. exact I.
Defined.

End ChannelNames.
