(* ===== verification/Channel.v ===== *)
(** * The channel

    src/lib/libfreeswitch/switch_channel.c: the state, the call state and the
    flags of a channel (switch_channel_perform_set_state,
    switch_channel_perform_set_running_state,
    switch_channel_perform_set_callstate, switch_channel_set_flag_value,
    switch_channel_clear_flag and their relatives), hold, hangup, readiness and
    the table of state handlers.

    A channel is the record [channel]; the calls that leave the component
    (events fired, signals to the session, the partner's variables) are
    recorded in order in its [trace].  An operation returns [None] where the
    code would abort on an assertion, dereference a NULL caller profile or
    index outside of an array. *)

From S2P Require Import Prelude CString ChannelNames ChannelVars.
Import CString ChannelNames.

Module Channel.

(** ** Data *)

(** A switch_state_handler_table_t, known by its address; the flags say
    whether it is sticky. *)
Record state_handler := StateHandler { sh_addr : Z; sh_flags : Z }.

#[export] Instance state_handler_eq_dec : EqDecision state_handler.
Proof. solve_decision. Defined.

Definition SSH_FLAG_STICKY : Z := 1.
Definition SWITCH_MAX_STATE_HANDLERS : Z := 30.

(** The part of switch_channel_timetable_t the operations below use. *)
Record timetable := Timetable { last_hold : Z; hold_accum : Z }.

(** A switch_hold_record_t. *)
Record hold := Hold { hold_on : Z; hold_off : Z; hold_uuid : option bytes }.

(** A switch_device_node_t. *)
Record device := Device { device_callstate : switch_channel_callstate; device_direction : switch_call_direction }.

(** What a channel asks of the rest of the system. *)
Inductive effect :=
| FireCallstate (old new : switch_channel_callstate)
| CheckDeviceState (new : switch_channel_callstate)
| FireState
| FireHold (on : bool)
| FireHangup
| TransferRecordings
| SignalStateChange
| KillChannel
| LaunchThread
| SetPartnerVariable (name : bytes) (value : bytes)
| SessionHangupState.

#[export] Instance effect_eq_dec : EqDecision effect.
Proof. solve_decision. Defined.

Record channel := Channel {
  direction : switch_call_direction;
  logical_direction : switch_call_direction;
  state : switch_channel_state;
  running_state : switch_channel_state;
  callstate : switch_channel_callstate;
  flags : list Z;
  state_flags : list Z;
  caps : list Z;
  private_flags : Z;
  times : option timetable;
  state_handlers : list (option state_handler);
  state_handler_index : Z;
  cvars : ChannelVars.vars;
  hangup_cause : Z;
  opaque_flags : Z;
  hold_record : list hold;
  device_node : option device;
  trace : list effect
}.

Definition with_direction (x : switch_call_direction) (c : channel) : channel :=
  Channel x (logical_direction c) (state c) (running_state c) (callstate c) (flags c) (state_flags c) (caps c)
    (private_flags c) (times c) (state_handlers c) (state_handler_index c) (cvars c) (hangup_cause c)
    (opaque_flags c) (hold_record c) (device_node c) (trace c).
Definition with_logical_direction (x : switch_call_direction) (c : channel) : channel :=
  Channel (direction c) x (state c) (running_state c) (callstate c) (flags c) (state_flags c) (caps c)
    (private_flags c) (times c) (state_handlers c) (state_handler_index c) (cvars c) (hangup_cause c)
    (opaque_flags c) (hold_record c) (device_node c) (trace c).
Definition with_state (x : switch_channel_state) (c : channel) : channel :=
  Channel (direction c) (logical_direction c) x (running_state c) (callstate c) (flags c) (state_flags c) (caps
    c) (private_flags c) (times c) (state_handlers c) (state_handler_index c) (cvars c) (hangup_cause c)
    (opaque_flags c) (hold_record c) (device_node c) (trace c).
Definition with_running_state (x : switch_channel_state) (c : channel) : channel :=
  Channel (direction c) (logical_direction c) (state c) x (callstate c) (flags c) (state_flags c) (caps c)
    (private_flags c) (times c) (state_handlers c) (state_handler_index c) (cvars c) (hangup_cause c)
    (opaque_flags c) (hold_record c) (device_node c) (trace c).
Definition with_callstate (x : switch_channel_callstate) (c : channel) : channel :=
  Channel (direction c) (logical_direction c) (state c) (running_state c) x (flags c) (state_flags c) (caps c)
    (private_flags c) (times c) (state_handlers c) (state_handler_index c) (cvars c) (hangup_cause c)
    (opaque_flags c) (hold_record c) (device_node c) (trace c).
Definition with_flags (x : list Z) (c : channel) : channel :=
  Channel (direction c) (logical_direction c) (state c) (running_state c) (callstate c) x (state_flags c) (caps
    c) (private_flags c) (times c) (state_handlers c) (state_handler_index c) (cvars c) (hangup_cause c)
    (opaque_flags c) (hold_record c) (device_node c) (trace c).
Definition with_state_flags (x : list Z) (c : channel) : channel :=
  Channel (direction c) (logical_direction c) (state c) (running_state c) (callstate c) (flags c) x (caps c)
    (private_flags c) (times c) (state_handlers c) (state_handler_index c) (cvars c) (hangup_cause c)
    (opaque_flags c) (hold_record c) (device_node c) (trace c).
Definition with_caps (x : list Z) (c : channel) : channel :=
  Channel (direction c) (logical_direction c) (state c) (running_state c) (callstate c) (flags c) (state_flags
    c) x (private_flags c) (times c) (state_handlers c) (state_handler_index c) (cvars c) (hangup_cause c)
    (opaque_flags c) (hold_record c) (device_node c) (trace c).
Definition with_private_flags (x : Z) (c : channel) : channel :=
  Channel (direction c) (logical_direction c) (state c) (running_state c) (callstate c) (flags c) (state_flags
    c) (caps c) x (times c) (state_handlers c) (state_handler_index c) (cvars c) (hangup_cause c) (opaque_flags
    c) (hold_record c) (device_node c) (trace c).
Definition with_times (x : option timetable) (c : channel) : channel :=
  Channel (direction c) (logical_direction c) (state c) (running_state c) (callstate c) (flags c) (state_flags
    c) (caps c) (private_flags c) x (state_handlers c) (state_handler_index c) (cvars c) (hangup_cause c)
    (opaque_flags c) (hold_record c) (device_node c) (trace c).
Definition with_state_handlers (x : list (option state_handler)) (c : channel) : channel :=
  Channel (direction c) (logical_direction c) (state c) (running_state c) (callstate c) (flags c) (state_flags
    c) (caps c) (private_flags c) (times c) x (state_handler_index c) (cvars c) (hangup_cause c) (opaque_flags
    c) (hold_record c) (device_node c) (trace c).
Definition with_state_handler_index (x : Z) (c : channel) : channel :=
  Channel (direction c) (logical_direction c) (state c) (running_state c) (callstate c) (flags c) (state_flags
    c) (caps c) (private_flags c) (times c) (state_handlers c) x (cvars c) (hangup_cause c) (opaque_flags c)
    (hold_record c) (device_node c) (trace c).
Definition with_cvars (x : ChannelVars.vars) (c : channel) : channel :=
  Channel (direction c) (logical_direction c) (state c) (running_state c) (callstate c) (flags c) (state_flags
    c) (caps c) (private_flags c) (times c) (state_handlers c) (state_handler_index c) x (hangup_cause c)
    (opaque_flags c) (hold_record c) (device_node c) (trace c).
Definition with_hangup_cause (x : Z) (c : channel) : channel :=
  Channel (direction c) (logical_direction c) (state c) (running_state c) (callstate c) (flags c) (state_flags
    c) (caps c) (private_flags c) (times c) (state_handlers c) (state_handler_index c) (cvars c) x (opaque_flags
    c) (hold_record c) (device_node c) (trace c).
Definition with_opaque_flags (x : Z) (c : channel) : channel :=
  Channel (direction c) (logical_direction c) (state c) (running_state c) (callstate c) (flags c) (state_flags
    c) (caps c) (private_flags c) (times c) (state_handlers c) (state_handler_index c) (cvars c) (hangup_cause
    c) x (hold_record c) (device_node c) (trace c).
Definition with_hold_record (x : list hold) (c : channel) : channel :=
  Channel (direction c) (logical_direction c) (state c) (running_state c) (callstate c) (flags c) (state_flags
    c) (caps c) (private_flags c) (times c) (state_handlers c) (state_handler_index c) (cvars c) (hangup_cause
    c) (opaque_flags c) x (device_node c) (trace c).
Definition with_device_node (x : option device) (c : channel) : channel :=
  Channel (direction c) (logical_direction c) (state c) (running_state c) (callstate c) (flags c) (state_flags
    c) (caps c) (private_flags c) (times c) (state_handlers c) (state_handler_index c) (cvars c) (hangup_cause
    c) (opaque_flags c) (hold_record c) x (trace c).
Definition with_trace (x : list effect) (c : channel) : channel :=
  Channel (direction c) (logical_direction c) (state c) (running_state c) (callstate c) (flags c) (state_flags
    c) (caps c) (private_flags c) (times c) (state_handlers c) (state_handler_index c) (cvars c) (hangup_cause
    c) (opaque_flags c) (hold_record c) (device_node c) x.

Definition emit (e : effect) (c : channel) : channel := with_trace (trace c ++ [e]) c.

(** What the operations read of the session and of the clock. *)
Record session_env := SessionEnv {
  now : Z;
  partner_uuid : option bytes;
  has_partner : bool;
  session_running : bool;
  session_started : bool;
  in_thread : bool;
  ext : ChannelVars.externals
}.

(** ** Variables, capabilities and flags *)

Definition set_variable (name : bytes) (value : option bytes) (c : channel) : channel :=
  with_cvars (ChannelVars.switch_channel_set_variable (cvars c) name value) c.

Definition get_variable (env : session_env) (c : channel) (name : bytes) : option bytes :=
  ChannelVars.switch_channel_get_variable (ext env) (cvars c) name.

Definition switch_channel_test_flag (c : channel) (flag : switch_channel_flag) : Z := default 0 (flags c !! cf flag).

Definition flag_set (c : channel) (flag : switch_channel_flag) : bool := negb (switch_channel_test_flag c flag =? 0).

Definition put_flag (flag : switch_channel_flag) (value : Z) (c : channel) : channel :=
  with_flags (<[cf flag := value]> (flags c)) c.

Definition up_nosig (c : channel) : bool := cs (state c) <? cs CS_HANGUP.

Definition switch_channel_set_cap_value (cap : nat) (value : Z) (c : channel) : channel :=
  with_caps (<[cap := value]> (caps c)) c.
Definition switch_channel_clear_cap (cap : nat) (c : channel) : channel := with_caps (<[cap := 0]> (caps c)) c.
Definition switch_channel_test_cap (c : channel) (cap : nat) : bool := negb (default 0 (caps c !! cap) =? 0).

Definition switch_channel_set_private_flag (fl : Z) (c : channel) : channel :=
  with_private_flags (Z.lor (private_flags c) fl) c.
Definition switch_channel_clear_private_flag (fl : Z) (c : channel) : channel :=
  with_private_flags (Z.land (private_flags c) (u32 (Z.lnot fl))) c.
Definition switch_channel_test_private_flag (c : channel) (fl : Z) : Z := Z.land (private_flags c) fl.

(** ** Call state *)

Definition switch_channel_perform_set_callstate (cst : switch_channel_callstate) (c : channel) : channel :=
  let o_callstate := callstate c in
  if bool_decide (o_callstate = cst) || bool_decide (o_callstate = CCS_HANGUP) then c
  else
    let c := with_callstate cst c in
    let c := with_device_node ((fun d => Device cst (device_direction d)) <$> device_node c) c in
    let c := emit (CheckDeviceState cst) c in
    emit (FireCallstate o_callstate cst) c.

(** ** Setting and clearing flags *)

Definition outbound_variables (flag : switch_channel_flag) (value : option bytes) (c : channel) : channel :=
  let c := if bool_decide (flag = CF_OUTBOUND) then set_variable (str "is_outbound") value c else c in
  if bool_decide (flag = CF_RECOVERED) then set_variable (str "recovered") value c else c.

(** The start of a hold: the profile's times are written without a check. *)
Definition begin_hold (env : session_env) (c : channel) : option channel :=
  let c := switch_channel_perform_set_callstate CCS_HELD c in
  t ← times c;
  let c := with_times (Some (Timetable (now env) (hold_accum t))) c in
  Some (with_hold_record (Hold (now env) 0 (partner_uuid env) :: hold_record c) c).

Definition switch_channel_set_flag_value (env : session_env) (flag : switch_channel_flag) (value : Z) (c : channel)
  : option channel :=
  let HELD := bool_decide (flag = CF_LEG_HOLDING) && negb (flag_set c flag) && flag_set c CF_ANSWERED in
  let c := put_flag flag value c in
  let c := if bool_decide (flag = CF_ORIGINATOR) && flag_set c CF_ANSWERED && up_nosig c
           then switch_channel_perform_set_callstate CCS_RING_WAIT c else c in
  let c :=
    if bool_decide (flag = CF_DIALPLAN) then
      match direction c with
      | SWITCH_CALL_DIRECTION_INBOUND =>
        with_device_node ((fun d => Device (device_callstate d) SWITCH_CALL_DIRECTION_INBOUND) <$> device_node c)
          (with_logical_direction SWITCH_CALL_DIRECTION_OUTBOUND c)
      | SWITCH_CALL_DIRECTION_OUTBOUND =>
        with_device_node ((fun d => Device (device_callstate d) SWITCH_CALL_DIRECTION_OUTBOUND) <$> device_node c)
          (with_logical_direction SWITCH_CALL_DIRECTION_INBOUND c)
      end
    else c in
  c ← (if HELD then begin_hold env c else Some c);
  Some (outbound_variables flag (Some (str "true")) c).

(** The macro switch_channel_set_flag. *)
Definition switch_channel_set_flag (env : session_env) (flag : switch_channel_flag) (c : channel) : option channel :=
  switch_channel_set_flag_value env flag 1 c.

(** The counter of a recursive flag is a uint32_t. *)
Definition switch_channel_set_flag_recursive (flag : switch_channel_flag) (c : channel) : channel :=
  let c := put_flag flag (u32 (switch_channel_test_flag c flag + 1)) c in
  outbound_variables flag (Some (str "true")) c.

Definition switch_channel_set_state_flag (flag : switch_channel_flag) (c : channel) : channel :=
  with_state_flags (<[cf flag := 1]> (<[0%nat := 1]> (state_flags c))) c.

Definition switch_channel_clear_state_flag (flag : switch_channel_flag) (c : channel) : channel :=
  with_state_flags (<[cf flag := 0]> (state_flags c)) c.

(** The end of a hold. *)
Definition end_hold (env : session_env) (c : channel) : option channel :=
  let c := switch_channel_perform_set_callstate CCS_UNHELD c in
  t ← times c;
  let c := if last_hold t =? 0 then c
           else with_times (Some (Timetable (last_hold t) (hold_accum t + (now env - last_hold t)))) c in
  let c := match hold_record c with
           | hr :: hrs => with_hold_record (Hold (hold_on hr) (now env) (hold_uuid hr) :: hrs) c
           | [] => c
           end in
  Some (if flag_set c CF_PROXY_MODE && flag_set c CF_BRIDGED
        then switch_channel_perform_set_callstate CCS_ACTIVE c else c).

Definition switch_channel_clear_flag (env : session_env) (flag : switch_channel_flag) (c : channel) : option channel :=
  let ACTIVE := bool_decide (flag = CF_LEG_HOLDING) && flag_set c flag && flag_set c CF_ANSWERED in
  let c := put_flag flag 0 c in
  let c :=
    if bool_decide (flag = CF_DIALPLAN) && bool_decide (direction c = SWITCH_CALL_DIRECTION_OUTBOUND)
    then with_device_node ((fun d => Device (device_callstate d) SWITCH_CALL_DIRECTION_INBOUND) <$> device_node c)
           (with_logical_direction SWITCH_CALL_DIRECTION_OUTBOUND c)
    else c in
  c ← (if ACTIVE then end_hold env c else Some c);
  let c := if bool_decide (flag = CF_ORIGINATOR) && flag_set c CF_ANSWERED && up_nosig c
           then switch_channel_perform_set_callstate CCS_ACTIVE c else c in
  Some (outbound_variables flag None c).

(** Only the is_outbound variable is cleared, whatever the count left. *)
Definition switch_channel_clear_flag_recursive (flag : switch_channel_flag) (c : channel) : channel :=
  let c := if flag_set c flag then put_flag flag (switch_channel_test_flag c flag - 1) c else c in
  if bool_decide (flag = CF_OUTBOUND) then set_variable (str "is_outbound") None c else c.

(** ** Channel state *)

(** The flags raised for the next state replace the current ones. *)
Fixpoint promote (fl sf : list Z) : list Z * list Z :=
  match fl, sf with
  | f :: fl, s :: sf =>
    let '(fl, sf) := promote fl sf in
    if s =? 0 then (f :: fl, s :: sf) else (1 :: fl, 0 :: sf)
  | _, _ => (fl, sf)
  end.

(** The loop over the flags 1..CF_FLAG_MAX-1, when element 0 says there are any. *)
Definition promote_state_flags (c : channel) : channel :=
  match flags c, state_flags c with
  | f0 :: fl, s0 :: sf =>
    if s0 =? 0 then c
    else let '(fl, sf) := promote fl sf in with_state_flags (0 :: sf) (with_flags (f0 :: fl) c)
  | _, _ => c
  end.

Definition switch_channel_perform_set_running_state (env : session_env) (st : switch_channel_state) (c : channel)
  : option channel :=
  let c := promote_state_flags c in
  c ← switch_channel_clear_flag env CF_TAGGED c;
  let c := with_running_state st c in
  if cs st <=? cs CS_DESTROY then
    let c :=
      if bool_decide (direction c = SWITCH_CALL_DIRECTION_INBOUND) && (cs st <? cs CS_HANGUP) then
        if bool_decide (st = CS_ROUTING) then switch_channel_perform_set_callstate CCS_RINGING c
        else if flag_set c CF_ANSWERED then switch_channel_perform_set_callstate CCS_ACTIVE c
        else if flag_set c CF_EARLY_MEDIA then switch_channel_perform_set_callstate CCS_EARLY c
        else c
      else c in
    Some (emit FireState c)
  else Some c.

(** The two nested switch statements of switch_channel_perform_set_state. *)
Definition state_change_ok (last_state st : switch_channel_state) : bool :=
  match last_state with
  | CS_NEW | CS_RESET => true
  | CS_INIT =>
    match st with
    | CS_EXCHANGE_MEDIA | CS_SOFT_EXECUTE | CS_ROUTING | CS_EXECUTE | CS_PARK | CS_CONSUME_MEDIA | CS_HIBERNATE | CS_RESET => true
    | _ => false
    end
  | CS_EXCHANGE_MEDIA =>
    match st with
    | CS_SOFT_EXECUTE | CS_ROUTING | CS_EXECUTE | CS_PARK | CS_CONSUME_MEDIA | CS_HIBERNATE | CS_RESET => true
    | _ => false
    end
  | CS_SOFT_EXECUTE =>
    match st with
    | CS_EXCHANGE_MEDIA | CS_ROUTING | CS_EXECUTE | CS_PARK | CS_CONSUME_MEDIA | CS_HIBERNATE | CS_RESET => true
    | _ => false
    end
  | CS_PARK =>
    match st with
    | CS_EXCHANGE_MEDIA | CS_ROUTING | CS_EXECUTE | CS_SOFT_EXECUTE | CS_HIBERNATE | CS_RESET | CS_CONSUME_MEDIA => true
    | _ => false
    end
  | CS_CONSUME_MEDIA =>
    match st with
    | CS_EXCHANGE_MEDIA | CS_ROUTING | CS_EXECUTE | CS_SOFT_EXECUTE | CS_HIBERNATE | CS_RESET | CS_PARK => true
    | _ => false
    end
  | CS_HIBERNATE =>
    match st with
    | CS_EXCHANGE_MEDIA | CS_INIT | CS_ROUTING | CS_EXECUTE | CS_SOFT_EXECUTE | CS_PARK | CS_CONSUME_MEDIA | CS_RESET => true
    | _ => false
    end
  | CS_ROUTING =>
    match st with
    | CS_EXCHANGE_MEDIA | CS_EXECUTE | CS_SOFT_EXECUTE | CS_PARK | CS_CONSUME_MEDIA | CS_HIBERNATE | CS_RESET => true
    | _ => false
    end
  | CS_EXECUTE =>
    match st with
    | CS_EXCHANGE_MEDIA | CS_SOFT_EXECUTE | CS_ROUTING | CS_PARK | CS_CONSUME_MEDIA | CS_HIBERNATE | CS_RESET => true
    | _ => false
    end
  | CS_HANGUP => match st with CS_REPORTING | CS_DESTROY => true | _ => false end
  | CS_REPORTING => match st with CS_DESTROY => true | _ => false end
  | CS_DESTROY | CS_NONE => false
  end.

(** [None]: one of the assertions failed. *)
Definition switch_channel_perform_set_state (st : switch_channel_state) (c : channel) : option channel :=
  let last_state := state c in
  if negb (cs st <=? cs CS_DESTROY) || negb (cs last_state <=? cs CS_DESTROY) then None
  else if bool_decide (last_state = st) then Some c
  else if (cs CS_HANGUP <=? cs last_state) && (cs st <? cs last_state) then Some c
  else if state_change_ok last_state st then
    let c := with_state st c in
    let c := if bool_decide (st = CS_HANGUP) && (hangup_cause c =? SWITCH_CAUSE_NONE)
             then with_hangup_cause SWITCH_CAUSE_NORMAL_CLEARING c else c in
    Some (emit SignalStateChange c)
  else if cs CS_HANGUP <=? cs (state c) then Some c
  else None.

Definition switch_channel_state_change_pending (env : session_env) (c : channel) : bool :=
  if negb (up_nosig c) || negb (in_thread env) then false else negb (bool_decide (running_state c = state c)).

(** switch_channel_test_ready; [codecs]: the session has a read and a write codec. *)
Definition switch_channel_test_ready (env : session_env) (codecs check_ready check_media : bool) (c : channel) : bool :=
  let ret := check_media && (flag_set c CF_ANSWERED || flag_set c CF_EARLY_MEDIA) && negb (flag_set c CF_PROXY_MODE) && codecs in
  if check_media && negb ret then false
  else if negb check_ready then ret
  else (hangup_cause c =? 0) && (cs CS_ROUTING <? cs (state c)) && (cs (state c) <? cs CS_HANGUP)
       && negb (bool_decide (state c = CS_RESET)) && negb (flag_set c CF_TRANSFER) && negb (flag_set c CF_NOT_READY)
       && negb (switch_channel_state_change_pending env c).

(** ** Hold and hangup *)

Definition switch_channel_mark_hold (env : session_env) (on : bool) (c : channel) : option channel :=
  c ← (if eqb on (flag_set c CF_LEG_HOLDING) then Some c
       else
         c ← (if on then switch_channel_set_flag env CF_LEG_HOLDING c else switch_channel_clear_flag env CF_LEG_HOLDING c);
         Some (emit (FireHold on) c));
  Some (if on && switch_true (get_variable env c (str "flip_record_on_hold")) && has_partner env
        then emit TransferRecordings c else c).

Definition OCF_HANGUP : Z := 1.

(** The part of switch_channel_perform_hangup for a channel that is still up. *)
Definition hangup_now (env : session_env) (cause : Z) (c : channel) : channel :=
  let c := match hold_record c with
           | hr :: hrs => if hold_off hr =? 0 then with_hold_record (Hold (hold_on hr) (now env) (hold_uuid hr) :: hrs) c else c
           | [] => c
           end in
  let c := with_hangup_cause cause (with_state CS_HANGUP c) in
  let c := emit (SetPartnerVariable (str "last_bridge_hangup_cause") (switch_channel_cause2str cause)) c in
  let c := match get_variable env c (str "proto_specific_hangup_cause") with
           | Some var => emit (SetPartnerVariable (str "last_bridge_proto_specific_hangup_cause") var) c
           | None => c
           end in
  let c := if flag_set c CF_BRIDGE_ORIGINATOR then set_variable (str "last_bridge_role") (Some (str "originator")) c
           else if flag_set c CF_BRIDGED then set_variable (str "last_bridge_role") (Some (str "originatee")) c
           else c in
  let c := if negb (session_running env) && negb (session_started env) then emit LaunchThread c else c in
  emit SessionHangupState (emit SignalStateChange (emit KillChannel (emit FireHangup c))).

Definition switch_channel_perform_hangup (env : session_env) (cause : Z) (c : channel) : option channel :=
  let ok := Z.land (opaque_flags c) OCF_HANGUP =? 0 in
  let c := if ok then with_opaque_flags (Z.lor (opaque_flags c) OCF_HANGUP) c else c in
  c ← (if flag_set c CF_LEG_HOLDING
       then c ← switch_channel_mark_hold env false c; switch_channel_set_flag env CF_HANGUP_HELD c
       else Some c);
  if negb ok then Some c
  else
    c ← switch_channel_clear_flag env CF_BLOCK_STATE c;
    Some (if cs (state c) <? cs CS_HANGUP then hangup_now env cause c else c).

(** ** State handlers *)

Fixpoint find_handler (hs : list (option state_handler)) (h : state_handler) (x : Z) : option Z :=
  match hs with
  | [] => None
  | h' :: hs => if bool_decide (h' = Some h) then Some x else find_handler hs h (x + 1)
  end.

(** The index of the handler, or -1; the counter moves even when there is no room. *)
Definition switch_channel_add_state_handler (h : state_handler) (c : channel) : channel * Z :=
  match find_handler (state_handlers c) h 0 with
  | Some x => (c, x)
  | None =>
    let index := state_handler_index c in
    let c := with_state_handler_index (index + 1) c in
    if SWITCH_MAX_STATE_HANDLERS <=? state_handler_index c then (c, -1)
    else (with_state_handlers (<[Z.to_nat index := Some h]> (state_handlers c)) c, index)
  end.

Definition switch_channel_get_state_handler (c : channel) (index : Z) : option state_handler :=
  if (SWITCH_MAX_STATE_HANDLERS <=? index) || (state_handler_index c <? index) then None
  else default None (state_handlers c !! Z.to_nat index).

(** The entries below [i] that are kept; [None]: an index outside of the array. *)
Fixpoint keep_handlers (keep : option state_handler -> bool) (hs : list (option state_handler)) (i : nat)
  : option (list (option state_handler)) :=
  match i, hs with
  | O, _ => Some []
  | S i, h :: hs => new ← keep_handlers keep hs i; Some (if keep h then h :: new else new)
  | S _, [] => None
  end.

(** Is the entry [x] kept when [h] is cleared, or all but the sticky ones? *)
Definition keep_handler (h x : option state_handler) : bool :=
  match h with
  | Some h => negb (bool_decide (x = Some h))
  | None => match x with Some y => test_flag (sh_flags y) SSH_FLAG_STICKY | None => false end
  end.

Definition switch_channel_clear_state_handler (h : option state_handler) (c : channel) : option channel :=
  new ← keep_handlers (keep_handler h) (state_handlers c) (Z.to_nat (state_handler_index c));
  let c := with_state_handler_index (zlen new) c in
  Some (with_state_handlers (new ++ replicate (Z.to_nat SWITCH_MAX_STATE_HANDLERS - length new) None) c).

(** ** Creation *)

Definition CC_FLAG_MAX : nat := 7.

(** switch_channel_alloc on zeroed memory. *)
Definition switch_channel_alloc (dir : switch_call_direction) : channel :=
  let outbound := match dir with SWITCH_CALL_DIRECTION_OUTBOUND => true | SWITCH_CALL_DIRECTION_INBOUND => false end in
  Channel dir dir CS_NEW CS_NEW CCS_DOWN (replicate CF_FLAG_MAX 0) (replicate CF_FLAG_MAX 0) (replicate CC_FLAG_MAX 0) 0
    None (replicate (Z.to_nat SWITCH_MAX_STATE_HANDLERS) None) 0 (ChannelVars.vars_alloc outbound) SWITCH_CAUSE_NONE 0 [] None [].

Definition switch_channel_init (env : session_env) (st : switch_channel_state) (flag : switch_channel_flag) (c : channel)
  : option channel :=
  c ← switch_channel_set_flag env flag (with_state st c);
  Some (with_running_state CS_NONE c).

(** The profile the endpoint attaches, with its times. *)
Definition attach_profile (c : channel) : channel := with_times (Some (Timetable 0 0)) c.

(** ** What an operation leaves alone

    Most operations keep the state, the hangup cause and the hangup mark, do
    not announce a hangup and announce every change of the call state; they are
    [calm]. *)

(** The call state that a listener of the CHANNEL_CALLSTATE events computes:
    each event must start where the last one ended, change something and not
    leave CCS_HANGUP. *)
Fixpoint replay (o : switch_channel_callstate) (es : list effect) : option switch_channel_callstate :=
  match es with
  | [] => Some o
  | FireCallstate a b :: es =>
    if bool_decide (a = o /\ a <> b /\ a <> CCS_HANGUP) then replay b es else None
  | _ :: es => replay o es
  end.

Lemma replay_app es1 es2 : forall o, replay o (es1 ++ es2) = m ← replay o es1; replay m es2.
Proof.
  induction es1 as [|e es1 IH]; intros o; [done|].
  destruct e; simpl; rewrite ?IH; try done. by case_bool_decide.
Qed.

Lemma replay_hangup es n : replay CCS_HANGUP es = Some n -> n = CCS_HANGUP.
Proof.
  induction es as [|e es IH]; [by intros [= <-]|]. destruct e; simpl; try done.
  case_bool_decide as H; [|done]. by destruct H as (-> & _ & H).
Qed.

Record calm (c c' : channel) : Prop := Calm {
  calm_state : state c' = state c;
  calm_cause : hangup_cause c' = hangup_cause c;
  calm_opaque : opaque_flags c' = opaque_flags c;
  calm_trace : exists es, trace c' = trace c ++ es /\ (FireHangup ∉ es) /\ replay (callstate c) es = Some (callstate c')
}.

#[local] Instance calm_preorder : PreOrder calm.
Proof.
  split.
  - intros c. split; [done..|]. exists []. rewrite app_nil_r. split_and!; [done|apply not_elem_of_nil|done].
  - intros c1 c2 c3 [S1 C1 O1 (e1 & T1 & N1 & R1)] [S2 C2 O2 (e2 & T2 & N2 & R2)].
    split; [congruence..|]. exists (e1 ++ e2). rewrite T2, T1, app_assoc, replay_app, R1. split_and!; try done. by intros [?|?]%elem_of_app.
Qed.

(** A record update of any other field is calm. *)
Lemma calm_same c c' : state c' = state c -> hangup_cause c' = hangup_cause c -> opaque_flags c' = opaque_flags c ->
  trace c' = trace c -> callstate c' = callstate c -> calm c c'.
Proof.
  intros ??? Ht Hc. split; [done..|]. exists []. rewrite app_nil_r. split_and!; [done|apply not_elem_of_nil|by rewrite Hc].
Qed.

Lemma calm_emit e c : e <> FireHangup -> (forall a b, e <> FireCallstate a b) -> calm c (emit e c).
Proof.
  intros Hh Hc. split; [done..|]. exists [e]. split_and!; [done|by intros <-%list_elem_of_singleton|]. destruct e; try done. by destruct (Hc old new).
Qed.

Create HintDb calm.
#[local] Hint Extern 1 (calm _ (emit _ _)) => apply calm_emit; done : calm.

Lemma set_callstate_calm cst c : calm c (switch_channel_perform_set_callstate cst c).
Proof.
  unfold switch_channel_perform_set_callstate.
  destruct (bool_decide (callstate c = cst) || bool_decide (callstate c = CCS_HANGUP)) eqn:Hb; [reflexivity|].
  apply orb_false_iff in Hb as [H1%bool_decide_eq_false H2%bool_decide_eq_false].
  split; [done..|]. exists [CheckDeviceState cst; FireCallstate (callstate c) cst].
  split_and!; [simpl; by rewrite <-app_assoc|by rewrite !not_elem_of_cons; split_and!; try apply not_elem_of_nil|]. simpl. by rewrite bool_decide_eq_true_2.
Qed.

(** [calm_steps] composes the calm parts of an operation. *)
Ltac calm_steps :=
  repeat first
    [ reflexivity
    | match goal with
      | |- calm ?c (emit ?e ?d) => transitivity d; [|by apply calm_emit]
      | |- calm ?c (switch_channel_perform_set_callstate ?s ?d) => transitivity d; [|apply set_callstate_calm]
      | |- calm ?c (with_device_node ?x ?d) => transitivity d; [|by apply calm_same]
      | |- calm ?c (with_logical_direction ?x ?d) => transitivity d; [|by apply calm_same]
      | |- calm ?c (with_times ?x ?d) => transitivity d; [|by apply calm_same]
      | |- calm ?c (with_hold_record ?x ?d) => transitivity d; [|by apply calm_same]
      | |- calm ?c (with_cvars ?x ?d) => transitivity d; [|by apply calm_same]
      | |- calm ?c (with_flags ?x ?d) => transitivity d; [|by apply calm_same]
      | |- calm ?c (with_state_flags ?x ?d) => transitivity d; [|by apply calm_same]
      | |- calm ?c (with_running_state ?x ?d) => transitivity d; [|by apply calm_same]
      | |- calm _ (if ?b then _ else _) => destruct b
      | |- calm _ (match ?b with _ => _ end) => destruct b
      end ].

Lemma put_flag_calm f v c : calm c (put_flag f v c).
Proof. by apply calm_same. Qed.

Lemma outbound_variables_calm f v c : calm c (outbound_variables f v c).
Proof. unfold outbound_variables, set_variable. calm_steps. Qed.

Lemma begin_hold_calm env c c' : begin_hold env c = Some c' -> calm c c'.
Proof. unfold begin_hold. intros (t & _ & [= <-])%bind_Some. calm_steps. Qed.

Lemma end_hold_calm env c c' : end_hold env c = Some c' -> calm c c'.
Proof. unfold end_hold. intros (t & _ & [= <-])%bind_Some. calm_steps. Qed.

Lemma set_flag_calm env f v c c' : switch_channel_set_flag_value env f v c = Some c' -> calm c c'.
Proof.
  unfold switch_channel_set_flag_value. intros (d & Hd & [= <-])%bind_Some.
  transitivity d; [|apply outbound_variables_calm].
  match type of Hd with (if _ then begin_hold _ ?e else _) = _ => transitivity e end.
  - transitivity (put_flag f v c); [apply put_flag_calm|]. calm_steps.
  - destruct (_ && flag_set c CF_ANSWERED); [by eapply begin_hold_calm|by simplify_eq].
Qed.

Lemma clear_flag_calm env f c c' : switch_channel_clear_flag env f c = Some c' -> calm c c'.
Proof.
  unfold switch_channel_clear_flag. intros (d & Hd & [= <-])%bind_Some.
  transitivity d; [|etransitivity; [|apply outbound_variables_calm]; calm_steps].
  match type of Hd with (if _ then end_hold _ ?e else _) = _ => transitivity e end.
  - transitivity (put_flag f 0 c); [apply put_flag_calm|]. calm_steps.
  - destruct (_ && flag_set c CF_ANSWERED); [by eapply end_hold_calm|by simplify_eq].
Qed.

Lemma promote_calm c : calm c (promote_state_flags c).
Proof. unfold promote_state_flags. calm_steps. Qed.

Lemma set_running_state_calm env st c c' : switch_channel_perform_set_running_state env st c = Some c' -> calm c c'.
Proof.
  unfold switch_channel_perform_set_running_state. intros (d & Hd%clear_flag_calm & Hc)%bind_Some.
  transitivity d; [etransitivity; [apply promote_calm|done]|].
  destruct (cs st <=? cs CS_DESTROY); simplify_eq; calm_steps.
Qed.

Lemma mark_hold_calm env on c c' : switch_channel_mark_hold env on c = Some c' -> calm c c'.
Proof.
  unfold switch_channel_mark_hold. intros (d & Hd & [= <-])%bind_Some. transitivity d; [|calm_steps].
  destruct (eqb _ _); [by simplify_eq|]. apply bind_Some in Hd as (e & He & [= <-]). transitivity e; [|calm_steps].
  destruct on; [by eapply set_flag_calm|by eapply clear_flag_calm].
Qed.

(** ** Histories of a channel *)

Inductive chan_step : channel -> channel -> Prop :=
| step_set_state st c c' : switch_channel_perform_set_state st c = Some c' -> chan_step c c'
| step_running_state env st c c' : switch_channel_perform_set_running_state env st c = Some c' -> chan_step c c'
| step_callstate cst c : chan_step c (switch_channel_perform_set_callstate cst c)
| step_set_flag env f v c c' : switch_channel_set_flag_value env f v c = Some c' -> chan_step c c'
| step_clear_flag env f c c' : switch_channel_clear_flag env f c = Some c' -> chan_step c c'
| step_set_recursive f c : chan_step c (switch_channel_set_flag_recursive f c)
| step_clear_recursive f c : chan_step c (switch_channel_clear_flag_recursive f c)
| step_set_state_flag f c : chan_step c (switch_channel_set_state_flag f c)
| step_clear_state_flag f c : chan_step c (switch_channel_clear_state_flag f c)
| step_hold env on c c' : switch_channel_mark_hold env on c = Some c' -> chan_step c c'
| step_hangup env cause c c' : switch_channel_perform_hangup env cause c = Some c' -> chan_step c c'
| step_add_handler h c : chan_step c (switch_channel_add_state_handler h c).1
| step_clear_handler h c c' : switch_channel_clear_state_handler h c = Some c' -> chan_step c c'
| step_variable name v c : chan_step c (set_variable name v c).

(** The three kinds of step: calm, a change of state, a hangup. *)
Lemma set_state_cases st c c' : switch_channel_perform_set_state st c = Some c' ->
  c' = c \/ (state_change_ok (state c) st = true /\ ~ (cs CS_HANGUP <= cs (state c) /\ cs st < cs (state c))
             /\ state c' = st /\ opaque_flags c' = opaque_flags c
             /\ callstate c' = callstate c /\ trace c' = trace c ++ [SignalStateChange]
             /\ hangup_cause c' = if bool_decide (st = CS_HANGUP) && (hangup_cause c =? 0) then 16 else hangup_cause c).
Proof.
  unfold switch_channel_perform_set_state, SWITCH_CAUSE_NONE, SWITCH_CAUSE_NORMAL_CLEARING.
  destruct (_ || _); [done|]. case_bool_decide; [intros [= <-]; by left|].
  destruct ((cs CS_HANGUP <=? cs (state c)) && (cs st <? cs (state c))) eqn:Hm; [intros [= <-]; by left|].
  destruct (state_change_ok _ _) eqn:Hok.
  - intros [= <-]. right. split_and!; try (by destruct (_ && (_ =? _))); [done|].
    intros [H1 H2]. apply andb_false_iff in Hm. rewrite Z.leb_gt, Z.ltb_ge in Hm. lia.
  - destruct (cs CS_HANGUP <=? cs (state c)); intros [= <-]. by left.
Qed.

Definition hangups (es : list effect) : nat := length (filter (fun e => e = FireHangup) es).

Lemma hangups_app a b : hangups (a ++ b) = (hangups a + hangups b)%nat.
Proof. unfold hangups. by rewrite filter_app, length_app. Qed.

Lemma hangups_none es : FireHangup ∉ es -> hangups es = 0%nat.
Proof.
  intros H. unfold hangups. induction es as [|e es IH]; [done|]. rewrite filter_cons.
  apply not_elem_of_cons in H as [He Hes]. rewrite decide_False by done. by apply IH.
Qed.

Lemma hangup_now_spec env cause c : exists es,
  state (hangup_now env cause c) = CS_HANGUP /\ hangup_cause (hangup_now env cause c) = cause
  /\ opaque_flags (hangup_now env cause c) = opaque_flags c /\ callstate (hangup_now env cause c) = callstate c
  /\ trace (hangup_now env cause c) = trace c ++ es
  /\ (forall o, replay o es = Some o) /\ hangups es = 1%nat.
Proof.
  unfold hangup_now.
  destruct (hold_record c) as [|hr hrs]; [|destruct (hold_off hr =? 0)]; cbv zeta;
    (destruct (get_variable _ _ _) as [var|]; cbv zeta; cbn [fst snd];
     (destruct (flag_set _ CF_BRIDGE_ORIGINATOR); [|destruct (flag_set _ CF_BRIDGED)]);
     destruct (_ && negb (session_started env)); eexists;
     (split_and!; [reflexivity..|cbn; rewrite <-!app_assoc; reflexivity|done|reflexivity])).
Qed.


Lemma perform_hangup_cases env cause c c' : switch_channel_perform_hangup env cause c = Some c' ->
  calm c c'
  \/ (Z.land (opaque_flags c) OCF_HANGUP = 0 /\ Z.land (opaque_flags c') OCF_HANGUP <> 0
      /\ exists d, calm (with_opaque_flags (Z.lor (opaque_flags c) OCF_HANGUP) c) d
         /\ (c' = d \/ (cs (state c) < cs CS_HANGUP /\ c' = hangup_now env cause d))).
Proof.
  unfold switch_channel_perform_hangup. destruct (Z.eqb_spec (Z.land (opaque_flags c) OCF_HANGUP) 0) as [Ho|Ho];
    cbn [negb]; intros (d & Hd & Hc)%bind_Some.
  - right. set (c1 := with_opaque_flags _ c) in *.
    assert (calm c1 d) as Hcalm.
    { destruct (flag_set c1 CF_LEG_HOLDING); [|by simplify_eq].
      apply bind_Some in Hd as (e & He%mark_hold_calm & Hd%set_flag_calm). by transitivity e. }
    apply bind_Some in Hc as (e & He%clear_flag_calm & Hc). assert (calm c1 e) as Hce by (by transitivity d).
    assert (forall x, opaque_flags x = opaque_flags c1 -> Z.land (opaque_flags x) OCF_HANGUP <> 0) as Hne.
    { intros x ->. unfold c1. simpl. rewrite Z.land_lor_distr_l. unfold OCF_HANGUP. simpl.
      intros H%Z.lor_eq_0_iff. by destruct H. }
    assert (opaque_flags e = opaque_flags c1) as Hoe by apply Hce.
    split; [done|]. destruct (Z.ltb_spec (cs (state e)) (cs CS_HANGUP)) as [Hs|Hs]; injection Hc as <-.
    + destruct (hangup_now_spec env cause e) as (es & _ & _ & Ho' & _).
      split; [apply Hne; congruence|]. exists e. split; [done|]. right. split; [|done].
      assert (state e = state c) as <- by apply Hce. lia.
    + split; [by apply Hne|]. exists e. split; [done|by left].
  - left. injection Hc as <-. destruct (flag_set c CF_LEG_HOLDING); [|by simplify_eq].
    apply bind_Some in Hd as (e & He%mark_hold_calm & Hd%set_flag_calm). by transitivity e.
Qed.

(** Every step other than a change of state and a hangup is calm. *)
Lemma chan_step_cases c c' : chan_step c c' ->
  calm c c' \/ (exists st, switch_channel_perform_set_state st c = Some c')
  \/ (exists env cause, switch_channel_perform_hangup env cause c = Some c').
Proof.
  destruct 1 as [st c c' H|env st c c' H|cst c|env f v c c' H|env f c c' H|f c|f c|f c|f c|env on c c' H|env cause c c' H|h c|h c c' H|name v c];
    eauto; left.
  - by eapply set_running_state_calm.
  - apply set_callstate_calm.
  - by eapply set_flag_calm.
  - by eapply clear_flag_calm.
  - unfold switch_channel_set_flag_recursive. etransitivity; [apply put_flag_calm|apply outbound_variables_calm].
  - unfold switch_channel_clear_flag_recursive, set_variable, put_flag. calm_steps.
  - by apply calm_same.
  - by apply calm_same.
  - by eapply mark_hold_calm.
  - unfold switch_channel_add_state_handler. repeat case_match; simplify_eq/=; by apply calm_same.
  - unfold switch_channel_clear_state_handler in H. apply bind_Some in H as (new & _ & [= <-]). by apply calm_same.
  - by apply calm_same.
Qed.

(** What every step keeps of a channel that is down, and the announcements it makes. *)
Record teardown (c c' : channel) : Prop := Teardown {
  td_state : cs CS_HANGUP <= cs (state c) -> cs (state c) <= cs (state c') /\ hangup_cause c' = hangup_cause c;
  td_trace : exists es, trace c' = trace c ++ es /\ replay (callstate c) es = Some (callstate c')
    /\ (hangups es <= 1)%nat
    /\ (hangups es = 1%nat -> Z.land (opaque_flags c) OCF_HANGUP = 0 /\ Z.land (opaque_flags c') OCF_HANGUP <> 0);
  td_mark : Z.land (opaque_flags c) OCF_HANGUP <> 0 -> Z.land (opaque_flags c') OCF_HANGUP <> 0
}.

Lemma calm_teardown c c' : calm c c' -> teardown c c'.
Proof.
  intros [S C O (es & T & N & R)]. split.
  - intros _. rewrite S. lia.
  - exists es. rewrite (hangups_none es) by done. split_and!; [done..|lia|done].
  - by rewrite O.
Qed.

Lemma set_state_teardown st c c' : switch_channel_perform_set_state st c = Some c' -> teardown c c'.
Proof.
  intros [-> | (Hok & Hm & Hs & Ho & Hc & Ht & Hcause)]%set_state_cases; [by apply calm_teardown|].
  split.
  - intros Hd. rewrite Hs, Hcause. split; [lia|]. case_bool_decide as Hst; [|done].
    rewrite Hst in Hok. destruct (state c); done.
  - exists [SignalStateChange]. rewrite Hc. split_and!; [done..|vm_compute; lia|done].
  - by rewrite Ho.
Qed.

Lemma perform_hangup_teardown env cause c c' : switch_channel_perform_hangup env cause c = Some c' -> teardown c c'.
Proof.
  intros [Hcalm | (Ho & Ho' & d & [S C O (es & T & N & R)] & Hd)]%perform_hangup_cases; [by apply calm_teardown|].
  cbn [with_opaque_flags state hangup_cause trace callstate] in *.
  destruct Hd as [-> | [Hup ->]].
  - split; [rewrite S; lia| |done]. exists es. rewrite (hangups_none es) by done. split_and!; [done..|lia|done].
  - destruct (hangup_now_spec env cause d) as (es' & _ & _ & _ & Hcs & Ht & Hr & Hn).
    split; [lia| |done]. exists (es ++ es'). rewrite Ht, T, app_assoc, replay_app, R, hangups_app, (hangups_none es), Hn by done.
    cbn [mbind option_bind]. rewrite Hr, Hcs. split_and!; [done..|lia|done].
Qed.

Lemma chan_step_teardown c c' : chan_step c c' -> teardown c c'.
Proof.
  intros [H|[[st H]|(env & cause & H)]]%chan_step_cases;
    [by apply calm_teardown|by eapply set_state_teardown|by eapply perform_hangup_teardown].
Qed.

Lemma rtc_teardown c c' :
  rtc chan_step c c' ->
  (cs CS_HANGUP <= cs (state c) -> cs (state c) <= cs (state c') /\ hangup_cause c' = hangup_cause c)
  /\ (callstate c = CCS_HANGUP -> callstate c' = CCS_HANGUP).
Proof.
  induction 1 as [c|c d c' Hstep%chan_step_teardown _ [IHs IHc]]; [split; [lia|done]|].
  destruct Hstep as [Hs (es & _ & Hr & _) _]. split.
  - intros H. destruct (Hs H) as [H1 H2]. destruct IHs as [H3 H4]; [lia|]. split; [lia|congruence].
  - intros H. rewrite H in Hr. by apply replay_hangup in Hr; auto.
Qed.

(** C1: teardown is irrevocable.  Once the state of a channel has reached
    CS_HANGUP, no sequence of operations brings it back or changes its hangup
    cause, and a call state of CCS_HANGUP is never left. *)
Theorem channel_teardown_final c c' :
  rtc chan_step c c' ->
  (cs CS_HANGUP <= cs (state c) -> cs (state c) <= cs (state c') /\ hangup_cause c' = hangup_cause c)
  /\ (callstate c = CCS_HANGUP -> callstate c' = CCS_HANGUP).
Proof. apply rtc_teardown. Qed.

(** The announcements a channel has made. *)
Definition announced (c : channel) : Prop :=
  (hangups (trace c) <= 1)%nat /\ replay CCS_DOWN (trace c) = Some (callstate c)
  /\ (hangups (trace c) = 1%nat -> Z.land (opaque_flags c) OCF_HANGUP <> 0).

Lemma chan_step_announced c c' : chan_step c c' -> announced c -> announced c'.
Proof.
  intros [_ (es & Ht & Hr & Hle & H1) Hm]%chan_step_teardown (IHn & IHr & IHo).
  unfold announced. rewrite Ht, hangups_app, replay_app, IHr. split_and!; [|done|].
  - destruct (hangups es) as [|[|n]]; [lia| |lia]. destruct (H1 eq_refl) as [Hz _].
    destruct (hangups (trace c)) as [|[|m]]; [lia| |lia]. by destruct IHo.
  - intros Hone. destruct (hangups es) as [|[|n]] eqn:Hes; [apply Hm, IHo; lia|by apply H1|lia].
Qed.

Lemma init_announced dir env st flag c :
  switch_channel_init env st flag (switch_channel_alloc dir) = Some c -> announced c.
Proof.
  unfold switch_channel_init. intros (d & [_ _ O (es & T & N & R)]%set_flag_calm & [= <-])%bind_Some.
  unfold announced. cbn [with_running_state trace callstate opaque_flags]. simpl in T, R.
  rewrite T, (hangups_none es), R by done. split_and!; [lia|done..].
Qed.

(** A hangup is announced once and call states are announced completely.
    From the creation of a channel, any sequence of operations fires at most
    one CHANNEL_HANGUP event, and the CHANNEL_CALLSTATE events form a chain
    from CCS_DOWN to the current call state: each starts where the previous one
    ended. *)
Theorem channel_announcements dir env st flag c0 c :
  switch_channel_init env st flag (switch_channel_alloc dir) = Some c0 -> rtc chan_step c0 c ->
  (hangups (trace c) <= 1)%nat /\ replay CCS_DOWN (trace c) = Some (callstate c).
Proof.
  intros Hinit%init_announced Hsteps. assert (announced c) as (? & ? & _); [|done].
  induction Hsteps as [|x y z Hs _ IH]; [done|]. apply IH. by eapply chan_step_announced.
Qed.

(** The states a running channel may be moved to: any working state or a reset. *)
Definition working (s : switch_channel_state) : bool :=
  match s with
  | CS_ROUTING | CS_SOFT_EXECUTE | CS_EXECUTE | CS_EXCHANGE_MEDIA | CS_PARK | CS_CONSUME_MEDIA | CS_HIBERNATE | CS_RESET => true
  | _ => false
  end.

(** C4: the state transitions switch_channel_set_state performs.  From CS_NEW
    and CS_RESET every state up to CS_DESTROY is entered, CS_HANGUP and the states
    behind it included.  From any other state before CS_HANGUP the working states
    and CS_RESET are entered, the state the channel is in is kept, and CS_INIT is
    entered only from CS_HIBERNATE; every other request aborts the program, in
    particular one for CS_HANGUP, CS_REPORTING or CS_DESTROY.  A channel that is
    down only advances, and other requests are ignored.  A channel in CS_NONE, or
    a request for it, aborts the program. *)
Theorem set_state_transitions c st :
  state <$> switch_channel_perform_set_state st c =
    if bool_decide (state c = CS_NONE) || bool_decide (st = CS_NONE) then None
    else if cs CS_HANGUP <=? cs (state c) then Some (if cs (state c) <=? cs st then st else state c)
    else if bool_decide (state c = st) || bool_decide (state c = CS_NEW) || bool_decide (state c = CS_RESET)
            || working st || (bool_decide (state c = CS_HIBERNATE) && bool_decide (st = CS_INIT))
         then Some st
    else None.
Proof.
  destruct c as [? ? s0 ? ? ? ? ? ? ? ? ? ? cause ? ? ? ?]. cbn [state] in *.
  destruct s0, st; try (vm_compute; reflexivity);
    unfold switch_channel_perform_set_state; cbn; by destruct (cause =? SWITCH_CAUSE_NONE).
Qed.


(** ** Flags raised for the next state *)

Lemma promote_spec fl : forall sf, length fl = length sf ->
  length (promote fl sf).1 = length fl /\ length (promote fl sf).2 = length sf
  /\ (forall i, (promote fl sf).1 !! i = match sf !! i with Some s => if s =? 0 then fl !! i else Some 1 | None => None end)
  /\ (forall i s, (promote fl sf).2 !! i = Some s -> s = 0).
Proof.
  induction fl as [|f fl IH]; intros [|s sf] Hlen; simplify_eq/=; [done|].
  destruct (IH sf Hlen) as (H1 & H2 & H3 & H4). destruct (promote fl sf) as [fl' sf']. simpl in *.
  destruct (Z.eqb_spec s 0) as [->|Hs]; simpl.
  - split_and!; [lia..| |]; intros [|i]; simpl; eauto. congruence.
  - split_and!; [lia..| |]; intros [|i]; simpl; eauto; [by rewrite (proj2 (Z.eqb_neq s 0)) by done|congruence].
Qed.

Lemma set_callstate_fields s c :
  flags (switch_channel_perform_set_callstate s c) = flags c
  /\ state_flags (switch_channel_perform_set_callstate s c) = state_flags c
  /\ running_state (switch_channel_perform_set_callstate s c) = running_state c.
Proof. unfold switch_channel_perform_set_callstate. by destruct (_ || _). Qed.

Lemma running_state_fields env st c : exists c', switch_channel_perform_set_running_state env st c = Some c'
  /\ running_state c' = st
  /\ flags c' = <[cf CF_TAGGED := 0]> (flags (promote_state_flags c))
  /\ state_flags c' = state_flags (promote_state_flags c).
Proof.
  unfold switch_channel_perform_set_running_state, switch_channel_clear_flag. cbn -[cs set_callstate_fields promote_state_flags].
  set (d := promote_state_flags c). destruct (cs st <=? cs CS_DESTROY); eexists; (split; [done|]); [|done].
  destruct (_ && (cs st <? cs CS_HANGUP)); [|done]. repeat case_match; cbn [emit with_trace running_state flags state_flags]; try done.
  all: match goal with |- context [switch_channel_perform_set_callstate ?s ?x] =>
         destruct (set_callstate_fields s x) as (-> & -> & ->) end; done.
Qed.

(** A well-formed channel has an entry for each flag in both arrays. *)
Definition flag_arrays (c : channel) : Prop := length (flags c) = CF_FLAG_MAX /\ length (state_flags c) = CF_FLAG_MAX.

(** [switch_channel_set_state_flag] marks a flag for the next state. *)
Definition raised (c : channel) (f : switch_channel_flag) : bool :=
  negb (default 0 (state_flags c !! 0%nat) =? 0) && negb (default 0 (state_flags c !! cf f) =? 0).

Lemma cf_bounds f : (0 < cf f < CF_FLAG_MAX)%nat.
Proof. destruct f; vm_compute; lia. Qed.

Lemma promote_flags c f : flag_arrays c ->
  default 0 (flags (promote_state_flags c) !! cf f) = if raised c f then 1 else switch_channel_test_flag c f.
Proof.
  intros [Hf Hs]. unfold promote_state_flags, raised, switch_channel_test_flag. pose proof (cf_bounds f) as Hb.
  destruct (flags c) as [|f0 fl] eqn:Hfl; [done|]. destruct (state_flags c) as [|s0 sf] eqn:Hsf; [done|].
  destruct (cf f) as [|i]; [lia|]. simpl in Hf, Hs, Hb. change ((s0 :: sf) !! 0%nat) with (Some s0).
  change ((s0 :: sf) !! S i) with (sf !! i). change ((f0 :: fl) !! S i) with (fl !! i).
  destruct (lookup_lt_is_Some_2 sf i) as [s Hi]; [unfold CF_FLAG_MAX in *; lia|]. rewrite Hi.
  cbn [default from_option]. unfold id. destruct (Z.eqb_spec s0 0); cbn [negb andb]; [by rewrite Hfl|].
  destruct (promote_spec fl sf) as (_ & _ & H3 & _); [lia|]. specialize (H3 i). rewrite Hi in H3.
  destruct (promote fl sf) as [fl' sf']. cbn [fst] in H3. cbn [with_state_flags with_flags flags].
  change ((f0 :: fl') !! S i) with (fl' !! i). rewrite H3. by destruct (s =? 0).
Qed.

(** Flags raised for the next state take effect when it runs.  Setting the
    running state turns every flag marked by switch_channel_set_state_flag on,
    clears CF_TAGGED, leaves all other flags alone, and leaves no flag marked. *)
Theorem running_state_raises_flags env st c :
  flag_arrays c ->
  exists c', switch_channel_perform_set_running_state env st c = Some c' /\ running_state c' = st
    /\ (forall f, switch_channel_test_flag c' f =
          if decide (f = CF_TAGGED) then 0 else if raised c f then 1 else switch_channel_test_flag c f)
    /\ (forall f, raised c' f = false).
Proof.
  intros Hwf. destruct (running_state_fields env st c) as (c' & Hrun & Hst & Hf & Hsf).
  exists c'. split_and!; [done..| |].
  - intros f. unfold switch_channel_test_flag at 1. rewrite Hf. case_decide as Hd.
    + subst f. rewrite list_lookup_insert. case_decide; [done|].
      by rewrite lookup_ge_None_2 by (destruct Hwf; unfold promote_state_flags in *; lia).
    + rewrite list_lookup_insert_ne by (intros ?%cf_inj; congruence). by apply promote_flags.
  - intros f. unfold raised. rewrite Hsf. unfold promote_state_flags. destruct Hwf as [Hlf Hls].
    destruct (flags c) as [|f0 fl] eqn:Hfl; [done|]. destruct (state_flags c) as [|s0 sf] eqn:Hsf0; [done|].
    destruct (Z.eqb_spec s0 0) as [->|Hs0]; [by rewrite Hsf0|].
    by destruct (promote fl sf).
Qed.

(** ** State handlers *)

(** The handlers in the order they run; one slot of the array is never used. *)
Record handler_table (c : channel) (hs : list state_handler) : Prop := {
  ht_array : state_handlers c = (Some <$> hs) ++ replicate (30 - length hs) None;
  ht_index : state_handler_index c = zlen hs;
  ht_room : (length hs <= 29)%nat;
  ht_nodup : NoDup hs
}.

Lemma find_handler_none hs h n : forall x, h ∉ hs -> find_handler ((Some <$> hs) ++ replicate n None) h x = None.
Proof.
  induction hs as [|h' hs IH]; intros x Hn; simpl.
  - revert x. induction n as [|n IHn]; intros x; simpl; [done|apply IHn].
  - apply not_elem_of_cons in Hn as [Hne Hn]. rewrite bool_decide_eq_false_2 by congruence. by apply IH.
Qed.

Lemma find_handler_some hs h r : forall x i, NoDup hs -> hs !! i = Some h ->
  find_handler ((Some <$> hs) ++ r) h x = Some (x + Z.of_nat i).
Proof.
  induction hs as [|h' hs IH]; intros x i Hnd Hi; [done|]. apply NoDup_cons in Hnd as [Hn Hnd].
  rewrite fmap_cons. cbn [app find_handler]. destruct i as [|i].
  { injection Hi as ->. rewrite bool_decide_eq_true_2 by done. f_equal. lia. }
  change (hs !! i = Some h) in Hi. rewrite bool_decide_eq_false_2.
  - rewrite (IH (x + 1) i) by done. f_equal. lia.
  - intros [= ->]. apply Hn. by eapply list_elem_of_lookup_2.
Qed.

Lemma keep_handlers_prefix keep hs r :
  keep_handlers keep ((Some <$> hs) ++ r) (length hs) = Some (Some <$> filter (fun h => keep (Some h) = true) hs).
Proof.
  induction hs as [|h hs IH]; [by destruct r|]. rewrite fmap_cons. cbn [length app keep_handlers]. rewrite IH. simpl.
  rewrite filter_cons. destruct (keep (Some h)) eqn:Hk; [by rewrite decide_True|]. by rewrite decide_False by congruence.
Qed.

Lemma length_filter_le {A} (P : A -> Prop) `{forall x, Decision (P x)} l : (length (filter P l) <= length l)%nat.
Proof. induction l; simpl; [done|]. rewrite filter_cons. case_decide; simpl; lia. Qed.

Lemma clear_handler_table c hs (h : option state_handler) : handler_table c hs ->
  exists c', switch_channel_clear_state_handler h c = Some c'
    /\ handler_table c' (filter (fun x => keep_handler h (Some x) = true) hs).
Proof.
  intros [Ha Hi Hr Hn]. unfold switch_channel_clear_state_handler. rewrite Ha, Hi.
  replace (Z.to_nat (zlen hs)) with (length hs) by (unfold zlen; lia). rewrite keep_handlers_prefix.
  eexists. split; [done|]. pose proof (length_filter_le (fun x => keep_handler h (Some x) = true) hs) as Hl.
  split; cbn [with_state_handlers with_state_handler_index state_handlers state_handler_index].
  - by rewrite length_fmap.
  - unfold zlen. by rewrite length_fmap.
  - lia.
  - by apply NoDup_filter.
Qed.

Lemma keep_handler_filter h (hs : list state_handler) :
  filter (fun x => keep_handler (Some h) (Some x) = true) hs = filter (fun x => x <> h) hs.
Proof.
  apply list_filter_iff. intros x. unfold keep_handler. rewrite negb_true_iff, bool_decide_eq_false. split; congruence.
Qed.

Lemma keep_handlers_short keep : forall n l, length l = n -> keep_handlers keep l (S n) = None.
Proof.
  induction n as [|n IH]; intros [|x l] Hl; simplify_eq; [done|]. pose proof (IH l ltac:(simpl in Hl; lia)) as H. cbn [keep_handlers] in H |- *. by rewrite H.
Qed.

Lemma get_handler_table c hs i : handler_table c hs -> switch_channel_get_state_handler c (Z.of_nat i) = hs !! i.
Proof.
  intros [Ha Hi Hr Hn].
  unfold switch_channel_get_state_handler, SWITCH_MAX_STATE_HANDLERS. rewrite Hi, Ha.
  destruct (decide (i < length hs)%nat) as [Hlt|Hge].
  - rewrite (proj2 (Z.leb_gt _ _)), (proj2 (Z.ltb_ge _ _)) by (unfold zlen; lia). cbn [orb].
    rewrite Nat2Z.id, lookup_app_l by (by rewrite length_fmap). rewrite list_lookup_fmap.
    by destruct (lookup_lt_is_Some_2 hs i Hlt) as [x ->].
  - rewrite (lookup_ge_None_2 hs) by lia. case_match; [done|].
    rewrite Nat2Z.id, lookup_app_r by (rewrite length_fmap; lia).
    destruct (replicate _ None !! _) eqn:Hx; [|done]. by apply lookup_replicate_1 in Hx as [-> _].
Qed.

(** The state handlers of a channel are an ordered set.  Adding a handler
    that is registered returns its position and changes nothing; adding a new
    one appends it while fewer than 29 are registered; clearing removes exactly
    the given handler, or all that are not sticky, and keeps the order; look-up
    returns the handlers in order and NULL behind them. *)
Theorem state_handlers_ordered c hs h :
  handler_table c hs ->
  (forall i, hs !! i = Some h -> switch_channel_add_state_handler h c = (c, Z.of_nat i))
  /\ (h ∉ hs -> (length hs < 29)%nat ->
      handler_table (switch_channel_add_state_handler h c).1 (hs ++ [h]) /\ (switch_channel_add_state_handler h c).2 = zlen hs)
  /\ (exists c', switch_channel_clear_state_handler (Some h) c = Some c' /\ handler_table c' (filter (fun x => x <> h) hs))
  /\ (exists c', switch_channel_clear_state_handler None c = Some c'
       /\ handler_table c' (filter (fun x => test_flag (sh_flags x) SSH_FLAG_STICKY = true) hs))
  /\ (forall i, switch_channel_get_state_handler c (Z.of_nat i) = hs !! i).
Proof.
  intros Ht.
  split_and!; [| |rewrite <-keep_handler_filter; by apply clear_handler_table|exact (clear_handler_table c hs None Ht)|];
    pose proof Ht as [Ha Hi Hr Hn].
  - intros i Hl. unfold switch_channel_add_state_handler. by rewrite Ha, (find_handler_some hs h _ 0 i).
  - intros Hnew Hroom. unfold switch_channel_add_state_handler. rewrite Ha, find_handler_none by done.
    cbn [with_state_handler_index state_handler_index]. rewrite Hi. unfold SWITCH_MAX_STATE_HANDLERS.
    rewrite (proj2 (Z.leb_gt 30 (zlen hs + 1))) by (unfold zlen; lia). split; [|done].
    split; cbn [fst with_state_handlers with_state_handler_index state_handlers state_handler_index].
    + rewrite Ha. replace (Z.to_nat (zlen hs)) with (length (Some <$> hs) + 0)%nat by (rewrite length_fmap; unfold zlen; lia).
      rewrite insert_app_r, fmap_app, <-app_assoc. f_equal. rewrite length_app. simpl.
      replace (30 - length hs)%nat with (S (30 - (length hs + 1))) by lia. done.
    + unfold zlen. rewrite length_app. simpl. lia.
    + rewrite length_app. simpl. lia.
    + apply NoDup_app. split_and!; [done|by intros x Hx ->%list_elem_of_singleton|apply NoDup_singleton].
  - intros i. by apply get_handler_table.
Qed.

(** Two rejected handlers make the next clear read outside of the array.
    With 29 handlers registered, adding another one is refused but still counted;
    after two such refusals switch_channel_clear_state_handler indexes beyond the
    30 entries of the table, whatever it is asked to clear. *)
Theorem state_handler_overflow c hs h1 h2 h :
  handler_table c hs -> length hs = 29%nat -> (h1 ∉ hs) -> (h2 ∉ hs) ->
  let c1 := switch_channel_add_state_handler h1 c in
  let c2 := switch_channel_add_state_handler h2 c1.1 in
  c1.2 = -1 /\ c2.2 = -1 /\ switch_channel_clear_state_handler h c2.1 = None.
Proof.
  intros [Ha Hi _ _] Hl H1 H2. cbv zeta. unfold switch_channel_add_state_handler.
  rewrite Ha, find_handler_none by done. cbn [with_state_handler_index state_handler_index state_handlers]. rewrite Hi.
  assert (zlen hs = 29) as -> by (unfold zlen; lia). cbn [fst snd Z.leb Z.add SWITCH_MAX_STATE_HANDLERS].
  change (SWITCH_MAX_STATE_HANDLERS <=? 29 + 1) with true. cbn [fst snd with_state_handler_index state_handler_index state_handlers].
  rewrite Ha, find_handler_none by done. change (SWITCH_MAX_STATE_HANDLERS <=? 29 + 1 + 1) with true.
  split_and!; [done..|]. unfold switch_channel_clear_state_handler.
  cbn [fst with_state_handler_index state_handler_index state_handlers]. rewrite Ha, Hl. cbn [Nat.sub].
  apply bind_None. left. apply (keep_handlers_short _ 30). by rewrite length_app, length_fmap, Hl.
Qed.

(** ** Operations that cannot fail *)

(** Only a hold touches the caller profile. *)
Lemma set_flag_total e f v c : f <> CF_LEG_HOLDING -> is_Some (switch_channel_set_flag_value e f v c).
Proof. intros Hf. unfold switch_channel_set_flag_value. rewrite (bool_decide_eq_false_2 (f = CF_LEG_HOLDING)) by done. by eexists. Qed.

Lemma clear_flag_total e f c : f <> CF_LEG_HOLDING -> is_Some (switch_channel_clear_flag e f c).
Proof. intros Hf. unfold switch_channel_clear_flag. rewrite (bool_decide_eq_false_2 (f = CF_LEG_HOLDING)) by done. by eexists. Qed.

(** The states of a channel stay within the enumeration's proper values. *)
Lemma rtc_state_bound c c' : rtc chan_step c c' -> cs (state c) <= cs CS_DESTROY -> cs (state c') <= cs CS_DESTROY.
Proof.
  induction 1 as [c|c d c' Hstep _ IH]; [done|]. intros Hc. apply IH.
  apply chan_step_cases in Hstep as [[Hs _ _ _]|[[st Hst]|(e & cause & H)]].
  - by rewrite Hs.
  - unfold switch_channel_perform_set_state in Hst. destruct (_ || _) eqn:Hb; [done|].
    apply orb_false_iff in Hb as [Hb _]. apply negb_false_iff, Z.leb_le in Hb.
    repeat case_match; simplify_eq; try done; by case_match.
  - apply perform_hangup_cases in H as [[Hs _ _ _]|(_ & _ & x & [Hs _ _ _] & [-> | [_ ->]])]; [by rewrite Hs|by rewrite Hs|].
    destruct (hangup_now_spec e cause x) as (es & -> & _). done.
Qed.

(** A channel that is down accepts every request, and moves forward only. *)
Lemma set_state_down st c : cs CS_HANGUP <= cs (state c) <= cs CS_DESTROY -> cs st <= cs CS_DESTROY ->
  exists c', switch_channel_perform_set_state st c = Some c' /\ state c' = if cs (state c) <=? cs st then st else state c.
Proof.
  intros Hc Hst. unfold switch_channel_perform_set_state.
  rewrite (proj2 (Z.leb_le (cs st) _)), (proj2 (Z.leb_le (cs (state c)) _)) by lia. cbn [negb orb].
  case_bool_decide as He; [eexists; split; [done|]; rewrite He; by case_match|].
  destruct ((cs CS_HANGUP <=? cs (state c)) && (cs st <? cs (state c))) eqn:Hb.
  - apply andb_true_iff in Hb as [_ Hb]. eexists; split; [done|]. rewrite (proj2 (Z.leb_gt _ _)) by lia. done.
  - apply andb_false_iff in Hb. rewrite Z.leb_gt, Z.ltb_ge in Hb. rewrite (proj2 (Z.leb_le (cs (state c)) (cs st))) by lia.
    destruct (state_change_ok _ _) eqn:Hok; [eexists; split; [done|by case_match]|].
    destruct (state c), st; cbn in Hc, Hst, Hb; try done; lia.
Qed.

(** ** Instances of the theorems *)

Definition sample_env : session_env :=
  SessionEnv 1000 (Some (str "peer")) true false false true ChannelVars.no_externals.

(** An answered inbound call on hold. *)
Definition sample_calls (c : channel) : option channel :=
  c ← switch_channel_set_flag sample_env CF_ANSWERED (attach_profile c);
  c ← switch_channel_perform_set_state CS_INIT c;
  c ← switch_channel_perform_set_state CS_EXECUTE c;
  c ← switch_channel_perform_set_running_state sample_env CS_EXECUTE c;
  c ← switch_channel_mark_hold sample_env true c;
  switch_channel_perform_hangup sample_env 17 c.

Lemma channel_teardown_final_witness :
  exists c c', sample_calls (switch_channel_alloc SWITCH_CALL_DIRECTION_INBOUND) = Some c
    /\ switch_channel_perform_hangup sample_env 16 c = Some c' /\ hangup_cause c' = hangup_cause c.
Proof.
  eexists _, _. split; [vm_compute; reflexivity|]. split; [vm_compute; reflexivity|].
  apply channel_teardown_final; [|vm_compute; discriminate].
  apply rtc_once. apply (step_hangup sample_env 16). vm_compute. reflexivity.
Defined.

Lemma channel_announcements_witness :
  exists c0 c1 c2, switch_channel_init sample_env CS_NEW CF_ANSWERED (switch_channel_alloc SWITCH_CALL_DIRECTION_INBOUND) = Some c0
    /\ switch_channel_perform_hangup sample_env 17 c0 = Some c1 /\ switch_channel_perform_hangup sample_env 18 c1 = Some c2
    /\ (hangups (trace c2) <= 1)%nat /\ replay CCS_DOWN (trace c2) = Some (callstate c2).
Proof.
  eexists _, _, _. split; [vm_compute; reflexivity|]. split; [vm_compute; reflexivity|]. split; [vm_compute; reflexivity|].
  eapply (channel_announcements SWITCH_CALL_DIRECTION_INBOUND sample_env CS_NEW CF_ANSWERED); [vm_compute; reflexivity|].
  eapply rtc_l; [eapply (step_hangup sample_env 17); vm_compute; reflexivity|].
  apply rtc_once. eapply (step_hangup sample_env 18). vm_compute. reflexivity.
Defined.

Lemma set_state_transitions_witness :
  state <$> switch_channel_perform_set_state CS_ROUTING (switch_channel_alloc SWITCH_CALL_DIRECTION_INBOUND) = Some CS_ROUTING
  /\ state <$> switch_channel_perform_set_state CS_HANGUP (with_state CS_EXECUTE (switch_channel_alloc SWITCH_CALL_DIRECTION_INBOUND)) = None.
Proof.
  split.
  - rewrite (set_state_transitions (switch_channel_alloc SWITCH_CALL_DIRECTION_INBOUND) CS_ROUTING). reflexivity.
  - rewrite (set_state_transitions (with_state CS_EXECUTE (switch_channel_alloc SWITCH_CALL_DIRECTION_INBOUND)) CS_HANGUP). reflexivity.
Defined.

Lemma running_state_raises_flags_witness :
  exists c', switch_channel_perform_set_running_state sample_env CS_EXECUTE
      (switch_channel_set_state_flag CF_TRANSFER (switch_channel_alloc SWITCH_CALL_DIRECTION_INBOUND)) = Some c'
    /\ switch_channel_test_flag c' CF_TRANSFER = 1.
Proof.
  destruct (running_state_raises_flags sample_env CS_EXECUTE
    (switch_channel_set_state_flag CF_TRANSFER (switch_channel_alloc SWITCH_CALL_DIRECTION_INBOUND))) as (c' & H1 & _ & H2 & _).
  - split; reflexivity.
  - exists c'. split; [exact H1|]. rewrite H2. vm_compute. reflexivity.
Defined.

Lemma alloc_handler_table dir : handler_table (switch_channel_alloc dir) [].
Proof. split; [done..|simpl; lia|constructor]. Qed.

Lemma state_handlers_ordered_witness :
  handler_table (switch_channel_add_state_handler (StateHandler 7 0) (switch_channel_alloc SWITCH_CALL_DIRECTION_INBOUND)).1 [StateHandler 7 0].
Proof.
  destruct (state_handlers_ordered _ _ (StateHandler 7 0) (alloc_handler_table SWITCH_CALL_DIRECTION_INBOUND)) as (_ & H & _).
  apply H; [apply not_elem_of_nil|simpl; lia].
Defined.

(** A channel with 29 handlers. *)
Definition crowded : channel :=
  foldl (fun c i => (switch_channel_add_state_handler (StateHandler i 0) c).1) (switch_channel_alloc SWITCH_CALL_DIRECTION_INBOUND)
    (Z.of_nat <$> seq 1 29).

Lemma crowded_table : handler_table crowded ((fun i => StateHandler (Z.of_nat i) 0) <$> seq 1 29).
Proof.
  split; [vm_compute; reflexivity..|vm_compute; lia|]. apply NoDup_fmap; [|apply NoDup_seq]. intros x y. injection 1. lia.
Qed.

Lemma state_handler_overflow_witness :
  switch_channel_clear_state_handler None
    (switch_channel_add_state_handler (StateHandler 41 0) (switch_channel_add_state_handler (StateHandler 40 0) crowded).1).1 = None.
Proof.
  apply (state_handler_overflow crowded _ (StateHandler 40 0) (StateHandler 41 0) None crowded_table);
    [reflexivity|apply (bool_decide_unpack _); vm_compute; exact I..].
Defined.

End Channel.
