(* ===== verification/Sessions.v ===== *)
(** * Sessions and who may use them

    src/lib/libfreeswitch/switch_core_session.c and switch_core_rwlock.c: the
    table of sessions, looking a session up by its uuid, the read locks that
    keep a located session alive, requesting a session within the limits,
    changing its uuid, launching its thread and destroying it, and hanging up
    the sessions of the table.

    Sessions live at addresses of a [heap]; a use of an address whose session is
    gone is [Fault].  The operations are functions of the world, composed of
    the sections in which the code holds a lock; the relation [step] lets the
    threads interleave between these sections.  The rwlock of a session is the
    number of its readers and whether there is a writer. *)

From S2P Require Import Prelude Outcome CString Event HashTable CoreHash ChannelNames ChannelVars Channel.
Import CString Event(dec) CoreHash ChannelNames Channel.

Module Sessions.

(** ** Data *)

Definition SSF_DESTROYED : Z := Z.shiftl 1 0.
Definition SSF_THREAD_STARTED : Z := Z.shiftl 1 3.
Definition SSF_THREAD_RUNNING : Z := Z.shiftl 1 4.
Definition SSF_DESTROYABLE : Z := Z.shiftl 1 9.
Definition SOF_NO_LIMITS : Z := Z.shiftl 1 4.
Definition SWITCH_UUID_FORMATTED_LENGTH : Z := 256.

(** Where the thread of a session is: it has not been launched, it runs, it has
    run and waits for the write lock, it has the lock, it has marked the session
    as destroyed, it has given the lock back, it has taken the session out of
    the table. *)
Inductive phase := Unlaunched | Running | Ended | WriteLocked | Marked | Released | Deleted.

#[export] Instance phase_eq_dec : EqDecision phase.
Proof. solve_decision. Defined.

(** A switch_core_session; the endpoint interface is known by its address. *)
Record session := Session {
  s_uuid : bytes; s_id : Z; s_flags : Z; s_endpoint : Z; s_channel : channel;
  s_readers : Z; s_writer : bool; s_phase : phase }.

Definition with_uuid (u : bytes) (s : session) : session :=
  Session u (s_id s) (s_flags s) (s_endpoint s) (s_channel s) (s_readers s) (s_writer s) (s_phase s).
Definition set_flags (f : Z) (s : session) : session :=
  Session (s_uuid s) (s_id s) f (s_endpoint s) (s_channel s) (s_readers s) (s_writer s) (s_phase s).
Definition with_channel (c : channel) (s : session) : session :=
  Session (s_uuid s) (s_id s) (s_flags s) (s_endpoint s) c (s_readers s) (s_writer s) (s_phase s).
Definition with_lock (readers : Z) (writer : bool) (s : session) : session :=
  Session (s_uuid s) (s_id s) (s_flags s) (s_endpoint s) (s_channel s) readers writer (s_phase s).
Definition at_phase (p : phase) (s : session) : session :=
  Session (s_uuid s) (s_id s) (s_flags s) (s_endpoint s) (s_channel s) (s_readers s) (s_writer s) p.

Definition has_flag (s : session) (f : Z) : bool := negb (Z.land (s_flags s) f =? 0).
Definition raise (f : Z) (s : session) : session := set_flags (Z.lor (s_flags s) f) s.
Definition lower (f : Z) (s : session) : session := set_flags (Z.ldiff (s_flags s) f) s.

(** What a look-up has done so far under the mutex of the table: it has found
    the session, or found that its lock may be tried. *)
Inductive lookup := Locate | ForceLocate.

#[export] Instance lookup_eq_dec : EqDecision lookup.
Proof. solve_decision. Defined.

Inductive pc := Found (how : lookup) (a : Z) | Checked (a : Z).

#[export] Instance pc_eq_dec : EqDecision pc.
Proof. unfold EqDecision. solve_decision. Defined.

(** What else is cleaned up when a session is destroyed; most of it belongs to
    other components. *)
Inductive chore :=
| FlushPrivateEvents | ResetSession | RemoveMediaBugs | DeactivateUnicast | FreePlc | DestroyState | DestroyBuffers
| ClearSpeechCache | UninitChannel | DestroyDmachines.

(** What the sessions ask of the rest of the system. *)
Inductive happening :=
| Chore (c : chore) (a : Z) | ProfileUuid (a : Z) (new : bytes)
| FireDestroy (uuid : bytes) | FireUuid (old new : bytes) | UuidChange (a : Z) (old new : bytes)
| DeleteTasks (group : bytes) | TimeSync | Wake (a : Z) | Protect (endpoint : Z) | Unprotect (endpoint : Z)
| StartThread (a : Z) | QueueThread (a : Z).

(** The counters of struct switch_session_manager and of the runtime. *)
Record counters := Counters {
  session_count : Z; session_limit : Z; session_id : Z;
  sps : Z; sps_total : Z; sessions_peak : Z; sessions_peak_fivemin : Z; sync_requested : bool }.

Definition set_count (n : Z) (k : counters) : counters :=
  Counters n (session_limit k) (session_id k) (sps k) (sps_total k) (sessions_peak k) (sessions_peak_fivemin k) (sync_requested k).
Definition set_limit (n : Z) (k : counters) : counters :=
  Counters (session_count k) n (session_id k) (sps k) (sps_total k) (sessions_peak k) (sessions_peak_fivemin k) (sync_requested k).
Definition set_next_id (n : Z) (k : counters) : counters :=
  Counters (session_count k) (session_limit k) n (sps k) (sps_total k) (sessions_peak k) (sessions_peak_fivemin k) (sync_requested k).
Definition set_rate (n total : Z) (k : counters) : counters :=
  Counters (session_count k) (session_limit k) (session_id k) n total (sessions_peak k) (sessions_peak_fivemin k) (sync_requested k).
Definition set_peaks (p p5 : Z) (k : counters) : counters :=
  Counters (session_count k) (session_limit k) (session_id k) (sps k) (sps_total k) p p5 (sync_requested k).
Definition set_sync (b : bool) (k : counters) : counters :=
  Counters (session_count k) (session_limit k) (session_id k) (sps k) (sps_total k) (sessions_peak k) (sessions_peak_fivemin k) b.

Record world (H : Type) := World {
  table : H; heap : gmap Z session; next_addr : Z; count : counters; log : list happening;
  hash_mutex : option Z; refs : list (Z * Z); pcs : gmap Z pc }.
Arguments World {H}.
Arguments table {H}.
Arguments heap {H}.
Arguments next_addr {H}.
Arguments count {H}.
Arguments log {H}.
Arguments hash_mutex {H}.
Arguments refs {H}.
Arguments pcs {H}.

Section operations.
Context {H : Type} {SM : StringMap H Z}.
Implicit Types w : world H.

Definition set_table (t : H) w : world H :=
  World t (heap w) (next_addr w) (count w) (log w) (hash_mutex w) (refs w) (pcs w).
Definition set_heap (h : gmap Z session) w : world H :=
  World (table w) h (next_addr w) (count w) (log w) (hash_mutex w) (refs w) (pcs w).
Definition set_counters (k : counters) w : world H :=
  World (table w) (heap w) (next_addr w) k (log w) (hash_mutex w) (refs w) (pcs w).
Definition note (e : happening) w : world H :=
  World (table w) (heap w) (next_addr w) (count w) (log w ++ [e]) (hash_mutex w) (refs w) (pcs w).
Definition notes (es : list happening) w : world H :=
  World (table w) (heap w) (next_addr w) (count w) (log w ++ es) (hash_mutex w) (refs w) (pcs w).
Definition set_threads (m : option Z) (rs : list (Z * Z)) (p : gmap Z pc) w : world H :=
  World (table w) (heap w) (next_addr w) (count w) (log w) m rs p.

Definition deref w (a : Z) : res session := match heap w !! a with Some s => Ok s | None => Fault end.

Definition put (a : Z) (s : session) w : world H := set_heap (<[a := s]> (heap w)) w.

Definition update (a : Z) (f : session -> session) w : res (world H) := s ← deref w a; Ok (put a (f s) w).

(** An operation of the channel; [None] is where it aborts. *)
Definition on_channel (a : Z) (f : channel -> option channel) w : res (world H) :=
  s ← deref w a; match f (s_channel s) with Some c => Ok (put a (with_channel c s) w) | None => Fault end.

(** ** Read and write locks: switch_core_rwlock.c *)

(** The rwlock of a created session is never NULL. *)
Definition read_lock_refuses (s : session) : bool := has_flag s SSF_DESTROYED || negb (up_nosig (s_channel s)).

Definition hangup_lock_refuses (s : session) : bool :=
  has_flag s SSF_DESTROYED || (cs CS_DESTROY <=? cs (state (s_channel s))).

Definition tryrdlock (a : Z) w : res (world H * switch_status) :=
  s ← deref w a;
  if s_writer s then Ok (w, SWITCH_STATUS_FALSE)
  else Ok (put a (with_lock (s_readers s + 1) false s) w, SWITCH_STATUS_SUCCESS).

Definition switch_core_session_rwunlock (a : Z) w : res (world H) :=
  update a (fun s => if s_writer s then with_lock (s_readers s) false s else with_lock (s_readers s - 1) false s) w.

(** A session that is going down is woken, so that its thread goes on. *)
Definition switch_core_session_read_lock (a : Z) w : res (world H * switch_status) :=
  s ← deref w a;
  if read_lock_refuses s then
    '(w, got) ← tryrdlock a w;
    if bool_decide (got = SWITCH_STATUS_SUCCESS) then
      let w := if flag_set (s_channel s) CF_THREAD_SLEEPING then note (Wake a) w else w in
      w ← switch_core_session_rwunlock a w;
      Ok (w, SWITCH_STATUS_FALSE)
    else Ok (w, SWITCH_STATUS_FALSE)
  else tryrdlock a w.

Definition switch_core_session_read_lock_hangup (a : Z) w : res (world H * switch_status) :=
  s ← deref w a;
  if hangup_lock_refuses s then Ok (w, SWITCH_STATUS_FALSE) else tryrdlock a w.

(** The write lock waits for readers and writer to go. *)
Definition lock_free (s : session) : bool := (s_readers s =? 0) && negb (s_writer s).

Definition switch_core_session_write_lock (a : Z) w : res (world H) := update a (fun s => with_lock (s_readers s) true s) w.

(** ** Finding a session *)

Definition switch_core_session_perform_locate (uuid : option bytes) w : res (world H * option Z) :=
  match uuid ≫= sm_find (table w) with
  | None => Ok (w, None)
  | Some a =>
    '(w, st) ← switch_core_session_read_lock a w;
    Ok (w, if bool_decide (st = SWITCH_STATUS_SUCCESS) then Some a else None)
  end.

Definition switch_core_session_perform_force_locate (uuid : option bytes) w : res (world H * option Z) :=
  match uuid ≫= sm_find (table w) with
  | None => Ok (w, None)
  | Some a =>
    s ← deref w a;
    '(w, st) ← (if has_flag s SSF_DESTROYED then Ok (w, SWITCH_STATUS_FALSE) else tryrdlock a w);
    Ok (w, if bool_decide (st = SWITCH_STATUS_SUCCESS) then Some a else None)
  end.

(** ** Requesting a session *)

(** What a request reads of the runtime: whether new sessions are admitted, and
    whether the processor is idle enough; the uuid that would be made up; the
    surroundings of the channel. *)
Record runtime := Runtime {
  ready_inbound : bool; ready_outbound : bool; ready : bool; idle_enough : bool;
  fresh_uuid : bytes; channel_env : session_env }.

(** The channel of a new session.  switch_channel_init is called with the flag
    number 0, which is the first slot of the flags and no flag of its own. *)
Definition new_channel (rt : runtime) (dir : switch_call_direction) : option channel :=
  let c := switch_channel_alloc dir in
  let c := with_running_state CS_NONE (with_flags (<[0%nat := 1]> (flags c)) (with_state CS_NEW c)) in
  match dir with
  | SWITCH_CALL_DIRECTION_OUTBOUND => switch_channel_set_flag (channel_env rt) CF_OUTBOUND c
  | SWITCH_CALL_DIRECTION_INBOUND => Some c
  end.

(** switch_set_string into uuid_str. *)
Definition uuid_str (u : bytes) : bytes := ztake SWITCH_UUID_FORMATTED_LENGTH u.

Definition admitted_direction (rt : runtime) (dir : switch_call_direction) : bool :=
  match dir with
  | SWITCH_CALL_DIRECTION_INBOUND => ready_inbound rt
  | SWITCH_CALL_DIRECTION_OUTBOUND => ready_outbound rt
  end.

(** The section under the throttle mutex, and what is made of it. *)
Definition throttle (ep : Z) (w : world H) : world H * bool :=
  let k := count w in
  let n := session_count k in
  let left := s32 (sps k - 1) in
  let w := set_counters (set_rate left (sps_total k) k) w in
  if (left <=? 0) || (session_limit k <? u32 (n + 1)) then (note (Unprotect ep) w, false) else (w, true).

(** The section under the mutex of the table: the session is entered, numbered
    and counted. *)
Definition enter_session (uuid : bytes) (ep : Z) (c : channel) (w : world H) : world H * Z :=
  let a := next_addr w in
  let k := count w in
  let s := Session uuid (session_id k) 0 ep c 0 false Unlaunched in
  let n := u32 (session_count k + 1) in
  let k := set_peaks (if u32 (sessions_peak k) <? n then s32 n else sessions_peak k)
             (if u32 (sessions_peak_fivemin k) <? n then s32 n else sessions_peak_fivemin k)
             (set_next_id (u64 (session_id k + 1)) (set_count n k)) in
  (World (sm_insert (table w) uuid a) (<[a := s]> (heap w)) (a + 1) k (log w) (hash_mutex w) (refs w) (pcs w), a).

Definition switch_core_session_request_uuid (rt : runtime) (endpoint : option Z) (dir : switch_call_direction) (flags : Z)
    (use_uuid : option bytes) (w : world H) : res (world H * option Z) :=
  if bool_decide (is_Some (use_uuid ≫= sm_find (table w))) then Ok (w, None)
  else if negb (admitted_direction rt dir) then Ok (w, None)
  else
    match (if ready rt then endpoint else None) with
    | None => Ok (w, None)
    | Some ep =>
      if negb (idle_enough rt) then Ok (w, None)
      else
        let w := note (Protect ep) w in
        let '(w, ok) := if Z.land flags SOF_NO_LIMITS =? 0 then throttle ep w else (w, true) in
        if negb ok then Ok (w, None)
        else
          match new_channel rt dir with
          | None => Fault
          | Some c =>
            let uuid := match use_uuid with Some u => uuid_str u | None => fresh_uuid rt end in
            let c := set_variable (str "call_uuid") (Some uuid) (set_variable (str "uuid") (Some uuid) c) in
            let '(w, a) := enter_session uuid ep c w in
            w ← update a (fun s => with_channel (set_variable (str "session_id") (Some (dec (u32 (s_id s)))) (s_channel s)) s) w;
            Ok (w, Some a)
          end
    end.

(** The manager at the start, whatever the rates of the runtime are. *)
Definition switch_core_session_init (k : counters) : world H :=
  World sm_empty ∅ 0 (set_limit 1000 (set_next_id 1 (set_count 0 k))) [] None [] ∅.

Definition switch_core_session_limit (new_limit : Z) (w : world H) : world H * Z :=
  let w := if new_limit =? 0 then w else set_counters (set_limit new_limit (count w)) w in
  (w, session_limit (count w)).

Definition switch_core_sessions_per_second (new_limit : Z) (w : world H) : world H * Z :=
  let w := if new_limit =? 0 then w else set_counters (set_rate (sps (count w)) new_limit (count w)) w in
  (w, sps_total (count w)).

Definition switch_core_session_id_dec (w : world H) : world H * Z :=
  let w := set_counters (set_next_id (u64 (session_id (count w) - 1)) (count w)) w in
  (w, session_id (count w)).

Definition switch_core_session_sync_clock (w : world H) : world H * Z :=
  if session_count (count w) =? 0 then (note TimeSync w, 1) else (set_counters (set_sync true (count w)) w, 0).

(** ** Changing the uuid *)

(** The section under the mutex of the table, with the message to the endpoint
    in it; the caller profile, if there is one, takes the uuid too. *)
Definition rename_session (a : Z) (use_uuid : bytes) (w : world H) : res (world H * switch_status) :=
  s ← deref w a;
  if bool_decide (is_Some (sm_find (table w) use_uuid)) then Ok (w, SWITCH_STATUS_FALSE)
  else
    let w := notes [UuidChange a (s_uuid s) use_uuid; ProfileUuid a use_uuid] w in
    let c := set_variable (str "call_uuid") (Some use_uuid) (set_variable (str "uuid") (Some use_uuid) (s_channel s)) in
    let new := uuid_str use_uuid in
    let w := set_table (sm_insert (sm_delete (table w) (s_uuid s)) new a) w in
    Ok (note (FireUuid (s_uuid s) new) (put a (with_uuid new (with_channel c s)) w), SWITCH_STATUS_SUCCESS).

Definition switch_core_session_set_uuid (a : Z) (use_uuid : bytes) (w : world H) : res (world H * switch_status) :=
  s ← deref w a;
  if streq use_uuid (s_uuid s) then Ok (w, SWITCH_STATUS_SUCCESS) else rename_session a use_uuid w.

(** ** The thread of a session *)

Definition thread_launch_failure (w : world H) : world H :=
  let sess_count := session_count (count w) in
  if 110 <? sess_count then (switch_core_session_limit (u32 (sess_count - 10)) w).1 else w.

Definition thread_flags : Z := Z.lor SSF_THREAD_RUNNING SSF_THREAD_STARTED.

Definition switch_core_session_thread_pool_launch (a : Z) (w : world H) : res (world H * switch_status) :=
  s ← deref w a;
  if has_flag s SSF_THREAD_RUNNING || has_flag s SSF_THREAD_STARTED then Ok (w, SWITCH_STATUS_INUSE)
  else Ok (note (QueueThread a) (put a (at_phase Running (raise thread_flags s)) w), SWITCH_STATUS_SUCCESS).

(** [created] is whether the operating system makes the thread. *)
Definition switch_core_session_thread_launch (pool created : bool) (a : Z) (w : world H) : res (world H * switch_status) :=
  s ← deref w a;
  if has_flag s SSF_THREAD_RUNNING || has_flag s SSF_THREAD_STARTED then Ok (w, SWITCH_STATUS_INUSE)
  else if pool then switch_core_session_thread_pool_launch a w
  else
    let s := raise thread_flags s in
    if created then Ok (note (StartThread a) (put a (at_phase Running (raise SSF_THREAD_STARTED s)) w), SWITCH_STATUS_SUCCESS)
    else
      let w := put a (raise SSF_THREAD_STARTED (lower thread_flags s)) w in
      Ok (thread_launch_failure w, SWITCH_STATUS_GENERR).

(** What the thread does when the call is over: it waits for the write lock,
    marks the session, gives the lock back and destroys the session.  The table
    is changed under its mutex, and the pool with the session in it goes last. *)
Definition mark_destroyed (a : Z) (w : world H) : res (world H) := update a (fun s => at_phase Marked (raise SSF_DESTROYED s)) w.

Definition destroy_delete (a : Z) (w : world H) : res (world H) :=
  s ← deref w a;
  let w := notes [Chore FlushPrivateEvents a; Chore ResetSession a; Chore RemoveMediaBugs a; Chore DeactivateUnicast a;
                  DeleteTasks (s_uuid s)] w in
  let w := set_table (sm_delete (table w) (s_uuid s)) w in
  let k := count w in
  let w := if session_count k =? 0 then w
           else
             let n := session_count k - 1 in
             if (n =? 0) && sync_requested k then set_counters (set_sync false (set_count n k)) (note TimeSync w)
             else set_counters (set_count n k) w in
  Ok (put a (at_phase Deleted s) w).

Definition destroy_free (a : Z) (w : world H) : res (world H) :=
  s ← deref w a;
  let w := notes [Chore FreePlc a; FireDestroy (s_uuid s); Chore DestroyState a; Chore DestroyBuffers a; Chore ClearSpeechCache a;
                  Chore UninitChannel a; Chore DestroyDmachines a] w in
  Ok (note (Unprotect (s_endpoint s)) (set_heap (delete a (heap w)) w)).

Definition switch_core_session_perform_destroy (a : Z) (w : world H) : res (world H) :=
  w ← destroy_delete a w; destroy_free a w.

Definition switch_core_session_thread_end (a : Z) (w : world H) : res (world H) :=
  let w := note (Chore RemoveMediaBugs a) w in
  w ← switch_core_session_write_lock a w;
  w ← mark_destroyed a w;
  w ← switch_core_session_rwunlock a w;
  w ← update a (raise SSF_DESTROYABLE) w;
  switch_core_session_perform_destroy a w.

End operations.

(** ** All sessions of the table *)

(** What walking through a table yields, and that a key stands for its
    canonical form. *)
Class MapWalk (H V : Type) {SM : StringMap H V} := {
  sm_values : H -> list V;
  sm_values_spec : forall h v, sm_ok h -> v ∈ sm_values h <-> exists k, sm_find h k = Some v;
  sm_find_canon : forall h k k', sm_ok h -> sm_canon k = sm_canon k' -> sm_find h k = sm_find h k' }.

(** The hash table of the core can be walked through. *)
#[export] Instance core_hash_walk {V} (cs : bool) : @MapWalk _ V (core_hash_string_map cs).
Proof.
  refine {| sm_values h := omap snd (HashTable.iterate (length (concat (HashTable.table h))) h (HashTable.switch_hashtable_first_iter h)) |}.
  - intros h v [Hwf Hu]. cbn [sm_find core_hash_string_map]. rewrite HashTable.iterate_entries by done. rewrite list_elem_of_omap. split.
    + intros (? & (e & -> & He)%list_elem_of_fmap & Hv). exists (HashTable.e_k e). rewrite (find_hash_abs cs) by done.
      change (mjoin (HashTable.map_of (fold_case cs) (HashTable.entries h) !! fold_case cs (HashTable.e_k e)) = Some v).
      rewrite HashTable.map_of_elem by done. cbn in Hv. by rewrite Hv.
    + intros [k Hk]. rewrite (find_hash_abs cs) in Hk by done. destruct (HashTable.abs (fold_case cs) h !! fold_case cs k) as [o|] eqn:Ho; [|done].
      apply elem_of_list_to_map_2, list_elem_of_fmap in Ho as (e & [= _ ->] & He). exists (HashTable.kv e). split; [|done].
      apply list_elem_of_fmap. by exists e.
  - intros h k k' Hok Hc. cbn [sm_find core_hash_string_map]. rewrite !(find_hash_abs cs) by done. cbn in Hc. by rewrite Hc.
Defined.

Section everyone.
Context {H : Type} {SM : StringMap H Z} {MW : MapWalk H Z}.
Implicit Types w : world H.

(** The uuids of the sessions whose lock can be had and that are to be kept,
    the last one first. *)
Fixpoint collect (keep : session -> bool) (l : list Z) (head : list bytes) w : res (world H * list bytes) :=
  match l with
  | [] => Ok (w, head)
  | a :: l =>
    '(w, st) ← switch_core_session_read_lock a w;
    if bool_decide (st = SWITCH_STATUS_SUCCESS) then
      s ← deref w a;
      let head := if keep s then s_uuid s :: head else head in
      w ← switch_core_session_rwunlock a w;
      collect keep l head w
    else collect keep l head w
  end.

(** A visit of each session that can still be located. *)
Fixpoint visit {A} (f : bytes -> Z -> A -> world H -> res (world H * A)) (l : list bytes) (acc : A) w : res (world H * A) :=
  match l with
  | [] => Ok (w, acc)
  | u :: l =>
    '(w, found) ← switch_core_session_perform_locate (Some u) w;
    match found with
    | None => visit f l acc w
    | Some a =>
      '(w, acc) ← f u a acc w;
      w ← switch_core_session_rwunlock a w;
      visit f l acc w
    end
  end.

Definition hangup (env : session_env) (cause : Z) (a : Z) w : res (world H) :=
  on_channel a (switch_channel_perform_hangup env cause) w.

Definition hang_up (env : session_env) (cause : Z) (_ : bytes) (a : Z) (_ : unit) w : res (world H * unit) :=
  w ← hangup env cause a w; Ok (w, tt).

Definition switch_core_session_hupall (env : session_env) (cause : Z) w : res (world H) :=
  '(w, l) ← collect (fun _ => true) (sm_values (table w)) [] w;
  '(w, _) ← visit (hang_up env cause) l tt w;
  Ok w.

Definition switch_core_session_hupall_endpoint (env : session_env) (ep cause : Z) w : res (world H) :=
  '(w, l) ← collect (fun s => s_endpoint s =? ep) (sm_values (table w)) [] w;
  '(w, _) ← visit (hang_up env cause) l tt w;
  Ok w.

Definition SHT_UNANSWERED : Z := Z.shiftl 1 0.
Definition SHT_ANSWERED : Z := Z.shiftl 1 1.

Definition hup_type_fits (type : Z) (s : session) : bool :=
  let ans := flag_set (s_channel s) CF_ANSWERED in
  (ans && negb (Z.land type SHT_ANSWERED =? 0)) || (negb ans && negb (Z.land type SHT_UNANSWERED =? 0)).

Definition hang_up_matching (env : session_env) (name val : bytes) (cause : Z) (_ : bytes) (a r : Z) w : res (world H * Z) :=
  s ← deref w a;
  if up_nosig (s_channel s)
     && match get_variable env (s_channel s) name with Some v => streq v val | None => false end
  then w ← hangup env cause a w; Ok (w, u32 (r + 1))
  else Ok (w, r).

Definition switch_core_session_hupall_matching_var_ans (env : session_env) (name : bytes) (val : option bytes) (cause type : Z) w
  : res (world H * Z) :=
  match val with
  | None => Ok (w, 0)
  | Some val =>
    '(w, l) ← collect (hup_type_fits type) (sm_values (table w)) [] w;
    visit (hang_up_matching env name val cause) l 0 w
  end.

(** switch_stristr: a pattern in a string without regard to case, the pattern
    first.  At a place where the pattern begins, the string may end before it,
    and then the search is over. *)
Fixpoint match_here (s p : bytes) : option bool :=
  match s, p with
  | c :: s, d :: p =>
    if switch_toupper c =? switch_toupper d then
      match p, s with
      | [], _ => Some true
      | _, [] => Some false
      | _, _ => match_here s p
      end
    else None
  | _, _ => None
  end.

Fixpoint switch_stristr (p s : bytes) : bool :=
  match s with
  | [] => false
  | _ :: rest => match match_here s p with Some b => b | None => switch_stristr p rest end
  end.

Definition matches_value (val : option bytes) (this_val : bytes) : bool :=
  match val with
  | None => true
  | Some v => match v with 126 :: like => switch_stristr like v | _ => false end || streq this_val v
  end.

Definition push_matching (env : session_env) (name : bytes) (val : option bytes) (u : bytes) (a : Z) (l : list bytes) w
  : res (world H * list bytes) :=
  s ← deref w a;
  Ok (w, if up_nosig (s_channel s)
            && match get_variable env (s_channel s) name with Some v => matches_value val v | None => false end
         then l ++ [u] else l).

Definition switch_core_session_findall_matching_var (env : session_env) (name : bytes) (val : option bytes) w
  : res (world H * list bytes) :=
  '(w, l) ← collect (fun _ => true) (sm_values (table w)) [] w;
  visit (push_matching env name val) l [] w.

Definition switch_core_session_findall w : res (world H * list bytes) :=
  '(w, l) ← collect (fun _ => true) (sm_values (table w)) [] w;
  Ok (w, rev l).

End everyone.

(** ** Threads that interleave *)

(** A thread that looks a session up holds the mutex of the table from finding
    the session to trying its lock; the checks in between read the session
    without its lock.  Trying a lock for which a writer waits may fail.  A reference [(t, a)] is a read lock that thread [t] holds
    on the session at [a].  Whoever holds a reference, and the thread of the
    session, may operate on the channel.  A session that was never launched is
    destroyed by the one who requested it. *)

Section interleaving.
Context {H : Type} {SM : StringMap H Z}.
Implicit Types w : world H.

Inductive label := Release (a : Z) | Discard (a : Z) | Other.

Definition refuses (how : lookup) (s : session) : bool :=
  match how with Locate => read_lock_refuses s | ForceLocate => has_flag s SSF_DESTROYED end.

(** The end of a look-up of thread [t]. *)
Definition done_looking (t : Z) w : world H := set_threads None (refs w) (delete t (pcs w)) w.

Definition take_ref (t a : Z) w : world H := set_threads (hash_mutex w) ((t, a) :: refs w) (pcs w) w.

Fixpoint rm (x : Z * Z) (l : list (Z * Z)) : list (Z * Z) :=
  match l with [] => [] | y :: l => if decide (y = x) then l else y :: rm x l end.

Definition drop_ref (t a : Z) w : world H := set_threads (hash_mutex w) (rm (t, a) (refs w)) (pcs w) w.

(** Who may work on the session at [a]. *)
Definition entitled (a : Z) w : Prop :=
  (exists t, (t, a) ∈ refs w) \/ (exists s, heap w !! a = Some s /\ s_phase s = Running).

Inductive step : world H -> label -> res (world H) -> Prop :=
| st_enter uuid ep c w :
    hash_mutex w = None -> step w Other (Ok (enter_session uuid ep c w).1)
| st_find t u how a w :
    hash_mutex w = None -> pcs w !! t = None -> sm_find (table w) u = Some a ->
    step w Other (Ok (set_threads (Some t) (refs w) (<[t := Found how a]> (pcs w)) w))
| st_check t how a w :
    pcs w !! t = Some (Found how a) ->
    step w Other (s ← deref w a;
                  Ok (if refuses how s then done_looking t w
                      else set_threads (hash_mutex w) (refs w) (<[t := Checked a]> (pcs w)) w))
| st_lock t a w :
    pcs w !! t = Some (Checked a) ->
    step w Other ('(w, st) ← tryrdlock a w;
                  Ok (done_looking t (if bool_decide (st = SWITCH_STATUS_SUCCESS) then take_ref t a w else w)))
| st_busy t a w :
    pcs w !! t = Some (Checked a) -> step w Other (_ ← deref w a; Ok (done_looking t w))
| st_unlock t a w :
    (t, a) ∈ refs w -> step w Other (w ← switch_core_session_rwunlock a w; Ok (drop_ref t a w))
| st_work a f w :
    entitled a w -> (forall s, heap w !! a = Some s -> exists c, f (s_channel s) = Some c /\ chan_step (s_channel s) c) ->
    step w Other (on_channel a f w)
| st_rename a u w :
    entitled a w -> hash_mutex w = None -> step w Other (fst <$> switch_core_session_set_uuid a u w)
| st_launch pool created a w :
    (exists s, heap w !! a = Some s /\ s_phase s = Unlaunched) \/ entitled a w ->
    step w Other (fst <$> switch_core_session_thread_launch pool created a w)
| st_ended a s w :
    heap w !! a = Some s -> s_phase s = Running -> up_nosig (s_channel s) = false ->
    step w Other (update a (at_phase Ended) w)
| st_wrlock a s w :
    heap w !! a = Some s -> s_phase s = Ended -> lock_free s = true ->
    step w Other (w ← switch_core_session_write_lock a w; update a (at_phase WriteLocked) w)
| st_mark a s w :
    heap w !! a = Some s -> s_phase s = WriteLocked -> step w Other (mark_destroyed a w)
| st_release a s w :
    heap w !! a = Some s -> s_phase s = Marked ->
    step w (Release a) (w ← switch_core_session_rwunlock a w; update a (fun s => at_phase Released (raise SSF_DESTROYABLE s)) w)
| st_delete a s w :
    heap w !! a = Some s -> s_phase s = Released -> hash_mutex w = None -> step w Other (destroy_delete a w)
| st_discard a s w :
    heap w !! a = Some s -> s_phase s = Unlaunched -> hash_mutex w = None -> step w (Discard a) (destroy_delete a w)
| st_free a s w :
    heap w !! a = Some s -> s_phase s = Deleted -> step w Other (destroy_free a w).

(** What the code relies on without a check: that a thread which has seen a
    session to be alive tries its lock before the thread of the session has
    marked the session and given the lock back, and that nobody has located a
    session which is destroyed without ever having been launched. *)
Definition patient w (l : label) : Prop :=
  match l with
  | Release a => forall t, pcs w !! t <> Some (Checked a)
  | Discard a => forall t, (t, a) ∉ refs w
  | Other => True
  end.

Inductive reachable : world H -> Prop :=
| reach_start k : reachable (switch_core_session_init k)
| reach_step w l w' : reachable w -> patient w l -> step w l (Ok w') -> reachable w'.

End interleaving.

(** ** The invariant *)

Section invariant.
Context {H : Type} {SM : StringMap H Z}.
Implicit Types w : world H.

Definition rank (p : phase) : Z :=
  match p with Unlaunched => 0 | Running => 1 | Ended => 2 | WriteLocked => 3 | Marked => 4 | Released => 5 | Deleted => 6 end.

Definition held (a : Z) (rs : list (Z * Z)) : Z := zlen (filter (fun r => r.2 = a) rs).

Record session_ok (rs : list (Z * Z)) (a : Z) (s : session) : Prop := SessionOk {
  so_readers : s_readers s = held a rs;
  so_writer : s_writer s = bool_decide (s_phase s = WriteLocked \/ s_phase s = Marked);
  so_started : 1 <= rank (s_phase s) <= 5 -> has_flag s SSF_THREAD_STARTED = true;
  so_down : 2 <= rank (s_phase s) <= 5 -> up_nosig (s_channel s) = false;
  so_marked : 4 <= rank (s_phase s) <= 5 -> has_flag s SSF_DESTROYED = true;
  so_unmarked : rank (s_phase s) <= 3 -> has_flag s SSF_DESTROYED = false }.

(** The session a thread looks at is in the table, and the thread holds the
    mutex of the table. *)
Definition pc_ok w (p : pc) : Prop :=
  match p with
  | Found _ a => exists u, sm_find (table w) u = Some a
  | Checked a => (exists u, sm_find (table w) u = Some a) /\ forall s, heap w !! a = Some s -> rank (s_phase s) < 5
  end.

Record inv w : Prop := Inv {
  i_table : sm_ok (table w);
  i_entry u a : sm_find (table w) u = Some a ->
    exists s, heap w !! a = Some s /\ sm_canon (s_uuid s) = sm_canon u /\ s_phase s <> Deleted;
  i_fresh a s : heap w !! a = Some s -> a < next_addr w;
  i_session a s : heap w !! a = Some s -> session_ok (refs w) a s;
  i_refs t a : (t, a) ∈ refs w -> exists s, heap w !! a = Some s /\ rank (s_phase s) <= 2;
  i_pcs t p : pcs w !! t = Some p -> hash_mutex w = Some t /\ pc_ok w p }.

Lemma held_cons a t b rs : held a ((t, b) :: rs) = held a rs + (if decide (b = a) then 1 else 0).
Proof. unfold held. rewrite filter_cons. cbn [snd]. case_decide; rewrite ?zlen_cons; lia. Qed.

Lemma held_pos a rs : (forall t, (t, a) ∉ rs) <-> held a rs = 0.
Proof.
  induction rs as [|[t b] rs IH]; [split; [done|intros _ t; by apply not_elem_of_nil]|]. rewrite held_cons.
  pose proof (zlen_nonneg (filter (fun r => r.2 = a) rs)). fold (held a rs) in *. case_decide as Hb; subst.
  - split; [|lia]. intros Hn. destruct (Hn t). by left.
  - rewrite Z.add_0_r, <-IH. split; intros Hn t'; [intros Ht; by destruct (Hn t'); right|].
    intros [[= -> ->]|Ht]%elem_of_cons; [done|by destruct (Hn t')].
Qed.

Lemma elem_rm x y rs : y ∈ rm x rs -> y ∈ rs.
Proof. induction rs as [|z rs IH]; [done|]. cbn [rm]. case_decide; [by right|]. intros [->|?]%elem_of_cons; [by left|by right; auto]. Qed.

Lemma held_rm t a b rs : (t, b) ∈ rs -> held a (rm (t, b) rs) = held a rs - (if decide (b = a) then 1 else 0).
Proof.
  induction rs as [|[t' b'] rs IH]; [by intros ?%elem_of_nil|]. intros [[= <- <-]|Hin]%elem_of_cons; cbn [rm].
  - rewrite decide_True by done. rewrite held_cons. lia.
  - destruct (decide ((t', b') = (t, b))) as [[= -> ->]|]; [rewrite held_cons; lia|]. rewrite !held_cons, IH by done. lia.
Qed.

Lemma deref_ok w a s : heap w !! a = Some s -> deref w a = Ok s.
Proof. unfold deref. by intros ->. Qed.

Lemma update_ok f w a s : heap w !! a = Some s -> update a f w = Ok (put a (f s) w).
Proof. intros Hs. unfold update. by rewrite (deref_ok _ _ _ Hs). Qed.

Lemma lookup_put a s w b : heap (put a s w) !! b = if decide (b = a) then Some s else heap w !! b.
Proof. cbn. case_decide; [subst; apply lookup_insert_eq|by apply lookup_insert_ne]. Qed.

Lemma session_put_put a s s' w : put a s (put a s' w) = put a s w.
Proof. unfold put, set_heap. cbn. by rewrite insert_insert_eq. Qed.

Lemma no_readers a s w : inv w -> heap w !! a = Some s -> 3 <= rank (s_phase s) -> s_readers s = 0.
Proof.
  intros Hi Ha Hk. rewrite (so_readers _ _ _ (i_session _ Hi _ _ Ha)). apply held_pos. intros t Ht.
  destruct (i_refs _ Hi _ _ Ht) as (? & ? & ?). simplify_eq. lia.
Qed.

(** A session is changed in place. *)
Lemma inv_put a s s' w :
  inv w -> heap w !! a = Some s -> s_uuid s' = s_uuid s -> session_ok (refs w) a s' ->
  (forall t, (t, a) ∈ refs w -> rank (s_phase s') <= 2) ->
  (forall u, sm_find (table w) u = Some a -> s_phase s' <> Deleted) ->
  (forall t, pcs w !! t = Some (Checked a) -> rank (s_phase s') < 5) ->
  inv (put a s' w).
Proof.
  intros [Ht He Hf Hs Hr Hp] Ha Hu Hok Href Htab Hpc. split; [done|..].
  - intros u b Hb. destruct (He u b Hb) as (sb & Hsb & Hc & Hd). rewrite lookup_put. case_decide as Hab; [|by eauto].
    subst b. simplify_eq. exists s'. rewrite Hu. split_and!; [done..|]. by eapply Htab.
  - intros b sb. rewrite lookup_put. case_decide as Hab; [subst; intros _; by eapply Hf|by apply Hf].
  - intros b sb. rewrite lookup_put. case_decide as Hab; [subst; by intros [= <-]|apply Hs].
  - intros t b Hin. rewrite lookup_put. case_decide as Hab; [subst; eauto|by eapply Hr].
  - intros t q Hq. destruct (Hp t q Hq) as [Hm Hk]. split; [done|]. destruct q as [how b|b]; [done|].
    destruct Hk as [Hk Hk']. split; [done|]. intros sb. rewrite lookup_put. case_decide; [subst; intros [= <-]; eauto|apply Hk'].
Qed.

(** A change that keeps phase and lock, and takes no flag back. *)
Lemma inv_quiet a s s' w :
  inv w -> heap w !! a = Some s -> s_uuid s' = s_uuid s -> s_readers s' = s_readers s -> s_writer s' = s_writer s ->
  s_phase s' = s_phase s -> s_flags s' = s_flags s ->
  (up_nosig (s_channel s) = false -> up_nosig (s_channel s') = false) -> inv (put a s' w).
Proof.
  intros Hi Ha Hu Hr Hw Hp Hf Hd. destruct (i_session _ Hi _ _ Ha) as [O1 O2 O3 O4 O5 O6].
  eapply inv_put; [done..| | | |]; rewrite ?Hp.
  - unfold has_flag in *. split; unfold has_flag; rewrite ?Hp, ?Hr, ?Hw, ?Hf; auto.
  - intros t Ht. destruct (i_refs _ Hi _ _ Ht) as (? & ? & ?). by simplify_eq.
  - intros u Hu'. destruct (i_entry _ Hi _ _ Hu') as (? & ? & ? & ?). by simplify_eq.
  - intros t Ht. destruct (i_pcs _ Hi _ _ Ht) as (_ & _ & Hk). by apply Hk.
Qed.

Lemma inv_note e w : inv w -> inv (note e w).
Proof. by intros []. Qed.

Lemma inv_counters k w : inv w -> inv (set_counters k w).
Proof. by intros []. Qed.

Lemma inv_done_looking t w : inv w -> hash_mutex w = Some t -> inv (done_looking t w).
Proof.
  intros [Ht He Hf Hs Hr Hp] Hm. split; [done..|]. intros t' q Hq. cbn in Hq. apply lookup_delete_Some in Hq as [Hne Hq].
  destruct (Hp _ _ Hq) as [Hm' _]. congruence.
Qed.

(** Under a free mutex nobody looks anything up. *)
Lemma no_pcs t w : inv w -> hash_mutex w = None -> pcs w !! t = None.
Proof. intros Hi Hm. destruct (pcs w !! t) as [q|] eqn:Hq; [|done]. destruct (i_pcs _ Hi _ _ Hq). congruence. Qed.

Lemma has_flag_lor s f g : has_flag s g = true -> has_flag (raise f s) g = true.
Proof.
  unfold has_flag, raise, set_flags. cbn. rewrite !negb_true_iff, !Z.eqb_neq. intros Hg E. apply Hg.
  rewrite Z.land_lor_distr_l in E. by apply Z.lor_eq_0_iff in E as [].
Qed.

Lemma has_flag_other s f g : Z.land f g = 0 -> has_flag (raise f s) g = has_flag s g.
Proof. intros Hfg. unfold has_flag, raise, set_flags. cbn. by rewrite Z.land_lor_distr_l, Hfg, Z.lor_0_r. Qed.

Lemma has_flag_lower s f g : Z.land f g = 0 -> has_flag (lower f s) g = has_flag s g.
Proof.
  intros Hfg. unfold has_flag, lower, set_flags. cbn. do 2 f_equal. apply Z.bits_inj'. intros n Hn.
  apply (f_equal (fun z => Z.testbit z n)) in Hfg. rewrite Z.bits_0, Z.land_spec in Hfg. rewrite !Z.land_spec, Z.ldiff_spec.
  by destruct (Z.testbit f n), (Z.testbit g n), (Z.testbit (s_flags s) n).
Qed.

Lemma has_flag_raised s f : f <> 0 -> has_flag (raise f s) f = true.
Proof.
  unfold has_flag, raise, set_flags. cbn. rewrite negb_true_iff, Z.eqb_neq. intros Hf E. apply Hf.
  rewrite Z.land_lor_distr_l, Z.land_diag in E. by apply Z.lor_eq_0_iff in E as [].
Qed.

Lemma inv_enter uuid ep c w : inv w -> hash_mutex w = None -> inv (enter_session uuid ep c w).1.
Proof.
  intros Hi Hm. pose proof Hi as [Ht He Hf Hs Hr Hp]. unfold enter_session. cbn [fst].
  assert (heap w !! next_addr w = None) as Hnone.
  { destruct (heap w !! next_addr w) eqn:E; [|done]. apply Hf in E. lia. }
  assert (forall t, (t, next_addr w) ∉ refs w) as Hnew by (intros t Hin; destruct (Hr _ _ Hin) as (? & ? & _); congruence).
  split; cbn.
  - by apply sm_insert_ok.
  - intros u a. rewrite sm_find_insert by done. case_bool_decide as Hc.
    + intros [= <-]. rewrite lookup_insert_eq. by eexists.
    + intros Ha. destruct (He _ _ Ha) as (s & Hs' & ? & ?). exists s. rewrite lookup_insert_ne by congruence. done.
  - intros a s [[<- <-]|[Hne Ha]]%lookup_insert_Some; [lia|]. apply Hf in Ha. lia.
  - intros a s [[<- <-]|[Hne Ha]]%lookup_insert_Some; [|by apply Hs]. split; cbn; try lia.
    + symmetry. by apply held_pos.
    + rewrite bool_decide_eq_false_2; [done|by intros [|]].
    + done.
  - intros t a Hin. destruct (Hr _ _ Hin) as (s & Ha & ?). exists s. rewrite lookup_insert_ne by congruence. done.
  - intros t q Hq. pose proof (no_pcs t w Hi Hm). congruence.
Qed.

Lemma inv_find t u how a w :
  inv w -> hash_mutex w = None -> sm_find (table w) u = Some a ->
  inv (set_threads (Some t) (refs w) (<[t := Found how a]> (pcs w)) w).
Proof.
  intros Hi Hm Hu. pose proof Hi as [Ht He Hf Hs Hr Hp]. split; cbn; [done..|].
  intros t' q [[<- <-]|[_ Hq]]%lookup_insert_Some; [split; [done|by exists u]|]. pose proof (no_pcs t' w Hi Hm). congruence.
Qed.

Lemma found_live w a u : inv w -> sm_find (table w) u = Some a -> exists s, heap w !! a = Some s.
Proof. intros Hi Hu. destruct (i_entry _ Hi _ _ Hu) as (s & ? & _). by exists s. Qed.

Lemma inv_check t how a w : inv w -> pcs w !! t = Some (Found how a) ->
  exists w', (s ← deref w a; Ok (if refuses how s then done_looking t w
             else set_threads (hash_mutex w) (refs w) (<[t := Checked a]> (pcs w)) w)) = Ok w' /\ inv w'.
Proof.
  intros Hi Hq. destruct (i_pcs _ Hi _ _ Hq) as (Hm & u & Hu). destruct (i_entry _ Hi _ _ Hu) as (s & Ha & _ & Hd).
  rewrite (bind_ok _ _ _ (deref_ok _ _ _ Ha)). eexists. split; [done|].
  destruct (refuses how s) eqn:Hrf; [by apply inv_done_looking|].
  pose proof Hi as [Ht He Hf Hs Hr Hp]. split; cbn; [done..|].
  intros t' q [[<- <-]|[Hne Hq']]%lookup_insert_Some; [|by apply Hp].
  split; [done|]. cbn. split; [by eauto|]. intros s' Hs'. simplify_eq.
  destruct (Hs _ _ Ha) as [_ _ _ _ Hmark _].
  assert (has_flag s SSF_DESTROYED = false) as Hno by (destruct how; cbn in Hrf; [by apply orb_false_iff in Hrf as []|done]).
  destruct (s_phase s); cbn in *; try lia; [|done]. rewrite Hmark in Hno by lia. done.
Qed.

(** Readers come and go together with their references. *)
Lemma inv_relock a s rs w :
  inv w -> heap w !! a = Some s -> rank (s_phase s) <= 2 ->
  (forall b, b <> a -> held b rs = held b (refs w)) -> (forall t b, (t, b) ∈ rs -> (t, b) ∈ refs w \/ b = a) ->
  inv (set_threads (hash_mutex w) rs (pcs w) (put a (with_lock (held a rs) false s) w)).
Proof.
  intros Hi Ha Hk Hheld Hin. pose proof Hi as [Ht He Hf Hs Hr Hp]. destruct (Hs _ _ Ha) as [O1 O2 O3 O4 O5 O6].
  split; cbn [table heap next_addr refs pcs hash_mutex set_threads put set_heap].
  - done.
  - intros u b Hb. destruct (He _ _ Hb) as (sb & Hsb & ?). destruct (decide (b = a)) as [->|]; simplify_eq.
    + rewrite lookup_insert_eq. by eexists.
    + rewrite lookup_insert_ne by done. eauto.
  - intros b sb [[<- <-]|[_ Hb]]%lookup_insert_Some; by eapply Hf.
  - intros b sb [[<- <-]|[Hne Hb]]%lookup_insert_Some.
    + split; cbn; [done| |done..]. destruct (s_phase s); cbn in Hk; try lia; done.
    + destruct (Hs _ _ Hb). split; [by rewrite Hheld|done..].
  - intros t b [Hb| ->]%Hin.
    + destruct (Hr _ _ Hb) as (sb & Hsb & ?). destruct (decide (b = a)) as [->|]; simplify_eq.
      * rewrite lookup_insert_eq. by eexists.
      * rewrite lookup_insert_ne by done. eauto.
    + rewrite lookup_insert_eq. by eexists.
  - intros t q Hq. destruct (Hp _ _ Hq) as [Hm Hq']. split; [done|]. destruct q as [|b]; [done|]. destruct Hq' as [? Hlt].
    split; [done|]. cbn. intros sb [[<- <-]|[_ Hb]]%lookup_insert_Some; [cbn; lia|by apply Hlt].
Qed.

Lemma inv_lock t a w : inv w -> pcs w !! t = Some (Checked a) ->
  exists w', ('(w, st) ← tryrdlock a w;
              Ok (done_looking t (if bool_decide (st = SWITCH_STATUS_SUCCESS) then take_ref t a w else w))) = Ok w' /\ inv w'.
Proof.
  intros Hi Hq. destruct (i_pcs _ Hi _ _ Hq) as (Hm & [u Hu] & Hk). destruct (i_entry _ Hi _ _ Hu) as (s & Ha & _ & Hd).
  unfold tryrdlock. rewrite (bind_ok _ _ _ (deref_ok _ _ _ Ha)). destruct (i_session _ Hi _ _ Ha) as [O1 O2 O3 O4 O5 O6].
  destruct (s_writer s) eqn:Hw; cbn [mbind res_bind]; eexists; (split; [done|]).
  - by apply inv_done_looking.
  - rewrite bool_decide_eq_true_2 by done. apply inv_done_looking; [|done].
    assert (s_readers s + 1 = held a ((t, a) :: refs w)) as -> by (rewrite held_cons, decide_True by done; lia).
    refine (inv_relock a s ((t, a) :: refs w) w Hi Ha _ _ _).
    + specialize (Hk _ Ha). symmetry in O2. rewrite bool_decide_eq_false in O2. destruct (s_phase s); cbn in *; naive_solver lia.
    + intros b Hb. rewrite held_cons, decide_False by done. lia.
    + intros t' b [[= -> ->]|?]%elem_of_cons; auto.
Qed.

Lemma inv_unlock t a w : inv w -> (t, a) ∈ refs w ->
  exists w', (w ← switch_core_session_rwunlock a w; Ok (drop_ref t a w)) = Ok w' /\ inv w'.
Proof.
  intros Hi Hin. destruct (i_refs _ Hi _ _ Hin) as (s & Ha & Hk). destruct (i_session _ Hi _ _ Ha) as [O1 O2 O3 O4 O5 O6].
  unfold switch_core_session_rwunlock. rewrite (bind_ok _ _ _ (update_ok _ _ _ _ Ha)). eexists. split; [done|].
  assert (s_writer s = false) as -> by (rewrite O2; destruct (s_phase s); cbn in Hk; try lia; done).
  assert (s_readers s - 1 = held a (rm (t, a) (refs w))) as -> by (rewrite held_rm, decide_True by done; lia).
  refine (inv_relock a s (rm (t, a) (refs w)) w Hi Ha Hk _ _).
  - intros b Hb. rewrite held_rm, decide_False by done. lia.
  - intros t' b Hb%elem_rm. by left.
Qed.

Lemma stays_down c c' : chan_step c c' -> up_nosig c = false -> up_nosig c' = false.
Proof. unfold up_nosig. rewrite !Z.ltb_ge. intros Hc Hdown. destruct (td_state _ _ (chan_step_teardown _ _ Hc) Hdown). lia. Qed.

Lemma entitled_live a w : inv w -> entitled a w -> exists s, heap w !! a = Some s /\ rank (s_phase s) <= 2.
Proof.
  intros Hi [[t Ht]|(s & Ha & Hp)]; [by eapply (i_refs _ Hi)|]. exists s. split; [done|]. rewrite Hp. cbn. lia.
Qed.

Lemma inv_work a f w :
  inv w -> entitled a w -> (forall s, heap w !! a = Some s -> exists c, f (s_channel s) = Some c /\ chan_step (s_channel s) c) ->
  exists w', on_channel a f w = Ok w' /\ inv w'.
Proof.
  intros Hi He Hf. destruct (entitled_live a w Hi He) as (s & Ha & Hk). unfold on_channel.
  rewrite (bind_ok _ _ _ (deref_ok _ _ _ Ha)). destruct (Hf _ Ha) as (c & -> & Hc). eexists. split; [done|].
  by eapply inv_quiet, stays_down.
Qed.

Lemma inv_rename a u w : inv w -> entitled a w -> hash_mutex w = None ->
  exists w', (fst <$> switch_core_session_set_uuid a u w) = Ok w' /\ inv w'.
Proof.
  intros Hi He Hm. destruct (entitled_live a w Hi He) as (s & Ha & Hk). unfold switch_core_session_set_uuid.
  rewrite (bind_ok _ _ _ (deref_ok _ _ _ Ha)). destruct (streq u (s_uuid s)); [by eexists|]. unfold rename_session.
  rewrite (bind_ok _ _ _ (deref_ok _ _ _ Ha)). case_bool_decide; [by eexists|]. eexists. split; [done|]. apply inv_note.
  pose proof Hi as [Ht Hen Hf Hs Hr Hp]. split; cbn.
  - by apply sm_insert_ok, sm_delete_ok.
  - intros u' b. rewrite sm_find_insert by (by apply sm_delete_ok). case_bool_decide as Hc.
    + intros [= <-]. rewrite lookup_insert_eq. eexists. split_and!; [done|done|]. cbn. intros E. rewrite E in Hk. cbn in Hk. lia.
    + rewrite sm_find_delete by done. case_bool_decide as Hc'; [done|]. intros Hb. destruct (Hen _ _ Hb) as (sb & Hsb & Hcan & ?).
      exists sb. rewrite lookup_insert_ne; [done|]. intros ->. by simplify_eq.
  - intros b sb [[<- <-]|[_ Hb]]%lookup_insert_Some; by eapply Hf.
  - intros b sb [[<- <-]|[Hne Hb]]%lookup_insert_Some; [|by apply Hs]. destruct (Hs _ _ Ha). by split.
  - intros t b Hb. destruct (Hr _ _ Hb) as (sb & Hsb & ?). destruct (decide (b = a)) as [->|]; simplify_eq.
    + rewrite lookup_insert_eq. by eexists.
    + rewrite lookup_insert_ne by done. eauto.
  - intros t q Hq. pose proof (no_pcs t w Hi Hm). congruence.
Qed.

Lemma inv_launch_failure w : inv w -> inv (thread_launch_failure w).
Proof.
  intros Hi. unfold thread_launch_failure, switch_core_session_limit. case_match; [|done]. cbn [fst]. case_match; [done|].
  by apply inv_counters.
Qed.

(** A session that was not launched runs after it. *)
Lemma inv_launched a s f w :
  inv w -> heap w !! a = Some s -> s_phase s = Unlaunched ->
  has_flag f SSF_THREAD_STARTED = true -> has_flag f SSF_DESTROYED = has_flag s SSF_DESTROYED ->
  s_uuid f = s_uuid s -> s_readers f = s_readers s -> s_writer f = s_writer s -> inv (put a (at_phase Running f) w).
Proof.
  intros Hi Ha Hp Hst Hde Hu Hr Hw. destruct (i_session _ Hi _ _ Ha) as [O1 O2 O3 O4 O5 O6].
  eapply inv_put; [done..| | | |]; cbn; try lia; try done.
  split; cbn; [congruence| |done|lia|lia|]; [by rewrite Hw, O2, Hp|]. intros _. etrans; [apply Hde|]. apply O6. rewrite Hp. cbn. lia.
Qed.

Lemma started_running s : has_flag s SSF_THREAD_RUNNING || has_flag s SSF_THREAD_STARTED = false -> has_flag s SSF_THREAD_STARTED = false.
Proof. by intros []%orb_false_iff. Qed.

Lemma unlaunched w a s : inv w -> heap w !! a = Some s -> rank (s_phase s) <= 5 -> has_flag s SSF_THREAD_STARTED = false -> s_phase s = Unlaunched.
Proof.
  intros Hi Ha Hk Hst. destruct (i_session _ Hi _ _ Ha) as [_ _ Hs _ _ _]. destruct (s_phase s); cbn in *; try done; try lia;
    rewrite Hs in Hst by lia; done.
Qed.

Lemma inv_launch pool created a w :
  inv w -> (exists s, heap w !! a = Some s /\ s_phase s = Unlaunched) \/ entitled a w ->
  exists w', (fst <$> switch_core_session_thread_launch pool created a w) = Ok w' /\ inv w'.
Proof.
  intros Hi He. assert (exists s, heap w !! a = Some s /\ rank (s_phase s) <= 2) as (s & Ha & Hk).
  { destruct He as [(s & Ha & Hp)|He]; [exists s; split; [done|rewrite Hp; cbn; lia]|by apply entitled_live]. }
  unfold switch_core_session_thread_launch. rewrite (bind_ok _ _ _ (deref_ok _ _ _ Ha)).
  destruct (_ || _) eqn:Hfl; [by eexists|]. apply started_running in Hfl as Hst.
  assert (s_phase s = Unlaunched) as Hp by (eapply unlaunched; [done..|lia|done]).
  destruct pool; [|destruct created].
  - unfold switch_core_session_thread_pool_launch. rewrite (bind_ok _ _ _ (deref_ok _ _ _ Ha)), Hfl. eexists. split; [done|].
    apply inv_note, (inv_launched _ s); try done; [|by apply has_flag_other]. unfold has_flag, raise, set_flags, thread_flags. cbn.
    rewrite negb_true_iff, Z.eqb_neq. intros E%(f_equal (fun z => Z.testbit z 3)).
    rewrite Z.land_spec, Z.lor_spec in E. change (Z.testbit (Z.lor SSF_THREAD_RUNNING SSF_THREAD_STARTED) 3) with true in E.
    by rewrite orb_true_r in E.
  - eexists. split; [done|]. apply inv_note, (inv_launched _ s); try done; [by apply has_flag_raised|].
    by rewrite !has_flag_other.
  - eexists. split; [done|]. apply inv_launch_failure. destruct (i_session _ Hi _ _ Ha) as [O1 O2 O3 O4 O5 O6].
    eapply inv_put; [done..| | | |]; cbn; rewrite ?Hp; cbn; try lia; try done.
    split; cbn; rewrite ?Hp; cbn; try done; try lia; [by rewrite O2, Hp|]. intros _.
    change (has_flag (raise SSF_THREAD_STARTED (lower thread_flags (raise thread_flags s))) SSF_DESTROYED = false).
    rewrite has_flag_other, has_flag_lower, has_flag_other by done. apply O6. rewrite Hp. cbn. lia.
Qed.

(** The thread of the session on its way to the end: a new phase, with the lock
    and the flags it goes with. *)
Lemma inv_phase a s s' w :
  inv w -> heap w !! a = Some s -> s_uuid s' = s_uuid s -> 2 <= rank (s_phase s') <= 5 ->
  s_readers s' = s_readers s -> s_writer s' = bool_decide (s_phase s' = WriteLocked \/ s_phase s' = Marked) ->
  has_flag s' SSF_THREAD_STARTED = true -> up_nosig (s_channel s') = false ->
  has_flag s' SSF_DESTROYED = bool_decide (4 <= rank (s_phase s')) ->
  (3 <= rank (s_phase s') -> s_readers s = 0) ->
  (rank (s_phase s') = 5 -> forall t, pcs w !! t <> Some (Checked a)) ->
  inv (put a s' w).
Proof.
  intros Hi Ha Hu Hk Hr Hw Hst Hup Hde Hno Hpc. destruct (i_session _ Hi _ _ Ha) as [O1 O2 O3 O4 O5 O6].
  eapply inv_put; [done..| | | |].
  - split; auto; [congruence| |]; intros ?; rewrite Hde; [apply bool_decide_eq_true|apply bool_decide_eq_false]; lia.
  - intros t Ht. destruct (decide (3 <= rank (s_phase s'))) as [Hge|]; [|lia].
    rewrite O1 in Hno. apply Hno, held_pos with (t := t) in Hge. done.
  - intros u _ E. rewrite E in Hk. cbn in Hk. lia.
  - intros t Ht. destruct (decide (rank (s_phase s') = 5)) as [H5|]; [|lia]. by destruct (Hpc H5 t).
Qed.

Lemma inv_ended a s w : inv w -> heap w !! a = Some s -> s_phase s = Running -> up_nosig (s_channel s) = false ->
  exists w', update a (at_phase Ended) w = Ok w' /\ inv w'.
Proof.
  intros Hi Ha Hp Hup. rewrite (update_ok _ _ _ _ Ha). eexists. split; [done|]. destruct (i_session _ Hi _ _ Ha) as [O1 O2 O3 O4 O5 O6].
  rewrite Hp in *. eapply inv_phase; cbn in *; try done; try lia.
  - change (has_flag s SSF_THREAD_STARTED = true). apply O3. lia.
  - change (has_flag s SSF_DESTROYED = false). apply O6. lia.
Qed.

Lemma inv_wrlock a s w : inv w -> heap w !! a = Some s -> s_phase s = Ended -> lock_free s = true ->
  exists w', (w ← switch_core_session_write_lock a w; update a (at_phase WriteLocked) w) = Ok w' /\ inv w'.
Proof.
  intros Hi Ha Hp [Hr%Z.eqb_eq _]%andb_true_iff. unfold switch_core_session_write_lock. rewrite (bind_ok _ _ _ (update_ok _ _ _ _ Ha)).
  erewrite update_ok by (rewrite lookup_put; by rewrite decide_True). eexists. split; [done|]. rewrite session_put_put.
  destruct (i_session _ Hi _ _ Ha) as [O1 O2 O3 O4 O5 O6]. rewrite Hp in *. cbn in *.
  eapply (inv_phase a s (at_phase WriteLocked (with_lock (s_readers s) true s))); cbn in *; try done; try lia.
  - apply O3. lia.
  - apply O4. lia.
  - change (has_flag s SSF_DESTROYED = false). apply O6. lia.
Qed.

Lemma inv_mark a s w : inv w -> heap w !! a = Some s -> s_phase s = WriteLocked -> exists w', mark_destroyed a w = Ok w' /\ inv w'.
Proof.
  intros Hi Ha Hp. unfold mark_destroyed. rewrite (update_ok _ _ _ _ Ha). eexists. split; [done|].
  destruct (i_session _ Hi _ _ Ha) as [O1 O2 O3 O4 O5 O6]. rewrite Hp in *. cbn in *.
  eapply inv_phase; cbn in *; try done; try lia.
  - apply (has_flag_lor s). apply O3. lia.
  - apply O4. lia.
  - by apply (has_flag_raised s).
  - intros _. eapply no_readers; [done..|]. rewrite Hp. cbn. lia.
Qed.

Lemma inv_release a s w : inv w -> heap w !! a = Some s -> s_phase s = Marked -> (forall t, pcs w !! t <> Some (Checked a)) ->
  exists w', (w ← switch_core_session_rwunlock a w; update a (fun s => at_phase Released (raise SSF_DESTROYABLE s)) w) = Ok w' /\ inv w'.
Proof.
  intros Hi Ha Hp Hpc. unfold switch_core_session_rwunlock. rewrite (bind_ok _ _ _ (update_ok _ _ _ _ Ha)).
  erewrite update_ok by (rewrite lookup_put; by rewrite decide_True). eexists. split; [done|]. rewrite session_put_put.
  destruct (i_session _ Hi _ _ Ha) as [O1 O2 O3 O4 O5 O6]. rewrite Hp in *. cbn in *. rewrite O2.
  eapply (inv_phase a s (at_phase Released (raise SSF_DESTROYABLE (with_lock (s_readers s) false s)))); cbn in *; try done; try lia.
  - apply (has_flag_lor s). apply O3. lia.
  - apply O4. lia.
  - apply (has_flag_lor s). apply O5. lia.
  - intros _. eapply no_readers; [done..|]. rewrite Hp. cbn. lia.
Qed.

(** Out of the table goes the entry of the session, so that none is left for it. *)
Lemma inv_delete a s w : inv w -> heap w !! a = Some s -> hash_mutex w = None -> (forall t, (t, a) ∉ refs w) ->
  s_writer s = false -> exists w', destroy_delete a w = Ok w' /\ inv w'.
Proof.
  intros Hi Ha Hm Hno Hw. unfold destroy_delete. rewrite (bind_ok _ _ _ (deref_ok _ _ _ Ha)). eexists. split; [done|].
  set (w1 := set_table (sm_delete (table (notes _ w)) (s_uuid s)) (notes _ w)).
  assert (inv w1 /\ forall u, sm_find (table w1) u <> Some a) as [Hi1 Hgone].
  { pose proof Hi as [Ht He Hf Hs Hr Hp]. split; [split; cbn; [by apply sm_delete_ok| |done..|]|].
    - intros u b. rewrite sm_find_delete by done. case_bool_decide; [done|]. by apply He.
    - intros t q Hq. pose proof (no_pcs t w Hi Hm). congruence.
    - intros u. cbn. rewrite sm_find_delete by done. case_bool_decide as Hc; [done|]. intros Hb. destruct (He _ _ Hb) as (? & ? & ? & _). by simplify_eq. }
  assert (forall w2, inv w2 -> heap w2 = heap w -> table w2 = table w1 -> refs w2 = refs w -> pcs w2 = pcs w -> inv (put a (at_phase Deleted s) w2)) as Hput.
  { intros w2 Hi2 Hh Ht Hr Hq. destruct (i_session _ Hi _ _ Ha) as [O1 O2 O3 O4 O5 O6].
    eapply inv_put; [done|by rewrite Hh|done|..]; rewrite ?Hr, ?Ht, ?Hq.
    - split; cbn; [done|done|lia..].
    - intros t Ht'. by destruct (Hno t).
    - intros u Hu. by destruct (Hgone u).
    - intros t Ht'. pose proof (no_pcs t w Hi Hm). congruence. }
  assert (heap w1 = heap w /\ refs w1 = refs w /\ pcs w1 = pcs w) as (? & ? & ?) by done.
  clearbody w1. cbv zeta. destruct (_ =? 0); [by apply Hput|]. destruct (_ && _); apply Hput; try done; by repeat (apply inv_counters || apply inv_note).
Qed.

Lemma inv_free a s w : inv w -> heap w !! a = Some s -> s_phase s = Deleted -> exists w', destroy_free a w = Ok w' /\ inv w'.
Proof.
  intros Hi Ha Hp. unfold destroy_free. rewrite (bind_ok _ _ _ (deref_ok _ _ _ Ha)). eexists. split; [done|]. apply inv_note.
  pose proof Hi as [Ht He Hf Hs Hr Hq]. split; cbn.
  - done.
  - intros u b Hb. destruct (He _ _ Hb) as (sb & Hsb & ? & ?). exists sb. rewrite lookup_delete_ne by congruence. done.
  - intros b sb [_ Hb]%lookup_delete_Some. by eapply Hf.
  - intros b sb [_ Hb]%lookup_delete_Some. by apply Hs.
  - intros t b Hb. destruct (Hr _ _ Hb) as (sb & Hsb & Hk). exists sb. rewrite lookup_delete_ne; [done|].
    intros <-. simplify_eq. rewrite Hp in Hk. cbn in Hk. lia.
  - intros t q Hq'. destruct (Hq _ _ Hq') as [? Hok]. split; [done|]. destruct q as [|b]; [done|]. destruct Hok as [? Hlt].
    split; [done|]. cbn. intros sb [_ Hb]%lookup_delete_Some. by apply Hlt.
Qed.

(** Every step that is taken with patience has an outcome, and keeps the
    invariant. *)
Lemma session_step_inv w l r : inv w -> patient w l -> step w l r -> exists w', r = Ok w' /\ inv w'.
Proof.
  intros Hi Hpat Hstep. destruct Hstep as [uuid ep c w Hm|t u how a w Hm Hq Hu|t how a w Hq|t a w Hq|t a w Hq|t a w Ht|a f w He Hf
    |a u w He Hm|pool created a w He|a s w Ha Hp Hup|a s w Ha Hp Hfree|a s w Ha Hp|a s w Ha Hp|a s w Ha Hp Hm|a s w Ha Hp Hm|a s w Ha Hp].
  - eexists. split; [done|]. by apply inv_enter.
  - eexists. split; [done|]. by eapply inv_find.
  - by eapply inv_check.
  - by eapply inv_lock.
  - destruct (i_pcs _ Hi _ _ Hq) as (Hm & [u Hu] & Hk). destruct (i_entry _ Hi _ _ Hu) as (s & Ha & _).
    rewrite (bind_ok _ _ _ (deref_ok _ _ _ Ha)). eexists. split; [done|]. by apply inv_done_looking.
  - by apply inv_unlock.
  - by apply inv_work.
  - by apply inv_rename.
  - by apply inv_launch.
  - by eapply inv_ended.
  - by eapply inv_wrlock.
  - by eapply inv_mark.
  - by eapply inv_release.
  - eapply inv_delete; [done..| |].
    + apply held_pos. rewrite <-(so_readers _ _ _ (i_session _ Hi _ _ Ha)). eapply no_readers; [done..|]. rewrite Hp. cbn. lia.
    + by rewrite (so_writer _ _ _ (i_session _ Hi _ _ Ha)), Hp.
  - eapply inv_delete; [done..|]. by rewrite (so_writer _ _ _ (i_session _ Hi _ _ Ha)), Hp.
  - by eapply inv_free.
Qed.

Lemma session_reach_inv w : reachable w -> inv w.
Proof.
  induction 1 as [k|w l w' _ IH Hp Hs].
  - split; cbn; [apply sm_empty_ok|..].
    + intros u a. by rewrite sm_find_empty.
    + intros a s. by rewrite lookup_empty.
    + intros a s. by rewrite lookup_empty.
    + intros t a Hin. by apply elem_of_nil in Hin.
    + intros t q. by rewrite lookup_empty.
  - by destruct (session_step_inv _ _ _ IH Hp Hs) as (? & [= <-] & ?).
Qed.

End invariant.

(** C11: A session that was located is not freed while it is held.  Threads
    request, locate, lock, use, rename, launch and release sessions, and the
    threads of the sessions end them, interleaved in any order at the points
    where no lock protects them.  As long as a session is not marked and
    released between another thread's check and its lock, and no session is
    discarded that somebody has located, no step uses a session that is gone;
    whoever has a reference finds its session alive, with the reader counted and
    no writer; and an entry of the table leads to a live session of that uuid. *)
Theorem held_session_lives {H} {SM : StringMap H Z} (w : world H) (l : label) (r : res (world H)) :
  reachable w -> patient w l -> step w l r ->
  (exists w', r = Ok w')
  /\ (forall t a, (t, a) ∈ refs w -> exists s, heap w !! a = Some s /\ 1 <= s_readers s /\ s_writer s = false)
  /\ (forall u a, sm_find (table w) u = Some a -> exists s, heap w !! a = Some s /\ sm_canon (s_uuid s) = sm_canon u).
Proof.
  intros Hi%session_reach_inv Hp Hs. split_and!.
  - destruct (session_step_inv _ _ _ Hi Hp Hs) as (w' & -> & _). by exists w'.
  - intros t a Hin. destruct (i_refs _ Hi _ _ Hin) as (s & Ha & Hk). exists s. split; [done|].
    destruct (i_session _ Hi _ _ Ha) as [O1 O2 _ _ _ _]. split.
    + pose proof (zlen_nonneg (filter (fun r => r.2 = a) (refs w))). fold (held a (refs w)) in *.
      destruct (decide (held a (refs w) = 0)) as [E|]; [|lia]. by destruct (proj2 (held_pos a (refs w)) E t).
    + rewrite O2. destruct (s_phase s); cbn in Hk; try lia; done.
  - intros u a Hu. destruct (i_entry _ Hi _ _ Hu) as (s & ? & ? & _). by exists s.
Qed.

(** ** Schedules that can be executed *)

(** The steps of a schedule; the thread of a session takes its next step with
    [Advance]. *)
Inductive action :=
| Enter (uuid : bytes) (ep : Z) (c : channel) | Find (t : Z) (u : bytes) (how : lookup) | Check (t : Z) | Lock (t : Z)
| Unlock (t a : Z) | Hangup (env : session_env) (cause a : Z) | Launch (a : Z) | Advance (a : Z) | Throw (a : Z).

Section schedules.
Context {H : Type} {SM : StringMap H Z}.
Implicit Types w : world H.

Definition mutex_free w : bool := bool_decide (hash_mutex w = None).

Definition may_use (a : Z) w : bool :=
  existsb (fun r => r.2 =? a) (refs w) || match heap w !! a with Some s => bool_decide (s_phase s = Running) | None => false end.

(** The next step of the thread of a session. *)
Definition advance (a : Z) (s : session) w : option (label * res (world H)) :=
  match s_phase s with
  | Unlaunched => None
  | Running => if up_nosig (s_channel s) then None else Some (Other, update a (at_phase Ended) w)
  | Ended => if lock_free s then Some (Other, w ← switch_core_session_write_lock a w; update a (at_phase WriteLocked) w) else None
  | WriteLocked => Some (Other, mark_destroyed a w)
  | Marked => Some (Release a, w ← switch_core_session_rwunlock a w; update a (fun s => at_phase Released (raise SSF_DESTROYABLE s)) w)
  | Released => if mutex_free w then Some (Other, destroy_delete a w) else None
  | Deleted => Some (Other, destroy_free a w)
  end.

Definition act (x : action) w : option (label * res (world H)) :=
  match x with
  | Enter uuid ep c => if mutex_free w then Some (Other, Ok (enter_session uuid ep c w).1) else None
  | Find t u how =>
    if mutex_free w && bool_decide (pcs w !! t = None)
    then a ← sm_find (table w) u; Some (Other, Ok (set_threads (Some t) (refs w) (<[t := Found how a]> (pcs w)) w)) else None
  | Check t =>
    match pcs w !! t with
    | Some (Found how a) =>
      Some (Other, s ← deref w a;
                   Ok (if refuses how s then done_looking t w else set_threads (hash_mutex w) (refs w) (<[t := Checked a]> (pcs w)) w))
    | _ => None
    end
  | Lock t =>
    match pcs w !! t with
    | Some (Checked a) =>
      Some (Other, '(w, st) ← tryrdlock a w;
                   Ok (done_looking t (if bool_decide (st = SWITCH_STATUS_SUCCESS) then take_ref t a w else w)))
    | _ => None
    end
  | Unlock t a => if bool_decide ((t, a) ∈ refs w) then Some (Other, w ← switch_core_session_rwunlock a w; Ok (drop_ref t a w)) else None
  | Hangup env cause a =>
    s ← heap w !! a; _ ← switch_channel_perform_hangup env cause (s_channel s);
    if may_use a w then Some (Other, hangup env cause a w) else None
  | Launch a =>
    s ← heap w !! a;
    if bool_decide (s_phase s = Unlaunched)
    then Some (Other, fst <$> switch_core_session_thread_launch false true a w) else None
  | Advance a => s ← heap w !! a; advance a s w
  | Throw a =>
    s ← heap w !! a; if bool_decide (s_phase s = Unlaunched) && mutex_free w then Some (Discard a, destroy_delete a w) else None
  end.

Lemma may_use_entitled a w : may_use a w = true -> entitled a w.
Proof.
  unfold may_use. intros [([t b] & Hin%list_elem_of_In & Hb%Z.eqb_eq)%existsb_exists|Hr]%orb_true_iff.
  - cbn in Hb. subst. left. by exists t.
  - right. destruct (heap w !! a) as [s|]; [|done]. exists s. by apply bool_decide_eq_true in Hr.
Qed.

Lemma advance_step a s w l r : heap w !! a = Some s -> advance a s w = Some (l, r) -> step w l r.
Proof.
  intros Ha. unfold advance, mutex_free. destruct (s_phase s) eqn:Hp; repeat case_match; try done; intros [= <- <-];
    repeat match goal with E : bool_decide _ = true |- _ => apply bool_decide_eq_true in E end; by econstructor.
Qed.

Lemma act_step x w l r : act x w = Some (l, r) -> step w l r.
Proof.
  unfold act, mutex_free. destruct x; intros Hx; repeat case_match; simplify_option_eq;
    repeat match goal with E : _ && _ = true |- _ => apply andb_true_iff in E as [? ?] | E : bool_decide _ = true |- _ => apply bool_decide_eq_true in E end;
    try (by econstructor).
  - apply st_work; [by apply may_use_entitled|]. intros s Hs. simplify_eq. eexists. split; [done|]. by eapply step_hangup.
  - apply st_launch. left. by eexists.
  - by eapply advance_step.
  - case_bool_decide; simplify_eq. by econstructor.
Qed.

(** A whole schedule, all of whose steps can be taken and succeed. *)
Fixpoint play (xs : list action) w : option (world H) :=
  match xs with
  | [] => Some w
  | x :: xs => match act x w with Some (_, Ok w') => play xs w' | _ => None end
  end.

Lemma play_possible xs w w' : play xs w = Some w' -> rtc (fun w w' => exists l, step w l (Ok w')) w w'.
Proof.
  revert w. induction xs as [|x xs IH]; intros w; cbn [play]; [by intros [= <-]|]. destruct (act x w) as [[l [w1| |]]|] eqn:E; try done.
  intros Hw. apply IH in Hw. eapply rtc_l; [|done]. exists l. by apply act_step in E.
Qed.

(** The same with patience. *)
Definition patientb w (l : label) : bool :=
  match l with
  | Release a => bool_decide (map_Forall (fun _ p => p <> Checked a) (pcs w))
  | Discard a => bool_decide (Forall (fun r => r.2 <> a) (refs w))
  | Other => true
  end.

Lemma patientb_spec w l : patientb w l = true -> patient w l.
Proof.
  destruct l as [a|a|]; cbn; [intros Hf%bool_decide_eq_true t Ht; by apply (Hf t _ Ht)| |done].
  intros Hf%bool_decide_eq_true t Ht. rewrite Forall_forall in Hf. by apply (Hf _ Ht).
Qed.

Fixpoint play_patiently (xs : list action) w : option (world H) :=
  match xs with
  | [] => Some w
  | x :: xs => match act x w with Some (l, Ok w') => if patientb w l then play_patiently xs w' else None | _ => None end
  end.

Lemma play_reachable xs w w' : reachable w -> play_patiently xs w = Some w' -> reachable w'.
Proof.
  revert w. induction xs as [|x xs IH]; intros w Hr; cbn [play_patiently]; [by intros [= <-]|].
  destruct (act x w) as [[l [w1| |]]|] eqn:E; try done. destruct (patientb w l) eqn:Hp; [|done]. apply IH.
  eapply reach_step; [done|by apply patientb_spec|by eapply act_step].
Qed.

End schedules.

(** ** What the code relies on *)

(** Any interleaving, patient or not. *)
Definition possible {H} {SM : StringMap H Z} (w : world H) : Prop :=
  exists k, rtc (fun w w' => exists l, step w l (Ok w')) (switch_core_session_init k) w.

#[local] Instance uuid_table : StringMap (HashTable.switch_hashtable bytes Z Z) Z := core_hash_string_map true.

Definition sample_counters : counters := Counters 0 0 0 30 30 0 0 false.
Definition sample_channel : channel := switch_channel_alloc SWITCH_CALL_DIRECTION_INBOUND.

(** A schedule after which one more action uses a session that is gone. *)
Lemma play_fault xs x l : (play xs (switch_core_session_init sample_counters) ≫= act x) = Some (l, Fault) ->
  exists w, possible w /\ step w l Fault.
Proof.
  intros (w & Hw & Hx)%bind_Some. exists w. split; [exists sample_counters; by eapply play_possible|by eapply act_step].
Qed.

(** Between the check and the lock of a look-up, a whole call can end: the
    channel goes down, the session's thread gets the write lock, marks the
    session and gives the lock back, and the look-up gets a lock that protects
    nothing. *)
Theorem lookup_race : exists w, possible w /\ step w Other Fault.
Proof.
  eapply (play_fault [Enter (str "a") 1 sample_channel; Launch 0; Find 7 (str "a") Locate; Check 7; Hangup sample_env 16 0;
    Advance 0; Advance 0; Advance 0; Advance 0; Lock 7; Advance 0; Advance 0] (Unlock 7 0)). vm_compute. reflexivity.
Qed.

(** A session that was never launched is destroyed without a look at its lock,
    so that whoever located it uses it after it is gone. *)
Theorem discard_race : exists w, possible w /\ step w Other Fault.
Proof.
  eapply (play_fault [Enter (str "a") 1 sample_channel; Find 7 (str "a") Locate; Check 7; Lock 7; Throw 0; Advance 0] (Unlock 7 0)).
  vm_compute. reflexivity.
Qed.

(** While a thread holds a session, the call ends and the thread of the session
    waits; when the lock is given back, the session goes its way to the end. *)
Definition sample_schedule : list action :=
  [Enter (str "a") 1 sample_channel; Launch 0; Find 7 (str "a") Locate; Check 7; Lock 7; Hangup sample_env 16 0; Advance 0].

Definition sample_world : world (HashTable.switch_hashtable bytes Z Z) :=
  default (switch_core_session_init sample_counters) (play_patiently sample_schedule (switch_core_session_init sample_counters)).

Lemma sample_reachable : reachable sample_world.
Proof.
  unfold sample_world. destruct (play_patiently _ _) as [w|] eqn:E; [by eapply play_reachable, E; apply reach_start|apply reach_start].
Qed.

Lemma held_session_lives_witness :
  (exists w', (w ← switch_core_session_rwunlock 0 sample_world; Ok (drop_ref 7 0 w)) = Ok w')
  /\ (7, 0) ∈ refs sample_world
  /\ (act (Advance 0) sample_world = None)
  /\ (fun w => (size (heap w), sm_find (table w) (str "a"))) <$> play_patiently (Unlock 7 0 :: replicate 5 (Advance 0)) sample_world
     = Some (0%nat, None).
Proof.
  assert ((7, 0) ∈ refs sample_world) as Hin by (vm_compute; left).
  split_and!; [|done|vm_compute; reflexivity|].
  - apply (held_session_lives sample_world Other _ sample_reachable I). by apply st_unlock.
  - vm_compute. reflexivity.
Defined.

(** ** A request is served *)

Section requests.
Context {H : Type} {SM : StringMap H Z}.
Implicit Types w : world H.

(** Room is left by the rate and by the limit. *)
Definition room_left (flags : Z) w : bool :=
  negb (Z.land flags SOF_NO_LIMITS =? 0) || ((1 <? sps (count w)) && (session_count (count w) <? session_limit (count w))).

Definition admissible (rt : runtime) (endpoint : option Z) (dir : switch_call_direction) (flags : Z) (use_uuid : option bytes) w : bool :=
  bool_decide (use_uuid ≫= sm_find (table w) = None) && admitted_direction rt dir && ready rt
  && bool_decide (is_Some endpoint) && idle_enough rt && room_left flags w.

Definition counters_ok (k : counters) : Prop := 0 <= session_count k < 2 ^ 32 - 1 /\ - 2 ^ 31 < sps k < 2 ^ 31.

(** Two worlds that differ in the counters of the rate and in the log. *)
Record like w w' : Prop := Like {
  lk_table : table w' = table w; lk_heap : heap w' = heap w; lk_addr : next_addr w' = next_addr w;
  lk_mutex : hash_mutex w' = hash_mutex w; lk_refs : refs w' = refs w; lk_pcs : pcs w' = pcs w;
  lk_count : session_count (count w') = session_count (count w); lk_id : session_id (count w') = session_id (count w) }.

Lemma inv_like w w' : like w w' -> inv w -> inv w'.
Proof. destruct w, w'. intros [] []. cbn in *. subst. by split. Qed.

Lemma new_channel_up rt dir : exists c, new_channel rt dir = Some c /\ state c = CS_NEW.
Proof.
  destruct dir; cbn [new_channel]; [by eexists|]. unfold switch_channel_set_flag.
  match goal with |- exists c, switch_channel_set_flag_value ?e CF_OUTBOUND 1 ?d = _ /\ _ =>
    destruct (set_flag_total e CF_OUTBOUND 1 d) as [c Hc]; [done|exists c; split; [done|]; by apply set_flag_calm in Hc as [-> _ _ _]] end.
Qed.

Lemma throttle_spec ep w : counters_ok (count w) ->
  exists w', throttle ep w = (w', (1 <? sps (count w)) && (session_count (count w) <? session_limit (count w))) /\ like w w'.
Proof.
  intros [Hn Hs]. unfold throttle. rewrite (swrap_small 32), (wrap_small 32) by lia.
  destruct (Z.leb_spec (sps (count w) - 1) 0) as [|], (Z.ltb_spec 1 (sps (count w))) as [|]; try lia; cbn [orb andb]; [by eexists|].
  destruct (Z.ltb_spec (session_limit (count w)) (session_count (count w) + 1)), (Z.ltb_spec (session_count (count w)) (session_limit (count w)));
    try lia; by eexists.
Qed.

Lemma admission ep flags w : counters_ok (count w) ->
  exists w1, (if Z.land flags SOF_NO_LIMITS =? 0 then throttle ep (note (Protect ep) w) else (note (Protect ep) w, true)) = (w1, room_left flags w)
    /\ like w w1.
Proof.
  intros Hk. unfold room_left. destruct (Z.land flags SOF_NO_LIMITS =? 0); [|by eexists].
  destruct (throttle_spec ep (note (Protect ep) w)) as (w1 & -> & []); [done|]. by eexists.
Qed.

(** The session that is entered, with a channel that is up, can be located at
    once. *)
Lemma locate_entered uuid ep c c' w :
  sm_ok (table w) -> state c' = CS_NEW ->
  let s := Session uuid (session_id (count w)) 0 ep c' 0 false Unlaunched in
  exists w2, switch_core_session_perform_locate (Some uuid) (put (next_addr w) s (enter_session uuid ep c w).1) = Ok (w2, Some (next_addr w)).
Proof.
  intros Ht Hc s. set (w1 := put _ _ _). unfold switch_core_session_perform_locate. cbn [mbind option_bind].
  assert (sm_find (table w1) uuid = Some (next_addr w)) as -> by (cbn; by rewrite sm_find_insert, bool_decide_eq_true_2).
  assert (heap w1 !! next_addr w = Some s) as Ha by (unfold w1; rewrite lookup_put; by rewrite decide_True).
  unfold switch_core_session_read_lock, tryrdlock. rewrite !(bind_ok _ _ _ (deref_ok _ _ _ Ha)).
  assert (read_lock_refuses s = false) as -> by (unfold read_lock_refuses, has_flag, up_nosig; cbn; by rewrite Hc).
  by eexists.
Qed.

End requests.

(** C18: A request for a session is served exactly when it may be.  It is refused
    when its uuid is taken, when the direction or all new sessions are shut out,
    when there is no endpoint, when the processor is too busy, or, unless limits
    do not apply to it, when the rate of the second or the limit of sessions is
    used up; a refusal leaves table, sessions and their number as they are.
    Otherwise there is a new session with the next number, the table is that of
    before with the uuid leading to it, and locating it succeeds. *)
Theorem session_request {H} {SM : StringMap H Z} (rt : runtime) endpoint dir flags use_uuid (w : world H) :
  reachable w -> counters_ok (count w) ->
  let uuid := match use_uuid with Some u => uuid_str u | None => fresh_uuid rt end in
  exists w' r, switch_core_session_request_uuid rt endpoint dir flags use_uuid w = Ok (w', r) /\
  if admissible rt endpoint dir flags use_uuid w
  then exists a s, r = Some a /\ heap w !! a = None /\ heap w' !! a = Some s /\ s_id s = session_id (count w) /\ Some (s_endpoint s) = endpoint
    /\ session_count (count w') = session_count (count w) + 1
    /\ (forall u, sm_find (table w') u = if bool_decide (sm_canon uuid = sm_canon u) then Some a else sm_find (table w) u)
    /\ exists w2, switch_core_session_perform_locate (Some uuid) w' = Ok (w2, Some a)
  else r = None /\ table w' = table w /\ heap w' = heap w /\ session_count (count w') = session_count (count w).
Proof.
  intros Hi%session_reach_inv Hk uuid. unfold switch_core_session_request_uuid, admissible.
  destruct (use_uuid ≫= sm_find (table w)) eqn:Hu; [rewrite bool_decide_eq_true_2, (bool_decide_eq_false_2 (Some _ = _)) by done; by eexists _, _|].
  rewrite bool_decide_eq_false_2, (bool_decide_eq_true_2 (None = None)) by (done || by intros [? ?]).
  destruct (admitted_direction rt dir); [|by eexists _, _]. destruct (ready rt); [|by eexists _, _].
  destruct endpoint as [ep|]; [rewrite (bool_decide_eq_true_2 (is_Some _)) by done|by eexists _, _].
  destruct (idle_enough rt); [|by eexists _, _]. cbn [negb andb].
  destruct (admission ep flags w Hk) as (w1 & -> & Hl). pose proof (inv_like _ _ Hl Hi) as Hi1. destruct Hl as [Ht Hh Hn _ _ _ Hc Hid].
  destruct (room_left flags w); cbn [negb]; [|by eexists _, _].
  destruct (new_channel_up rt dir) as (c & -> & Hnew). fold uuid. set (c1 := set_variable _ _ (set_variable _ _ c)).
  destruct (enter_session uuid ep c1 w1) as [w2 a] eqn:He. pose proof He as [= Hw2 Ha].
  assert (heap w2 !! a = Some (Session uuid (session_id (count w1)) 0 ep c1 0 false Unlaunched)) as Hs
    by (subst; cbn; by rewrite lookup_insert_eq).
  rewrite (bind_ok _ _ _ (update_ok _ _ _ _ Hs)). set (c2 := set_variable _ _ (s_channel _)). eexists _, _. split; [done|].
  eexists a, _. split_and!; [done| |by rewrite lookup_put, decide_True|done|done| | |].
  - rewrite <-Hh, <-Ha. destruct (heap w1 !! next_addr w1) eqn:E; [|done]. apply (i_fresh _ Hi1) in E. lia.
  - subst w2. cbn. rewrite wrap_small by (destruct Hk; lia). lia.
  - intros u. subst w2. cbn. rewrite sm_find_insert by apply Hi1. by rewrite Ht, Ha.
  - destruct (locate_entered uuid ep c1 c2 w1) as [w3 Hw3]; [apply Hi1|done|]. rewrite He, Ha in Hw3. by exists w3.
Qed.

Definition sample_runtime : runtime := Runtime true false true true (str "fresh") sample_env.

Lemma session_request_witness :
  let w := switch_core_session_init (H := HashTable.switch_hashtable bytes Z Z) sample_counters in
  let request dir := switch_core_session_request_uuid sample_runtime (Some 1) dir 0 (Some (str "a")) w in
  (exists w' a, request SWITCH_CALL_DIRECTION_INBOUND = Ok (w', Some a)) /\ (exists w', request SWITCH_CALL_DIRECTION_OUTBOUND = Ok (w', None)).
Proof.
  cbv zeta. split.
  - destruct (session_request sample_runtime (Some 1) SWITCH_CALL_DIRECTION_INBOUND 0 (Some (str "a")) (switch_core_session_init sample_counters)
      (reach_start _)) as (w' & r & -> & Hr); [split; vm_compute; done|].
    replace (admissible _ _ _ _ _ _) with true in Hr by (vm_compute; reflexivity). destruct Hr as (a & s & -> & _). by eexists _, _.
  - destruct (session_request sample_runtime (Some 1) SWITCH_CALL_DIRECTION_OUTBOUND 0 (Some (str "a")) (switch_core_session_init sample_counters)
      (reach_start _)) as (w' & r & -> & Hr); [split; vm_compute; done|].
    replace (admissible _ _ _ _ _ _) with false in Hr by (vm_compute; reflexivity). destruct Hr as (-> & _). by eexists.
Defined.

(** ** Flaws *)

(** A uuid is checked as it is given and stored cut to 256 characters, so that
    the check for duplicates misses a longer one, whose session takes the entry
    of the other. *)
Theorem long_uuid_taken : let long c := replicate 256 97 ++ [c] in
  (w ← switch_core_session_request_uuid sample_runtime (Some 1) SWITCH_CALL_DIRECTION_INBOUND 0 (Some (long 98))
         (switch_core_session_init (H := HashTable.switch_hashtable bytes Z Z) sample_counters);
   w' ← switch_core_session_request_uuid sample_runtime (Some 1) SWITCH_CALL_DIRECTION_INBOUND 0 (Some (long 99)) w.1;
   Ok (sm_find (table w.1) (replicate 256 97), sm_find (table w'.1) (replicate 256 97), sm_find (table w'.1) (long 99), size (heap w'.1)))
  = Ok (Some 0, Some 1, None, 2%nat).
Proof. vm_compute. reflexivity. Qed.

(** The limit is checked under one mutex and the session counted under another:
    two requests at the same time pass a limit of one. *)
Theorem limit_race :
  let w0 := (switch_core_session_limit 1 (switch_core_session_init (H := HashTable.switch_hashtable bytes Z Z) sample_counters)).1 in
  let '(w1, ok1) := throttle 1 w0 in
  let '(w2, ok2) := throttle 1 w1 in
  let w3 := (enter_session (str "b") 1 sample_channel (enter_session (str "a") 1 sample_channel w2).1).1 in
  ok1 = true /\ ok2 = true /\ session_limit (count w3) = 1 /\ session_count (count w3) = 2.
Proof. vm_compute. done. Qed.

(** A rate of [n] sessions per second admits one less, and a rate of one none. *)
Theorem rate_short_by_one :
  let w0 := switch_core_session_init (H := HashTable.switch_hashtable bytes Z Z) sample_counters in
  let w n := set_counters (set_rate n n (count w0)) w0 in
  room_left 0 (w 1) = false /\ room_left 0 (w 2) = true /\ room_left 0 (throttle 1 (w 2)).1 = false.
Proof. vm_compute. done. Qed.

(** When the thread of a session cannot be made, the session stays marked as
    started, and a second attempt is refused. *)
Theorem launch_not_again :
  let w := (enter_session (str "a") 1 sample_channel (switch_core_session_init (H := HashTable.switch_hashtable bytes Z Z) sample_counters)).1 in
  ('(w, st) ← switch_core_session_thread_launch false false 0 w; '(_, st') ← switch_core_session_thread_launch false true 0 w; Ok (st, st'))
  = Ok (SWITCH_STATUS_GENERR, SWITCH_STATUS_INUSE).
Proof. vm_compute. reflexivity. Qed.

(** A value that begins with a tilde is looked for in itself, not in the value of
    the variable, so that it matches every session that has the variable. *)
Theorem like_matches_all : matches_value (Some (str "~north")) (str "south") = true.
Proof. vm_compute. reflexivity. Qed.

(** ** Hanging up everybody *)

Section hangups.
Context {H : Type} {SM : StringMap H Z}.
Implicit Types w : world H.

Lemma like_refl w : like w w.
Proof. by split. Qed.

Lemma like_trans w1 w2 w3 : like w1 w2 -> like w2 w3 -> like w1 w3.
Proof. intros [] []. split; congruence. Qed.

Lemma relock_same s : s_writer s = false -> with_lock (s_readers s + 1 - 1) false s = s.
Proof. destruct s as [u i f e c r wr p]. cbn. intros ->. unfold with_lock. cbn. f_equal. lia. Qed.

Lemma deref_put a s w : deref (put a s w) a = Ok s.
Proof. apply deref_ok. rewrite lookup_put. by rewrite decide_True. Qed.

(** A read lock that is taken and given back. *)
Lemma lock_unlock a s w : heap w !! a = Some s -> s_writer s = false ->
  switch_core_session_rwunlock a (put a (with_lock (s_readers s + 1) false s) w) = Ok w.
Proof.
  intros Ha Hw. unfold switch_core_session_rwunlock. erewrite update_ok by (rewrite lookup_put; by rewrite decide_True).
  rewrite session_put_put. cbn. pose proof (relock_same s Hw) as E. unfold with_lock in *. cbn in *. rewrite E.
  unfold put, set_heap. rewrite insert_id by done. by destruct w.
Qed.

(** Locking a session of the table succeeds exactly when its channel is up. *)
Lemma read_lock_cases a s w : inv w -> heap w !! a = Some s -> s_phase s <> Deleted ->
  (up_nosig (s_channel s) = true /\ s_writer s = false
    /\ switch_core_session_read_lock a w = Ok (put a (with_lock (s_readers s + 1) false s) w, SWITCH_STATUS_SUCCESS))
  \/ (up_nosig (s_channel s) = false /\ exists w', switch_core_session_read_lock a w = Ok (w', SWITCH_STATUS_FALSE) /\ like w w').
Proof.
  intros Hi Ha Hd. destruct (i_session _ Hi _ _ Ha) as [O1 O2 O3 O4 O5 O6]. unfold switch_core_session_read_lock.
  rewrite (bind_ok _ _ _ (deref_ok _ _ _ Ha)). unfold tryrdlock. rewrite (bind_ok _ _ _ (deref_ok _ _ _ Ha)).
  destruct (up_nosig (s_channel s)) eqn:Hup; [left|right].
  - assert (rank (s_phase s) <= 1) as Hk.
    { destruct (decide (2 <= rank (s_phase s))) as [Hge|]; [|lia]. assert (rank (s_phase s) <= 5) by (destruct (s_phase s); cbn; [lia..|done]).
      specialize (O4 ltac:(lia)). congruence. }
    assert (s_writer s = false) as Hw by (rewrite O2; destruct (s_phase s); cbn in Hk; try lia; done).
    unfold read_lock_refuses. rewrite O6, Hup, Hw by lia. done.
  - unfold read_lock_refuses. rewrite Hup, orb_true_r. split; [done|]. destruct (s_writer s) eqn:Hw; cbn [mbind res_bind].
    + rewrite bool_decide_eq_false_2 by done. eexists. split; [done|apply like_refl].
    + rewrite bool_decide_eq_true_2 by done. destruct (flag_set _ _).
      * erewrite bind_ok by exact (lock_unlock a s (note (Wake a) w) Ha Hw). by eexists.
      * erewrite bind_ok by exact (lock_unlock a s w Ha Hw). eexists. split; [done|apply like_refl].
Qed.

Lemma session_collect_spec keep l head w :
  (forall r b s, keep (with_lock r b s) = keep s) -> inv w ->
  Forall (fun a => exists s, heap w !! a = Some s /\ s_phase s <> Deleted) l ->
  exists w' hs, collect keep l head w = Ok (w', hs) /\ like w w'
    /\ forall u, u ∈ head \/ (exists a s, a ∈ l /\ heap w !! a = Some s /\ up_nosig (s_channel s) = true /\ keep s = true /\ u = s_uuid s) <-> u ∈ hs.
Proof.
  intros Hkeep. revert head w. induction l as [|a l IH]; intros head w Hi Hl; cbn [collect].
  { eexists _, _. split; [done|]. split; [apply like_refl|]. intros u. split; [|by left]. intros [?|(a & s & ?%elem_of_nil & _)]; done. }
  apply Forall_cons in Hl as [(s & Ha & Hd) Hl].
  destruct (read_lock_cases a s w Hi Ha Hd) as [(Hup & Hw & ->)|(Hup & w' & -> & Hlk)]; cbn [mbind res_bind].
  - rewrite bool_decide_eq_true_2 by done. erewrite bind_ok by (apply deref_ok; rewrite lookup_put; by rewrite decide_True).
    rewrite (bind_ok _ _ _ (lock_unlock a s w Ha Hw)), Hkeep. cbn zeta.
    destruct (IH (if keep s then s_uuid s :: head else head) w Hi Hl) as (w' & hs & Hc & Hlk & Hin).
    eexists _, _. split; [exact Hc|]. split; [done|]. intros u. rewrite <-Hin. setoid_rewrite elem_of_cons. split.
    + intros [Hu|(b & sb & [->|Hb] & Hsb & Hup' & Hk & ->)]; [left; destruct (keep s); [by right|done]| |by right; exists b, sb].
      simplify_eq. left. rewrite Hk. left.
    + intros [Hu|(b & sb & Hb & Hrest)]; [|right; exists b, sb; auto]. destruct (keep s) eqn:Hk; [|by left].
      apply elem_of_cons in Hu as [->|Hu]; [|by left]. right. exists a, s. auto.
  - rewrite bool_decide_eq_false_2 by done. destruct (IH head w') as (w2 & hs & Hc & Hlk2 & Hin).
    { by eapply inv_like. }
    { eapply Forall_impl; [exact Hl|]. intros b. by rewrite (lk_heap _ _ Hlk). }
    eexists _, _. split; [exact Hc|]. split; [by eapply like_trans|]. intros u. rewrite <-Hin, (lk_heap _ _ Hlk). setoid_rewrite elem_of_cons.
    split; (intros [Hu|(b & sb & Hb & Hsb & Hrest)]; [by left|]); right; exists b, sb; [|by auto].
    destruct Hb as [->|Hb]; [|done]. simplify_eq. destruct Hrest as [Hup' _]. congruence.
Qed.

(** A channel that a hangup takes down: nobody is hanging it up already, and it
    does not hold its peer. *)
Definition can_hang (c : channel) : Prop := flag_set c CF_LEG_HOLDING = false /\ Z.land (opaque_flags c) OCF_HANGUP = 0.

Lemma hangup_takes_down env cause c : can_hang c -> up_nosig c = true ->
  exists c', switch_channel_perform_hangup env cause c = Some c' /\ chan_step c c' /\ up_nosig c' = false.
Proof.
  intros [Hh Ho] Hup. assert (exists c', switch_channel_perform_hangup env cause c = Some c' /\ up_nosig c' = false) as (c' & Hc & Hd).
  { unfold switch_channel_perform_hangup. rewrite Ho. cbn [Z.eqb negb]. set (c1 := with_opaque_flags _ c).
    change (flag_set c1 CF_LEG_HOLDING) with (flag_set c CF_LEG_HOLDING). rewrite Hh. cbn [mbind option_bind].
    destruct (clear_flag_total env CF_BLOCK_STATE c1) as [d Hd]; [done|]. rewrite Hd. cbn [mbind option_bind].
    apply clear_flag_calm in Hd as [Hs _ _ _]. rewrite Hs. change (state c1) with (state c). unfold up_nosig in Hup. rewrite Hup.
    eexists. split; [done|]. destruct (hangup_now_spec env cause d) as (es & Hst & _). unfold up_nosig. by rewrite Hst. }
  exists c'. split_and!; [done|by eapply step_hangup|done].
Qed.

(** Some sessions go down, the others stay as they are. *)
Record winds_down w w' : Prop := WindsDown {
  wd_inv : inv w'; wd_table : table w' = table w;
  wd_session a s : heap w !! a = Some s -> heap w' !! a = Some s
    \/ exists c, heap w' !! a = Some (with_channel c s) /\ up_nosig c = false }.

Lemma winds_trans w1 w2 w3 : winds_down w1 w2 -> winds_down w2 w3 -> winds_down w1 w3.
Proof.
  intros [Hi1 Ht1 Hs1] [Hi2 Ht2 Hs2]. split; [done|congruence|]. intros a s Ha. destruct (Hs1 _ _ Ha) as [Hb|(c & Hb & Hc)]; [by apply Hs2|].
  right. destruct (Hs2 _ _ Hb) as [Hd|(c' & Hd & Hc')]; [by exists c|by exists c'].
Qed.

Lemma winds_like w w' : inv w -> like w w' -> winds_down w w'.
Proof. intros Hi Hl. split; [by eapply inv_like|apply Hl|]. intros a s Ha. left. by rewrite (lk_heap _ _ Hl). Qed.

Lemma winds_stay w w' a s s' :
  winds_down w w' -> heap w !! a = Some s -> heap w' !! a = Some s' -> up_nosig (s_channel s) = false -> up_nosig (s_channel s') = false.
Proof. intros [_ _ Hs] Ha Ha' Hd. destruct (Hs _ _ Ha) as [?|(c & ? & ?)]; by simplify_eq. Qed.

Definition all_can_hang w : Prop := forall a s, heap w !! a = Some s -> up_nosig (s_channel s) = true -> can_hang (s_channel s).

Lemma can_hang_winds w w' : winds_down w w' -> (forall a, heap w !! a = None -> heap w' !! a = None) -> all_can_hang w -> all_can_hang w'.
Proof.
  intros [_ _ Hs] Hnew Hall a s' Ha' Hup. destruct (heap w !! a) as [s|] eqn:Ha; [|rewrite Hnew in Ha'; done].
  destruct (Hs _ _ Ha) as [Hb|(c & Hb & Hc)]; simplify_eq; [by eapply Hall|]. cbn in Hup. congruence.
Qed.

(** A session that is up is located, hung up and given back. *)
Lemma hang_up_one env cause a s w : inv w -> heap w !! a = Some s -> s_phase s <> Deleted -> can_hang (s_channel s) ->
  up_nosig (s_channel s) = true -> s_writer s = false ->
  exists c, up_nosig c = false /\ winds_down w (put a (with_channel c s) w)
    /\ (w1 ← hangup env cause a (put a (with_lock (s_readers s + 1) false s) w); switch_core_session_rwunlock a w1) = Ok (put a (with_channel c s) w).
Proof.
  intros Hi Ha Hd Hc Hup Hw. destruct (hangup_takes_down env cause (s_channel s) Hc Hup) as (c & Hh & Hst & Hdn). exists c. split_and!; [done| |].
  - split; [|done|].
    + by eapply inv_quiet; try done; cbn; apply stays_down.
    + intros b sb Hb. rewrite lookup_put. case_decide; [|by left]. subst. simplify_eq. right. by exists c.
  - unfold hangup, on_channel. rewrite deref_put. cbn [mbind res_bind s_channel with_lock]. rewrite Hh. cbn [mbind res_bind]. rewrite session_put_put. unfold switch_core_session_rwunlock.
    erewrite update_ok by (rewrite lookup_put; by rewrite decide_True). rewrite session_put_put. cbn [s_writer with_channel with_lock s_readers].
    do 3 f_equal. destruct s as [u i f e c0 r wr p]. cbn in *. subst wr. unfold with_lock, with_channel. cbn. f_equal. lia.
Qed.

(** Everybody on the list is down in the end. *)
Lemma visit_hang env cause l w : inv w -> all_can_hang w ->
  exists w', visit (hang_up env cause) l tt w = Ok (w', tt) /\ winds_down w w'
    /\ (forall u a s', u ∈ l -> sm_find (table w) u = Some a -> heap w' !! a = Some s' -> up_nosig (s_channel s') = false)
    /\ (forall a, (forall u, u ∈ l -> sm_find (table w) u <> Some a) -> heap w' !! a = heap w !! a).
Proof.
  revert w. induction l as [|u l IH]; intros w Hi Hall; cbn [visit].
  { eexists. split; [done|]. split; [by apply winds_like, like_refl|]. split; [|done]. intros u a s ?%elem_of_nil. done. }
  assert (forall w1, winds_down w w1 -> (forall a, heap w !! a = None -> heap w1 !! a = None) ->
    (forall a, sm_find (table w) u <> Some a -> heap w1 !! a = heap w !! a) ->
    (forall a s1, sm_find (table w) u = Some a -> heap w1 !! a = Some s1 -> up_nosig (s_channel s1) = false) ->
    exists w', visit (hang_up env cause) l tt w1 = Ok (w', tt) /\ winds_down w w'
      /\ (forall u' a s', u' ∈ u :: l -> sm_find (table w) u' = Some a -> heap w' !! a = Some s' -> up_nosig (s_channel s') = false)
      /\ (forall a, (forall u', u' ∈ u :: l -> sm_find (table w) u' <> Some a) -> heap w' !! a = heap w !! a)) as Hgo.
  { intros w1 Hw1 Hnew Hsame Hu. destruct (IH w1 (wd_inv _ _ Hw1) (can_hang_winds _ _ Hw1 Hnew Hall)) as (w' & -> & Hw' & Hl & Hrest).
    exists w'. split_and!; [done|by eapply winds_trans| |].
    2: { intros a Hno. rewrite Hrest, Hsame; [done|apply Hno; left|]. intros u' Hu'. rewrite (wd_table _ _ Hw1). apply Hno. by right. }
    intros u' a s' [->|Hin]%elem_of_cons Hf Ha.
    - destruct (found_live w a u Hi Hf) as [s Hs]. destruct (wd_session _ _ Hw1 _ _ Hs) as [Hs1|(c & Hs1 & _)];
        (eapply winds_stay; [exact Hw'|exact Hs1|exact Ha|by eapply Hu]).
    - eapply Hl; [done| |done]. by rewrite (wd_table _ _ Hw1). }
  unfold switch_core_session_perform_locate. cbn [mbind option_bind]. destruct (sm_find (table w) u) as [a|] eqn:Hf.
  2: { cbn [res_bind]. apply Hgo; [by apply winds_like, like_refl|done|done|done]. }
  destruct (i_entry _ Hi _ _ Hf) as (s & Ha & _ & Hd).
  destruct (read_lock_cases a s w Hi Ha Hd) as [(Hup & Hw & ->)|(Hup & w1 & -> & Hlk)]; cbn [mbind res_bind].
  - rewrite bool_decide_eq_true_2 by done. destruct (hang_up_one env cause a s w Hi Ha Hd (Hall _ _ Ha Hup) Hup Hw) as (c & Hdn & Hwd & Heq).
    unfold hang_up. destruct (hangup env cause a _) as [w1| |]; cbn [mbind res_bind] in Heq |- *; try done. rewrite Heq. apply Hgo; [done| | |].
    + intros b Hb. rewrite lookup_put. case_decide; [congruence|done].
    + intros b Hb. rewrite lookup_put. case_decide; [congruence|done].
    + intros b s1 [= <-]. rewrite lookup_put, decide_True by done. by intros [= <-].
  - rewrite bool_decide_eq_false_2 by done. apply Hgo; [by apply winds_like|intros b; by rewrite (lk_heap _ _ Hlk)..|].
    intros b s1 [= <-]. rewrite (lk_heap _ _ Hlk). intros. by simplify_eq.
Qed.

End hangups.

Section everybody.
Context {H : Type} {SM : StringMap H Z} {MW : MapWalk H Z}.

(** The sessions of a kind, and no others, are hung up. *)
Lemma hang_up_kind keep env cause (w : world H) :
  (forall r b s, keep (with_lock r b s) = keep s) -> (forall c s, keep (with_channel c s) = keep s) -> inv w -> all_can_hang w ->
  exists w', (('(w, l) ← collect keep (sm_values (table w)) [] w; '(w, _) ← visit (hang_up env cause) l tt w; Ok w) = Ok w')
    /\ winds_down w w'
    /\ forall u a s, sm_find (table w) u = Some a -> heap w !! a = Some s ->
       if keep s then exists s', heap w' !! a = Some s' /\ up_nosig (s_channel s') = false else heap w' !! a = Some s.
Proof.
  intros Hk1 Hk2 Hi Hall. destruct (session_collect_spec keep (sm_values (table w)) [] w Hk1 Hi) as (w1 & hs & -> & Hlk & Hin).
  { apply Forall_forall. intros a [k Hk]%sm_values_spec; [|apply Hi]. destruct (i_entry _ Hi _ _ Hk) as (s & Ha & _ & Hd). by exists s. }
  cbn [mbind res_bind]. pose proof (inv_like _ _ Hlk Hi) as Hi1.
  destruct (visit_hang env cause hs w1 Hi1) as (w' & -> & Hw' & Hdown & Hrest); [intros a s; rewrite (lk_heap _ _ Hlk); apply Hall|].
  pose proof (winds_trans _ _ _ (winds_like _ _ Hi Hlk) Hw') as Hwd. eexists. split; [done|]. split; [done|]. intros u a s Hf Ha.
  destruct (i_entry _ Hi _ _ Hf) as (s' & Ha' & Hc & _). rewrite Ha in Ha'. injection Ha' as <-.
  assert (sm_find (table w) (s_uuid s) = Some a) as Hfs by (rewrite <-Hf; apply sm_find_canon; [apply Hi|done]).
  rewrite (lk_table _ _ Hlk) in Hdown, Hrest. rewrite (lk_heap _ _ Hlk) in Hrest. destruct (keep s) eqn:Hk.
  - assert (exists s', heap w' !! a = Some s') as [s' Hs'] by (destruct (wd_session _ _ Hwd _ _ Ha) as [?|(c & ? & _)]; by eexists).
    exists s'. split; [done|]. destruct (up_nosig (s_channel s)) eqn:Hup; [|by eapply winds_stay].
    eapply Hdown; [|exact Hfs|exact Hs']. apply Hin. right. exists a, s. split_and!; try done. apply sm_values_spec; [apply Hi|by exists u].
  - rewrite Hrest; [done|]. intros u' Hu'%Hin Hf'. destruct Hu' as [?%elem_of_nil|(b & sb & Hb & Hsb & _ & Hkb & ->)]; [done|].
    apply sm_values_spec in Hb as [k Hb]; [|apply Hi]. destruct (i_entry _ Hi _ _ Hb) as (? & Hsb' & Hcb & _).
    rewrite Hsb in Hsb'. injection Hsb' as <-. rewrite (sm_find_canon _ _ _ (i_table _ Hi) Hcb), Hb in Hf'. simplify_eq. congruence.
Qed.

End everybody.

(** C20: Hanging up everybody leaves nobody out.  Whatever sessions there are and
    whoever holds them, when no channel holds its peer or is being hung up
    already, switch_core_session_hupall ends with every session of the table
    down, and switch_core_session_hupall_endpoint with those of the endpoint
    down and the others of the table as they were; the table and all locks are
    then as before. *)
Theorem hupall_leaves_nobody {H} {SM : StringMap H Z} {MW : MapWalk H Z} (env : session_env) (cause ep : Z) (w : world H) :
  reachable w -> all_can_hang w ->
  (exists w', switch_core_session_hupall env cause w = Ok w' /\ winds_down w w'
    /\ forall u a, sm_find (table w') u = Some a -> exists s, heap w' !! a = Some s /\ up_nosig (s_channel s) = false)
  /\ (exists w', switch_core_session_hupall_endpoint env ep cause w = Ok w' /\ winds_down w w'
    /\ forall u a s, sm_find (table w) u = Some a -> heap w !! a = Some s ->
       if s_endpoint s =? ep then exists s', heap w' !! a = Some s' /\ up_nosig (s_channel s') = false else heap w' !! a = Some s).
Proof.
  intros Hi%session_reach_inv Hall. split.
  - destruct (hang_up_kind (fun _ => true) env cause w) as (w' & Hw' & Hwd & Hall'); try done. exists w'. split_and!; [done|done|].
    intros u a Hf. rewrite (wd_table _ _ Hwd) in Hf. destruct (found_live w a u Hi Hf) as [s Hs]. by eapply (Hall' u a s).
  - by apply (hang_up_kind (fun s => s_endpoint s =? ep)).
Qed.

#[local] Instance uuid_walk : MapWalk (HashTable.switch_hashtable bytes Z Z) Z := core_hash_walk true.

#[local] Instance can_hang_dec c : Decision (can_hang c).
Proof. unfold can_hang. apply _. Defined.

Definition sample_calls : list action :=
  [Enter (str "a") 1 sample_channel; Enter (str "b") 2 sample_channel; Launch 0; Find 7 (str "b") Locate; Check 7; Lock 7].

Definition sample_calls_world : world (HashTable.switch_hashtable bytes Z Z) :=
  default (switch_core_session_init sample_counters) (play_patiently sample_calls (switch_core_session_init sample_counters)).

Lemma sample_calls_reachable : reachable sample_calls_world.
Proof.
  unfold sample_calls_world. destruct (play_patiently _ _) as [w|] eqn:E; [by eapply play_reachable, E; apply reach_start|apply reach_start].
Qed.

Lemma hupall_leaves_nobody_witness :
  size (heap sample_calls_world) = 2%nat
  /\ exists w', switch_core_session_hupall_endpoint sample_env 2 16 sample_calls_world = Ok w' /\ winds_down sample_calls_world w'.
Proof.
  split; [vm_compute; reflexivity|].
  destruct (hupall_leaves_nobody sample_env 16 2 sample_calls_world sample_calls_reachable) as [_ (w' & Hw' & Hwd & _)].
  - assert (map_Forall (fun _ s => can_hang (s_channel s)) (heap sample_calls_world)) as Hall
      by (apply (bool_decide_eq_true_1 _); vm_compute; reflexivity).
    intros a s Ha _. exact (Hall a s Ha).
  - exists w'. split; [exact Hw'|exact Hwd].
Defined.

End Sessions.
