(* ===== verification/Mailbox.v ===== *)
(** * The mailbox of a session

    src/lib/libfreeswitch/switch_core_session.c and switch_ivr.c: the queues
    through which other threads reach a session (messages, signal data, events,
    private events with two priorities), receiving a message or an event, and
    the loops that work the queues off.

    The state is the session of [Sessions] with its five queues; what is done to
    the rest of the system is the list of [deed]s.  APR's queues are the class
    [AprQueue] of [Dtmf]; the endpoint, its hooks and the answering of a call are
    the class [Services].  Strings of a message know whether they come from
    malloc or from the pool of the session: giving back the latter is [Fault]. *)

From S2P Require Import Prelude Outcome CString Tokenizer Event ChannelNames ChannelVars Channel Dtmf CoreHash Sessions.
Import CString ChannelNames Channel.

Module Mailbox.

(** ** Messages *)

Definition SWITCH_MESSAGE_REDIRECT_AUDIO : Z := 0.
Definition SWITCH_MESSAGE_INDICATE_ANSWER : Z := 2.
Definition SWITCH_MESSAGE_INDICATE_PROGRESS : Z := 3.
Definition SWITCH_MESSAGE_INDICATE_BRIDGE : Z := 4.
Definition SWITCH_MESSAGE_INDICATE_UNBRIDGE : Z := 5.
Definition SWITCH_MESSAGE_INDICATE_RINGING : Z := 7.
Definition SWITCH_MESSAGE_INDICATE_DEFLECT : Z := 16.
Definition SWITCH_MESSAGE_INDICATE_DISPLAY : Z := 18.
Definition SWITCH_MESSAGE_INDICATE_CLEAR_PROGRESS : Z := 31.
Definition SWITCH_MESSAGE_INDICATE_SIGNAL_DATA : Z := 34.
Definition SWITCH_MESSAGE_INDICATE_BLIND_TRANSFER_RESPONSE : Z := 38.
Definition SWITCH_MESSAGE_INVALID : Z := 45.
Definition MESSAGE_STRING_ARG_MAX : nat := 10.
Definition SCSMF_DYNAMIC : Z := 1.
Definition SWITCH_MESSAGE_QUEUE_LEN : Z := 256.
Definition SWITCH_EVENT_QUEUE_LEN : Z := 256.
Definition SWITCH_EVENT_PRIVATE_COMMAND : Z := 49.
Definition SWITCH_CAUSE_DESTINATION_OUT_OF_ORDER : Z := 27.

(** Memory of malloc or of the pool of the session. *)
Inductive pointer := Malloced (s : bytes) | Pooled (s : bytes).

Definition target (p : pointer) : bytes := match p with Malloced s | Pooled s => s end.

(** A switch_core_session_message, without its replies and without the place in
    the source that only the log shows. *)
Record message := Message {
  message_id : Z; numeric_arg : Z; string_arg : option pointer; pointer_arg : option pointer;
  string_array_arg : list (option pointer); m_flags : Z; delivery_time : Z }.

Definition zero_message (id : Z) : message := Message id 0 None None (replicate MESSAGE_STRING_ARG_MAX None) 0 0.

Definition set_id (id : Z) (m : message) : message :=
  Message id (numeric_arg m) (string_arg m) (pointer_arg m) (string_array_arg m) (m_flags m) (delivery_time m).
Definition set_array (l : list (option pointer)) (m : message) : message :=
  Message (message_id m) (numeric_arg m) (string_arg m) (pointer_arg m) l (m_flags m) (delivery_time m).

Definition dynamic (m : message) : bool := negb (Z.land (m_flags m) SCSMF_DYNAMIC =? 0).

(** Those after which a blocked read of the channel is broken off. *)
Definition breaks_read (id : Z) : bool :=
  (id =? SWITCH_MESSAGE_REDIRECT_AUDIO) || ((SWITCH_MESSAGE_INDICATE_ANSWER <=? id) && (id <=? SWITCH_MESSAGE_INDICATE_DEFLECT)).

(** What becomes of a message: the call is asked to ring, to send media or to
    answer; the message goes to the endpoint, or there is no routine for it, or
    the channel is down; the session cannot be locked any more; a display update
    is ignored.  The last three show the session as it was. *)
Inductive outcome :=
| Indicated (id : Z) | ToEndpoint (m : message) | NoEndpoint (m : message) | ChannelDown (m : message) (s : Sessions.session)
| TurnedAway (m : message) (s : Sessions.session) | DisplayIgnored (m : message) (s : Sessions.session).

Inductive deed :=
| Taken (m : message) | Given (o : outcome) | Freed (m : message) | DestroyedEvent (ev : Event.event) | KillBreak | WakeThread
| FlushBugs | TrackRecovery | BlindResponse (uuid : bytes) | NoMedia.

(** ** The queues of a session *)

Record mailbox (QM QS QE : Type) := MailboxOf {
  sess : Sessions.session; messages : QM; signals : QS; events : QE; private : QE; private_pri : QE; deeds : list deed }.
Arguments MailboxOf {QM QS QE}.
Arguments sess {QM QS QE}.
Arguments messages {QM QS QE}.
Arguments signals {QM QS QE}.
Arguments events {QM QS QE}.
Arguments private {QM QS QE}.
Arguments private_pri {QM QS QE}.
Arguments deeds {QM QS QE}.

(** What the endpoint, its hooks and the answering of the call do. *)
Class Services (B : Type) := {
  io_receive_message : option (message -> B -> B * switch_status);
  message_hooks : list (message -> B -> B * switch_status);
  io_receive_event : option (Event.event -> B -> B * switch_status);
  event_hooks : list (Event.event -> B -> B * switch_status);
  indicate : Z -> B -> B * switch_status;
  clock : Z;
  session_env_of : session_env;
  reachable_peer : bytes -> bool }.

Section operations.
Context {QM QS QE : Type} {AM : Dtmf.AprQueue message QM} {AS : Dtmf.AprQueue Z QS} {AE : Dtmf.AprQueue Event.event QE}.
Context {SV : Services (mailbox QM QS QE)}.
Implicit Types b : mailbox QM QS QE.

Definition set_sess (s : Sessions.session) b : mailbox QM QS QE :=
  MailboxOf s (messages b) (signals b) (events b) (private b) (private_pri b) (deeds b).
Definition set_messages (q : QM) b : mailbox QM QS QE :=
  MailboxOf (sess b) q (signals b) (events b) (private b) (private_pri b) (deeds b).
Definition set_signals (q : QS) b : mailbox QM QS QE :=
  MailboxOf (sess b) (messages b) q (events b) (private b) (private_pri b) (deeds b).
Definition set_events (q : QE) b : mailbox QM QS QE :=
  MailboxOf (sess b) (messages b) (signals b) q (private b) (private_pri b) (deeds b).
Definition set_private (q : QE) b : mailbox QM QS QE :=
  MailboxOf (sess b) (messages b) (signals b) (events b) q (private_pri b) (deeds b).
Definition set_private_pri (q : QE) b : mailbox QM QS QE :=
  MailboxOf (sess b) (messages b) (signals b) (events b) (private b) q (deeds b).
Definition did (d : deed) b : mailbox QM QS QE :=
  MailboxOf (sess b) (messages b) (signals b) (events b) (private b) (private_pri b) (deeds b ++ [d]).

Definition chan b : channel := Sessions.s_channel (sess b).
Definition on_chan (f : channel -> option channel) b : res (mailbox QM QS QE) :=
  match f (chan b) with Some c => Ok (set_sess (Sessions.with_channel c (sess b)) b) | None => Fault end.

Definition new_mailbox (s : Sessions.session) : mailbox QM QS QE :=
  MailboxOf s (Dtmf.queue_create SWITCH_MESSAGE_QUEUE_LEN) (Dtmf.queue_create SWITCH_MESSAGE_QUEUE_LEN)
    (Dtmf.queue_create SWITCH_EVENT_QUEUE_LEN) (Dtmf.queue_create SWITCH_EVENT_QUEUE_LEN)
    (Dtmf.queue_create SWITCH_EVENT_QUEUE_LEN) [].

(** *** Messages in the queue *)

Definition free_pointer (p : option pointer) : res unit := match p with Some (Pooled _) => Fault | _ => Ok tt end.

Fixpoint free_pointers (l : list (option pointer)) : res unit :=
  match l with [] => Ok tt | p :: l => _ ← free_pointer p; free_pointers l end.

Definition switch_core_session_free_message (m : message) b : res (mailbox QM QS QE) :=
  if dynamic m then
    _ ← free_pointer (string_arg m); _ ← free_pointer (pointer_arg m); _ ← free_pointers (string_array_arg m);
    Ok (did (Freed m) b)
  else Ok b.

Definition switch_core_session_queue_message (m : message) b : mailbox QM QS QE * switch_status :=
  let '(b, st) := match Dtmf.queue_trypush (messages b) m with
                  | Some q => (set_messages q b, SWITCH_STATUS_SUCCESS)
                  | None => (b, SWITCH_STATUS_FALSE)
                  end in
  (did WakeThread (did KillBreak b), st).

Definition switch_core_session_queue_indication (id : Z) b : mailbox QM QS QE * switch_status :=
  let m := zero_message id in
  let m := Message (message_id m) 0 None None (string_array_arg m) SCSMF_DYNAMIC 0 in
  ((switch_core_session_queue_message m b).1, SWITCH_STATUS_SUCCESS).

Definition not_due (m : message) : bool := negb (delivery_time m =? 0) && (clock <? delivery_time m).

Definition switch_core_session_dequeue_message b : mailbox QM QS QE * option message * switch_status :=
  match Dtmf.queue_trypop (messages b) with
  | None => (b, None, SWITCH_STATUS_FALSE)
  | Some (m, q) =>
    let b := set_messages q b in
    if not_due m then ((switch_core_session_queue_message m b).1, None, SWITCH_STATUS_FALSE)
    else (did (Taken m) b, Some m, SWITCH_STATUS_SUCCESS)
  end.

(** *** Receiving a message *)

Fixpoint run_hooks {A} (hooks : list (A -> mailbox QM QS QE -> mailbox QM QS QE * switch_status)) (x : A) b (st : switch_status)
  : mailbox QM QS QE * switch_status :=
  match hooks with
  | [] => (b, st)
  | h :: hooks =>
    let '(b, st) := h x b in
    if bool_decide (st = SWITCH_STATUS_SUCCESS) then run_hooks hooks x b st else (b, st)
  end.

Definition entry (m : message) (i : nat) : option bytes := target <$> mjoin (string_array_arg m !! i).

(** The string of a display update, split into the first entries of the array;
    the pieces are in a copy from the pool. *)
Definition split_display (m : message) : res message :=
  if zstr (entry m 0) && negb (zstr (target <$> string_arg m)) then
    match Tokenizer.switch_separate_string (default [] (target <$> string_arg m)) 124 2 with
    | Some toks =>
      let at_ i := Pooled <$> toks !! i in
      Ok (set_array (<[0%nat := at_ 0%nat]> (<[1%nat := at_ 1%nat]> (string_array_arg m))) m)
    | None => Fault
    end
  else Ok m.

Definition set_variable_if (name : bytes) (v : option bytes) b : mailbox QM QS QE :=
  if zstr v then b else set_sess (Sessions.with_channel (set_variable name v (chan b)) (sess b)) b.

(** The flag tells that the update is to be ignored. *)
Definition display_update (m : message) b : res (message * mailbox QM QS QE * bool) :=
  m ← split_display m;
  let b := set_variable_if (str "last_sent_callee_id_name") (entry m 0) b in
  let b := set_variable_if (str "last_sent_callee_id_number") (entry m 1) b in
  Ok (m, b, switch_true (get_variable session_env_of (chan b) (str "ignore_display_updates"))).

(** The blind transfer that waits for the bridge is answered. *)
Definition confirm_transfer (m : message) b : res (mailbox QM QS QE) :=
  if (message_id m =? SWITCH_MESSAGE_INDICATE_BRIDGE) && flag_set (chan b) CF_CONFIRM_BLIND_TRANSFER then
    let uuid := get_variable session_env_of (chan b) (str "blind_transfer_uuid") in
    b ← on_chan (switch_channel_clear_flag session_env_of CF_CONFIRM_BLIND_TRANSFER) b;
    Ok (match uuid with Some u => if negb (zstr uuid) && reachable_peer u then did (BlindResponse u) b else b | None => b end)
  else Ok b.

Definition after_message (m : message) b : mailbox QM QS QE :=
  if up_nosig (chan b) then
    let b := if (message_id m =? SWITCH_MESSAGE_INDICATE_BRIDGE) || (message_id m =? SWITCH_MESSAGE_INDICATE_UNBRIDGE)
             then did TrackRecovery (did FlushBugs b) else b in
    if breaks_read (message_id m) then did KillBreak b else b
  else b.

Definition lock b : mailbox QM QS QE :=
  set_sess (Sessions.with_lock (Sessions.s_readers (sess b) + 1) false (sess b)) b.
Definition unlock b : mailbox QM QS QE :=
  set_sess (Sessions.with_lock (Sessions.s_readers (sess b) - 1) false (sess b)) b.

Definition to_endpoint (m : message) b : mailbox QM QS QE * switch_status :=
  match io_receive_message with
  | Some f => f m (did (Given (ToEndpoint m)) b)
  | None => (did (Given (NoEndpoint m)) b, SWITCH_STATUS_SUCCESS)
  end.

Definition deliver_message (m : message) b : res (mailbox QM QS QE * switch_status) :=
  let '(b, st) := if up_nosig (chan b) then to_endpoint m b else (did (Given (ChannelDown m (sess b))) b, SWITCH_STATUS_SUCCESS) in
  '(b, st) ← (if bool_decide (st = SWITCH_STATUS_SUCCESS) then
                let '(b, st) := run_hooks message_hooks m b st in
                b ← confirm_transfer m b; Ok (b, st)
              else Ok (b, st));
  Ok (after_message m b, st).

Definition switch_core_session_perform_receive_message (m : message) b : res (mailbox QM QS QE * switch_status) :=
  if message_id m =? SWITCH_MESSAGE_INDICATE_SIGNAL_DATA then
    let '(b, st) := to_endpoint m b in
    b ← switch_core_session_free_message m b; Ok (b, st)
  else if Sessions.hangup_lock_refuses (sess b) || Sessions.s_writer (sess b) then Ok (did (Given (TurnedAway m (sess b))) b, SWITCH_STATUS_FALSE)
  else
    let b := lock b in
    let m := if SWITCH_MESSAGE_INVALID - 1 <? message_id m then set_id (SWITCH_MESSAGE_INVALID - 1) m else m in
    b ← (if message_id m =? SWITCH_MESSAGE_INDICATE_CLEAR_PROGRESS
         then on_chan (switch_channel_clear_flag session_env_of CF_EARLY_MEDIA) b else Ok b);
    '(m, b, ignore) ← (if message_id m =? SWITCH_MESSAGE_INDICATE_DISPLAY then display_update m b else Ok (m, b, false));
    '(b, st) ← (if (ignore : bool) then Ok (did (Given (DisplayIgnored m (sess b))) b, SWITCH_STATUS_SUCCESS) else deliver_message m b);
    b ← switch_core_session_free_message m b;
    Ok (unlock b, st).

(** *** Working the messages off: switch_ivr.c *)

Definition switch_ivr_process_indications (m : message) b : res (mailbox QM QS QE * switch_status) :=
  if (message_id m =? SWITCH_MESSAGE_INDICATE_ANSWER) || (message_id m =? SWITCH_MESSAGE_INDICATE_PROGRESS)
     || (message_id m =? SWITCH_MESSAGE_INDICATE_RINGING)
  then
    let '(b, st) := indicate (message_id m) (did (Given (Indicated (message_id m))) b) in
    if bool_decide (st = SWITCH_STATUS_SUCCESS) then Ok (b, SWITCH_STATUS_SUCCESS)
    else b ← on_chan (switch_channel_perform_hangup session_env_of SWITCH_CAUSE_DESTINATION_OUT_OF_ORDER) b;
         Ok (b, SWITCH_STATUS_SUCCESS)
  else Ok (b, SWITCH_STATUS_FALSE).

(** The loop over the signal data; [i] counts. *)
Fixpoint signal_loop (fuel : nat) b (i : Z) : res (mailbox QM QS QE * Z) :=
  match fuel with
  | O => NoFuel
  | S fuel =>
    match Dtmf.queue_trypop (signals b) with
    | None => Ok (b, i)
    | Some (_, q) =>
      '(b, _) ← switch_core_session_perform_receive_message (zero_message SWITCH_MESSAGE_INDICATE_SIGNAL_DATA) (set_signals q b);
      signal_loop fuel b (i + 1)
    end
  end.

Definition switch_ivr_parse_all_signal_data b : res (mailbox QM QS QE * switch_status) :=
  if negb (in_thread session_env_of) || flag_set (chan b) CF_SIGNAL_DATA then Ok (b, SWITCH_STATUS_FALSE)
  else
    b ← on_chan (switch_channel_set_flag session_env_of CF_SIGNAL_DATA) b;
    '(b, i) ← signal_loop (S (Z.to_nat (Dtmf.queue_size (signals b)))) b 0;
    b ← on_chan (switch_channel_clear_flag session_env_of CF_SIGNAL_DATA) b;
    Ok (b, if i =? 0 then SWITCH_STATUS_FALSE else SWITCH_STATUS_SUCCESS).

Fixpoint message_loop (fuel : nat) b (i : Z) : res (mailbox QM QS QE * Z) :=
  match fuel with
  | O => NoFuel
  | S fuel =>
    match switch_core_session_dequeue_message b with
    | (b, Some m, SWITCH_STATUS_SUCCESS) =>
      '(b, st) ← switch_ivr_process_indications m b;
      b ← (if bool_decide (st = SWITCH_STATUS_SUCCESS) then switch_core_session_free_message m b
           else fst <$> switch_core_session_perform_receive_message m b);
      message_loop fuel b (i + 1)
    | (b, _, _) => Ok (b, i)
    end
  end.

Definition switch_ivr_parse_all_messages b : res (mailbox QM QS QE * switch_status) :=
  '(b, _) ← switch_ivr_parse_all_signal_data b;
  '(b, i) ← message_loop (S (Z.to_nat (Dtmf.queue_size (messages b)))) b 0;
  Ok (b, if i =? 0 then SWITCH_STATUS_FALSE else SWITCH_STATUS_SUCCESS).

Fixpoint flush_loop (fuel : nat) b : res (mailbox QM QS QE) :=
  match fuel with
  | O => NoFuel
  | S fuel =>
    match Dtmf.queue_trypop (messages b) with
    | None => Ok b
    | Some (m, q) =>
      '(b, _) ← switch_ivr_process_indications m (set_messages q b);
      b ← switch_core_session_free_message m b;
      flush_loop fuel b
    end
  end.

Definition switch_core_session_flush_message b : res (mailbox QM QS QE * switch_status) :=
  b ← flush_loop (S (Z.to_nat (Dtmf.queue_size (messages b)))) b; Ok (b, SWITCH_STATUS_SUCCESS).

(** *** Signal data and events *)

(** Pushing waits while the queue is full, which does not end here. *)
Definition switch_core_session_queue_signal_data (data : Z) b : res (mailbox QM QS QE * switch_status) :=
  match Dtmf.queue_trypush (signals b) data with
  | Some q => Ok (did WakeThread (did KillBreak (set_signals q b)), SWITCH_STATUS_SUCCESS)
  | None => NoFuel
  end.

Definition switch_core_session_dequeue_signal_data b : mailbox QM QS QE * option Z * switch_status :=
  match Dtmf.queue_trypop (signals b) with
  | Some (d, q) => (set_signals q b, Some d, SWITCH_STATUS_SUCCESS)
  | None => (b, None, SWITCH_STATUS_FALSE)
  end.

(** What is left to the caller is the event, when it is not taken. *)
Definition switch_core_session_queue_event (ev : Event.event) b : mailbox QM QS QE * option Event.event * switch_status :=
  match Dtmf.queue_trypush (events b) ev with
  | Some q => (did WakeThread (set_events q b), None, SWITCH_STATUS_SUCCESS)
  | None => (b, Some ev, SWITCH_STATUS_FALSE)
  end.

Definition switch_core_session_dequeue_event (force : bool) b : mailbox QM QS QE * option Event.event * switch_status :=
  if force || negb (flag_set (chan b) CF_DIVERT_EVENTS) then
    match Dtmf.queue_trypop (events b) with
    | Some (ev, q) => (set_events q b, Some ev, SWITCH_STATUS_SUCCESS)
    | None => (b, None, SWITCH_STATUS_FALSE)
    end
  else (b, None, SWITCH_STATUS_FALSE).

Definition switch_core_session_event_count b : Z := Dtmf.queue_size (events b).

Definition switch_core_session_messages_waiting b : Z := u32 (Dtmf.queue_size (private b) + Dtmf.queue_size (messages b)).

Definition switch_core_session_receive_event (ev : Event.event) b : mailbox QM QS QE * option Event.event * switch_status :=
  let '(b, rest, st) :=
    if Sessions.read_lock_refuses (sess b) || Sessions.s_writer (sess b) then (b, Some ev, SWITCH_STATUS_FALSE)
    else
      let b := lock b in
      let '(b, st) := match io_receive_event with Some f => f ev b | None => (b, SWITCH_STATUS_FALSE) end in
      let '(b, st) := if bool_decide (st = SWITCH_STATUS_SUCCESS) then run_hooks event_hooks ev b st else (b, st) in
      let st := if bool_decide (st = SWITCH_STATUS_BREAK) then SWITCH_STATUS_SUCCESS else st in
      let '(b, rest) := if bool_decide (st = SWITCH_STATUS_SUCCESS) then (did (DestroyedEvent ev) b, None) else (b, Some ev) in
      (unlock b, rest, st)
  in (did KillBreak b, rest, st).

(** *** Private events *)

Definition switch_core_session_queue_private_event (ev : Event.event) (priority : bool) b
  : mailbox QM QS QE * option Event.event * switch_status :=
  let ev := Event.set_event_id SWITCH_EVENT_PRIVATE_COMMAND ev in
  match Dtmf.queue_trypush (if priority then private_pri b else private b) ev with
  | Some q => (did KillBreak (if priority then set_private_pri q b else set_private q b), None, SWITCH_STATUS_SUCCESS)
  | None => (b, Some ev, SWITCH_STATUS_FALSE)
  end.

Definition check_media b : res (mailbox QM QS QE) :=
  if flag_set (chan b) CF_BROADCAST_DROP_MEDIA then
    b ← on_chan (switch_channel_clear_flag session_env_of CF_BROADCAST_DROP_MEDIA) b; Ok (did NoMedia b)
  else Ok b.

Definition switch_core_session_private_event_count b : res (mailbox QM QS QE * Z) :=
  let n := (if flag_set (chan b) CF_EVENT_LOCK then 0 else Dtmf.queue_size (private b))
           + (if flag_set (chan b) CF_EVENT_LOCK_PRI then 0 else Dtmf.queue_size (private_pri b)) in
  b ← (if u32 n =? 0 then check_media b else Ok b); Ok (b, u32 n).

Definition switch_core_session_dequeue_private_event b : res (mailbox QM QS QE * option Event.event * switch_status) :=
  let pri := negb (Dtmf.queue_size (private_pri b) =? 0) in
  if flag_set (chan b) (if pri then CF_EVENT_LOCK_PRI else CF_EVENT_LOCK) then Ok (b, None, SWITCH_STATUS_FALSE)
  else
    match Dtmf.queue_trypop (if pri then private_pri b else private b) with
    | Some (ev, q) => Ok (if pri then set_private_pri q b else set_private q b, Some ev, SWITCH_STATUS_SUCCESS)
    | None => b ← check_media b; Ok (b, None, SWITCH_STATUS_FALSE)
    end.

(** The two loops of the flush; [x] counts. *)
Fixpoint destroy_loop (fuel : nat) (pri : bool) b (x : Z) : res (mailbox QM QS QE * Z) :=
  match fuel with
  | O => NoFuel
  | S fuel =>
    match Dtmf.queue_trypop (if pri then private_pri b else private b) with
    | None => Ok (b, x)
    | Some (ev, q) => destroy_loop fuel pri (did (DestroyedEvent ev) (if pri then set_private_pri q b else set_private q b)) (x + 1)
    end
  end.

Definition switch_core_session_flush_private_events b : res (mailbox QM QS QE * Z) :=
  '(b, x) ← destroy_loop (S (Z.to_nat (Dtmf.queue_size (private_pri b)))) true b 0;
  '(b, x) ← destroy_loop (S (Z.to_nat (Dtmf.queue_size (private b)))) false b x;
  b ← check_media b; Ok (b, u32 x).

End operations.

(** ** Private events are a queue with priority *)

(** The specification: one list of events, those with priority in front; a new
    event comes behind those of its kind, and the first one is taken.  A kind has
    room for 256. *)
Record pqueue := PQueue { urgent : list Event.event; normal : list Event.event }.

Inductive private_op := Put (ev : Event.event) (priority : bool) | Get | Count | FlushAll.
Inductive answer := Accepted (b : bool) | Got (ev : option Event.event) | Number (n : Z).

#[export] Instance answer_inhabited : Inhabited answer := populate (Number 0).

Definition waiting (p : pqueue) : list Event.event := urgent p ++ normal p.

Definition spec_step (o : private_op) (p : pqueue) : pqueue * answer :=
  match o with
  | Put ev priority =>
    let ev := Event.set_event_id SWITCH_EVENT_PRIVATE_COMMAND ev in
    let l := if priority then urgent p else normal p in
    if zlen l <? SWITCH_EVENT_QUEUE_LEN
    then (if priority then PQueue (l ++ [ev]) (normal p) else PQueue (urgent p) (l ++ [ev]), Accepted true)
    else (p, Accepted false)
  | Get =>
    (match urgent p with ev :: l => PQueue l (normal p) | [] => PQueue [] (tail (normal p)) end, Got (head (waiting p)))
  | Count => (p, Number (zlen (waiting p)))
  | FlushAll => (PQueue [] [], Number (zlen (waiting p)))
  end.

Section private_events.
Context {QM QS QE : Type} {AM : Dtmf.AprQueue message QM} {AS : Dtmf.AprQueue Z QS} {AE : Dtmf.AprQueue Event.event QE}.
Context {SV : Services (mailbox QM QS QE)}.
Implicit Types b : mailbox QM QS QE.

Definition private_step (o : private_op) b : res (mailbox QM QS QE * answer) :=
  match o with
  | Put ev priority =>
    let '(b, _, st) := switch_core_session_queue_private_event ev priority b in Ok (b, Accepted (bool_decide (st = SWITCH_STATUS_SUCCESS)))
  | Get => '(b, ev, _) ← switch_core_session_dequeue_private_event b; Ok (b, Got ev)
  | Count => '(b, n) ← switch_core_session_private_event_count b; Ok (b, Number n)
  | FlushAll => '(b, n) ← switch_core_session_flush_private_events b; Ok (b, Number n)
  end.

Fixpoint private_run (os : list private_op) b : res (mailbox QM QS QE * list answer) :=
  match os with
  | [] => Ok (b, [])
  | o :: os => '(b, x) ← private_step o b; '(b, xs) ← private_run os b; Ok (b, x :: xs)
  end.

Fixpoint spec_run (os : list private_op) (p : pqueue) : pqueue * list answer :=
  match os with
  | [] => (p, [])
  | o :: os => let '(p, x) := spec_step o p in let '(p, xs) := spec_run os p in (p, x :: xs)
  end.

Record holds_queue b (p : pqueue) : Prop := HoldsQueue {
  hq_urgent : Dtmf.elements (private_pri b) = urgent p; hq_normal : Dtmf.elements (private b) = normal p;
  hq_room : Dtmf.capacity (private_pri b) = SWITCH_EVENT_QUEUE_LEN /\ Dtmf.capacity (private b) = SWITCH_EVENT_QUEUE_LEN;
  hq_bound : zlen (urgent p) <= SWITCH_EVENT_QUEUE_LEN /\ zlen (normal p) <= SWITCH_EVENT_QUEUE_LEN;
  hq_open : flag_set (chan b) CF_EVENT_LOCK = false /\ flag_set (chan b) CF_EVENT_LOCK_PRI = false }.

Lemma check_media_holds b p : holds_queue b p -> exists b', check_media b = Ok b' /\ holds_queue b' p.
Proof.
  intros [Hu Hn Hr Hb Ho]. unfold check_media, on_chan. destruct (flag_set (chan b) CF_BROADCAST_DROP_MEDIA); [|by eexists].
  assert (switch_channel_clear_flag session_env_of CF_BROADCAST_DROP_MEDIA (chan b) = Some (put_flag CF_BROADCAST_DROP_MEDIA 0 (chan b))) as -> by done.
  cbn [mbind res_bind]. eexists. split; [done|]. split; try done. unfold chan, set_sess. cbn.
  unfold flag_set, switch_channel_test_flag, put_flag in *. cbn. rewrite !list_lookup_insert_ne by done. done.
Qed.

Lemma push_cases {E Q} {AQ : Dtmf.AprQueue E Q} (q : Q) e :
  if zlen (Dtmf.elements q) <? Dtmf.capacity q
  then exists q', Dtmf.queue_trypush q e = Some q' /\ Dtmf.elements q' = Dtmf.elements q ++ [e] /\ Dtmf.capacity q' = Dtmf.capacity q
  else Dtmf.queue_trypush q e = None.
Proof. destruct (Z.ltb_spec (zlen (Dtmf.elements q)) (Dtmf.capacity q)); [by apply Dtmf.push_room|apply Dtmf.push_full; lia]. Qed.

Lemma pop_cases {E Q} {AQ : Dtmf.AprQueue E Q} (q : Q) :
  match Dtmf.elements q with
  | [] => Dtmf.queue_trypop q = None
  | e :: es => exists q', Dtmf.queue_trypop q = Some (e, q') /\ Dtmf.elements q' = es /\ Dtmf.capacity q' = Dtmf.capacity q
  end.
Proof. destruct (Dtmf.elements q) eqn:E'; [by apply Dtmf.pop_empty|by apply Dtmf.pop_oldest]. Qed.

Lemma put_refines ev priority b p : holds_queue b p ->
  exists b', private_step (Put ev priority) b = Ok (b', (spec_step (Put ev priority) p).2) /\ holds_queue b' (spec_step (Put ev priority) p).1.
Proof.
  intros [Hu Hn [Hr1 Hr2] [Hb1 Hb2] Ho]. cbn [private_step spec_step]. unfold switch_core_session_queue_private_event.
  set (e := Event.set_event_id _ ev). destruct priority.
  - pose proof (push_cases (private_pri b) e) as Hp. rewrite Hu, Hr1 in Hp. destruct (Z.ltb_spec (zlen (urgent p)) SWITCH_EVENT_QUEUE_LEN).
    + destruct Hp as (q & -> & Hq & Hc). eexists. split; [done|]. split; cbn; rewrite ?zlen_app, ?Hq, ?Hc, ?zlen_cons, ?zlen_nil; try done. split; lia.
    + rewrite Hp. by eexists.
  - pose proof (push_cases (private b) e) as Hp. rewrite Hn, Hr2 in Hp. destruct (Z.ltb_spec (zlen (normal p)) SWITCH_EVENT_QUEUE_LEN).
    + destruct Hp as (q & -> & Hq & Hc). eexists. split; [done|]. split; cbn; rewrite ?zlen_app, ?Hq, ?Hc, ?zlen_cons, ?zlen_nil; try done. split; lia.
    + rewrite Hp. by eexists.
Qed.

Lemma get_refines b p : holds_queue b p ->
  exists b', private_step Get b = Ok (b', (spec_step Get p).2) /\ holds_queue b' (spec_step Get p).1.
Proof.
  intros Hq. pose proof Hq as [Hu Hn [Hr1 Hr2] [Hb1 Hb2] [Ho1 Ho2]]. cbn [private_step spec_step]. unfold waiting, switch_core_session_dequeue_private_event.
  rewrite Dtmf.size_elements, Hu. destruct (urgent p) as [|e us] eqn:Eu.
  - change (negb (zlen ([] : list Event.event) =? 0)) with false. cbn [app]. cbv iota. rewrite Ho1. pose proof (pop_cases (private b)) as Hp. rewrite Hn in Hp.
    destruct (normal p) as [|e ns] eqn:En; cbn [head tail].
    + rewrite Hp. destruct (check_media_holds b p Hq) as (b' & -> & Hq'). eexists. split; [done|]. destruct p. cbn in *. by subst.
    + destruct Hp as (q & -> & Hel & Hc). eexists. split; [done|]. rewrite zlen_cons in Hb2. split; cbn; try done; split; congruence || lia.
  - rewrite zlen_cons in *. pose proof (zlen_nonneg us). rewrite (proj2 (Z.eqb_neq _ 0)) by lia. cbn [negb app head]. rewrite Ho2.
    pose proof (pop_cases (private_pri b)) as Hp. rewrite Hu in Hp. destruct Hp as (q & -> & Hel & Hc). eexists. split; [done|].
    split; cbn; try done; split; congruence || lia.
Qed.

(** The queue of a kind, and the events in it. *)
Definition lane (pri : bool) b : QE := if pri then private_pri b else private b.
Definition lane_events (pri : bool) b : list Event.event := Dtmf.elements (lane pri b).

Lemma destroy_loop_empties pri b x fuel : (length (lane_events pri b) < fuel)%nat ->
  exists b', destroy_loop fuel pri b x = Ok (b', x + zlen (lane_events pri b)) /\ lane_events pri b' = [] /\ chan b' = chan b
    /\ Dtmf.capacity (lane pri b') = Dtmf.capacity (lane pri b) /\ lane (negb pri) b' = lane (negb pri) b.
Proof.
  revert b x. induction fuel as [|fuel IH]; intros b x Hf; [lia|]. cbn [destroy_loop]. fold (lane pri b).
  pose proof (pop_cases (lane pri b)) as Hp. fold (lane_events pri b) in Hp. destruct (lane_events pri b) as [|e es] eqn:Eq.
  - rewrite Hp. rewrite zlen_nil, Z.add_0_r. by exists b.
  - destruct Hp as (q & -> & Hel & Hc). cbn in Hf. set (b1 := did _ _). assert (lane pri b1 = q) as Hq by (by destruct pri).
    unfold lane_events in IH. destruct (IH b1 (x + 1)) as (b' & -> & H1 & H2 & H3 & H4); [rewrite Hq, Hel; lia|]. exists b'.
    rewrite Hq in *. rewrite Hel, zlen_cons. split; [do 2 f_equal; lia|].
    split_and!; [done|rewrite H2; by destruct pri|congruence|rewrite H4; by destruct pri].
Qed.

Lemma flush_refines b p : holds_queue b p ->
  exists b', private_step FlushAll b = Ok (b', (spec_step FlushAll p).2) /\ holds_queue b' (spec_step FlushAll p).1.
Proof.
  intros [Hu Hn [Hr1 Hr2] [Hb1 Hb2] Ho]. cbn [private_step spec_step fst snd]. unfold waiting, switch_core_session_flush_private_events.
  rewrite !Dtmf.size_elements.
  destruct (destroy_loop_empties true b 0 (S (Z.to_nat (zlen (lane_events true b))))) as (b1 & Hd1 & A1 & A2 & A3 & A4); [unfold zlen; lia|].
  unfold lane_events, lane in *. cbn [negb] in *. rewrite Hd1. cbn [mbind res_bind]. rewrite Dtmf.size_elements.
  destruct (destroy_loop_empties false b1 (0 + zlen (Dtmf.elements (private_pri b))) (S (Z.to_nat (zlen (lane_events false b1)))))
    as (b2 & Hd2 & B1 & B2 & B3 & B4); [unfold zlen; lia|]. unfold lane_events, lane in *. cbn [negb] in *. rewrite Hd2. cbn [mbind res_bind].
  destruct (check_media_holds b2 (PQueue [] [])) as (b3 & -> & Hq).
  { split; cbn; [congruence|done|split; congruence|unfold SWITCH_EVENT_QUEUE_LEN; rewrite zlen_nil; lia|]. by rewrite B2, A2. }
  eexists. split; [|done]. rewrite A4, Hu, Hn, Z.add_0_l, zlen_app. unfold SWITCH_EVENT_QUEUE_LEN in *.
  pose proof (zlen_nonneg (urgent p)). pose proof (zlen_nonneg (normal p)). cbn [mbind res_bind]. by rewrite wrap_small by lia.
Qed.

Lemma count_refines b p : holds_queue b p ->
  exists b', private_step Count b = Ok (b', (spec_step Count p).2) /\ holds_queue b' (spec_step Count p).1.
Proof.
  intros Hq. pose proof Hq as [Hu Hn [Hr1 Hr2] [Hb1 Hb2] [Ho1 Ho2]]. cbn [private_step spec_step fst snd].
  unfold waiting, switch_core_session_private_event_count. rewrite Ho1, Ho2, !Dtmf.size_elements, Hu, Hn, zlen_app.
  pose proof (zlen_nonneg (urgent p)). pose proof (zlen_nonneg (normal p)). unfold SWITCH_EVENT_QUEUE_LEN in *. rewrite wrap_small by lia.
  rewrite (Z.add_comm (zlen (normal p))). destruct (_ =? 0); [|by eexists]. destruct (check_media_holds b p Hq) as (b' & -> & Hq'). by eexists.
Qed.

Lemma private_step_refines o b p : holds_queue b p ->
  exists b', private_step o b = Ok (b', (spec_step o p).2) /\ holds_queue b' (spec_step o p).1.
Proof. destruct o; [apply put_refines|apply get_refines|apply count_refines|apply flush_refines]. Qed.

Lemma private_run_refines os b p : holds_queue b p ->
  exists b', private_run os b = Ok (b', (spec_run os p).2) /\ holds_queue b' (spec_run os p).1.
Proof.
  revert b p. induction os as [|o os IH]; intros b p Hq; cbn [private_run spec_run]; [by eexists|].
  destruct (private_step_refines o b p Hq) as (b1 & -> & Hq1). cbn [mbind res_bind]. destruct (spec_step o p) as [p1 x]. cbn [fst snd] in *.
  destruct (IH b1 p1 Hq1) as (b2 & -> & Hq2). cbn [mbind res_bind]. destruct (spec_run os p1) as [p2 xs]. by eexists.
Qed.

End private_events.

(** C19: The private events of a session are one queue with priorities.  On a
    session whose event locks are open, any sequence of putting, taking, counting
    and flushing private events, with and without priority, gives the answers of
    the list in which the urgent ones stand in front, each kind in the order of
    its arrival: nothing is lost, doubled or overtaken within its kind, an event
    is refused only when 256 of its kind wait, and the count is the number of
    events that can be taken. *)
Theorem private_events_priority_queue {QM QS QE} {AM : Dtmf.AprQueue message QM} {AS : Dtmf.AprQueue Z QS} {AE : Dtmf.AprQueue Event.event QE}
  {SV : Services (mailbox QM QS QE)} (s : Sessions.session) (os : list private_op) :
  flag_set (Sessions.s_channel s) CF_EVENT_LOCK = false -> flag_set (Sessions.s_channel s) CF_EVENT_LOCK_PRI = false ->
  exists b, private_run os (new_mailbox s) = Ok (b, (spec_run os (PQueue [] [])).2)
    /\ Dtmf.elements (private_pri b) ++ Dtmf.elements (private b) = waiting (spec_run os (PQueue [] [])).1.
Proof.
  intros Ho1 Ho2. destruct (private_run_refines os (new_mailbox s) (PQueue [] [])) as (b & Hb & [Hu Hn _ _ _]).
  - by split; cbn; rewrite ?Dtmf.create_elements, ?Dtmf.create_capacity.
  - exists b. split; [done|]. by rewrite Hu, Hn.
Qed.

(** ** Messages are worked off *)

(** The messages a session has taken from its queue. *)
Definition taken_of (d : deed) : option message := match d with Taken m => Some m | _ => None end.
Definition taken (ds : list deed) : list message := omap taken_of ds.

(** The outcomes, but those of signal data, which has a queue of its own. *)
Definition plain (m : message) : bool := negb (message_id m =? SWITCH_MESSAGE_INDICATE_SIGNAL_DATA).
Definition outcome_of (d : deed) : option outcome :=
  match d with
  | Given (ToEndpoint m) | Given (NoEndpoint m) => if plain m then match d with Given o => Some o | _ => None end else None
  | Given o => Some o
  | _ => None
  end.
Definition given (ds : list deed) : list outcome := omap outcome_of ds.

(** The message as it is passed on: an unknown number is cut down to the last
    one, and the string of a display update is split. *)
Definition as_received (m : message) : res message :=
  let m := if SWITCH_MESSAGE_INVALID - 1 <? message_id m then set_id (SWITCH_MESSAGE_INVALID - 1) m else m in
  if message_id m =? SWITCH_MESSAGE_INDICATE_DISPLAY then split_display m else Ok m.

Definition indication (m : message) : bool :=
  (message_id m =? SWITCH_MESSAGE_INDICATE_ANSWER) || (message_id m =? SWITCH_MESSAGE_INDICATE_PROGRESS)
  || (message_id m =? SWITCH_MESSAGE_INDICATE_RINGING).

(** The one outcome a message may have, with its reason. *)
Definition fits {B} {SV : Services B} (m : message) (o : outcome) : Prop :=
  match o with
  | Indicated id => indication m = true /\ id = message_id m
  | ToEndpoint m' => indication m = false /\ as_received m = Ok m' /\ is_Some io_receive_message
  | NoEndpoint m' => indication m = false /\ as_received m = Ok m' /\ io_receive_message = None
  | ChannelDown m' s => indication m = false /\ as_received m = Ok m' /\ up_nosig (Sessions.s_channel s) = false
  | TurnedAway m' s => indication m = false /\ m' = m /\ Sessions.hangup_lock_refuses s || Sessions.s_writer s = true
  | DisplayIgnored m' s => message_id m = SWITCH_MESSAGE_INDICATE_DISPLAY /\ as_received m = Ok m'
      /\ switch_true (get_variable session_env_of (Sessions.s_channel s) (str "ignore_display_updates")) = true
  end.

(** A message can be given back: it is static, or all of its memory is from
    malloc. *)
Definition from_malloc (p : option pointer) : bool := match p with Some (Pooled _) => false | _ => true end.
Definition clean (m : message) : bool :=
  negb (dynamic m) || (from_malloc (string_arg m) && from_malloc (pointer_arg m) && forallb from_malloc (string_array_arg m)).

(** A display update is also clean with its string split. *)
Definition sound (m : message) : bool :=
  clean m && (negb (message_id m =? SWITCH_MESSAGE_INDICATE_DISPLAY) || match split_display m with Ok m' => clean m' | _ => false end).

Section working.
Context {QM QS QE : Type} {AM : Dtmf.AprQueue message QM} {AS : Dtmf.AprQueue Z QS} {AE : Dtmf.AprQueue Event.event QE}.
Context {SV : Services (mailbox QM QS QE)}.
Implicit Types b : mailbox QM QS QE.

(** The queues of messages and signals are left alone, and nothing is taken;
    [os]: what becomes of messages meanwhile. *)
Record adds (os : list outcome) b b' : Prop := Adds {
  ad_messages : messages b' = messages b; ad_signals : signals b' = signals b; ad_taken : taken (deeds b') = taken (deeds b);
  ad_given : given (deeds b') = given (deeds b) ++ os }.

Abbreviation keeps := (adds []).

(** That is what is asked of the endpoint and its hooks; and that a channel whose
    endpoint refuses an indication can be hung up. *)
Class ServiceLaws : Prop := {
  io_keeps f m b : io_receive_message = Some f -> keeps b (f m b).1;
  hooks_keep m : Forall (fun f => forall b, keeps b (f m b).1) (message_hooks (B := mailbox QM QS QE));
  indicate_keeps id b : keeps b (indicate id b).1;
  indicate_refused id b : (indicate id b).2 <> SWITCH_STATUS_SUCCESS ->
    is_Some (switch_channel_perform_hangup session_env_of SWITCH_CAUSE_DESTINATION_OUT_OF_ORDER (chan (indicate id b).1)) }.

Lemma keeps_refl b : keeps b b.
Proof. split; [done..|]. by rewrite app_nil_r. Qed.

Lemma adds_trans os os' b1 b2 b3 : adds os b1 b2 -> adds os' b2 b3 -> adds (os ++ os') b1 b3.
Proof. intros [M1 S1 T1 G1] [M2 S2 T2 G2]. split; [congruence..|]. by rewrite G2, G1, app_assoc. Qed.

Lemma keeps_adds os b1 b2 b3 : keeps b1 b2 -> adds os b2 b3 -> adds os b1 b3.
Proof. apply (adds_trans []). Qed.

Lemma adds_keeps os b1 b2 b3 : adds os b1 b2 -> keeps b2 b3 -> adds os b1 b3.
Proof. intros H1 H2. rewrite <-(app_nil_r os). by eapply adds_trans. Qed.

Lemma keeps_sess b s : keeps b (set_sess s b).
Proof. split; [done..|]. by rewrite app_nil_r. Qed.

Lemma adds_did os b d : taken_of d = None -> os = option_list (outcome_of d) -> adds os b (did d b).
Proof.
  intros Hd ->. split; [done|done|unfold taken, did; cbn; rewrite omap_app; cbn; by rewrite Hd, app_nil_r|].
  unfold given, did. cbn [deeds]. rewrite omap_app. f_equal.
Qed.

Lemma keeps_did b d : taken_of d = None -> outcome_of d = None -> keeps b (did d b).
Proof. intros Hd Ho. apply adds_did; [done|]. by rewrite Ho. Qed.

Lemma keeps_on_chan f b : is_Some (f (chan b)) -> exists b', on_chan f b = Ok b' /\ keeps b b'.
Proof. intros [c Hc]. unfold on_chan. rewrite Hc. eexists. split; [done|apply keeps_sess]. Qed.

Lemma keeps_clear f b : f <> CF_LEG_HOLDING -> exists b', on_chan (switch_channel_clear_flag session_env_of f) b = Ok b' /\ keeps b b'.
Proof. intros Hf. apply keeps_on_chan. by apply clear_flag_total. Qed.

Lemma free_pointers_ok l : forallb from_malloc l = true -> free_pointers l = Ok tt.
Proof. induction l as [|[[]|] l IH]; cbn; try done; intros Hl; rewrite IH by done; done. Qed.

Lemma free_keeps m b : clean m = true -> exists b', switch_core_session_free_message m b = Ok b' /\ keeps b b'.
Proof.
  unfold clean, switch_core_session_free_message. destruct (dynamic m); cbn [negb orb]; [|intros _; eexists; split; [done|apply keeps_refl]].
  intros [[H1 H2]%andb_true_iff H3]%andb_true_iff. rewrite (free_pointers_ok _ H3).
  destruct (string_arg m) as [[]|], (pointer_arg m) as [[]|]; try done; (eexists; split; [done|by apply keeps_did]).
Qed.

Context {SL : ServiceLaws}.

Lemma run_hooks_keep (m : message) hooks b st : Forall (fun f => forall b, keeps b (f m b).1) hooks -> keeps b (run_hooks hooks m b st).1.
Proof.
  intros Hh. revert b st. induction Hh as [|h hooks Hf _ IH]; intros b st; cbn [run_hooks]; [apply keeps_refl|].
  specialize (Hf b). destruct (h m b) as [b1 st1]. case_bool_decide; [|done]. by eapply keeps_adds.
Qed.

(** The endpoint's outcome. *)
Definition at_endpoint (m : message) : outcome := match io_receive_message with Some _ => ToEndpoint m | None => NoEndpoint m end.

Lemma endpoint_adds m b : adds (if plain m then [at_endpoint m] else []) b (to_endpoint m b).1.
Proof.
  unfold to_endpoint, at_endpoint. destruct io_receive_message as [f|] eqn:E.
  - eapply adds_keeps; [|by apply io_keeps]. apply adds_did; [done|]. cbn. by destruct (plain m).
  - apply adds_did; [done|]. cbn. by destruct (plain m).
Qed.

Lemma confirm_keeps m b : exists b', confirm_transfer m b = Ok b' /\ keeps b b'.
Proof.
  unfold confirm_transfer. destruct (_ && _); [|eexists; split; [done|apply keeps_refl]].
  destruct (keeps_clear CF_CONFIRM_BLIND_TRANSFER b) as (b1 & -> & Hk); [done|]. cbn [mbind res_bind].
  eexists. split; [done|]. eapply keeps_adds; [exact Hk|]. repeat case_match; try apply keeps_refl. by apply keeps_did.
Qed.

Lemma after_keeps m b : keeps b (after_message m b).
Proof.
  unfold after_message. repeat case_match; try apply keeps_refl; try by apply keeps_did.
  - eapply keeps_adds; [|by apply keeps_did]. eapply keeps_adds; by apply keeps_did.
  - eapply keeps_adds; by apply keeps_did.
Qed.

Lemma deliver_adds m b : plain m = true -> exists b' st, deliver_message m b = Ok (b', st)
  /\ adds [if up_nosig (chan b) then at_endpoint m else ChannelDown m (sess b)] b b'.
Proof.
  intros Hp. unfold deliver_message. set (o := if up_nosig (chan b) then at_endpoint m else ChannelDown m (sess b)).
  assert (adds [o] b (if up_nosig (chan b) then to_endpoint m b else (did (Given (ChannelDown m (sess b))) b, SWITCH_STATUS_SUCCESS)).1) as Hk.
  { unfold o. case_match; [|by apply adds_did]. pose proof (endpoint_adds m b) as He. by rewrite Hp in He. }
  destruct (if up_nosig (chan b) then to_endpoint _ _ else _) as [b1 st]. cbn [fst] in Hk. case_bool_decide.
  - pose proof (run_hooks_keep m message_hooks b1 st (hooks_keep m)) as Hh. destruct (run_hooks _ _ _ _) as [b2 st2]. cbn [fst] in Hh.
    destruct (confirm_keeps m b2) as (b3 & -> & Hk3). cbn [mbind res_bind]. eexists _, _. split; [done|].
    eapply adds_keeps; [exact Hk|]. eapply keeps_adds; [exact Hh|]. eapply keeps_adds; [exact Hk3|apply after_keeps].
  - eexists _, _. split; [done|]. eapply adds_keeps; [exact Hk|apply after_keeps].
Qed.

Lemma variable_keeps name v b : keeps b (set_variable_if name v b).
Proof. unfold set_variable_if. case_match; [apply keeps_refl|apply keeps_sess]. Qed.

Lemma display_keeps m m' b : split_display m = Ok m' -> exists b', keeps b b' /\
  display_update m b = Ok (m', b', switch_true (get_variable session_env_of (chan b') (str "ignore_display_updates"))).
Proof.
  intros Hm. unfold display_update. rewrite Hm. cbn [mbind res_bind]. eexists. split; [|done].
  eapply keeps_adds; apply variable_keeps.
Qed.

Lemma split_display_id m m' : split_display m = Ok m' -> message_id m' = message_id m.
Proof. unfold split_display. repeat case_match; intros [= <-]; done. Qed.

Lemma received_plain m m' : plain m = true -> as_received m = Ok m' -> plain m' = true.
Proof.
  unfold as_received. cbv zeta. destruct (SWITCH_MESSAGE_INVALID - 1 <? message_id m) eqn:E.
  - cbn. intros _ [= <-]. done.
  - case_match; [|by intros ? [= <-]]. intros Hp Hm%split_display_id. unfold plain in *. by rewrite Hm.
Qed.

(** Receiving a message always ends, with the queues as they were and one outcome. *)
Lemma receive_adds m b : sound m = true -> indication m = false -> exists b' st os,
  switch_core_session_perform_receive_message m b = Ok (b', st) /\ adds os b b'
  /\ if plain m then exists o, os = [o] /\ fits m o else os = [].
Proof.
  intros [Hc Hs]%andb_true_iff Hi. unfold switch_core_session_perform_receive_message. unfold plain at 1.
  destruct (Z.eqb_spec (message_id m) SWITCH_MESSAGE_INDICATE_SIGNAL_DATA) as [Hid|Hid]; cbn [negb].
  { pose proof (endpoint_adds m b) as Hk. unfold plain in Hk. rewrite Hid in Hk. destruct (to_endpoint m b) as [b1 st].
    destruct (free_keeps m b1 Hc) as (b2 & -> & Hk2). cbn [mbind res_bind]. eexists _, _, []. split; [done|]. split; [|done]. by eapply adds_keeps. }
  assert (plain m = true) as Hp by (unfold plain; by rewrite (proj2 (Z.eqb_neq _ _))).
  destruct (Sessions.hangup_lock_refuses (sess b) || Sessions.s_writer (sess b)) eqn:Hlock.
  { eexists _, _, _. split; [done|]. split; [by apply adds_did|]. eexists. split; [done|]. by split_and!. }
  set (m1 := if SWITCH_MESSAGE_INVALID - 1 <? message_id m then set_id (SWITCH_MESSAGE_INVALID - 1) m else m).
  assert (clean m1 = true) as Hc1 by (unfold m1; destruct (_ <? _); exact Hc).
  assert (exists b1, (if message_id m1 =? SWITCH_MESSAGE_INDICATE_CLEAR_PROGRESS
    then on_chan (switch_channel_clear_flag session_env_of CF_EARLY_MEDIA) (lock b) else Ok (lock b)) = Ok b1 /\ keeps (lock b) b1) as (b1 & -> & K1).
  { destruct (message_id m1 =? SWITCH_MESSAGE_INDICATE_CLEAR_PROGRESS); [by apply keeps_clear|]. eexists. split; [done|apply keeps_refl]. }
  cbn [mbind res_bind].
  assert (exists m2 b2 ig, (if message_id m1 =? SWITCH_MESSAGE_INDICATE_DISPLAY then display_update m1 b1 else Ok (m1, b1, false)) = Ok (m2, b2, ig)
    /\ keeps b1 b2 /\ clean m2 = true /\ as_received m = Ok m2 /\ (ig = true -> fits m (DisplayIgnored m2 (sess b2))))
    as (m2 & b2 & ig & -> & K2 & Hc2 & Hm2 & Hig).
  { unfold as_received. fold m1. destruct (Z.eqb_spec (message_id m1) SWITCH_MESSAGE_INDICATE_DISPLAY) as [Hd|];
      [|eexists _, _, _; split; [done|]; split; [apply keeps_refl|done]].
    assert (m1 = m) as E1 by (unfold m1 in *; destruct (SWITCH_MESSAGE_INVALID - 1 <? message_id m); [discriminate Hd|done]).
    rewrite E1 in Hd |- *. rewrite Hd in Hs. cbn [Z.eqb negb orb] in Hs.
    destruct (split_display m) as [m2| |] eqn:E; try done. destruct (display_keeps m m2 b1 E) as (b2 & K & ->).
    eexists _, _, _. split; [done|]. split_and!; [done..|]. intros Ht. split_and!; [done| |exact Ht].
    unfold as_received. fold m1. rewrite E1, Hd. done. }
  cbn [mbind res_bind].
  assert (exists b3 st o, (if ig then Ok (did (Given (DisplayIgnored m2 (sess b2))) b2, SWITCH_STATUS_SUCCESS) else deliver_message m2 b2) = Ok (b3, st)
    /\ adds [o] b2 b3 /\ fits m o) as (b3 & st & o & -> & K3 & Ho).
  { destruct ig; [eexists _, _, _; split; [done|]; split; [by apply adds_did|by apply Hig]|].
    destruct (deliver_adds m2 b2 (received_plain m m2 Hp Hm2)) as (b3 & st & -> & K3). eexists _, _, _. split; [done|]. split; [exact K3|].
    destruct (up_nosig (chan b2)) eqn:Hup; [|by split_and!]. unfold at_endpoint. destruct io_receive_message eqn:Eio; cbn; rewrite Eio; by split_and!. }
  cbn [mbind res_bind]. destruct (free_keeps m2 b3 Hc2) as (b4 & -> & K4). cbn [mbind res_bind]. eexists _, _, [o]. split; [done|]. split; [|by eexists].
  eapply keeps_adds; [apply (keeps_sess b)|]. eapply keeps_adds; [exact K1|]. eapply keeps_adds; [exact K2|].
  eapply adds_keeps; [exact K3|]. eapply keeps_adds; [exact K4|apply keeps_sess].
Qed.

Lemma process_adds m b : exists b' st, switch_ivr_process_indications m b = Ok (b', st)
  /\ if indication m then st = SWITCH_STATUS_SUCCESS /\ adds [Indicated (message_id m)] b b' else st = SWITCH_STATUS_FALSE /\ b' = b.
Proof.
  unfold switch_ivr_process_indications. fold (indication m). destruct (indication m); [|by eexists _, _].
  set (b0 := did _ b). assert (adds [Indicated (message_id m)] b b0) as K0 by (by apply adds_did).
  pose proof (indicate_keeps (message_id m) b0) as K. pose proof (indicate_refused (message_id m) b0) as R.
  destruct (indicate (message_id m) b0) as [b1 st]. cbn [fst snd] in *. case_bool_decide as Hst.
  { eexists _, _. split; [done|]. split; [done|]. by eapply adds_keeps. }
  destruct (keeps_on_chan (switch_channel_perform_hangup session_env_of SWITCH_CAUSE_DESTINATION_OUT_OF_ORDER) b1 (R Hst)) as (b2 & -> & K2).
  cbn [mbind res_bind]. eexists _, _. split; [done|]. split; [done|]. eapply adds_keeps; [exact K0|]. by eapply keeps_adds.
Qed.

Lemma handle_adds m b : sound m = true ->
  exists b' os, ('(b, st) ← switch_ivr_process_indications m b;
              (if bool_decide (st = SWITCH_STATUS_SUCCESS) then switch_core_session_free_message m b
               else fst <$> switch_core_session_perform_receive_message m b)) = Ok b' /\ adds os b b'
  /\ if plain m then exists o, os = [o] /\ fits m o else os = [].
Proof.
  intros Hs. destruct (process_adds m b) as (b1 & st & -> & K1). cbn [mbind res_bind]. destruct (indication m) eqn:Hi.
  - destruct K1 as [-> K1]. rewrite bool_decide_eq_true_2 by done. apply andb_true_iff in Hs as [Hc _].
    destruct (free_keeps m b1 Hc) as (b2 & -> & K2). eexists _, _. split; [done|]. split; [by eapply adds_keeps|].
    assert (plain m = true) as ->; [|by eexists]. unfold plain. destruct (Z.eqb_spec (message_id m) SWITCH_MESSAGE_INDICATE_SIGNAL_DATA) as [E|]; [|done].
    unfold indication in Hi. rewrite E in Hi. discriminate.
  - destruct K1 as [-> ->]. rewrite bool_decide_eq_false_2 by done. destruct (receive_adds m b Hs Hi) as (b2 & st2 & os & -> & K2 & Ho).
    eexists _, _. by split.
Qed.

(** One pass over the queue: the messages up to the first that is not due are
    taken, and that one goes to the end. *)
Fixpoint pass (q : list message) : list message * list message :=
  match q with
  | [] => ([], [])
  | m :: q => if not_due m then ([], q ++ [m]) else let '(t, r) := pass q in (m :: t, r)
  end.

Lemma queue_kept m b : zlen (Dtmf.elements (messages b)) < Dtmf.capacity (messages b) ->
  exists b', (switch_core_session_queue_message m b).1 = b' /\ Dtmf.elements (messages b') = Dtmf.elements (messages b) ++ [m]
    /\ Dtmf.capacity (messages b') = Dtmf.capacity (messages b) /\ taken (deeds b') = taken (deeds b) /\ signals b' = signals b
    /\ given (deeds b') = given (deeds b).
Proof.
  intros Hlt. unfold switch_core_session_queue_message. destruct (Dtmf.push_room _ m Hlt) as (q & -> & Hq & Hc). cbn [fst].
  eexists. split; [done|]. cbn. split_and!; [done..| |done|]; unfold taken, given; by rewrite !omap_app, !app_nil_r.
Qed.

(** What became of the messages [ms]. *)
Definition settled (ms : list message) b b' : Prop :=
  exists os, given (deeds b') = given (deeds b) ++ os /\ Forall2 fits (filter (fun m => plain m = true) ms) os.

Lemma settled_same b b' : given (deeds b') = given (deeds b) -> settled [] b b'.
Proof. intros E. exists []. by rewrite app_nil_r. Qed.

Lemma settled_app ms ms' b1 b2 b3 : settled ms b1 b2 -> settled ms' b2 b3 -> settled (ms ++ ms') b1 b3.
Proof.
  intros (os & E & F) (os' & E' & F'). exists (os ++ os'). rewrite E', E, app_assoc. split; [done|]. rewrite filter_app. by apply Forall2_app.
Qed.

Lemma message_loop_pass fuel b i q :
  Dtmf.elements (messages b) = q -> zlen q <= Dtmf.capacity (messages b) -> Forall (fun m => sound m = true) q -> (length q < fuel)%nat ->
  exists b' i', message_loop fuel b i = Ok (b', i') /\ taken (deeds b') = taken (deeds b) ++ (pass q).1 /\ settled (pass q).1 b b'
    /\ Dtmf.elements (messages b') = (pass q).2 /\ Dtmf.capacity (messages b') = Dtmf.capacity (messages b) /\ signals b' = signals b.
Proof.
  revert b i q. induction fuel as [|fuel IH]; intros b i q Hq Hcap Hs Hf; [lia|]. cbn [message_loop]. unfold switch_core_session_dequeue_message.
  pose proof (pop_cases (messages b)) as Hp. rewrite Hq in Hp. destruct q as [|m q]; cbn [pass].
  { rewrite Hp. eexists _, _. split; [done|]. cbn [fst snd]. rewrite app_nil_r. split_and!; [done|by apply settled_same|done..]. }
  destruct Hp as (q1 & -> & Hel & Hc1). apply Forall_cons in Hs as [Hm Hs]. rewrite zlen_cons in Hcap. cbn in Hf. destruct (not_due m).
  { destruct (queue_kept m (set_messages q1 b)) as (b1 & Hb1 & He1 & Hcp1 & Ht1 & Hsg1 & Hg1); [cbn; rewrite Hel; lia|]. rewrite Hb1. cbn in He1, Hcp1, Ht1, Hsg1.
    eexists _, _. split; [done|]. cbn [fst snd]. rewrite app_nil_r. split_and!; [done|by apply settled_same|by rewrite He1, Hel|congruence|done]. }
  destruct (handle_adds m (did (Taken m) (set_messages q1 b)) Hm) as (b1 & os & Hh & [K1 K2 K3 K4] & Ho).
  cbn [fst snd]. destruct (switch_ivr_process_indications m _) as [[b2 st]| |]; cbn [mbind res_bind] in Hh |- *; try done. rewrite Hh. cbn [mbind res_bind].
  assert (taken (deeds b1) = taken (deeds b) ++ [m]) as Ht by (rewrite K3; cbn; unfold taken; by rewrite omap_app).
  assert (settled [m] b b1) as Hset.
  { exists os. rewrite K4. unfold given at 1. cbn [deeds did set_messages]. rewrite omap_app, app_nil_r. split; [done|].
    rewrite filter_cons. destruct (plain m); [destruct Ho as (o & -> & Hfit); by repeat constructor|subst os; by constructor]. }
  cbn in K1, K2. destruct (IH b1 (i + 1) q) as (b3 & i' & -> & I1 & I0 & I2 & I3 & I4); [by rewrite K1|by rewrite K1, Hc1; lia|done|lia|].
  destruct (pass q) as [t r]. cbn [fst snd] in *. eexists _, _. split; [done|]. rewrite I1, Ht, <-app_assoc. cbn.
  split_and!; [done|by apply (settled_app [m] t b b1 b3)|done|congruence|congruence].
Qed.

Lemma signal_loop_keeps fuel b i q : Dtmf.elements (signals b) = q -> (length q < fuel)%nat ->
  exists b' i', signal_loop fuel b i = Ok (b', i') /\ messages b' = messages b /\ taken (deeds b') = taken (deeds b) /\ given (deeds b') = given (deeds b).
Proof.
  revert b i q. induction fuel as [|fuel IH]; intros b i q Hq Hf; [lia|]. cbn [signal_loop].
  pose proof (pop_cases (signals b)) as Hp. rewrite Hq in Hp. destruct q as [|d q]; [rewrite Hp; by eexists _, _|].
  destruct Hp as (q1 & -> & Hel & _). cbn in Hf.
  destruct (receive_adds (zero_message SWITCH_MESSAGE_INDICATE_SIGNAL_DATA) (set_signals q1 b)) as (b1 & st & os & -> & [K1 K2 K3 K4] & ->); [done..|].
  rewrite app_nil_r in K4.
  cbn [mbind res_bind]. destruct (IH b1 (i + 1) q) as (b2 & i' & -> & I1 & I2 & I3); [by rewrite K2|lia|]. eexists _, _. split; [done|].
  split_and!; [by rewrite I1, K1|by rewrite I2, K3|by rewrite I3, K4].
Qed.

Lemma signal_data_keeps b : exists b' st, switch_ivr_parse_all_signal_data b = Ok (b', st)
  /\ messages b' = messages b /\ taken (deeds b') = taken (deeds b) /\ given (deeds b') = given (deeds b).
Proof.
  unfold switch_ivr_parse_all_signal_data. destruct (_ || _); [by eexists _, _|].
  destruct (keeps_on_chan (switch_channel_set_flag session_env_of CF_SIGNAL_DATA) b) as (b1 & -> & [K1 K2 K3 K4]); [by apply set_flag_total|].
  cbn [mbind res_bind]. destruct (signal_loop_keeps (S (Z.to_nat (Dtmf.queue_size (signals b1)))) b1 0 _ eq_refl) as (b2 & i & -> & S1 & S2 & S3).
  { rewrite Dtmf.size_elements. unfold zlen. lia. }
  cbn [mbind res_bind]. destruct (keeps_clear CF_SIGNAL_DATA b2) as (b3 & -> & [L1 L2 L3 L4]); [done|]. cbn [mbind res_bind].
  rewrite app_nil_r in K4, L4. eexists _, _. split; [done|]. split_and!; congruence.
Qed.

(** The state of the queue: its messages, all sound, within its room. *)
Definition queued b (q : list message) : Prop :=
  Dtmf.elements (messages b) = q /\ zlen q <= Dtmf.capacity (messages b) /\ Forall (fun m => sound m = true) q.

Lemma pass_perm q : (pass q).1 ++ (pass q).2 ≡ₚ q.
Proof.
  induction q as [|m q IH]; cbn; [done|]. destruct (not_due m); cbn; [by rewrite Permutation_app_comm|].
  destruct (pass q) as [t r]. cbn in *. by rewrite IH.
Qed.

Lemma parse_pass b q : queued b q -> exists b' st, switch_ivr_parse_all_messages b = Ok (b', st)
  /\ taken (deeds b') = taken (deeds b) ++ (pass q).1 /\ settled (pass q).1 b b' /\ queued b' (pass q).2.
Proof.
  intros (Hq & Hc & Hs). unfold switch_ivr_parse_all_messages. destruct (signal_data_keeps b) as (b1 & st & -> & S1 & S2 & S3). cbn [mbind res_bind].
  destruct (message_loop_pass (S (Z.to_nat (Dtmf.queue_size (messages b1)))) b1 0 q) as (b2 & i & -> & M1 & M0 & M2 & M3 & _);
    [congruence|by rewrite S1|done|rewrite Dtmf.size_elements, S1, Hq; unfold zlen; lia|].
  cbn [mbind res_bind]. eexists _, _. split; [done|]. rewrite M1, S2. split; [done|]. pose proof (pass_perm q) as Hp.
  split; [by apply (settled_app [] _ b b1 b2); [apply settled_same|]|].
  split_and!; [done| |].
  - rewrite M3, S1. etrans; [|exact Hc]. apply Permutation_length in Hp. rewrite length_app in Hp. unfold zlen. lia.
  - eapply (Forall_app _ (pass q).1). by rewrite Hp.
Qed.

Fixpoint parse_times (n : nat) b : res (mailbox QM QS QE) :=
  match n with O => Ok b | S n => '(b, _) ← switch_ivr_parse_all_messages b; parse_times n b end.

Definition due_messages (q : list message) : list message := filter (fun m => not_due m = false) q.
Definition late_messages (q : list message) : list message := filter (fun m => not_due m = true) q.

Lemma pass_due d q : Forall (fun m => not_due m = false) d -> pass (d ++ q) = (d ++ (pass q).1, (pass q).2).
Proof. induction 1 as [|m d Hm _ IH]; cbn; [by destruct (pass q)|]. by rewrite Hm, IH. Qed.

Lemma split_late q : Forall (fun m => not_due m = false) q \/ exists d n r, q = d ++ n :: r /\ Forall (fun m => not_due m = false) d /\ not_due n = true.
Proof.
  induction q as [|m q [IH|(d & n & r & -> & Hd & Hn)]]; [by left| |].
  - destruct (not_due m) eqn:Hm; [right; by exists [], m, q|left; by constructor].
  - right. destruct (not_due m) eqn:Hm; [by exists [], m, (d ++ n :: r)|]. exists (m :: d), n, r. split_and!; [done|by constructor|done].
Qed.

Lemma filter_due d : Forall (fun m => not_due m = false) d -> due_messages d = d /\ late_messages d = [].
Proof.
  induction 1 as [|m d Hm _ [I1 I2]]; [done|]. unfold due_messages, late_messages in *. rewrite !filter_cons, decide_True, decide_False by congruence.
  by rewrite I1, I2.
Qed.

Lemma parse_all n q r b :
  queued b (q ++ r) -> Forall (fun m => not_due m = true) r -> n = length (late_messages q) ->
  exists b', parse_times (S n) b = Ok b' /\ taken (deeds b') = taken (deeds b) ++ due_messages q /\ settled (due_messages q) b b'
    /\ Dtmf.elements (messages b') ≡ₚ late_messages q ++ r.
Proof.
  revert q r b. induction n as [|n IH]; intros q r b Hb Hr Hn; cbn [parse_times];
    destruct (parse_pass b _ Hb) as (b1 & st & -> & Ht & Hset & Hq1); cbn [mbind res_bind]; destruct (split_late q) as [Hd|(d & m & q2 & -> & Hd & Hm)].
  - destruct (filter_due q Hd) as [-> ->]. rewrite pass_due in Ht, Hset, Hq1 by done. cbn [fst snd] in *. eexists. split; [done|]. destruct Hq1 as [-> _].
    destruct r as [|m r]; cbn in *; [by rewrite app_nil_r in Ht, Hset|]. apply Forall_cons in Hr as [Hm _]. rewrite Hm in *. cbn in *. rewrite app_nil_r in Ht, Hset.
    do 2 (split; [done|]). by rewrite Permutation_app_comm.
  - exfalso. unfold late_messages in Hn. rewrite filter_app, length_app, filter_cons, decide_True in Hn by done. cbn in Hn. lia.
  - destruct (filter_due q Hd) as [_ E]. by rewrite E in Hn.
  - rewrite <-app_assoc, pass_due in Ht, Hset, Hq1 by done. cbn in Ht, Hset, Hq1. rewrite Hm in Ht, Hset, Hq1. cbn in Ht, Hset, Hq1.
    rewrite app_nil_r in Ht, Hset.
    destruct (filter_due d Hd) as [E1 E2]. unfold late_messages in Hn. rewrite filter_app in Hn. fold (late_messages d) in Hn. rewrite E2, filter_cons, decide_True in Hn by done.
    rewrite <-app_assoc in Hq1. destruct (IH q2 (r ++ [m]) b1 Hq1) as (b2 & Hp2 & I1 & I0 & I2);
      [apply Forall_app; split; [done|by constructor]|cbn in Hn; unfold late_messages; lia|].
    eexists. split; [exact Hp2|]. unfold due_messages, late_messages in *. rewrite !filter_app, !filter_cons, E1, E2, decide_False, decide_True by congruence.
    rewrite I1, Ht, <-app_assoc. split; [done|]. split; [by eapply settled_app|]. rewrite I2. cbn. rewrite (Permutation_app_comm r [m]). cbn. by rewrite Permutation_middle.
Qed.

End working.

(** C17: every message that is due is dealt with, once and in order.  When
    switch_ivr_parse_all_messages is called once more than there are messages in
    the queue that are not due yet, each call ends, the messages that are due are
    taken exactly once and in the order of the queue, and those that are not due
    are all still in it.  Each message that was taken has its one outcome, in
    that order: a request to ring, to send media or to answer is made of the
    channel; any other message goes to the endpoint (its display string split,
    an unknown number cut down), unless the endpoint has no routine for it, the
    channel is down, the session is being destroyed or locked for writing, or
    it is a display update and a variable has those ignored.  (Messages with the
    number of signal data, which has a queue of its own, are taken alike, but
    their outcome is not followed.)  It is assumed that a dynamic message is from
    malloc with all its strings and is not a display update whose string has to
    be split, which the code gives back wrongly; that a display string to be
    split does not end in a backslash; that what the endpoint, its
    hooks and the answering of the call do leaves these two queues alone; and
    that a channel which refuses such a request can be hung up. *)
Theorem messages_worked_off {QM QS QE} {AM : Dtmf.AprQueue message QM} {AS : Dtmf.AprQueue Z QS} {AE : Dtmf.AprQueue Event.event QE}
  {SV : Services (mailbox QM QS QE)} {SL : ServiceLaws} (b : mailbox QM QS QE) (q : list message) :
  Dtmf.elements (messages b) = q -> zlen q <= Dtmf.capacity (messages b) -> Forall (fun m => sound m = true) q ->
  exists b' os, parse_times (S (length (late_messages q))) b = Ok b'
    /\ taken (deeds b') = taken (deeds b) ++ due_messages q /\ Dtmf.elements (messages b') ≡ₚ late_messages q
    /\ given (deeds b') = given (deeds b) ++ os /\ Forall2 fits (filter (fun m => plain m = true) (due_messages q)) os.
Proof.
  intros Hq Hc Hs. destruct (parse_all (length (late_messages q)) q [] b) as (b' & Hb' & Ht & (os & Hg & Hf) & He); [by rewrite app_nil_r|done|done|].
  exists b', os. by rewrite app_nil_r in He.
Qed.

(** ** Witnesses and flaws *)

#[local] Existing Instance Dtmf.list_queue_apr.

Definition box : Type := mailbox (Dtmf.list_queue message) (Dtmf.list_queue Z) (Dtmf.list_queue Event.event).

#[local] Instance sample_services : Services box := {|
  io_receive_message := Some (fun _ b => (b, SWITCH_STATUS_SUCCESS)); message_hooks := [];
  io_receive_event := None; event_hooks := []; indicate _ b := (b, SWITCH_STATUS_SUCCESS);
  clock := 100; session_env_of := sample_env; reachable_peer _ := false |}.

#[local] Instance sample_laws : ServiceLaws (SV := sample_services).
Proof.
  split; cbn.
  - intros f m b [= <-]. apply keeps_refl.
  - done.
  - intros id b. apply keeps_refl.
  - intros id b Hid. by destruct Hid.
Qed.

Definition sample_session : Sessions.session :=
  Sessions.Session (str "a") 1 0 1 (switch_channel_alloc SWITCH_CALL_DIRECTION_INBOUND) 0 false Sessions.Running.

Definition at_time (t : Z) (id : Z) : message := Message id 0 None None (replicate MESSAGE_STRING_ARG_MAX None) SCSMF_DYNAMIC t.

Definition with_messages (q : list message) : box :=
  foldl (fun b m => (switch_core_session_queue_message m b).1) (new_mailbox sample_session) q.

Lemma messages_worked_off_witness :
  let q := [at_time 200 10; at_time 0 SWITCH_MESSAGE_INDICATE_ANSWER; at_time 50 SWITCH_MESSAGE_INDICATE_BRIDGE] in
  exists b' os, parse_times 2 (with_messages q) = Ok b'
    /\ taken (deeds b') = [at_time 0 SWITCH_MESSAGE_INDICATE_ANSWER; at_time 50 SWITCH_MESSAGE_INDICATE_BRIDGE]
    /\ Dtmf.elements (messages b') ≡ₚ [at_time 200 10] /\ given (deeds b') = os
    /\ Forall2 fits [at_time 0 SWITCH_MESSAGE_INDICATE_ANSWER; at_time 50 SWITCH_MESSAGE_INDICATE_BRIDGE] os.
Proof.
  cbv zeta. set (q := [_; _; _]). destruct (messages_worked_off (with_messages q) q) as (b' & os & Hb' & Ht & He & Hg & Hf);
    [reflexivity|vm_compute; done|by repeat constructor|].
  exists b', os. split_and!; [exact Hb'|exact Ht|exact He|exact Hg|exact Hf].
Defined.

Lemma private_events_priority_queue_witness :
  let e n := Event.switch_event_create_plain n in
  let p n := Event.set_event_id SWITCH_EVENT_PRIVATE_COMMAND (e n) in
  exists b : box, private_run [Put (e 1) false; Put (e 2) true; Count; Get; Get; Get] (new_mailbox sample_session)
    = Ok (b, [Accepted true; Accepted true; Number 2; Got (Some (p 2)); Got (Some (p 1)); Got None]).
Proof.
  cbv zeta. destruct (private_events_priority_queue (QM := Dtmf.list_queue message) (QS := Dtmf.list_queue Z) (QE := Dtmf.list_queue Event.event) sample_session
    [Put (Event.switch_event_create_plain 1) false; Put (Event.switch_event_create_plain 2) true; Count; Get; Get; Get]) as (b & Hb & _); [reflexivity..|].
  exists b. exact Hb.
Defined.

(** A message that is not due stops the call that finds it, so that a message
    behind it waits although it is due. *)
Theorem late_message_stops :
  (fun r => taken (deeds r.1)) <$> switch_ivr_parse_all_messages (with_messages [at_time 200 10; at_time 0 10]) = Ok [].
Proof. vm_compute. reflexivity. Qed.

(** An indication that finds the queue full is lost, with its memory, and
    reported as queued. *)
Theorem indication_lost :
  let b := with_messages (replicate 256 (at_time 0 10)) in
  let '(b', st) := switch_core_session_queue_indication SWITCH_MESSAGE_INDICATE_RINGING b in
  st = SWITCH_STATUS_SUCCESS /\ Dtmf.elements (messages b') = Dtmf.elements (messages b).
Proof. vm_compute. done. Qed.

(** A display update in dynamic memory whose string is split gives back pieces
    that are from the pool. *)
Theorem display_frees_pool :
  switch_core_session_perform_receive_message
    (Message SWITCH_MESSAGE_INDICATE_DISPLAY 0 (Some (Malloced (str "Ann|100"))) None (replicate MESSAGE_STRING_ARG_MAX None) SCSMF_DYNAMIC 0)
    (new_mailbox sample_session : box) = Fault.
Proof. vm_compute. reflexivity. Qed.

(** A dynamic message to a session that is being destroyed is not given back. *)
Theorem refused_message_leaks :
  (fun r => (deeds r.1, r.2)) <$> switch_core_session_perform_receive_message (at_time 0 10)
    (new_mailbox (Sessions.raise Sessions.SSF_DESTROYED sample_session) : box)
  = Ok ([Given (TurnedAway (at_time 0 10) (Sessions.raise Sessions.SSF_DESTROYED sample_session))], SWITCH_STATUS_FALSE).
Proof. vm_compute. reflexivity. Qed.

(** With the urgent events locked and one of them waiting, an event of the other
    kind is counted, but cannot be taken. *)
Theorem counted_but_locked :
  let s := Sessions.with_channel (put_flag CF_EVENT_LOCK_PRI 1 (Sessions.s_channel sample_session)) sample_session in
  let e := Event.switch_event_create_plain 1 in
  snd <$> private_run [Put e true; Put e false; Count; Get] (new_mailbox s : box)
  = Ok [Accepted true; Accepted true; Number 1; Got None].
Proof. vm_compute. reflexivity. Qed.

End Mailbox.
