(* ===== verification/Answer.v ===== *)
(** * Ringing, early media and answering

    src/lib/libfreeswitch/switch_channel.c: the ring, pre-answer and answer
    operations of a channel (switch_channel_perform_ring_ready_value,
    switch_channel_perform_pre_answer, switch_channel_perform_answer and the
    operations that mark the channel), the applications and API commands that
    variables ask for on these occasions, and the negotiation of ZRTP between
    the two legs of a call.

    These operations reach other sessions (the partner, the originator), so
    the state is a [world] of legs by session uuid, and a leg may well be its
    own partner.  Messages to the endpoint, applications, API commands and the
    other calls that leave the component go through the class [Services] and
    are recorded, with the events fired, in the [actions] of the leg.  An
    operation returns [None] where the code would dereference NULL. *)

From S2P Require Import Prelude CString Event ChannelNames ChannelVars Channel.
Import CString ChannelNames Channel.

Module Answer.

(** ** Data *)

(** switch_ring_ready_t. *)
Inductive switch_ring_ready := SWITCH_RING_READY_NONE | SWITCH_RING_READY_RINGING | SWITCH_RING_READY_QUEUED.

Definition ring_value (rv : switch_ring_ready) : Z :=
  match rv with SWITCH_RING_READY_NONE => 0 | SWITCH_RING_READY_RINGING => 1 | SWITCH_RING_READY_QUEUED => 2 end.

Inductive message :=
| SWITCH_MESSAGE_INDICATE_RINGING (numeric_arg : Z)
| SWITCH_MESSAGE_INDICATE_PROGRESS
| SWITCH_MESSAGE_INDICATE_ANSWER
| SWITCH_MESSAGE_RING_EVENT
| SWITCH_MESSAGE_PROGRESS_EVENT
| SWITCH_MESSAGE_ANSWER_EVENT.

Inductive announcement := CHANNEL_PROGRESS | CHANNEL_PROGRESS_MEDIA | CHANNEL_ANSWER.

(** What a leg asks of the rest of the system. *)
Inductive action :=
| Fire (e : announcement)
| ReceiveMessage (m : message)
| ExecuteApplication (async : bool) (app : bytes) (arg : option bytes)
| ApiExecute (cmd : bytes) (arg : option bytes)
| SignalBreak
| EnableHeartbeat (seconds : Z)
| Presence
| RecoveryTrack
| AudioSync
| Sleep (msec : Z).

#[export] Instance announcement_eq_dec : EqDecision announcement.
Proof. solve_decision. Defined.

(** The originator's profile a leg carries: the uuid and the times written here. *)
Record originator_profile := OriginatorProfile { o_uuid : option bytes; o_progress : Z; o_progress_media : Z }.

(** A session with its channel.  A channel has times (the field [times] of
    [channel]) exactly when it has a caller profile: switch_channel_set_caller_profile
    allocates them.  [lockable]: can the session be read-locked? *)
Record leg := Leg {
  chan : channel;
  progress : Z;
  progress_media : Z;
  answered : Z;
  originator : option originator_profile;
  lockable : bool;
  thread_running : bool;
  started : bool;
  own_thread : bool;
  outside : ChannelVars.externals;
  actions : list action
}.

Definition set_chan (c : channel) (l : leg) : leg :=
  Leg c (progress l) (progress_media l) (answered l) (originator l) (lockable l) (thread_running l) (started l)
    (own_thread l) (outside l) (actions l).
Definition set_progress (t : Z) (l : leg) : leg :=
  Leg (chan l) t (progress_media l) (answered l) (originator l) (lockable l) (thread_running l) (started l)
    (own_thread l) (outside l) (actions l).
Definition set_progress_media (t : Z) (l : leg) : leg :=
  Leg (chan l) (progress l) t (answered l) (originator l) (lockable l) (thread_running l) (started l)
    (own_thread l) (outside l) (actions l).
Definition set_answered (t : Z) (l : leg) : leg :=
  Leg (chan l) (progress l) (progress_media l) t (originator l) (lockable l) (thread_running l) (started l)
    (own_thread l) (outside l) (actions l).
Definition set_originator (o : option originator_profile) (l : leg) : leg :=
  Leg (chan l) (progress l) (progress_media l) (answered l) o (lockable l) (thread_running l) (started l)
    (own_thread l) (outside l) (actions l).
Definition record (a : action) (l : leg) : leg :=
  Leg (chan l) (progress l) (progress_media l) (answered l) (originator l) (lockable l) (thread_running l) (started l)
    (own_thread l) (outside l) (actions l ++ [a]).

(** [globals]: the global variables; [delivery] and [sequence] are what the
    creation of an event reads. *)
Record world := World {
  legs : gmap bytes leg;
  clock : Z;
  globals : Event.event;
  delivery : Event.delivery_env;
  sequence : Z
}.

Definition set_legs (ls : gmap bytes leg) (w : world) : world := World ls (clock w) (globals w) (delivery w) (sequence w).

(** An update of one session. *)
Definition update (u : bytes) (f : leg -> leg) (w : world) : world := set_legs (alter f u (legs w)) w.

(** ** Sessions and their partners *)

Definition switch_core_session_perform_locate (w : world) (uuid_str : option bytes) : option (bytes * leg) :=
  u ← uuid_str; l ← legs w !! u; if lockable l then Some (u, l) else None.

Definition leg_variable (l : leg) (name : bytes) : option bytes :=
  ChannelVars.switch_channel_get_variable (outside l) (cvars (chan l)) name.

Definition switch_channel_get_partner_uuid (l : leg) : option bytes :=
  match leg_variable l (str "signal_bond") with
  | Some uuid => Some uuid
  | None => leg_variable l (str "originate_signal_bond")
  end.

Definition switch_core_session_perform_get_partner (w : world) (l : leg) : option (bytes * leg) :=
  switch_core_session_perform_locate w (switch_channel_get_partner_uuid l).

(** What the channel operations read of the session. *)
Definition env_of (w : world) (l : leg) : session_env :=
  SessionEnv (clock w) (switch_channel_get_partner_uuid l) (bool_decide (is_Some (switch_core_session_perform_get_partner w l)))
    (thread_running l) (started l) (own_thread l) (outside l).

(** An operation of the channel of session [u]. *)
Definition on_chan (u : bytes) (f : session_env -> channel -> option channel) (w : world) : option world :=
  l ← legs w !! u; c ← f (env_of w l) (chan l); Some (update u (set_chan c) w).

Definition set_flag (u : bytes) (f : switch_channel_flag) : world -> option world :=
  on_chan u (fun env => switch_channel_set_flag env f).
Definition clear_flag (u : bytes) (f : switch_channel_flag) : world -> option world :=
  on_chan u (fun env => switch_channel_clear_flag env f).
Definition set_var (u name value : bytes) : world -> option world :=
  on_chan u (fun _ c => Some (set_variable name (Some value) c)).
Definition set_callstate (u : bytes) (s : switch_channel_callstate) : world -> option world :=
  on_chan u (fun _ c => Some (switch_channel_perform_set_callstate s c)).

(** switch_channel_hangup. *)
Definition SWITCH_CAUSE_INCOMPATIBLE_DESTINATION : Z := 88.
Definition hangup (u : bytes) (cause : Z) : world -> option world :=
  on_chan u (fun env => switch_channel_perform_hangup env cause).

(** An event fired by session [u]. *)
Definition fire (u : bytes) (e : announcement) (w : world) : world := update u (record (Fire e)) w.

(** Calls to code outside of this file: what they do to the world, and their status. *)
Class Services := { external : bytes -> action -> world -> option (world * switch_status) }.

Section operations.
Context `{SV : Services}.

Definition invoke (u : bytes) (a : action) (w : world) : option (world * switch_status) := external u a (update u (record a) w).
Definition invoke_ (u : bytes) (a : action) (w : world) : option world := fst <$> invoke u a w.

Definition test (w : world) (u : bytes) (f : switch_channel_flag) : option bool :=
  l ← legs w !! u; Some (flag_set (chan l) f).
Definition variable (w : world) (u name : bytes) : option (option bytes) :=
  l ← legs w !! u; Some (leg_variable l name).

Definition send_ind (u : bytes) (m : message) (w : world) : option (world * switch_status) := invoke u (ReceiveMessage m) w.

(** ** Applications and API commands on events *)

(** The values of the variables whose names start with [prefix], arrays slot by slot. *)
Definition values_on (prefix : bytes) (ev : Event.event) : list (option bytes) :=
  concat ((fun hp =>
    if strncaseeq (Event.h_name hp) prefix (zlen prefix) then
      if Event.h_idx hp =? 0 then [Event.h_value hp] else Some <$> Event.h_array hp
    else []) <$> Event.headers ev).

Definition do_api_on (u : bytes) (variable : option bytes) (w : world) : option world :=
  v ← variable;
  let '(app, arg) := match strchr v 32 with Some i => let '(a, b) := cut_at v i in (a, Some b) | None => (v, None) end in
  invoke_ u (ApiExecute app arg) w.

(** The name and the argument of an application; a double colon asks for a
    thread of its own and is left in the name. *)
Fixpoint split_application (s : bytes) : bytes * option bytes * bool :=
  match s with
  | [] => ([], None, false)
  | p :: s' =>
    if (p =? 32) || ((p =? 58) && negb (bool_decide (head s' = Some 58))) then ([], Some s', false)
    else if (p =? 58) && bool_decide (head s' = Some 58) then (s, None, true)
    else let '(app, arg, bg) := split_application s' in (p :: app, arg, bg)
  end.

Definition do_execute_on (u : bytes) (variable : option bytes) (w : world) : option world :=
  v ← variable;
  let '(app, arg, bg) := split_application v in
  let bg := bg || strncaseeq app (str "perl") 4 in
  invoke_ u (ExecuteApplication bg app arg) w.

Fixpoint each (f : option bytes -> world -> option world) (vs : list (option bytes)) (w : world) : option world :=
  match vs with
  | [] => Some w
  | v :: vs => w ← f v w; each f vs w
  end.

Definition on_status (vs : list (option bytes)) : switch_status :=
  match vs with [] => SWITCH_STATUS_FALSE | _ => SWITCH_STATUS_SUCCESS end.

(** switch_channel_get_variables: a copy, which the calls below do not change. *)
Definition get_variables (w : world) (u : bytes) : option Event.event :=
  l ← legs w !! u; ChannelVars.switch_channel_get_variables (delivery w) (sequence w) (cvars (chan l)).

Definition switch_channel_api_on (u prefix : bytes) (w : world) : option (world * switch_status) :=
  event ← get_variables w u;
  let vs := values_on prefix event in
  w ← each (do_api_on u) vs w; Some (w, on_status vs).

Definition switch_channel_execute_on (u prefix : bytes) (w : world) : option (world * switch_status) :=
  let event := Event.switch_event_dup (globals w) in
  cevent ← get_variables w u;
  let vs := values_on prefix (Event.switch_event_merge event cevent) in
  w ← each (do_execute_on u) vs w; Some (w, on_status vs).

Definition api_on (u prefix : bytes) (w : world) : option world := fst <$> switch_channel_api_on u prefix w.
Definition execute_on (u prefix : bytes) (w : world) : option world := fst <$> switch_channel_execute_on u prefix w.

(** ** ZRTP *)

Definition zrtp_disable (u : bytes) (w : world) : option world :=
  w ← set_var u (str "zrtp_passthru_active") (str "false") w;
  w ← set_var u (str "zrtp_secure_media") (str "true") w;
  w ← clear_flag u CF_ZRTP_PASSTHRU w;
  clear_flag u CF_ZRTP_HASH w.

Definition zrtp_enable (u other : bytes) (w : world) : option world :=
  w ← set_flag u CF_ZRTP_PASSTHRU w;
  w ← set_flag other CF_ZRTP_PASSTHRU w;
  w ← set_var u (str "zrtp_passthru_active") (str "true") w;
  w ← set_var other (str "zrtp_passthru_active") (str "true") w;
  w ← set_var u (str "zrtp_secure_media") (str "false") w;
  set_var other (str "zrtp_secure_media") (str "false") w.

Definition zrtp_wanted (c : channel) : bool :=
  negb (flag_set c CF_ZRTP_PASSTHRU) && flag_set c CF_ZRTP_PASSTHRU_REQ && flag_set c CF_ZRTP_HASH.

Definition zrtp_capable (c : channel) : bool := flag_set c CF_ZRTP_HASH && negb (flag_set c CF_ZRTP_PASSTHRU).

(** The partner is located again after the channel's variables have been set. *)
Definition zrtp_disable_both (u : bytes) (w : world) : option world :=
  w ← zrtp_disable u w;
  l ← legs w !! u;
  match switch_core_session_perform_get_partner w l with
  | Some (other, _) => zrtp_disable other w
  | None => Some w
  end.

Definition switch_channel_check_zrtp (u : bytes) (w : world) : option world :=
  l ← legs w !! u;
  if zrtp_wanted (chan l) then
    match switch_core_session_perform_get_partner w l with
    | Some (other, l') => if zrtp_capable (chan l') then zrtp_enable u other w else zrtp_disable_both u w
    | None => zrtp_disable_both u w
    end
  else Some w.

(** ** Ringing and early media *)

(** The time a leg started to ring or to send media, also entered for the
    originator: in its session and in the copy of its profile. *)
Definition stamp (set_time : Z -> leg -> leg) (set_copy : Z -> originator_profile -> originator_profile)
  (u : bytes) (w : world) : option world :=
  l ← legs w !! u;
  match times (chan l) with
  | None => Some w
  | Some _ =>
    let t := clock w in
    let w := update u (set_time t) w in
    match originator l with
    | None => Some w
    | Some o =>
      let w := match switch_core_session_perform_locate w (o_uuid o) with
               | Some (other, l') => if bool_decide (is_Some (times (chan l'))) then update other (set_time t) w else w
               | None => w
               end in
      Some (update u (fun l => set_originator (set_copy t <$> originator l) l) w)
    end
  end.

Definition stamp_progress : bytes -> world -> option world :=
  stamp set_progress (fun t o => OriginatorProfile (o_uuid o) t (o_progress_media o)).
Definition stamp_progress_media : bytes -> world -> option world :=
  stamp set_progress_media (fun t o => OriginatorProfile (o_uuid o) (o_progress o) t).

Definition switch_channel_perform_mark_ring_ready_value (u : bytes) (rv : switch_ring_ready) (w : world)
  : option (world * switch_status) :=
  ringing ← test w u CF_RING_READY;
  up ← test w u CF_ANSWERED;
  if negb ringing && negb up then
    w ← on_chan u (fun env => switch_channel_set_flag_value env CF_RING_READY (ring_value rv)) w;
    w ← stamp_progress u w;
    let w := fire u CHANNEL_PROGRESS w in
    w ← execute_on u (str "execute_on_ring") w;
    w ← api_on u (str "api_on_ring") w;
    w ← set_callstate u CCS_RINGING w;
    '(w, _) ← send_ind u SWITCH_MESSAGE_RING_EVENT w;
    Some (w, SWITCH_STATUS_SUCCESS)
  else Some (w, SWITCH_STATUS_FALSE).

Definition ptime_mismatch (u : bytes) (w : world) : option world :=
  v ← variable w u (str "passthru_ptime_mismatch");
  match v with Some _ => set_flag u CF_PASSTHRU_PTIME_MISMATCH w | None => Some w end.

(** A blocking read of the originator is interrupted. *)
Definition break_originator (u : bytes) (w : world) : option world :=
  v ← variable w u (str "originator");
  match switch_core_session_perform_locate w v with
  | Some (other, _) => invoke_ other SignalBreak w
  | None => Some w
  end.

Definition switch_channel_perform_mark_pre_answered (u : bytes) (w : world) : option (world * switch_status) :=
  early ← test w u CF_EARLY_MEDIA;
  up ← test w u CF_ANSWERED;
  if negb early && negb up then
    w ← switch_channel_check_zrtp u w;
    w ← set_flag u CF_EARLY_MEDIA w;
    w ← set_var u (str "endpoint_disposition") (str "EARLY MEDIA") w;
    w ← stamp_progress_media u w;
    let w := fire u CHANNEL_PROGRESS_MEDIA w in
    w ← execute_on u (str "execute_on_pre_answer") w;
    w ← execute_on u (str "execute_on_media") w;
    w ← api_on u (str "api_on_pre_answer") w;
    w ← api_on u (str "api_on_media") w;
    w ← ptime_mismatch u w;
    w ← break_originator u w;
    w ← set_callstate u CCS_EARLY w;
    '(w, _) ← send_ind u SWITCH_MESSAGE_PROGRESS_EVENT w;
    Some (w, SWITCH_STATUS_SUCCESS)
  else Some (w, SWITCH_STATUS_FALSE).

(** ** Answering *)

(** hangup_cause is set or the state is CS_HANGUP or later. *)
Definition hung (c : channel) : bool := negb (hangup_cause c =? 0) || (cs CS_HANGUP <=? cs (state c)).

(** The period of the heartbeat events a variable asks for; 0 for none. *)
Definition heartbeat_seconds (var : bytes) : Z :=
  if switch_is_number var then let tmp := atoi var in if 0 <? tmp then tmp else 60
  else if negb (switch_true (Some var)) then 0 else 60.

Definition heartbeat (u : bytes) (w : world) : option world :=
  v ← variable w u (str "enable_heartbeat_events");
  match v with
  | Some var => let seconds := heartbeat_seconds var in
                if seconds =? 0 then Some w else invoke_ u (EnableHeartbeat seconds) w
  | None => Some w
  end.

(** What happens when a leg turns from unanswered to answered. *)
Definition become_answered (u : bytes) (w : world) : option world :=
  l ← legs w !! u;
  let w := match times (chan l) with Some _ => update u (set_answered (clock w)) w | None => w end in
  w ← switch_channel_check_zrtp u w;
  w ← set_flag u CF_ANSWERED w;
  Some (fire u CHANNEL_ANSWER w).

(** What an answered leg sets going. *)
Definition after_answer (u : bytes) (w : world) : option world :=
  w ← break_originator u w;
  w ← ptime_mismatch u w;
  w ← heartbeat u w;
  w ← set_var u (str "endpoint_disposition") (str "ANSWER") w;
  w ← execute_on u (str "execute_on_answer") w;
  early ← test w u CF_EARLY_MEDIA;
  w ← (if early : bool then Some w
       else w ← execute_on u (str "execute_on_media") w; api_on u (str "api_on_media") w);
  w ← api_on u (str "api_on_answer") w;
  w ← invoke_ u Presence w;
  w ← invoke_ u RecoveryTrack w;
  w ← set_callstate u CCS_ACTIVE w;
  fst <$> send_ind u SWITCH_MESSAGE_ANSWER_EVENT w.

Definition switch_channel_perform_mark_answered (u : bytes) (w : world) : option (world * switch_status) :=
  l ← legs w !! u;
  if hung (chan l) then Some (w, SWITCH_STATUS_FALSE)
  else if flag_set (chan l) CF_ANSWERED then Some (w, SWITCH_STATUS_SUCCESS)
  else
    w ← become_answered u w;
    w ← after_answer u w;
    Some (w, SWITCH_STATUS_SUCCESS).

(** The part the three requests share: a leg whose endpoint refuses is hung up. *)
Definition conclude (u : bytes) (accepted : world -> option world) (status : switch_status) (w : world)
  : option (world * switch_status) :=
  w ← (if bool_decide (status = SWITCH_STATUS_SUCCESS) then accepted w
       else hangup u SWITCH_CAUSE_INCOMPATIBLE_DESTINATION w);
  Some (w, status).

(** The endpoint of an inbound leg is told. *)
Definition indicate (u : bytes) (m : message) (l : leg) (w : world) : option (world * switch_status) :=
  match direction (chan l) with
  | SWITCH_CALL_DIRECTION_INBOUND => send_ind u m w
  | SWITCH_CALL_DIRECTION_OUTBOUND => Some (w, SWITCH_STATUS_SUCCESS)
  end.

Definition switch_channel_perform_pre_answer (u : bytes) (w : world) : option (world * switch_status) :=
  l ← legs w !! u;
  if hung (chan l) then Some (w, SWITCH_STATUS_FALSE)
  else if flag_set (chan l) CF_ANSWERED then Some (w, SWITCH_STATUS_SUCCESS)
  else if flag_set (chan l) CF_EARLY_MEDIA then Some (w, SWITCH_STATUS_SUCCESS)
  else
    '(w, status) ← indicate u SWITCH_MESSAGE_INDICATE_PROGRESS l w;
    conclude u (fun w => '(w, _) ← switch_channel_perform_mark_pre_answered u w; invoke_ u AudioSync w) status w.

Definition switch_channel_perform_ring_ready_value (u : bytes) (rv : switch_ring_ready) (w : world)
  : option (world * switch_status) :=
  l ← legs w !! u;
  if hung (chan l) then Some (w, SWITCH_STATUS_FALSE)
  else if flag_set (chan l) CF_ANSWERED then Some (w, SWITCH_STATUS_SUCCESS)
  else if flag_set (chan l) CF_EARLY_MEDIA then Some (w, SWITCH_STATUS_SUCCESS)
  else
    '(w, status) ← indicate u (SWITCH_MESSAGE_INDICATE_RINGING (ring_value rv)) l w;
    conclude u (fun w => fst <$> switch_channel_perform_mark_ring_ready_value u rv w) status w.

(** A session that answers from its own thread may be asked to wait. *)
Definition answer_delay (u : bytes) (w : world) : option world :=
  l ← legs w !! u;
  if own_thread l then
    match leg_variable l (str "answer_delay") with
    | Some delay => let msec := atol delay in if msec =? 0 then Some w else invoke_ u (Sleep msec) w
    | None => Some w
    end
  else Some w.

Definition switch_channel_perform_answer (u : bytes) (w : world) : option (world * switch_status) :=
  l ← legs w !! u;
  if bool_decide (direction (chan l) = SWITCH_CALL_DIRECTION_OUTBOUND) then Some (w, SWITCH_STATUS_SUCCESS)
  else if hung (chan l) then Some (w, SWITCH_STATUS_FALSE)
  else if flag_set (chan l) CF_ANSWERED then Some (w, SWITCH_STATUS_SUCCESS)
  else
    '(w, status) ← send_ind u SWITCH_MESSAGE_INDICATE_ANSWER w;
    '(w, status) ← conclude u (fun w =>
        '(w, _) ← switch_channel_perform_mark_answered u w;
        early ← test w u CF_EARLY_MEDIA;
        if early : bool then Some w else invoke_ u AudioSync w) status w;
    w ← answer_delay u w;
    Some (w, status).

End operations.

(** ** What the operations of a channel keep

    [quiet]: the number of flags, the mark of an answered call, the same mark
    among the flags raised for the next state, and a state of CS_HANGUP or later
    with its cause. *)

Definition pending (c : channel) : option Z := state_flags c !! cf CF_ANSWERED.

Record quiet (c c' : channel) : Prop := Quiet {
  quiet_length : length (flags c') = length (flags c);
  quiet_answered : flag_set c' CF_ANSWERED = flag_set c CF_ANSWERED;
  quiet_pending : pending c' = pending c;
  quiet_down : cs CS_HANGUP <= cs (state c) -> cs (state c) <= cs (state c') /\ hangup_cause c' = hangup_cause c
}.

#[export] Instance quiet_preorder : PreOrder quiet.
Proof.
  split.
  - intros c. split; [done..|lia].
  - intros c1 c2 c3 [L1 A1 P1 D1] [L2 A2 P2 D2]. split; [congruence..|]. intros H. destruct (D1 H) as [H1 H2].
    destruct D2 as [H3 H4]; [lia|]. split; [lia|congruence].
Qed.

Lemma quiet_flags c c' f v : f <> CF_ANSWERED -> chan_step c c' -> flags c' = <[cf f := v]> (flags c) ->
  state_flags c' = state_flags c -> quiet c c'.
Proof.
  intros Hf Hstep%chan_step_teardown Hfl Hsf. split; [by rewrite Hfl, length_insert| |unfold pending; by rewrite Hsf|apply Hstep].
  unfold flag_set, switch_channel_test_flag. rewrite Hfl, list_lookup_insert_ne; [done|]. by intros ?%cf_inj.
Qed.

Lemma quiet_same c c' : chan_step c c' -> flags c' = flags c -> state_flags c' = state_flags c -> quiet c c'.
Proof.
  intros Hstep%chan_step_teardown Hfl Hsf. split; [by rewrite Hfl| |unfold pending; by rewrite Hsf|apply Hstep].
  unfold flag_set, switch_channel_test_flag. by rewrite Hfl.
Qed.

(** The flags now and those raised for the next state. *)
Definition arrays (c : channel) : list Z * list Z := (flags c, state_flags c).

Lemma callstate_arrays s c : arrays (switch_channel_perform_set_callstate s c) = arrays c.
Proof. unfold arrays. destruct (set_callstate_fields s c) as (-> & -> & _). done. Qed.

Lemma outbound_variables_arrays f v c : arrays (outbound_variables f v c) = arrays c.
Proof. unfold outbound_variables. by repeat case_bool_decide. Qed.

Lemma begin_hold_arrays env c c' : begin_hold env c = Some c' -> arrays c' = arrays c.
Proof. unfold begin_hold. intros (t & _ & [= <-])%bind_Some. apply callstate_arrays. Qed.

Lemma end_hold_arrays env c c' : end_hold env c = Some c' -> arrays c' = arrays c.
Proof.
  unfold end_hold. intros (t & _ & [= <-])%bind_Some.
  match goal with |- arrays (if _ then switch_channel_perform_set_callstate _ ?d else _) = _ => trans (arrays d) end.
  - case_match; [apply callstate_arrays|done].
  - repeat case_match; unfold arrays; cbn; apply callstate_arrays.
Qed.

Lemma set_flag_arrays env f v c c' : switch_channel_set_flag_value env f v c = Some c' ->
  arrays c' = (<[cf f := v]> (flags c), state_flags c).
Proof.
  unfold switch_channel_set_flag_value. intros (d & Hd & [= <-])%bind_Some. rewrite outbound_variables_arrays.
  match type of Hd with (if _ then begin_hold _ ?e else _) = _ => trans (arrays e) end.
  - case_match; [by eapply begin_hold_arrays|by simplify_eq].
  - repeat case_match; unfold arrays; cbn; rewrite ?(proj1 (set_callstate_fields _ _)),
      ?(proj1 (proj2 (set_callstate_fields _ _))); done.
Qed.

Lemma clear_flag_arrays env f c c' : switch_channel_clear_flag env f c = Some c' ->
  arrays c' = (<[cf f := 0]> (flags c), state_flags c).
Proof.
  unfold switch_channel_clear_flag. intros (d & Hd & [= <-])%bind_Some. rewrite outbound_variables_arrays.
  trans (arrays d); [destruct (_ && up_nosig d); [apply callstate_arrays|done]|].
  match type of Hd with (if _ then end_hold _ ?e else _) = _ => trans (arrays e) end.
  - case_match; [by eapply end_hold_arrays|by simplify_eq].
  - by repeat case_match.
Qed.

Lemma set_flag_flags env f v c c' : switch_channel_set_flag_value env f v c = Some c' -> flags c' = <[cf f := v]> (flags c).
Proof. by intros [= -> _]%set_flag_arrays. Qed.

Lemma set_flag_quiet env f v c c' : switch_channel_set_flag_value env f v c = Some c' -> f <> CF_ANSWERED -> quiet c c'.
Proof.
  intros Hc Hf. pose proof (set_flag_arrays _ _ _ _ _ Hc) as [= Ha Hs].
  eapply (quiet_flags _ _ f v); [done|by eapply step_set_flag|done..].
Qed.

Lemma clear_flag_quiet env f c c' : switch_channel_clear_flag env f c = Some c' -> f <> CF_ANSWERED -> quiet c c'.
Proof.
  intros Hc Hf. pose proof (clear_flag_arrays _ _ _ _ Hc) as [= Ha Hs].
  eapply (quiet_flags _ _ f 0); [done|by eapply step_clear_flag|done..].
Qed.

Lemma variable_quiet name v c : quiet c (set_variable name v c).
Proof. by apply quiet_same; [apply step_variable|..]. Qed.

Lemma callstate_quiet s c : quiet c (switch_channel_perform_set_callstate s c).
Proof. apply quiet_same; [apply step_callstate|apply set_callstate_fields..]. Qed.

Lemma emit_quiet e c : quiet c (emit e c).
Proof. split; [done..|cbn; lia]. Qed.

Lemma mark_hold_quiet env on c c' : switch_channel_mark_hold env on c = Some c' -> quiet c c'.
Proof.
  unfold switch_channel_mark_hold. intros (d & Hd & [= <-])%bind_Some.
  transitivity d; [|destruct (on && _ && _); [apply emit_quiet|reflexivity]].
  destruct (eqb _ _); [by simplify_eq|]. apply bind_Some in Hd as (e & He & [= <-]).
  transitivity e; [|apply emit_quiet]. destruct on; [by eapply set_flag_quiet|by eapply clear_flag_quiet].
Qed.

Lemma hangup_now_arrays env cause c : arrays (hangup_now env cause c) = arrays c.
Proof. unfold hangup_now. repeat case_match; done. Qed.

Lemma hangup_quiet env cause c c' : switch_channel_perform_hangup env cause c = Some c' -> quiet c c'.
Proof.
  intros Hh. assert (exists d, quiet c d /\ arrays c' = arrays d) as (d & [L A P _] & [= Hf Hs]).
  - unfold switch_channel_perform_hangup in Hh. apply bind_Some in Hh as (d & Hd & Hc).
    assert (quiet c d) as Q.
    { match type of Hd with (if _ then _ else Some ?e) = _ => transitivity e end; [destruct (Z.land _ _ =? 0); [split; [reflexivity..|cbn; lia]|reflexivity]|].
      destruct (flag_set _ CF_LEG_HOLDING); [|by simplify_eq]. apply bind_Some in Hd as (x & Hx%mark_hold_quiet & Hd).
      transitivity x; [done|by eapply set_flag_quiet]. }
    destruct (negb _); [exists d; by simplify_eq|]. apply bind_Some in Hc as (e & He & [= <-]).
    exists e. split; [transitivity d; [done|by eapply clear_flag_quiet]|]. destruct (cs (state e) <? _); [apply hangup_now_arrays|done].
  - split; [by rewrite Hf| |by unfold pending in *; rewrite Hs|by eapply perform_hangup_teardown].
    rewrite <-A. unfold flag_set, switch_channel_test_flag. by rewrite Hf.
Qed.

(** ** What other code may do to a channel

    Its operations, all of them, but none is asked to set or clear CF_ANSWERED. *)
Inductive foreign_step : channel -> channel -> Prop :=
| foreign_set_state st c c' : switch_channel_perform_set_state st c = Some c' -> foreign_step c c'
| foreign_running_state env st c c' : switch_channel_perform_set_running_state env st c = Some c' -> foreign_step c c'
| foreign_callstate cst c : foreign_step c (switch_channel_perform_set_callstate cst c)
| foreign_set_flag env f v c c' : f <> CF_ANSWERED -> switch_channel_set_flag_value env f v c = Some c' -> foreign_step c c'
| foreign_clear_flag env f c c' : f <> CF_ANSWERED -> switch_channel_clear_flag env f c = Some c' -> foreign_step c c'
| foreign_set_recursive f c : f <> CF_ANSWERED -> foreign_step c (switch_channel_set_flag_recursive f c)
| foreign_clear_recursive f c : f <> CF_ANSWERED -> foreign_step c (switch_channel_clear_flag_recursive f c)
| foreign_set_state_flag f c : f <> CF_ANSWERED -> foreign_step c (switch_channel_set_state_flag f c)
| foreign_clear_state_flag f c : f <> CF_ANSWERED -> foreign_step c (switch_channel_clear_state_flag f c)
| foreign_hold env on c c' : switch_channel_mark_hold env on c = Some c' -> foreign_step c c'
| foreign_hangup env cause c c' : switch_channel_perform_hangup env cause c = Some c' -> foreign_step c c'
| foreign_add_handler h c : foreign_step c (switch_channel_add_state_handler h c).1
| foreign_clear_handler h c c' : switch_channel_clear_state_handler h c = Some c' -> foreign_step c c'
| foreign_variable name v c : foreign_step c (set_variable name v c).

Lemma foreign_chan_step c c' : foreign_step c c' -> chan_step c c'.
Proof.
  destruct 1; [by eapply step_set_state|by eapply step_running_state|apply step_callstate|by eapply step_set_flag
    |by eapply step_clear_flag|apply step_set_recursive|apply step_clear_recursive|apply step_set_state_flag
    |apply step_clear_state_flag|by eapply step_hold|by eapply step_hangup|apply step_add_handler|by eapply step_clear_handler
    |apply step_variable].
Qed.

Lemma set_state_arrays st c c' : switch_channel_perform_set_state st c = Some c' -> arrays c' = arrays c.
Proof. unfold switch_channel_perform_set_state. intros H. repeat case_match; simplify_eq; done. Qed.

Lemma clear_handler_arrays h c c' : switch_channel_clear_state_handler h c = Some c' -> arrays c' = arrays c.
Proof. by intros (new & _ & [= <-])%bind_Some. Qed.

(** Flags raised for the next state do not mark a call as answered when that one is not raised. *)
Lemma promote_quiet c : pending c = Some 0 -> quiet c (promote_state_flags c).
Proof.
  intros Hp. unfold promote_state_flags. unfold pending in Hp. change (cf CF_ANSWERED) with 1%nat in Hp.
  destruct (flags c) as [|f0 fl] eqn:Hfl; [reflexivity|]. destruct (state_flags c) as [|s0 sf] eqn:Hsf; [done|].
  destruct (s0 =? 0); [reflexivity|]. destruct sf as [|s1 sf]; [done|]. injection Hp as ->.
  assert (forall l m, length (promote l m).1 = length l) as Hlen.
  { induction l as [|x l IH]; intros [|y m]; [done..|]. cbn. specialize (IH m). destruct (promote l m). by destruct (y =? 0); cbn; rewrite <-IH. }
  assert (exists fl' sf', promote fl (0 :: sf) = (fl', 0 :: sf') /\ head fl' = head fl /\ length fl' = length fl)
    as (fl' & sf' & -> & Hh & Hl).
  { pose proof (Hlen fl (0 :: sf)) as Hl. destruct fl as [|f1 fl]; [by eexists _, _|]. cbn in *. destruct (promote fl sf) as [a b].
    by eexists _, _. }
  split; [cbn; rewrite Hfl; cbn; by rewrite Hl| |unfold pending; cbn; by rewrite Hsf|cbn; lia].
  unfold flag_set, switch_channel_test_flag. cbn [flags with_state_flags with_flags]. rewrite Hfl.
  change (cf CF_ANSWERED) with 1%nat. cbn. by destruct fl', fl; simplify_eq/=.
Qed.

Lemma running_state_quiet env st c c' :
  switch_channel_perform_set_running_state env st c = Some c' -> pending c = Some 0 -> quiet c c'.
Proof.
  intros H Hp. transitivity (promote_state_flags c); [by apply promote_quiet|].
  unfold switch_channel_perform_set_running_state in H. apply bind_Some in H as (d & Hd & H).
  transitivity d; [by eapply clear_flag_quiet|]. transitivity (with_running_state st d); [split; [done..|cbn; lia]|].
  destruct (cs st <=? cs CS_DESTROY); injection H as <-; [|reflexivity].
  etransitivity; [|apply emit_quiet]. repeat case_match; try reflexivity; apply callstate_quiet.
Qed.

Lemma recursive_quiet f c : f <> CF_ANSWERED ->
  quiet c (switch_channel_set_flag_recursive f c) /\ quiet c (switch_channel_clear_flag_recursive f c).
Proof.
  intros Hf. split.
  - eapply (quiet_flags _ _ f); [done|apply step_set_recursive|unfold switch_channel_set_flag_recursive..].
    + pose proof (outbound_variables_arrays f (Some (str "true")) (put_flag f (u32 (switch_channel_test_flag c f + 1)) c)) as [= -> _]. done.
    + pose proof (outbound_variables_arrays f (Some (str "true")) (put_flag f (u32 (switch_channel_test_flag c f + 1)) c)) as [= _ ->]. done.
  - destruct (flag_set c f) eqn:Hc.
    + eapply (quiet_flags _ _ f (switch_channel_test_flag c f - 1)); [done|apply step_clear_recursive|unfold switch_channel_clear_flag_recursive..];
        rewrite Hc; by case_bool_decide.
    + apply quiet_same; [apply step_clear_recursive|unfold switch_channel_clear_flag_recursive..]; rewrite Hc; by case_bool_decide.
Qed.

Lemma state_flag_quiet f c : f <> CF_ANSWERED ->
  quiet c (switch_channel_set_state_flag f c) /\ quiet c (switch_channel_clear_state_flag f c).
Proof.
  intros Hf. split; (split; [done..| |cbn; lia]); unfold pending; cbn [state_flags switch_channel_set_state_flag switch_channel_clear_state_flag with_state_flags].
  - rewrite list_lookup_insert_ne by (by intros ?%cf_inj). rewrite list_lookup_insert_ne; [done|]. by vm_compute.
  - rewrite list_lookup_insert_ne by (by intros ?%cf_inj). done.
Qed.

Lemma foreign_quiet c c' : foreign_step c c' -> pending c = Some 0 -> quiet c c'.
Proof.
  intros Hstep Hp. pose proof (foreign_chan_step c c' Hstep) as Hch. destruct Hstep;
    try (by apply recursive_quiet || by apply state_flag_quiet || apply callstate_quiet || apply variable_quiet).
  - apply set_state_arrays in H as [= ? ?]. by apply quiet_same.
  - by eapply running_state_quiet.
  - by eapply set_flag_quiet.
  - by eapply clear_flag_quiet.
  - by eapply mark_hold_quiet.
  - by eapply hangup_quiet.
  - apply quiet_same; [done|..]; unfold switch_channel_add_state_handler; by repeat case_match.
  - apply clear_handler_arrays in H as [= ? ?]. by apply quiet_same.
Qed.

(** ** The protocol of announcements

    A listener that follows the announcements of a leg: nothing comes after
    the answer. *)

Definition announce (b : bool) (a : action) : option bool :=
  match a with
  | Fire e => if b then None else Some (bool_decide (e = CHANNEL_ANSWER))
  | _ => Some b
  end.

Fixpoint listen (b : bool) (es : list action) : option bool :=
  match es with
  | [] => Some b
  | a :: es => b ← announce b a; listen b es
  end.

Lemma listen_app es1 es2 b : listen b (es1 ++ es2) = m ← listen b es1; listen m es2.
Proof. revert b. induction es1 as [|a es1 IH]; intros b; [done|]. simpl. destruct (announce b a); simpl; [apply IH|done]. Qed.

Definition up (l : leg) : bool := flag_set (chan l) CF_ANSWERED.
(** Both arrays have a place for CF_ANSWERED, and it is not raised for the next state. *)
Definition leg_wf (l : leg) : Prop := length (flags (chan l)) = CF_FLAG_MAX /\ pending (chan l) = Some 0.

(** What a leg has done between two points in time: the listener that knew
    whether it was answered knows it still, and a leg that is down stays down
    and is not answered any more. *)
Record evolves (l l' : leg) : Prop := Evolves {
  ev_wf : leg_wf l';
  ev_log : exists es, actions l' = actions l ++ es /\ listen (up l) es = Some (up l');
  ev_down : cs CS_HANGUP <= cs (state (chan l)) ->
    cs (state (chan l)) <= cs (state (chan l')) /\ hangup_cause (chan l') = hangup_cause (chan l) /\ up l' = up l
}.

(** Every session evolves; [still]: without any action or answer. *)
Definition keeps (w w' : world) : Prop :=
  forall u l, legs w !! u = Some l -> leg_wf l -> exists l', legs w' !! u = Some l' /\ evolves l l'.
Definition still (w w' : world) : Prop :=
  forall u l, legs w !! u = Some l -> exists l', legs w' !! u = Some l' /\ actions l' = actions l /\ quiet (chan l) (chan l').

Lemma quiet_evolves l l' : leg_wf l -> actions l' = actions l -> quiet (chan l) (chan l') -> evolves l l'.
Proof.
  intros [Hl Hp] Ha [L A P D]. split; [split; congruence| |].
  - exists []. rewrite app_nil_r. split; [done|]. simpl. unfold up. by rewrite A.
  - intros H. destruct (D H). by split_and!.
Qed.

Lemma still_keeps w w' : still w w' -> keeps w w'.
Proof. intros H u l Hl Hwf. destruct (H u l Hl) as (l' & Hl' & Ha & Q). exists l'. split; [done|]. by apply quiet_evolves. Qed.

#[export] Instance still_preorder : PreOrder still.
Proof.
  split.
  - intros w u l Hl. exists l. by split_and!.
  - intros w1 w2 w3 H1 H2 u l Hl. destruct (H1 u l Hl) as (l2 & Hl2 & A2 & Q2). destruct (H2 u l2 Hl2) as (l3 & Hl3 & A3 & Q3).
    exists l3. split_and!; [done|congruence|by transitivity (chan l2)].
Qed.

#[export] Instance keeps_preorder : PreOrder keeps.
Proof.
  split.
  - intros w. apply still_keeps. reflexivity.
  - intros w1 w2 w3 H1 H2 u l Hl Hwf. destruct (H1 u l Hl Hwf) as (l2 & Hl2 & [W2 (e2 & A2 & R2) D2]).
    destruct (H2 u l2 Hl2 W2) as (l3 & Hl3 & [W3 (e3 & A3 & R3) D3]). exists l3. split; [done|]. split; [done| |].
    + exists (e2 ++ e3). rewrite A3, A2, <-app_assoc, listen_app, R2. by split.
    + intros H. destruct (D2 H) as (? & ? & ?). destruct D3 as (? & ? & ?); [lia|]. split_and!; [lia|congruence..].
Qed.

Lemma still_update u f w : (forall l, actions (f l) = actions l /\ quiet (chan l) (chan (f l))) -> still w (update u f w).
Proof.
  intros Hf v l Hl. unfold update. cbn [legs set_legs]. destruct (decide (u = v)) as [->|Hne].
  - exists (f l). rewrite lookup_alter_eq, Hl. destruct (Hf l). by split_and!.
  - exists l. rewrite lookup_alter_ne by done. split_and!; done.
Qed.

Lemma still_on_chan u f w w' : on_chan u f w = Some w' -> (forall env c c', f env c = Some c' -> quiet c c') -> still w w'.
Proof.
  intros (l & Hl & (c & Hc & [= <-])%bind_Some)%bind_Some Hf v x Hx. unfold update. cbn [legs set_legs].
  destruct (decide (u = v)) as [->|Hne].
  - exists (set_chan c x). rewrite lookup_alter_eq, Hx. simplify_eq. split_and!; [done..|]. cbn. by eapply Hf.
  - exists x. rewrite lookup_alter_ne by done. split_and!; done.
Qed.

Lemma set_flag_still u f w w' : set_flag u f w = Some w' -> f <> CF_ANSWERED -> still w w'.
Proof. intros H Hf. eapply still_on_chan; [exact H|]. intros env c c' Hc. exact (set_flag_quiet env f 1 c c' Hc Hf). Qed.

Lemma clear_flag_still u f w w' : clear_flag u f w = Some w' -> f <> CF_ANSWERED -> still w w'.
Proof. intros H Hf. eapply still_on_chan; [exact H|]. intros env c c' Hc. exact (clear_flag_quiet env f c c' Hc Hf). Qed.

Lemma set_var_still u name v w w' : set_var u name v w = Some w' -> still w w'.
Proof. intros H. eapply still_on_chan; [exact H|]. intros env c c' [= <-]. apply variable_quiet. Qed.

Lemma set_callstate_still u s w w' : set_callstate u s w = Some w' -> still w w'.
Proof. intros H. eapply still_on_chan; [exact H|]. intros env c c' [= <-]. apply callstate_quiet. Qed.

Lemma hangup_still u cause w w' : hangup u cause w = Some w' -> still w w'.
Proof. intros H. eapply still_on_chan; [exact H|]. intros env c c' Hc. exact (hangup_quiet env cause c c' Hc). Qed.

Create HintDb still.
#[local] Hint Resolve still_keeps set_flag_still clear_flag_still set_var_still set_callstate_still hangup_still : still.
#[local] Hint Extern 1 (_ <> CF_ANSWERED) => discriminate : still.

(** [unbind] opens the steps of an operation; [follow] composes what they keep. *)
Ltac unbind :=
  repeat match goal with
  | H : Some _ = Some _ |- _ => injection H as H; try subst
  | H : (_, _) = (_, _) |- _ => injection H as H; try subst
  | H : mbind _ ?x = Some _ |- _ => apply bind_Some in H as (? & ? & ?)
  | H : fmap _ ?x = Some _ |- _ => apply fmap_Some in H as (? & ? & ?)
  | H : (let '(_, _) := ?p in _) = Some _ |- _ => is_var p; destruct p; cbn [fst snd] in *
  end.

Ltac follow :=
  repeat match goal with
  | H : ?f ?w = Some ?w' |- still ?w _ => first [is_var w'|fail 1]; transitivity w'; [solve [eauto with still]|clear H]
  | H : ?f ?w = Some ?w' |- keeps ?w _ => first [is_var w'|fail 1]; transitivity w'; [solve [eauto with still]|clear H]
  | H : ?f ?w = Some (?w', _) |- keeps ?w _ => first [is_var w'|fail 1]; transitivity w'; [solve [eauto with still]|clear H]
  end; try reflexivity.

Lemma zrtp_disable_still u w w' : zrtp_disable u w = Some w' -> still w w'.
Proof. unfold zrtp_disable. intros H. unbind. follow; eauto with still. Qed.

Lemma zrtp_enable_still u v w w' : zrtp_enable u v w = Some w' -> still w w'.
Proof. unfold zrtp_enable. intros H. unbind. follow; eauto with still. Qed.

#[local] Hint Resolve zrtp_disable_still zrtp_enable_still : still.

Lemma zrtp_disable_both_still u w w' : zrtp_disable_both u w = Some w' -> still w w'.
Proof.
  unfold zrtp_disable_both. intros H. unbind. follow. destruct (switch_core_session_perform_get_partner _ _) as [[v l]|];
    unbind; follow; eauto with still.
Qed.
#[local] Hint Resolve zrtp_disable_both_still : still.

Lemma check_zrtp_still u w w' : switch_channel_check_zrtp u w = Some w' -> still w w'.
Proof. unfold switch_channel_check_zrtp. intros H. unbind. repeat case_match; unbind; follow; eauto with still. Qed.
#[local] Hint Resolve check_zrtp_still : still.

Lemma stamp_still st sc u w w' :
  (forall t l, actions (st t l) = actions l /\ chan (st t l) = chan l) -> stamp st sc u w = Some w' -> still w w'.
Proof.
  intros Hst (l & Hl & H)%bind_Some. destruct (times (chan l)); [|by simplify_eq].
  assert (forall v t w, still w (update v (st t) w)) as Hs.
  { intros v k x. apply still_update. intros y. by destruct (Hst k y) as [-> ->]. }
  cbv zeta in H. destruct (originator l) as [o|]; injection H as <-; [|apply Hs].
  etransitivity; [apply (Hs u (clock w))|]. etransitivity; [|apply still_update; done].
  repeat case_match; try reflexivity; apply Hs.
Qed.

Lemma stamp_progress_still u w w' : stamp_progress u w = Some w' -> still w w'.
Proof. by apply stamp_still. Qed.
Lemma stamp_media_still u w w' : stamp_progress_media u w = Some w' -> still w w'.
Proof. by apply stamp_still. Qed.

Lemma ptime_mismatch_still u w w' : ptime_mismatch u w = Some w' -> still w w'.
Proof. unfold ptime_mismatch. intros H. unbind. case_match; unbind; eauto with still; reflexivity. Qed.
#[local] Hint Resolve stamp_progress_still stamp_media_still ptime_mismatch_still : still.

(** The two places where something is announced. *)
Lemma still_up u w w' : still w w' -> test w u CF_ANSWERED = Some false ->
  forall l, legs w' !! u = Some l -> up l = false.
Proof.
  intros Hs (x & Hx & [= Hf])%bind_Some l Hl. destruct (Hs u x Hx) as (y & Hy & _ & [_ A _ _]). simplify_eq.
  unfold up. by rewrite A.
Qed.

Lemma keeps_fire u e w w' : still w w' -> test w u CF_ANSWERED = Some false -> e <> CHANNEL_ANSWER ->
  keeps w (fire u e w').
Proof.
  intros Hs Ht He. transitivity w'; [by apply still_keeps|]. intros v l Hl Hwf. unfold fire, update. cbn [legs set_legs].
  destruct (decide (u = v)) as [->|Hne].
  - exists (record (Fire e) l). rewrite lookup_alter_eq, Hl. split; [done|]. split; [done| |by cbn].
    exists [Fire e]. split; [done|]. pose proof (still_up v w w' Hs Ht l Hl) as Hup. simpl. rewrite Hup. simpl.
    rewrite bool_decide_eq_false_2 by done. unfold up in *. cbn. by rewrite Hup.
  - exists l. rewrite lookup_alter_ne by done. split; [done|]. by apply quiet_evolves.
Qed.

Lemma flag_set_answered c : length (flags c) = CF_FLAG_MAX -> forall c', flags c' = <[cf CF_ANSWERED := 1]> (flags c) ->
  flag_set c' CF_ANSWERED = true.
Proof.
  intros Hl c' Hf. unfold flag_set, switch_channel_test_flag. rewrite Hf, list_lookup_insert_eq; [done|].
  rewrite Hl. apply cf_bounds.
Qed.

Lemma keeps_answer u w w1 w2 l : still w w1 -> legs w !! u = Some l -> up l = false -> hung (chan l) = false ->
  set_flag u CF_ANSWERED w1 = Some w2 -> keeps w (fire u CHANNEL_ANSWER w2).
Proof.
  intros Hs Hl Hup [_ Hh%Z.leb_gt]%orb_false_iff Hset v k Hk Hwf. destruct (Hs v k Hk) as (k1 & Hk1 & Ha1 & Q1).
  apply bind_Some in Hset as (x & Hx & (c & Hc & [= <-])%bind_Some).
  unfold fire, update. cbn [legs set_legs]. destruct (decide (u = v)) as [->|Hne].
  - simplify_eq. exists (record (Fire CHANNEL_ANSWER) (set_chan c x)).
    rewrite !lookup_alter_eq, Hx. split; [done|]. unfold switch_channel_set_flag in Hc.
    pose proof (set_flag_arrays _ _ _ _ _ Hc) as [= Hfl Hsf]. destruct Q1 as [L A P D], Hwf as [W1 W2]. split.
    + split; [cbn; rewrite Hfl, length_insert; congruence|]. unfold pending in *. cbn [chan record set_chan]. congruence.
    + exists [Fire CHANNEL_ANSWER]. cbn. rewrite Ha1. split; [done|]. rewrite Hup.
      simpl. unfold up. cbn. f_equal. symmetry. apply (flag_set_answered (chan x)); [by rewrite L|done].
    + intros Hd. exfalso. lia.
  - exists k1. rewrite !lookup_alter_ne by done. split; [done|]. by apply quiet_evolves.
Qed.

(** ** The operations keep the protocol *)

(** What applications, endpoints and the rest of the system do, one step at a
    time: they change a channel with its operations ([foreign_step]), other
    fields of a session and the world around, create sessions, ask for things,
    and use the operations of this file.  Of these, the steps that announce
    something are spelled out, each with the conditions under which the code
    comes to it; the operations as a whole are sequences of such steps
    ([perform_serves]).  In the source, CF_ANSWERED is set in
    switch_channel_perform_mark_answered and cleared nowhere, and the three
    events are created in the three operations. *)
Inductive service_step : world -> world -> Prop :=
| serve_channel u l c' w : legs w !! u = Some l -> foreign_step (chan l) c' -> service_step w (update u (set_chan c') w)
| serve_session u f w : (forall l, chan (f l) = chan l /\ actions (f l) = actions l) -> service_step w (update u f w)
| serve_new u l w : legs w !! u = None -> service_step w (set_legs (<[u := l]> (legs w)) w)
| serve_world w w' : legs w' = legs w -> service_step w w'
| serve_request u a w : (forall e, a <> Fire e) -> service_step w (update u (record a) w)
| serve_ring u rv w w1 w2 : test w u CF_RING_READY = Some false -> test w u CF_ANSWERED = Some false ->
    on_chan u (fun env => switch_channel_set_flag_value env CF_RING_READY (ring_value rv)) w = Some w1 ->
    stamp_progress u w1 = Some w2 -> service_step w (fire u CHANNEL_PROGRESS w2)
| serve_media u w w1 w2 w3 w4 : test w u CF_EARLY_MEDIA = Some false -> test w u CF_ANSWERED = Some false ->
    switch_channel_check_zrtp u w = Some w1 -> set_flag u CF_EARLY_MEDIA w1 = Some w2 ->
    set_var u (str "endpoint_disposition") (str "EARLY MEDIA") w2 = Some w3 -> stamp_progress_media u w3 = Some w4 ->
    service_step w (fire u CHANNEL_PROGRESS_MEDIA w4)
| serve_answer u l w w' : legs w !! u = Some l -> hung (chan l) = false -> up l = false -> become_answered u w = Some w' ->
    service_step w w'.

Abbreviation serves := (rtc service_step).

(** The law of the services: what a call does is a sequence of such steps. *)
Class ServiceLaws `{SV : Services} : Prop := {
  services_steps u a w w' st : external u a w = Some (w', st) -> serves w w'
}.

(** A recorded action is not an announcement. *)
Lemma record_keeps u a w : (forall e, a <> Fire e) -> keeps w (update u (record a) w).
Proof.
  intros Ha v l Hl Hwf. unfold update. cbn [legs set_legs]. destruct (decide (u = v)) as [->|Hne].
  - exists (record a l). rewrite lookup_alter_eq, Hl. split; [done|]. split; [done| |by cbn].
    exists [a]. split; [done|]. destruct a; try done. by destruct (Ha e).
  - exists l. rewrite lookup_alter_ne by done. split; [done|]. by apply quiet_evolves.
Qed.

Lemma become_answered_keeps u w w' l :
  legs w !! u = Some l -> up l = false -> hung (chan l) = false -> become_answered u w = Some w' -> keeps w w'.
Proof.
  intros Hl Hup Hh (x & Hx & (w1 & H1 & (w2 & H2 & [= <-])%bind_Some)%bind_Some)%bind_Some.
  eapply (keeps_answer _ _ _ _ l); [|done..|exact H2].
  etransitivity; [|by eapply check_zrtp_still]. case_match; [by apply still_update|reflexivity].
Qed.

Lemma service_step_keeps w w' : service_step w w' -> keeps w w'.
Proof.
  intros [u l c' x Hl Hf|u f x Hf|u l x Hl|x x' Hx|u a x Ha|u rv x w1 w2 T1 T2 H1 H2|u x w1 w2 w3 w4 T1 T2 H1 H2 H3 H4|u l x x' Hl Hh Hup Hx].
  - intros v k Hk Hwf. unfold update. cbn [legs set_legs]. destruct (decide (u = v)) as [->|Hne].
    + rewrite Hl in Hk. injection Hk as <-. exists (set_chan c' l). rewrite lookup_alter_eq, Hl. split; [done|]. apply quiet_evolves; [done..|].
      cbn. by apply foreign_quiet; [|apply Hwf].
    + exists k. rewrite lookup_alter_ne by done. split; [done|]. by apply quiet_evolves.
  - apply still_keeps, still_update. intros l. by destruct (Hf l) as [-> ->].
  - intros v k Hk Hwf. exists k. cbn. rewrite lookup_insert_ne by congruence. split; [done|]. by apply quiet_evolves.
  - intros v k Hk Hwf. exists k. rewrite Hx. split; [done|]. by apply quiet_evolves.
  - by apply record_keeps.
  - apply keeps_fire; [|done..]. transitivity w1; [|eauto with still]. eapply still_on_chan; [exact H1|].
    intros env c c' Hc. exact (set_flag_quiet _ CF_RING_READY _ _ _ Hc ltac:(done)).
  - apply keeps_fire; [|done..]. follow.
  - by eapply become_answered_keeps.
Qed.

Lemma serves_keeps w w' : serves w w' -> keeps w w'.
Proof. induction 1 as [|w1 w2 w3 H%service_step_keeps _ IH]; [reflexivity|by transitivity w2]. Qed.

(** *** Operations as sequences of steps *)

Lemma on_chan_serves u f w w' : on_chan u f w = Some w' -> (forall env c c', f env c = Some c' -> foreign_step c c') -> serves w w'.
Proof. intros (l & Hl & (c & Hc & [= <-])%bind_Some)%bind_Some Hf. apply rtc_once. eapply serve_channel; [exact Hl|by eapply Hf]. Qed.

Lemma set_flag_serves u f w w' : set_flag u f w = Some w' -> f <> CF_ANSWERED -> serves w w'.
Proof. intros H Hf. eapply on_chan_serves; [exact H|]. intros env c c' Hc. exact (foreign_set_flag env f 1 c c' Hf Hc). Qed.

Lemma set_var_serves u name v w w' : set_var u name v w = Some w' -> serves w w'.
Proof. intros H. eapply on_chan_serves; [exact H|]. intros env c c' [= <-]. apply foreign_variable. Qed.

Lemma set_callstate_serves u s w w' : set_callstate u s w = Some w' -> serves w w'.
Proof. intros H. eapply on_chan_serves; [exact H|]. intros env c c' [= <-]. apply foreign_callstate. Qed.

Lemma hangup_serves u cause w w' : hangup u cause w = Some w' -> serves w w'.
Proof. intros H. eapply on_chan_serves; [exact H|]. intros env c c' Hc. exact (foreign_hangup env cause c c' Hc). Qed.

Create HintDb serves.
#[local] Hint Resolve set_flag_serves set_var_serves set_callstate_serves hangup_serves : serves.
#[local] Hint Extern 1 (_ <> CF_ANSWERED) => discriminate : serves.
#[local] Hint Extern 1 (forall e, _ <> Fire e) => discriminate : serves.

(** [attend] composes the steps of an operation. *)
Ltac attend :=
  repeat match goal with
  | H : ?f ?w = Some ?w' |- serves ?w _ => first [is_var w'|fail 1]; transitivity w'; [solve [eauto with serves]|clear H]
  | H : ?f ?w = Some (?w', _) |- serves ?w _ => first [is_var w'|fail 1]; transitivity w'; [solve [eauto with serves]|clear H]
  end; try reflexivity.

Lemma ptime_mismatch_serves u w w' : ptime_mismatch u w = Some w' -> serves w w'.
Proof. unfold ptime_mismatch. intros H. unbind. case_match; unbind; eauto with serves; reflexivity. Qed.
#[local] Hint Resolve ptime_mismatch_serves : serves.

Section protocol.
Context `{SL : ServiceLaws}.

Lemma invoke_serves u a w w' st : invoke u a w = Some (w', st) -> (forall e, a <> Fire e) -> serves w w'.
Proof. intros H Ha. eapply rtc_l; [by apply (serve_request u a)|]. by eapply services_steps. Qed.

Lemma invoke__serves u a w w' : invoke_ u a w = Some w' -> (forall e, a <> Fire e) -> serves w w'.
Proof. unfold invoke_. intros ([x st] & H & ->)%fmap_Some Ha. by eapply invoke_serves. Qed.

#[local] Hint Resolve invoke_serves invoke__serves : serves.

Lemma each_serves f vs w w' : (forall v w w', f v w = Some w' -> serves w w') -> each f vs w = Some w' -> serves w w'.
Proof.
  intros Hf. revert w. induction vs as [|v vs IH]; intros w H; [by simplify_eq/=|]. simpl in H. unbind.
  etransitivity; [by eapply Hf|by apply IH].
Qed.

Lemma do_api_serves u v w w' : do_api_on u v w = Some w' -> serves w w'.
Proof. unfold do_api_on. intros H. unbind. repeat case_match; simplify_eq; eauto with serves. Qed.

Lemma do_execute_serves u v w w' : do_execute_on u v w = Some w' -> serves w w'.
Proof. unfold do_execute_on. intros H. unbind. repeat case_match. eauto with serves. Qed.

Lemma api_on_serves u p w w' : api_on u p w = Some w' -> serves w w'.
Proof.
  unfold api_on, switch_channel_api_on. intros H. unbind. subst. eapply each_serves; [|eassumption]. apply do_api_serves.
Qed.

Lemma execute_on_serves u p w w' : execute_on u p w = Some w' -> serves w w'.
Proof.
  unfold execute_on, switch_channel_execute_on. intros H. unbind. subst. eapply each_serves; [|eassumption]. apply do_execute_serves.
Qed.

Lemma send_ind_serves u m w w' st : send_ind u m w = Some (w', st) -> serves w w'.
Proof. unfold send_ind. eauto with serves. Qed.

Lemma break_originator_serves u w w' : break_originator u w = Some w' -> serves w w'.
Proof. unfold break_originator. intros H. unbind. repeat case_match; unbind; eauto with serves; reflexivity. Qed.

Lemma heartbeat_serves u w w' : heartbeat u w = Some w' -> serves w w'.
Proof. unfold heartbeat. intros H. unbind. repeat case_match; unbind; eauto with serves; reflexivity. Qed.

#[local] Hint Resolve api_on_serves execute_on_serves send_ind_serves break_originator_serves heartbeat_serves : serves.

Lemma mark_ring_ready_serves u rv w w' st :
  switch_channel_perform_mark_ring_ready_value u rv w = Some (w', st) -> serves w w'.
Proof.
  unfold switch_channel_perform_mark_ring_ready_value. intros (b1 & T1 & (b2 & T2 & H)%bind_Some)%bind_Some.
  destruct b1, b2; cbn [negb andb] in H; try by simplify_eq.
  apply bind_Some in H as (w1 & H1 & (w2 & H2 & H)%bind_Some).
  eapply rtc_l; [by eapply serve_ring|]. cbv zeta in H. unbind. attend.
Qed.

Lemma mark_pre_answered_serves u w w' st : switch_channel_perform_mark_pre_answered u w = Some (w', st) -> serves w w'.
Proof.
  unfold switch_channel_perform_mark_pre_answered. intros (b1 & T1 & (b2 & T2 & H)%bind_Some)%bind_Some.
  destruct b1, b2; cbn [negb andb] in H; try by simplify_eq.
  apply bind_Some in H as (w1 & H1 & (w2 & H2 & (w3 & H3 & (w4 & H4 & H)%bind_Some)%bind_Some)%bind_Some).
  eapply rtc_l; [by eapply serve_media|]. cbv zeta in H. unbind. attend.
Qed.

Lemma after_answer_serves u w w' : after_answer u w = Some w' -> serves w w'.
Proof.
  unfold after_answer. intros H. unbind. subst.
  match goal with H : (if ?b then _ else _) = Some _, p : world * switch_status |- _ => destruct b, p; unbind; attend end.
Qed.

Lemma mark_answered_serves u w w' st : switch_channel_perform_mark_answered u w = Some (w', st) -> serves w w'.
Proof.
  unfold switch_channel_perform_mark_answered. intros (l & Hl & H)%bind_Some.
  destruct (hung _) eqn:Hh; [by simplify_eq|]. destruct (flag_set (chan l) CF_ANSWERED) eqn:Hup; [by simplify_eq|].
  apply bind_Some in H as (w1 & H1 & H). eapply rtc_l; [by eapply (serve_answer u l)|].
  apply bind_Some in H as (w2 & H2%after_answer_serves & [= <- _]). done.
Qed.

#[local] Hint Resolve mark_ring_ready_serves mark_pre_answered_serves mark_answered_serves : serves.

Lemma conclude_serves u f st w w' st' : (forall w w', f w = Some w' -> serves w w') -> conclude u f st w = Some (w', st') ->
  serves w w'.
Proof. intros Hf H. unfold conclude in H. unbind. case_match; eauto with serves. Qed.

Lemma indicate_serves u m l w w' st : indicate u m l w = Some (w', st) -> serves w w'.
Proof. unfold indicate. intros H. case_match; unbind; eauto with serves; reflexivity. Qed.

Lemma answer_delay_serves u w w' : answer_delay u w = Some w' -> serves w w'.
Proof. unfold answer_delay. intros H. unbind. repeat case_match; unbind; eauto with serves; reflexivity. Qed.

#[local] Hint Resolve indicate_serves answer_delay_serves : serves.

Lemma pre_answer_serves u w w' st : switch_channel_perform_pre_answer u w = Some (w', st) -> serves w w'.
Proof.
  unfold switch_channel_perform_pre_answer. intros (l & Hl & H)%bind_Some. repeat (case_match; [by simplify_eq|]).
  unbind. attend. eapply conclude_serves; [|eassumption]. cbv beta. intros. unbind. attend.
Qed.

Lemma ring_ready_serves u rv w w' st : switch_channel_perform_ring_ready_value u rv w = Some (w', st) -> serves w w'.
Proof.
  unfold switch_channel_perform_ring_ready_value. intros (l & Hl & H)%bind_Some. repeat (case_match; [by simplify_eq|]).
  unbind. attend. eapply conclude_serves; [|eassumption]. intros ? ? ([? ?] & ? & ->)%fmap_Some. attend.
Qed.

Lemma answer_serves u w w' st : switch_channel_perform_answer u w = Some (w', st) -> serves w w'.
Proof.
  unfold switch_channel_perform_answer. intros (l & Hl & H)%bind_Some. repeat (case_match; [by simplify_eq|]).
  unbind. attend. etransitivity; [eapply conclude_serves; [|eassumption]|attend].
  cbv beta. intros. unbind. attend. case_match; unbind; attend.
Qed.

(** ** Histories *)

Inductive operation :=
| RingReady (rv : switch_ring_ready)
| MarkRingReady (rv : switch_ring_ready)
| PreAnswer
| MarkPreAnswered
| Answer
| MarkAnswered
| External (a : action).

Definition perform (u : bytes) (o : operation) (w : world) : option (world * switch_status) :=
  match o with
  | RingReady rv => switch_channel_perform_ring_ready_value u rv w
  | MarkRingReady rv => switch_channel_perform_mark_ring_ready_value u rv w
  | PreAnswer => switch_channel_perform_pre_answer u w
  | MarkPreAnswered => switch_channel_perform_mark_pre_answered u w
  | Answer => switch_channel_perform_answer u w
  | MarkAnswered => switch_channel_perform_mark_answered u w
  | External a => external u a w
  end.

Fixpoint history (os : list (bytes * operation)) (w : world) : option world :=
  match os with
  | [] => Some w
  | (u, o) :: os => '(w, _) ← perform u o w; history os w
  end.

Lemma perform_serves u o w w' st : perform u o w = Some (w', st) -> serves w w'.
Proof.
  destruct o; [apply ring_ready_serves|apply mark_ring_ready_serves|apply pre_answer_serves|apply mark_pre_answered_serves
              |apply answer_serves|apply mark_answered_serves|apply services_steps].
Qed.

Lemma history_serves os w w' : history os w = Some w' -> serves w w'.
Proof.
  revert w. induction os as [|[u o] os IH]; intros w H; [by simplify_eq/=|]. cbn [history] in H. unbind.
  etransitivity; [by eapply perform_serves|by apply IH].
Qed.

(** The events a leg has fired. *)
Definition fired (l : leg) : list announcement := omap (fun a => match a with Fire e => Some e | _ => None end) (actions l).

Lemma listen_fired es b b' : listen b es = Some b' ->
  let fs := omap (fun a => match a with Fire e => Some e | _ => None end) es in
  if b then b' = true /\ fs = []
  else exists pre, (CHANNEL_ANSWER ∉ pre) /\ fs = pre ++ (if b' then [CHANNEL_ANSWER] else []).
Proof.
  revert b. induction es as [|a es IH]; intros b H; cbn in H.
  { injection H as <-. destruct b; [done|]. exists []. split; [apply not_elem_of_nil|done]. }
  destruct (announce b a) as [m|] eqn:Ha; [|done]. cbn in H. specialize (IH m H). cbv zeta in *.
  destruct a as [e| | | | | | | | |]; cbn in Ha; try (injection Ha as <-; exact IH).
  destruct b; [done|]. injection Ha as <-. case_bool_decide as He.
  - subst e. destruct IH as [-> Hes]. exists []. split; [apply not_elem_of_nil|]. cbn. by rewrite Hes.
  - destruct IH as (pre & Hp & Hes). exists (e :: pre). split; [by apply not_elem_of_cons|]. cbn. by rewrite Hes.
Qed.

(** C5: a leg is announced as answered at most once, and nothing is announced
    after that.  For any sequence of ring, pre-answer and answer operations on
    any sessions, and whatever endpoints and applications do in between with
    the operations of a channel and with these operations: the events of a leg
    that started unanswered are CHANNEL_PROGRESS and CHANNEL_PROGRESS_MEDIA
    events, followed by exactly one CHANNEL_ANSWER if the flag CF_ANSWERED is
    set and by none if it is not.  Assumed of the code around, and true of the
    source: it does not set or clear CF_ANSWERED, nor raise it for the next
    state, nor create these events by itself (only
    switch_channel_perform_mark_answered sets that flag, and nothing clears it),
    and it does not free the session; a session that a recovery creates with
    the flag already set does not start unanswered. *)
Theorem answer_announced_once os w w' u l :
  history os w = Some w' -> legs w !! u = Some l -> leg_wf l -> actions l = [] -> flag_set (chan l) CF_ANSWERED = false ->
  exists l' pre, legs w' !! u = Some l' /\ (CHANNEL_ANSWER ∉ pre)
    /\ fired l' = pre ++ (if flag_set (chan l') CF_ANSWERED then [CHANNEL_ANSWER] else []).
Proof.
  intros Hk%history_serves%serves_keeps Hl Hwf Ha Hup. destruct (Hk u l Hl Hwf) as (l' & Hl' & [_ (es & Hes & Hlis) _]).
  rewrite Ha in Hes. unfold up in Hlis at 1. rewrite Hup in Hlis. apply listen_fired in Hlis as (pre & Hpre & Hf).
  exists l', pre. split_and!; [done..|]. unfold fired. by rewrite Hes.
Qed.

(** ** Refusal *)

(** A channel that is up, not being hung up and not holding. *)
Definition steady (c : channel) : Prop :=
  hung c = false /\ Z.land (opaque_flags c) OCF_HANGUP = 0 /\ flag_set c CF_LEG_HOLDING = false.

(** The flags of a channel but CF_BLOCK_STATE, which a hangup clears. *)
Definition same_marks (c c' : channel) : Prop := forall f, f <> CF_BLOCK_STATE -> flag_set c' f = flag_set c f.

Lemma hangup_steady env cause c : steady c ->
  exists c', switch_channel_perform_hangup env cause c = Some c' /\ state c' = CS_HANGUP /\ hangup_cause c' = cause
    /\ same_marks c c'.
Proof.
  intros (Hh & Ho & Hl). unfold switch_channel_perform_hangup. rewrite Ho. cbn [Z.eqb].
  change (flag_set (with_opaque_flags _ c) CF_LEG_HOLDING) with (flag_set c CF_LEG_HOLDING). rewrite Hl. cbn [mbind option_bind negb].
  destruct (clear_flag_total env CF_BLOCK_STATE (with_opaque_flags (Z.lor (opaque_flags c) OCF_HANGUP) c)) as [d Hd]; [done|].
  rewrite Hd. cbn [mbind option_bind]. pose proof (f_equal fst (clear_flag_arrays _ _ _ _ Hd)) as Hfl. cbn [fst arrays] in Hfl.
  apply clear_flag_calm in Hd as [Hs _ _ _]. cbn [with_opaque_flags state] in Hs.
  apply orb_false_iff in Hh as [_ Hh%Z.leb_gt]. rewrite Hs, (proj2 (Z.ltb_lt _ _)) by done.
  eexists. destruct (hangup_now_spec env cause d) as (es & ? & ? & _). split_and!; [done..|].
  intros f Hf. pose proof (f_equal fst (hangup_now_arrays env cause d)) as Hn. unfold arrays in Hn. cbn [fst] in Hn. unfold flag_set, switch_channel_test_flag.
  rewrite Hn, Hfl, list_lookup_insert_ne; [done|]. by intros ?%cf_inj.
Qed.

(** The leg [l] hung up as incompatible, otherwise as its endpoint left it. *)
Definition refused (u : bytes) (l : leg) (c : channel) (w' : world) : Prop :=
  legs w' !! u = Some (set_chan c l) /\ state c = CS_HANGUP /\ hangup_cause c = SWITCH_CAUSE_INCOMPATIBLE_DESTINATION
  /\ same_marks (chan l) c.

Lemma conclude_refused u st w l : legs w !! u = Some l -> steady (chan l) -> st <> SWITCH_STATUS_SUCCESS ->
  exists w' c, (forall f, conclude u f st w = Some (w', st)) /\ refused u l c w' /\ quiet (chan l) c.
Proof.
  intros Hl Hs Hst. destruct (hangup_steady (env_of w l) SWITCH_CAUSE_INCOMPATIBLE_DESTINATION _ Hs) as (c & Hc & H1 & H2 & H3).
  exists (update u (set_chan c) w), c. split; [intros f|split; [split_and!; [|done..]|by eapply hangup_quiet]].
  { unfold conclude, hangup, on_chan. rewrite bool_decide_eq_false_2 by done. rewrite Hl. cbn [mbind option_bind]. by rewrite Hc. }
  unfold update. cbn [legs set_legs]. by rewrite lookup_alter_eq, Hl.
Qed.

(** The world in which the endpoint receives the message. *)
Definition asked (u : bytes) (m : message) (w : world) : world := update u (record (ReceiveMessage m)) w.

(** Does an answered leg wait, in its own thread, because the variable answer_delay asks for it? *)
Definition waits (l : leg) : bool :=
  own_thread l && match leg_variable l (str "answer_delay") with Some delay => negb (atol delay =? 0) | None => false end.

Lemma no_delay u w l : legs w !! u = Some l -> waits l = false -> answer_delay u w = Some w.
Proof.
  intros Hl Hw. unfold answer_delay. rewrite Hl. cbn [mbind option_bind]. unfold waits in Hw. destruct (own_thread l); [|done].
  destruct (leg_variable l _) as [d|]; [|done]. cbv zeta. cbn in Hw. by destruct (atol d =? 0).
Qed.


(** A leg that was up and unanswered is answered when the operation returns:
    CF_ANSWERED is set first, and nothing clears it. *)
Lemma mark_answered_effect u w w' st l :
  legs w !! u = Some l -> leg_wf l -> hung (chan l) = false -> up l = false ->
  switch_channel_perform_mark_answered u w = Some (w', st) ->
  st = SWITCH_STATUS_SUCCESS /\ exists l', legs w' !! u = Some l' /\ up l' = true.
Proof.
  intros Hl Hwf Hh Hup H. pose proof H as H'. unfold switch_channel_perform_mark_answered in H. rewrite Hl in H.
  cbn [mbind option_bind] in H. unfold up in Hup. rewrite Hh, Hup in H. apply bind_Some in H as (w1 & H1 & H).
  assert (exists l1, legs w1 !! u = Some l1 /\ leg_wf l1 /\ up l1 = true) as (l1 & Hl1 & Hwf1 & Hup1).
  { destruct (become_answered_keeps u w w1 l Hl Hup Hh H1 u l Hl Hwf) as (l1 & Hl1 & [Hwf1 _ _]). exists l1. split_and!; [done..|].
    apply bind_Some in H1 as (x & Hx & (w2 & H2 & (w3 & H3 & [= <-])%bind_Some)%bind_Some).
    apply bind_Some in H3 as (y & Hy & (c & Hc & [= <-])%bind_Some). unfold fire, update in Hl1. cbn [legs set_legs] in Hl1.
    rewrite !lookup_alter_eq, Hy in Hl1. injection Hl1 as <-. unfold up. cbn.
    unfold switch_channel_set_flag in Hc. pose proof (set_flag_flags _ _ _ _ _ Hc) as Hfl. eapply (flag_set_answered (chan y)); [|done].
    destruct Hwf1 as [Hwf1 _]. cbn [chan record set_chan] in Hwf1. by rewrite Hfl, length_insert in Hwf1. }
  apply bind_Some in H as (w2 & Hk%after_answer_serves & [= <- <-]).
  apply serves_keeps in Hk. destruct (Hk u l1 Hl1 Hwf1) as (l' & Hl' & [_ (es & _ & Hlis) _]). rewrite Hup1 in Hlis.
  apply listen_fired in Hlis as [Hl'up _]. split; [done|by exists l'].
Qed.

End protocol.

(** ** ZRTP on both legs *)

Definition put (u : bytes) (l : leg) (w : world) : world := set_legs (<[u := l]> (legs w)) w.

Lemma on_chan_put u f w l c : legs w !! u = Some l -> f (env_of w l) (chan l) = Some c ->
  on_chan u f w = Some (put u (set_chan c l) w).
Proof.
  intros Hl Hf. unfold on_chan. rewrite Hl. cbn [mbind option_bind]. rewrite Hf. cbn [mbind option_bind]. do 2 f_equal.
  unfold update, put. f_equal. apply map_eq. intros v. destruct (decide (u = v)) as [->|Hne].
  - by rewrite lookup_alter_eq, Hl, lookup_insert_eq.
  - by rewrite lookup_alter_ne, lookup_insert_ne.
Qed.

Lemma put_put u l l' w : put u l' (put u l w) = put u l' w.
Proof. unfold put. cbn. by rewrite insert_insert_eq. Qed.

Lemma put_lookup u l w : legs (put u l w) !! u = Some l.
Proof. apply lookup_insert_eq. Qed.

Lemma outbound_variables_other f v c : f <> CF_OUTBOUND -> f <> CF_RECOVERED -> outbound_variables f v c = c.
Proof. intros H1 H2. unfold outbound_variables. by rewrite !bool_decide_eq_false_2. Qed.

(** A flag without a meaning of its own. *)
Lemma set_flag_plain env f v c : f <> CF_LEG_HOLDING -> f <> CF_OUTBOUND -> f <> CF_RECOVERED -> f <> CF_ORIGINATOR -> f <> CF_DIALPLAN ->
  switch_channel_set_flag_value env f v c = Some (put_flag f v c).
Proof.
  intros. unfold switch_channel_set_flag_value. rewrite !(bool_decide_eq_false_2 (f = _)) by done. cbn.
  by rewrite outbound_variables_other.
Qed.

Lemma clear_flag_plain env f c : f <> CF_LEG_HOLDING -> f <> CF_OUTBOUND -> f <> CF_RECOVERED -> f <> CF_ORIGINATOR -> f <> CF_DIALPLAN ->
  switch_channel_clear_flag env f c = Some (put_flag f 0 c).
Proof.
  intros. unfold switch_channel_clear_flag. rewrite !(bool_decide_eq_false_2 (f = _)) by done. cbn.
  by rewrite outbound_variables_other.
Qed.

Definition zrtp_off (c : channel) : channel :=
  put_flag CF_ZRTP_HASH 0 (put_flag CF_ZRTP_PASSTHRU 0
    (set_variable (str "zrtp_secure_media") (Some (str "true")) (set_variable (str "zrtp_passthru_active") (Some (str "false")) c))).

Definition zrtp_on (c : channel) : channel :=
  set_variable (str "zrtp_secure_media") (Some (str "false"))
    (set_variable (str "zrtp_passthru_active") (Some (str "true")) (put_flag CF_ZRTP_PASSTHRU 1 c)).

Lemma zrtp_disable_put u w l : legs w !! u = Some l -> zrtp_disable u w = Some (put u (set_chan (zrtp_off (chan l)) l) w).
Proof.
  intros Hl. unfold zrtp_disable, set_var, clear_flag.
  erewrite (on_chan_put u _ w l) by done. cbn [mbind option_bind].
  do 3 (erewrite on_chan_put by (apply put_lookup || (cbn [set_chan chan]; by apply clear_flag_plain) || done);
        cbn [mbind option_bind set_chan chan]; rewrite ?put_put).
  done.
Qed.

Lemma put_lookup_ne u v l w : u <> v -> legs (put u l w) !! v = legs w !! v.
Proof. apply lookup_insert_ne. Qed.

Lemma put_twice u v a b c d w : u <> v -> put v d (put u c (put v b (put u a w))) = put v d (put u c w).
Proof.
  intros Hne. unfold put, set_legs. cbn. f_equal. rewrite (insert_insert_ne _ u v) by done. rewrite insert_insert_eq.
  by rewrite insert_insert_eq.
Qed.

Lemma zrtp_enable_put u v w l lv : legs w !! u = Some l -> legs w !! v = Some lv -> u <> v ->
  zrtp_enable u v w = Some (put v (set_chan (zrtp_on (chan lv)) lv) (put u (set_chan (zrtp_on (chan l)) l) w)).
Proof.
  intros Hl Hv Hne. unfold zrtp_enable, set_var, set_flag, switch_channel_set_flag.
  erewrite (on_chan_put u _ w l) by (done || by apply set_flag_plain). cbn [mbind option_bind].
  erewrite (on_chan_put v _ _ lv) by ((by rewrite put_lookup_ne) || by apply set_flag_plain). cbn [mbind option_bind].
  do 2 (erewrite (on_chan_put u) by ((rewrite put_lookup_ne by done; apply put_lookup) || done); cbn [mbind option_bind];
        erewrite (on_chan_put v) by ((rewrite put_lookup_ne by done; apply put_lookup) || done); cbn [mbind option_bind];
        rewrite (put_twice u v) by done).
  done.
Qed.

(** The partner does not change when the variables of ZRTP do. *)
Definition vars_ok (c : channel) : Prop := exists sp, ChannelVars.represents (cvars c) sp.

Lemma zrtp_off_variable l key : vars_ok (chan l) ->
  key = str "signal_bond" \/ key = str "originate_signal_bond" ->
  leg_variable (set_chan (zrtp_off (chan l)) l) key = leg_variable l key.
Proof.
  intros [sp Hsp] Hkey. unfold leg_variable, zrtp_off, put_flag, set_variable. cbn [set_chan outside chan with_flags with_cvars cvars].
  set (c1 := ChannelVars.switch_channel_set_variable (cvars (chan l)) (str "zrtp_passthru_active") (Some (str "false"))).
  assert (key <> str "_body" /\ Event.lower (str "zrtp_passthru_active") <> Event.lower key
          /\ Event.lower (str "zrtp_secure_media") <> Event.lower key) as (K1 & K2 & K3) by (by destruct Hkey as [-> | ->]).
  destruct (ChannelVars.set_variable_other (outside l) (cvars (chan l)) sp (str "zrtp_passthru_active") (Some (str "false")) key) as [[s1 R1] H1];
    [done|by split_and!|done..|].
  destruct (ChannelVars.set_variable_other (outside l) c1 s1 (str "zrtp_secure_media") (Some (str "true")) key) as [_ H2];
    [done|by split_and!|done..|]. fold c1 in H1. by rewrite H2, H1.
Qed.

Lemma flag_put c f v : length (flags c) = CF_FLAG_MAX -> flag_set (put_flag f v c) f = negb (v =? 0).
Proof.
  intros Hl. unfold flag_set, switch_channel_test_flag, put_flag. cbn. rewrite list_lookup_insert_eq; [done|]. rewrite Hl. apply cf_bounds.
Qed.

Lemma flag_put_ne c f g v : f <> g -> flag_set (put_flag f v c) g = flag_set c g.
Proof. intros Hne. unfold flag_set, switch_channel_test_flag, put_flag. cbn. rewrite list_lookup_insert_ne; [done|]. by intros ?%cf_inj. Qed.

Lemma zrtp_off_flags c : length (flags c) = CF_FLAG_MAX ->
  flag_set (zrtp_off c) CF_ZRTP_PASSTHRU = false /\ flag_set (zrtp_off c) CF_ZRTP_HASH = false.
Proof.
  intros Hl. unfold zrtp_off. split.
  - rewrite flag_put_ne by done. by apply flag_put.
  - apply flag_put. cbn. by rewrite length_insert.
Qed.

(** ZRTP passthrough is switched on for both legs of a call or for none.
    When a leg that asked for it has a partner, switch_channel_check_zrtp turns
    it on for both if the partner offers a ZRTP hash and is not in passthrough
    already; otherwise it is off for both, and neither offers its hash any more. *)
Theorem zrtp_both_or_none u v w l lv :
  legs w !! u = Some l -> leg_wf l -> leg_wf lv -> vars_ok (chan l) -> zrtp_wanted (chan l) = true ->
  switch_core_session_perform_get_partner w l = Some (v, lv) -> u <> v ->
  exists w' l' lv', switch_channel_check_zrtp u w = Some w' /\ legs w' !! u = Some l' /\ legs w' !! v = Some lv'
    /\ flag_set (chan l') CF_ZRTP_PASSTHRU = zrtp_capable (chan lv)
    /\ flag_set (chan lv') CF_ZRTP_PASSTHRU = zrtp_capable (chan lv)
    /\ flag_set (chan l') CF_ZRTP_HASH = zrtp_capable (chan lv)
    /\ flag_set (chan lv') CF_ZRTP_HASH = zrtp_capable (chan lv).
Proof.
  intros Hl [Hwl _] [Hwv _] Hvars Hwant Hp Hne. unfold switch_channel_check_zrtp. rewrite Hl. cbn [mbind option_bind]. rewrite Hwant, Hp.
  assert (legs w !! v = Some lv) as Hv.
  { unfold switch_core_session_perform_get_partner, switch_core_session_perform_locate in Hp.
    apply bind_Some in Hp as (x & _ & (y & Hy & Hp)%bind_Some). destruct (lockable y); by simplify_eq. }
  destruct (zrtp_capable (chan lv)) eqn:Hcap.
  - rewrite (zrtp_enable_put u v w l lv) by done. eexists _, _, _. split; [done|].
    rewrite put_lookup_ne, !put_lookup by done. do 2 (split; [done|]). unfold zrtp_wanted, zrtp_capable in *.
    apply andb_true_iff in Hwant as [_ Hhash], Hcap as [Hcap _]. unfold zrtp_on. cbn [chan set_chan].
    split_and!; [by apply (flag_put (chan l))|by apply (flag_put (chan lv))| |];
      [rewrite <-Hhash; by apply (flag_put_ne (chan l))|rewrite <-Hcap; by apply (flag_put_ne (chan lv))].
  - unfold zrtp_disable_both. rewrite (zrtp_disable_put u w l) by done. cbn [mbind option_bind]. rewrite put_lookup. cbn [mbind option_bind].
    set (l' := set_chan (zrtp_off (chan l)) l). set (w1 := put u l' w).
    assert (switch_core_session_perform_get_partner w1 l' = Some (v, lv)) as ->.
    { unfold switch_core_session_perform_get_partner, switch_channel_get_partner_uuid in *.
      unfold l'. rewrite !zrtp_off_variable by auto. unfold switch_core_session_perform_locate in *.
      apply bind_Some in Hp as (x & Hx & (y & Hy & Hp)%bind_Some). rewrite Hx. cbn [mbind option_bind].
      destruct (lockable y) eqn:Hlk; simplify_eq. unfold w1. rewrite put_lookup_ne, Hy by done. cbn. by rewrite Hlk. }
    rewrite (zrtp_disable_put v w1 lv) by (unfold w1; by rewrite put_lookup_ne). eexists _, _, _. split; [done|].
    unfold w1. rewrite put_lookup_ne, !put_lookup by done. do 2 (split; [done|]). split_and!; by apply zrtp_off_flags.
Qed.

(** ** Instances of the theorems *)

(** Applications that set a variable, an endpoint that refuses early media. *)
Definition sample_services : Services := {|
  external u a w :=
    match a with
    | ReceiveMessage SWITCH_MESSAGE_INDICATE_PROGRESS => Some (w, SWITCH_STATUS_GENERR)
    | ExecuteApplication _ _ _ => w ← set_var u (str "seen") (str "1") w; Some (w, SWITCH_STATUS_SUCCESS)
    | _ => Some (w, SWITCH_STATUS_SUCCESS)
    end |}.

Lemma sample_laws : @ServiceLaws sample_services.
Proof.
  split. intros u a w w' st. cbn. repeat case_match; intros Hx; simplify_eq; try reflexivity.
  by apply bind_Some in Hx as (x & Hx%set_var_serves & [= <- _]).
Qed.

Definition sample_leg (dir : switch_call_direction) (vs : list (string * string)) : leg :=
  Leg (foldl (fun c '(n, v) => set_variable (str n) (Some (str v)) c) (attach_profile (switch_channel_alloc dir)) vs)
    0 0 0 None true true true false ChannelVars.no_externals [].

Definition caller : bytes := str "aaaa".
Definition callee : bytes := str "bbbb".

Definition sample_world : world :=
  World {[ caller := sample_leg SWITCH_CALL_DIRECTION_INBOUND [("execute_on_answer", "log hello"); ("signal_bond", "bbbb")];
           callee := sample_leg SWITCH_CALL_DIRECTION_OUTBOUND [("originator", "aaaa")] ]}
    1000 (Event.switch_event_create_plain Event.SWITCH_EVENT_CHANNEL_DATA)
    (Event.mk_env None None None [] [] [] [] 0 None None 0) 0.

Definition sample_history : list (bytes * operation) :=
  [(caller, RingReady SWITCH_RING_READY_RINGING); (callee, MarkPreAnswered); (callee, MarkAnswered); (caller, Answer);
   (caller, Answer); (caller, PreAnswer)].

Lemma sample_caller : exists l, legs sample_world !! caller = Some l /\ leg_wf l /\ actions l = []
  /\ flag_set (chan l) CF_ANSWERED = false /\ flag_set (chan l) CF_EARLY_MEDIA = false
  /\ direction (chan l) = SWITCH_CALL_DIRECTION_INBOUND /\ hung (chan l) = false.
Proof. eexists. split; [reflexivity|]. split; [split; vm_compute; reflexivity|]. split_and!; vm_compute; reflexivity. Qed.

Lemma answer_announced_once_witness :
  exists w' l' pre, @history sample_services sample_history sample_world = Some w' /\ legs w' !! caller = Some l'
    /\ (CHANNEL_ANSWER ∉ pre) /\ fired l' = pre ++ (if flag_set (chan l') CF_ANSWERED then [CHANNEL_ANSWER] else []).
Proof.
  assert (match @history sample_services sample_history sample_world with Some _ => true | None => false end = true) as Hok
    by (vm_compute; reflexivity).
  destruct (@history sample_services sample_history sample_world) as [w'|] eqn:Hw'; [clear Hok|discriminate].
  destruct sample_caller as (l & Hl & Hwf & Ha & Hup & _).
  destruct (@answer_announced_once sample_services sample_laws sample_history sample_world w' caller l Hw' Hl Hwf Ha Hup)
    as (l' & pre & H1 & H2 & H3). exists w', l', pre. exact (conj eq_refl (conj H1 (conj H2 H3))).
Defined.


(** The caller asks for passthrough, the callee offers a hash. *)
Definition zrtp_leg (l : leg) : leg :=
  set_chan (put_flag CF_ZRTP_HASH 1 (put_flag CF_ZRTP_PASSTHRU_REQ 1 (chan l))) l.

Lemma zrtp_both_or_none_witness :
  exists w w' l' lv', switch_channel_check_zrtp caller w = Some w' /\ legs w' !! caller = Some l' /\ legs w' !! callee = Some lv'
    /\ flag_set (chan l') CF_ZRTP_PASSTHRU = true /\ flag_set (chan lv') CF_ZRTP_PASSTHRU = true.
Proof.
  set (w := update callee zrtp_leg (update caller zrtp_leg sample_world)). exists w.
  destruct (zrtp_both_or_none caller callee w
    (zrtp_leg (sample_leg SWITCH_CALL_DIRECTION_INBOUND [("execute_on_answer", "log hello"); ("signal_bond", "bbbb")]))
    (zrtp_leg (sample_leg SWITCH_CALL_DIRECTION_OUTBOUND [("originator", "aaaa")]))) as (w' & l' & lv' & H1 & H2 & H3 & H4 & H5 & _);
    [vm_compute; reflexivity|split; vm_compute; reflexivity|split; vm_compute; reflexivity| |vm_compute; reflexivity|vm_compute; reflexivity|discriminate|].
  - eexists. cbn [chan zrtp_leg set_chan sample_leg put_flag with_flags cvars foldl set_variable with_cvars attach_profile with_times switch_channel_alloc].
    do 2 (apply ChannelVars.set_variable_represents; [|apply (bool_decide_unpack _); vm_compute; exact I]).
    apply ChannelVars.vars_alloc_represents.
  - exists w', l', lv'. rewrite H4, H5. split_and!; [exact H1|exact H2|exact H3|vm_compute; reflexivity..].
Defined.

End Answer.
