(* ===== verification/Caller.v ===== *)
(** * Caller profiles and extensions

    src/lib/libfreeswitch/switch_caller.c with src/include/switch_caller.h: the
    profile of the party at the other end of a channel (creation from untrusted
    strings, copies, look-up of a field by name, the headers it adds to an
    event) and the dialplan extension (the list of applications a session
    executes); and the part of switch_channel.c that keeps the stack of profiles
    of a channel.

    A pointer to a string is an [option bytes], a chain of profiles linked by
    [next] is a list.  The position of the current application in an extension
    is an index into the list of applications. *)

From S2P Require Import Prelude CString Event ChannelNames ChannelVars.
Import CString ChannelNames.

Module Caller.

(** ** Data *)

(** struct switch_channel_timetable. *)
Record timetable := Timetable {
  profile_created : Z;
  created : Z;
  answered : Z;
  progress : Z;
  progress_media : Z;
  hungup : Z;
  transferred : Z;
  resurrected : Z;
  bridged : Z;
  last_hold : Z;
  hold_accum : Z
}.

Definition no_times : timetable := Timetable 0 0 0 0 0 0 0 0 0 0 0.

(** struct switch_caller_profile, without the pointers to other profiles and to
    the extension, which belong to [chan_profile] below. *)
Record switch_caller_profile := Profile {
  username : option bytes;
  dialplan : option bytes;
  caller_id_name : option bytes;
  caller_id_number : option bytes;
  orig_caller_id_name : option bytes;
  orig_caller_id_number : option bytes;
  callee_id_name : option bytes;
  callee_id_number : option bytes;
  caller_ton : Z;
  caller_numplan : Z;
  network_addr : option bytes;
  ani : option bytes;
  ani_ton : Z;
  ani_numplan : Z;
  aniii : option bytes;
  rdnis : option bytes;
  rdnis_ton : Z;
  rdnis_numplan : Z;
  destination_number : option bytes;
  destination_number_ton : Z;
  destination_number_numplan : Z;
  source : option bytes;
  chan_name : option bytes;
  uuid : option bytes;
  context : option bytes;
  profile_index : option bytes;
  flags : Z;
  times : option timetable;
  old_times : option timetable;
  direction : switch_call_direction;
  logical_direction : switch_call_direction;
  soft : list (bytes * bytes);
  uuid_str : option bytes;
  clone_of : option bytes;
  transfer_source : option bytes
}.

Definition with_username (x : option bytes) (p : switch_caller_profile) : switch_caller_profile :=
  Profile x (dialplan p) (caller_id_name p) (caller_id_number p) (orig_caller_id_name p) (orig_caller_id_number
    p) (callee_id_name p) (callee_id_number p) (caller_ton p) (caller_numplan p) (network_addr p) (ani p)
    (ani_ton p) (ani_numplan p) (aniii p) (rdnis p) (rdnis_ton p) (rdnis_numplan p) (destination_number p)
    (destination_number_ton p) (destination_number_numplan p) (source p) (chan_name p) (uuid p) (context p)
    (profile_index p) (flags p) (times p) (old_times p) (direction p) (logical_direction p) (soft p) (uuid_str
    p) (clone_of p) (transfer_source p).
Definition with_dialplan (x : option bytes) (p : switch_caller_profile) : switch_caller_profile :=
  Profile (username p) x (caller_id_name p) (caller_id_number p) (orig_caller_id_name p) (orig_caller_id_number
    p) (callee_id_name p) (callee_id_number p) (caller_ton p) (caller_numplan p) (network_addr p) (ani p)
    (ani_ton p) (ani_numplan p) (aniii p) (rdnis p) (rdnis_ton p) (rdnis_numplan p) (destination_number p)
    (destination_number_ton p) (destination_number_numplan p) (source p) (chan_name p) (uuid p) (context p)
    (profile_index p) (flags p) (times p) (old_times p) (direction p) (logical_direction p) (soft p) (uuid_str
    p) (clone_of p) (transfer_source p).
Definition with_caller_id_name (x : option bytes) (p : switch_caller_profile) : switch_caller_profile :=
  Profile (username p) (dialplan p) x (caller_id_number p) (orig_caller_id_name p) (orig_caller_id_number p)
    (callee_id_name p) (callee_id_number p) (caller_ton p) (caller_numplan p) (network_addr p) (ani p) (ani_ton
    p) (ani_numplan p) (aniii p) (rdnis p) (rdnis_ton p) (rdnis_numplan p) (destination_number p)
    (destination_number_ton p) (destination_number_numplan p) (source p) (chan_name p) (uuid p) (context p)
    (profile_index p) (flags p) (times p) (old_times p) (direction p) (logical_direction p) (soft p) (uuid_str
    p) (clone_of p) (transfer_source p).
Definition with_caller_id_number (x : option bytes) (p : switch_caller_profile) : switch_caller_profile :=
  Profile (username p) (dialplan p) (caller_id_name p) x (orig_caller_id_name p) (orig_caller_id_number p)
    (callee_id_name p) (callee_id_number p) (caller_ton p) (caller_numplan p) (network_addr p) (ani p) (ani_ton
    p) (ani_numplan p) (aniii p) (rdnis p) (rdnis_ton p) (rdnis_numplan p) (destination_number p)
    (destination_number_ton p) (destination_number_numplan p) (source p) (chan_name p) (uuid p) (context p)
    (profile_index p) (flags p) (times p) (old_times p) (direction p) (logical_direction p) (soft p) (uuid_str
    p) (clone_of p) (transfer_source p).
Definition with_callee_id_name (x : option bytes) (p : switch_caller_profile) : switch_caller_profile :=
  Profile (username p) (dialplan p) (caller_id_name p) (caller_id_number p) (orig_caller_id_name p)
    (orig_caller_id_number p) x (callee_id_number p) (caller_ton p) (caller_numplan p) (network_addr p) (ani p)
    (ani_ton p) (ani_numplan p) (aniii p) (rdnis p) (rdnis_ton p) (rdnis_numplan p) (destination_number p)
    (destination_number_ton p) (destination_number_numplan p) (source p) (chan_name p) (uuid p) (context p)
    (profile_index p) (flags p) (times p) (old_times p) (direction p) (logical_direction p) (soft p) (uuid_str
    p) (clone_of p) (transfer_source p).
Definition with_callee_id_number (x : option bytes) (p : switch_caller_profile) : switch_caller_profile :=
  Profile (username p) (dialplan p) (caller_id_name p) (caller_id_number p) (orig_caller_id_name p)
    (orig_caller_id_number p) (callee_id_name p) x (caller_ton p) (caller_numplan p) (network_addr p) (ani p)
    (ani_ton p) (ani_numplan p) (aniii p) (rdnis p) (rdnis_ton p) (rdnis_numplan p) (destination_number p)
    (destination_number_ton p) (destination_number_numplan p) (source p) (chan_name p) (uuid p) (context p)
    (profile_index p) (flags p) (times p) (old_times p) (direction p) (logical_direction p) (soft p) (uuid_str
    p) (clone_of p) (transfer_source p).
Definition with_caller_ton (x : Z) (p : switch_caller_profile) : switch_caller_profile :=
  Profile (username p) (dialplan p) (caller_id_name p) (caller_id_number p) (orig_caller_id_name p)
    (orig_caller_id_number p) (callee_id_name p) (callee_id_number p) x (caller_numplan p) (network_addr p) (ani
    p) (ani_ton p) (ani_numplan p) (aniii p) (rdnis p) (rdnis_ton p) (rdnis_numplan p) (destination_number p)
    (destination_number_ton p) (destination_number_numplan p) (source p) (chan_name p) (uuid p) (context p)
    (profile_index p) (flags p) (times p) (old_times p) (direction p) (logical_direction p) (soft p) (uuid_str
    p) (clone_of p) (transfer_source p).
Definition with_caller_numplan (x : Z) (p : switch_caller_profile) : switch_caller_profile :=
  Profile (username p) (dialplan p) (caller_id_name p) (caller_id_number p) (orig_caller_id_name p)
    (orig_caller_id_number p) (callee_id_name p) (callee_id_number p) (caller_ton p) x (network_addr p) (ani p)
    (ani_ton p) (ani_numplan p) (aniii p) (rdnis p) (rdnis_ton p) (rdnis_numplan p) (destination_number p)
    (destination_number_ton p) (destination_number_numplan p) (source p) (chan_name p) (uuid p) (context p)
    (profile_index p) (flags p) (times p) (old_times p) (direction p) (logical_direction p) (soft p) (uuid_str
    p) (clone_of p) (transfer_source p).
Definition with_destination_number_ton (x : Z) (p : switch_caller_profile) : switch_caller_profile :=
  Profile (username p) (dialplan p) (caller_id_name p) (caller_id_number p) (orig_caller_id_name p)
    (orig_caller_id_number p) (callee_id_name p) (callee_id_number p) (caller_ton p) (caller_numplan p)
    (network_addr p) (ani p) (ani_ton p) (ani_numplan p) (aniii p) (rdnis p) (rdnis_ton p) (rdnis_numplan p)
    (destination_number p) x (destination_number_numplan p) (source p) (chan_name p) (uuid p) (context p)
    (profile_index p) (flags p) (times p) (old_times p) (direction p) (logical_direction p) (soft p) (uuid_str
    p) (clone_of p) (transfer_source p).
Definition with_destination_number_numplan (x : Z) (p : switch_caller_profile) : switch_caller_profile :=
  Profile (username p) (dialplan p) (caller_id_name p) (caller_id_number p) (orig_caller_id_name p)
    (orig_caller_id_number p) (callee_id_name p) (callee_id_number p) (caller_ton p) (caller_numplan p)
    (network_addr p) (ani p) (ani_ton p) (ani_numplan p) (aniii p) (rdnis p) (rdnis_ton p) (rdnis_numplan p)
    (destination_number p) (destination_number_ton p) x (source p) (chan_name p) (uuid p) (context p)
    (profile_index p) (flags p) (times p) (old_times p) (direction p) (logical_direction p) (soft p) (uuid_str
    p) (clone_of p) (transfer_source p).
Definition with_ani (x : option bytes) (p : switch_caller_profile) : switch_caller_profile :=
  Profile (username p) (dialplan p) (caller_id_name p) (caller_id_number p) (orig_caller_id_name p)
    (orig_caller_id_number p) (callee_id_name p) (callee_id_number p) (caller_ton p) (caller_numplan p)
    (network_addr p) x (ani_ton p) (ani_numplan p) (aniii p) (rdnis p) (rdnis_ton p) (rdnis_numplan p)
    (destination_number p) (destination_number_ton p) (destination_number_numplan p) (source p) (chan_name p)
    (uuid p) (context p) (profile_index p) (flags p) (times p) (old_times p) (direction p) (logical_direction p)
    (soft p) (uuid_str p) (clone_of p) (transfer_source p).
Definition with_aniii (x : option bytes) (p : switch_caller_profile) : switch_caller_profile :=
  Profile (username p) (dialplan p) (caller_id_name p) (caller_id_number p) (orig_caller_id_name p)
    (orig_caller_id_number p) (callee_id_name p) (callee_id_number p) (caller_ton p) (caller_numplan p)
    (network_addr p) (ani p) (ani_ton p) (ani_numplan p) x (rdnis p) (rdnis_ton p) (rdnis_numplan p)
    (destination_number p) (destination_number_ton p) (destination_number_numplan p) (source p) (chan_name p)
    (uuid p) (context p) (profile_index p) (flags p) (times p) (old_times p) (direction p) (logical_direction p)
    (soft p) (uuid_str p) (clone_of p) (transfer_source p).
Definition with_network_addr (x : option bytes) (p : switch_caller_profile) : switch_caller_profile :=
  Profile (username p) (dialplan p) (caller_id_name p) (caller_id_number p) (orig_caller_id_name p)
    (orig_caller_id_number p) (callee_id_name p) (callee_id_number p) (caller_ton p) (caller_numplan p) x (ani
    p) (ani_ton p) (ani_numplan p) (aniii p) (rdnis p) (rdnis_ton p) (rdnis_numplan p) (destination_number p)
    (destination_number_ton p) (destination_number_numplan p) (source p) (chan_name p) (uuid p) (context p)
    (profile_index p) (flags p) (times p) (old_times p) (direction p) (logical_direction p) (soft p) (uuid_str
    p) (clone_of p) (transfer_source p).
Definition with_rdnis (x : option bytes) (p : switch_caller_profile) : switch_caller_profile :=
  Profile (username p) (dialplan p) (caller_id_name p) (caller_id_number p) (orig_caller_id_name p)
    (orig_caller_id_number p) (callee_id_name p) (callee_id_number p) (caller_ton p) (caller_numplan p)
    (network_addr p) (ani p) (ani_ton p) (ani_numplan p) (aniii p) x (rdnis_ton p) (rdnis_numplan p)
    (destination_number p) (destination_number_ton p) (destination_number_numplan p) (source p) (chan_name p)
    (uuid p) (context p) (profile_index p) (flags p) (times p) (old_times p) (direction p) (logical_direction p)
    (soft p) (uuid_str p) (clone_of p) (transfer_source p).
Definition with_destination_number (x : option bytes) (p : switch_caller_profile) : switch_caller_profile :=
  Profile (username p) (dialplan p) (caller_id_name p) (caller_id_number p) (orig_caller_id_name p)
    (orig_caller_id_number p) (callee_id_name p) (callee_id_number p) (caller_ton p) (caller_numplan p)
    (network_addr p) (ani p) (ani_ton p) (ani_numplan p) (aniii p) (rdnis p) (rdnis_ton p) (rdnis_numplan p) x
    (destination_number_ton p) (destination_number_numplan p) (source p) (chan_name p) (uuid p) (context p)
    (profile_index p) (flags p) (times p) (old_times p) (direction p) (logical_direction p) (soft p) (uuid_str
    p) (clone_of p) (transfer_source p).
Definition with_uuid (x : option bytes) (p : switch_caller_profile) : switch_caller_profile :=
  Profile (username p) (dialplan p) (caller_id_name p) (caller_id_number p) (orig_caller_id_name p)
    (orig_caller_id_number p) (callee_id_name p) (callee_id_number p) (caller_ton p) (caller_numplan p)
    (network_addr p) (ani p) (ani_ton p) (ani_numplan p) (aniii p) (rdnis p) (rdnis_ton p) (rdnis_numplan p)
    (destination_number p) (destination_number_ton p) (destination_number_numplan p) (source p) (chan_name p) x
    (context p) (profile_index p) (flags p) (times p) (old_times p) (direction p) (logical_direction p) (soft p)
    (uuid_str p) (clone_of p) (transfer_source p).
Definition with_source (x : option bytes) (p : switch_caller_profile) : switch_caller_profile :=
  Profile (username p) (dialplan p) (caller_id_name p) (caller_id_number p) (orig_caller_id_name p)
    (orig_caller_id_number p) (callee_id_name p) (callee_id_number p) (caller_ton p) (caller_numplan p)
    (network_addr p) (ani p) (ani_ton p) (ani_numplan p) (aniii p) (rdnis p) (rdnis_ton p) (rdnis_numplan p)
    (destination_number p) (destination_number_ton p) (destination_number_numplan p) x (chan_name p) (uuid p)
    (context p) (profile_index p) (flags p) (times p) (old_times p) (direction p) (logical_direction p) (soft p)
    (uuid_str p) (clone_of p) (transfer_source p).
Definition with_context (x : option bytes) (p : switch_caller_profile) : switch_caller_profile :=
  Profile (username p) (dialplan p) (caller_id_name p) (caller_id_number p) (orig_caller_id_name p)
    (orig_caller_id_number p) (callee_id_name p) (callee_id_number p) (caller_ton p) (caller_numplan p)
    (network_addr p) (ani p) (ani_ton p) (ani_numplan p) (aniii p) (rdnis p) (rdnis_ton p) (rdnis_numplan p)
    (destination_number p) (destination_number_ton p) (destination_number_numplan p) (source p) (chan_name p)
    (uuid p) x (profile_index p) (flags p) (times p) (old_times p) (direction p) (logical_direction p) (soft p)
    (uuid_str p) (clone_of p) (transfer_source p).
Definition with_chan_name (x : option bytes) (p : switch_caller_profile) : switch_caller_profile :=
  Profile (username p) (dialplan p) (caller_id_name p) (caller_id_number p) (orig_caller_id_name p)
    (orig_caller_id_number p) (callee_id_name p) (callee_id_number p) (caller_ton p) (caller_numplan p)
    (network_addr p) (ani p) (ani_ton p) (ani_numplan p) (aniii p) (rdnis p) (rdnis_ton p) (rdnis_numplan p)
    (destination_number p) (destination_number_ton p) (destination_number_numplan p) (source p) x (uuid p)
    (context p) (profile_index p) (flags p) (times p) (old_times p) (direction p) (logical_direction p) (soft p)
    (uuid_str p) (clone_of p) (transfer_source p).
Definition with_soft (x : list (bytes * bytes)) (p : switch_caller_profile) : switch_caller_profile :=
  Profile (username p) (dialplan p) (caller_id_name p) (caller_id_number p) (orig_caller_id_name p)
    (orig_caller_id_number p) (callee_id_name p) (callee_id_number p) (caller_ton p) (caller_numplan p)
    (network_addr p) (ani p) (ani_ton p) (ani_numplan p) (aniii p) (rdnis p) (rdnis_ton p) (rdnis_numplan p)
    (destination_number p) (destination_number_ton p) (destination_number_numplan p) (source p) (chan_name p)
    (uuid p) (context p) (profile_index p) (flags p) (times p) (old_times p) (direction p) (logical_direction p)
    x (uuid_str p) (clone_of p) (transfer_source p).
Definition with_times (x : option timetable) (p : switch_caller_profile) : switch_caller_profile :=
  Profile (username p) (dialplan p) (caller_id_name p) (caller_id_number p) (orig_caller_id_name p)
    (orig_caller_id_number p) (callee_id_name p) (callee_id_number p) (caller_ton p) (caller_numplan p)
    (network_addr p) (ani p) (ani_ton p) (ani_numplan p) (aniii p) (rdnis p) (rdnis_ton p) (rdnis_numplan p)
    (destination_number p) (destination_number_ton p) (destination_number_numplan p) (source p) (chan_name p)
    (uuid p) (context p) (profile_index p) (flags p) x (old_times p) (direction p) (logical_direction p) (soft
    p) (uuid_str p) (clone_of p) (transfer_source p).
Definition with_profile_index (x : option bytes) (p : switch_caller_profile) : switch_caller_profile :=
  Profile (username p) (dialplan p) (caller_id_name p) (caller_id_number p) (orig_caller_id_name p)
    (orig_caller_id_number p) (callee_id_name p) (callee_id_number p) (caller_ton p) (caller_numplan p)
    (network_addr p) (ani p) (ani_ton p) (ani_numplan p) (aniii p) (rdnis p) (rdnis_ton p) (rdnis_numplan p)
    (destination_number p) (destination_number_ton p) (destination_number_numplan p) (source p) (chan_name p)
    (uuid p) (context p) x (flags p) (times p) (old_times p) (direction p) (logical_direction p) (soft p)
    (uuid_str p) (clone_of p) (transfer_source p).
Definition with_directions (d l : switch_call_direction) (p : switch_caller_profile) : switch_caller_profile :=
  Profile (username p) (dialplan p) (caller_id_name p) (caller_id_number p) (orig_caller_id_name p)
    (orig_caller_id_number p) (callee_id_name p) (callee_id_number p) (caller_ton p) (caller_numplan p)
    (network_addr p) (ani p) (ani_ton p) (ani_numplan p) (aniii p) (rdnis p) (rdnis_ton p) (rdnis_numplan p)
    (destination_number p) (destination_number_ton p) (destination_number_numplan p) (source p) (chan_name p)
    (uuid p) (context p) (profile_index p) (flags p) (times p) (old_times p) d l (soft p) (uuid_str p) (clone_of
    p) (transfer_source p).

Definition SWITCH_CPF_SCREEN : Z := 1.
Definition SWITCH_CPF_HIDE_NAME : Z := 2.
Definition SWITCH_CPF_HIDE_NUMBER : Z := 4.

(** ** Creating and copying *)

(** switch_clean_string: control characters other than newlines become blanks. *)
Definition switch_clean_string (s : bytes) : bytes :=
  (fun x => if (x <? 32) && negb (x =? 10) && negb (x =? 13) then 32 else x) <$> s.

(** The macros profile_dup and profile_dup_clean. *)
Definition profile_dup (a : option bytes) : option bytes := if zstr a then Some [] else a.
Definition profile_dup_clean (a : option bytes) : option bytes :=
  match a with
  | Some ((_ :: _) as s) => Some (ChannelVars.switch_var_clean_string (switch_clean_string s))
  | _ => Some []
  end.

(** [new_uuid]: the string made by switch_uuid_str. *)
Definition switch_caller_profile_new (new_uuid : bytes)
  (username dialplan caller_id_name caller_id_number network_addr ani aniii rdnis source context destination_number : option bytes)
  : switch_caller_profile :=
  let context := match context with None => Some (str "default") | Some _ => context end in
  let caller_id_name := if zstr caller_id_name then Some [] else caller_id_name in
  let caller_id_number := if zstr caller_id_number then Some (str "0000000000") else caller_id_number in
  {| username := profile_dup_clean username;
     dialplan := profile_dup_clean dialplan;
     caller_id_name := profile_dup_clean caller_id_name;
     caller_id_number := profile_dup_clean caller_id_number;
     orig_caller_id_name := profile_dup_clean caller_id_name;
     orig_caller_id_number := profile_dup_clean caller_id_number;
     callee_id_name := Some [];
     callee_id_number := Some [];
     caller_ton := 255;
     caller_numplan := 255;
     network_addr := profile_dup_clean network_addr;
     ani := profile_dup_clean ani;
     ani_ton := 255;
     ani_numplan := 255;
     aniii := profile_dup_clean aniii;
     rdnis := profile_dup_clean rdnis;
     rdnis_ton := 255;
     rdnis_numplan := 255;
     destination_number := profile_dup_clean destination_number;
     destination_number_ton := 255;
     destination_number_numplan := 255;
     source := profile_dup_clean source;
     chan_name := Some [];
     uuid := Some [];
     context := profile_dup_clean context;
     profile_index := None;
     flags := SWITCH_CPF_SCREEN;
     times := None;
     old_times := None;
     direction := SWITCH_CALL_DIRECTION_INBOUND;
     logical_direction := SWITCH_CALL_DIRECTION_INBOUND;
     soft := [];
     uuid_str := Some new_uuid;
     clone_of := None;
     transfer_source := None |}.

(** The copy starts from zeroed memory; the times are kept as the old times. *)
Definition switch_caller_profile_dup (new_uuid : bytes) (tocopy : switch_caller_profile) : switch_caller_profile :=
  {| username := profile_dup (username tocopy);
     dialplan := profile_dup (dialplan tocopy);
     caller_id_name := profile_dup (caller_id_name tocopy);
     caller_id_number := profile_dup (caller_id_number tocopy);
     orig_caller_id_name := profile_dup (orig_caller_id_name tocopy);
     orig_caller_id_number := profile_dup (orig_caller_id_number tocopy);
     callee_id_name := profile_dup (callee_id_name tocopy);
     callee_id_number := profile_dup (callee_id_number tocopy);
     caller_ton := caller_ton tocopy;
     caller_numplan := caller_numplan tocopy;
     network_addr := profile_dup (network_addr tocopy);
     ani := profile_dup (ani tocopy);
     ani_ton := ani_ton tocopy;
     ani_numplan := ani_numplan tocopy;
     aniii := profile_dup (aniii tocopy);
     rdnis := profile_dup (rdnis tocopy);
     rdnis_ton := rdnis_ton tocopy;
     rdnis_numplan := rdnis_numplan tocopy;
     destination_number := profile_dup (destination_number tocopy);
     destination_number_ton := destination_number_ton tocopy;
     destination_number_numplan := destination_number_numplan tocopy;
     source := profile_dup (source tocopy);
     chan_name := profile_dup (chan_name tocopy);
     uuid := profile_dup (uuid tocopy);
     context := profile_dup (context tocopy);
     profile_index := None;
     flags := flags tocopy;
     times := None;
     old_times := times tocopy;
     direction := direction tocopy;
     logical_direction := SWITCH_CALL_DIRECTION_INBOUND;
     soft := soft tocopy;
     uuid_str := Some new_uuid;
     clone_of := uuid_str tocopy;
     transfer_source := None |}.

(** ** Looking up a field *)

(** The fields that are strings, in the order the code compares their names. *)
Definition string_fields : list (bytes * (switch_caller_profile -> option bytes)) :=
  [(str "dialplan", dialplan); (str "username", username);
   (str "caller_id_name", caller_id_name); (str "caller_id_number", caller_id_number);
   (str "orig_caller_id_name", orig_caller_id_name); (str "orig_caller_id_number", orig_caller_id_number);
   (str "callee_id_name", callee_id_name); (str "callee_id_number", callee_id_number);
   (str "ani", ani); (str "aniii", aniii); (str "network_addr", network_addr); (str "rdnis", rdnis);
   (str "destination_number", destination_number); (str "uuid", uuid); (str "source", source);
   (str "transfer_source", transfer_source); (str "context", context); (str "chan_name", chan_name);
   (str "profile_index", profile_index)].

Definition number_fields : list (bytes * (switch_caller_profile -> Z)) :=
  [(str "caller_ton", caller_ton); (str "caller_numplan", caller_numplan);
   (str "destination_number_ton", destination_number_ton); (str "destination_number_numplan", destination_number_numplan);
   (str "ani_ton", ani_ton); (str "ani_numplan", ani_numplan);
   (str "rdnis_ton", rdnis_ton); (str "rdnis_numplan", rdnis_numplan)].

Definition flag_fields : list (bytes * Z) :=
  [(str "screen_bit", SWITCH_CPF_SCREEN); (str "privacy_hide_name", SWITCH_CPF_HIDE_NAME);
   (str "privacy_hide_number", SWITCH_CPF_HIDE_NUMBER)].

Definition time_fields : list (bytes * (timetable -> Z)) :=
  [(str "profile_created_time", profile_created); (str "created_time", created); (str "answered_time", answered);
   (str "progress_time", progress); (str "progress_media_time", progress_media); (str "hungup_time", hungup);
   (str "transferred_time", transferred)].

(** The first entry with that name, up to case. *)
Fixpoint entry {A} (l : list (bytes * A)) (name : bytes) : option A :=
  match l with
  | [] => None
  | (n, a) :: l => if strcaseeq name n then Some a else entry l name
  end.

Definition bool_text (b : bool) : bytes := if b then str "true" else str "false".

(** [None]: a time is asked of a profile without times, a NULL pointer is
    dereferenced; [Some None]: the code returns NULL. *)
Definition switch_caller_get_field_by_name (p : switch_caller_profile) (name : bytes) : option (option bytes) :=
  match entry string_fields name with
  | Some f => Some (f p)
  | None =>
    match entry number_fields name with
    | Some f => Some (Some (Event.dec (f p)))
    | None =>
      match entry flag_fields name with
      | Some fl => Some (Some (bool_text (test_flag (flags p) fl)))
      | None =>
        match entry time_fields name with
        | Some f => t ← times p; Some (Some (Event.dec (f t)))
        | None => Some None
        end
      end
    end
  end.

(** ** Headers of an event *)

Definition bottom (name : bytes) (value : option bytes) (ev : Event.event) : Event.event := Event.add_bottom ev (name, value).

(** The name of a header is written to a buffer of 1024 bytes. *)
Definition header_name (prefix suffix : bytes) : bytes := Event.snprintf 1024 (prefix ++ suffix).

(** A field that is only reported when [guard] is not empty. *)
Definition field_headers (p : switch_caller_profile) : list (bytes * option bytes * option bytes) :=
  [(str "-Username", username p, username p);
   (str "-Dialplan", dialplan p, dialplan p);
   (str "-Caller-ID-Name", caller_id_name p, caller_id_name p);
   (str "-Caller-ID-Number", caller_id_number p, caller_id_number p);
   (str "-Orig-Caller-ID-Name", caller_id_name p, orig_caller_id_name p);
   (str "-Orig-Caller-ID-Number", caller_id_number p, orig_caller_id_number p);
   (str "-Callee-ID-Name", callee_id_name p, callee_id_name p);
   (str "-Callee-ID-Number", callee_id_number p, callee_id_number p);
   (str "-Network-Addr", network_addr p, network_addr p);
   (str "-ANI", ani p, ani p);
   (str "-ANI-II", aniii p, aniii p);
   (str "-Destination-Number", destination_number p, destination_number p);
   (str "-Unique-ID", uuid p, uuid p);
   (str "-Source", source p, source p);
   (str "-Transfer-Source", transfer_source p, transfer_source p);
   (str "-Context", context p, context p);
   (str "-RDNIS", rdnis p, rdnis p);
   (str "-Channel-Name", chan_name p, chan_name p);
   (str "-Profile-Index", profile_index p, profile_index p)].

Definition time_headers (t : timetable) : list (bytes * Z) :=
  [(str "-Profile-Created-Time", profile_created t);
   (str "-Channel-Created-Time", created t);
   (str "-Channel-Answered-Time", answered t);
   (str "-Channel-Progress-Time", progress t);
   (str "-Channel-Progress-Media-Time", progress_media t);
   (str "-Channel-Hangup-Time", hungup t);
   (str "-Channel-Transfer-Time", transferred t);
   (str "-Channel-Resurrect-Time", resurrected t);
   (str "-Channel-Bridged-Time", bridged t);
   (str "-Channel-Last-Hold", last_hold t);
   (str "-Channel-Hold-Accum", hold_accum t)].

Definition direction_text (d : switch_call_direction) : bytes :=
  match d with SWITCH_CALL_DIRECTION_INBOUND => str "inbound" | SWITCH_CALL_DIRECTION_OUTBOUND => str "outbound" end.

(** The headers in the order they are added. *)
Definition profile_headers (p : switch_caller_profile) (prefix : bytes) : list (bytes * option bytes) :=
  [(header_name prefix (str "-Direction"), Some (direction_text (direction p)))]
  ++ omap (fun '(suffix, guard, value) => if zstr guard then None else Some (header_name prefix suffix, value)) (field_headers p)
  ++ ((fun '(var, val) => (var, Some val)) <$> soft p)
  ++ match (match times p with Some t => Some t | None => old_times p end) with
     | Some t => (fun '(suffix, z) => (header_name prefix suffix, Some (Event.dec z))) <$> time_headers t
     | None => []
     end
  ++ [(header_name prefix (str "-Screen-Bit"), Some (bool_text (test_flag (flags p) SWITCH_CPF_SCREEN)));
      (header_name prefix (str "-Privacy-Hide-Name"), Some (bool_text (test_flag (flags p) SWITCH_CPF_HIDE_NAME)));
      (header_name prefix (str "-Privacy-Hide-Number"), Some (bool_text (test_flag (flags p) SWITCH_CPF_HIDE_NUMBER)))].

Definition switch_caller_profile_event_set_data (p : switch_caller_profile) (prefix : bytes) (ev : Event.event) : Event.event :=
  foldl Event.add_bottom ev (profile_headers p prefix).

(** ** Extensions *)

(** struct switch_caller_application. *)
Record application := Application { application_name : option bytes; application_data : option bytes }.

#[export] Instance application_eq_dec : EqDecision application.
Proof. solve_decision. Defined.

(** struct switch_caller_extension: [current] and [last] are positions in [applications]. *)
Record switch_caller_extension := Extension {
  extension_name : option bytes;
  extension_number : option bytes;
  current : option nat;
  last_application : option nat;
  applications : list application
}.

Definition switch_caller_extension_new (name number : option bytes) : switch_caller_extension := Extension name number None None [].

Definition BACKSLASH_QUOTE : bytes := [92; 39].

(** The new application follows the last one, and the extension starts over.
    [None]: there are applications but no last one, and the list would lose its
    end; no operation makes such an extension. *)
Definition switch_caller_extension_add_application (e : switch_caller_extension) (name data : option bytes)
  : option switch_caller_extension :=
  let refused := match data with Some d => bool_decide (is_Some (strstr d BACKSLASH_QUOTE)) | None => false end in
  if refused then Some e
  else
    match applications e, last_application e with
    | [], _ => Some (Extension (extension_name e) (extension_number e) (Some 0%nat) (Some 0%nat) [Application name data])
    | apps, Some i =>
      Some (Extension (extension_name e) (extension_number e) (Some 0%nat) (Some (S i)) (take (S i) apps ++ [Application name data]))
    | _, None => None
    end.

(** The same for data made by a format, which is refused beforehand. *)
Definition switch_caller_extension_add_application_printf (e : switch_caller_extension) (name : option bytes) (data : bytes)
  : option switch_caller_extension :=
  if bool_decide (is_Some (strstr data BACKSLASH_QUOTE)) then Some e
  else switch_caller_extension_add_application e name (Some data).

(** One application after the other is copied, from the current one on;
    [x]: the position in the original. *)
Fixpoint clone_loop (orig_current : option nat) (apps : list application) (x : nat) (matched : bool) (e : switch_caller_extension)
  : switch_caller_extension :=
  match apps with
  | [] => e
  | ap :: apps =>
    let here := bool_decide (orig_current = Some x) in
    if negb matched && negb here then clone_loop orig_current apps (S x) false e
    else
      let n := length (applications e) in
      let e := Extension (extension_name e) (extension_number e) (if here then Some n else current e) (Some n) (applications e ++ [ap]) in
      clone_loop orig_current apps (S x) true e
  end.

Definition switch_caller_extension_clone (orig : switch_caller_extension) : switch_caller_extension :=
  clone_loop (current orig) (applications orig) 0 false (Extension (extension_name orig) (extension_number orig) None None []).

(** The step of the state machine to the next application. *)
Definition next_application (e : switch_caller_extension) : switch_caller_extension :=
  Extension (extension_name e) (extension_number e)
    (i ← current e; if (S i <? length (applications e))%nat then Some (S i) else None)
    (last_application e) (applications e).

(** ** The profiles of a channel *)

(** A profile with the profiles it points to. *)
Record chan_profile := ChanProfile {
  prof : switch_caller_profile;
  originators : list switch_caller_profile;
  originatees : list switch_caller_profile;
  originations : list switch_caller_profile;
  hunt : option (switch_caller_profile * option switch_caller_profile * option switch_caller_profile);
  caller_extension : option switch_caller_extension
}.

Inductive originator_type := LP_NEITHER | LP_ORIGINATOR | LP_ORIGINATEE.

(** [profiles]: channel->caller_profile and its predecessors. *)
Record chan_profiles := ChanProfiles {
  profiles : list chan_profile;
  profile_count : Z;
  last_profile_type : originator_type
}.

(** What the operations read of the channel and the session. *)
Record chan_info := ChanInfo {
  c_direction : switch_call_direction;
  c_logical_direction : switch_call_direction;
  c_uuid : bytes;
  c_name : option bytes;
  now : Z
}.

Definition with_prof (p : switch_caller_profile) (e : chan_profile) : chan_profile :=
  ChanProfile p (originators e) (originatees e) (originations e) (hunt e) (caller_extension e).

(** The times a new profile takes over from the one it replaces. *)
Definition inherit_times (old new : timetable) : timetable :=
  Timetable (profile_created new) (created old) (answered old) (progress old) (progress_media old) (hungup old)
    (transferred new) (resurrected new) (bridged new) (last_hold new) (hold_accum new).

Definition with_transferred (z : Z) (t : timetable) : timetable :=
  Timetable (profile_created t) (created t) (answered t) (progress t) (progress_media t) (hungup t) z
    (resurrected t) (bridged t) (last_hold t) (hold_accum t).
Definition with_created (z : Z) (t : timetable) : timetable :=
  Timetable (profile_created t) z (answered t) (progress t) (progress_media t) (hungup t) (transferred t)
    (resurrected t) (bridged t) (last_hold t) (hold_accum t).

(** The uuid, the name and the context of the channel; [None]: the name is NULL
    and is compared with. *)
Definition adopt (i : chan_info) (p : switch_caller_profile) : option switch_caller_profile :=
  let p := with_directions (c_direction i) (c_logical_direction i) p in
  let same_uuid := match uuid p with Some u => strcaseeq u (c_uuid i) | None => false end in
  let p := if same_uuid then p else with_uuid (Some (c_uuid i)) p in
  p ← match chan_name p with
      | None => Some (with_chan_name (c_name i) p)
      | Some n => name ← c_name i; Some (if strcaseeq n name then p else with_chan_name (Some name) p)
      end;
  Some (match context p with None => with_context (Some (str "default")) p | Some _ => p end).

(** The profile given is new or a copy: it points to no other. *)
Definition switch_channel_set_caller_profile (i : chan_info) (p : switch_caller_profile) (c : chan_profiles) : option chan_profiles :=
  p ← adopt i p;
  let t := match times p with
           | Some t => t
           | None => Timetable (now i) 0 0 0 0 0 0 0 0 0 0
           end in
  let index := s32 (profile_count c + 1) in
  let finish (t : timetable) (ext : option switch_caller_extension) (rest : list chan_profile) :=
    let p := with_profile_index (Some (Event.dec index)) (with_times (Some t) p) in
    Some (ChanProfiles (ChanProfile p [] [] [] None ext :: rest) index (last_profile_type c)) in
  match profiles c with
  | old :: rest =>
    match times (prof old) with
    | Some told =>
      finish (inherit_times told t) (switch_caller_extension_clone <$> caller_extension old)
        (with_prof (with_times (Some (with_transferred (profile_created t) told)) (prof old)) old :: rest)
    | None => finish (with_created (now i) t) None (profiles c)
    end
  | [] => finish (with_created (now i) t) None []
  end.

(** [None]: the channel has no profile to copy. *)
Definition switch_channel_step_caller_profile (i : chan_info) (new_uuid : bytes) (c : chan_profiles) : option chan_profiles :=
  old ← head (profiles c);
  switch_channel_set_caller_profile i (switch_caller_profile_dup new_uuid (prof old)) c.

(** The profile look-ups use: that of the hunt, if there is one; with its
    originator and its originatee. *)
Definition switch_channel_get_caller_profile (c : chan_profiles)
  : option (switch_caller_profile * option switch_caller_profile * option switch_caller_profile) :=
  e ← head (profiles c);
  match hunt e with
  | Some h => Some h
  | None => Some (prof e, head (originators e), head (originatees e))
  end.

Definition update_top (f : chan_profile -> chan_profile) (t : originator_type) (c : chan_profiles) : option chan_profiles :=
  match profiles c with
  | e :: rest => Some (ChanProfiles (f e :: rest) (profile_count c) t)
  | [] => None
  end.

Definition switch_channel_set_originator_caller_profile (p : switch_caller_profile) (c : chan_profiles) : option chan_profiles :=
  let p := match times p with Some _ => p | None => with_times (Some no_times) p end in
  update_top (fun e => ChanProfile (prof e) (p :: originators e) (originatees e) (originations e) (hunt e) (caller_extension e))
    LP_ORIGINATOR c.

Definition switch_channel_set_originatee_caller_profile (p : switch_caller_profile) (c : chan_profiles) : option chan_profiles :=
  update_top (fun e => ChanProfile (prof e) (originators e) (p :: originatees e) (originations e) (hunt e) (caller_extension e))
    LP_ORIGINATEE c.

Definition switch_channel_set_origination_caller_profile (p : switch_caller_profile) (c : chan_profiles) : option chan_profiles :=
  update_top (fun e => ChanProfile (prof e) (originators e) (originatees e) (p :: originations e) (hunt e) (caller_extension e))
    (last_profile_type c) c.

Definition switch_channel_set_hunt_caller_profile (i : chan_info)
  (h : option (switch_caller_profile * option switch_caller_profile * option switch_caller_profile)) (c : chan_profiles)
  : option chan_profiles :=
  let h := (fun '(p, a, b) => (with_directions (c_direction i) (c_logical_direction i) p, a, b)) <$> h in
  update_top (fun e => ChanProfile (prof e) (originators e) (originatees e) (originations e) h (caller_extension e))
    (last_profile_type c) c.

Definition switch_channel_get_originator_caller_profile (c : chan_profiles) : option switch_caller_profile :=
  e ← head (profiles c); head (originators e).
Definition switch_channel_get_originatee_caller_profile (c : chan_profiles) : option switch_caller_profile :=
  e ← head (profiles c); head (originatees e).
Definition switch_channel_get_origination_caller_profile (c : chan_profiles) : option switch_caller_profile :=
  e ← head (profiles c); head (originations e).

(** A variable that is not a field is kept in the list of soft fields, which
    has one entry for each name. *)
Fixpoint set_soft (soft : list (bytes * bytes)) (name v : bytes) : list (bytes * bytes) :=
  match soft with
  | [] => [(name, v)]
  | (n, x) :: soft => if strcaseeq n name then (n, v) :: soft else (n, x) :: set_soft soft name v
  end.

(** The fields that can be set, in the order the code compares their names; a
    number is only set from a value that is not NULL. *)
Definition string_setters : list (bytes * (option bytes -> switch_caller_profile -> switch_caller_profile)) :=
  [(str "dialplan", with_dialplan); (str "username", with_username); (str "caller_id_name", with_caller_id_name);
   (str "caller_id_number", with_caller_id_number); (str "callee_id_name", with_callee_id_name);
   (str "callee_id_number", with_callee_id_number)].
Definition number_setters : list (bytes * (Z -> switch_caller_profile -> switch_caller_profile)) :=
  [(str "caller_ton", with_caller_ton); (str "caller_numplan", with_caller_numplan);
   (str "destination_number_ton", with_destination_number_ton); (str "destination_number_numplan", with_destination_number_numplan)].
Definition more_setters : list (bytes * (option bytes -> switch_caller_profile -> switch_caller_profile)) :=
  [(str "ani", with_ani); (str "aniii", with_aniii); (str "network_addr", with_network_addr); (str "rdnis", with_rdnis);
   (str "destination_number", with_destination_number); (str "uuid", with_uuid); (str "source", with_source);
   (str "context", with_context); (str "chan_name", with_chan_name)].

Definition set_field (name v : bytes) (is_null : bool) (p : switch_caller_profile) : switch_caller_profile :=
  match entry string_setters name with
  | Some f => f (Some v) p
  | None =>
    match (if is_null then None else entry number_setters name) with
    | Some f => f (u8 (atoi v)) p
    | None =>
      match entry more_setters name with
      | Some f => f (Some v) p
      | None => with_soft (set_soft (soft p) name v) p
      end
    end
  end.

(** [set_device_id]: the identifier to use, or NULL when one has been set before. *)
Definition switch_channel_set_profile_var (set_device_id : bytes -> option bytes) (name : bytes) (val : option bytes) (c : chan_profiles)
  : option chan_profiles :=
  let '(stop, val) :=
    if strcaseeq name (str "device_id") && negb (zstr val)
    then match set_device_id (default [] val) with Some d => (false, Some d) | None => (true, val) end
    else (false, val) in
  if (stop : bool) then Some c
  else
    let v := if zstr val then [] else default [] val in
    update_top (fun e => with_prof (set_field name v (bool_decide (val = None)) (prof e)) e) (last_profile_type c) c.

(** ** Untrusted strings *)

(** No expansion, and no control character but the newlines. *)
Definition clean (v : bytes) : Prop :=
  ChannelVars.switch_string_var_check_const v = false /\ Forall (fun x => 32 <= x \/ x = 10 \/ x = 13) v.
Definition clean_opt (o : option bytes) : Prop := forall v, o = Some v -> clean v.

Lemma disable_forall (P : Z -> Prop) s : P 37 -> Forall P s ->
  forall d, Forall P (default [] d) -> Forall P (ChannelVars.var_disable_loop s d).
Proof.
  intros H37. induction 1 as [|x s Hx Hs IH]; intros d Hd; [done|]. cbn [ChannelVars.var_disable_loop].
  destruct (x =? 36); [apply Forall_app; split; [done|apply IH; by constructor]|].
  destruct d as [d|]; cbn [default from_option id] in Hd; [|constructor; [done|by apply (IH None)]].
  repeat case_match.
  - apply Forall_app. split; [constructor; [done|by apply Forall_tail]|constructor; [done|by apply (IH None)]].
  - apply Forall_app. split; [done|constructor; [done|by apply (IH None)]].
  - apply (IH (Some _)). cbn. apply Forall_app. by split; [|constructor].
Qed.

Lemma clean_string_forall s : Forall (fun x => 32 <= x \/ x = 10 \/ x = 13) (switch_clean_string s).
Proof.
  unfold switch_clean_string. apply Forall_fmap, Forall_forall. intros x _. cbn.
  destruct (Z.ltb_spec x 32), (Z.eqb_spec x 10), (Z.eqb_spec x 13); cbn; lia.
Qed.

Lemma clean_nil : clean [].
Proof. split; [done|constructor]. Qed.

Lemma profile_dup_clean_ok a : clean_opt (profile_dup_clean a).
Proof.
  intros v Hv. destruct a as [[|x s]|]; injection Hv as <-; try apply clean_nil.
  split; [apply ChannelVars.disable_safe|]. apply disable_forall; [lia|exact (clean_string_forall (x :: s))|constructor].
Qed.

Lemma profile_dup_ok a : clean_opt a -> clean_opt (profile_dup a).
Proof. unfold profile_dup. intros Ha v Hv. destruct (zstr a); [injection Hv as <-; apply clean_nil|by apply Ha]. Qed.

Lemma entry_In {A} (l : list (bytes * A)) name a : entry l name = Some a -> exists n, (n, a) ∈ l.
Proof.
  induction l as [|[n b] l IH]; [done|]. cbn. destruct (strcaseeq name n).
  - intros [= ->]. exists n. left.
  - intros [m Hm]%IH. exists m. by right.
Qed.

(** A profile all of whose strings are clean. *)
Definition profile_clean (p : switch_caller_profile) : Prop := Forall (fun f => clean_opt (f.2 p)) string_fields.

Lemma dec_clean z : clean (Event.dec z).
Proof.
  assert (Forall (fun x => x = 45 \/ 48 <= x <= 57) (Event.dec z)) as Hd by apply Event.dec_digits.
  split.
  - unfold ChannelVars.switch_string_var_check_const. induction Hd as [|x s Hx _ IH]; [done|]. cbn.
    rewrite (proj2 (Z.eqb_neq x 36)) by lia. exact IH.
  - eapply Forall_impl; [exact Hd|]. intros x Hx. cbn in Hx. lia.
Qed.

Lemma get_field_clean p name v : profile_clean p -> switch_caller_get_field_by_name p name = Some (Some v) -> clean v.
Proof.
  intros Hp. unfold switch_caller_get_field_by_name. destruct (entry string_fields name) as [f|] eqn:Hf.
  - intros [= Hv]. apply entry_In in Hf as [n Hin]. exact (proj1 (Forall_forall _ _) Hp (n, f) Hin v Hv).
  - repeat case_match; intros Hv; simplify_eq; [apply dec_clean| |].
    + unfold bool_text. case_match; apply (bool_decide_unpack _); vm_compute; exact I.
    + apply bind_Some in Hv as (t & _ & [= <-]). apply dec_clean.
Qed.

Lemma profile_new_clean nu a1 a2 a3 a4 a5 a6 a7 a8 a9 a10 a11 :
  profile_clean (switch_caller_profile_new nu a1 a2 a3 a4 a5 a6 a7 a8 a9 a10 a11).
Proof.
  unfold profile_clean, string_fields, switch_caller_profile_new.
  repeat (apply Forall_cons; split; [cbn; first [apply profile_dup_clean_ok|intros ? [= <-]; apply clean_nil|done]|]).
  constructor.
Qed.

Lemma profile_dup_clean_all nu p : profile_clean p -> profile_clean (switch_caller_profile_dup nu p).
Proof.
  unfold profile_clean, string_fields. intros H. rewrite !Forall_cons in H.
  repeat (destruct H as [? H]).
  repeat (apply Forall_cons; split; [cbn in *; first [by apply profile_dup_ok|done]|]). constructor.
Qed.

(** What a caller sends cannot smuggle expansions into a profile.  However
    the strings a profile is created from look, no field that can be looked up
    in it, or in a copy of it, contains an expansion that the dialplan would
    evaluate, nor a control character other than a newline. *)
Theorem profile_fields_clean nu nu' a1 a2 a3 a4 a5 a6 a7 a8 a9 a10 a11 name v :
  let p := switch_caller_profile_new nu a1 a2 a3 a4 a5 a6 a7 a8 a9 a10 a11 in
  switch_caller_get_field_by_name p name = Some (Some v)
  \/ switch_caller_get_field_by_name (switch_caller_profile_dup nu' p) name = Some (Some v) ->
  ChannelVars.switch_string_var_check_const v = false /\ Forall (fun x => 32 <= x \/ x = 10 \/ x = 13) v.
Proof.
  intros p [H|H]; (eapply get_field_clean; [|exact H]); [|apply profile_dup_clean_all]; apply profile_new_clean.
Qed.

(** ** Copies *)

Definition not_copied : list bytes := [str "transfer_source"; str "profile_index"].

Lemma strcaseeq_lower a b : strcaseeq a b = bool_decide (tolower <$> a = tolower <$> b).
Proof. done. Qed.

(** Look-up by name in a table and in the same table with other values. *)
Lemma string_field_dup nu p name f v :
  entry string_fields name = Some f -> Forall (fun n => strcaseeq name n = false) not_copied -> f p = Some v ->
  f (switch_caller_profile_dup nu p) = Some v.
Proof.
  intros Hf Hn Hv. unfold not_copied in Hn. rewrite !Forall_cons in Hn. destruct Hn as (Ht & Hi & _). unfold string_fields in Hf.
  cbn [entry] in Hf. rewrite Ht, Hi in Hf.
  repeat match type of Hf with (if ?b then _ else _) = _ => destruct b; [injection Hf as <-|] end; [..|done].
  all: cbn [switch_caller_profile_dup dialplan username caller_id_name caller_id_number orig_caller_id_name orig_caller_id_number
         callee_id_name callee_id_number ani aniii network_addr rdnis destination_number uuid source context chan_name]; rewrite Hv.
  all: unfold profile_dup; destruct v; reflexivity.
Qed.

(** A copied profile answers like the original.  Every field the original
    has, other than the transfer source, the index and the times, can be looked
    up in the copy with the same value; the times are kept as the copy's old
    times, and the copy knows which profile it was made from. *)
Theorem profile_dup_round_trip nu p name v :
  switch_caller_get_field_by_name p name = Some (Some v) ->
  Forall (fun n => strcaseeq name n = false) (not_copied ++ time_fields.*1) ->
  switch_caller_get_field_by_name (switch_caller_profile_dup nu p) name = Some (Some v)
  /\ old_times (switch_caller_profile_dup nu p) = times p /\ clone_of (switch_caller_profile_dup nu p) = uuid_str p.
Proof.
  intros Hv Hn. split; [|done]. apply Forall_app in Hn as [Hn Ht]. unfold switch_caller_get_field_by_name in *.
  destruct (entry string_fields name) as [f|] eqn:Hf.
  { injection Hv as Hv. f_equal. by eapply string_field_dup. }
  destruct (entry number_fields name) as [f|] eqn:Hf2.
  { injection Hv as <-. do 3 f_equal. apply entry_In in Hf2 as [n Hin]. unfold number_fields in Hin.
    repeat (apply elem_of_cons in Hin as [[= -> ->]|Hin]; [reflexivity|]). by apply not_elem_of_nil in Hin. }
  destruct (entry flag_fields name); [done|].
  destruct (entry time_fields name) as [f|] eqn:Hf3; [|done]. exfalso. clear -Ht Hf3.
  unfold time_fields in *. cbn [fmap list_fmap fst] in Ht. rewrite !Forall_cons in Ht. cbn [entry] in Hf3.
  destruct Ht as (-> & -> & -> & -> & -> & -> & -> & _) in Hf3. done.
Qed.

(** ** Extensions *)

(** What is left to execute. *)
Definition remaining (e : switch_caller_extension) : list application :=
  match current e with Some i => drop i (applications e) | None => [] end.

Record ext_wf (e : switch_caller_extension) : Prop := {
  ewf_last : last_application e = (match applications e with [] => None | _ => Some (length (applications e) - 1)%nat end);
  ewf_current : forall i, current e = Some i -> (i < length (applications e))%nat
}.

Lemma extension_new_wf name number : ext_wf (switch_caller_extension_new name number).
Proof. by split. Qed.

Lemma next_application_wf e : ext_wf e -> ext_wf (next_application e).
Proof.
  intros [Hl Hc]. split; [done|]. cbn [next_application current applications]. intros i (j & _ & Hi)%bind_Some. destruct (Nat.ltb_spec (S j) (length (applications e))); by simplify_eq.
Qed.

Lemma next_application_remaining e : ext_wf e -> remaining (next_application e) = tail (remaining e).
Proof.
  intros [_ Hc]. unfold remaining, next_application. cbn [current applications]. destruct (current e) as [i|] eqn:Hi; [|done].
  cbn [mbind option_bind].
  specialize (Hc i eq_refl). destruct (lookup_lt_is_Some_2 (applications e) i Hc) as [x Hx].
  rewrite (drop_S _ x i) by done. cbn [tail]. destruct (Nat.ltb_spec (S i) (length (applications e))); [done|].
  symmetry. apply drop_ge. lia.
Qed.

(** An application whose data is accepted. *)
Definition accepted (data : option bytes) : bool :=
  match data with Some d => negb (bool_decide (is_Some (strstr d BACKSLASH_QUOTE))) | None => true end.

Lemma add_application_spec e name data : ext_wf e ->
  exists e', switch_caller_extension_add_application e name data = Some e' /\ ext_wf e'
    /\ (if accepted data then applications e' = applications e ++ [Application name data] /\ current e' = Some 0%nat else e' = e).
Proof.
  intros Hwf. unfold switch_caller_extension_add_application, accepted.
  destruct (match data with Some d => _ | None => _ end) eqn:Href.
  { exists e. split; [done|]. split; [done|]. destruct data; [by rewrite Href|done]. }
  assert (match data with Some d => negb (bool_decide (is_Some (strstr d BACKSLASH_QUOTE))) | None => true end = true) as ->
    by (destruct data; [by rewrite Href|done]).
  destruct Hwf as [Hl Hc]. destruct (applications e) as [|a apps] eqn:Ha.
  - eexists. split; [done|]. split; [split; [done|intros i [= <-]; cbn; lia]|done].
  - rewrite Hl. cbn [length]. rewrite Nat.sub_1_r. cbn [Nat.pred]. eexists. split; [done|].
    assert (take (S (length apps)) (a :: apps) = a :: apps) as Ht by (apply take_ge; cbn; lia). rewrite Ht.
    split; [|done]. split; cbn [last_application applications current].
    + f_equal. rewrite length_app. cbn. lia.
    + intros i [= <-]. rewrite length_app. cbn. lia.
Qed.

Lemma clone_matched oc apps : forall x e, (forall y, oc = Some y -> (y < x)%nat) ->
  clone_loop oc apps x true e =
    Extension (extension_name e) (extension_number e) (current e)
      (match apps with [] => last_application e | _ => Some (length (applications e) + length apps - 1)%nat end)
      (applications e ++ apps).
Proof.
  induction apps as [|a apps IH]; intros x e Hx; cbn [clone_loop].
  - rewrite app_nil_r. by destruct e.
  - rewrite (bool_decide_eq_false_2 (oc = Some x)) by (intros ->; specialize (Hx x eq_refl); lia). cbn [negb andb].
    rewrite IH by (intros y Hy; specialize (Hx y Hy); lia). cbn [extension_name extension_number current last_application applications].
    rewrite <-app_assoc. f_equal. destruct apps; f_equal; cbn; rewrite ?length_app; cbn; lia.
Qed.

Lemma clone_loop_spec oc apps : forall x e i, applications e = [] -> oc = Some i -> (x <= i)%nat -> (i - x < length apps)%nat ->
  clone_loop oc apps x false e =
    Extension (extension_name e) (extension_number e) (Some 0%nat) (Some (length apps - (i - x) - 1)%nat) (drop (i - x) apps).
Proof.
  induction apps as [|a apps IH]; intros x e i He Hoc Hx Hlen; [cbn in Hlen; lia|]. cbn [clone_loop].
  destruct (decide (i = x)) as [->|Hne].
  - rewrite (bool_decide_eq_true_2 (oc = Some x)) by done. cbn [negb andb]. rewrite clone_matched by (intros y Hy; assert (y = x) by congruence; lia).
    rewrite He, Nat.sub_diag. cbn [extension_name extension_number current last_application applications length app drop].
    f_equal. destruct apps; f_equal; cbn; lia.
  - rewrite (bool_decide_eq_false_2 (oc = Some x)) by congruence. cbn [negb andb]. rewrite (IH (S x) e i) by (try done; cbn in Hlen; lia).
    replace (i - x)%nat with (S (i - S x))%nat by lia. reflexivity.
Qed.

Lemma clone_finished apps : forall x e, clone_loop None apps x false e = e.
Proof. induction apps as [|a apps IH]; intros x e; [done|]. cbn [clone_loop]. rewrite bool_decide_eq_false_2 by done. apply IH. Qed.

Lemma clone_spec e : ext_wf e ->
  let c := switch_caller_extension_clone e in
  ext_wf c /\ applications c = remaining e /\ remaining c = remaining e
  /\ extension_name c = extension_name e /\ extension_number c = extension_number e.
Proof.
  intros [Hl Hc]. unfold switch_caller_extension_clone, remaining at 1 3. destruct (current e) as [i|] eqn:Hi; [|by rewrite clone_finished].
  specialize (Hc i eq_refl). rewrite (clone_loop_spec _ _ 0 _ i) by (done || cbn; lia). rewrite Nat.sub_0_r.
  split_and!; try done. split; cbn [last_application applications current].
  - destruct (drop i (applications e)) eqn:Hd; [apply (f_equal length) in Hd; rewrite length_drop in Hd; cbn in Hd; lia|].
    by rewrite <-Hd, length_drop.
  - intros j [= <-]. rewrite length_drop. lia.
Qed.

(** A cloned extension continues where the original is.  For an extension
    that was built by adding applications and partly executed, the clone made
    when a channel gets a new profile has exactly the applications that are
    left, in order, from the current one; applications added to it later follow
    them; and a finished extension has an empty clone. *)
Theorem extension_clone_continues e name data :
  ext_wf e ->
  let c := switch_caller_extension_clone e in
  ext_wf c /\ applications c = remaining e /\ remaining c = remaining e
  /\ (accepted data = true -> exists c', switch_caller_extension_add_application c name data = Some c'
        /\ remaining c' = remaining e ++ [Application name data]).
Proof.
  intros Hwf. destruct (clone_spec e Hwf) as (W & A & R & _). intros c. split_and!; try done. intros Hacc.
  destruct (add_application_spec c name data W) as (c' & Hc' & _ & H). rewrite Hacc in H.
  exists c'. split; [done|]. destruct H as [Ha Hcur]. unfold remaining at 1. rewrite Hcur, Ha. cbn [drop]. unfold c. by rewrite A.
Qed.

(** The flaw: an application added to an extension that is being executed
    makes it start over. *)
Lemma add_application_restarts e name data e' : ext_wf e -> accepted data = true ->
  switch_caller_extension_add_application e name data = Some e' -> remaining e' = applications e ++ [Application name data].
Proof.
  intros Hwf Hacc He'. destruct (add_application_spec e name data Hwf) as (x & Hx & _ & H). rewrite Hacc in H.
  simplify_eq. destruct H as [Ha Hcur]. unfold remaining. by rewrite Hcur, Ha.
Qed.

(** ** The stack of profiles *)

Inductive prof_step (c : chan_profiles) : chan_profiles -> Prop :=
| step_set i p c' : switch_channel_set_caller_profile i p c = Some c' -> prof_step c c'
| step_step i nu c' : switch_channel_step_caller_profile i nu c = Some c' -> prof_step c c'
| step_originator p c' : switch_channel_set_originator_caller_profile p c = Some c' -> prof_step c c'
| step_originatee p c' : switch_channel_set_originatee_caller_profile p c = Some c' -> prof_step c c'
| step_origination p c' : switch_channel_set_origination_caller_profile p c = Some c' -> prof_step c c'
| step_hunt i h c' : switch_channel_set_hunt_caller_profile i h c = Some c' -> prof_step c c'
| step_var dev name v c' : switch_channel_set_profile_var dev name v c = Some c' -> prof_step c c'.

Definition no_profiles : chan_profiles := ChanProfiles [] 0 LP_NEITHER.

(** Every profile of the channel and every originator has times. *)
Definition timed (p : switch_caller_profile) : Prop := is_Some (times p).
Definition stack_timed (c : chan_profiles) : Prop :=
  Forall (fun e => timed (prof e) /\ Forall timed (originators e)) (profiles c).

Lemma set_caller_timed i p c c' : switch_channel_set_caller_profile i p c = Some c' -> stack_timed c -> stack_timed c'.
Proof.
  unfold switch_channel_set_caller_profile, stack_timed. intros (q & _ & H)%bind_Some Hc. cbv zeta in H.
  destruct (profiles c) as [|old rest]; [injection H as <-; cbn; repeat constructor; by eexists|].
  apply Forall_cons in Hc as [[[t Ht] Ho] Hr]. rewrite Ht in H. injection H as <-. cbn [profiles].
  apply Forall_cons. split; [split; [by eexists|constructor]|]. apply Forall_cons. split; [|done]. split; [by eexists|done].
Qed.

Lemma set_field_times name v b p : times (set_field name v b p) = times p.
Proof.
  unfold set_field. destruct (entry string_setters name) as [f|] eqn:Hf.
  { apply entry_In in Hf as [n Hin]. unfold string_setters in Hin.
    repeat (apply elem_of_cons in Hin as [[= -> ->]|Hin]; [reflexivity|]). by apply not_elem_of_nil in Hin. }
  destruct (if b then None else entry number_setters name) as [f|] eqn:Hf2.
  { destruct b; [done|]. apply entry_In in Hf2 as [n Hin]. unfold number_setters in Hin.
    repeat (apply elem_of_cons in Hin as [[= -> ->]|Hin]; [reflexivity|]). by apply not_elem_of_nil in Hin. }
  destruct (entry more_setters name) as [f|] eqn:Hf3; [|done].
  apply entry_In in Hf3 as [n Hin]. unfold more_setters in Hin.
  repeat (apply elem_of_cons in Hin as [[= -> ->]|Hin]; [reflexivity|]). by apply not_elem_of_nil in Hin.
Qed.

Lemma update_top_timed f t c c' : (forall e, timed (prof e) /\ Forall timed (originators e) ->
    timed (prof (f e)) /\ Forall timed (originators (f e))) ->
  update_top f t c = Some c' -> stack_timed c -> stack_timed c'.
Proof.
  unfold update_top, stack_timed. intros Hf Hc Hs. destruct (profiles c) as [|e rest]; [done|]. injection Hc as <-.
  apply Forall_cons in Hs as [He Hr]. cbn [profiles]. apply Forall_cons. split; [by apply Hf|done].
Qed.

Lemma prof_step_timed c c' : prof_step c c' -> stack_timed c -> stack_timed c'.
Proof.
  destruct 1 as [i p c' H|i nu c' H|p c' H|p c' H|p c' H|i h c' H|dev name v c' H].
  - by eapply set_caller_timed.
  - apply bind_Some in H as (old & _ & H). by eapply set_caller_timed.
  - eapply update_top_timed; [|exact H]. intros e [He Ho]. split; [done|]. cbn. constructor; [|done].
    unfold timed. destruct (times p) eqn:Hp; [by rewrite Hp|by eexists].
  - eapply update_top_timed; [|exact H]. done.
  - eapply update_top_timed; [|exact H]. done.
  - eapply update_top_timed; [|exact H]. done.
  - unfold switch_channel_set_profile_var in H. destruct (if _ && _ then _ else _) as [stop val]. destruct stop; [by simplify_eq|].
    eapply update_top_timed; [|exact H]. intros e [He Ho]. split; [|done]. cbn. unfold timed. by rewrite set_field_times.
Qed.

Lemma timed_lookup p name : timed p -> is_Some (switch_caller_get_field_by_name p name).
Proof. intros [t Ht]. unfold switch_caller_get_field_by_name. repeat case_match; try done; [by eexists..|]. rewrite Ht. by eexists. Qed.

(** The names that ask for a time: those of no other field. *)
Definition asks_time (name : bytes) : bool :=
  match entry string_fields name, entry number_fields name, entry flag_fields name, entry time_fields name with
  | None, None, None, Some _ => true
  | _, _, _, _ => false
  end.

Lemma lookup_fails q name : switch_caller_get_field_by_name q name = None <-> asks_time name = true /\ times q = None.
Proof.
  unfold switch_caller_get_field_by_name, asks_time. destruct (entry string_fields name); [by split; [|intros [? _]]|].
  destruct (entry number_fields name); [by split; [|intros [? _]]|]. destruct (entry flag_fields name); [by split; [|intros [? _]]|].
  destruct (entry time_fields name) as [f|]; [|by split; [|intros [? _]]]. destruct (times q); by split; [|intros [_ ?]].
Qed.

(** C33: which look-ups of a caller's field can follow a NULL pointer.  From the
    creation of a channel, whatever profiles are set, stepped and changed, every
    field name can be looked up in its current profile, in the profiles before
    it and in the profiles of its originators; so it can in what
    switch_channel_get_caller_profile gives the look-up of a variable, and in
    its aleg_ profile, as long as the channel has no hunt profile.  A look-up
    follows the NULL pointer exactly when it asks for a time of a profile without
    times, which the other profiles may be: a hunt profile and those behind it,
    originatees (bleg_) and originations keep the times they come with, and a
    copy of a profile comes without. *)
Theorem profile_lookup_defined c name :
  rtc prof_step no_profiles c ->
  Forall (fun e => is_Some (switch_caller_get_field_by_name (prof e) name)
    /\ Forall (fun p => is_Some (switch_caller_get_field_by_name p name)) (originators e)) (profiles c)
  /\ (forall e p a b, head (profiles c) = Some e -> hunt e = None -> switch_channel_get_caller_profile c = Some (p, a, b) ->
        is_Some (switch_caller_get_field_by_name p name) /\ forall q, a = Some q -> is_Some (switch_caller_get_field_by_name q name))
  /\ (forall q, switch_caller_get_field_by_name q name = None <-> asks_time name = true /\ times q = None).
Proof.
  intros Hr. assert (stack_timed c) as Hs.
  { cut (stack_timed no_profiles -> stack_timed c); [intros H; apply H; constructor|].
    induction Hr as [|x y z Hxy _ IH]; [done|]. intros Hx. apply IH. by eapply prof_step_timed. }
  split; [|split; [|intros q; apply lookup_fails]].
  - eapply Forall_impl; [exact Hs|]. intros e [He Ho]. split; [by apply timed_lookup|].
    eapply Forall_impl; [exact Ho|]. intros p. apply timed_lookup.
  - intros e p a b He Hh Hg. unfold switch_channel_get_caller_profile in Hg. rewrite He in Hg. cbn [mbind option_bind] in Hg. rewrite Hh in Hg.
    injection Hg as <- <- <-. unfold stack_timed in Hs. destruct (profiles c) as [|e' rest]; [done|]. injection He as ->.
    apply Forall_cons in Hs as [[He Ho] _]. split; [by apply timed_lookup|]. intros q Hq. apply timed_lookup.
    destruct (originators e) as [|o os]; [done|]. injection Hq as ->. by apply Forall_cons in Ho as [? _].
Qed.

(** The flaw: the profile of an originatee keeps the times it comes with, and a
    copy comes without; asking it for a time crashes. *)
Theorem originatee_time_crashes nu p c c' :
  switch_channel_set_originatee_caller_profile (switch_caller_profile_dup nu p) c = Some c' ->
  switch_channel_get_originatee_caller_profile c' = Some (switch_caller_profile_dup nu p)
  /\ switch_caller_get_field_by_name (switch_caller_profile_dup nu p) (str "answered_time") = None.
Proof.
  unfold switch_channel_set_originatee_caller_profile, update_top. destruct (profiles c); [done|]. intros [= <-]. done.
Qed.

(** The same with a hunt profile, in which every variable that is not set is
    looked up. *)
Theorem hunt_time_crashes i nu p c c' :
  switch_channel_set_hunt_caller_profile i (Some (switch_caller_profile_dup nu p, None, None)) c = Some c' ->
  exists q, switch_channel_get_caller_profile c' = Some (q, None, None) /\ switch_caller_get_field_by_name q (str "created_time") = None.
Proof.
  unfold switch_channel_set_hunt_caller_profile, update_top. destruct (profiles c); [done|]. intros [= <-]. by eexists.
Qed.

(** The times of the call that a new profile takes over. *)
Definition call_times (t : timetable) : Z * Z * Z * Z * Z := (created t, answered t, progress t, progress_media t, hungup t).

(** A transfer: a new profile is set, or the current one is stepped. *)
Inductive transfer := SetProfile (i : chan_info) (p : switch_caller_profile) | StepProfile (i : chan_info) (nu : bytes).

Definition transfer_run (t : transfer) (c : chan_profiles) : option chan_profiles :=
  match t with
  | SetProfile i p => switch_channel_set_caller_profile i p c
  | StepProfile i nu => switch_channel_step_caller_profile i nu c
  end.

Fixpoint transfers (ts : list transfer) (c : chan_profiles) : option chan_profiles :=
  match ts with
  | [] => Some c
  | t :: ts => c ← transfer_run t c; transfers ts c
  end.

(** The current profile, its times and what is left of its extension. *)
Definition current_profile (c : chan_profiles) (t : timetable) (apps : option (list application)) : Prop :=
  exists e, head (profiles c) = Some e /\ times (prof e) = Some t /\ remaining <$> caller_extension e = apps
    /\ (forall x, caller_extension e = Some x -> ext_wf x).

Lemma set_caller_current i p c t apps c' : current_profile c t apps -> switch_channel_set_caller_profile i p c = Some c' ->
  exists t', current_profile c' t' apps /\ call_times t' = call_times t /\ profile_count c' = s32 (profile_count c + 1).
Proof.
  intros (e & He & Ht & Happs & Hwf) (q & Hq & H)%bind_Some. cbv zeta in H.
  destruct (profiles c) as [|old rest] eqn:Hp; [done|]. injection He as ->. rewrite Ht in H. injection H as <-.
  eexists. split; [eexists; split; [reflexivity|]; split; [reflexivity|]|split; reflexivity]. cbn [caller_extension].
  destruct (caller_extension e) as [x|]; [|by split]. cbn in Happs |- *.
  destruct (clone_spec x (Hwf x eq_refl)) as (W & _ & R & _). rewrite R. split; [done|]. intros y [= <-]. exact W.
Qed.

Lemma transfer_current tr c t apps c' : current_profile c t apps -> transfer_run tr c = Some c' ->
  exists t', current_profile c' t' apps /\ call_times t' = call_times t /\ profile_count c' = s32 (profile_count c + 1).
Proof.
  destruct tr as [i p|i nu]; cbn; intros Hc H; [by eapply set_caller_current|].
  apply bind_Some in H as (old & _ & H). by eapply set_caller_current.
Qed.

(** A transfer keeps the times of the call and the rest of the dialplan.
    However often the profile of a channel is replaced or stepped, the current
    profile has the times at which the call was created, rang, had early media,
    was answered and ended, and its extension has the applications that were
    left to execute. *)
Theorem transfers_keep_call ts : forall c c' t apps,
  current_profile c t apps -> transfers ts c = Some c' ->
  exists t', current_profile c' t' apps /\ call_times t' = call_times t.
Proof.
  induction ts as [|tr ts IH]; intros c c' t apps Hc H; [injection H as <-; by exists t|].
  cbn in H. apply bind_Some in H as (c1 & H1 & H). destruct (transfer_current tr c t apps c1 Hc H1) as (t1 & Hc1 & Ht1 & _).
  destruct (IH c1 c' t1 apps Hc1 H) as (t' & Hc' & Ht'). exists t'. split; [done|congruence].
Qed.

(** ** Headers *)

(** A header that is added as it is. *)
Definition header_ok (nv : bytes * option bytes) : Prop :=
  Event.plain_name nv.1 /\ exists v, nv.2 = Some v /\ v <> [] /\ Event.plain_data v.

Lemma add_headers_content kvs : forall ev, Event.ev_wf ev -> test_flag (Event.flags ev) Event.EF_UNIQ_HEADERS = false ->
  Forall header_ok kvs ->
  Event.ev_wf (foldl Event.add_bottom ev kvs)
  /\ Event.content <$> Event.headers (foldl Event.add_bottom ev kvs) = (Event.content <$> Event.headers ev) ++ kvs.
Proof.
  induction kvs as [|[n o] kvs IH]; intros ev Hwf Hu Hk; [by rewrite app_nil_r|].
  apply Forall_cons in Hk as [(Hn & v & Ho & Hne & Hd) Hk]. cbn in Ho, Hn. subst o. cbn [foldl].
  destruct (Event.add_plain_append ev n v Hwf Hn Hd Hne) as (W & C & M); [intros Hu'; congruence|].
  destruct (IH (Event.add_bottom ev (n, Some v))) as [W' C']; [exact W| |exact Hk|].
  - assert (Event.flags (Event.add_bottom ev (n, Some v)) = Event.flags ev) as -> by (unfold Event.meta in M; unfold Event.add_bottom; cbn [fst snd] in *; congruence).
    done.
  - split; [exact W'|]. rewrite C'. unfold Event.add_bottom. cbn [fst snd]. by rewrite C, <-app_assoc.
Qed.

(** The first entry of a list of headers with that name. *)
Fixpoint first_named (kvs : list (bytes * option bytes)) (name : bytes) : option bytes :=
  match kvs with
  | [] => None
  | (n, v) :: kvs => if strcaseeq n name then v else first_named kvs name
  end.

Lemma find_content hs name :
  (List.find (Event.named name) hs ≫= Event.h_value) = first_named (Event.content <$> hs) name.
Proof. induction hs as [|h hs IH]; [done|]. cbn. unfold Event.named at 1. by destruct (strcaseeq (Event.h_name h) name). Qed.

Lemma first_named_app a b name : first_named (a ++ b) name =
  if existsb (fun nv => strcaseeq nv.1 name) a then first_named a name else first_named b name.
Proof. induction a as [|[n v] a IH]; [done|]. cbn. by destruct (strcaseeq n name). Qed.

Lemma strchr_app_none a b c : strchr a c = None -> strchr b c = None -> strchr (a ++ b) c = None.
Proof.
  induction a as [|x a IH]; intros Ha Hb; [done|]. cbn in *. destruct (x =? c); [done|].
  destruct (strchr a c); [done|]. by rewrite IH.
Qed.

Lemma strcaseeq_prefix p a b : strcaseeq (p ++ a) (p ++ b) = strcaseeq a b.
Proof. rewrite !strcaseeq_lower, !fmap_app. apply bool_decide_ext. split; [by intros ?%(inj (app _))|by intros ->]. Qed.

(** The suffixes of the headers, all short, without an index and distinct up to case. *)
Definition suffixes : list bytes :=
  str "-Direction" :: [str "-Username"; str "-Dialplan"; str "-Caller-ID-Name"; str "-Caller-ID-Number"; str "-Orig-Caller-ID-Name";
   str "-Orig-Caller-ID-Number"; str "-Callee-ID-Name"; str "-Callee-ID-Number"; str "-Network-Addr"; str "-ANI"; str "-ANI-II";
   str "-Destination-Number"; str "-Unique-ID"; str "-Source"; str "-Transfer-Source"; str "-Context"; str "-RDNIS";
   str "-Channel-Name"; str "-Profile-Index"]
  ++ (time_headers no_times).*1 ++ [str "-Screen-Bit"; str "-Privacy-Hide-Name"; str "-Privacy-Hide-Number"].

Lemma suffixes_ok : NoDup (Event.lower <$> suffixes)
  /\ Forall (fun s => zlen s <= 100 /\ strchr s 91 = None /\ head s = Some 45) suffixes.
Proof. split; apply (bool_decide_unpack _); vm_compute; exact I. Qed.

Section read_back.
Context (prefix : bytes) (Hlen : zlen prefix <= 900) (Hidx : strchr prefix 91 = None).

Lemma header_name_short s : s ∈ suffixes -> header_name prefix s = prefix ++ s.
Proof.
  intros Hs. unfold header_name. apply Event.snprintf_fits. rewrite zlen_app.
  pose proof (proj1 (Forall_forall _ _) (proj2 suffixes_ok) s Hs) as [H _]. lia.
Qed.

Lemma header_name_plain s : s ∈ suffixes -> Event.plain_name (prefix ++ s).
Proof.
  intros Hs. pose proof (proj1 (Forall_forall _ _) (proj2 suffixes_ok) s Hs) as (_ & H1 & H2). split; [by apply strchr_app_none|].
  intros Heq. assert (45 ∈ str "_body") as Hin.
  { rewrite <-Heq. apply elem_of_app. right. destruct s; [done|]. injection H2 as ->. left. }
  revert Hin. apply (bool_decide_unpack _). vm_compute. exact I.
Qed.

(** A table of suffixes and values, as headers. *)
Definition rendered (l : list (bytes * option bytes)) : list (bytes * option bytes) :=
  (fun '(s, v) => (header_name prefix s, v)) <$> l.

Lemma first_rendered l s : NoDup (Event.lower <$> l.*1) -> (forall x, x ∈ l.*1 -> x ∈ suffixes) -> s ∈ suffixes ->
  forall v, (s, v) ∈ l -> forall rest, first_named (rendered l ++ rest) (prefix ++ s) = v.
Proof.
  intros Hnd Hall Hs v Hin rest. induction l as [|[t w] l IH]; [by apply not_elem_of_nil in Hin|].
  cbn [rendered fmap list_fmap app first_named]. rewrite header_name_short by (apply Hall; left).
  rewrite strcaseeq_prefix. rewrite !fmap_cons in Hnd. apply NoDup_cons in Hnd as [Hni Hnd]. apply elem_of_cons in Hin as [[= -> ->]|Hin].
  - by rewrite strcaseeq_refl.
  - rewrite strcaseeq_lower, bool_decide_eq_false_2; [apply IH; try done; intros x Hx; apply Hall; by right|].
    intros Heq. apply Hni. cbn. unfold Event.lower at 1. rewrite Heq. apply list_elem_of_fmap. exists s. split; [done|].
    apply list_elem_of_fmap. by exists (s, v).
Qed.

Lemma absent_rendered l s : (forall x, x ∈ l.*1 -> x ∈ suffixes /\ Event.lower x <> Event.lower s) ->
  forall rest, first_named (rendered l ++ rest) (prefix ++ s) = first_named rest (prefix ++ s).
Proof.
  intros Hall rest. induction l as [|[t w] l IH]; [done|]. cbn [rendered fmap list_fmap app first_named].
  destruct (Hall t) as [Ht Hne]; [left|]. rewrite header_name_short, strcaseeq_prefix, strcaseeq_lower by done.
  rewrite bool_decide_eq_false_2 by exact Hne. apply IH. intros x Hx. apply Hall. by right.
Qed.

End read_back.

(** What the fields report, as a table; the orders of the two agree. *)
Definition reported (p : switch_caller_profile) : list (bytes * option bytes) :=
  (str "-Direction", Some (direction_text (direction p)))
  :: omap (fun '(suffix, guard, value) => if zstr guard then None else Some (suffix, value)) (field_headers p).

Definition tail_headers (p : switch_caller_profile) : list (bytes * option bytes) :=
  match (match times p with Some t => Some t | None => old_times p end) with
  | Some t => (fun '(suffix, z) => (suffix, Some (Event.dec z))) <$> time_headers t
  | None => []
  end
  ++ [(str "-Screen-Bit", Some (bool_text (test_flag (flags p) SWITCH_CPF_SCREEN)));
      (str "-Privacy-Hide-Name", Some (bool_text (test_flag (flags p) SWITCH_CPF_HIDE_NAME)));
      (str "-Privacy-Hide-Number", Some (bool_text (test_flag (flags p) SWITCH_CPF_HIDE_NUMBER)))].

Lemma omap_fmap_eq {A B C} (f : A -> option B) (g : B -> C) (l : list A) : g <$> omap f l = omap (fun a => g <$> f a) l.
Proof. induction l as [|a l IH]; [done|]. cbn. destruct (f a); cbn; by rewrite IH. Qed.

Lemma profile_headers_eq p prefix :
  profile_headers p prefix = rendered prefix (reported p) ++ ((fun '(var, val) => (var, Some val)) <$> soft p) ++ rendered prefix (tail_headers p).
Proof.
  unfold profile_headers, rendered, reported, tail_headers. rewrite fmap_cons, omap_fmap_eq, fmap_app. cbn [app]. f_equal. f_equal.
  - apply list_omap_ext, Forall_Forall2_diag, Forall_forall. intros [[s g] v] _. by destruct (zstr g).
  - f_equal. f_equal. destruct (match times p with Some t => Some t | None => old_times p end) as [t|]; [|done].
    by rewrite <-list_fmap_compose.
Qed.

Definition field_suffixes : list bytes := take 20 suffixes.

Lemma reported_suffixes p : (reported p).*1 `sublist_of` field_suffixes.
Proof.
  assert (forall l : list (bytes * option bytes * option bytes),
    (omap (fun '(s, g, v) => if zstr g then None else Some (s, v)) l).*1 `sublist_of` l.*1.*1) as H.
  { induction l as [|[[s g] v] l IH]; [constructor|]. cbn. destruct (zstr g); by constructor. }
  unfold reported. rewrite fmap_cons. constructor. etransitivity; [apply H|]. reflexivity.
Qed.

Lemma tail_suffixes p x : x ∈ (tail_headers p).*1 -> x ∈ drop 20 suffixes.
Proof.
  unfold tail_headers. rewrite fmap_app. intros [Hx|Hx]%elem_of_app.
  - destruct (match times p with Some t => Some t | None => old_times p end) as [t|]; [|by apply not_elem_of_nil in Hx].
    change (drop 20 suffixes) with ((time_headers no_times).*1 ++ drop 31 suffixes). apply elem_of_app. by left.
  - change (drop 20 suffixes) with ((time_headers no_times).*1 ++ drop 31 suffixes). apply elem_of_app. by right.
Qed.

Lemma suffixes_split a b : a ∈ field_suffixes -> b ∈ drop 20 suffixes -> Event.lower a <> Event.lower b.
Proof.
  intros Ha Hb Heq. pose proof (proj1 suffixes_ok) as Hnd. rewrite <-(take_drop 20 suffixes), fmap_app in Hnd.
  apply NoDup_app in Hnd as (_ & Hnd & _). apply (Hnd (Event.lower a)); apply list_elem_of_fmap; [by exists a|by exists b].
Qed.

(** A profile whose fields can be put into headers as they are. *)
Definition fields_plain (p : switch_caller_profile) : Prop :=
  Forall (fun '(s, g, v) => zstr g = false -> exists x, v = Some x /\ x <> [] /\ Event.plain_data x) (field_headers p) /\ soft p = [].

Lemma profile_headers_ok p prefix : zlen prefix <= 900 -> strchr prefix 91 = None -> fields_plain p ->
  Forall header_ok (profile_headers p prefix).
Proof.
  intros Hlen Hidx [Hp Hsoft]. rewrite profile_headers_eq, Hsoft. cbn [fmap list_fmap app].
  assert (forall s, s ∈ suffixes -> Event.plain_name (header_name prefix s)) as Hname
    by (intros s Hs; rewrite header_name_short by done; by apply header_name_plain).
  assert (forall l, Forall (fun '(s, v) => s ∈ suffixes /\ exists x, v = Some x /\ x <> [] /\ Event.plain_data x) l ->
    Forall header_ok (rendered prefix l)) as Hl.
  { intros l H. apply Forall_fmap. eapply Forall_impl; [exact H|]. intros [s v] [Hs Hv]. by split; [apply Hname|]. }
  apply Forall_app. split; apply Hl.
  - apply Forall_cons. split; [split; [left|eexists; split; [done|by destruct (direction p)]]|].
    apply Forall_forall. intros [s v] Hin. split.
    { eapply elem_of_sublist; [|etransitivity; [apply (reported_suffixes p)|apply sublist_take]]. right.
      apply list_elem_of_fmap. by exists (s, v). }
    apply list_elem_of_omap in Hin as ([[s' g] v'] & Hin & Hz). destruct (zstr g) eqn:Hg; [done|]. injection Hz as -> ->.
    exact (proj1 (Forall_forall _ _) Hp _ Hin Hg).
  - apply Forall_forall. intros [s v] Hin. split.
    { eapply elem_of_sublist; [apply (tail_suffixes p), list_elem_of_fmap; by exists (s, v)|apply sublist_drop]. }
    unfold tail_headers in Hin. apply elem_of_app in Hin as [Hin|Hin].
    + destruct (match times p with Some t => Some t | None => old_times p end) as [t|]; [|by apply not_elem_of_nil in Hin].
      apply list_elem_of_fmap in Hin as ([s' z] & [= -> ->] & _). eexists. split; [done|]. split; [apply Event.dec_nonempty|apply Event.dec_plain].
    + assert (forall b, bool_text b <> [] /\ Event.plain_data (bool_text b)) as Hb by (by intros []).
      repeat (apply elem_of_cons in Hin as [[= -> ->]|Hin]; [by eexists|]). by apply not_elem_of_nil in Hin.
Qed.

Lemma get_header_content ev name : Event.ev_wf ev -> name <> str "_body" ->
  Event.switch_event_get_header ev name = first_named (Event.content <$> Event.headers ev) name.
Proof.
  intros Hwf Hn. rewrite <-find_content. unfold Event.switch_event_get_header, Event.switch_event_get_header_idx.
  rewrite Event.get_ptr_named by done. destruct (List.find _ _); [done|]. cbn. unfold streq. by rewrite bool_decide_eq_false_2.
Qed.

Lemma fields_nodup p : NoDup (Event.lower <$> str "-Direction" :: (field_headers p).*1.*1).
Proof. exact (sublist_NoDup _ _ (proj1 suffixes_ok) (fmap_sublist Event.lower _ _ (sublist_take suffixes 20))). Qed.

(** Two entries of the table of fields with names that differ at most by case are the same. *)
Lemma fields_unique p a b : a ∈ field_headers p -> b ∈ field_headers p -> Event.lower a.1.1 = Event.lower b.1.1 -> a = b.
Proof.
  intros Ha Hb Heq. apply list_elem_of_lookup in Ha as [i Hi], Hb as [j Hj].
  assert (i = j) as ->; [|congruence]. pose proof (fields_nodup p) as Hnd. rewrite fmap_cons in Hnd. apply NoDup_cons in Hnd as [_ Hnd].
  eapply (NoDup_lookup _ i j (Event.lower a.1.1) Hnd).
  - by rewrite !list_lookup_fmap, Hi.
  - by rewrite !list_lookup_fmap, Hj, Heq.
Qed.

Lemma first_reported p prefix suffix value : zlen prefix <= 900 -> (suffix, value, value) ∈ field_headers p -> suffix ∈ field_suffixes ->
  first_named (rendered prefix (reported p) ++ rendered prefix (tail_headers p)) (prefix ++ suffix) = if zstr value then None else value.
Proof.
  intros Hlen Hin Hf. assert (forall x, x ∈ (reported p).*1 -> x ∈ suffixes) as Hr.
  { intros x Hx. eapply elem_of_sublist; [exact Hx|]. etransitivity; [apply reported_suffixes|apply sublist_take]. }
  assert (suffix ∈ suffixes) as Hs by (eapply elem_of_sublist; [exact Hf|apply sublist_take]).
  destruct (zstr value) eqn:Hz.
  - rewrite absent_rendered, <-(app_nil_r (rendered prefix (tail_headers p))), absent_rendered; try done.
    + intros x Hx%tail_suffixes. split; [eapply elem_of_sublist; [exact Hx|apply sublist_drop]|].
      intros Heq. by apply (suffixes_split suffix x).
    + intros x Hx. split; [by apply Hr|]. intros Heq. unfold reported in Hx. rewrite fmap_cons in Hx.
      apply elem_of_cons in Hx as [-> |Hx].
      * pose proof (fields_nodup p) as Hnd. rewrite fmap_cons in Hnd. apply NoDup_cons in Hnd as [Hnd _]. apply Hnd. cbn [fst] in Heq. rewrite Heq.
        apply list_elem_of_fmap. exists suffix. split; [done|]. apply list_elem_of_fmap. exists (suffix, value). split; [done|].
        apply list_elem_of_fmap. by exists (suffix, value, value).
      * apply list_elem_of_fmap in Hx as ([s v] & -> & Hx). apply list_elem_of_omap in Hx as ([[s' g] v'] & Hx & Hg).
        destruct (zstr g) eqn:Hg'; [done|]. injection Hg as -> ->.
        pose proof (fields_unique p _ _ Hx Hin Heq) as [= _ -> _]. congruence.
  - apply first_rendered; try done.
    + eapply sublist_NoDup; [exact (proj1 suffixes_ok)|]. apply fmap_sublist. etransitivity; [apply reported_suffixes|apply sublist_take].
    + right. apply list_elem_of_omap. exists (suffix, value, value). by rewrite Hz.
Qed.

(** The fields of a profile can be read back from the event that reports
    it.  For an event that has no such headers yet, the header of a field holds
    the value of the field if that is not empty, and is absent if it is; this
    holds for every field whose own value decides whether it is reported. *)
Theorem profile_event_read_back p prefix ev suffix value :
  zlen prefix <= 900 -> strchr prefix 91 = None -> fields_plain p ->
  Event.ev_wf ev -> test_flag (Event.flags ev) Event.EF_UNIQ_HEADERS = false ->
  (suffix, value, value) ∈ field_headers p ->
  existsb (fun nv => strcaseeq nv.1 (prefix ++ suffix)) (Event.content <$> Event.headers ev) = false ->
  Event.switch_event_get_header (switch_caller_profile_event_set_data p prefix ev) (prefix ++ suffix)
  = if zstr value then None else value.
Proof.
  intros Hlen Hidx Hp Hwf Hu Hin Habs. assert (suffix ∈ field_suffixes) as Hf.
  { change field_suffixes with (str "-Direction" :: (field_headers p).*1.*1). right. apply list_elem_of_fmap. exists (suffix, value).
    split; [done|]. apply list_elem_of_fmap. by exists (suffix, value, value). }
  assert (suffix ∈ suffixes) as Hs by (eapply elem_of_sublist; [exact Hf|apply sublist_take]).
  destruct (add_headers_content (profile_headers p prefix) ev Hwf Hu) as [W C]; [by apply profile_headers_ok|].
  unfold switch_caller_profile_event_set_data. rewrite get_header_content by (done || by apply header_name_plain).
  rewrite C, first_named_app, Habs, profile_headers_eq, (proj2 Hp). cbn [fmap list_fmap app]. by apply first_reported.
Qed.

(** ** Profiles behind channel variables *)

(** What a look-up of a variable reads of the profiles. *)
Definition field (p : switch_caller_profile) (name : bytes) : option bytes := default None (switch_caller_get_field_by_name p name).

Definition channel_externals (core_variable : bytes -> option bytes) (c : chan_profiles) : ChannelVars.externals :=
  match switch_channel_get_caller_profile c with
  | Some (p, a, b) => ChannelVars.Externals (Some (field p)) (field <$> a) (field <$> b) core_variable
  | None => ChannelVars.Externals None None None core_variable
  end.

(** A leg reads the profile of its originator with the prefix aleg_, unless a
    variable of that name is set. *)
Lemma originator_visible core vs p c c' name :
  ChannelVars.variables vs = None -> ChannelVars.scope_variables vs = [] ->
  (forall e, head (profiles c) = Some e -> hunt e = None) -> timed p ->
  switch_channel_set_originator_caller_profile p c = Some c' ->
  ChannelVars.switch_channel_get_variable (channel_externals core c') vs (str "aleg_" ++ name)
  = match field p name with Some v => Some v | None => core name end.
Proof.
  intros Hv Hsc Hhunt [t Ht] Hc'. unfold switch_channel_set_originator_caller_profile, update_top in Hc'. rewrite Ht in Hc'.
  destruct (profiles c) as [|e rest] eqn:Hp; [done|]. injection Hc' as <-. specialize (Hhunt e eq_refl).
  unfold ChannelVars.switch_channel_get_variable, ChannelVars.switch_channel_get_variable_dup. rewrite Hv, Hsc. cbn [ChannelVars.first_scope mbind option_bind].
  unfold channel_externals, switch_channel_get_caller_profile. cbn [profiles head mbind option_bind hunt]. rewrite Hhunt.
  reflexivity.
Qed.

(** ** Instances of the theorems *)

Definition sample_profile : switch_caller_profile :=
  switch_caller_profile_new (str "11") (Some (str "bob")) (Some (str "XML")) (Some (str "Bob ${uuid_kill(x)}")) (Some (str "1000"))
    (Some (str "10.0.0.1")) None None None (Some (str "mod_sofia")) None (Some (str "2000")).

Definition sample_info : chan_info :=
  ChanInfo SWITCH_CALL_DIRECTION_INBOUND SWITCH_CALL_DIRECTION_INBOUND (str "u-1") (Some (str "sofia/1000")) 7.

Lemma profile_fields_clean_witness :
  switch_caller_get_field_by_name sample_profile (str "Caller_ID_Name") = Some (Some (str "Bob %{uuid_kill(x)}"))
  /\ ChannelVars.switch_string_var_check_const (str "Bob %{uuid_kill(x)}") = false.
Proof.
  split; [vm_compute; reflexivity|].
  eapply (profile_fields_clean (str "11") (str "12") (Some (str "bob")) (Some (str "XML")) (Some (str "Bob ${uuid_kill(x)}")) (Some (str "1000"))
    (Some (str "10.0.0.1")) None None None (Some (str "mod_sofia")) None (Some (str "2000")) (str "Caller_ID_Name")).
  left. vm_compute. reflexivity.
Defined.

Lemma profile_dup_round_trip_witness :
  switch_caller_get_field_by_name (switch_caller_profile_dup (str "12") sample_profile) (str "destination_number") = Some (Some (str "2000")).
Proof.
  apply (profile_dup_round_trip (str "12") sample_profile (str "destination_number") (str "2000"));
    [vm_compute; reflexivity|apply (bool_decide_unpack _); vm_compute; exact I].
Defined.

(** An extension of three applications, the first of them executed. *)
Definition sample_extension : option switch_caller_extension :=
  e ← switch_caller_extension_add_application (switch_caller_extension_new (Some (str "ext")) (Some (str "2000"))) (Some (str "answer")) None;
  e ← switch_caller_extension_add_application e (Some (str "playback")) (Some (str "x.wav"));
  e ← switch_caller_extension_add_application e (Some (str "hangup")) None;
  Some (next_application e).

Lemma extension_clone_continues_witness :
  exists e, sample_extension = Some e
    /\ remaining (switch_caller_extension_clone e) = [Application (Some (str "playback")) (Some (str "x.wav")); Application (Some (str "hangup")) None].
Proof.
  assert (exists e, sample_extension = Some e /\ ext_wf e) as (e & He & W).
  { eexists. split; [vm_compute; reflexivity|]. split; [reflexivity|intros i [= <-]; cbn; lia]. }
  exists e. split; [exact He|]. destruct (extension_clone_continues e None None W) as (_ & _ & -> & _).
  vm_compute in He. injection He as <-. vm_compute. reflexivity.
Defined.

(** The profile set, stepped, and given an originator. *)
Definition sample_stack : option chan_profiles :=
  c ← switch_channel_set_caller_profile sample_info sample_profile no_profiles;
  c ← switch_channel_set_originator_caller_profile (switch_caller_profile_dup (str "13") sample_profile) c;
  switch_channel_step_caller_profile sample_info (str "14") c.

Lemma profile_lookup_defined_witness :
  exists c, sample_stack = Some c
    /\ Forall (fun e => is_Some (switch_caller_get_field_by_name (prof e) (str "created_time"))
         /\ Forall (fun p => is_Some (switch_caller_get_field_by_name p (str "created_time"))) (originators e)) (profiles c)
    /\ exists p a b, switch_channel_get_caller_profile c = Some (p, a, b) /\ is_Some (switch_caller_get_field_by_name p (str "created_time")).
Proof.
  destruct (switch_channel_set_caller_profile sample_info sample_profile no_profiles) as [c1|] eqn:H1; [|discriminate].
  destruct (switch_channel_set_originator_caller_profile (switch_caller_profile_dup (str "13") sample_profile) c1) as [c2|] eqn:H2;
    [|vm_compute in H1; injection H1 as <-; discriminate].
  destruct (switch_channel_step_caller_profile sample_info (str "14") c2) as [c3|] eqn:H3;
    [|vm_compute in H1; injection H1 as <-; vm_compute in H2; injection H2 as <-; discriminate].
  exists c3. split; [unfold sample_stack; rewrite H1; cbn [mbind option_bind]; rewrite H2; exact H3|].
  destruct (profile_lookup_defined c3 (str "created_time")) as (Hall & Hget & _).
  { eapply rtc_l; [exact (step_set _ _ _ _ H1)|]. eapply rtc_l; [exact (step_originator _ _ _ H2)|].
    apply rtc_once. exact (step_step _ _ _ _ H3). }
  split; [exact Hall|]. clear Hall. vm_compute in H1. injection H1 as <-. vm_compute in H2. injection H2 as <-.
  vm_compute in H3. injection H3 as <-. eexists _, _, _. split; [reflexivity|]. exact (proj1 (Hget _ _ _ _ eq_refl eq_refl eq_refl)).
Defined.

Lemma originatee_time_crashes_witness :
  exists c c', switch_channel_set_caller_profile sample_info sample_profile no_profiles = Some c
    /\ switch_channel_set_originatee_caller_profile (switch_caller_profile_dup (str "13") sample_profile) c = Some c'
    /\ switch_caller_get_field_by_name (switch_caller_profile_dup (str "13") sample_profile) (str "answered_time") = None.
Proof.
  destruct (switch_channel_set_caller_profile sample_info sample_profile no_profiles) as [c|] eqn:H1; [|discriminate].
  destruct (switch_channel_set_originatee_caller_profile (switch_caller_profile_dup (str "13") sample_profile) c) as [c'|] eqn:H2;
    [|vm_compute in H1; injection H1 as <-; discriminate].
  exists c, c'. split; [reflexivity|]. split; [exact H2|]. exact (proj2 (originatee_time_crashes (str "13") sample_profile c c' H2)).
Defined.

Lemma transfers_keep_call_witness :
  exists c c' t', switch_channel_set_caller_profile sample_info sample_profile no_profiles = Some c
    /\ transfers [StepProfile sample_info (str "14"); SetProfile sample_info sample_profile] c = Some c'
    /\ current_profile c' t' None /\ call_times t' = (7, 0, 0, 0, 0).
Proof.
  destruct (switch_channel_set_caller_profile sample_info sample_profile no_profiles) as [c|] eqn:H1; [|discriminate].
  assert (current_profile c (Timetable 7 7 0 0 0 0 0 0 0 0 0) None) as Hc.
  { vm_compute in H1. injection H1 as <-. eexists. split; [reflexivity|]. split; [reflexivity|]. split; [reflexivity|discriminate]. }
  destruct (transfers [StepProfile sample_info (str "14"); SetProfile sample_info sample_profile] c) as [c'|] eqn:H2;
    [|vm_compute in H1; injection H1 as <-; discriminate].
  destruct (transfers_keep_call _ c c' _ None Hc H2) as (t' & H3 & H4). exists c, c', t'.
  split; [reflexivity|]. split; [exact H2|]. split; [exact H3|exact H4].
Defined.

Lemma profile_event_read_back_witness :
  Event.switch_event_get_header (switch_caller_profile_event_set_data sample_profile (str "Caller") Event.blank_event)
    (str "Caller" ++ str "-Destination-Number") = Some (str "2000").
Proof.
  rewrite (profile_event_read_back sample_profile (str "Caller") Event.blank_event (str "-Destination-Number") (Some (str "2000")));
    [reflexivity|vm_compute; discriminate|reflexivity| |exact Event.blank_event_wf|reflexivity
    |apply (bool_decide_unpack _); vm_compute; exact I|reflexivity].
  split; [|reflexivity]. unfold field_headers.
  repeat (apply Forall_cons; split; [intros Hz; first [discriminate Hz|eexists; split; [reflexivity|split; [discriminate|reflexivity]]]|]).
  constructor.
Defined.

End Caller.
