(* ===== verification/StateMachine.v ===== *)
(** * The session's state machine

    src/lib/libfreeswitch/switch_core_state_machine.c: the STATE_MACRO that runs
    the handlers of a state, the session thread switch_core_session_run, the
    hangup, reporting and destroy states and the standard handlers for hangup,
    reset and execute.

    A [session] has a [Channel.channel].  Everything the machine calls outside
    of the file (the endpoint's, the channel's and the core's state handlers,
    applications, hooks, presence, message parsing) goes through the class
    [Services]: which handlers are present, and what a call does to the session.
    Every such call is recorded in the session's [calls]. *)

From S2P Require Import Prelude CString Tokenizer Event ChannelNames ChannelVars Channel.
Import CString ChannelNames Channel.

Module StateMachine.

(** ** Sessions and services *)

(** Whose state handler is called. *)
Inductive party := Driver | ChannelHandler (h : state_handler) | CoreHandler (h : state_handler).

Inductive call :=
| OnState (who : party) (st : switch_channel_state)
| StandardHandler (st : switch_channel_state)
| StateRun
| StateRunHook (i : nat)
| ParseMessages
| ParseEvents
| WaitBlockState
| Yield
| CondWait
| Presence (status : bytes)
| FireCreate
| FireOriginate
| FireHangupComplete (cause : bytes)
| Execute (name data : bytes)
| RecoveryUntrack
| SetHangupTime
| RemoveMediaBugs
| StopBroadcast
| SetTimestamps
| ProcessDeviceHangup
| ClearDeviceRecord
| ApiHook (cmd : bytes) (arg : option bytes) (use_session : bool)
| BlindTransferResponse (uuid : bytes).

#[export] Instance party_eq_dec : EqDecision party.
Proof. solve_decision. Defined.
#[export] Instance call_eq_dec : EqDecision call.
Proof. solve_decision. Defined.

Definition application : Type := bytes * bytes.

(** [ssf_hangup]: the flag SSF_HANGUP; [extension]: the address of the caller
    extension, if the channel has one; [extensions]: for each extension, the
    applications from current_application on.  A loop over an extension keeps
    its address while a called application may give the channel another one. *)
Record session := Session {
  chan : channel;
  ssf_hangup : bool;
  extension : option Z;
  extensions : gmap Z (list application);
  calls : list call
}.

Definition set_chan (c : channel) (s : session) : session :=
  Session c (ssf_hangup s) (extension s) (extensions s) (calls s).
Definition set_ssf_hangup (s : session) : session := Session (chan s) true (extension s) (extensions s) (calls s).
Definition log (k : call) (s : session) : session :=
  Session (chan s) (ssf_hangup s) (extension s) (extensions s) (calls s ++ [k]).

(** The application an extension is at, and the step to the next one. *)
Definition current_application (s : session) (ext : Z) : list application := default [] (extensions s !! ext).
Definition advance (ext : Z) (apps : list application) (s : session) : session :=
  Session (chan s) (ssf_hangup s) (extension s) (<[ext := apps]> (extensions s)) (calls s).

(** Does the handler table of the party have an entry for the state; what does
    a call do and answer ([None]: the program crashes). *)
Class Services := {
  has_handler : party -> switch_channel_state -> bool;
  external : call -> session -> option (session * switch_status)
}.

(** The parts of the configuration and the session the file reads. *)
Record config := Config {
  env : session_env;
  uuid_str : bytes;
  core_handlers : list state_handler;
  state_run : bool;
  state_run_hooks : nat;
  scf_early_hangup : bool;
  own_thread : bool;
  originator_profile : bool;
  originatee_profile : bool;
  codecs : bool;
  locatable : bytes -> bool
}.

Section machine.
Context `{SV : Services} (cfg : config).

Definition invoke (k : call) (s : session) : option (session * switch_status) := external k (log k s).
Definition invoke_ (k : call) (s : session) : option session := fst <$> invoke k s.

(** A channel operation of the session's channel. *)
Definition on_chan (f : channel -> option channel) (s : session) : option session :=
  c ← f (chan s); Some (set_chan c s).

Definition set_var (name : bytes) (value : option bytes) (s : session) : session :=
  set_chan (set_variable name value (chan s)) s.

Definition get_var (s : session) (name : bytes) : option bytes := get_variable (env cfg) (chan s) name.

(** ** STATE_MACRO *)

(** Call a handler, if there is one: may the next in line proceed? *)
Definition handler_ok (who : party) (st : switch_channel_state) (s : session) : option (session * bool) :=
  if has_handler who st then
    '(s, r) ← invoke (OnState who st) s;
    Some (s, bool_decide (r = SWITCH_STATUS_SUCCESS))
  else Some (s, true).

(** The channel's handlers, read from the table one index at a time; the table
    has no entry from index 30 on, which bounds the loop. *)
Fixpoint channel_loop (fuel : nat) (st : switch_channel_state) (index : Z) (s : session) : option (session * bool) :=
  match fuel with
  | O => Some (s, true)
  | S fuel =>
    match switch_channel_get_state_handler (chan s) index with
    | None => Some (s, true)
    | Some h =>
      '(s, ok) ← handler_ok (ChannelHandler h) st s;
      if (ok : bool) then channel_loop fuel st (index + 1) s else Some (s, false)
    end
  end.

Fixpoint core_loop (hs : list state_handler) (st : switch_channel_state) (s : session) : option (session * bool) :=
  match hs with
  | [] => Some (s, true)
  | h :: hs =>
    '(s, ok) ← handler_ok (CoreHandler h) st s;
    if (ok : bool) then core_loop hs st s else Some (s, false)
  end.

(** [name]: the state whose handlers run; [st]: the variable [state] of the
    function the macro is used in. *)
Definition state_macro (name st : switch_channel_state) (standard : session -> option session) (do_extra_handlers : bool)
  (s : session) : option session :=
  let s := if (cs st <? cs CS_HANGUP) && bool_decide (callstate (chan s) = CCS_UNHELD)
           then set_chan (switch_channel_perform_set_callstate CCS_ACTIVE (chan s)) s else s in
  '(s, driver_ok) ← handler_ok Driver name s;
  if negb driver_ok then Some s
  else
    '(s, ok1) ← (if do_extra_handlers then channel_loop 30 name 0 s else Some (s, true));
    '(s, ok2) ← (if do_extra_handlers then core_loop (core_handlers cfg) name s else Some (s, true));
    if (ok1 : bool) && (ok2 : bool) && bool_decide (st = state (chan s)) then standard (log (StandardHandler name) s)
    else Some s.

(** ** Hangup *)

(** Applications left over run when the channel asked for it.  An application
    may add others to the extension, so the loop has [fuel]; [None] when it is
    used up. *)
Fixpoint zombie_loop (fuel : nat) (ext : Z) (s : session) : option session :=
  match fuel with
  | O => None
  | S fuel =>
    match current_application s ext with
    | (name, data) :: apps =>
      '(s, r) ← invoke (Execute name data) (advance ext apps s);
      if bool_decide (r = SWITCH_STATUS_SUCCESS) || bool_decide (r = SWITCH_STATUS_IGNORE) then zombie_loop fuel ext s else Some s
    | [] => Some s
    end
  end.

Definition switch_core_standard_on_hangup (fuel : nat) (s : session) : option session :=
  let rec_ := flag_set (chan s) CF_RECOVERING in
  s ← on_chan (switch_channel_clear_flag (env cfg) CF_RECOVERING) s;
  s ← (if rec_ then Some s else invoke_ RecoveryUntrack s);
  if flag_set (chan s) CF_ZOMBIE_EXEC
  then match extension s with Some ext => zombie_loop fuel ext s | None => Some s end
  else Some s.

(** The command line of a hook: "cmd::arg" or "cmd arg". *)
Definition split_hook (cmd : bytes) : bytes * option bytes :=
  match strchr cmd 58 with
  | Some i =>
    if bool_decide (zdrop (i + 1) cmd !! 0%nat = Some 58) then (ztake i cmd, Some (zdrop (i + 2) cmd))
    else match strchr cmd 32 with
         | Some j => (ztake j cmd, Some (zdrop (j + 1) cmd))
         | None => (cmd, None)
         end
  | None =>
    match strchr cmd 32 with
    | Some j => (ztake j cmd, Some (zdrop (j + 1) cmd))
    | None => (cmd, None)
    end
  end.

Definition api_hook (hook_var : option bytes) (use_session : bool) (s : session) : option session :=
  match hook_var with
  | None | Some [] => Some s
  | Some v => let '(cmd, arg) := split_hook v in invoke_ (ApiHook cmd arg use_session) s
  end.

(** The hook of a variable, run in the session if another variable says so. *)
Definition variable_hook (name : bytes) (s : session) : option session :=
  match get_var s name with
  | None => Some s
  | Some hook_var => api_hook (Some hook_var) (switch_true (get_var s (str "session_in_hangup_hook"))) s
  end.

Definition switch_core_session_hangup_state (fuel : nat) (force : bool) (s : session) : option session :=
  let cause := hangup_cause (chan s) in
  let st := state (chan s) in
  if negb force && ((negb (flag_set (chan s) CF_EARLY_HANGUP) && negb (scf_early_hangup cfg)) || negb (own_thread cfg))
  then Some s
  else if ssf_hangup s then Some s
  else
    s ← invoke_ SetHangupTime s;
    s ← invoke_ RemoveMediaBugs s;
    s ← invoke_ StopBroadcast s;
    let s := set_var (str "hangup_cause") (Some (switch_channel_cause2str cause)) s in
    let s := set_var (str "hangup_cause_q850") (Some (Event.dec (switch_channel_cause_q850 cause))) s in
    s ← invoke_ SetTimestamps s;
    let s := set_chan (switch_channel_perform_set_callstate CCS_HANGUP (chan s)) s in
    s ← state_macro CS_HANGUP st (switch_core_standard_on_hangup fuel) true s;
    s ← variable_hook (str "api_hangup_hook") s;
    s ← invoke_ ProcessDeviceHangup s;
    Some (set_ssf_hangup s).

(** switch_channel_hangup on the session's channel: the channel asks for the
    hangup state when it has just been taken down. *)
Definition session_hangup (fuel : nat) (cause : Z) (s : session) : option session :=
  c ← switch_channel_perform_hangup (env cfg) cause (chan s);
  let fresh := (hangups (trace (chan s)) <? hangups (trace c))%nat in
  let s := set_chan c s in
  if fresh then switch_core_session_hangup_state fuel false s else Some s.

(** ** Reporting and destruction *)

(** [None]: switch_separate_string ran over the end of the list. *)
Definition cause_listed (skip_var : option bytes) (cause : Z) : option bool :=
  match skip_var with
  | None | Some [] => Some false
  | Some v =>
    l ← Tokenizer.switch_separate_string v 124 128;
    Some (existsb (fun c => switch_channel_str2cause c =? cause) l)
  end.

(** Do the handlers that write call detail records run? *)
Definition cdr_handlers (s : session) : option bool :=
  let var := get_var s (str "process_cdr") in
  let by_var :=
    match var with
    | None | Some [] => true
    | Some v =>
      if strcaseeq v (str "a_only") then negb (originator_profile cfg)
      else if strcaseeq v (str "b_only") then negb (originatee_profile cfg)
      else switch_true var
    end in
  listed ← cause_listed (get_var s (str "skip_cdr_causes")) (hangup_cause (chan s));
  Some (by_var && negb listed && negb (flag_set (chan s) CF_NO_CDR)).

Definition switch_core_session_reporting_state (s : session) : option session :=
  let st := state (chan s) in
  let cause := hangup_cause (chan s) in
  if flag_set (chan s) CF_REPORTING then Some s
  else
    s ← on_chan (switch_channel_set_flag (env cfg) CF_REPORTING) s;
    do_extra_handlers ← cdr_handlers s;
    s ← state_macro CS_REPORTING st Some do_extra_handlers s;
    s ← variable_hook (str "api_reporting_hook") s;
    invoke_ (FireHangupComplete (switch_channel_cause2str cause)) s.

Definition switch_core_session_destroy_state (s : session) : option session :=
  let s := set_chan (switch_channel_perform_set_callstate CCS_DOWN (chan s)) s in
  s ← on_chan (switch_channel_perform_set_running_state (env cfg) CS_DESTROY) s;
  s ← on_chan (switch_channel_clear_flag (env cfg) CF_TRANSFER) s;
  s ← on_chan (switch_channel_clear_flag (env cfg) CF_REDIRECT) s;
  s ← state_macro CS_DESTROY CS_DESTROY Some true s;
  invoke_ ClearDeviceRecord s.

(** ** Execution *)

(** The loop over the applications; the flag CF_RESET restarts it with the
    extension the channel has then.  [None] as well when [fuel] is used up. *)
Inductive execute_end := ExecuteDone | ExecuteStopped | ExecuteTop.

Fixpoint execute_loop (fuel : nat) (ext : Z) (s : session) : option (session * execute_end) :=
  match fuel with
  | O => None
  | S fuel =>
    if bool_decide (state (chan s) = CS_EXECUTE) then
      match current_application s ext with
      | (name, data) :: apps =>
        '(s, r) ← invoke (Execute name data) (advance ext apps s);
        if negb (bool_decide (r = SWITCH_STATUS_SUCCESS)) then Some (s, ExecuteStopped)
        else if flag_set (chan s) CF_RESET then Some (s, ExecuteTop)
        else execute_loop fuel ext s
      | _ => Some (s, ExecuteDone)
      end
    else Some (s, ExecuteDone)
  end.

(** [resets]: how often CF_RESET may restart the loop; [None] as well when it
    is used up. *)
Fixpoint execute_top (resets fuel : nat) (s : session) : option (session * bool) :=
  match resets with
  | O => None
  | S resets =>
    s ← on_chan (switch_channel_clear_flag (env cfg) CF_RESET) s;
    match extension s with
    | None => s ← session_hangup fuel SWITCH_CAUSE_NORMAL_CLEARING s; Some (s, false)
    | Some ext =>
      '(s, e) ← execute_loop fuel ext s;
      match e with
      | ExecuteTop => execute_top resets fuel s
      | ExecuteStopped => Some (s, false)
      | ExecuteDone => Some (s, true)
      end
    end
  end.

Definition channel_ready (s : session) : bool := switch_channel_test_ready (env cfg) (codecs cfg) true false (chan s).

(** The answer to a confirmed blind transfer. *)
Definition transfer_response (s : session) : option session :=
  match get_var s (str "blind_transfer_uuid") with
  | Some uuid =>
    if channel_ready s && bool_decide (state (chan s) = CS_EXECUTE) && flag_set (chan s) CF_CONFIRM_BLIND_TRANSFER
       && locatable cfg uuid
    then
      s ← invoke_ (BlindTransferResponse uuid) s;
      let s := set_var (str "park_timeout") (Some (str "10:blind_transfer")) s in
      s ← on_chan (switch_channel_perform_set_state CS_PARK) s;
      on_chan (switch_channel_clear_flag (env cfg) CF_CONFIRM_BLIND_TRANSFER) s
    else Some s
  | None => Some s
  end.

Definition switch_core_standard_on_execute (resets fuel : nat) (s : session) : option session :=
  let s := set_var (str "call_uuid") (Some (uuid_str cfg)) s in
  s ← (if bool_decide (is_Some (get_var s (str "recovered"))) && negb (flag_set (chan s) CF_RECOVERED)
       then on_chan (switch_channel_set_flag (env cfg) CF_RECOVERED) s else Some s);
  '(s, finished) ← execute_top resets fuel s;
  if negb finished then Some s
  else
    s ← transfer_response s;
    if channel_ready s && bool_decide (state (chan s) = CS_EXECUTE)
    then session_hangup fuel SWITCH_CAUSE_NORMAL_CLEARING s else Some s.

Definition switch_core_standard_on_reset (s : session) : option session :=
  Some (set_var (str "call_uuid") (Some (uuid_str cfg)) s).

(** The standard handlers; routing and parking belong to the dialplan and IVR
    components and are services here. *)
Definition standard_on (resets fuel : nat) (st : switch_channel_state) (s : session) : option session :=
  match st with
  | CS_RESET => switch_core_standard_on_reset s
  | CS_EXECUTE => switch_core_standard_on_execute resets fuel s
  | CS_ROUTING | CS_PARK => fst <$> external (StandardHandler st) s
  | _ => Some s
  end.

(** ** The session thread *)

(** The state_run routine of the endpoint and the state_run hooks. *)
Fixpoint run_hooks (n i : nat) (s : session) : option session :=
  match n with
  | O => Some s
  | S n =>
    '(s, r) ← invoke (StateRunHook i) s;
    if bool_decide (r = SWITCH_STATUS_SUCCESS) then run_hooks n (S i) s else Some s
  end.

Definition state_run_hooks_ (s : session) : option session :=
  '(s, r) ← (if state_run cfg then invoke StateRun s else Some (s, SWITCH_STATUS_SUCCESS));
  if bool_decide (r = SWITCH_STATUS_SUCCESS) then run_hooks (state_run_hooks cfg) 0 s else Some s.

Definition check_presence (s : session) : option session :=
  let st := running_state (chan s) in
  if bool_decide (st = CS_ROUTING) || bool_decide (st = CS_HANGUP) then
    if hangup_cause (chan s) =? 502 then
      s ← invoke_ (Presence (str "cancelled")) s;
      Some (set_var (str "presence_call_info") None s)
    else invoke_ (Presence (default [] (switch_channel_state_name st))) s
  else Some s.

(** The switch over the state; [true]: leave the loop. *)
Definition run_state (resets fuel : nat) (st : switch_channel_state) (s : session) : option (session * bool) :=
  match st with
  | CS_NEW => Some (s, false)
  | CS_DESTROY => Some (s, true)
  | CS_REPORTING =>
    s ← switch_core_session_reporting_state s;
    s ← on_chan (switch_channel_perform_set_state CS_DESTROY) s;
    Some (s, true)
  | CS_HANGUP =>
    s ← switch_core_session_hangup_state fuel true s;
    s ← on_chan (switch_channel_perform_set_state CS_REPORTING) s;
    Some (s, false)
  | CS_INIT =>
    s ← state_macro CS_INIT st (standard_on resets fuel CS_INIT) true s;
    s ← invoke_ FireCreate s;
    s ← (if bool_decide (direction (chan s) = SWITCH_CALL_DIRECTION_OUTBOUND) then invoke_ FireOriginate s else Some s);
    Some (s, false)
  | CS_NONE => None
  | _ =>
    s ← state_macro st st (standard_on resets fuel st) true s;
    Some (s, false)
  end.

(** What is done when the state has not been run yet, or the channel is down. *)
Definition enter_state (resets fuel : nat) (st : switch_channel_state) (s : session) : option (session * bool) :=
  if negb (bool_decide (st = running_state (chan s))) || (cs CS_HANGUP <=? cs st) then
    s ← on_chan (switch_channel_perform_set_running_state (env cfg) st) s;
    s ← on_chan (switch_channel_clear_flag (env cfg) CF_TRANSFER) s;
    s ← on_chan (switch_channel_clear_flag (env cfg) CF_REDIRECT) s;
    s ← invoke_ ParseMessages s;
    s ← state_run_hooks_ s;
    '(s, finished) ← run_state resets fuel st s;
    if (finished : bool) then Some (s, true) else s ← check_presence s; Some (s, false)
  else Some (s, false).

Definition settled (s : session) : bool := bool_decide (state (chan s) = running_state (chan s)).

(** Waiting for something to happen: a new channel is given up after its loops
    are used up, any other one sleeps. *)
Definition rest (fuel : nat) (new_loops : Z) (s : session) : option (session * Z) :=
  if negb (settled s) then Some (s, new_loops)
  else if bool_decide (state (chan s) = CS_NEW) then
    s ← invoke_ Yield s;
    s ← invoke_ ParseEvents s;
    let new_loops := u32 (new_loops - 1) in
    if new_loops =? 0 then
      s ← on_chan (switch_channel_set_flag (env cfg) CF_NO_CDR) s;
      s ← session_hangup fuel SWITCH_CAUSE_WRONG_CALL_STATE s;
      Some (s, new_loops)
    else Some (s, new_loops)
  else
    s ← invoke_ ParseEvents s;
    s ← invoke_ ParseEvents s;
    s ← (if settled s then
           s ← on_chan (switch_channel_set_flag (env cfg) CF_THREAD_SLEEPING) s;
           s ← (if settled s then s ← invoke_ ParseEvents s; invoke_ CondWait s else Some s);
           on_chan (switch_channel_clear_flag (env cfg) CF_THREAD_SLEEPING) s
         else Some s);
    s ← invoke_ ParseEvents s;
    s ← invoke_ ParseEvents s;
    Some (s, new_loops).

(** One turn of the loop; [true]: the thread ends. *)
Definition run_turn (resets fuel : nat) (new_loops : Z) (s : session) : option (session * Z * bool) :=
  if bool_decide (state (chan s) = CS_DESTROY) then Some (s, new_loops, true)
  else
    s ← (if flag_set (chan s) CF_BLOCK_STATE then invoke_ WaitBlockState s else Some s);
    if bool_decide (state (chan s) = CS_DESTROY) then Some (s, new_loops, true)
    else
      '(s, finished) ← enter_state resets fuel (state (chan s)) s;
      if (finished : bool) then Some (s, new_loops, true)
      else '(s, new_loops) ← rest fuel new_loops s; Some (s, new_loops, false).

(** [turns]: how often the loop goes around; the flag says whether it ended. *)
Fixpoint run_loop (turns resets fuel : nat) (new_loops : Z) (s : session) : option (session * bool) :=
  match turns with
  | O => Some (s, false)
  | S turns =>
    '(s, new_loops, finished) ← run_turn resets fuel new_loops s;
    if (finished : bool) then Some (s, true) else run_loop turns resets fuel new_loops s
  end.

Definition switch_core_session_run (turns resets fuel : nat) (s : session) : option (session * bool) :=
  run_loop turns resets fuel 500 s.

(** ** Who is called, in which order *)

Definition add_calls (ks : list call) (s : session) : session :=
  Session (chan s) (ssf_hangup s) (extension s) (extensions s) (calls s ++ ks).

Lemma add_calls_nil s : add_calls [] s = s.
Proof. destruct s. unfold add_calls. simpl. by rewrite app_nil_r. Qed.

Lemma add_calls_app a b s : add_calls b (add_calls a s) = add_calls (a ++ b) s.
Proof. unfold add_calls. simpl. by rewrite app_assoc. Qed.

(** A line of handlers is asked one after the other until one of them objects;
    parties without a handler for the state are passed over. *)
Fixpoint ask (name : switch_channel_state) (verdict : party -> bool) (ps : list party) : list call * bool :=
  match ps with
  | [] => ([], true)
  | p :: ps =>
    if has_handler p name then
      if verdict p then let '(ks, ok) := ask name verdict ps in (OnState p name :: ks, ok)
      else ([OnState p name], false)
    else ask name verdict ps
  end.

Section steady.
Context (name : switch_channel_state) (verdict : party -> bool).

(** Handlers that answer and leave the session alone. *)
Hypothesis steady : forall who s,
  external (OnState who name) s = Some (s, if verdict who then SWITCH_STATUS_SUCCESS else SWITCH_STATUS_FALSE).

Lemma handler_ok_ask who s :
  handler_ok who name s = Some (add_calls (ask name verdict [who]).1 s, (ask name verdict [who]).2).
Proof.
  unfold handler_ok, invoke. simpl. destruct (has_handler who name); [|by rewrite add_calls_nil].
  rewrite steady. by destruct (verdict who).
Qed.

Lemma ask_cons p ps : ask name verdict (p :: ps) =
  if (ask name verdict [p]).2 then ((ask name verdict [p]).1 ++ (ask name verdict ps).1, (ask name verdict ps).2)
  else ((ask name verdict [p]).1, false).
Proof.
  simpl. destruct (has_handler p name), (verdict p); simpl; try done; by destruct (ask name verdict ps).
Qed.

Lemma core_loop_ask hs : forall s,
  core_loop hs name s = Some (add_calls (ask name verdict (CoreHandler <$> hs)).1 s, (ask name verdict (CoreHandler <$> hs)).2).
Proof.
  induction hs as [|h hs IH]; intros s; [simpl; by rewrite add_calls_nil|].
  cbn [core_loop]. rewrite handler_ok_ask, fmap_cons, (ask_cons _ (CoreHandler <$> hs)). cbn [mbind option_bind].
  destruct (ask name verdict [CoreHandler h]) as [ks ok]. cbn [fst snd]. destruct ok; [|done].
  rewrite IH. cbn [fst snd]. by rewrite add_calls_app.
Qed.

Lemma channel_loop_ask hs i fuel s :
  handler_table (chan s) hs -> (length hs <= i + fuel)%nat ->
  channel_loop fuel name (Z.of_nat i) s =
    Some (add_calls (ask name verdict (ChannelHandler <$> drop i hs)).1 s, (ask name verdict (ChannelHandler <$> drop i hs)).2).
Proof.
  revert i s. induction fuel as [|fuel IH]; intros i s Ht Hl.
  - rewrite drop_ge by lia. simpl. by rewrite add_calls_nil.
  - cbn [channel_loop]. rewrite (get_handler_table _ hs) by done. destruct (hs !! i) as [h|] eqn:Hi.
    + rewrite (drop_S hs h i) by done. rewrite handler_ok_ask, fmap_cons, (ask_cons _ (ChannelHandler <$> drop (S i) hs)). cbn [mbind option_bind].
      destruct (ask name verdict [ChannelHandler h]) as [ks ok]. cbn [fst snd]. destruct ok; [|done].
      replace (Z.of_nat i + 1) with (Z.of_nat (S i)) by lia. rewrite IH; [|done|lia]. cbn [fst snd]. by rewrite add_calls_app.
    + apply lookup_ge_None in Hi. rewrite drop_ge by lia. simpl. by rewrite add_calls_nil.
Qed.

(** C3: the handlers of a state run in their order and can veto.  The endpoint's
    handler is asked first, and nothing else runs if it objects; then the
    channel's handlers in the order they were added, until one objects; then the
    core's handlers, even after an objection of the channel's, until one objects;
    the standard behaviour runs exactly if nobody objected.  (The handlers are
    any that answer and leave the session as it is; whether a party has one, and
    what it answers, is arbitrary.) *)
Theorem state_macro_order hs standard s :
  handler_table (chan s) hs -> callstate (chan s) <> CCS_UNHELD ->
  let '(k0, ok0) := ask name verdict [Driver] in
  let '(k1, ok1) := ask name verdict (ChannelHandler <$> hs) in
  let '(k2, ok2) := ask name verdict (CoreHandler <$> core_handlers cfg) in
  state_macro name (state (chan s)) standard true s =
    if ok0 then
      if ok1 && ok2 then standard (add_calls (k0 ++ k1 ++ k2 ++ [StandardHandler name]) s)
      else Some (add_calls (k0 ++ k1 ++ k2) s)
    else Some (add_calls k0 s).
Proof.
  intros Ht Hc. unfold state_macro. rewrite (bool_decide_eq_false_2 (callstate _ = _)), andb_false_r by done.
  rewrite handler_ok_ask. cbn [mbind option_bind].
  destruct (ask name verdict [Driver]) as [k0 ok0]. cbn [fst snd].
  assert (handler_table (chan (add_calls k0 s)) hs) as Ht' by done.
  pose proof (channel_loop_ask hs 0 30 _ Ht') as H1. change (Z.of_nat 0) with 0 in H1.
  destruct (ask name verdict (ChannelHandler <$> drop 0 hs)) as [k1 ok1] eqn:E1. rewrite drop_0 in E1. rewrite E1. cbn [fst snd] in *.
  destruct (ask name verdict (CoreHandler <$> core_handlers cfg)) as [k2 ok2] eqn:E2.
  destruct ok0; cbn [negb]; [|done]. rewrite H1 by (destruct Ht; lia). cbn [mbind option_bind].
  rewrite core_loop_ask, E2. cbn [fst snd mbind option_bind].
  rewrite !add_calls_app, bool_decide_eq_true_2 by done. rewrite andb_true_r.
  destruct (ok1 && ok2); [|done]. unfold add_calls, log. simpl. by rewrite <-!app_assoc.
Qed.
End steady.

(** ** The end of a session *)

(** How often the endpoint was told of the hangup. *)
Definition hangup_calls (ks : list call) : nat := length (filter (fun k => k = OnState Driver CS_HANGUP) ks).

Lemma hangup_calls_app a b : hangup_calls (a ++ b) = (hangup_calls a + hangup_calls b)%nat.
Proof. unfold hangup_calls. by rewrite filter_app, length_app. Qed.

(** Flags without side effects. *)
Definition plain_flag (f : switch_channel_flag) : bool :=
  match f with
  | CF_LEG_HOLDING | CF_DIALPLAN | CF_ORIGINATOR | CF_OUTBOUND | CF_RECOVERED => false
  | _ => true
  end.

Lemma clear_plain_flag e f c : plain_flag f = true -> switch_channel_clear_flag e f c = Some (put_flag f 0 c).
Proof. intros H. by destruct f. Qed.

Lemma set_plain_flag e f v c : plain_flag f = true -> switch_channel_set_flag_value e f v c = Some (put_flag f v c).
Proof. intros H. by destruct f. Qed.

(** Setting the running state or the call state leaves the variables alone. *)
Lemma set_callstate_cvars v c : cvars (switch_channel_perform_set_callstate v c) = cvars c.
Proof. unfold switch_channel_perform_set_callstate. by destruct (_ || _). Qed.

Lemma running_state_cvars e st c c' : switch_channel_perform_set_running_state e st c = Some c' -> cvars c' = cvars c.
Proof.
  unfold switch_channel_perform_set_running_state. rewrite clear_plain_flag by done. cbn [mbind option_bind].
  assert (cvars (promote_state_flags c) = cvars c) as Hp by (unfold promote_state_flags; by repeat case_match).
  destruct (cs st <=? cs CS_DESTROY); intros [= <-]; [|done].
  cbn [emit with_trace cvars]. by repeat (case_match; rewrite ?set_callstate_cvars; try done).
Qed.

Lemma set_state_cvars st c c' : switch_channel_perform_set_state st c = Some c' -> cvars c' = cvars c.
Proof. unfold switch_channel_perform_set_state. repeat case_match; intros; by simplify_eq. Qed.

(** The value of a cause is not taken for an array. *)
Lemma cause2str_plain n : Event.plain_data (switch_channel_cause2str n).
Proof.
  unfold switch_channel_cause2str. assert (Forall (fun e => strstr e.1 (str "ARRAY::") = None) CAUSE_CHART) as H.
  { apply (bool_decide_unpack _). vm_compute. exact I. }
  induction H as [|[nm m] ch Hn _ IH]; [done|]. simpl. by destruct (m =? n).
Qed.

(** The variables are in order and the list of causes to skip can be split. *)
Definition cdr_ok (s : session) : Prop :=
  (exists sp, ChannelVars.represents (cvars (chan s)) sp) /\ cause_listed (get_var s (str "skip_cdr_causes")) 0 <> None.

Lemma cdr_ok_same s s' : cvars (chan s') = cvars (chan s) -> cdr_ok s -> cdr_ok s'.
Proof. unfold cdr_ok, get_var, get_variable. by intros ->. Qed.

Lemma set_var_cdr_ok name value s :
  ChannelVars.vop_ok (ChannelVars.VSet name value) -> Event.lower name <> Event.lower (str "skip_cdr_causes") ->
  cdr_ok s -> cdr_ok (set_var name value s).
Proof.
  intros Hok Hne [[sp Hr] Hc]. unfold cdr_ok, set_var, get_var, get_variable, set_variable. simpl.
  destruct (ChannelVars.set_variable_other (ext (env cfg)) _ sp name value (str "skip_cdr_causes") Hr Hok) as [Hr' ->]; [done..|].
  by split.
Qed.

Lemma cdr_handlers_total s : cdr_ok s -> exists b, cdr_handlers s = Some b.
Proof.
  intros [_ Hc]. unfold cdr_handlers, cause_listed in *.
  destruct (get_var s (str "skip_cdr_causes")) as [[|c v]|]; cbn [mbind option_bind] in *; try by eexists.
  destruct (Tokenizer.switch_separate_string _ _ _); cbn [mbind option_bind] in *; [by eexists|done].
Qed.

Section bound.
Context (N : nat).

(** No extension has more than [N] applications left. *)
Definition bounded (s : session) : Prop := forall ext, (length (current_application s ext) <= N)%nat.

(** What the machine and its services do to a session: they act on the channel
    through its operations, record their calls, at most [n] of them a hangup
    handler of the endpoint, keep the mark SSF_HANGUP, the bound and the list of causes. *)
Record progress (n : nat) (s s' : session) : Prop := Progress {
  pg_chan : rtc chan_step (chan s) (chan s');
  pg_calls : exists ks, calls s' = calls s ++ ks /\ (hangup_calls ks <= n)%nat;
  pg_mark : ssf_hangup s = true -> ssf_hangup s' = true;
  pg_apps : bounded s -> bounded s';
  pg_cdr : cdr_ok s -> cdr_ok s'
}.

Lemma progress_refl n s : progress n s s.
Proof. split; [reflexivity| |done..]. exists []. rewrite app_nil_r. split; [done|]. unfold hangup_calls. simpl. lia. Qed.

Lemma progress_trans n m a b c : progress n a b -> progress m b c -> progress (n + m) a c.
Proof.
  intros [C1 (k1 & E1 & L1) M1 B1 D1] [C2 (k2 & E2 & L2) M2 B2 D2]. split; [by transitivity (chan b)| |auto..].
  exists (k1 ++ k2). rewrite E2, E1, app_assoc, hangup_calls_app. split; [done|lia].
Qed.

Lemma progress_0 n a b c : progress n a b -> progress 0 b c -> progress n a c.
Proof. intros H1 H2. replace n with (n + 0)%nat by lia. by eapply progress_trans. Qed.

(** [chain] composes the steps known to lead to a session. *)
Ltac chain :=
  first
    [ assumption
    | apply progress_refl
    | match goal with
      | H : progress 0 ?y ?z |- progress _ _ ?z => apply (progress_0 _ _ y); [clear H; chain | exact H]
      end ].

Lemma progress_step s c : chan_step (chan s) c -> (cdr_ok s -> cdr_ok (set_chan c s)) -> progress 0 s (set_chan c s).
Proof. intros H Hcdr. split; [by apply rtc_once| |done..]. exists []. rewrite app_nil_r. split; [done|unfold hangup_calls; simpl; lia]. Qed.

(** Extensions are not lengthened, and a new one has at most [N] applications. *)
Definition extensions_step (s s' : session) : Prop := forall ext apps', extensions s' !! ext = Some apps' ->
  match extensions s !! ext with
  | Some apps => (length apps' <= length apps)%nat
  | None => (length apps' <= N)%nat
  end.

(** Services that answer every call, act on the channel through its operations
    alone, do not lengthen an extension and leave the causes to skip a list. *)
Definition well_behaved : Prop := forall k s, exists s' r, external k s = Some (s', r)
  /\ rtc chan_step (chan s) (chan s') /\ calls s' = calls s /\ (ssf_hangup s = true -> ssf_hangup s' = true)
  /\ extensions_step s s' /\ (cdr_ok s -> cdr_ok s').

Lemma extensions_step_bounded s s' : extensions_step s s' -> bounded s -> bounded s'.
Proof.
  intros H Hb ext. specialize (H ext). specialize (Hb ext). unfold current_application in *.
  destruct (extensions s' !! ext) as [apps'|]; simpl; [|lia]. specialize (H apps' eq_refl).
  destruct (extensions s !! ext) as [apps|]; simpl in *; lia.
Qed.

Section teardown.
Hypothesis services_ok : well_behaved.

Definition call_weight (k : call) : nat := if decide (k = OnState Driver CS_HANGUP) then 1 else 0.

Lemma invoke_total k s : exists s' r, invoke k s = Some (s', r) /\ progress (call_weight k) s s'.
Proof.
  unfold invoke. destruct (services_ok k (log k s)) as (s' & r & -> & Hc & Hk & Hm & He & Hd). exists s', r. split; [done|].
  split; [done| |done|by apply (extensions_step_bounded (log k s))|done]. exists [k]. rewrite Hk. split; [done|]. unfold hangup_calls, call_weight. rewrite filter_cons.
  by case_decide.
Qed.

Lemma invoke__total k s : k <> OnState Driver CS_HANGUP -> exists s', invoke_ k s = Some s' /\ progress 0 s s'.
Proof.
  intros Hk. unfold invoke_. destruct (invoke_total k s) as (s' & r & -> & Hp). exists s'. split; [done|].
  unfold call_weight in Hp. by rewrite decide_False in Hp.
Qed.

Lemma set_var_progress name v s :
  ChannelVars.vop_ok (ChannelVars.VSet name v) -> Event.lower name <> Event.lower (str "skip_cdr_causes") ->
  progress 0 s (set_var name v s).
Proof. intros H1 H2. apply progress_step; [apply step_variable|]. by apply set_var_cdr_ok. Qed.

Lemma set_callstate_progress v s : progress 0 s (set_chan (switch_channel_perform_set_callstate v (chan s)) s).
Proof. apply progress_step; [apply step_callstate|]. apply cdr_ok_same. apply set_callstate_cvars. Qed.

Lemma clear_flag_progress f s : plain_flag f = true ->
  exists s', on_chan (switch_channel_clear_flag (env cfg) f) s = Some s' /\ progress 0 s s'.
Proof.
  intros Hf. unfold on_chan. pose proof (clear_plain_flag (env cfg) f (chan s) Hf) as Hc. rewrite Hc.
  eexists. split; [done|]. apply progress_step; [by eapply step_clear_flag|by apply cdr_ok_same].
Qed.

Lemma set_flag_progress f s : plain_flag f = true ->
  exists s', on_chan (switch_channel_set_flag (env cfg) f) s = Some s' /\ progress 0 s s'.
Proof.
  intros Hf. unfold on_chan, switch_channel_set_flag. pose proof (set_plain_flag (env cfg) f 1 (chan s) Hf) as Hc. rewrite Hc.
  eexists. split; [done|]. apply progress_step; [by eapply step_set_flag|by apply cdr_ok_same].
Qed.

Lemma running_state_progress st s :
  exists s', on_chan (switch_channel_perform_set_running_state (env cfg) st) s = Some s' /\ progress 0 s s'.
Proof.
  unfold on_chan. destruct (running_state_fields (env cfg) st (chan s)) as (c & Hc & _). rewrite Hc.
  eexists. split; [done|]. apply progress_step; [by eapply step_running_state|].
  apply cdr_ok_same. by eapply running_state_cvars.
Qed.

Lemma handler_ok_total who st s : exists s' b, handler_ok who st s = Some (s', b)
  /\ progress (call_weight (OnState who st)) s s'.
Proof.
  unfold handler_ok. destruct (has_handler who st); [|by eexists _, _; split; [|apply progress_refl]].
  destruct (invoke_total (OnState who st) s) as (s' & r & -> & Hp). by eexists _, _.
Qed.

Lemma channel_loop_total st fuel : forall i s, exists s' b, channel_loop fuel st i s = Some (s', b) /\ progress 0 s s'.
Proof.
  induction fuel as [|fuel IH]; intros i s; cbn [channel_loop]; [by eexists _, _; split; [|apply progress_refl]|].
  destruct (switch_channel_get_state_handler (chan s) i) as [h|]; [|by eexists _, _; split; [|apply progress_refl]].
  destruct (handler_ok_total (ChannelHandler h) st s) as (s1 & b & -> & Hp). unfold call_weight in Hp. rewrite decide_False in Hp by done.
  cbn [mbind option_bind]. destruct b; [|by eexists _, _].
  destruct (IH (i + 1) s1) as (s2 & b2 & -> & Hp2). eexists _, _. split; [done|]. by eapply progress_0.
Qed.

Lemma core_loop_total st hs : forall s, exists s' b, core_loop hs st s = Some (s', b) /\ progress 0 s s'.
Proof.
  induction hs as [|h hs IH]; intros s; cbn [core_loop]; [by eexists _, _; split; [|apply progress_refl]|].
  destruct (handler_ok_total (CoreHandler h) st s) as (s1 & b & -> & Hp). unfold call_weight in Hp. rewrite decide_False in Hp by done.
  cbn [mbind option_bind]. destruct b; [|by eexists _, _].
  destruct (IH s1) as (s2 & b2 & -> & Hp2). eexists _, _. split; [done|]. by eapply progress_0.
Qed.

Lemma log_progress k s : k <> OnState Driver CS_HANGUP -> progress 0 s (log k s).
Proof.
  intros Hk. split; [reflexivity| |done..]. exists [k]. split; [done|]. unfold hangup_calls. rewrite filter_cons, decide_False by done.
  simpl. lia.
Qed.

Lemma state_macro_total name st standard extra s :
  (forall s, bounded s -> exists s', standard s = Some s' /\ progress 0 s s') -> bounded s ->
  exists s', state_macro name st standard extra s = Some s' /\ progress (call_weight (OnState Driver name)) s s'.
Proof.
  intros Hstd Hb. unfold state_macro.
  match goal with |- context [handler_ok Driver name ?x] => set (s0 := x) end.
  assert (progress 0 s s0) as P0 by (unfold s0; case_match; [apply set_callstate_progress|apply progress_refl]).
  destruct (handler_ok_total Driver name s0) as (s1 & b & -> & P1). cbn [mbind option_bind].
  assert (progress (call_weight (OnState Driver name)) s s1) as P01 by (by eapply (progress_trans 0)).
  destruct b; cbn [negb]; [|by eexists].
  assert (exists s2 b2, (if extra then channel_loop 30 name 0 s1 else Some (s1, true)) = Some (s2, b2) /\ progress 0 s1 s2) as (s2 & b2 & -> & P2).
  { destruct extra; [apply channel_loop_total|]. eexists _, _. split; [done|apply progress_refl]. }
  cbn [mbind option_bind].
  assert (exists s3 b3, (if extra then core_loop (core_handlers cfg) name s2 else Some (s2, true)) = Some (s3, b3) /\ progress 0 s2 s3) as (s3 & b3 & -> & P3).
  { destruct extra; [apply core_loop_total|]. eexists _, _. split; [done|apply progress_refl]. }
  cbn [mbind option_bind]. assert (progress (call_weight (OnState Driver name)) s s3) as P03 by chain.
  case_match; [|by eexists]. destruct (Hstd (log (StandardHandler name) s3)) as (s4 & -> & P4); [by apply P03|]. eexists. split; [done|].
  eapply progress_0; [|done]. eapply progress_0; [done|]. by apply log_progress.
Qed.

Lemma advance_progress ext a apps s : current_application s ext = a :: apps -> progress 0 s (advance ext apps s).
Proof.
  intros Hc. split; [reflexivity| |done| |done].
  - exists []. rewrite app_nil_r. split; [done|unfold hangup_calls; simpl; lia].
  - intros Hb ext'. unfold current_application at 1. simpl. destruct (decide (ext = ext')) as [->|Hne].
    + rewrite lookup_insert_eq. specialize (Hb ext'). rewrite Hc in Hb. simpl in *. lia.
    + rewrite lookup_insert_ne by done. apply Hb.
Qed.

(** A call leaves an extension at most as long as it was. *)
Lemma invoke_shorter k s s' r ext : invoke k s = Some (s', r) -> is_Some (extensions s !! ext) ->
  (length (current_application s' ext) <= length (current_application s ext))%nat.
Proof.
  unfold invoke. intros H [apps Ha]. destruct (services_ok k (log k s)) as (x & y & H' & _ & _ & _ & He & _).
  rewrite H in H'. injection H' as <- <-. specialize (He ext). change (extensions (log k s)) with (extensions s) in He.
  unfold current_application. rewrite Ha in *. destruct (extensions s' !! ext) as [apps'|]; simpl; [by apply He|lia].
Qed.

Lemma zombie_loop_total ext n : forall s, (length (current_application s ext) < n)%nat ->
  exists s', zombie_loop n ext s = Some s' /\ progress 0 s s'.
Proof.
  induction n as [|n IH]; intros s Hn; [lia|]. cbn [zombie_loop].
  destruct (current_application s ext) as [|[name data] apps] eqn:Hc; [eexists; split; [done|apply progress_refl]|].
  destruct (invoke_total (Execute name data) (advance ext apps s)) as (s1 & r & H1 & P1). rewrite H1.
  apply (invoke_shorter _ _ _ _ ext) in H1; [|simpl; by rewrite lookup_insert_eq].
  unfold current_application at 2 in H1. simpl in H1. rewrite lookup_insert_eq in H1. simpl in H1, Hn.
  unfold call_weight in P1. rewrite decide_False in P1 by done. cbn [mbind option_bind].
  assert (progress 0 s s1) as P01 by (eapply progress_0; [by eapply advance_progress|done]).
  destruct (_ || _); [|by eexists]. destruct (IH s1) as (s2 & -> & P2); [lia|]. eexists. split; [done|]. by eapply progress_0.
Qed.

(** Fuel for the longest extension. *)
Context (fuel : nat) (enough : (N < fuel)%nat).

Lemma on_hangup_total s : bounded s -> exists s', switch_core_standard_on_hangup fuel s = Some s' /\ progress 0 s s'.
Proof.
  intros Hb. unfold switch_core_standard_on_hangup. destruct (clear_flag_progress CF_RECOVERING s) as (s1 & -> & P1); [done|].
  cbn [mbind option_bind].
  assert (exists s2, (if flag_set (chan s) CF_RECOVERING then Some s1 else invoke_ RecoveryUntrack s1) = Some s2 /\ progress 0 s1 s2)
    as (s2 & -> & P2) by (case_match; [eexists; split; [done|apply progress_refl]|by apply invoke__total]).
  cbn [mbind option_bind]. assert (progress 0 s s2) as P02 by chain.
  case_match; [|by eexists]. destruct (extension s2) as [ext|]; [|by eexists].
  destruct (zombie_loop_total ext fuel s2) as (s3 & -> & P3).
  { pose proof (pg_apps _ _ _ P02 Hb ext). lia. }
  eexists. split; [done|]. by eapply progress_0.
Qed.

Lemma variable_hook_total name s : exists s', variable_hook name s = Some s' /\ progress 0 s s'.
Proof.
  unfold variable_hook, api_hook. destruct (get_var s name) as [[|c v]|]; try (eexists; split; [done|apply progress_refl]).
  destruct (split_hook (c :: v)) as [cmd arg]. by apply invoke__total.
Qed.

(** The hangup state runs the endpoint's handler at most once, and marks the session. *)
Lemma hangup_state_total s : bounded s -> exists s',
  switch_core_session_hangup_state fuel true s = Some s' /\ ssf_hangup s' = true
  /\ progress (if ssf_hangup s then 0 else 1) s s'.
Proof.
  intros Hb. unfold switch_core_session_hangup_state. cbn [negb andb]. destruct (ssf_hangup s) eqn:Hs.
  { eexists. split_and!; [done..|apply progress_refl]. }
  destruct (invoke__total SetHangupTime s) as (s1 & -> & P1); [done|]. cbn [mbind option_bind].
  destruct (invoke__total RemoveMediaBugs s1) as (s2 & -> & P2); [done|]. cbn [mbind option_bind].
  destruct (invoke__total StopBroadcast s2) as (s3 & -> & P3); [done|]. cbn [mbind option_bind].
  set (s4 := set_var _ _ (set_var _ _ s3)).
  assert (progress 0 s3 s4) as P4.
  { eapply progress_0; apply set_var_progress; try done; (split; [done|]; split; [by split|]);
      [apply cause2str_plain|apply Event.dec_plain]. }
  destruct (invoke__total SetTimestamps s4) as (s5 & -> & P5); [done|]. cbn [mbind option_bind].
  set (s6 := set_chan _ s5). assert (progress 0 s5 s6) as P6 by apply set_callstate_progress.
  destruct (state_macro_total CS_HANGUP (state (chan s)) (switch_core_standard_on_hangup fuel) true s6 on_hangup_total)
    as (s7 & -> & P7); [assert (progress 0 s s6) as P06 by chain; by apply P06|]. cbn [mbind option_bind].
  destruct (variable_hook_total (str "api_hangup_hook") s7) as (s8 & -> & P8). cbn [mbind option_bind].
  destruct (invoke__total ProcessDeviceHangup s8) as (s9 & -> & P9); [done|]. cbn [mbind option_bind].
  eexists. split_and!; [done..|]. change (call_weight (OnState Driver CS_HANGUP)) with 1%nat in P7.
  assert (progress 1 s s9) as [PC PK PM PB PD].
  { assert (progress 0 s s6) by chain. eapply progress_0; [|done]. eapply progress_0; [|done].
    by eapply (progress_trans 0 1). }
  by split.
Qed.

(** Without force it may not run at all. *)
Lemma hangup_state_unforced s : bounded s -> exists s',
  switch_core_session_hangup_state fuel false s = Some s' /\ progress 1 s s'.
Proof.
  intros Hb. destruct (hangup_state_total s Hb) as (s1 & H1 & _ & P1).
  unfold switch_core_session_hangup_state in *. cbn [negb andb] in *.
  destruct (_ || _); [eexists; split; [done|apply progress_refl]|]. rewrite H1. eexists. split; [done|].
  destruct (ssf_hangup s); [|done]. destruct P1 as [Hc (ks & Hk & Hn) Hm Hb' Hd]. split; [done| |done..]. exists ks. split; [done|lia].
Qed.

Lemma reporting_state_total s : bounded s -> cdr_ok s ->
  exists s', switch_core_session_reporting_state s = Some s' /\ progress 0 s s'.
Proof.
  intros Hb Hcdr. unfold switch_core_session_reporting_state. destruct (flag_set (chan s) CF_REPORTING).
  { eexists. split; [done|apply progress_refl]. }
  destruct (set_flag_progress CF_REPORTING s) as (s1 & -> & P1); [done|]. cbn [mbind option_bind].
  destruct (cdr_handlers_total s1) as [extra ->]; [by apply P1|]. cbn [mbind option_bind].
  destruct (state_macro_total CS_REPORTING (state (chan s)) Some extra s1) as (s2 & -> & P2).
  { intros x _. eexists. split; [done|apply progress_refl]. }
  { by apply P1. }
  change (call_weight (OnState Driver CS_REPORTING)) with 0%nat in P2. cbn [mbind option_bind].
  destruct (variable_hook_total (str "api_reporting_hook") s2) as (s3 & -> & P3). cbn [mbind option_bind].
  destruct (invoke__total (FireHangupComplete (switch_channel_cause2str (hangup_cause (chan s)))) s3) as (s4 & -> & P4); [done|].
  eexists. split; [done|]. chain.
Qed.

(** A channel that is down stays down. *)
Definition down (s : session) : Prop := cs CS_HANGUP <= cs (state (chan s)) <= cs CS_DESTROY.

Lemma progress_down n s s' : progress n s s' -> down s -> down s' /\ cs (state (chan s)) <= cs (state (chan s')).
Proof.
  intros [Hc _ _ _ _] [H1 H2]. destruct (rtc_teardown _ _ Hc) as [Ht _]. destruct (Ht H1) as [H3 _].
  pose proof (rtc_state_bound _ _ Hc H2). unfold down. lia.
Qed.

Lemma set_state_progress st s : down s -> cs st <= cs CS_DESTROY ->
  exists s', on_chan (switch_channel_perform_set_state st) s = Some s' /\ progress 0 s s'
    /\ state (chan s') = if cs (state (chan s)) <=? cs st then st else state (chan s).
Proof.
  intros Hd Hst. unfold on_chan. destruct (set_state_down st (chan s) Hd Hst) as (c & Hc & Hs). rewrite Hc.
  eexists. split_and!; [done| |done]. apply progress_step; [by eapply step_set_state|].
  apply cdr_ok_same. by eapply set_state_cvars.
Qed.

Lemma check_presence_total s : exists s', check_presence s = Some s' /\ progress 0 s s'.
Proof.
  unfold check_presence. destruct (_ || _); [|eexists; split; [done|apply progress_refl]].
  destruct (_ =? _); [|by apply invoke__total].
  destruct (invoke__total (Presence (str "cancelled")) s) as (s1 & -> & P1); [done|]. cbn [mbind option_bind].
  eexists. split; [done|]. eapply progress_0; [done|]. by apply set_var_progress; [split|].
Qed.

Lemma run_hooks_total n : forall i s, exists s', run_hooks n i s = Some s' /\ progress 0 s s'.
Proof.
  induction n as [|n IH]; intros i s; cbn [run_hooks]; [eexists; split; [done|apply progress_refl]|].
  destruct (invoke_total (StateRunHook i) s) as (s1 & r & -> & P1). unfold call_weight in P1. rewrite decide_False in P1 by done.
  cbn [mbind option_bind]. case_match; [|by eexists]. destruct (IH (S i) s1) as (s2 & -> & P2). eexists. split; [done|]. by eapply progress_0.
Qed.

Lemma state_run_hooks_total s : exists s', state_run_hooks_ s = Some s' /\ progress 0 s s'.
Proof.
  unfold state_run_hooks_.
  assert (exists s1 r, (if state_run cfg then invoke StateRun s else Some (s, SWITCH_STATUS_SUCCESS)) = Some (s1, r) /\ progress 0 s s1)
    as (s1 & r & -> & P1).
  { destruct (state_run cfg); [|by eexists _, _; split; [|apply progress_refl]].
    destruct (invoke_total StateRun s) as (s1 & r & -> & P1). unfold call_weight in P1. rewrite decide_False in P1 by done. by eexists _, _. }
  cbn [mbind option_bind]. case_match; [|by eexists]. destruct (run_hooks_total (state_run_hooks cfg) 0 s1) as (s2 & -> & P2).
  eexists. split; [done|]. by eapply progress_0.
Qed.

(** The pause of a session whose channel is down. *)
Lemma rest_total n s : down s -> exists s' m, rest fuel n s = Some (s', m) /\ progress 0 s s'.
Proof.
  intros Hd. unfold rest. destruct (settled s); cbn [negb]; [|by eexists _, _; split; [|apply progress_refl]].
  rewrite bool_decide_eq_false_2 by (intros H; destruct Hd as [Hd _]; rewrite H in Hd; by vm_compute in Hd).
  destruct (invoke__total ParseEvents s) as (s1 & -> & P1); [done|]. cbn [mbind option_bind].
  destruct (invoke__total ParseEvents s1) as (s2 & -> & P2); [done|]. cbn [mbind option_bind].
  match goal with |- context [mbind _ (if settled s2 then ?t else _)] =>
    assert (exists s3, (if settled s2 then t else Some s2) = Some s3 /\ progress 0 s2 s3) as (s3 & -> & P3) end.
  { destruct (settled s2); [|eexists; split; [done|apply progress_refl]].
    destruct (set_flag_progress CF_THREAD_SLEEPING s2) as (a & -> & Pa); [done|]. cbn [mbind option_bind].
    assert (exists b, (if settled a then s0 ← invoke_ ParseEvents a; invoke_ CondWait s0 else Some a) = Some b /\ progress 0 a b)
      as (b & -> & Pb).
    { destruct (settled a); [|eexists; split; [done|apply progress_refl]].
      destruct (invoke__total ParseEvents a) as (x & -> & Px); [done|]. cbn [mbind option_bind].
      destruct (invoke__total CondWait x) as (y & -> & Py); [done|]. eexists. split; [done|]. by eapply progress_0. }
    cbn [mbind option_bind]. destruct (clear_flag_progress CF_THREAD_SLEEPING b) as (c & -> & Pc); [done|].
    eexists. split; [done|]. chain. }
  cbn [mbind option_bind].
  destruct (invoke__total ParseEvents s3) as (s4 & -> & P4); [done|]. cbn [mbind option_bind].
  destruct (invoke__total ParseEvents s4) as (s5 & -> & P5); [done|]. cbn [mbind option_bind].
  eexists _, _. split; [done|]. chain.
Qed.

Definition weight (s : session) : nat := if ssf_hangup s then 0 else 1.

Lemma progress_weight s s' : progress 0 s s' -> (weight s' <= weight s)%nat.
Proof. intros [_ _ Hm _ _]. unfold weight. destruct (ssf_hangup s); [by rewrite Hm|]. by destruct (ssf_hangup s'); lia. Qed.

Lemma progress_weaken n m s s' : (n <= m)%nat -> progress n s s' -> progress m s s'.
Proof. intros Hle [Hc (ks & Hk & Hn) Hm Hb Hd]. split; [done| |done..]. exists ks. split; [done|lia]. Qed.

(** Entering the state of a channel that is down. *)
Lemma enter_down resets s : down s -> bounded s -> cdr_ok s -> state (chan s) <> CS_DESTROY ->
  exists s' finished, enter_state resets fuel (state (chan s)) s = Some (s', finished) /\ progress (weight s) s s'
    /\ if finished : bool then state (chan s') = CS_DESTROY
       else state (chan s) = CS_HANGUP /\ cs CS_REPORTING <= cs (state (chan s')) /\ ssf_hangup s' = true.
Proof.
  intros Hd Hb Hcdr Hne. unfold enter_state. rewrite (proj2 (Z.leb_le (cs CS_HANGUP) _)), orb_true_r by apply Hd.
  set (st := state (chan s)) in *.
  destruct (running_state_progress st s) as (s1 & -> & P1). cbn [mbind option_bind].
  destruct (clear_flag_progress CF_TRANSFER s1) as (s2 & -> & P2); [done|]. cbn [mbind option_bind].
  destruct (clear_flag_progress CF_REDIRECT s2) as (s3 & -> & P3); [done|]. cbn [mbind option_bind].
  destruct (invoke__total ParseMessages s3) as (s4 & -> & P4); [done|]. cbn [mbind option_bind].
  destruct (state_run_hooks_total s4) as (s5 & -> & P5). cbn [mbind option_bind].
  assert (progress 0 s s5) as P by chain. clear P1 P2 P3 P4 P5 s1 s2 s3 s4.
  destruct (progress_down _ _ _ P Hd) as [Hd5 Hle]. pose proof (pg_apps _ _ _ P Hb) as Hb5. fold st in Hle. pose proof (progress_weight _ _ P) as Hw.
  assert (st = CS_HANGUP \/ st = CS_REPORTING) as [Hst|Hst].
  { destruct Hd as [Hd1 Hd2]. fold st in Hd1, Hd2. clear -Hd1 Hd2 Hne. destruct st; cbn in Hd1, Hd2; auto; try lia; done. }
  - rewrite Hst. cbn [run_state]. destruct (hangup_state_total s5 Hb5) as (s6 & -> & Hm & P6). cbn [mbind option_bind].
    destruct (progress_down _ _ _ P6 Hd5) as [Hd6 _].
    destruct (set_state_progress CS_REPORTING s6 Hd6) as (s7 & -> & P7 & Hs7); [done|]. cbn [mbind option_bind].
    destruct (progress_down _ _ _ P7 Hd6) as [Hd7 _].
    destruct (check_presence_total s7) as (s8 & -> & P8). cbn [mbind option_bind].
    destruct (progress_down _ _ _ P8 Hd7) as [_ Hle8]. fold (weight s5) in P6.
    assert (progress (weight s) s s6) as P06 by (eapply progress_weaken; [exact Hw|]; by eapply (progress_trans 0)).
    eexists _, _. split; [done|]. split; [chain|]. split; [done|]. split.
    + rewrite Hs7 in Hle8. destruct (Z.leb_spec (cs (state (chan s6))) (cs CS_REPORTING)); lia.
    + by apply P8, P7.
  - rewrite Hst. cbn [run_state]. destruct (reporting_state_total s5 Hb5) as (s6 & -> & P6); [by apply P|].
    cbn [mbind option_bind]. destruct (progress_down _ _ _ P6 Hd5) as [Hd6 _].
    destruct (set_state_progress CS_DESTROY s6 Hd6) as (s7 & -> & P7 & Hs7); [done|]. cbn [mbind option_bind].
    eexists _, _. split; [done|]. split; [apply (progress_weaken 0); [lia|chain]|].
    rewrite Hs7, (proj2 (Z.leb_le _ _)); [done|apply Hd6].
Qed.

(** One turn of the thread: it ends with a destroyed channel, or the hangup
    handlers have run and the channel is past CS_HANGUP. *)
Lemma turn_down resets n s : down s -> bounded s -> cdr_ok s ->
  exists s' m finished, run_turn resets fuel n s = Some (s', m, finished) /\ progress (weight s) s s'
    /\ if finished : bool then state (chan s') = CS_DESTROY
       else cs (state (chan s)) <= cs CS_HANGUP /\ down s' /\ cs CS_REPORTING <= cs (state (chan s')) /\ ssf_hangup s' = true.
Proof.
  intros Hd Hb Hcdr. unfold run_turn. case_bool_decide as He.
  { eexists _, _, true. split; [done|]. split; [apply progress_refl|done]. }
  assert (exists s1, (if flag_set (chan s) CF_BLOCK_STATE then invoke_ WaitBlockState s else Some s) = Some s1 /\ progress 0 s s1)
    as (s1 & -> & P1) by (case_match; [by apply invoke__total|eexists; split; [done|apply progress_refl]]).
  cbn [mbind option_bind]. destruct (progress_down _ _ _ P1 Hd) as [Hd1 Hle1]. pose proof (progress_weight _ _ P1) as Hw.
  case_bool_decide as He1.
  { eexists _, _, true. split; [done|]. split; [apply (progress_weaken 0); [lia|done]|done]. }
  destruct (enter_down resets s1 Hd1 (pg_apps _ _ _ P1 Hb) (pg_cdr _ _ _ P1 Hcdr) He1) as (s2 & fin & -> & P2 & H2).
  cbn [mbind option_bind].
  assert (progress (weight s) s s2) as P02 by (eapply progress_weaken; [exact Hw|]; by eapply (progress_trans 0)).
  destruct fin; [by eexists _, _, true|]. destruct H2 as (Hs1 & Hs2 & Hm2). rewrite Hs1 in Hle1.
  destruct (progress_down _ _ _ P2 Hd1) as [Hd2 _].
  destruct (rest_total n s2 Hd2) as (s3 & m & -> & P3). cbn [mbind option_bind].
  destruct (progress_down _ _ _ P3 Hd2) as [Hd3 Hle3]. eexists _, _, false. split; [done|]. split; [chain|].
  split_and!; [done..|lia|by apply P3].
Qed.

(** C2: a session whose channel is down always comes to its end.  With services
    that answer, act on the channel through its operations, do not lengthen a
    dialplan extension and leave skip_cdr_causes a list that can be split, the
    session thread ends after at most two more turns with the channel in
    CS_DESTROY and its hangup cause unchanged, having called the endpoint's
    hangup handler at most once, and not at all if it had run before. *)
Theorem session_teardown_completes resets n s :
  down s -> bounded s -> cdr_ok s ->
  exists s' ks, run_loop 2 resets fuel n s = Some (s', true)
    /\ state (chan s') = CS_DESTROY /\ hangup_cause (chan s') = hangup_cause (chan s)
    /\ calls s' = calls s ++ ks /\ (hangup_calls ks <= if ssf_hangup s then 0 else 1)%nat.
Proof.
  intros Hd Hb Hcdr. cbn [run_loop].
  assert (forall x, progress (weight s) s x -> state (chan x) = CS_DESTROY ->
    exists s' ks, Some (x, true) = Some (s', true) /\ state (chan s') = CS_DESTROY /\ hangup_cause (chan s') = hangup_cause (chan s)
      /\ calls s' = calls s ++ ks /\ (hangup_calls ks <= if ssf_hangup s then 0 else 1)%nat) as Hend.
  { intros x [Hc (ks & Hk & Hn) _ _ _] Hx. exists x, ks. split_and!; [done..| |done|done].
    destruct (rtc_teardown _ _ Hc) as [H _]. apply H, Hd. }
  destruct (turn_down resets n s Hd Hb Hcdr) as (s1 & m1 & f1 & -> & P1 & H1). cbn [mbind option_bind].
  destruct f1; [by apply Hend|]. destruct H1 as (_ & Hd1 & Hr1 & Hm1).
  destruct (turn_down resets m1 s1 Hd1 (pg_apps _ _ _ P1 Hb) (pg_cdr _ _ _ P1 Hcdr)) as (s2 & m2 & f2 & -> & P2 & H2).
  cbn [mbind option_bind]. unfold weight in P2. rewrite Hm1 in P2.
  destruct f2; [apply Hend; [chain|done]|]. destruct H2 as (H2 & _). cbn in H2, Hr1. lia.
Qed.

End teardown.

Lemma flag_set_put c f g v : f <> g -> flag_set (put_flag f v c) g = flag_set c g.
Proof.
  intros Hne. unfold flag_set, switch_channel_test_flag, put_flag. simpl. rewrite list_lookup_insert_ne; [done|].
  by intros ?%cf_inj.
Qed.

(** The hangup of a channel that is up. *)
Lemma session_hangup_down (services_ok : well_behaved) (fuel : nat) (enough : (N < fuel)%nat) cause s :
  bounded s ->
  state (chan s) <> CS_NONE -> cs (state (chan s)) < cs CS_HANGUP -> flag_set (chan s) CF_LEG_HOLDING = false ->
  Z.land (opaque_flags (chan s)) OCF_HANGUP = 0 ->
  exists s', session_hangup fuel cause s = Some s' /\ down s' /\ hangup_cause (chan s') = cause
    /\ exists ks, calls s' = calls s ++ ks.
Proof.
  intros Hb Hn Hup Hhold Hmark. unfold session_hangup, switch_channel_perform_hangup. rewrite (proj2 (Z.eqb_eq _ _) Hmark).
  cbn [negb]. change (flag_set (with_opaque_flags ?o ?c) ?f) with (flag_set c f). rewrite Hhold. cbn [mbind option_bind].
  rewrite clear_plain_flag by done. cbn [mbind option_bind]. set (d := put_flag CF_BLOCK_STATE 0 _).
  assert (state d = state (chan s)) as -> by done. rewrite (proj2 (Z.ltb_lt _ _)) by done. cbn [mbind option_bind].
  destruct (hangup_now_spec (env cfg) cause d) as (es & Hst & Hca & _ & _ & Ht & _ & Hh).
  set (c' := hangup_now (env cfg) cause d) in *. rewrite Ht. change (trace d) with (trace (chan s)). rewrite hangups_app, Hh.
  rewrite (proj2 (Nat.ltb_lt _ _)) by lia.
  destruct (hangup_state_unforced services_ok fuel enough (set_chan c' s) Hb) as (s' & -> & P).
  assert (down (set_chan c' s)) as Hd by (unfold down; cbn [set_chan chan]; rewrite Hst; vm_compute; split; discriminate).
  exists s'. split_and!; [done|by eapply progress_down| |].
  - destruct P as [Hc _ _ _ _]. destruct (rtc_teardown _ _ Hc) as [H _]. destruct (H (proj1 Hd)) as [_ ->]. done.
  - destruct P as [_ (ks & Hk & _) _ _ _]. by exists ks.
Qed.

(** ** A session nobody takes care of *)

Section idle.
Hypothesis idle : forall k s, external k s = Some (s, SWITCH_STATUS_SUCCESS).
Context (fuel : nat) (enough : (N < fuel)%nat).

Lemma idle_well_behaved : well_behaved.
Proof.
  intros k s. exists s, SWITCH_STATUS_SUCCESS. rewrite idle. split_and!; [done..| |done]. by intros ext apps ->.
Qed.

Lemma invoke_idle k s : invoke k s = Some (log k s, SWITCH_STATUS_SUCCESS).
Proof. apply idle. Qed.

Lemma invoke__idle k s : invoke_ k s = Some (log k s).
Proof. unfold invoke_. by rewrite invoke_idle. Qed.

Lemma state_run_hooks_idle s : exists s', state_run_hooks_ s = Some s' /\ chan s' = chan s /\ extensions s' = extensions s.
Proof.
  assert (forall n i s, exists s', run_hooks n i s = Some s' /\ chan s' = chan s /\ extensions s' = extensions s) as H.
  { induction n as [|n IH]; intros i s0; [by exists s0|]. cbn [run_hooks]. rewrite invoke_idle. cbn [mbind option_bind].
    rewrite bool_decide_eq_true_2 by done. destruct (IH (S i) (log (StateRunHook i) s0)) as (s' & -> & Hs). by exists s'. }
  unfold state_run_hooks_. destruct (state_run cfg); rewrite ?invoke_idle; cbn [mbind option_bind];
    rewrite bool_decide_eq_true_2 by done; [|apply H].
  by destruct (H (state_run_hooks cfg) 0%nat (log StateRun s)) as (s' & -> & Hs); exists s'.
Qed.

(** A new channel that nothing blocks, with no flags waiting and no hangup under way. *)
Record waiting (c : channel) : Prop := {
  w_new : state c = CS_NEW;
  w_block : flag_set c CF_BLOCK_STATE = false;
  w_hold : flag_set c CF_LEG_HOLDING = false;
  w_flags : default 0 (state_flags c !! 0%nat) = 0;
  w_mark : Z.land (opaque_flags c) OCF_HANGUP = 0
}.

Lemma waiting_put f v c : f <> CF_BLOCK_STATE -> f <> CF_LEG_HOLDING -> waiting c -> waiting (put_flag f v c).
Proof. intros H1 H2 []. split; rewrite ?flag_set_put by done; done. Qed.

Lemma promote_nothing c : default 0 (state_flags c !! 0%nat) = 0 -> promote_state_flags c = c.
Proof.
  unfold promote_state_flags. destruct (flags c) as [|f0 fl]; [done|]. destruct (state_flags c) as [|s0 sf]; [done|].
  simpl. by intros ->.
Qed.

(** Running CS_NEW only clears CF_TAGGED, and may announce the call state. *)
Lemma run_new_waiting e c : waiting c ->
  exists c', switch_channel_perform_set_running_state e CS_NEW c = Some c' /\ waiting c' /\ running_state c' = CS_NEW.
Proof.
  intros Hw. destruct (running_state_fields e CS_NEW c) as (c' & Hc' & Hr & Hf & Hsf). exists c'. split; [done|]. split; [|done].
  pose proof (set_running_state_calm _ _ _ _ Hc') as [Hs _ Ho _].
  rewrite promote_nothing in Hf, Hsf by apply Hw. destruct Hw as [W1 W2 W3 W4 W5].
  split; rewrite ?Hs, ?Ho, ?Hsf; try done.
  - unfold flag_set, switch_channel_test_flag in *. rewrite Hf, list_lookup_insert_ne; done.
  - unfold flag_set, switch_channel_test_flag in *. rewrite Hf, list_lookup_insert_ne; done.
Qed.

Lemma enter_new resets s : waiting (chan s) -> exists s', enter_state resets fuel CS_NEW s = Some (s', false)
  /\ extensions s' = extensions s /\ waiting (chan s') /\ running_state (chan s') = CS_NEW.
Proof.
  intros Hw. unfold enter_state. case_bool_decide as Hr; cbn [negb orb].
  { change (cs CS_HANGUP <=? cs CS_NEW) with false. by exists s. }
  unfold on_chan. destruct (run_new_waiting (env cfg) (chan s) Hw) as (c1 & -> & W1 & R1). cbn [mbind option_bind chan set_chan].
  rewrite clear_plain_flag by done. cbn [mbind option_bind chan set_chan]. rewrite clear_plain_flag by done. cbn [mbind option_bind].
  rewrite invoke__idle. cbn [mbind option_bind].
  match goal with |- context [state_run_hooks_ ?x] => destruct (state_run_hooks_idle x) as (s2 & -> & Hc2 & E2) end.
  cbn [mbind option_bind run_state]. cbn in Hc2.
  assert (waiting (chan s2)) as W2 by (rewrite Hc2; by repeat apply waiting_put).
  assert (running_state (chan s2) = CS_NEW) as R2 by (by rewrite Hc2).
  unfold check_presence. rewrite R2, !bool_decide_eq_false_2 by done. cbn [orb mbind option_bind]. by exists s2.
Qed.

(** One turn on a waiting channel uses up one of its loops. *)
Lemma turn_waiting resets n s : waiting (chan s) -> 1 < n < 2 ^ 32 ->
  exists s', run_turn resets fuel n s = Some (s', n - 1, false) /\ waiting (chan s') /\ extensions s' = extensions s.
Proof.
  intros Hw Hn. unfold run_turn. rewrite (w_new _ Hw), (w_block _ Hw). cbn [mbind option_bind].
  rewrite bool_decide_eq_false_2, (w_new _ Hw), bool_decide_eq_false_2 by done.
  destruct (enter_new resets s Hw) as (s1 & -> & E1 & W1 & R1). cbn [mbind option_bind].
  unfold rest, settled. rewrite (w_new _ W1), R1, bool_decide_eq_true_2 by done. cbn [negb].
  rewrite invoke__idle. cbn [mbind option_bind]. rewrite invoke__idle. cbn [mbind option_bind].
  rewrite (wrap_small 32) by lia. rewrite (proj2 (Z.eqb_neq _ _)) by lia. cbn [mbind option_bind]. by eexists.
Qed.

Lemma turn_abandoned resets s : bounded s -> waiting (chan s) ->
  exists s', run_turn resets fuel 1 s = Some (s', 0, false) /\ down s' /\ hangup_cause (chan s') = SWITCH_CAUSE_WRONG_CALL_STATE.
Proof.
  intros Hb Hw. unfold run_turn. rewrite (w_new _ Hw), (w_block _ Hw). cbn [mbind option_bind].
  rewrite bool_decide_eq_false_2, (w_new _ Hw), bool_decide_eq_false_2 by done.
  destruct (enter_new resets s Hw) as (s1 & -> & E1 & W1 & R1). cbn [mbind option_bind].
  unfold rest, settled. rewrite (w_new _ W1), R1, bool_decide_eq_true_2 by done. cbn [negb].
  rewrite invoke__idle. cbn [mbind option_bind]. rewrite invoke__idle. cbn [mbind option_bind].
  change (u32 (1 - 1)) with 0. cbn [Z.eqb]. unfold on_chan, switch_channel_set_flag. rewrite set_plain_flag by done.
  cbn [mbind option_bind]. cbn [chan log].
  match goal with |- context [session_hangup fuel ?k ?x] => destruct (session_hangup_down idle_well_behaved fuel enough k x) as (s2 & -> & Hd & Hc & _) end.
  - intros ext. unfold current_application. simpl. rewrite E1. apply Hb.
  - simpl. by rewrite (w_new _ W1).
  - simpl. by rewrite (w_new _ W1).
  - simpl. rewrite flag_set_put by done. apply W1.
  - simpl. apply W1.
  - by exists s2.
Qed.

(** A session that gets no instructions is given up.  A new channel whose
    services answer and never act on the session stays in CS_NEW for 499 turns
    of its thread; the 500th turn hangs it up with cause WRONG_CALL_STATE. *)
Theorem session_new_abandoned resets s :
  bounded s -> waiting (chan s) ->
  (forall t, (t < 500)%nat -> exists s', switch_core_session_run t resets fuel s = Some (s', false) /\ state (chan s') = CS_NEW)
  /\ exists s', switch_core_session_run 500 resets fuel s = Some (s', false)
       /\ down s' /\ hangup_cause (chan s') = SWITCH_CAUSE_WRONG_CALL_STATE.
Proof.
  intros Hb Hw. unfold switch_core_session_run.
  assert (forall t k x, waiting (chan x) -> (t < k)%nat -> (k <= 500)%nat ->
    exists s', run_loop t resets fuel (Z.of_nat k) x = Some (s', false) /\ waiting (chan s')) as Hloop.
  { induction t as [|t IH]; intros k x Hx Ht Hk; [by exists x|]. cbn [run_loop].
    destruct (turn_waiting resets (Z.of_nat k) x Hx) as (x1 & -> & W1 & _); [lia|]. cbn [mbind option_bind].
    replace (Z.of_nat k - 1) with (Z.of_nat (k - 1)) by lia. apply IH; [done|lia..]. }
  assert (forall t x, bounded x -> waiting (chan x) -> (S t <= 500)%nat ->
    exists s', run_loop (S t) resets fuel (Z.of_nat (S t)) x = Some (s', false)
      /\ down s' /\ hangup_cause (chan s') = SWITCH_CAUSE_WRONG_CALL_STATE) as Hlast.
  { induction t as [|t IH]; intros x Hbx Hx Ht; cbn [run_loop].
    - destruct (turn_abandoned resets x Hbx Hx) as (x1 & H1 & Hd & Hc). change (Z.of_nat 1) with 1. rewrite H1. cbn [mbind option_bind]. by exists x1.
    - destruct (turn_waiting resets (Z.of_nat (S (S t))) x Hx) as (x1 & -> & W1 & E1); [lia|]. cbn [mbind option_bind].
      replace (Z.of_nat (S (S t)) - 1) with (Z.of_nat (S t)) by lia. apply IH; [|done|lia].
      intros ext. unfold current_application. rewrite E1. apply Hbx. }
  split.
  - intros t Ht. destruct (Hloop t 500%nat s Hw Ht) as (s' & Hr & W'); [lia|]. exists s'. split; [done|apply W'].
  - apply (Hlast 499%nat s Hb Hw). lia.
Qed.

End idle.

(** ** Running a dialplan extension *)

Section execute.
Context (services_ok : well_behaved) (fuel : nat) (enough : (N < fuel)%nat).

(** The channel executes an extension: it is ready, and there is no reason to
    stop, to start again, or to answer a blind transfer. *)
Record executing (s : session) : Prop := Executing {
  ex_state : state (chan s) = CS_EXECUTE; ex_running : running_state (chan s) = CS_EXECUTE; ex_cause : hangup_cause (chan s) = 0;
  ex_flags : Forall (fun f => flag_set (chan s) f = false) [CF_RESET; CF_LEG_HOLDING; CF_TRANSFER; CF_NOT_READY; CF_CONFIRM_BLIND_TRANSFER];
  ex_mark : Z.land (opaque_flags (chan s)) OCF_HANGUP = 0 }.

Lemma executing_flag s f : executing s -> f ∈ [CF_RESET; CF_LEG_HOLDING; CF_TRANSFER; CF_NOT_READY; CF_CONFIRM_BLIND_TRANSFER] ->
  flag_set (chan s) f = false.
Proof. intros [_ _ _ Hf _] Hin. by apply (proj1 (Forall_forall _ _) Hf). Qed.

(** Applications succeed, and leave the channel executing and the dialplan as it
    is; whatever else they do is up to them. *)
Hypothesis applications_run : forall name data s, executing s ->
  exists s', external (Execute name data) s = Some (s', SWITCH_STATUS_SUCCESS) /\ executing s'
    /\ extensions s' = extensions s /\ calls s' = calls s.

Definition execute_call (a : application) : call := Execute a.1 a.2.

Lemma executing_same s s' : chan s' = chan s -> executing s -> executing s'.
Proof. intros E [H1 H2 H3 H4 H5]. split; by rewrite E. Qed.

Lemma execute_loop_all ext apps : forall n s,
  executing s -> extensions s !! ext = Some apps -> (length apps < n)%nat ->
  exists s', execute_loop n ext s = Some (s', ExecuteDone) /\ executing s' /\ calls s' = calls s ++ (execute_call <$> apps)
    /\ (bounded s -> bounded s').
Proof.
  induction apps as [|[name data] apps IH]; intros n s Hs Hext Hfuel; (destruct n as [|n]; [simpl in Hfuel; lia|]);
    cbn [execute_loop]; rewrite bool_decide_eq_true_2 by apply Hs; unfold current_application; rewrite Hext; cbn [default from_option].
  - exists s. simpl. by rewrite app_nil_r.
  - unfold id, invoke. set (s0 := log (Execute name data) (advance ext apps s)).
    destruct (applications_run name data s0) as (s1 & -> & Hs1 & He1 & Hk1); [by apply (executing_same s)|].
    cbn [mbind option_bind]. rewrite bool_decide_eq_true_2 by done. cbn [negb].
    rewrite (executing_flag s1 CF_RESET) by (done || apply list_elem_of_here).
    destruct (IH n s1) as (s' & -> & Hs' & Hk & Hb); [done|rewrite He1; simpl; by rewrite lookup_insert_eq|simpl in Hfuel; lia|].
    exists s'. split_and!; [done..| |].
    + rewrite Hk, Hk1. simpl. by rewrite <-app_assoc.
    + intros Hbs. apply Hb. intros x. unfold current_application. rewrite He1.
      apply (advance_progress ext (name, data) apps s); [|done]. unfold current_application. by rewrite Hext.
Qed.

(** Marking a recovered channel changes nothing the execute state looks at. *)
Lemma mark_recovered s : exists s',
  (if bool_decide (is_Some (get_var s (str "recovered"))) && negb (flag_set (chan s) CF_RECOVERED)
   then on_chan (switch_channel_set_flag (env cfg) CF_RECOVERED) s else Some s) = Some s'
  /\ state (chan s') = state (chan s) /\ running_state (chan s') = running_state (chan s)
  /\ hangup_cause (chan s') = hangup_cause (chan s) /\ opaque_flags (chan s') = opaque_flags (chan s)
  /\ (forall f, f <> CF_RECOVERED -> flag_set (chan s') f = flag_set (chan s) f)
  /\ extension s' = extension s /\ extensions s' = extensions s /\ calls s' = calls s.
Proof.
  destruct (_ && _); [|by exists s]. eexists. split; [done|]. split_and!; try done.
  intros f Hf. apply (flag_set_put (chan s) CF_RECOVERED f 1). done.
Qed.


End execute.

End bound.

End machine.

(** ** Instances of the theorems *)

(** Services whose handlers all exist, succeed and do nothing. *)
Definition idle_services : Services := {|
  has_handler := fun _ _ => true;
  external := fun k s => Some (s, SWITCH_STATUS_SUCCESS)
|}.

Definition sample_config : config :=
  Config sample_env (str "uuid") [StateHandler 9 0] true 1 false true false false false (fun _ => false).

Definition new_session : session :=
  Session (with_running_state CS_NONE (switch_channel_alloc SWITCH_CALL_DIRECTION_INBOUND)) false None ∅ [].

Lemma idle_all : forall k s, @external idle_services k s = Some (s, SWITCH_STATUS_SUCCESS).
Proof. done. Qed.

Lemma new_session_table : handler_table (chan new_session) [].
Proof. split; [done..|simpl; lia|constructor]. Qed.

Lemma state_macro_order_witness :
  @state_macro idle_services sample_config CS_RESET CS_NEW Some true new_session
  = Some (add_calls [OnState Driver CS_RESET; OnState (CoreHandler (StateHandler 9 0)) CS_RESET; StandardHandler CS_RESET] new_session).
Proof.
  exact (@state_macro_order idle_services sample_config CS_RESET (fun _ => true) (fun _ _ => eq_refl) [] Some new_session
    new_session_table ltac:(discriminate)).
Defined.

Definition down_session : session :=
  Session (with_hangup_cause 17 (with_state CS_HANGUP (switch_channel_alloc SWITCH_CALL_DIRECTION_INBOUND))) false None ∅ [].

Lemma down_session_bounded : bounded 0 down_session.
Proof. intros ext. unfold current_application. simpl. rewrite lookup_empty. simpl. lia. Qed.

Lemma alloc_represents : exists sp, ChannelVars.represents (cvars (switch_channel_alloc SWITCH_CALL_DIRECTION_INBOUND)) sp.
Proof. eexists. apply ChannelVars.vars_alloc_represents. Qed.

Lemma down_session_cdr : cdr_ok sample_config down_session.
Proof. split; [exact alloc_represents|]. vm_compute. discriminate. Qed.

Lemma session_teardown_completes_witness :
  exists s' ks, @run_loop idle_services sample_config 2 1 1 500 down_session = Some (s', true)
    /\ state (chan s') = CS_DESTROY /\ hangup_cause (chan s') = 17 /\ calls s' = ks /\ (hangup_calls ks <= 1)%nat.
Proof.
  apply (@session_teardown_completes idle_services sample_config 0 (@idle_well_behaved idle_services sample_config 0 idle_all)
    1 ltac:(lia) 1 500 down_session); [|exact down_session_bounded|exact down_session_cdr].
  vm_compute. split; discriminate.
Defined.

Lemma new_session_waiting : waiting (chan new_session).
Proof. by split. Qed.

Lemma new_session_bounded : bounded 0 new_session.
Proof. intros ext. unfold current_application. simpl. rewrite lookup_empty. simpl. lia. Qed.

Lemma session_new_abandoned_witness :
  exists s', @switch_core_session_run idle_services sample_config 500 1 1 new_session = Some (s', false)
    /\ down s' /\ hangup_cause (chan s') = SWITCH_CAUSE_WRONG_CALL_STATE.
Proof.
  apply (@session_new_abandoned idle_services sample_config 0 idle_all 1 ltac:(lia) 1 new_session
    new_session_bounded new_session_waiting).
Defined.

Definition execute_session : session :=
  Session (with_state CS_EXECUTE (with_running_state CS_EXECUTE (switch_channel_alloc SWITCH_CALL_DIRECTION_INBOUND)))
    false (Some 4) {[4 := [(str "answer", []); (str "playback", str "welcome.wav")]]} [].

Lemma execute_session_bounded : bounded 2 execute_session.
Proof.
  intros ext. unfold current_application. cbn [extensions execute_session].
  destruct (decide (ext = 4)) as [->|Hne]; [by rewrite lookup_singleton_eq|]. rewrite lookup_singleton_ne by done. simpl. lia.
Qed.

(** Applications that open the media. *)
Definition media_services : Services := {|
  has_handler := fun _ _ => true;
  external := fun k s => Some (match k with Execute _ _ => set_chan (put_flag CF_EARLY_MEDIA 1 (chan s)) s | _ => s end, SWITCH_STATUS_SUCCESS)
|}.

Lemma media_well_behaved : @well_behaved media_services sample_config 2.
Proof.
  intros k s. exists (match k with Execute _ _ => set_chan (put_flag CF_EARLY_MEDIA 1 (chan s)) s | _ => s end), SWITCH_STATUS_SUCCESS.
  split; [done|]. destruct k; (split_and!; [try done|done|done|intros ext apps' Hx; cbn in Hx; by rewrite Hx|done]).
  apply rtc_once. by apply (step_set_flag (env sample_config) CF_EARLY_MEDIA 1).
Qed.

Lemma media_applications name data s : executing s ->
  exists s', @external media_services (Execute name data) s = Some (s', SWITCH_STATUS_SUCCESS) /\ executing s'
    /\ extensions s' = extensions s /\ calls s' = calls s.
Proof.
  intros [H1 H2 H3 H4 H5]. eexists. split; [done|]. split; [|done]. split; [done..| |done].
  repeat (apply Forall_cons in H4 as [? H4]). repeat constructor; cbn [chan set_chan]; by rewrite flag_set_put.
Qed.


End StateMachine.
